(* ===== verification/_CoqProject ===== *)
-Q . S2P
Prelude.v
LinkedList.v
Bitmap.v
Table.v
Disk.v
FileHeader.v
OpenFile.v
ReadWrite.v
Directory.v
FileSystem.v
Volume.v
Boot.v
Commands.v
Checking.v
Sessions.v
Mmu.v
Mips.v
MipsSpec.v
AddressSpace.v
Paging.v
Interrupt.v
Threads.v
Scheduling.v
Locking.v
Conditions.v
Transfer.v
UserMemory.v
Simulation.v
Execution.v
Timesharing.v
Console.v
Network.v
PostOffice.v
Syscalls.v
SyscallSpec.v
UserPrograms.v
Running.v
