(* ===== verification/Prelude.v ===== *)
(** * paldOS: a verification development

    paldOS is a Nachos-style teaching kernel in C++ that runs on a simulated
    MIPS machine.  This library models the kernel and the machine it simulates
    as Rocq functions and proves what makes them correct.  The build modelled is
    that of [src/filesys/Makefile], the one with every feature: [USER_PROGRAM],
    [VMEM], [FILESYS], [USE_TLB], [DEMAND_LOADING], [SWAP], [PRPOLICY_LRU],
    [MULTILEVEL_PRIORITY_QUEUE] and [DFS_TICKS_FIX], on a 64-bit little-endian host.

    ** The program and the files

    Each file of the library opens with a comment on the sources it models.

    - [Prelude] (this file): outcomes of C++ code, machine integers, arrays,
      loops, bytes; the tactics and hints of the library.
    - [LinkedList]: [lib/list.hh], the linked list at the level of nodes and
      pointers, with the functional specification [ListSpec].
    - [Bitmap]: [lib/bitmap.cc], bits packed in words; the class [FreeMapSpec] is
      what the allocators rely on.
    - [Table]: [lib/table.hh], the table of open files and of processes.
    - [Disk]: [machine/disk.cc] over its UNIX file and [filesys/synch_disk.cc],
      once sequentially and once as a step relation of threads and interrupts;
      the class [SectorStoreSpec] is the disk as the file system sees it.
    - [FileHeader], [OpenFile], [ReadWrite], [Directory], [FileSystem]: the file
      system, [filesys/*.cc].  Headers allocate sectors from the bitmap; an open
      file reads and writes bytes through its header ([OpenFile]) and through
      chains of headers with a position ([ReadWrite]); directories are tables in
      files; [FileSystem] has every operation of [filesys/file_system.cc] in a
      state monad over the disk, the table of open files and the current
      directory.  [Volume] proves what these layers do together: the current
      directory is a finite map from names to the bytes of files.  [Boot] has the
      constructor of [FileSystem]: formatting a disk, and finding the volume again
      when the machine starts.  [Checking] describes the answer of [Check].
    - [Commands]: [threads/main.cc], the arguments and the file system part of
      [threads/system.cc], and [filesys/fs_test.cc]: one run of the program
      [nachos].  The disk of the last run is found through the class [Restart] of
      [Disk].  [Sessions] proves what any number of runs do to the files.
    - [Mmu]: [machine/mmu.cc], translation through the TLB or a page table.
    - [Mips], [MipsSpec]: [machine/mips_sim.cc], [machine/instruction.cc],
      [machine/encoding.cc], [machine/machine.cc]: decoding and execution, over
      any memory of the class [Memory], of which [MMU_memory] is the machine's.
    - [AddressSpace], [Paging]: [userprog/executable.cc],
      [userprog/address_space.cc], the page-fault handler of
      [userprog/exception.cc] and [Scheduler::Run] for user programs: demand
      loading, replacement, swapping, context switches.
    - [Interrupt]: [machine/interrupt.cc], [machine/timer.cc]: the clock, the
      queue of pending interrupts, interrupt levels, idling.
    - [Threads]: [threads/*.cc]: threads, the scheduler, semaphores, locks with
      priority inheritance, condition variables, channels, synchronized lists.
      The remaining code of a thread is a list of pieces of kernel code that run
      without being interrupted, so a step relation has every interleaving.
      [Scheduling] has the invariant of the scheduler and that each operation
      keeps it, [Locking] what holds in every reachable state, [Conditions] the
      behaviour of condition variables and channels.
    - [Transfer], [UserMemory]: [userprog/transfer.cc], [userprog/args.cc]: the kernel's
      access to the memory of user programs, through page faults.
    - [Simulation], [Execution]: one instruction with the page-fault handler.
      [Simulation] relates the processor over two memories; [Execution] compares
      the paged memory with a flat one ([Flat]).
    - [Timesharing]: [Machine::Run] of [machine/mips_sim.cc] as it is, each iteration
      an attempt at an instruction and [interrupt->OneTick()]: the interrupts that
      are due fire, the timer makes the thread yield, and [Scheduler::Run] goes on
      with another user program ([Mips], [Interrupt], [Threads] and [AddressSpace]
      in one state).
    - [Console]: [machine/console.cc], [machine/synch_console.cc]: the terminal and
      the threads that wait for it, as a step relation.
    - [Syscalls]: [SyscallHandler] and [StartProcess] of [userprog/exception.cc], over
      the state of the whole kernel; [SyscallSpec] has the contract that every call
      keeps, [UserPrograms] what programs get from calls and how they start;
      [Running] goes from the loop of [Machine::Run] into a system call.
    - [Network]: [machine/network.cc]; [PostOffice]: [network/post.cc]: the network
      device and the post offices of any number of machines, of the build of
      [src/network/Makefile], as a step relation of threads, postal workers,
      interrupts and the sockets of the host.

    ** How code becomes definitions

    A C++ function is a function to [result]: [Ok] with the value and the new
    state, or [Err] for a failed [ASSERT], an access outside an array, a null or
    dangling pointer, or another undefined operation.  So a theorem whose
    conclusion is an equation with [Ok] says also that no such failure happens.
    Objects are records, passed explicitly; aliasing is modelled where the
    code depends on it (the nodes of lists; page table entries are written back
    to their table).  Integers are in [Z] and wrapped to their width where the
    code computes at a width.  Memory that the code reads before it writes it
    (new arrays, headers) is an argument named [garbage] or [uninit], and the
    theorems hold for all its values.  Host files are their bytes.

    ** Loops and fuel

    [for] loops with a computed bound are [for_loop] with that many iterations.
    Loops over pointers have a fuel argument: the size of the heap in
    [LinkedList], which bounds the length of an acyclic chain, and the theorems
    prove that the result is never [OutOfFuel]; [FUEL] in [FileSystem], the number
    of sectors of the disk, bounds acyclic chains of headers; in [ReadWrite] the
    fuel of a read is an argument, and [Read_sequential] shows that the length of
    the chain suffices.  [PRINT_FUEL] in [Commands]
    is the number of bytes of the disk, which no file exceeds; [MAX_CHUNKS] is
    the bound that the code itself has.  The loop of [OneTick] in [Interrupt] has a fuel argument,
    and [OneTick_fires_due] proves which fuel suffices; [Timesharing] gives it
    one more than the pending interrupts ([fuel]), and one level of nesting to the
    [Yield] that an interrupt asks for, as no further interrupt of the timer can
    be due in the ticks that [Yield] takes; [program_refines] proves that both
    are enough.  [Machine::Run] does not end, so its model, [iterations], has the number of
    iterations as an argument; [instruction_refines] shows that an instruction needs
    at most three that fault before it is executed.  Threads run for ever, so
    they are a step relation and need no fuel.

    ** What the theorems show

    The numbers C1 to C40 in the comments order the main theorems by importance.

    - User programs as a whole ([Timesharing], [Running]): time sharing and demand
      paging refine isolated processors over flat memories.  Any number of
      iterations of [Run], with the clock, its interrupts and preemption, take the programs to
      what each sees after some instructions of its own, and they make progress
      ([program_refines]); an instruction is executed after at most three page faults
      ([instruction_refines]); a program that executes a system call to write is
      printed and goes on ([program_prints]).  A delayed load may be completed
      early, as interrupts and exceptions do in the code; the reference processors
      have this freedom ([early]).  The bounds are hypotheses: the clock stays below
      [2 ^ 31], the clock of the replacement policy does not wrap, and for the last
      two theorems the timer is not due before the instruction is executed.
    - Virtual memory ([Paging], [Mmu]): demand paging, swapping, context switches and
      the end of a process change no byte of the memory of any (other) process
      ([page_fault_transparent], [context_switch_transparent],
      [exit_releases_frames]), user stores change exactly the bytes they name
      ([store_updates_page]), pages are loaded with the program
      ([demand_load_image]), and translation has the right outcome on every
      branch ([Translate_correct]).
    - Threads ([Locking]): in every reachable state of any set of threads the queues of
      the scheduler match the status of the threads ([reachable_scheduler]), no
      wakeup of a semaphore is lost ([no_lost_wakeup]), and a lock is held by at
      most one thread ([mutual_exclusion]).  [Conditions] proves how condition
      variables and channels fail after their first waiter.
    - System calls ([SyscallSpec], [UserPrograms]): the contract of every call
      ([system_call_contract]), what [Read] and [Write] do on the console and on
      files ([console_calls], [file_read_call]), which bad arguments are refused
      without an effect and which stop the kernel ([bad_calls_refused]), the start of a program with its
      arguments ([StartProcess_correct], [args_roundtrip]).
    - The network ([PostOffice]): every message that reaches a machine gets into its
      box, in order and unchanged ([messages_in_order], [mail_delivery]).
    - Devices: the console delivers the characters typed, in order, and lets nobody
      wait for ever ([console_in_order], [console_progress]); due interrupts fire in
      order of time ([OneTick_fires_due]), idling makes progress ([Idle_progress]);
      the disk has at most one request at a time ([SynchDisk_mutual_exclusion]).
    - The file system as a whole ([Volume]): under the invariant [volume] of the disk,
      the bitmap, the current directory and its files, [Create], [Open], [Write] and
      [Remove] are insertion, lookup, update and deletion in the map from names to
      contents ([view]), and say what happens on a full disk ([Create_correct],
      [Open_correct], [Write_correct], [Remove_correct]).  [Write_correct] is about
      files with one header and requests that it can hold; [Open_correct] and
      [Remove_correct] are about chains of headers too.
    - The program [nachos] ([Boot], [Checking], [Sessions]): formatting leaves an empty
      volume ([FileSystem_format_correct]), starting finds the volume of the last
      run ([FileSystem_boot_correct]), printing gives the bytes of a file
      ([Print_correct]), the check of a disk reports exactly the sectors it did not
      come across and the headers without a free slot ([Check_exact]), and any
      number of runs that copy, print, remove and check behave as commands on one
      finite map ([nachos_persistent_map]).  The bounds there: files of one header
      (3712 bytes), a number of names [N] between 10 and 116 that is chosen for all
      runs, and 992 sectors for files, so that a copy never meets a full disk; the
      check, which knows ten entries and headers that are not full, is among the
      commands when [N] is 10, names have less than 20 characters and files at most
      3584 bytes.  Two theorems have a premise about memory that the code reads
      without setting it: formatting needs the two counts of a new header to be 0
      (the theorem shows that the constructor can stop on an assertion
      otherwise), and runs with more than ten names need the kind of the entries with
      which a directory grows not to say directory ([uninit_kind]); the findings of
      the manifest name the two places.  Runs on a disk that is formatted already,
      with at most ten names, have no premise about memory.
    - Its components: allocation of sectors ([Allocate_correct]) and writes that grow
      a file ([Write_grows]); also, without a number, directories as finite maps
      ([Directory_refines_map]), the round trip of headers ([FileHeader_roundtrip]),
      growing and releasing a file ([Allocate_Deallocate]), writing slices
      ([WriteAt_splice]) and reading through chains of headers ([Read_sequential]).
    - The processor: the invariant of execution ([ExecInstruction_invariant]),
      multiplication and overflow ([Mult_correct], [overflow_exact]).
    - Data structures: the linked list refines functional lists under any sequence of
      operations, failures included ([List_refines_spec]); the files of the others have their own
      theorems, on which these rest.

    ** Not modelled

    Of the start of the kernel, the creation of the objects other than the disk
    and the file system, with which the models of their components begin; of the
    commands of [nachos], those that start user programs, the tests and the
    printed form of the whole file system, at which the model of a run ends, and
    the text of the statistics.  The host interface ([machine/system_dep.cc],
    [threads/switch.S], [threads/preemptive.cc], which works by signals of the
    host), the debugger, printing, tests, user programs and the object-file tools
    are input and output, assembly, or not part of the kernel.  Simplifications of the models: the
    release of host memory is left out unless later code depends on it; in
    [Scheduling] the semaphores, locks and threads of a system are made before its
    threads run; [Syscalls] stops when the table of processes is full, where the
    code goes on with the identifier -1; in [Timesharing] every ready thread is a
    user program that was preempted, no handler of a device wakes a thread, the timer
    is not random (no option [-rs]), and the handlers of exceptions take no time,
    the disk accesses of a page fault included; the single-step debugger of
    [Run] is left out; [SyscallHandler] is one step,
    with the waiting inside it as an outcome or as input that is there; waiting inside the file system (for a lock,
    for the last [Close] before a removal, for the disk) is an outcome or is not
    visible to a single call, and its interleavings are those of [Disk] and
    [Locking]. *)

From Stdlib Require Import ZArith Lia.
From stdpp Require Import base option list gmap numbers tactics.

Open Scope Z_scope.

(** ** Outcomes of C++ code

    A call either returns a value or stops the kernel.  [ASSERT(c)] aborts the
    process ([AssertFail]); dereferencing a null or dangling pointer and
    indexing outside an array are undefined behaviour in C++ and are kept as
    distinguished failures, so that a theorem that a call returns [Ok] also
    says that the call is memory safe.  [Undefined] is any other undefined
    operation (a division that overflows).  [OutOfFuel] is only produced by the
    bounded interpreters of loops that need not terminate. *)
Inductive err : Set :=
| AssertFail
| OutOfBounds
| NullPointer
| Undefined
| OutOfFuel.

Inductive result (A : Type) : Type :=
| Ok (a : A)
| Err (e : err).
Arguments Ok {A} a.
Arguments Err {A} e.

#[export] Instance err_eq_dec : EqDecision err.
Proof. solve_decision. Defined.

#[export] Instance result_ret : MRet result := @Ok.
#[export] Instance result_bind : MBind result := fun A B k m =>
  match m with Ok a => k a | Err e => Err e end.
#[export] Instance result_fmap : FMap result := fun A B f m =>
  match m with Ok a => Ok (f a) | Err e => Err e end.

(** [ASSERT(c)] of [lib/assert.hh]. *)
Definition ASSERT (c : bool) : result unit :=
  if c then Ok tt else Err AssertFail.

Lemma result_bind_ok {A B} (m : result A) (k : A → result B) b :
  (m ≫= k) = Ok b → ∃ a, m = Ok a ∧ k a = Ok b.
Proof. destruct m; cbn; [eauto | discriminate]. Qed.

Lemma ASSERT_true c : c = true → ASSERT c = Ok tt.
Proof. by intros ->. Qed.

(** ** Machine integers

    A C++ [unsigned] is an integer in [0, 2^32), an [int] one in
    [-2^31, 2^31), an [unsigned long] of the 64-bit host one in [0, 2^64).
    Values are kept in [Z] and wrapped where the code computes at a width. *)
Definition u32 (z : Z) : Z := z mod 2 ^ 32.
Definition u64 (z : Z) : Z := z mod 2 ^ 64.
Definition s32 (z : Z) : Z := (z + 2 ^ 31) mod 2 ^ 32 - 2 ^ 31.

Definition is_u32 (z : Z) : Prop := 0 ≤ z < 2 ^ 32.
Definition is_s32 (z : Z) : Prop := - 2 ^ 31 ≤ z < 2 ^ 31.

#[export] Instance is_u32_dec z : Decision (is_u32 z).
Proof. unfold is_u32; apply _. Defined.
#[export] Instance is_s32_dec z : Decision (is_s32 z).
Proof. unfold is_s32; apply _. Defined.

(** The arithmetic tactic of the development: unfolds the width operations and
    lets [lia] see division and remainder. *)
Ltac width_lia :=
  unfold is_u32, is_s32, u32, u64, s32 in *;
  change (2 ^ 31) with 2147483648 in *;
  change (2 ^ 32) with 4294967296 in *;
  change (2 ^ 64) with 18446744073709551616 in *;
  try (Z.div_mod_to_equations; lia).

Lemma u32_id z : is_u32 z → u32 z = z.
Proof. intros; unfold u32; apply Z.mod_small; apply H. Qed.

Lemma u32_range z : is_u32 (u32 z).
Proof. width_lia. Qed.

Lemma s32_id z : is_s32 z → s32 z = z.
Proof. width_lia. Qed.

Lemma s32_range z : is_s32 (s32 z).
Proof. width_lia. Qed.

Lemma u32_s32 z : u32 (s32 z) = u32 z.
Proof. width_lia. Qed.

Lemma s32_u32 z : s32 (u32 z) = s32 z.
Proof. width_lia. Qed.

Create HintDb width.
#[export] Hint Resolve u32_range s32_range : width.
Create Rewrite HintDb width.
#[export] Hint Rewrite u32_s32 s32_u32 : width.

(** ** Arrays

    [a[i]] of a C++ array with an [unsigned] or [int] index. *)
Definition rd {A} (l : list A) (i : Z) : result A :=
  if bool_decide (0 ≤ i) then
    match l !! Z.to_nat i with Some x => Ok x | None => Err OutOfBounds end
  else Err OutOfBounds.

Definition wr {A} (l : list A) (i : Z) (x : A) : result (list A) :=
  if bool_decide (0 ≤ i < Z.of_nat (length l))
  then Ok (<[Z.to_nat i := x]> l) else Err OutOfBounds.

Lemma rd_ok {A} (l : list A) i x :
  0 ≤ i → l !! Z.to_nat i = Some x → rd l i = Ok x.
Proof. intros Hi Hx. unfold rd. by rewrite bool_decide_true, Hx by done. Qed.

Lemma rd_inv {A} (l : list A) i x :
  rd l i = Ok x → 0 ≤ i ∧ l !! Z.to_nat i = Some x.
Proof.
  unfold rd. case_bool_decide; [|done].
  destruct (l !! Z.to_nat i) eqn:E; naive_solver.
Qed.

Lemma rd_in_range {A} (l : list A) i :
  0 ≤ i < Z.of_nat (length l) → ∃ x, rd l i = Ok x ∧ l !! Z.to_nat i = Some x.
Proof.
  intros Hi. destruct (lookup_lt_is_Some_2 l (Z.to_nat i)) as [x Hx]; [lia|].
  exists x. split; [apply rd_ok; [lia|done]|done].
Qed.

Lemma wr_ok {A} (l : list A) i x :
  0 ≤ i < Z.of_nat (length l) → wr l i x = Ok (<[Z.to_nat i := x]> l).
Proof. intros. unfold wr. by rewrite bool_decide_true. Qed.

Lemma wr_inv {A} (l : list A) i x l' :
  wr l i x = Ok l' →
  0 ≤ i < Z.of_nat (length l) ∧ l' = <[Z.to_nat i := x]> l.
Proof. unfold wr. case_bool_decide; naive_solver. Qed.

Lemma rd_wr_eq {A} (l l' : list A) i x : wr l i x = Ok l' → rd l' i = Ok x.
Proof.
  intros [? ->]%wr_inv. apply rd_ok; [lia|].
  apply list_lookup_insert_eq. lia.
Qed.

Lemma rd_wr_ne {A} (l l' : list A) i j x :
  wr l i x = Ok l' → i ≠ j → rd l' j = rd l j.
Proof.
  intros [? ->]%wr_inv ?. unfold rd. case_bool_decide; [|done].
  rewrite list_lookup_insert_ne by lia. done.
Qed.

(** ** A for loop [for (i = lo; i < hi; i++) body]

    [for_loop n lo body s] runs [body] at [lo, lo+1, ..., lo+n-1], threading
    the state [s] and stopping at the first failure. *)
Fixpoint for_loop {S} (n : nat) (i : Z) (body : Z → S → result S) (s : S)
  : result S :=
  match n with
  | O => Ok s
  | S n' => s' ← body i s; for_loop n' (i + 1) body s'
  end.

(** The iteration count of such a loop. *)
Definition span (lo hi : Z) : nat := Z.to_nat (hi - lo).

Lemma for_loop_ind {S} (P : Z → S → Prop) n lo body s :
  P lo s →
  (∀ i s, lo ≤ i < lo + Z.of_nat n → P i s → ∃ s', body i s = Ok s' ∧ P (i + 1) s') →
  ∃ s', for_loop n lo body s = Ok s' ∧ P (lo + Z.of_nat n) s'.
Proof.
  revert lo s; induction n as [|n IH]; intros lo s Hs Hstep; cbn [for_loop].
  - exists s. split; [done|]. by rewrite Z.add_0_r.
  - destruct (Hstep lo s) as (s1 & E1 & H1); [lia|done|].
    rewrite E1. cbn. destruct (IH (lo + 1) s1 H1) as (s2 & E2 & H2).
    { intros; apply Hstep; [lia|done]. }
    exists s2. split; [done|]. by replace (lo + Z.of_nat (Datatypes.S n)) with (lo + 1 + Z.of_nat n) by lia.
Qed.

(** A property that every successful iteration keeps. *)
Lemma for_loop_keeps {S} (P : S → Prop) n lo body s s' :
  (∀ i s s', P s → body i s = Ok s' → P s') → P s → for_loop n lo body s = Ok s' → P s'.
Proof.
  intros Hb. revert lo s. induction n as [|n IH]; intros lo s Hs; cbn [for_loop]; [by intros [= <-]|].
  destruct (body lo s) as [s1|] eqn:E; [|done]. cbn. apply IH. by eapply Hb.
Qed.

(** ** List lemmas shared by the components *)
Lemma lookup_seqZ' lo n (i : nat) : (i < n)%nat → seqZ lo (Z.of_nat n) !! i = Some (lo + Z.of_nat i).
Proof. intros. apply lookup_seqZ. lia. Qed.

(** ** Memory layout

    Bytes are integers in [0, 256).  The host is little endian (the build does
    not define [HOST_IS_BIG_ENDIAN]; [CheckEndian] of [machine/machine.cc]
    asserts it), so a word is stored least significant byte first. *)
Fixpoint le_bytes (n : nat) (w : Z) : list Z :=
  match n with
  | O => []
  | S n' => w mod 256 :: le_bytes n' (w / 256)
  end.

Fixpoint le_word (bs : list Z) : Z :=
  match bs with
  | [] => 0
  | b :: bs' => b + 256 * le_word bs'
  end.

Definition is_byte (b : Z) : Prop := 0 ≤ b < 256.

Lemma le_bytes_length n w : length (le_bytes n w) = n.
Proof. revert w; induction n; intros w; cbn; [done|]. by rewrite IHn. Qed.

Lemma le_bytes_bytes n w : Forall is_byte (le_bytes n w).
Proof.
  revert w; induction n; intros w; cbn; constructor; [|done].
  unfold is_byte. by apply Z.mod_pos_bound.
Qed.

Lemma le_word_bytes n w : 0 ≤ w < 256 ^ Z.of_nat n → le_word (le_bytes n w) = w.
Proof.
  revert w; induction n as [|n IH]; intros w Hw; cbn.
  - cbn in Hw. lia.
  - rewrite IH; [pose proof (Z.div_mod w 256); lia|].
    rewrite Nat2Z.inj_succ, Z.pow_succ_r in Hw by lia.
    split; [apply Z.div_pos; lia|]. apply Z.div_lt_upper_bound; lia.
Qed.

Lemma le_bytes_word bs : Forall is_byte bs → le_bytes (length bs) (le_word bs) = bs.
Proof.
  induction 1 as [|b bs Hb _ IH]; cbn; [done|]. unfold is_byte in Hb.
  replace ((b + 256 * le_word bs) mod 256) with b by (Z.div_mod_to_equations; lia).
  replace ((b + 256 * le_word bs) / 256) with (le_word bs) by (Z.div_mod_to_equations; lia).
  by rewrite IH.
Qed.

Lemma le_word_range bs : Forall is_byte bs → 0 ≤ le_word bs < 256 ^ Z.of_nat (length bs).
Proof.
  induction 1 as [|b bs Hb _ IH]; cbn [le_word length]; [cbn; lia|].
  unfold is_byte in Hb. rewrite Nat2Z.inj_succ, Z.pow_succ_r by lia. lia.
Qed.

(** An array of 32-bit words and its bytes. *)
Definition words_bytes (ws : list Z) : list Z := ws ≫= le_bytes 4.

Fixpoint bytes_words (n : nat) (bs : list Z) : list Z :=
  match n with
  | O => []
  | S n' => le_word (take 4 bs) :: bytes_words n' (drop 4 bs)
  end.

Lemma words_bytes_length ws : length (words_bytes ws) = (4 * length ws)%nat.
Proof.
  unfold words_bytes. induction ws as [|w ws IH]; [done|].
  rewrite bind_cons, length_app, le_bytes_length, IH. cbn [length]. lia.
Qed.

Lemma words_bytes_bytes ws : Forall is_byte (words_bytes ws).
Proof.
  unfold words_bytes. induction ws as [|w ws IH]; [constructor|].
  rewrite bind_cons. apply Forall_app. split; [apply le_bytes_bytes|done].
Qed.

Lemma bytes_words_app ws rest :
  Forall is_u32 ws → bytes_words (length ws) (words_bytes ws ++ rest) = ws.
Proof.
  unfold words_bytes. induction 1 as [|w ws Hw _ IH]; [done|].
  rewrite bind_cons, <-app_assoc. cbn [bytes_words length].
  rewrite take_app_length', drop_app_length' by (by rewrite le_bytes_length).
  rewrite le_word_bytes by (unfold is_u32 in Hw; cbn; lia). by rewrite IH.
Qed.

Lemma bytes_words_words ws :
  Forall is_u32 ws → bytes_words (length ws) (words_bytes ws) = ws.
Proof. intros. rewrite <-(app_nil_r (words_bytes ws)). by apply bytes_words_app. Qed.

(** Only the first bytes matter. *)
Lemma bytes_words_take n bs : bytes_words n (take (4 * n) bs) = bytes_words n bs.
Proof.
  revert bs; induction n as [|n IH]; intros bs; [done|]. cbn [bytes_words].
  rewrite take_take, Nat.min_l by lia. f_equal. rewrite <-IH, <-(IH (drop 4 bs)). f_equal.
  rewrite skipn_firstn_comm, take_take. f_equal. lia.
Qed.

(** ** Ranges of a buffer

    [memcpy] reads [n] elements of an array from offset [off] ([slice]) and
    overwrites as many as [bs] has ([splice]); a range that does not fit is out
    of bounds. *)
Definition slice {A} (l : list A) (off n : Z) : result (list A) :=
  if bool_decide (0 ≤ off ∧ 0 ≤ n ∧ off + n ≤ Z.of_nat (length l))
  then Ok (take (Z.to_nat n) (drop (Z.to_nat off) l)) else Err OutOfBounds.

Definition splice {A} (l : list A) (off : Z) (bs : list A) : result (list A) :=
  if bool_decide (0 ≤ off ∧ off + Z.of_nat (length bs) ≤ Z.of_nat (length l))
  then Ok (take (Z.to_nat off) l ++ bs ++ drop (Z.to_nat off + length bs) l)
  else Err OutOfBounds.

Lemma slice_ok {A} (l : list A) off n :
  0 ≤ off → 0 ≤ n → off + n ≤ Z.of_nat (length l) →
  slice l off n = Ok (take (Z.to_nat n) (drop (Z.to_nat off) l)).
Proof. intros. unfold slice. by rewrite bool_decide_true by done. Qed.

Lemma splice_ok {A} (l : list A) off bs :
  0 ≤ off → off + Z.of_nat (length bs) ≤ Z.of_nat (length l) →
  ∃ l', splice l off bs = Ok l' ∧ length l' = length l ∧
    ∀ i, l' !! i = if decide (Z.to_nat off ≤ i < Z.to_nat off + length bs)%nat
                   then bs !! (i - Z.to_nat off)%nat else l !! i.
Proof.
  intros H1 H2. unfold splice. rewrite bool_decide_true by done. eexists. split; [done|].
  split; [rewrite !length_app, length_take, length_drop; lia|]. intros i.
  destruct (decide (i < Z.to_nat off)%nat) as [Hi|Hi].
  - rewrite decide_False by lia. rewrite lookup_app_l by (rewrite length_take; lia).
    by rewrite lookup_take_lt by lia.
  - rewrite lookup_app_r by (rewrite length_take; lia). rewrite length_take.
    replace (Z.to_nat off `min` length l)%nat with (Z.to_nat off) by lia.
    destruct (decide (i < Z.to_nat off + length bs)%nat).
    + rewrite decide_True by lia. by rewrite lookup_app_l by lia.
    + rewrite decide_False by lia. rewrite lookup_app_r, lookup_drop by lia. f_equal. lia.
Qed.

Lemma lookup_take_drop {A} (l : list A) n o i :
  (i < n)%nat → take n (drop o l) !! i = l !! (o + i)%nat.
Proof. intros. by rewrite lookup_take_lt, lookup_drop by lia. Qed.

(** Inverts [Ok] hypotheses through binds. *)
Ltac invok :=
  repeat match goal with
  | H : (_ ≫= _) = Ok _ |- _ =>
      apply result_bind_ok in H; destruct H as (? & ? & H); cbn in H
  | H : Ok _ = Ok _ |- _ => injection H as H; subst
  | H : Err _ = Ok _ |- _ => discriminate H
  | H : ASSERT ?b = Ok _ |- _ =>
      unfold ASSERT in H; destruct b eqn:?; [|discriminate H]; clear H
  end.
