(* ===== verification/LinkedList.v ===== *)
(** * [lib/list.hh]: the singly linked [List<Item>]

    The list is modelled at pointer level: a store of [ListElement]s indexed by
    addresses, and the two pointers [first] and [last].  Every operation is the
    C++ code with its loads and stores; a load through a null or dangling
    pointer fails.  The module [ListSpec] gives the functional meaning of each
    operation on plain lists of [(key, item)] pairs, and the refinement
    theorems state that the pointer code returns normally on every well-formed
    list and computes exactly that function.  The other components use the
    functional view. *)

From S2P Require Import Prelude.
From stdpp Require Import sorting.
From stdpp Require Import base option list gmap fin_maps fin_sets numbers tactics.
From stdpp Require Import list.
Open Scope Z_scope.

(** ** The functional view *)
Module ListSpec.
Section spec.
Context {Item : Type} `{EqDecision Item}.

(** [Append] and [Prepend] give the element the key 0. *)
Definition append (xs : list (Z * Item)) (x : Item) : list (Z * Item) :=
  xs ++ [(0, x)].
Definition prepend (xs : list (Z * Item)) (x : Item) : list (Z * Item) :=
  (0, x) :: xs.

(** Insert before the first element [y] with [before sortKey y.key]. *)
Fixpoint insert_by (before : Z → Z → bool) (k : Z) (x : Item)
    (xs : list (Z * Item)) : list (Z * Item) :=
  match xs with
  | [] => [(k, x)]
  | (k1, x1) :: r =>
      if before k k1 then (k, x) :: (k1, x1) :: r
      else (k1, x1) :: insert_by before k x r
  end.

Definition sorted_insert (xs : list (Z * Item)) (x : Item) (k : Z) :=
  insert_by Z.ltb k x xs.
Definition sorted_insert_inverted (xs : list (Z * Item)) (x : Item) (k : Z) :=
  insert_by Z.gtb k x xs.

(** Remove the first occurrence of an item. *)
Fixpoint remove (xs : list (Z * Item)) (x : Item) : list (Z * Item) :=
  match xs with
  | [] => []
  | (k1, x1) :: r => if decide (x = x1) then r else (k1, x1) :: remove r x
  end.

Definition has (xs : list (Z * Item)) (x : Item) : bool :=
  bool_decide (x ∈ xs.*2).

Lemma insert_by_perm before k x xs : insert_by before k x xs ≡ₚ (k, x) :: xs.
Proof.
  induction xs as [|[k1 x1] r IH]; cbn; [done|].
  destruct (before k k1); [done|]. rewrite IH. by rewrite Permutation_swap.
Qed.

(** The insertion point: everything before it does not go after the new
    element, and the element behind it does. *)
Lemma insert_by_split before k x xs :
  ∃ ys zs, xs = ys ++ zs ∧ insert_by before k x xs = ys ++ (k, x) :: zs ∧
    Forall (λ y, before k y.1 = false) ys ∧
    (∀ z zs', zs = z :: zs' → before k z.1 = true).
Proof.
  induction xs as [|[k1 x1] r IH]; cbn.
  - exists [], []. naive_solver.
  - destruct (before k k1) eqn:E.
    + exists [], ((k1, x1) :: r). naive_solver.
    + destruct IH as (ys & zs & -> & -> & Hy & Hz).
      exists ((k1, x1) :: ys), zs. split_and!; [done|done|by constructor|done].
Qed.

Lemma insert_by_app before k x ys zs :
  Forall (λ y, before k y.1 = false) ys →
  (∀ z zs', zs = z :: zs' → before k z.1 = true) →
  insert_by before k x (ys ++ zs) = ys ++ (k, x) :: zs.
Proof.
  intros Hy Hz. induction Hy as [|[k1 x1] r E Hy IH]; cbn in *.
  - destruct zs as [|[kz xz] zs]; cbn; [done|]. pose proof (Hz _ _ eq_refl) as E; cbn in E. by rewrite E.
  - by rewrite E, IH.
Qed.

Lemma has_true xs x : has xs x = true ↔ ∃ k, (k, x) ∈ xs.
Proof.
  unfold has. rewrite bool_decide_eq_true, list_elem_of_fmap. split.
  - intros ([k y] & -> & ?). eauto.
  - intros [k ?]. by exists (k, x).
Qed.

Lemma remove_not_in xs x : has xs x = false → remove xs x = xs.
Proof.
  unfold has. rewrite bool_decide_eq_false.
  induction xs as [|[k1 x1] r IH]; cbn; intros Hn; [done|].
  rewrite decide_False by (intros ->; apply Hn; by left).
  rewrite IH; [done|]. intros ?. apply Hn. by right.
Qed.

Lemma remove_app xs k x ys :
  has xs x = false → remove (xs ++ (k, x) :: ys) x = xs ++ ys.
Proof.
  unfold has. rewrite bool_decide_eq_false.
  induction xs as [|[k1 x1] r IH]; cbn; intros Hn.
  - by rewrite decide_True.
  - rewrite decide_False by (intros ->; apply Hn; by left).
    rewrite IH; [done|]. intros ?. apply Hn. by right.
Qed.

(** Keys in order: nondecreasing for [SortedInsert], nonincreasing for
    [SortedInsertInverted]. *)
Definition increasing (xs : list (Z * Item)) : Prop :=
  StronglySorted (λ a b, a.1 ≤ b.1) xs.
Definition decreasing (xs : list (Z * Item)) : Prop :=
  StronglySorted (λ a b, b.1 ≤ a.1) xs.

Lemma insert_by_sorted (R : Z → Z → Prop) before k x xs :
  Transitive R →
  (∀ a b, before a b = true → R a b) →
  (∀ a b, before a b = false → R b a) →
  StronglySorted (λ a b : Z * Item, R a.1 b.1) xs →
  StronglySorted (λ a b : Z * Item, R a.1 b.1) (insert_by before k x xs).
Proof.
  intros HT Ht Hf. induction 1 as [|[k1 x1] r Hs IH Hall]; cbn.
  - repeat constructor.
  - destruct (before k k1) eqn:E.
    + constructor; [by constructor|]. constructor; [by apply Ht|].
      eapply Forall_impl; [exact Hall|]. intros [k2 x2] ?. cbn in *.
      etrans; [by apply Ht|done].
    + constructor; [done|]. rewrite insert_by_perm. constructor; [by apply Hf|done].
Qed.

Lemma sorted_insert_increasing xs x k :
  increasing xs → increasing (sorted_insert xs x k).
Proof.
  apply (insert_by_sorted Z.le); [apply _|intros a b ?; lia..].
Qed.

Lemma sorted_insert_inverted_decreasing xs x k :
  decreasing xs → decreasing (sorted_insert_inverted xs x k).
Proof.
  apply (insert_by_sorted (λ a b, b ≤ a)); [intros ???; lia|intros a b ?; lia..].
Qed.

(** Where the element goes: behind the elements with a smaller or equal key. *)
Lemma sorted_insert_split xs x k : increasing xs →
  ∃ ys zs, xs = ys ++ zs ∧ sorted_insert xs x k = ys ++ (k, x) :: zs ∧
    Forall (λ y, y.1 ≤ k) ys ∧ Forall (λ z, k < z.1) zs.
Proof.
  intros Hs. destruct (insert_by_split Z.ltb k x xs) as (ys & zs & -> & E & Hy & Hz).
  exists ys, zs. split_and!; [done..| |].
  - eapply Forall_impl; [exact Hy|]. cbn. lia.
  - destruct zs as [|z zs]; [constructor|]. specialize (Hz _ _ eq_refl).
    apply StronglySorted_app_1_r in Hs. apply StronglySorted_inv in Hs as [_ Hs].
    constructor; [lia|]. eapply Forall_impl; [exact Hs|]. cbn. lia.
Qed.

Lemma sorted_insert_inverted_split xs x k : decreasing xs →
  ∃ ys zs, xs = ys ++ zs ∧ sorted_insert_inverted xs x k = ys ++ (k, x) :: zs ∧
    Forall (λ y, k ≤ y.1) ys ∧ Forall (λ z, z.1 < k) zs.
Proof.
  intros Hs. destruct (insert_by_split Z.gtb k x xs) as (ys & zs & -> & E & Hy & Hz).
  exists ys, zs. split_and!; [done..| |].
  - eapply Forall_impl; [exact Hy|]. cbn. lia.
  - destruct zs as [|z zs]; [constructor|]. specialize (Hz _ _ eq_refl).
    apply StronglySorted_app_1_r in Hs. apply StronglySorted_inv in Hs as [_ Hs].
    constructor; [lia|]. eapply Forall_impl; [exact Hs|]. cbn. lia.
Qed.

End spec.
End ListSpec.

(** ** The pointer-level list *)
Section LinkedList.
Context {Item : Type} `{EqDecision Item}.
(** [Item()], the value [Pop] returns on an empty list. *)
Context (ItemDefault : Item).

Record ListElement := mkElement {
  next : option positive;
  key : Z;
  item : Item
}.

Record LinkedList := mkList {
  first : option positive;
  last : option positive;
  nodes : gmap positive ListElement
}.

Definition new_List : LinkedList := mkList None None ∅.

(** Loads and stores through a [ListNode *]. *)
Definition deref (L : LinkedList) (p : option positive) : result ListElement :=
  match p with
  | None => Err NullPointer
  | Some l => match nodes L !! l with Some e => Ok e | None => Err NullPointer end
  end.

Definition store (L : LinkedList) (l : positive) (e : ListElement) : LinkedList :=
  mkList (first L) (last L) (<[l := e]> (nodes L)).

Definition set_next (L : LinkedList) (p n : option positive) : result LinkedList :=
  match p with
  | None => Err NullPointer
  | Some l =>
      e ← deref L p;
      Ok (store L l (mkElement n (key e) (item e)))
  end.

Definition set_first (L : LinkedList) (p : option positive) : LinkedList :=
  mkList p (last L) (nodes L).
Definition set_last (L : LinkedList) (p : option positive) : LinkedList :=
  mkList (first L) p (nodes L).

(** [new ListNode(item, sortKey)]: the constructor sets [next] to null. *)
Definition new_node (L : LinkedList) (x : Item) (k : Z) : positive * LinkedList :=
  let l := fresh (dom (nodes L)) in
  (l, store L l (mkElement None k x)).

Definition delete_node (L : LinkedList) (l : positive) : LinkedList :=
  mkList (first L) (last L) (delete l (nodes L)).

Definition IsEmpty (L : LinkedList) : bool := bool_decide (first L = None).

Definition Append (L : LinkedList) (x : Item) : result LinkedList :=
  let '(element, L) := new_node L x 0 in
  if IsEmpty L then Ok (set_last (set_first L (Some element)) (Some element))
  else
    L ← set_next L (last L) (Some element);
    Ok (set_last L (Some element)).

Definition Prepend (L : LinkedList) (x : Item) : result LinkedList :=
  let '(element, L) := new_node L x 0 in
  if IsEmpty L then Ok (set_last (set_first L (Some element)) (Some element))
  else
    L ← set_next L (Some element) (first L);
    Ok (set_first L (Some element)).

Definition Head (L : LinkedList) : result Item :=
  _ ← ASSERT (negb (IsEmpty L));
  e ← deref L (first L);
  Ok (item e).

(** [SortedPop(keyPtr)]: the item, the key stored through [keyPtr] (none when
    the list is empty, [*keyPtr] is then untouched), and the new list. *)
Definition SortedPop (L : LinkedList) : result (Item * option Z * LinkedList) :=
  let element := first L in
  if IsEmpty L then Ok (ItemDefault, None, L)
  else
    e ← deref L (first L);
    let thing := item e in
    let L :=
      if decide (first L = last L) then set_last (set_first L None) None
      else set_first L (next e) in
    match element with
    | None => Err NullPointer
    | Some l => Ok (thing, Some (key e), delete_node L l)
    end.

Definition Pop (L : LinkedList) : result (Item * LinkedList) :=
  r ← SortedPop L;
  Ok (r.1.1, r.2).

(** The search loops follow [next]; [fuel] bounds the number of nodes visited,
    and one more than the number of allocated nodes is always enough. *)
Definition fuel_of (L : LinkedList) : nat := S (size (nodes L)).

(** The loop of [Has]. *)
Fixpoint has_loop (fuel : nat) (L : LinkedList) (x : Item) (ptr : option positive)
  : result bool :=
  match fuel with
  | O => Err OutOfFuel
  | S fuel =>
      match ptr with
      | None => Ok false
      | Some _ =>
          e ← deref L ptr;
          if decide (x = item e) then Ok true else has_loop fuel L x (next e)
      end
  end.

Definition Has (L : LinkedList) (x : Item) : result bool :=
  has_loop (fuel_of L) L x (first L).

(** [Apply]: the items that [func], which is not null, is called with, in order. *)
Fixpoint apply_loop (fuel : nat) (L : LinkedList) (ptr : option positive) : result (list Item) :=
  match fuel with
  | O => Err OutOfFuel
  | S fuel =>
      match ptr with
      | None => Ok []
      | Some _ => e ← deref L ptr; r ← apply_loop fuel L (next e); Ok (item e :: r)
      end
  end.
Definition Apply (L : LinkedList) : result (list Item) := apply_loop (fuel_of L) L (first L).

(** The destructor. *)
Fixpoint delete_loop (fuel : nat) (L : LinkedList) : result LinkedList :=
  match fuel with
  | O => Err OutOfFuel
  | S fuel => if IsEmpty L then Ok L else r ← Pop L; delete_loop fuel r.2
  end.
Definition delete_List (L : LinkedList) : result LinkedList := delete_loop (fuel_of L) L.

(** The loop of [Remove]: finds [prev_ptr] and [ptr], then unlinks. *)
Fixpoint remove_loop (fuel : nat) (L : LinkedList) (x : Item)
    (prev_ptr ptr : option positive) : result LinkedList :=
  match fuel with
  | O => Err OutOfFuel
  | S fuel =>
      match ptr with
      | None => Ok L
      | Some l =>
          e ← deref L ptr;
          if decide (x = item e) then
            L ← match prev_ptr with
                | Some _ => set_next L prev_ptr (next e)
                | None => Ok L
                end;
            let L := if decide (first L = ptr) then set_first L (next e) else L in
            let L := if decide (last L = ptr) then set_last L prev_ptr else L in
            Ok (delete_node L l)
          else remove_loop fuel L x ptr (next e)
      end
  end.

Definition Remove (L : LinkedList) (x : Item) : result LinkedList :=
  remove_loop (fuel_of L) L x None (first L).

(** The search loop of [SortedInsert] and [SortedInsertInverted]: [Some p] is
    the node after which the new element is linked, [None] means that the end
    of the list was reached. *)
Fixpoint insert_loop (fuel : nat) (before : Z → Z → bool) (L : LinkedList)
    (sortKey : Z) (ptr : option positive) : result (option positive) :=
  match fuel with
  | O => Err OutOfFuel
  | S fuel =>
      e ← deref L ptr;
      match next e with
      | None => Ok None
      | Some n =>
          e' ← deref L (Some n);
          if before sortKey (key e') then Ok ptr
          else insert_loop fuel before L sortKey (next e)
      end
  end.

Definition insert_with (before : Z → Z → bool) (L : LinkedList) (x : Item)
    (sortKey : Z) : result LinkedList :=
  let '(element, L) := new_node L x sortKey in
  if IsEmpty L then Ok (set_last (set_first L (Some element)) (Some element))
  else
    f ← deref L (first L);
    if before sortKey (key f) then
      L ← set_next L (Some element) (first L);
      Ok (set_first L (Some element))
    else
      p ← insert_loop (fuel_of L) before L sortKey (first L);
      match p with
      | Some _ =>
          e ← deref L p;
          L ← set_next L (Some element) (next e);
          set_next L p (Some element)
      | None =>
          L ← set_next L (last L) (Some element);
          Ok (set_last L (Some element))
      end.

(** [sortKey < key] and [sortKey > key] are the only difference between the
    two C++ functions. *)
Definition SortedInsert := insert_with Z.ltb.
Definition SortedInsertInverted := insert_with Z.gtb.

(** ** Representation predicate *)

(** [chain m p ns q]: following [next] from [p] in [m] visits exactly the nodes
    [ns] (address, key, item) and ends at [q]. *)
Fixpoint chain (m : gmap positive ListElement) (p : option positive)
    (ns : list (positive * (Z * Item))) (q : option positive) : Prop :=
  match ns with
  | [] => p = q
  | (l, (k, x)) :: ns' =>
      p = Some l ∧ ∃ n, m !! l = Some (mkElement n k x) ∧ chain m n ns' q
  end.

(** The list is well formed: its nodes form a chain from [first] to null, they
    are pairwise distinct, no other node is allocated, and [last] points to
    the last node (null when the list is empty). *)
Record rep (L : LinkedList) (ns : list (positive * (Z * Item))) : Prop := {
  rep_chain : chain (nodes L) (first L) ns None;
  rep_nodup : NoDup ns.*1;
  rep_dom : ∀ l, is_Some (nodes L !! l) ↔ l ∈ ns.*1;
  rep_last : last L = fst <$> list.last ns
}.

(** [repr L xs]: [L] is a well-formed list holding the pairs [xs]. *)
Definition repr (L : LinkedList) (xs : list (Z * Item)) : Prop :=
  ∃ ns, rep L ns ∧ ns.*2 = xs.

Lemma chain_app m p ns1 ns2 q :
  chain m p (ns1 ++ ns2) q ↔ ∃ r, chain m p ns1 r ∧ chain m r ns2 q.
Proof.
  revert p; induction ns1 as [|[l [k x]] ns1 IH]; intros p; cbn.
  - naive_solver.
  - split.
    + intros (-> & n & Hn & (r & ? & ?)%IH). naive_solver.
    + intros (r & (-> & n & Hn & ?) & ?). split; [done|].
      exists n. split; [done|]. apply IH. eauto.
Qed.

Lemma chain_frame m m' p ns q :
  (∀ l, l ∈ ns.*1 → m' !! l = m !! l) → chain m p ns q → chain m' p ns q.
Proof.
  revert p; induction ns as [|[l [k x]] ns IH]; intros p Hm; cbn; [done|].
  intros (-> & n & Hn & Hc). split; [done|]. exists n. split.
  - rewrite Hm; [done|by left].
  - apply IH; [|done]. intros ??. apply Hm. by right.
Qed.

Lemma chain_insert_fresh m p ns q l e :
  l ∉ ns.*1 → chain m p ns q → chain (<[l := e]> m) p ns q.
Proof.
  intros Hl. apply chain_frame. intros l' ?. apply lookup_insert_ne. by intros ->.
Qed.

Lemma chain_lookup m p ns q l : l ∈ ns.*1 → chain m p ns q → is_Some (m !! l).
Proof.
  revert p; induction ns as [|[l' [k x]] ns IH]; intros p; cbn;
    [by rewrite elem_of_nil|].
  intros [->|?]%elem_of_cons (_ & n & ? & ?); eauto.
Qed.

Lemma chain_first_None m ns p : chain m p ns None → (p = None ↔ ns = []).
Proof. destruct ns as [|[l [k x]] ns]; cbn; naive_solver. Qed.

Lemma rep_size L ns : rep L ns → size (nodes L) = length ns.
Proof.
  intros HR. rewrite <-(length_fmap fst ns).
  rewrite <-size_dom. rewrite <-(size_list_to_set (C:=gset positive) _ (rep_nodup _ _ HR)).
  f_equal. apply set_eq; intros l.
  rewrite elem_of_dom, elem_of_list_to_set. apply (rep_dom _ _ HR).
Qed.

Lemma rep_IsEmpty L ns : rep L ns → IsEmpty L = bool_decide (ns = []).
Proof.
  intros HR. unfold IsEmpty.
  pose proof (chain_first_None _ _ _ (rep_chain _ _ HR)) as Hc.
  by apply bool_decide_ext.
Qed.

Lemma rep_fresh L ns : rep L ns → fresh (dom (nodes L)) ∉ ns.*1.
Proof.
  intros HR Hin. apply (rep_dom _ _ HR), elem_of_dom in Hin.
  by apply is_fresh in Hin.
Qed.

Lemma repr_empty : repr new_List [].
Proof.
  exists []. split; [|done]. split; cbn; [done|constructor| |done].
  intros l. rewrite lookup_empty. split; [by intros [? [=]]|by intros ?%elem_of_nil].
Qed.

(** The last node of a non-empty chain. *)
Lemma chain_snoc m p ns l k x q :
  chain m p (ns ++ [(l, (k, x))]) q ↔
  chain m p ns (Some l) ∧ m !! l = Some (mkElement q k x).
Proof. rewrite chain_app. cbn. naive_solver. Qed.

(** Linking a fresh node in the middle of (or at the end of) a chain. *)
Lemma chain_link_after m p ns1 l k x ns2 new e :
  NoDup (ns1 ++ (l, (k, x)) :: ns2).*1 → new ∉ (ns1 ++ (l, (k, x)) :: ns2).*1 →
  chain m p (ns1 ++ (l, (k, x)) :: ns2) None →
  ∃ n, m !! l = Some (mkElement n k x) ∧ (ns2 = [] → n = None) ∧
    chain (<[l := mkElement (Some new) k x]> (<[new := mkElement n (key e) (item e)]> m)) p
      (ns1 ++ (l, (k, x)) :: (new, (key e, item e)) :: ns2) None.
Proof.
  intros Hnd Hnew. rewrite chain_app. cbn. intros (r & H1 & -> & n & Hl & H2).
  exists n. split; [done|]. split; [by intros ->|].
  apply chain_app. rewrite fmap_app in Hnd, Hnew.
  cbn in *. apply NoDup_app in Hnd as (Hnd1 & Hdisj & [Hl2 Hnd2]%NoDup_cons).
  assert (new ≠ l) by (intros ->; set_solver).
  exists (Some l). split; [|cbn; split; [done|]].
  - apply chain_insert_fresh; [intros ?; eapply Hdisj; set_solver|].
    apply chain_insert_fresh; [set_solver|done].
  - exists (Some new). rewrite lookup_insert_eq. split; [done|split; [done|]].
    exists n. rewrite lookup_insert_ne, lookup_insert_eq by done. split; [done|].
    apply chain_insert_fresh; [done|]. apply chain_insert_fresh; [set_solver|done].
Qed.

(** The allocated addresses after [new] and the relinking stores. *)
Lemma dom_after_new (m : gmap positive ListElement)
    (ns1 ns2 : list (positive * (Z * Item))) new nx :
  (∀ l, is_Some (m !! l) ↔ l ∈ (ns1 ++ ns2).*1) →
  ∀ e (l : positive), is_Some ((<[new := e]> m) !! l) ↔ l ∈ (ns1 ++ (new, nx) :: ns2).*1.
Proof.
  intros Hd e l. specialize (Hd l). rewrite fmap_app in *. cbn.
  rewrite lookup_insert_is_Some'. rewrite Hd. set_solver.
Qed.

Lemma nodup_after_new (ns1 ns2 : list (positive * (Z * Item))) new nx :
  NoDup (ns1 ++ ns2).*1 → new ∉ (ns1 ++ ns2).*1 →
  NoDup (ns1 ++ (new, nx) :: ns2).*1.
Proof.
  rewrite !fmap_app. cbn. intros Hnd Hn.
  rewrite <-(Permutation_middle _ _ _). by apply NoDup_cons.
Qed.

(** ** Refinement *)

Lemma deref_ok L l e : nodes L !! l = Some e → deref L (Some l) = Ok e.
Proof. intros E. cbn. by rewrite E. Qed.

Lemma set_next_ok L l e n :
  nodes L !! l = Some e →
  set_next L (Some l) n = Ok (store L l (mkElement n (key e) (item e))).
Proof. intros E. unfold set_next. by rewrite (deref_ok _ _ _ E). Qed.

(** The empty list gets one node. *)
Lemma rep_single l k x :
  rep (mkList (Some l) (Some l) {[l := mkElement None k x]}) [(l, (k, x))].
Proof.
  split; cbn; [|by apply NoDup_singleton| |done].
  - split; [done|]. exists None. by rewrite lookup_singleton_eq.
  - intros l'. rewrite lookup_singleton_is_Some. set_solver.
Qed.

Lemma rep_nil_nodes L : rep L [] → nodes L = ∅.
Proof.
  intros HR. apply map_eq. intros l. rewrite lookup_empty.
  destruct (nodes L !! l) eqn:E; [|done]. exfalso.
  assert (l ∈ ([] : list (positive * (Z * Item))).*1) as Hin
    by (apply (rep_dom _ _ HR); eauto).
  by apply elem_of_nil in Hin.
Qed.

(** The common first step of the insertions, on an empty list. *)
Lemma insert_empty L k x :
  rep L [] →
  let '(l, L1) := new_node L x k in
  IsEmpty L1 = true ∧
  rep (set_last (set_first L1 (Some l)) (Some l)) [(l, (k, x))].
Proof.
  intros HR. unfold new_node. split.
  - pose proof (rep_IsEmpty _ _ HR) as E. by unfold IsEmpty, store in *; cbn in *.
  - pose proof (rep_nil_nodes _ HR) as E. unfold store, set_last, set_first. cbn.
    rewrite E. apply rep_single.
Qed.

Lemma new_node_nonempty L ns k x :
  rep L ns → ns ≠ [] → IsEmpty (snd (new_node L x k)) = false.
Proof.
  intros HR Hne. pose proof (rep_IsEmpty _ _ HR) as E.
  rewrite bool_decide_false in E by done. exact E.
Qed.

(** Linking the new element behind the node [l] (the two stores
    [element->next = ptr->next; ptr->next = element], or, at the end of the
    list, [last->next = element]). *)
Lemma rep_link_after L ns1 l k x ns2 new kn xn :
  rep L (ns1 ++ (l, (k, x)) :: ns2) → new = fresh (dom (nodes L)) →
  ∃ n, nodes L !! l = Some (mkElement n k x) ∧ (ns2 = [] → n = None) ∧ new ≠ l ∧
    rep (mkList (first L) (if decide (ns2 = []) then Some new else last L)
           (<[l := mkElement (Some new) k x]> (<[new := mkElement n kn xn]> (nodes L))))
      (ns1 ++ (l, (k, x)) :: (new, (kn, xn)) :: ns2).
Proof.
  intros HR Hnew. pose proof (rep_fresh _ _ HR) as Hf. rewrite <-Hnew in Hf.
  destruct (chain_link_after _ _ _ _ _ _ _ new (mkElement None kn xn)
    (rep_nodup _ _ HR) Hf (rep_chain _ _ HR)) as (n & Hl & Hn & Hc).
  exists n. split; [done|]. split; [done|].
  split; [intros ->; apply Hf; rewrite fmap_app; set_solver|].
  split; cbn in *; [done| | |].
  - rewrite (cons_middle (l, (k, x)) ns1), (app_assoc ns1).
    apply nodup_after_new; rewrite <-app_assoc; [apply (rep_nodup _ _ HR)|done].
  - intros l'. rewrite lookup_insert_is_Some'.
    rewrite (cons_middle (l, (k, x)) ns1), (app_assoc ns1).
    rewrite (dom_after_new (nodes L) (ns1 ++ [(l, (k, x))]) ns2 new (kn, xn)).
    + rewrite !fmap_app. cbn. set_solver.
    + rewrite <-app_assoc. apply (rep_dom _ _ HR).
  - rewrite (rep_last _ _ HR), !last_app. destruct ns2; cbn; [done|]. done.
Qed.

(** Linking in front of the list. *)
Lemma rep_link_front L ns new kn xn :
  rep L ns → ns ≠ [] → new = fresh (dom (nodes L)) →
  rep (mkList (Some new) (last L) (<[new := mkElement (first L) kn xn]> (nodes L)))
    ((new, (kn, xn)) :: ns).
Proof.
  intros HR Hne Hnew. pose proof (rep_fresh _ _ HR) as Hf. rewrite <-Hnew in Hf.
  split; cbn.
  - split; [done|]. exists (first L). rewrite lookup_insert_eq. split; [done|].
    apply chain_insert_fresh; [done|apply (rep_chain _ _ HR)].
  - apply (nodup_after_new [] ns new (kn, xn)); [apply (rep_nodup _ _ HR)|done].
  - apply (dom_after_new _ [] ns new (kn, xn)). apply (rep_dom _ _ HR).
  - rewrite (rep_last _ _ HR). by destruct ns.
Qed.

(** [last->next = element; last = element]. *)
Lemma link_at_end L ns new k x :
  rep L ns → ns ≠ [] → new = fresh (dom (nodes L)) →
  ∃ L1, set_next (store L new (mkElement None k x)) (last L) (Some new) = Ok L1 ∧
    rep (set_last L1 (Some new)) (ns ++ [(new, (k, x))]).
Proof.
  intros HR Hne Hnew. destruct (exists_last Hne) as (ns1 & [l [kl y]] & ->).
  destruct (rep_link_after L ns1 l kl y [] new k x HR Hnew)
    as (n & Hl & Hn & Hnl & HR'). rewrite (Hn eq_refl) in *.
  rewrite (rep_last _ _ HR), last_snoc. cbn [fmap option_fmap option_map fst].
  eexists. split.
  - apply set_next_ok. cbn. rewrite lookup_insert_ne by done. exact Hl.
  - rewrite <-app_assoc. exact HR'.
Qed.

(** [element->next = first; first = element]. *)
Lemma link_at_front L ns new k x :
  rep L ns → ns ≠ [] → new = fresh (dom (nodes L)) →
  ∃ L1, set_next (store L new (mkElement None k x)) (Some new) (first L) = Ok L1 ∧
    rep (set_first L1 (Some new)) ((new, (k, x)) :: ns).
Proof.
  intros HR Hne Hnew. eexists. split.
  - apply set_next_ok. apply lookup_insert_eq.
  - pose proof (rep_link_front L ns new k x HR Hne Hnew) as HR'.
    unfold set_first, store. cbn. by rewrite insert_insert_eq.
Qed.

Lemma Append_refines L xs x :
  repr L xs → ∃ L', Append L x = Ok L' ∧ repr L' (ListSpec.append xs x).
Proof.
  intros (ns & HR & <-). unfold Append, ListSpec.append.
  pose proof (insert_empty L 0 x) as HI. pose proof (new_node_nonempty L ns 0 x HR) as HN.
  destruct (new_node L x 0) as [new L1] eqn:E1. unfold new_node in E1.
  injection E1 as Hnew <-.
  destruct (decide (ns = [])) as [->|Hne].
  - destruct (HI HR) as [-> HR']. eexists. split; [done|]. by exists [(new, (0, x))].
  - cbn in HN. rewrite (HN Hne). cbn [last store].
    destruct (link_at_end L ns new 0 x HR Hne (eq_sym Hnew)) as (L1 & E & HR').
    rewrite Hnew, E. cbn. eexists. split; [done|].
    exists (ns ++ [(new, (0, x))]). split; [done|]. by rewrite fmap_app.
Qed.

Lemma Prepend_refines L xs x :
  repr L xs → ∃ L', Prepend L x = Ok L' ∧ repr L' (ListSpec.prepend xs x).
Proof.
  intros (ns & HR & <-). unfold Prepend, ListSpec.prepend.
  pose proof (insert_empty L 0 x) as HI. pose proof (new_node_nonempty L ns 0 x HR) as HN.
  destruct (new_node L x 0) as [new L1] eqn:E1. unfold new_node in E1.
  injection E1 as Hnew <-.
  destruct (decide (ns = [])) as [->|Hne].
  - destruct (HI HR) as [-> HR']. eexists. split; [done|]. by exists [(new, (0, x))].
  - cbn in HN. rewrite (HN Hne). cbn [first store].
    destruct (link_at_front L ns new 0 x HR Hne (eq_sym Hnew)) as (L1 & E & HR').
    rewrite Hnew, E. cbn. eexists. split; [done|].
    by exists ((new, (0, x)) :: ns).
Qed.

Lemma Head_refines L xs k x : repr L ((k, x) :: xs) → Head L = Ok x.
Proof.
  intros (ns & HR & E). unfold Head. rewrite (rep_IsEmpty _ _ HR).
  destruct ns as [|[l [k' x']] ns]; [done|]. injection E as <- <- ?.
  destruct (rep_chain _ _ HR) as (Hf & n & Hl & _). rewrite Hf. cbn. by rewrite Hl.
Qed.

(** The search loop of the sorted insertions, from a node whose key is not
    behind the new key. *)
Lemma insert_loop_spec before L sortKey fuel l k x ns :
  (length ns < fuel)%nat → before sortKey k = false →
  chain (nodes L) (Some l) ((l, (k, x)) :: ns) None →
  ∃ ns1 l' kx' ns2 r,
    insert_loop fuel before L sortKey (Some l) = Ok r ∧
    (l, (k, x)) :: ns = ns1 ++ (l', kx') :: ns2 ∧
    Forall (λ y, before sortKey y.1 = false) (ns1 ++ [(l', kx')]).*2 ∧
    (∀ z zs, ns2.*2 = z :: zs → before sortKey z.1 = true) ∧
    r = (if decide (ns2 = []) then None else Some l').
Proof.
  revert l k x ns. induction fuel as [|fuel IH]; intros l k x ns Hlen Hb; [lia|].
  cbn [chain insert_loop]. intros (_ & n & Hl & Hc).
  rewrite (deref_ok _ _ _ Hl). cbn [mbind result_bind next].
  destruct ns as [|[l2 [k2 x2]] ns]; cbn in Hc.
  - subst n. exists [], l, (k, x), [], None. cbn. split_and!; [done..| |done|done].
    by repeat constructor.
  - destruct Hc as (-> & n2 & Hl2 & Hc). rewrite (deref_ok _ _ _ Hl2).
    cbn [mbind result_bind key]. destruct (before sortKey k2) eqn:E2.
    + exists [], l, (k, x), ((l2, (k2, x2)) :: ns), (Some l). cbn.
      split_and!; [done..| | |done].
      * by repeat constructor.
      * by intros z zs [= <- <-].
    + destruct (IH l2 k2 x2 ns) as (ns1 & l' & kx' & ns2 & r & Er & En & Hf & Hz & Hr).
      { cbn in Hlen. lia. } { done. } { cbn. eauto. }
      exists ((l, (k, x)) :: ns1), l', kx', ns2, r.
      split_and!; [done|by rewrite En|by constructor|done|done].
Qed.

(** [element->next = ptr->next; ptr->next = element] inside the list. *)
Lemma link_in_middle L ns1 l' k' x' ns2 new k x :
  rep L (ns1 ++ (l', (k', x')) :: ns2) → ns2 ≠ [] → new = fresh (dom (nodes L)) →
  let L1 := store L new (mkElement None k x) in
  ∃ L2, (e ← deref L1 (Some l');
         L2 ← set_next L1 (Some new) (next e);
         set_next L2 (Some l') (Some new)) = Ok L2 ∧
    rep L2 (ns1 ++ (l', (k', x')) :: (new, (k, x)) :: ns2).
Proof.
  intros HR Hne Hnew L1.
  destruct (rep_link_after L ns1 l' k' x' ns2 new k x HR Hnew) as (n & Hl' & _ & Hnl & HR2).
  assert (nodes L1 !! l' = Some (mkElement n k' x')) as Hl1
    by (cbn; by rewrite lookup_insert_ne).
  rewrite (deref_ok _ _ _ Hl1). cbn [mbind result_bind next].
  assert (nodes L1 !! new = Some (mkElement None k x)) as Hnw by apply lookup_insert_eq.
  rewrite (set_next_ok _ _ _ _ Hnw). cbn [mbind result_bind key item].
  erewrite set_next_ok; [|cbn; rewrite lookup_insert_ne by done; exact Hl1].
  eexists. split; [done|]. rewrite decide_False in HR2 by done.
  unfold store, L1. cbn. rewrite insert_insert_eq. exact HR2.
Qed.

(** The state seen by the search loop: the old chain, with the new node
    allocated beside it. *)
Lemma new_node_chain L l k0 x0 ns new e :
  rep L ((l, (k0, x0)) :: ns) → new = fresh (dom (nodes L)) →
  first L = Some l ∧
  chain (nodes (store L new e)) (Some l) ((l, (k0, x0)) :: ns) None ∧
  (length ns < fuel_of (store L new e))%nat.
Proof.
  intros HR ->. pose proof (rep_fresh _ _ HR) as Hf.
  pose proof (rep_chain _ _ HR) as Hc. destruct (Hc) as [Hfst _]. split; [done|].
  rewrite Hfst in Hc. split; [by apply chain_insert_fresh|].
  unfold fuel_of. cbn. rewrite map_size_insert_None, (rep_size _ _ HR); [cbn; lia|].
  apply eq_None_not_Some. by rewrite (rep_dom _ _ HR).
Qed.

Lemma insert_with_refines before L xs x k :
  repr L xs →
  ∃ L', insert_with before L x k = Ok L' ∧ repr L' (ListSpec.insert_by before k x xs).
Proof.
  intros (ns & HR & <-). unfold insert_with, new_node.
  pose proof (insert_empty L k x) as HI. pose proof (new_node_nonempty L ns k x HR) as HN.
  cbn in HI, HN. remember (fresh (dom (nodes L))) as new eqn:Hnew.
  destruct ns as [|[l [k0 x0]] ns].
  { destruct (HI HR) as [-> HR']. eexists. split; [done|]. by exists [(new, (k, x))]. }
  rewrite HN by done.
  destruct (new_node_chain _ _ _ _ _ new (mkElement None k x) HR Hnew) as (Hfst & Hc & Hfuel).
  change (first (store L new _)) with (first L).
  destruct (Hc) as (_ & n0 & Hl0 & _).
  rewrite Hfst, (deref_ok _ _ _ Hl0). cbn [mbind result_bind key].
  destruct (before k k0) eqn:Eb.
  - destruct (link_at_front L _ new k x HR) as (L2 & E2 & HR2); [done..|].
    rewrite Hfst in E2. rewrite E2. cbn. eexists. split; [done|].
    exists ((new, (k, x)) :: (l, (k0, x0)) :: ns). split; [done|]. cbn. by rewrite Eb.
  - destruct (insert_loop_spec before _ k _ l k0 x0 ns Hfuel Eb Hc)
      as (ns1 & l' & [k' x'] & ns2 & r & Er & En & Hfa & Hz & Hr).
    rewrite Er. cbn [mbind result_bind].
    replace (((l, (k0, x0)) :: ns).*2) with ((ns1 ++ [(l', (k', x'))]).*2 ++ ns2.*2)
      by (rewrite En, !fmap_app, <-app_assoc; done).
    rewrite (ListSpec.insert_by_app before k x _ _ Hfa Hz). rewrite En in *.
    destruct (decide (ns2 = [])) as [->|Hne]; subst r.
    + destruct (link_at_end L _ new k x HR) as (L2 & E2 & HR2); [by destruct ns1|done|].
      change (last (store L new _)) with (last L). rewrite E2. cbn.
      eexists. split; [done|]. eexists. split; [exact HR2|]. by rewrite fmap_app.
    + destruct (link_in_middle L ns1 l' k' x' ns2 new k x HR Hne Hnew) as (L2 & E2 & HR2).
      rewrite E2. eexists. split; [done|]. eexists. split; [exact HR2|].
      rewrite !fmap_app. cbn. by rewrite <-app_assoc.
Qed.

Lemma SortedInsert_refines L xs x k :
  repr L xs →
  ∃ L', SortedInsert L x k = Ok L' ∧ repr L' (ListSpec.sorted_insert xs x k).
Proof. apply insert_with_refines. Qed.

Lemma SortedInsertInverted_refines L xs x k :
  repr L xs →
  ∃ L', SortedInsertInverted L x k = Ok L' ∧
    repr L' (ListSpec.sorted_insert_inverted xs x k).
Proof. apply insert_with_refines. Qed.

(** Deleting the node [l] from the store. *)
Lemma chain_delete m p ns q l : l ∉ ns.*1 → chain m p ns q → chain (delete l m) p ns q.
Proof.
  intros Hl. apply chain_frame. intros l' ?. apply lookup_delete_ne. by intros ->.
Qed.

Lemma dom_after_delete (m : gmap positive ListElement)
    (ns1 ns2 : list (positive * (Z * Item))) l kx :
  NoDup (ns1 ++ (l, kx) :: ns2).*1 →
  (∀ l', is_Some (m !! l') ↔ l' ∈ (ns1 ++ (l, kx) :: ns2).*1) →
  NoDup (ns1 ++ ns2).*1 ∧ (l ∉ (ns1 ++ ns2).*1) ∧
  ∀ l', is_Some ((delete l m) !! l') ↔ l' ∈ (ns1 ++ ns2).*1.
Proof.
  rewrite !fmap_app. cbn. rewrite <-Permutation_middle. intros [Hl Hnd]%NoDup_cons Hd.
  split_and!; [done..|]. intros l'. rewrite lookup_delete_is_Some. rewrite Hd.
  split; [intros [Hne Hin]; set_solver|].
  intros Hin. split; [by intros ->|]. set_solver.
Qed.

(** The last address of a non-empty list of nodes. *)
Lemma last_not_addr (ns : list (positive * (Z * Item))) l :
  ns ≠ [] → l ∉ ns.*1 → fst <$> list.last ns ≠ Some l.
Proof.
  intros Hne Hni E. destruct (list.last ns) as [[l' kx]|] eqn:E'; [|done].
  cbn in E. injection E as ->. apply Hni, list_elem_of_fmap.
  exists (l, kx). split; [done|]. by apply last_Some_elem_of.
Qed.

Lemma last_tail (a : positive * (Z * Item)) ns : ns ≠ [] → list.last (a :: ns) = list.last ns.
Proof. by destruct ns. Qed.

(** Unlinking the first node. *)
Lemma rep_unlink_first L l k x ns :
  rep L ((l, (k, x)) :: ns) →
  ∃ n, nodes L !! l = Some (mkElement n k x) ∧ first L = Some l ∧
    rep (mkList n (if decide (ns = []) then None else last L) (delete l (nodes L))) ns ∧
    (last L = Some l ↔ ns = []).
Proof.
  intros HR. destruct (rep_chain _ _ HR) as (Hf & n & Hl & Hc).
  destruct (dom_after_delete _ [] ns l (k, x) (rep_nodup _ _ HR) (rep_dom _ _ HR))
    as (Hnd & Hni & Hd). cbn in Hnd, Hni, Hd.
  exists n. split_and!; [done..| |].
  - split; cbn; [by apply chain_delete|done|done|].
    rewrite (rep_last _ _ HR). destruct ns; cbn; done.
  - rewrite (rep_last _ _ HR). destruct (decide (ns = [])) as [->|Hne]; [done|].
    rewrite (last_tail _ ns Hne). split; [|done]. by intros ?%last_not_addr.
Qed.

(** Unlinking a node behind [p]: [prev_ptr->next = ptr->next; delete ptr]. *)
Lemma rep_unlink_after L ns1 p kp xp l k x ns2 :
  rep L (ns1 ++ (p, (kp, xp)) :: (l, (k, x)) :: ns2) →
  ∃ n, nodes L !! p = Some (mkElement (Some l) kp xp) ∧
    nodes L !! l = Some (mkElement n k x) ∧ p ≠ l ∧ first L ≠ Some l ∧
    (last L = Some l ↔ ns2 = []) ∧
    rep (mkList (first L) (if decide (ns2 = []) then Some p else last L)
           (delete l (<[p := mkElement n kp xp]> (nodes L))))
      (ns1 ++ (p, (kp, xp)) :: ns2).
Proof.
  intros HR. pose proof (rep_nodup _ _ HR) as Hnd0.
  destruct (proj1 (chain_app _ _ _ _ _) (rep_chain _ _ HR)) as (r & Hc1 & -> & n1 & Hp & -> & n & Hl & Hc2).
  assert (NoDup ((ns1 ++ [(p, (kp, xp))]) ++ (l, (k, x)) :: ns2).*1 ∧
    (∀ l', is_Some (nodes L !! l') ↔ l' ∈ ((ns1 ++ [(p, (kp, xp))]) ++ (l, (k, x)) :: ns2).*1))
    as [Hnd1 Hd1] by (rewrite <-app_assoc; split; apply HR).
  destruct (dom_after_delete _ _ _ _ _ Hnd1 Hd1) as (Hnd & Hni & Hd).
  rewrite <-app_assoc in Hnd, Hni, Hd. cbn in Hnd, Hni, Hd.
  rewrite fmap_app in Hni. cbn in Hni.
  assert (p ≠ l) by (intros ->; set_solver).
  assert ((p ∉ ns1.*1) ∧ (p ∉ ns2.*1)) as [Hp1 Hp2].
  { rewrite fmap_app in Hnd. cbn in Hnd. rewrite <-Permutation_middle in Hnd.
    apply NoDup_cons in Hnd as [Hnd _]. set_solver. }
  exists n. split_and!; [done..| | |].
  - destruct ns1 as [|[l1 [k1 x1]] ns1]; cbn in Hc1.
    + by intros [= ->]%(eq_trans (eq_sym Hc1)).
    + destruct Hc1 as [-> _]. intros [= ->]. set_solver.
  - rewrite (rep_last _ _ HR), last_app, last_tail by done.
    destruct (decide (ns2 = [])) as [->|Hne]; [done|]. rewrite (last_tail _ ns2 Hne).
    destruct (list.last ns2) as [nd|] eqn:E; [|by apply last_None in E].
    split; [|done]. rewrite <-E. intros E2. exfalso.
    eapply last_not_addr; [exact Hne| |exact E2]. set_solver.
  - split; cbn; [|done| |].
    + apply chain_delete; [rewrite fmap_app; cbn; done|]. apply chain_app. exists (Some p).
      split; [by apply chain_insert_fresh|]. cbn. split; [done|]. exists n.
      rewrite lookup_insert_eq. split; [done|]. by apply chain_insert_fresh.
    + intros l'. rewrite <-Hd, !lookup_delete_is_Some, lookup_insert_is_Some'.
      split; [|naive_solver]. intros [? [->|?]]; [|done]. eauto.
    + rewrite (rep_last _ _ HR), !last_app. cbn. destruct ns2; done.
Qed.

Lemma SortedPop_empty_refines L : repr L [] → SortedPop L = Ok (ItemDefault, None, L).
Proof.
  intros (ns & HR & E). apply fmap_nil_inv in E as ->. unfold SortedPop.
  by rewrite (rep_IsEmpty _ _ HR).
Qed.

Lemma SortedPop_refines L k x xs :
  repr L ((k, x) :: xs) →
  ∃ L', SortedPop L = Ok (x, Some k, L') ∧ repr L' xs.
Proof.
  intros (ns & HR & E). destruct ns as [|[l [k' x']] ns]; [done|].
  injection E as -> -> <-. unfold SortedPop. rewrite (rep_IsEmpty _ _ HR).
  rewrite bool_decide_false by done.
  destruct (rep_unlink_first _ _ _ _ _ HR) as (n & Hl & Hf & HR' & Hlast).
  rewrite Hf, (deref_ok _ _ _ Hl). cbn [mbind result_bind].
  eexists. split; [done|]. exists ns. split; [|done].
  destruct (decide (ns = [])) as [->|Hne].
  - rewrite decide_True by (symmetry; by apply Hlast).
    assert (n = None) as -> by apply (rep_chain _ _ HR'). exact HR'.
  - rewrite decide_False; [exact HR'|]. intros E. by apply Hne, Hlast.
Qed.

Lemma has_loop_spec L x fuel p ns :
  (length ns < fuel)%nat → chain (nodes L) p ns None →
  has_loop fuel L x p = Ok (ListSpec.has ns.*2 x).
Proof.
  revert p ns. induction fuel as [|fuel IH]; intros p ns Hlen Hc; [lia|].
  destruct ns as [|[l [k y]] ns]; cbn in Hc.
  - by subst p.
  - destruct Hc as (-> & n & Hl & Hc). cbn [has_loop].
    rewrite (deref_ok _ _ _ Hl). cbn [mbind result_bind item next].
    unfold ListSpec.has in *. cbn. destruct (decide (x = y)) as [->|Hne].
    + rewrite bool_decide_true by (by left). done.
    + rewrite (IH n ns) by (cbn in Hlen; done || lia). f_equal.
      apply bool_decide_ext. rewrite elem_of_cons. naive_solver.
Qed.

Lemma Has_refines L xs x : repr L xs → Has L x = Ok (ListSpec.has xs x).
Proof.
  intros (ns & HR & <-). apply has_loop_spec.
  - unfold fuel_of. rewrite (rep_size _ _ HR). lia.
  - apply (rep_chain _ _ HR).
Qed.

(** The loop of [Remove], standing at [ptr] behind the nodes [ns1] that do not
    hold the item. *)
Lemma remove_loop_spec x fuel L ns1 ns2 ptr :
  (length ns2 < fuel)%nat → rep L (ns1 ++ ns2) → ListSpec.has ns1.*2 x = false →
  chain (nodes L) ptr ns2 None →
  ∃ L', remove_loop fuel L x (fst <$> list.last ns1) ptr = Ok L' ∧
    repr L' (ns1.*2 ++ ListSpec.remove ns2.*2 x).
Proof.
  revert ns1 ns2 ptr. induction fuel as [|fuel IH]; intros ns1 ns2 ptr Hlen HR Hn Hc; [lia|].
  destruct ns2 as [|[l [k y]] ns2]; cbn in Hc.
  { subst ptr. exists L. split; [done|]. exists ns1.
    rewrite app_nil_r in HR. split; [done|]. cbn. by rewrite app_nil_r. }
  destruct Hc as (-> & n & Hl & Hc). cbn [remove_loop]. rewrite (deref_ok _ _ _ Hl).
  cbn [mbind result_bind item next]. cbn [fmap list_fmap ListSpec.remove snd].
  destruct (decide (x = y)) as [->|Hne].
  - destruct ns1 as [|[p [kp xp]] ns1 _] using rev_ind; cbn [app] in HR.
    + destruct (rep_unlink_first _ _ _ _ _ HR) as (n' & Hl' & Hf & HR' & Hlast).
      assert (n' = n) as -> by congruence. cbn.
      destruct (decide (first L = Some l)) as [_|]; [|done].
      eexists. split; [done|]. exists ns2. split; [|done]. cbn.
      destruct (decide (ns2 = [])) as [->|Hne2].
      * rewrite decide_True by (by apply Hlast). exact HR'.
      * rewrite decide_False by (intros E; by apply Hne2, Hlast). exact HR'.
    + rewrite last_snoc. cbn [fmap option_fmap option_map fst]. rewrite <-app_assoc in HR.
      destruct (rep_unlink_after _ _ _ _ _ _ _ _ _ HR) as (n' & Hp & Hl' & Hpl & Hf & Hlast & HR').
      assert (n' = n) as -> by congruence.
      rewrite (set_next_ok _ _ _ _ Hp). cbn [mbind result_bind first store key item].
      destruct (decide (first L = Some l)) as [|_]; [done|]. eexists. split; [done|].
      exists (ns1 ++ (p, (kp, xp)) :: ns2). split; [|by rewrite !fmap_app, <-app_assoc].
      cbn [last store]. destruct (decide (ns2 = [])) as [->|Hne2].
      * rewrite decide_True by (by apply Hlast). exact HR'.
      * rewrite decide_False by (intros E; by apply Hne2, Hlast). exact HR'.
  - destruct (IH (ns1 ++ [(l, (k, y))]) ns2 n) as (L' & E & HL').
    + cbn in Hlen. lia.
    + by rewrite <-app_assoc.
    + apply bool_decide_eq_false. apply bool_decide_eq_false in Hn.
      rewrite !fmap_app. cbn. set_solver.
    + done.
    + rewrite last_snoc in E. cbn in E. exists L'. split; [exact E|].
      by rewrite fmap_app, <-app_assoc in HL'.
Qed.

Lemma Remove_refines L xs x :
  repr L xs → ∃ L', Remove L x = Ok L' ∧ repr L' (ListSpec.remove xs x).
Proof.
  intros (ns & HR & <-). apply (remove_loop_spec x _ L [] ns); [|done|done|].
  - unfold fuel_of. rewrite (rep_size _ _ HR). lia.
  - apply (rep_chain _ _ HR).
Qed.

Lemma apply_loop_spec fuel : ∀ L p ns, (length ns < fuel)%nat → chain (nodes L) p ns None →
  apply_loop fuel L p = Ok (ns.*2).*2.
Proof.
  induction fuel as [|fuel IH]; intros L p [|[l [k x]] ns] Hf Hc; cbn in Hf, Hc; [lia..| |].
  - by subst p.
  - destruct Hc as (-> & n & Hl & Hc). cbn [apply_loop]. unfold deref. rewrite Hl. cbn [mbind result_bind next item].
    by rewrite (IH L n ns) by (lia || done).
Qed.

Lemma Apply_refines L xs : repr L xs → Apply L = Ok xs.*2.
Proof.
  intros (ns & HR & <-). apply apply_loop_spec; [|apply (rep_chain _ _ HR)].
  unfold fuel_of. rewrite (rep_size _ _ HR). lia.
Qed.

Lemma IsEmpty_refines L xs : repr L xs → IsEmpty L = bool_decide (xs = []).
Proof. intros (ns & HR & <-). rewrite (rep_IsEmpty _ _ HR). by destruct ns. Qed.

Lemma Head_empty_refines L : repr L [] → Head L = Err AssertFail.
Proof. intros HR. unfold Head. by rewrite (IsEmpty_refines _ _ HR). Qed.

(** Every node is deleted. *)
Lemma delete_loop_refines fuel : ∀ L xs, (length xs < fuel)%nat → repr L xs →
  ∃ L', delete_loop fuel L = Ok L' ∧ nodes L' = ∅.
Proof.
  induction fuel as [|fuel IH]; intros L xs Hf HR; [lia|]. cbn [delete_loop]. rewrite (IsEmpty_refines _ _ HR).
  destruct xs as [|[k x] xs].
  - exists L. split; [done|]. destruct HR as (ns & HR & E). apply fmap_nil_inv in E as ->.
    apply map_empty. intros l. apply eq_None_not_Some. rewrite (rep_dom _ _ HR). apply not_elem_of_nil.
  - unfold Pop. destruct (SortedPop_refines _ _ _ _ HR) as (L' & -> & HR'). cbn [mbind result_bind bool_decide decide_rel].
    apply (IH L' xs); [cbn in Hf; lia|done].
Qed.

Lemma delete_List_refines L xs : repr L xs → ∃ L', delete_List L = Ok L' ∧ nodes L' = ∅.
Proof.
  intros HR. apply (delete_loop_refines _ L xs); [|done]. destruct HR as (ns & HR & <-).
  unfold fuel_of. rewrite (rep_size _ _ HR), length_fmap. lia.
Qed.

(** ** The contract of the class

    The operations through which clients use a [List<Item>]. *)
Inductive list_op :=
| OpAppend (x : Item)
| OpPrepend (x : Item)
| OpSortedInsert (x : Item) (k : Z)
| OpSortedInsertInverted (x : Item) (k : Z)
| OpRemove (x : Item)
| OpHas (x : Item)
| OpIsEmpty
| OpHead
| OpPop
| OpSortedPop
| OpApply.

(** What a call shows its caller: nothing, an answer, an item and perhaps its
    key, or the items that the function of [Apply] was called with. *)
Inductive list_obs :=
| ObsNone
| ObsBool (b : bool)
| ObsItem (x : Item) (k : option Z)
| ObsItems (xs : list Item).

Definition run_op (o : list_op) (L : LinkedList) : result (list_obs * LinkedList) :=
  match o with
  | OpAppend x => L ← Append L x; Ok (ObsNone, L)
  | OpPrepend x => L ← Prepend L x; Ok (ObsNone, L)
  | OpSortedInsert x k => L ← SortedInsert L x k; Ok (ObsNone, L)
  | OpSortedInsertInverted x k => L ← SortedInsertInverted L x k; Ok (ObsNone, L)
  | OpRemove x => L ← Remove L x; Ok (ObsNone, L)
  | OpHas x => b ← Has L x; Ok (ObsBool b, L)
  | OpIsEmpty => Ok (ObsBool (IsEmpty L), L)
  | OpHead => x ← Head L; Ok (ObsItem x None, L)
  | OpPop => r ← Pop L; Ok (ObsItem r.1 None, r.2)
  | OpSortedPop => r ← SortedPop L; Ok (ObsItem r.1.1 r.1.2, r.2)
  | OpApply => xs ← Apply L; Ok (ObsItems xs, L)
  end.

(** The same on a sequence of keys and items; [Head] has the precondition that
    the list is not empty. *)
Definition spec_op (o : list_op) (xs : list (Z * Item)) : result (list_obs * list (Z * Item)) :=
  match o with
  | OpAppend x => Ok (ObsNone, ListSpec.append xs x)
  | OpPrepend x => Ok (ObsNone, ListSpec.prepend xs x)
  | OpSortedInsert x k => Ok (ObsNone, ListSpec.sorted_insert xs x k)
  | OpSortedInsertInverted x k => Ok (ObsNone, ListSpec.sorted_insert_inverted xs x k)
  | OpRemove x => Ok (ObsNone, ListSpec.remove xs x)
  | OpHas x => Ok (ObsBool (ListSpec.has xs x), xs)
  | OpIsEmpty => Ok (ObsBool (bool_decide (xs = [])), xs)
  | OpHead => match xs with [] => Err AssertFail | (_, x) :: _ => Ok (ObsItem x None, xs) end
  | OpPop => match xs with [] => Ok (ObsItem ItemDefault None, []) | (_, x) :: xs' => Ok (ObsItem x None, xs') end
  | OpSortedPop =>
      match xs with [] => Ok (ObsItem ItemDefault None, []) | (k, x) :: xs' => Ok (ObsItem x (Some k), xs') end
  | OpApply => Ok (ObsItems xs.*2, xs)
  end.

Fixpoint run_ops (os : list list_op) (L : LinkedList) : result (list list_obs * LinkedList) :=
  match os with
  | [] => Ok ([], L)
  | o :: os => r ← run_op o L; r' ← run_ops os r.2; Ok (r.1 :: r'.1, r'.2)
  end.

Fixpoint spec_ops (os : list list_op) (xs : list (Z * Item)) : result (list list_obs * list (Z * Item)) :=
  match os with
  | [] => Ok ([], xs)
  | o :: os => r ← spec_op o xs; r' ← spec_ops os r.2; Ok (r.1 :: r'.1, r'.2)
  end.

(** The code has the outcome of the specification, and a list that represents
    its sequence; or it fails the [ASSERT] of [Head]. *)
Definition refines {A} (r : result (A * LinkedList)) (r' : result (A * list (Z * Item))) : Prop :=
  match r' with
  | Ok (a, xs) => ∃ L', r = Ok (a, L') ∧ repr L' xs
  | Err e => e = AssertFail ∧ r = Err AssertFail
  end.

Lemma refines_ok {A} (a : A) (r : result LinkedList) xs : (∃ L', r = Ok L' ∧ repr L' xs) →
  refines (L ← r; Ok (a, L)) (Ok (a, xs)).
Proof. intros (L' & -> & HR). by exists L'. Qed.

Lemma run_op_refines o L xs : repr L xs → refines (run_op o L) (spec_op o xs).
Proof.
  intros HR. destruct o as [x|x|x k|x k|x|x| | | | |]; cbn [run_op spec_op].
  - by apply refines_ok, Append_refines.
  - by apply refines_ok, Prepend_refines.
  - by apply refines_ok, SortedInsert_refines.
  - by apply refines_ok, SortedInsertInverted_refines.
  - by apply refines_ok, Remove_refines.
  - rewrite (Has_refines _ _ x HR). by exists L.
  - rewrite (IsEmpty_refines _ _ HR). by exists L.
  - destruct xs as [|[k x] xs]; [rewrite (Head_empty_refines _ HR); by split|].
    rewrite (Head_refines _ _ _ _ HR). by exists L.
  - unfold Pop. destruct xs as [|[k x] xs]; [rewrite (SortedPop_empty_refines _ HR); by exists L|].
    destruct (SortedPop_refines _ _ _ _ HR) as (L' & -> & ?). by exists L'.
  - destruct xs as [|[k x] xs]; [rewrite (SortedPop_empty_refines _ HR); by exists L|].
    destruct (SortedPop_refines _ _ _ _ HR) as (L' & -> & ?). by exists L'.
  - rewrite (Apply_refines _ _ HR). by exists L.
Qed.

Lemma run_ops_refines_from os L xs : repr L xs → refines (run_ops os L) (spec_ops os xs).
Proof.
  revert L xs. induction os as [|o os IH]; intros L xs HR; cbn [run_ops spec_ops]; [by exists L|].
  pose proof (run_op_refines o L xs HR) as H1. destruct (spec_op o xs) as [[a xs1]|e].
  - destruct H1 as (L1 & -> & HR1). cbn [mbind result_bind fst snd]. specialize (IH L1 xs1 HR1).
    destruct (spec_ops os xs1) as [[b xs2]|e]; [destruct IH as (L2 & -> & HR2); by exists L2|].
    destruct IH as [-> ->]. by split.
  - destruct H1 as [-> ->]. by split.
Qed.

(** C39: refinement of [List<Item>].  Whatever sequence of its operations a client
    performs on a new list (all of the class: insertions, [Remove], [Has],
    [IsEmpty], [Head], both pops, [Apply]), the pointer-level code does what the
    functional list does: it never dereferences a null or dangling pointer, it
    returns, it shows the client exactly what the functional list shows, and it
    ends in a well-formed list that holds exactly the functional result, all of
    whose nodes the destructor deletes.  The one failure is the [ASSERT] of
    [Head], exactly where the client calls it on an empty list. *)
Theorem List_refines_spec os :
  match spec_ops os [] with
  | Ok (obs, xs) => ∃ L', run_ops os new_List = Ok (obs, L') ∧ repr L' xs ∧
      ∃ L'', delete_List L' = Ok L'' ∧ nodes L'' = ∅
  | Err e => e = AssertFail ∧ run_ops os new_List = Err AssertFail
  end.
Proof.
  pose proof (run_ops_refines_from os new_List [] repr_empty) as H. destruct (spec_ops os []) as [[obs xs]|e]; [|done].
  destruct H as (L' & E & HR). exists L'. split; [done|]. split; [done|]. by eapply delete_List_refines.
Qed.

End LinkedList.

(** Sorted insertion, on the pointer structure.  On a list sorted by
    increasing key [SortedInsert] returns a well-formed list with the element
    linked in behind all elements with a smaller or equal key and before all
    with a greater one, so elements with equal keys are popped in insertion
    order; [SortedInsertInverted] does the same for decreasing keys. *)
Theorem SortedInsert_sorted_stable {Item} `{EqDecision Item} (L : LinkedList) (xs : list (Z * Item))
  (x : Item) (k : Z) (HL : repr L xs) :
  (ListSpec.increasing xs → ∃ L' ys zs, SortedInsert L x k = Ok L' ∧ xs = ys ++ zs ∧
     repr L' (ys ++ (k, x) :: zs) ∧ ListSpec.increasing (ys ++ (k, x) :: zs) ∧
     Forall (λ y, y.1 ≤ k) ys ∧ Forall (λ z, k < z.1) zs) ∧
  (ListSpec.decreasing xs → ∃ L' ys zs, SortedInsertInverted L x k = Ok L' ∧ xs = ys ++ zs ∧
     repr L' (ys ++ (k, x) :: zs) ∧ ListSpec.decreasing (ys ++ (k, x) :: zs) ∧
     Forall (λ y, k ≤ y.1) ys ∧ Forall (λ z, z.1 < k) zs).
Proof.
  split; intros Hs.
  - destruct (SortedInsert_refines L xs x k HL) as (L' & E & HL').
    destruct (ListSpec.sorted_insert_split xs x k Hs) as (ys & zs & -> & E2 & Hy & Hz).
    pose proof (ListSpec.sorted_insert_increasing _ x k Hs) as Hi.
    rewrite E2 in HL', Hi. by exists L', ys, zs.
  - destruct (SortedInsertInverted_refines L xs x k HL) as (L' & E & HL').
    destruct (ListSpec.sorted_insert_inverted_split xs x k Hs) as (ys & zs & -> & E2 & Hy & Hz).
    pose proof (ListSpec.sorted_insert_inverted_decreasing _ x k Hs) as Hi.
    rewrite E2 in HL', Hi. by exists L', ys, zs.
Qed.

Lemma SortedInsert_sorted_stable_witness :
  ∃ L ys zs, SortedInsert new_List 20%nat 2 = Ok L ∧ [] = ys ++ zs ∧
    repr L (ys ++ (2, 20%nat) :: zs) ∧ ListSpec.increasing (ys ++ (2, 20%nat) :: zs) ∧
    Forall (λ y, y.1 ≤ 2) ys ∧ Forall (λ z, 2 < z.1) zs.
Proof.
  apply (SortedInsert_sorted_stable new_List [] 20%nat 2); [apply repr_empty|constructor].
Defined.
