(* ===== verification/Bitmap.v ===== *)
(** * [lib/bitmap.hh], [lib/bitmap.cc]: bit arrays

    [Bitmap] manages disk sectors (the free map of the file system) and page
    frames (the map of main memory).  It is modelled with its storage, an array
    of 32-bit words on which the bit operations of the source act.  The
    abstract view is the function [bit]: is bit [i] set?  The class [FreeMap]
    is what the file system needs from it; the file header code is written and
    verified against that interface, and [Bitmap] is its instance. *)

From S2P Require Import Prelude.
From stdpp Require Import base option list gmap numbers tactics.
From stdpp Require Import list.
Open Scope Z_scope.

Definition BITS_IN_WORD : Z := 32.

(** [lib/utility.hh]; both arguments are [unsigned]. *)
Definition DivRoundDown (n s : Z) : Z := n / s.
Definition DivRoundUp (n s : Z) : Z := n / s + (if bool_decide (n mod s > 0) then 1 else 0).

Lemma DivRoundUp_spec n s : 0 < s → 0 ≤ n →
  s * (DivRoundUp n s - 1) < n ≤ s * DivRoundUp n s ∨ (n = 0 ∧ DivRoundUp n s = 0).
Proof.
  intros. unfold DivRoundUp. pose proof (Z.div_mod n s). pose proof (Z.mod_pos_bound n s).
  case_bool_decide; [left; nia|]. assert (n mod s = 0) by lia.
  destruct (decide (n = 0)) as [->|]; [right; rewrite Zdiv_0_l; lia|left; nia].
Qed.

(** ** The interface *)
Class FreeMap (B : Type) := {
  fm_Test : B → Z → result bool;
  fm_Mark : B → Z → result B;
  fm_Clear : B → Z → result B;
  fm_Find : B → result (Z * B);
  fm_CountClear : B → result Z
}.

(** The contract: an abstract set of used items below a fixed size. *)
Class FreeMapSpec (B : Type) `{FreeMap B} := {
  fm_wf : B → Prop;
  fm_size : B → Z;
  fm_used : B → Z → bool;
  (** The number of unused items. *)
  fm_clear : B → nat;
  fm_test_ok b i : fm_wf b → 0 ≤ i < fm_size b → fm_Test b i = Ok (fm_used b i);
  fm_clear_ok b i : fm_wf b → 0 ≤ i < fm_size b →
    ∃ b', fm_Clear b i = Ok b' ∧ fm_wf b' ∧ fm_size b' = fm_size b ∧
      (∀ j, 0 ≤ j < fm_size b → fm_used b' j = if decide (j = i) then false else fm_used b j) ∧
      fm_clear b' = if fm_used b i then S (fm_clear b) else fm_clear b;
  fm_count_ok b : fm_wf b → fm_CountClear b = Ok (Z.of_nat (fm_clear b));
  fm_find_ok b : fm_wf b → (0 < fm_clear b)%nat →
    ∃ i b', fm_Find b = Ok (i, b') ∧ fm_wf b' ∧ fm_size b' = fm_size b ∧
      0 ≤ i < fm_size b ∧ fm_used b i = false ∧
      (∀ j, 0 ≤ j < i → fm_used b j = true) ∧
      (∀ j, 0 ≤ j < fm_size b → fm_used b' j = if decide (j = i) then true else fm_used b j) ∧
      fm_clear b = S (fm_clear b')
}.

(** ** The implementation *)
Record Bitmap := mkBitmap {
  numBits : Z;
  map : list Z
}.

Definition numWords (b : Bitmap) : Z := DivRoundUp (numBits b) BITS_IN_WORD.

(** [1 << which % BITS_IN_WORD], as the [unsigned] it becomes when combined with
    a word of the map. *)
Definition mask (which : Z) : Z := Z.shiftl 1 (which mod BITS_IN_WORD).

Definition Mark (b : Bitmap) (which : Z) : result Bitmap :=
  _ ← ASSERT (bool_decide (which < numBits b));
  w ← rd (map b) (which / BITS_IN_WORD);
  m ← wr (map b) (which / BITS_IN_WORD) (Z.lor w (mask which));
  Ok (mkBitmap (numBits b) m).

Definition Clear (b : Bitmap) (which : Z) : result Bitmap :=
  _ ← ASSERT (bool_decide (which < numBits b));
  w ← rd (map b) (which / BITS_IN_WORD);
  m ← wr (map b) (which / BITS_IN_WORD) (Z.land w (u32 (Z.lnot (mask which))));
  Ok (mkBitmap (numBits b) m).

Definition Test (b : Bitmap) (which : Z) : result bool :=
  _ ← ASSERT (bool_decide (which < numBits b));
  w ← rd (map b) (which / BITS_IN_WORD);
  Ok (negb (Z.land w (mask which) =? 0)).

(** The constructor.  [new unsigned [numWords]] leaves the words with the
    contents [garbage] of the allocated memory. *)
Definition new_Bitmap (nitems : Z) (garbage : list Z) : result Bitmap :=
  _ ← ASSERT (bool_decide (nitems > 0));
  let b := mkBitmap nitems garbage in
  for_loop (span 0 nitems) 0 (λ i b, Clear b i) b.

Fixpoint Find_loop (n : nat) (i : Z) (b : Bitmap) : result (Z * Bitmap) :=
  match n with
  | O => Ok (-1, b)
  | S n' =>
      t ← Test b i;
      if negb t then b' ← Mark b i; Ok (s32 i, b')
      else Find_loop n' (i + 1) b
  end.

Definition Find (b : Bitmap) : result (Z * Bitmap) :=
  Find_loop (span 0 (numBits b)) 0 b.

Definition CountClear (b : Bitmap) : result Z :=
  for_loop (span 0 (numBits b)) 0
    (λ i (count : Z), t ← Test b i; Ok (if negb t then u32 (count + 1) else count)) 0.

(** The indexes [Print] writes, in order. *)
Definition Print (b : Bitmap) : result (list Z) :=
  for_loop (span 0 (numBits b)) 0
    (λ i (out : list Z), t ← Test b i; Ok (if (t : bool) then out ++ [i] else out)) [].

(** The bytes [WriteBack] hands to [OpenFile::WriteAt] and the ones
    [FetchFrom] receives from [OpenFile::ReadAt]: [numWords * 4] bytes of [map]
    at file offset 0. *)
Definition WriteBack_bytes (b : Bitmap) : list Z := words_bytes (map b).
Definition FetchFrom_bytes (b : Bitmap) (bs : list Z) : Bitmap :=
  mkBitmap (numBits b) (bytes_words (length (map b)) bs).

#[export] Instance Bitmap_FreeMap : FreeMap Bitmap := {
  fm_Test := Test; fm_Mark := Mark; fm_Clear := Clear;
  fm_Find := Find; fm_CountClear := CountClear
}.

(** ** Well-formedness and the abstract view *)
Record wf (b : Bitmap) : Prop := {
  wf_bits : 0 < numBits b < 2 ^ 31;
  wf_len : Z.of_nat (length (map b)) = numWords b;
  wf_words : Forall is_u32 (map b)
}.

Definition bit (b : Bitmap) (i : Z) : bool :=
  match map b !! Z.to_nat (i / 32) with
  | Some w => Z.testbit w (i mod 32)
  | None => false
  end.

(** The clear bits below the size, in increasing order. *)
Definition clear_bits (b : Bitmap) : list Z :=
  filter (λ i, bit b i = false) (seqZ 0 (numBits b)).

(** [wf] and in range: the word and the bit exist. *)
Lemma wf_word b i : wf b → 0 ≤ i < numBits b →
  ∃ w, map b !! Z.to_nat (i / 32) = Some w ∧ is_u32 w ∧
    0 ≤ i / 32 < Z.of_nat (length (map b)) ∧ rd (map b) (i / 32) = Ok w.
Proof.
  intros Hwf Hi. pose proof (wf_len _ Hwf) as Hl. unfold numWords, BITS_IN_WORD in Hl.
  assert (0 ≤ i / 32 < Z.of_nat (length (map b))) as Hr.
  { rewrite Hl. unfold DivRoundUp. case_bool_decide; Z.div_mod_to_equations; lia. }
  destruct (rd_in_range (map b) (i / 32) Hr) as (w & Hrd & Hw).
  exists w. split_and!; try done; try lia.
  all: eapply Forall_lookup_1 in Hw; [|apply (wf_words _ Hwf)]; apply Hw.
Qed.

Lemma mask_testbit i j : 0 ≤ j → Z.testbit (mask i) j = bool_decide (j = i mod 32).
Proof.
  intros Hj. unfold mask, BITS_IN_WORD. pose proof (Z.mod_pos_bound i 32).
  rewrite Z.shiftl_1_l, Z.pow2_bits_eqb by lia.
  case_bool_decide; [subst; apply Z.eqb_refl|apply Z.eqb_neq; lia].
Qed.

Lemma u32_testbit z j : 0 ≤ j → Z.testbit (u32 z) j = bool_decide (j < 32) && Z.testbit z j.
Proof.
  intros. unfold u32. case_bool_decide.
  - by rewrite Z.mod_pow2_bits_low by lia.
  - by rewrite Z.mod_pow2_bits_high by lia.
Qed.

Lemma is_u32_bits w : 0 ≤ w → (∀ j, 32 ≤ j → Z.testbit w j = false) → is_u32 w.
Proof.
  intros H0 Hb. split; [done|]. destruct (decide (w = 0)) as [->|]; [lia|].
  apply Z.log2_lt_pow2; [lia|]. destruct (decide (Z.log2 w < 32)); [done|].
  exfalso. apply Bool.diff_true_false. rewrite <-(Hb (Z.log2 w)) by lia.
  symmetry. apply Z.bit_log2. lia.
Qed.

Lemma u32_bits_high w j : is_u32 w → 32 ≤ j → Z.testbit w j = false.
Proof.
  intros Hw Hj. rewrite <-(u32_id _ Hw), u32_testbit, bool_decide_false by lia. done.
Qed.

Lemma lor_mask_u32 w i : is_u32 w → is_u32 (Z.lor w (mask i)).
Proof.
  intros Hw. pose proof (Z.mod_pos_bound i 32). apply is_u32_bits.
  - apply Z.lor_nonneg. split; [apply Hw|]. apply Z.shiftl_nonneg. lia.
  - intros j Hj. rewrite Z.lor_spec, (u32_bits_high w), mask_testbit by (done || lia).
    apply bool_decide_eq_false. lia.
Qed.

Lemma land_u32 w z : is_u32 w → is_u32 (Z.land w z).
Proof.
  intros Hw. apply is_u32_bits.
  - apply Z.land_nonneg. left. apply Hw.
  - intros j Hj. by rewrite Z.land_spec, (u32_bits_high w).
Qed.

(** Writing one word changes one bit. *)
Lemma bit_update b i w w' v :
  0 ≤ i → map b !! Z.to_nat (i / 32) = Some w →
  (∀ j, 0 ≤ j < 32 → Z.testbit w' j = if decide (j = i mod 32) then v else Z.testbit w j) →
  ∀ j, 0 ≤ j →
    bit (mkBitmap (numBits b) (<[Z.to_nat (i / 32) := w']> (map b))) j
    = if decide (j = i) then v else bit b j.
Proof.
  intros Hi Hw Hw' j Hj. unfold bit. cbn.
  pose proof (Z.mod_pos_bound j 32). pose proof (Z.mod_pos_bound i 32).
  destruct (decide (j / 32 = i / 32)) as [E|E].
  - pose proof (lookup_lt_Some _ _ _ Hw).
    rewrite E, list_lookup_insert_eq, Hw' by lia. rewrite Hw.
    destruct (decide (j = i)) as [->|]; [by rewrite decide_True|].
    rewrite decide_False; [done|]. intros Em. Z.div_mod_to_equations. lia.
  - rewrite list_lookup_insert_ne by (Z.div_mod_to_equations; lia).
    rewrite decide_False; [done|]. by intros ->.
Qed.

Lemma wf_update b i w' :
  wf b → is_u32 w' → wf (mkBitmap (numBits b) (<[Z.to_nat (i / 32) := w']> (map b))).
Proof.
  intros Hwf Hw. split; cbn.
  - apply (wf_bits _ Hwf).
  - rewrite length_insert. apply (wf_len _ Hwf).
  - apply Forall_insert; [apply (wf_words _ Hwf)|done].
Qed.

Lemma Test_ok b i : wf b → 0 ≤ i < numBits b → Test b i = Ok (bit b i).
Proof.
  intros Hwf Hi. destruct (wf_word b i Hwf Hi) as (w & Hw & Hu & Hr & Hrd).
  unfold Test, bit, BITS_IN_WORD. rewrite bool_decide_true by lia. cbn.
  rewrite Hrd, Hw. cbn. f_equal. pose proof (Z.mod_pos_bound i 32).
  destruct (Z.testbit w (i mod 32)) eqn:E.
  - apply negb_true_iff, Z.eqb_neq. intros E0.
    assert (Z.testbit (Z.land w (mask i)) (i mod 32) = true) as E1.
    { rewrite Z.land_spec, E, mask_testbit, bool_decide_true by lia. done. }
    by rewrite E0, Z.testbit_0_l in E1.
  - apply negb_false_iff, Z.eqb_eq. apply Z.bits_inj'. intros j Hj.
    rewrite Z.land_spec, mask_testbit, Z.testbit_0_l by lia.
    case_bool_decide; subst; [by rewrite E|by rewrite andb_false_r].
Qed.

Lemma Mark_ok b i : wf b → 0 ≤ i < numBits b →
  ∃ b', Mark b i = Ok b' ∧ wf b' ∧ numBits b' = numBits b ∧
    ∀ j, 0 ≤ j → bit b' j = if decide (j = i) then true else bit b j.
Proof.
  intros Hwf Hi. destruct (wf_word b i Hwf Hi) as (w & Hw & Hu & Hr & Hrd).
  unfold Mark, BITS_IN_WORD. rewrite bool_decide_true by lia. cbn.
  rewrite Hrd. cbn. rewrite wr_ok by done. cbn. eexists. split; [done|].
  split; [by apply wf_update, lor_mask_u32|]. split; [done|].
  apply (bit_update b i w); [lia|done|]. intros j Hj.
  rewrite Z.lor_spec, mask_testbit by lia.
  destruct (decide (j = i mod 32)); case_bool_decide; try done; auto using orb_true_r, orb_false_r.
Qed.

Lemma Clear_bit_update b i w :
  wf b → 0 ≤ i → map b !! Z.to_nat (i / 32) = Some w →
  ∀ j, 0 ≤ j →
    bit (mkBitmap (numBits b)
      (<[Z.to_nat (i / 32) := Z.land w (u32 (Z.lnot (mask i)))]> (map b))) j
    = if decide (j = i) then false else bit b j.
Proof.
  intros Hwf Hi Hw. apply (bit_update b i w); [lia|done|]. intros j Hj.
  rewrite Z.land_spec, u32_testbit, Z.lnot_spec, mask_testbit by lia.
  rewrite bool_decide_true by lia.
  destruct (decide (j = i mod 32)); case_bool_decide; try done; cbn;
    auto using andb_false_r, andb_true_r.
Qed.

Lemma Clear_ok b i : wf b → 0 ≤ i < numBits b →
  ∃ b', Clear b i = Ok b' ∧ wf b' ∧ numBits b' = numBits b ∧
    ∀ j, 0 ≤ j → bit b' j = if decide (j = i) then false else bit b j.
Proof.
  intros Hwf Hi. destruct (wf_word b i Hwf Hi) as (w & Hw & Hu & Hr & Hrd).
  unfold Clear, BITS_IN_WORD. rewrite bool_decide_true by lia. cbn.
  rewrite Hrd. cbn. rewrite wr_ok by done. cbn. eexists. split; [done|].
  split; [by apply wf_update, land_u32|]. split; [done|].
  apply Clear_bit_update; [done|lia|done].
Qed.

Lemma span_nat n : 0 ≤ n → 0 + Z.of_nat (span 0 n) = n.
Proof. unfold span. lia. Qed.

(** The constructor clears every bit, whatever the allocated memory holds. *)
Lemma new_Bitmap_ok n garbage :
  0 < n < 2 ^ 31 → Forall is_u32 garbage →
  Z.of_nat (length garbage) = DivRoundUp n BITS_IN_WORD →
  ∃ b, new_Bitmap n garbage = Ok b ∧ wf b ∧ numBits b = n ∧
    ∀ j, 0 ≤ j < n → bit b j = false.
Proof.
  intros Hn Hg Hl. unfold new_Bitmap. rewrite bool_decide_true by lia. cbn.
  destruct (for_loop_ind (λ i b, wf b ∧ numBits b = n ∧ ∀ j, 0 ≤ j < i → bit b j = false)
    (span 0 n) 0 (λ i b, Clear b i) (mkBitmap n garbage)) as (b & E & Hwf & Hb & Hc).
  - split_and!; [|done|lia]. by split.
  - intros i b Hi (Hwf & Hb & Hc). unfold span in Hi.
    destruct (Clear_ok b i) as (b' & E & Hwf' & Hb' & Hc'); [done|lia|].
    exists b'. split_and!; [done..|lia|]. intros j Hj. rewrite Hc' by lia.
    destruct (decide (j = i)); [done|]. apply Hc. lia.
  - exists b. split_and!; [done..|]. by rewrite span_nat in Hc by lia.
Qed.

(** ** Counting clear bits *)
Definition clear_upto (f : Z → bool) (n : Z) : nat :=
  length (filter (λ i, f i = false) (seqZ 0 n)).

Lemma clear_upto_succ f n :
  0 ≤ n → clear_upto f (n + 1) = (clear_upto f n + (if f n then 0 else 1))%nat.
Proof.
  intros Hn. unfold clear_upto. rewrite seqZ_app by lia.
  assert (seqZ (0 + n) 1 = [n]) as -> by (cbn; f_equal; lia).
  rewrite filter_app, length_app, filter_cons, filter_nil. f_equal.
  by destruct (f n).
Qed.

Lemma clear_upto_neg f n : n ≤ 0 → clear_upto f n = O.
Proof. intros. unfold clear_upto. by rewrite seqZ_nil by lia. Qed.

Lemma clear_upto_ext f g n :
  (∀ i, 0 ≤ i < n → f i = g i) → clear_upto f n = clear_upto g n.
Proof.
  destruct (decide (0 ≤ n)) as [Hn|Hn]; [|by rewrite !clear_upto_neg by lia].
  revert n Hn. apply (natlike_ind (λ n, _ → _)); [done|].
  intros n Hn IH Hfg. change (Z.succ n) with (n + 1). rewrite !clear_upto_succ by lia.
  rewrite IH by (intros; apply Hfg; lia). by rewrite Hfg by lia.
Qed.

(** Setting one clear bit removes exactly one clear bit. *)
Lemma clear_upto_flip f g i n :
  0 ≤ i < n → f i = false → g i = true → (∀ j, 0 ≤ j < n → j ≠ i → g j = f j) →
  clear_upto f n = S (clear_upto g n).
Proof.
  intros Hi Hf Hg. assert (0 ≤ n) as Hn by lia. revert n Hn Hi.
  apply (natlike_ind (λ n, _ → _ → _)); [lia|].
  intros n Hn IH Hi Hfg. change (Z.succ n) with (n + 1). rewrite !clear_upto_succ by lia.
  destruct (decide (i = n)) as [->|].
  - rewrite Hf, Hg, (clear_upto_ext g f); [lia|]. intros j ?. apply Hfg; lia.
  - rewrite IH, (Hfg n) by (try (intros; apply Hfg); lia). lia.
Qed.

Lemma clear_upto_pos f n :
  (0 < clear_upto f n)%nat ↔ ∃ i, 0 ≤ i < n ∧ f i = false.
Proof.
  unfold clear_upto. split.
  - destruct (filter _ _) as [|i l] eqn:E; cbn; [lia|]. intros _. exists i.
    assert (i ∈ filter (λ i, f i = false) (seqZ 0 n)) as Hi by (rewrite E; by left).
    apply list_elem_of_filter in Hi as [? ?%elem_of_seqZ]. split; [lia|done].
  - intros (i & Hi & Hf).
    assert (i ∈ filter (λ i, f i = false) (seqZ 0 n)) as Hin.
    { apply list_elem_of_filter. split; [done|]. apply elem_of_seqZ. lia. }
    destruct (filter _ _); [by apply elem_of_nil in Hin|cbn; lia].
Qed.

Lemma clear_upto_le f n : 0 ≤ n → Z.of_nat (clear_upto f n) ≤ n.
Proof.
  intros Hn. unfold clear_upto. etrans; [apply Nat2Z.inj_le, length_filter|].
  rewrite length_seqZ. lia.
Qed.

Lemma CountClear_ok b : wf b → CountClear b = Ok (Z.of_nat (clear_upto (bit b) (numBits b))).
Proof.
  intros Hwf. unfold CountClear. pose proof (wf_bits _ Hwf) as Hb.
  destruct (for_loop_ind (λ i c, c = Z.of_nat (clear_upto (bit b) i)) (span 0 (numBits b)) 0
    (λ i (count : Z), t ← Test b i; Ok (if negb t then u32 (count + 1) else count)) 0)
    as (c & -> & ->); [done| |by rewrite span_nat by lia].
  intros i c Hi ->. unfold span in Hi. rewrite Test_ok by (done || lia). cbn.
  eexists. split; [done|]. rewrite clear_upto_succ by lia.
  destruct (bit b i); cbn; [lia|]. rewrite u32_id; [lia|].
  pose proof (clear_upto_le (bit b) i). unfold is_u32. lia.
Qed.

(** The search loop of [Find], at bit [i] with everything before it set. *)
Lemma Find_loop_ok b n i :
  wf b → 0 ≤ i → i + Z.of_nat n = numBits b → (∀ j, 0 ≤ j < i → bit b j = true) →
  ((∀ j, 0 ≤ j < numBits b → bit b j = true) ∧ Find_loop n i b = Ok (-1, b)) ∨
  ∃ k b', Find_loop n i b = Ok (k, b') ∧ 0 ≤ k < numBits b ∧ bit b k = false ∧
    (∀ j, 0 ≤ j < k → bit b j = true) ∧ wf b' ∧ numBits b' = numBits b ∧
    (∀ j, 0 ≤ j → bit b' j = if decide (j = k) then true else bit b j).
Proof.
  intros Hwf. revert i. induction n as [|n IH]; intros i Hi Hn Hs; cbn [Find_loop].
  - left. split; [|done]. intros j Hj. apply Hs. lia.
  - rewrite Test_ok by (done || lia). cbn. destruct (bit b i) eqn:E; cbn.
    + apply (IH (i + 1)); [lia..|]. intros j Hj.
      destruct (decide (j = i)) as [->|]; [done|]. apply Hs. lia.
    + right. destruct (Mark_ok b i Hwf) as (b' & -> & Hwf' & Hb' & Hbit); [lia|]. cbn.
      exists i, b'. rewrite s32_id by (pose proof (wf_bits _ Hwf); unfold is_s32; lia).
      split_and!; (done || lia).
Qed.

(** [FreeMapSpec] holds of [Bitmap]. *)
#[export, refine] Instance Bitmap_FreeMapSpec : FreeMapSpec Bitmap := {
  fm_wf := wf;
  fm_size := numBits;
  fm_used := bit;
  fm_clear b := clear_upto (bit b) (numBits b)
}.
Proof.
  - apply Test_ok.
  - intros b i Hwf Hi. destruct (Clear_ok b i Hwf Hi) as (b' & E & Hwf' & Hb' & Hbit).
    exists b'. split_and!; [done..| |]; [intros; apply Hbit; lia|]. rewrite Hb'.
    destruct (bit b i) eqn:Ei.
    + apply (clear_upto_flip _ _ i); [done| |done|].
      * by rewrite Hbit, decide_True by lia.
      * intros j ??. by rewrite Hbit, decide_False by lia.
    + apply clear_upto_ext. intros j Hj. rewrite Hbit by lia.
      destruct (decide (j = i)) as [->|]; [by rewrite Ei|done].
  - apply CountClear_ok.
  - intros b Hwf Hc. pose proof (wf_bits _ Hwf).
    destruct (Find_loop_ok b (span 0 (numBits b)) 0 Hwf) as
      [[Hall _]|(k & b' & E & Hk & Ek & Hlow & Hwf' & Hb' & Hbit)];
      [lia|by rewrite span_nat by lia|lia| |].
    + apply clear_upto_pos in Hc as (i & Hi & Ei). by rewrite Hall in Ei.
    + exists k, b'. split_and!; try (done || lia); [intros; apply Hbit; lia|]. rewrite Hb'.
      apply (clear_upto_flip _ _ k); [done..| |].
      * by rewrite Hbit, decide_True by lia.
      * intros j ??. by rewrite Hbit, decide_False by lia.
Defined.

(** ** Properties *)

(** [Find] allocates the first free item.  On a well-formed map, [Find]
    returns -1 and leaves the map alone exactly when every bit is set;
    otherwise it returns the least clear bit, marks that bit and no other, and
    the number [CountClear] reports drops by one. *)
Theorem Find_first_fit b (Hwf : wf b) :
  (CountClear b = Ok 0 ∧ Find b = Ok (-1, b)) ∨
  ∃ i b', Find b = Ok (i, b') ∧ wf b' ∧ 0 ≤ i < numBits b ∧
    Test b i = Ok false ∧ (∀ j, 0 ≤ j < i → Test b j = Ok true) ∧
    Test b' i = Ok true ∧ (∀ j, 0 ≤ j < numBits b → j ≠ i → Test b' j = Test b j) ∧
    ∃ c, CountClear b = Ok c ∧ CountClear b' = Ok (c - 1).
Proof.
  pose proof (wf_bits _ Hwf).
  destruct (decide (clear_upto (bit b) (numBits b) = O)) as [E|E].
  - left. rewrite CountClear_ok, E by done. split; [done|].
    destruct (Find_loop_ok b (span 0 (numBits b)) 0 Hwf) as
      [[_ ?]|(k & b' & _ & Hk & Ek & _)]; [lia|by rewrite span_nat by lia|lia|done|].
    assert (0 < clear_upto (bit b) (numBits b))%nat; [|lia]. apply clear_upto_pos. eauto.
  - right. pose proof (fm_find_ok (B:=Bitmap) b) as Hfind. cbn in Hfind.
    destruct (Hfind Hwf) as (i & b' & Ef & Hwf' & Hs & Hi & Ei & Hlow & Hbit & Hc); [lia|].
    exists i, b'. split_and!; try (done || lia).
    + rewrite Test_ok; [by rewrite Ei|done..].
    + intros j Hj. rewrite Test_ok; [by rewrite Hlow|done|lia].
    + rewrite Test_ok by (done || lia). by rewrite Hbit, decide_True by done.
    + intros j Hj Hne. rewrite !Test_ok by (done || lia). by rewrite Hbit, decide_False by done.
    + exists (Z.of_nat (clear_upto (bit b) (numBits b))). split; [by apply CountClear_ok|].
      rewrite CountClear_ok by done. f_equal. lia.
Qed.

Lemma Find_first_fit_witness :
  ∃ i b', Find (mkBitmap 40 [2 ^ 32 - 1; 5]) = Ok (i, b') ∧ i = 33 ∧
    Test b' 33 = Ok true ∧ CountClear b' = Ok 5.
Proof.
  destruct (Find_first_fit (mkBitmap 40 [2 ^ 32 - 1; 5]))
    as [[E _]|(i & b' & E & _ & _ & _ & _ & Ht & _)].
  - split; [cbn; lia|reflexivity|repeat constructor; cbn; lia].
  - exfalso. vm_compute in E. discriminate E.
  - exists i, b'. split; [exact E|]. vm_compute in E. injection E as <- <-.
    split_and!; [reflexivity|exact Ht|vm_compute; reflexivity].
Defined.

(** Sequences of [Mark] and [Clear] calls, and what they should leave. *)
Inductive bit_op := DoMark (i : Z) | DoClear (i : Z).

Definition bit_op_index (o : bit_op) : Z := match o with DoMark i | DoClear i => i end.

Fixpoint run_bit_ops (os : list bit_op) (b : Bitmap) : result Bitmap :=
  match os with
  | [] => Ok b
  | DoMark i :: os => b ← Mark b i; run_bit_ops os b
  | DoClear i :: os => b ← Clear b i; run_bit_ops os b
  end.

Fixpoint spec_bit_ops (os : list bit_op) (f : Z → bool) : Z → bool :=
  match os with
  | [] => f
  | DoMark i :: os => spec_bit_ops os (λ j, if decide (j = i) then true else f j)
  | DoClear i :: os => spec_bit_ops os (λ j, if decide (j = i) then false else f j)
  end.

Lemma spec_bit_ops_ext os f g j : f j = g j → spec_bit_ops os f j = spec_bit_ops os g j.
Proof.
  revert f g. induction os as [|[i|i] os IH]; intros f g E; cbn; [done|..];
    apply IH; by destruct (decide (j = i)).
Qed.

Lemma run_bit_ops_ok os b :
  wf b → Forall (λ o, 0 ≤ bit_op_index o < numBits b) os →
  ∃ b', run_bit_ops os b = Ok b' ∧ wf b' ∧ numBits b' = numBits b ∧
    ∀ j, 0 ≤ j → bit b' j = spec_bit_ops os (bit b) j.
Proof.
  intros Hwf Hos. revert b Hwf Hos.
  induction os as [|o os IH]; intros b Hwf Hos; cbn; [eauto 10|].
  apply Forall_cons in Hos as [Ho Hos].
  assert (∃ b1 v, wf b1 ∧ numBits b1 = numBits b ∧
    match o with DoMark i => v = true | DoClear i => v = false end ∧
    match o with DoMark i => Mark b i | DoClear i => Clear b i end = Ok b1 ∧
    ∀ j, 0 ≤ j → bit b1 j = if decide (j = bit_op_index o) then v else bit b j)
    as (b1 & v & Hwf1 & Hb1 & Ev & Eo & Hbit).
  { destruct o as [i|i]; cbn in Ho.
    - destruct (Mark_ok b i Hwf Ho) as (b1 & ? & ? & ? & ?). eexists _, _. eauto.
    - destruct (Clear_ok b i Hwf Ho) as (b1 & ? & ? & ? & ?). eexists _, _. eauto. }
  destruct (IH b1 Hwf1) as (b' & E & Hwf' & Hb' & Hbit'); [by rewrite Hb1|].
  destruct o as [i|i]; rewrite Eo; cbn; subst v; exists b'; split_and!; try done;
    try congruence; intros j Hj; rewrite Hbit' by done; apply spec_bit_ops_ext; by rewrite Hbit.
Qed.

(** The constructor, [Mark], [Clear] and [Test] implement an array of
    bits: a new bitmap has every bit clear whatever the allocated memory held,
    and after any sequence of [Mark] and [Clear] calls each bit reads as the
    last call on it left it; no call fails while the index is in range. *)
Theorem Bitmap_bit_array n garbage os
  (Hn : 0 < n < 2 ^ 31) (Hg : Forall is_u32 garbage)
  (Hl : Z.of_nat (length garbage) = DivRoundUp n BITS_IN_WORD)
  (Hos : Forall (λ o, 0 ≤ bit_op_index o < n) os) :
  ∃ b b', new_Bitmap n garbage = Ok b ∧ run_bit_ops os b = Ok b' ∧
    ∀ j, 0 ≤ j < n → Test b' j = Ok (spec_bit_ops os (λ _, false) j).
Proof.
  destruct (new_Bitmap_ok n garbage Hn Hg Hl) as (b & E & Hwf & Hb & Hz).
  destruct (run_bit_ops_ok os b Hwf) as (b' & E' & Hwf' & Hb' & Hbit); [by rewrite Hb|].
  exists b, b'. split_and!; [done..|]. intros j Hj. rewrite Test_ok by (done || lia).
  f_equal. rewrite Hbit by lia. apply spec_bit_ops_ext. by apply Hz.
Qed.

Lemma Bitmap_bit_array_witness :
  ∃ b b', new_Bitmap 40 [12345; 2 ^ 32 - 1] = Ok b ∧
    run_bit_ops [DoMark 31; DoMark 33; DoClear 33] b = Ok b' ∧
    map b' = [2 ^ 31; 4294967040].
Proof.
  destruct (Bitmap_bit_array 40 [12345; 2 ^ 32 - 1] [DoMark 31; DoMark 33; DoClear 33])
    as (b & b' & E1 & E2 & _); [lia|repeat constructor; cbn; lia|reflexivity| |].
  { repeat constructor; cbn; lia. }
  exists b, b'. split_and!; [exact E1|exact E2|].
  vm_compute in E1. injection E1 as <-. vm_compute in E2. injection E2 as <-. reflexivity.
Defined.

(** Saving and reloading.  The bytes [WriteBack] writes are
    [4 * numWords] proper bytes, and [FetchFrom] on them restores the map. *)
Theorem Bitmap_roundtrip b b0 (Hwf : wf b) (Hn : numBits b0 = numBits b)
  (Hl : length (map b0) = length (map b)) :
  Z.of_nat (length (WriteBack_bytes b)) = 4 * numWords b ∧
  Forall is_byte (WriteBack_bytes b) ∧
  FetchFrom_bytes b0 (WriteBack_bytes b) = b.
Proof.
  split_and!.
  - unfold WriteBack_bytes. rewrite words_bytes_length, <-(wf_len _ Hwf). lia.
  - apply words_bytes_bytes.
  - unfold FetchFrom_bytes, WriteBack_bytes. rewrite Hn, Hl, bytes_words_words by apply Hwf.
    by destruct b.
Qed.

Lemma Bitmap_roundtrip_witness :
  FetchFrom_bytes (mkBitmap 40 [0; 0]) (WriteBack_bytes (mkBitmap 40 [305419896; 5]))
    = mkBitmap 40 [305419896; 5].
Proof.
  apply Bitmap_roundtrip; [|reflexivity..].
  split; [cbn; lia|reflexivity|repeat constructor; cbn; lia].
Defined.
