(* ===== verification/Table.v ===== *)
(** * [lib/table.hh]: [Table<T>], a map from small integers to items

    Threads keep their open files in a [Table], and the kernel keeps its
    processes in one.  [freed] is a [List<int>] used through the functional
    view that [LinkedList] proves its pointer code to implement. *)

From S2P Require Import Prelude LinkedList.
From stdpp Require Import sorting.
From stdpp Require Import base option list gmap numbers tactics.
From stdpp Require Import list.
Open Scope Z_scope.

Definition SIZE : Z := 1000.

Section Table.
Context {T : Type}.
(** [T()]. *)
Context (TDefault : T).

Record Table := mkTable {
  data : list T;
  current : Z;
  freed : list (Z * Z)
}.

(** The constructor leaves the items of [data] as the memory holds them. *)
Definition new_Table (garbage : list T) : Table := mkTable garbage 0 [].

Definition Add (t : Table) (item : T) : result (Z * Table) :=
  match freed t with
  | (_, i) :: rest =>
      d ← wr (data t) i item;
      Ok (i, mkTable d (current t) rest)
  | [] =>
      if bool_decide (current t < SIZE) then
        let i := current t in
        d ← wr (data t) i item;
        Ok (i, mkTable d (current t + 1) [])
      else Ok (-1, t)
  end.

Definition HasKey (t : Table) (i : Z) : result bool :=
  _ ← ASSERT (bool_decide (i >= 0));
  Ok (bool_decide (i < current t) && negb (ListSpec.has (freed t) i)).

Definition Get (t : Table) (i : Z) : result T :=
  _ ← ASSERT (bool_decide (i >= 0));
  h ← HasKey t i;
  if (h : bool) then rd (data t) i else Ok TDefault.

Definition IsEmpty (t : Table) : bool := bool_decide (current t = 0).

(** The compaction loop of [Remove].  [freed.SortedPop(&j)] overwrites the loop
    variable with the key it pops.  Each iteration pops one element, so one
    more than the number of freed indexes is enough fuel. *)
Fixpoint Remove_loop (fuel : nat) (j : Z) (t : Table) : result Table :=
  match fuel with
  | O => Err OutOfFuel
  | S fuel =>
      if bool_decide (j >= 0) then
        h ← HasKey t j;
        if negb h then
          _ ← ASSERT (ListSpec.has (freed t) j);
          match freed t with
          | (k, _) :: rest =>
              Remove_loop fuel (k - 1) (mkTable (data t) (current t - 1) rest)
          | [] => Remove_loop fuel (j - 1) (mkTable (data t) (current t - 1) [])
          end
        else Ok t
      else Ok t
  end.

Definition Remove (t : Table) (i : Z) : result (T * Table) :=
  _ ← ASSERT (bool_decide (i >= 0));
  h ← HasKey t i;
  if negb h then Ok (TDefault, t)
  else
    t' ← (if bool_decide (i = current t - 1) then
            let t1 := mkTable (data t) (current t - 1) (freed t) in
            Remove_loop (S (length (freed t))) (current t1 - 1) t1
          else Ok (mkTable (data t) (current t) (ListSpec.sorted_insert (freed t) i i)));
    v ← rd (data t') i;
    Ok (v, t').

Definition Update (t : Table) (i : Z) (item : T) : result (T * Table) :=
  _ ← ASSERT (bool_decide (i >= 0));
  _ ← ASSERT (bool_decide (i < current t));
  _ ← ASSERT (negb (ListSpec.has (freed t) i));
  previous ← rd (data t) i;
  d ← wr (data t) i item;
  Ok (previous, mkTable d (current t) (freed t)).

(** ** Invariant *)

(** The freed indexes are those below [current] that hold no item; the list is
    sorted by key, the key of an index is the index, and the greatest index
    below [current] is in use. *)
Record wf (t : Table) : Prop := {
  wf_data : Z.of_nat (length (data t)) = SIZE;
  wf_current : 0 ≤ current t ≤ SIZE;
  wf_keys : Forall (λ p, p.1 = p.2) (freed t);
  wf_sorted : StronglySorted (λ a b : Z * Z, a.1 < b.1) (freed t);
  wf_range : Forall (λ p, 0 ≤ p.1 < current t - 1) (freed t)
}.

(** The abstract view: is index [i] in use? *)
Definition live (t : Table) (i : Z) : bool :=
  bool_decide (0 ≤ i < current t) && negb (ListSpec.has (freed t) i).

(** The number of items in the table. *)
Definition items (t : Table) : Z := current t - Z.of_nat (length (freed t)).

Lemma HasKey_ok t i : 0 ≤ i → HasKey t i = Ok (live t i).
Proof.
  intros Hi. unfold HasKey, live. rewrite (bool_decide_true (i >= 0)) by lia. cbn.
  by rewrite (bool_decide_ext (i < current t) (0 ≤ i < current t)) by lia.
Qed.

Lemma HasKey_inv t i b : HasKey t i = Ok b → 0 ≤ i ∧ live t i = b.
Proof.
  intros H. assert (0 ≤ i) as Hi.
  { unfold HasKey, ASSERT in H. destruct (decide (i >= 0)); [lia|].
    by rewrite (bool_decide_false (i >= 0)) in H. }
  split; [done|]. rewrite HasKey_ok in H by done. by injection H.
Qed.

Lemma live_range t i : live t i = true → 0 ≤ i < current t.
Proof. unfold live. rewrite andb_true_iff, bool_decide_eq_true. naive_solver. Qed.

Lemma has_cons (k x y : Z) l :
  ListSpec.has ((k, x) :: l) y = bool_decide (y = x) || ListSpec.has l y.
Proof.
  unfold ListSpec.has. cbn. destruct (decide (y = x)) as [->|Hne].
  - rewrite !bool_decide_true by (done || by left). done.
  - rewrite (bool_decide_false (y = x)) by done. cbn. apply bool_decide_ext.
    rewrite elem_of_cons. naive_solver.
Qed.

Lemma has_insert (xs : list (Z * Z)) x k y :
  ListSpec.has (ListSpec.sorted_insert xs x k) y = bool_decide (y = x) || ListSpec.has xs y.
Proof.
  rewrite <-(has_cons k). unfold ListSpec.has. apply bool_decide_ext.
  unfold ListSpec.sorted_insert. by rewrite ListSpec.insert_by_perm.
Qed.

Lemma wf_freed_range t i : wf t → ListSpec.has (freed t) i = true → 0 ≤ i < current t - 1.
Proof.
  intros Hwf (k & Hk)%ListSpec.has_true.
  pose proof (wf_keys _ Hwf) as H1. pose proof (wf_range _ Hwf) as H2.
  rewrite Forall_forall in H1, H2. specialize (H1 _ Hk). specialize (H2 _ Hk).
  cbn in *. lia.
Qed.

Lemma wf_head_not_in_tail t k i rest :
  wf t → freed t = (k, i) :: rest → k = i ∧ ListSpec.has rest i = false.
Proof.
  intros Hwf E. pose proof (wf_keys _ Hwf) as Hk. pose proof (wf_sorted _ Hwf) as Hs.
  rewrite E in Hk, Hs. apply Forall_cons in Hk as [Hki Hk]. cbn in Hki. split; [done|].
  apply StronglySorted_inv in Hs as [_ Hs]. apply not_true_is_false.
  intros (k' & Hin)%ListSpec.has_true.
  rewrite Forall_forall in Hk, Hs. specialize (Hk _ Hin). specialize (Hs _ Hin). cbn in *. lia.
Qed.

(** Sorted insertion of a new index keeps the list strictly sorted. *)
Lemma insert_strict (xs : list (Z * Z)) i :
  Forall (λ p, p.1 = p.2) xs → ListSpec.has xs i = false →
  StronglySorted (λ a b : Z * Z, a.1 < b.1) xs →
  StronglySorted (λ a b : Z * Z, a.1 < b.1) (ListSpec.sorted_insert xs i i).
Proof.
  unfold ListSpec.sorted_insert. intros Hk Hn Hs. revert Hk Hn.
  induction Hs as [|[k x] r Hs IH Hall]; intros Hk Hn; cbn.
  - repeat constructor.
  - apply Forall_cons in Hk as [E Hk]. cbn in E. subst x. rewrite has_cons in Hn.
    apply orb_false_iff in Hn as [Hne Hn]. apply bool_decide_eq_false in Hne.
    destruct (i <? k) eqn:Elt.
    + constructor; [by constructor|]. constructor; [cbn; lia|].
      eapply Forall_impl; [exact Hall|]. intros [??]; cbn. lia.
    + constructor; [by apply IH|]. rewrite ListSpec.insert_by_perm.
      constructor; [cbn; lia|done].
Qed.

(** ** Behaviour of the operations *)

Lemma Add_wf t x i t' : wf t → Add t x = Ok (i, t') → wf t'.
Proof.
  intros Hwf. unfold Add. destruct (freed t) as [|[k i0] rest] eqn:Ef.
  - case_bool_decide as Hc; [|by intros [= <- <-]]. intros E. invok.
    apply wr_inv in H as [Hr ->]. split; cbn.
    + rewrite length_insert. apply Hwf.
    + pose proof (wf_current _ Hwf). lia.
    + constructor.
    + constructor.
    + constructor.
  - intros E. invok. apply wr_inv in H as [Hr ->].
    pose proof (wf_keys _ Hwf) as Hk. pose proof (wf_sorted _ Hwf) as Hs.
    pose proof (wf_range _ Hwf) as Hg. rewrite Ef in Hk, Hs, Hg.
    apply Forall_cons in Hk as [_ Hk]. apply Forall_cons in Hg as [_ Hg].
    apply StronglySorted_inv in Hs as [Hs _]. split; cbn; [|apply Hwf|done..].
    rewrite length_insert. apply Hwf.
Qed.

(** [Add] on a well-formed table. *)
Lemma Add_ok t x :
  wf t →
  (items t = SIZE ∧ Add t x = Ok (-1, t)) ∨
  ∃ i t', Add t x = Ok (i, t') ∧ items t' = items t + 1 ∧ live t i = false ∧
    (∀ j, live t' j = if decide (j = i) then true else live t j) ∧
    data t' = <[Z.to_nat i := x]> (data t) ∧ 0 ≤ i < SIZE.
Proof.
  intros Hwf. pose proof (wf_current _ Hwf) as Hc. pose proof (wf_data _ Hwf) as Hd.
  unfold Add, items. destruct (freed t) as [|[k i] rest] eqn:Ef.
  - case_bool_decide as Hlt.
    + right. rewrite wr_ok by lia. cbn. exists (current t). eexists. split; [done|]. cbn.
      split_and!; [lia| | |done|lia..].
      * unfold live. by rewrite bool_decide_false by lia.
      * intros j. unfold live. cbn. rewrite Ef. destruct (decide (j = current t)) as [->|].
        -- by rewrite bool_decide_true by lia.
        -- by rewrite (bool_decide_ext (0 ≤ j < current t + 1) (0 ≤ j < current t)) by lia.
    + left. split; [cbn; lia|done].
  - right. destruct (wf_head_not_in_tail t k i rest Hwf Ef) as [-> Hni].
    assert (0 ≤ i < current t - 1) as Hi.
    { apply (wf_freed_range t i Hwf). rewrite Ef, has_cons. by rewrite bool_decide_true. }
    rewrite wr_ok by lia. cbn. exists i. eexists. split; [done|]. cbn.
    split_and!; [lia| | |done|lia..].
    + unfold live. rewrite Ef, has_cons, (bool_decide_true (i = i)) by done. apply andb_false_r.
    + intros j. unfold live. cbn. rewrite Ef, has_cons.
      destruct (decide (j = i)) as [->|Hne].
      * by rewrite Hni, bool_decide_true by lia.
      * by rewrite (bool_decide_false (j = i)).
Qed.

(** When [Remove] works: the removed index is not the greatest one, or its
    neighbour is in use (or there is none), or at most one index is freed. *)
Definition remove_safe (t : Table) (i : Z) : Prop :=
  i ≠ current t - 1 ∨ ListSpec.has (freed t) (i - 1) = false ∨ (length (freed t) ≤ 1)%nat.

Lemma Remove_loop_stop fuel j t :
  (0 < fuel)%nat → (j < 0 ∨ live t j = true) → Remove_loop fuel j t = Ok t.
Proof.
  destruct fuel as [|fuel]; [lia|]. intros _ [Hj|Hl]; cbn [Remove_loop].
  - by rewrite bool_decide_false by lia.
  - pose proof (live_range _ _ Hl). rewrite bool_decide_true by lia.
    rewrite HasKey_ok by lia. cbn. by rewrite Hl.
Qed.

(** One compaction step. *)
Lemma Remove_loop_step fuel j t k x rest :
  0 ≤ j < current t → freed t = (k, x) :: rest → ListSpec.has (freed t) j = true →
  Remove_loop (S fuel) j t = Remove_loop fuel (k - 1) (mkTable (data t) (current t - 1) rest).
Proof.
  intros Hj Ef Hh. cbn [Remove_loop]. rewrite bool_decide_true by lia.
  rewrite HasKey_ok by lia. cbn. unfold live. rewrite Hh, andb_false_r. cbn. by rewrite Ef.
Qed.

Lemma live_top t :
  wf t → ListSpec.has (freed t) (current t - 2) = false →
  (current t - 1 - 1 < 0 ∨ live (mkTable (data t) (current t - 1) (freed t)) (current t - 1 - 1) = true).
Proof.
  intros Hwf Hn. destruct (decide (current t - 2 < 0)); [left; lia|right].
  unfold live. cbn. rewrite bool_decide_true by lia.
  replace (current t - 1 - 1) with (current t - 2) by lia. by rewrite Hn.
Qed.

(** The contents of the table as a partial map. *)
Definition lookup_item (t : Table) (i : Z) : option T :=
  if live t i then data t !! Z.to_nat i else None.

Lemma Remove_unfold t i t' :
  wf t → live t i = true → data t' = data t →
  (if bool_decide (i = current t - 1) then
     let t1 := mkTable (data t) (current t - 1) (freed t) in
     Remove_loop (S (length (freed t))) (current t1 - 1) t1
   else Ok (mkTable (data t) (current t) (ListSpec.sorted_insert (freed t) i i))) = Ok t' →
  ∃ v, Remove t i = Ok (v, t') ∧ lookup_item t i = Some v.
Proof.
  intros Hwf Hl Hd E. pose proof (live_range _ _ Hl). pose proof (wf_current _ Hwf).
  destruct (rd_in_range (data t) i) as (v & Hrd & Hv); [rewrite (wf_data _ Hwf); lia|].
  exists v. unfold lookup_item. rewrite Hl. split; [|done].
  unfold Remove. rewrite (bool_decide_true (i >= 0)) by lia. cbn [ASSERT mbind result_bind].
  rewrite HasKey_ok, Hl by lia. cbn [mbind result_bind negb]. cbn zeta in E |- *. rewrite E.
  cbn [mbind result_bind]. by rewrite Hd, Hrd.
Qed.

Definition removes (t : Table) (i : Z) : Prop :=
  ∃ v t', Remove t i = Ok (v, t') ∧ lookup_item t i = Some v ∧ wf t' ∧ data t' = data t ∧
    ∀ j, live t' j = if decide (j = i) then false else live t j.

(** The only freed index is the neighbour: it is popped. *)
Lemma Remove_pop_ok t k :
  wf t → live t (current t - 1) = true → freed t = [(k, k)] → k = current t - 2 →
  removes t (current t - 1).
Proof.
  intros Hwf Hl Ef Ek. pose proof (live_range _ _ Hl) as Hi. pose proof (wf_current _ Hwf) as Hc.
  pose proof (wf_range _ Hwf) as Hr. rewrite Ef in Hr. apply Forall_cons in Hr as [Hr _]. cbn in Hr.
  destruct (Remove_unfold t (current t - 1) (mkTable (data t) (current t - 2) []))
    as (v & E & Ev); [done..| |].
  { rewrite (bool_decide_true (_ = _)) by done. cbn zeta. rewrite Ef.
    rewrite (Remove_loop_step _ _ _ k k []); cbn [data current freed length]; [| |done|].
    - replace (current t - 1 - 1) with (current t - 2) by lia. apply Remove_loop_stop; [lia|].
      destruct (decide (k = 0)); [left; lia|right]. unfold live. cbn. by rewrite bool_decide_true by lia.
    - lia.
    - rewrite has_cons. by rewrite bool_decide_true by lia. }
  exists v, (mkTable (data t) (current t - 2) []). split_and!; [done..| |done|].
  - split; cbn; [apply Hwf|lia|constructor..].
  - intros j. unfold live. cbn. rewrite Ef, has_cons. cbn.
    destruct (decide (j = current t - 1)); [by rewrite bool_decide_false by lia|].
    rewrite orb_false_r. destruct (decide (j = k)) as [->|].
    + rewrite (bool_decide_false (0 ≤ k < _)), (bool_decide_true (k = k)) by lia.
      by rewrite andb_false_r.
    + rewrite (bool_decide_false (j = k)) by done. cbn. rewrite !andb_true_r.
      apply bool_decide_ext. lia.
Qed.

(** The neighbour is in use: there is no compaction. *)
Lemma Remove_top_ok t :
  wf t → live t (current t - 1) = true → ListSpec.has (freed t) (current t - 2) = false →
  removes t (current t - 1).
Proof.
  intros Hwf Hl Hn. pose proof (live_range _ _ Hl) as Hi. pose proof (wf_current _ Hwf) as Hc.
  set (t1 := mkTable (data t) (current t - 1) (freed t)).
  destruct (Remove_unfold t (current t - 1) t1) as (v & E & Ev); [done..| |].
  { rewrite bool_decide_true by done. apply Remove_loop_stop; [lia|]. by apply live_top. }
  exists v, t1. split_and!; [done..| |done|].
  - split; [apply Hwf|cbn; lia|apply Hwf|apply Hwf|]. cbn.
    apply Forall_forall. intros [k x] Hin. cbn.
    pose proof (wf_keys _ Hwf) as Hk. rewrite Forall_forall in Hk. specialize (Hk _ Hin). cbn in Hk.
    subst x. assert (ListSpec.has (freed t) k = true) as Hh by (apply ListSpec.has_true; eauto).
    pose proof (wf_freed_range _ _ Hwf Hh). assert (k ≠ current t - 2) by congruence. lia.
  - intros j. unfold live, t1. cbn.
    destruct (decide (j = current t - 1)); [by rewrite bool_decide_false by lia|].
    by rewrite (bool_decide_ext (0 ≤ j < current t - 1) (0 ≤ j < current t)) by lia.
Qed.

(** An index below the greatest one goes to [freed]. *)
Lemma Remove_mid_ok t i :
  wf t → live t i = true → i ≠ current t - 1 → removes t i.
Proof.
  intros Hwf Hl Ei. pose proof (live_range _ _ Hl) as Hi. pose proof (wf_current _ Hwf) as Hc.
  assert (ListSpec.has (freed t) i = false) as Hni
    by (unfold live in Hl; apply andb_true_iff in Hl as [_ ?%negb_true_iff]; done).
  set (t1 := mkTable (data t) (current t) (ListSpec.sorted_insert (freed t) i i)).
  destruct (Remove_unfold t i t1) as (v & E & Ev); [done..|by rewrite bool_decide_false|].
  exists v, t1. split_and!; [done..| |done|].
  - split; cbn; [apply Hwf|lia| | |]; [|by apply insert_strict; apply Hwf || done|];
      unfold ListSpec.sorted_insert; rewrite ListSpec.insert_by_perm;
      (constructor; [cbn; done || lia|apply Hwf]).
  - intros j. unfold live, t1. cbn. rewrite has_insert.
    destruct (decide (j = i)) as [->|].
    + rewrite (bool_decide_true (i = i)) by done. apply andb_false_r.
    + by rewrite (bool_decide_false (j = i)).
Qed.

Lemma Remove_ok t i : wf t → live t i = true → remove_safe t i → removes t i.
Proof.
  intros Hwf Hl Hsafe. destruct (decide (i = current t - 1)) as [->|]; [|by apply Remove_mid_ok].
  destruct (ListSpec.has (freed t) (current t - 2)) eqn:Eh; [|by apply Remove_top_ok].
  destruct Hsafe as [?|[?|Hlen]]; [done| |].
  - replace (current t - 1 - 1) with (current t - 2) in * by lia. congruence.
  - destruct (freed t) as [|[k x] [|? ?]] eqn:Ef; [done| |cbn in Hlen; lia].
    pose proof (wf_keys _ Hwf) as Hk. rewrite Ef in Hk. apply Forall_cons in Hk as [E _].
    cbn in E. subst x. rewrite has_cons in Eh. apply orb_true_iff in Eh as [Eh|Eh]; [|done].
    apply bool_decide_eq_true in Eh. by apply (Remove_pop_ok t k).
Qed.

(** ** Properties *)

(** ** Indexes that are never removed

    The items below [n] stay where they are as long as nobody removes them, also
    after a removal that went wrong. *)
Record keeps_low (n : Z) (t : Table) : Prop := {
  kl_current : n ≤ current t;
  kl_keys : Forall (λ p, p.1 = p.2 ∧ n ≤ p.1) (freed t);
  kl_sorted : StronglySorted (λ a b : Z * Z, a.1 < b.1) (freed t)
}.

Lemma Add_low n t x i t' : 0 ≤ n → keeps_low n t → Add t x = Ok (i, t') →
  keeps_low n t' ∧ (i = -1 ∨ n ≤ i) ∧ ∀ j, 0 ≤ j < n → data t' !! Z.to_nat j = data t !! Z.to_nat j.
Proof.
  intros Hn [Hc Hk Hs]. unfold Add. destruct (freed t) as [|[k i0] rest] eqn:Ef.
  - case_bool_decide as Hlt.
    + intros (d & [Hr ->]%wr_inv & [= <- <-])%result_bind_ok. split_and!; [split; cbn; done || lia|lia|].
      intros j Hj. cbn. by rewrite list_lookup_insert_ne by lia.
    + intros [= <- <-]. split_and!; [by split; rewrite ?Ef|by left|done].
  - intros (d & [Hr ->]%wr_inv & [= <- <-])%result_bind_ok.
    apply Forall_cons in Hk as [[E Hi] Hk]. cbn in E, Hi. apply StronglySorted_inv in Hs as [Hs _].
    split_and!; [by split|lia|]. intros j Hj. cbn. by rewrite list_lookup_insert_ne by lia.
Qed.

Lemma freed_low n t j : keeps_low n t → ListSpec.has (freed t) j = true → n ≤ j.
Proof.
  intros [_ Hk _] (k & Hin)%ListSpec.has_true. rewrite Forall_forall in Hk. by destruct (Hk _ Hin) as [[= ->] ?].
Qed.

(** The loop frees at most one index. *)
Lemma Remove_loop_low n fuel j t t' : 1 ≤ n → n ≤ j + 1 → j < current t → keeps_low n t →
  Remove_loop fuel j t = Ok t' → keeps_low n t' ∧ data t' = data t.
Proof.
  intros Hn Hj Hjc Hl. destruct fuel as [|fuel]; [done|]. cbn [Remove_loop]. rewrite bool_decide_true, HasKey_ok by lia.
  cbn [mbind result_bind]. destruct (live t j) eqn:El; cbn [negb]; [by intros [= <-]|].
  intros ([] & Ha & H)%result_bind_ok. assert (Hh : ListSpec.has (freed t) j = true).
  { unfold ASSERT in Ha. by destruct (ListSpec.has (freed t) j). }
  pose proof (freed_low _ _ _ Hl Hh) as Hnj. destruct Hl as [Hc Hk Hs].
  destruct (freed t) as [|[k x] rest] eqn:Ef; [done|]. apply Forall_cons in Hk as [[E Hkn] Hk]. cbn in E, Hkn. subst x.
  apply StronglySorted_inv in Hs as [Hs Hall].
  destruct fuel as [|fuel]; [done|]. cbn [Remove_loop] in H. rewrite bool_decide_true, HasKey_ok in H by lia.
  cbn [mbind result_bind] in H. destruct (live _ (k - 1)) eqn:El2; cbn [negb] in H.
  - injection H as <-. split; [|done]. split; cbn; [lia|done|done].
  - apply result_bind_ok in H as (? & Ha2 & _). cbn [freed] in Ha2. exfalso.
    assert (Hh2 : ListSpec.has rest (k - 1) = true) by (unfold ASSERT in Ha2; by destruct (ListSpec.has rest (k - 1))).
    apply ListSpec.has_true in Hh2 as (k' & Hin). rewrite Forall_forall in Hk, Hall.
    specialize (Hk _ Hin). specialize (Hall _ Hin). cbn in *. lia.
Qed.

Lemma Remove_low n t i v t' : 1 ≤ n → n ≤ i → keeps_low n t → Remove t i = Ok (v, t') →
  keeps_low n t' ∧ data t' = data t.
Proof.
  intros Hn Hi Hl. unfold Remove. rewrite (bool_decide_true (i >= 0)), HasKey_ok by lia. cbn [ASSERT mbind result_bind].
  destruct (live t i) eqn:El; cbn [negb]; [|by intros [= _ <-]]. intros (t1 & H1 & H)%result_bind_ok.
  apply result_bind_ok in H as (w & _ & [= _ <-]). pose proof (live_range _ _ El) as Hr. case_bool_decide as Eq.
  - eapply (Remove_loop_low n) in H1; try done; cbn; [lia|lia|]. destruct Hl as [Hc Hk Hs]. split; cbn; [lia|done|done].
  - injection H1 as <-. split; [|done]. destruct Hl as [Hc Hk Hs]. split; cbn; [done| |].
    + unfold ListSpec.sorted_insert. rewrite ListSpec.insert_by_perm. by constructor.
    + apply insert_strict; [|by unfold live in El; destruct (ListSpec.has (freed t) i); [rewrite andb_false_r in El|]|done].
      eapply Forall_impl; [exact Hk|]. by intros ? [? _].
Qed.

(** [Add] hands out unused indexes.  On a well-formed table it either
    reports -1, and then all [SIZE] indexes hold items and nothing changes, or
    returns an index that was not a key; that index then maps to the item,
    every other index maps to what it mapped to before, and the table stays
    well formed. *)
Theorem Table_Add_fresh t x (Hwf : wf t) :
  (items t = SIZE ∧ Add t x = Ok (-1, t)) ∨
  ∃ i t', Add t x = Ok (i, t') ∧ wf t' ∧ items t' = items t + 1 ∧
    0 ≤ i < SIZE ∧ HasKey t i = Ok false ∧ Get t' i = Ok x ∧
    ∀ j, 0 ≤ j → j ≠ i → HasKey t' j = HasKey t j ∧ Get t' j = Get t j.
Proof.
  destruct (Add_ok t x Hwf) as [?|(i & t' & E & Hit & Hn & Hl & Hd & Hi)]; [by left|right].
  exists i, t'. pose proof (Add_wf _ _ _ _ Hwf E) as Hwf'. split_and!; try done || lia.
  - by rewrite HasKey_ok, Hn by lia.
  - unfold Get. rewrite (bool_decide_true (i >= 0)) by lia. cbn [ASSERT mbind result_bind].
    rewrite HasKey_ok, Hl, decide_True by done || lia. cbn [mbind result_bind].
    apply rd_ok; [lia|]. rewrite Hd. apply list_lookup_insert_eq.
    pose proof (wf_data _ Hwf). lia.
  - intros j Hj Hne. assert (HasKey t' j = HasKey t j) as E2
      by (by rewrite !HasKey_ok, Hl, decide_False by done).
    split; [done|]. unfold Get. rewrite E2. rewrite (bool_decide_true (j >= 0)) by lia.
    cbn [ASSERT mbind result_bind]. unfold rd.
    by rewrite Hd, list_lookup_insert_ne by lia.
Qed.

(** [Remove] on a table where compaction is harmless ([remove_safe]):
    it returns the item the index mapped to, the index is no longer a key, every
    other index maps to what it mapped to before, and the table stays well
    formed. *)
Theorem Table_Remove_safe t i (Hwf : wf t) (Hk : HasKey t i = Ok true) (Hs : remove_safe t i) :
  ∃ v t', Remove t i = Ok (v, t') ∧ wf t' ∧ Get t i = Ok v ∧ HasKey t' i = Ok false ∧
    ∀ j, 0 ≤ j → j ≠ i → HasKey t' j = HasKey t j ∧ Get t' j = Get t j.
Proof.
  apply HasKey_inv in Hk as [Hi Hl].
  destruct (Remove_ok t i Hwf Hl Hs) as (v & t' & E & Ev & Hwf' & Hd & Hlive).
  exists v, t'. unfold lookup_item in Ev. rewrite Hl in Ev. split_and!; [done..| | |].
  - unfold Get. rewrite (bool_decide_true (i >= 0)) by lia. cbn [ASSERT mbind result_bind].
    rewrite HasKey_ok, Hl by done. cbn. by apply rd_ok.
  - by rewrite HasKey_ok, Hlive, decide_True by done.
  - intros j Hj Hne. unfold Get. rewrite !HasKey_ok, Hlive, decide_False, Hd by done. done.
Qed.

(** what [Remove] does otherwise.  When the greatest index is removed, its
    neighbour has been freed and at least two indexes are freed, the compaction
    pops the *least* freed index instead of the neighbour: that index, which
    had been removed, becomes a key again, and the neighbour stays in [freed]
    above [current], so the next [Add] hands out an index that is not a key. *)
Theorem Table_Remove_resurrects t k rest (Hwf : wf t)
  (Hl : HasKey t (current t - 1) = Ok true) (Hf : freed t = (k, k) :: rest) (Hr : rest ≠ [])
  (Hn : ListSpec.has (freed t) (current t - 2) = true) :
  HasKey t k = Ok false ∧
  ∃ v t', Remove t (current t - 1) = Ok (v, t') ∧ HasKey t' k = Ok true ∧
    ListSpec.has (freed t') (current t') = true.
Proof.
  apply HasKey_inv in Hl as [Hi Hl].
  pose proof (wf_sorted _ Hwf) as Hs. rewrite Hf in Hs. apply StronglySorted_inv in Hs as [_ Hs].
  assert (ListSpec.has (freed t) k = true) as Hk by (by rewrite Hf, has_cons, bool_decide_true).
  pose proof (wf_freed_range _ _ Hwf Hk) as Hk0.
  pose proof (wf_freed_range _ _ Hwf Hn) as Hn0.
  assert (k < current t - 2 ∧ ListSpec.has rest (current t - 2) = true) as [Hlt Hrest].
  { destruct rest as [|[k2 x2] rest]; [done|]. apply Forall_cons in Hs as [Hk2 _]. cbn in Hk2.
    assert (ListSpec.has (freed t) x2 = true) as Hx2.
    { rewrite Hf, !has_cons, (bool_decide_true (x2 = x2)) by done. by rewrite orb_true_r. }
    pose proof (wf_freed_range _ _ Hwf Hx2).
    pose proof (wf_keys _ Hwf) as Hkeys. rewrite Hf in Hkeys.
    apply Forall_cons in Hkeys as [_ [E _]%Forall_cons]. cbn in E. split; [lia|].
    rewrite Hf, has_cons, bool_decide_false in Hn by lia. done. }
  split. { rewrite HasKey_ok by lia. unfold live. by rewrite Hk, andb_false_r. }
  destruct (wf_head_not_in_tail t k k rest Hwf Hf) as [_ Hkr].
  set (t2 := mkTable (data t) (current t - 2) rest).
  destruct (Remove_unfold t (current t - 1) t2) as (v & E & Ev); [done..| |].
  { rewrite bool_decide_true by done. cbn zeta. rewrite (Remove_loop_step _ _ _ k k rest); cbn [data current freed].
    - replace (current t - 1 - 1) with (current t - 2) by lia. fold t2.
      apply Remove_loop_stop; [rewrite Hf; cbn; lia|].
      destruct (decide (k = 0)); [left; lia|right]. unfold live, t2. cbn.
      rewrite bool_decide_true by lia. cbn. apply negb_true_iff, not_true_is_false.
      intros (k' & Hin)%ListSpec.has_true. rewrite Forall_forall in Hs. specialize (Hs _ Hin).
      pose proof (wf_keys _ Hwf) as Hkeys. rewrite Hf in Hkeys.
      apply Forall_cons in Hkeys as [_ Hkeys]. rewrite Forall_forall in Hkeys.
      specialize (Hkeys _ Hin). cbn in *. lia.
    - lia.
    - done.
    - by replace (current t - 1 - 1) with (current t - 2) by lia. }
  exists v, t2. split_and!; [done| |].
  - rewrite HasKey_ok by lia. unfold live, t2. cbn. rewrite bool_decide_true by lia. by rewrite Hkr.
  - done.
Qed.

End Table.

Lemma wf_decide_example (d : list nat) (c : Z) (f : list (Z * Z)) :
  Z.of_nat (length d) = SIZE → 0 ≤ c ≤ SIZE →
  Forall (λ p, p.1 = p.2) f → StronglySorted (λ a b : Z * Z, a.1 < b.1) f →
  Forall (λ p, 0 ≤ p.1 < c - 1) f → wf (mkTable d c f).
Proof. by split. Qed.

Lemma Table_Add_fresh_witness :
  ∃ i t', Add (mkTable (replicate 1000 0%nat) 4 [(1, 1)]) 7%nat = Ok (i, t') ∧ i = 1 ∧
    Get 0%nat t' 1 = Ok 7%nat.
Proof.
  destruct (Table_Add_fresh 0%nat (mkTable (replicate 1000 0%nat) 4 [(1, 1)]) 7%nat)
    as [[E _]|(i & t' & E & _ & _ & _ & _ & G & _)].
  - apply wf_decide_example; [reflexivity|unfold SIZE; lia|repeat constructor; cbn; lia..].
  - exfalso. vm_compute in E. discriminate E.
  - exists i, t'. assert (i = 1) as -> by (vm_compute in E; injection E as <- _; reflexivity).
    split_and!; [exact E|reflexivity|exact G].
Defined.

Lemma Table_Remove_safe_witness :
  ∃ v t', Remove 0%nat (mkTable (replicate 1000 5%nat) 4 [(2, 2)]) 3 = Ok (v, t') ∧
    HasKey t' 3 = Ok false ∧ current t' = 2.
Proof.
  destruct (Table_Remove_safe 0%nat (mkTable (replicate 1000 5%nat) 4 [(2, 2)]) 3)
    as (v & t' & E & _ & _ & H & _).
  - apply wf_decide_example; [reflexivity|unfold SIZE; lia|repeat constructor; cbn; lia..].
  - reflexivity.
  - right. right. cbn. lia.
  - exists v, t'. split_and!; [exact E|exact H|]. vm_compute in E. injection E as _ <-. reflexivity.
Defined.

Lemma Table_Remove_resurrects_witness :
  HasKey (mkTable (replicate 1000 5%nat) 5 [(0, 0); (3, 3)]) 0 = Ok false ∧
  ∃ v t', Remove 0%nat (mkTable (replicate 1000 5%nat) 5 [(0, 0); (3, 3)]) 4 = Ok (v, t') ∧
    HasKey t' 0 = Ok true ∧ ListSpec.has (freed t') (current t') = true.
Proof.
  apply (Table_Remove_resurrects 0%nat (mkTable (replicate 1000 5%nat) 5 [(0, 0); (3, 3)]) 0 [(3, 3)]).
  - apply wf_decide_example; [reflexivity|unfold SIZE; lia|repeat constructor; cbn; lia..].
  - reflexivity.
  - reflexivity.
  - discriminate.
  - reflexivity.
Defined.
