(* ===== verification/Disk.v ===== *)
(** * [machine/disk.hh], [machine/disk.cc], [filesys/synch_disk.cc]: the disk

    The simulated disk is a UNIX file: a magic number followed by the sectors.
    The model keeps that file as a list of bytes, and the seek, rotation and
    track buffer arithmetic at the widths of the source.  The second half is
    the synchronous layer: a request, the completion interrupt it schedules,
    and the semaphore and lock around it.  The function [sectors] is
    what the file system sees of all this: an array of sectors. *)

From S2P Require Import Prelude Bitmap.
From stdpp Require Import base option list gmap numbers tactics.
From stdpp Require Import list.
Open Scope Z_scope.

Definition SECTOR_SIZE : Z := 128.
Definition SECTORS_PER_TRACK : Z := 32.
Definition NUM_TRACKS : Z := 32.
Definition NUM_SECTORS : Z := SECTORS_PER_TRACK * NUM_TRACKS.
Definition MAGIC_NUMBER : Z := 0x456789AB.
Definition MAGIC_SIZE : Z := 4.
Definition DISK_SIZE : Z := MAGIC_SIZE + NUM_SECTORS * SECTOR_SIZE.
(** [machine/statistics.hh]. *)
Definition ROTATION_TIME : Z := 500.
Definition SEEK_TIME : Z := 500.

Record Statistics := mkStats {
  totalTicks : Z;
  numDiskReads : Z;
  numDiskWrites : Z
}.

Record Disk := mkDisk {
  file : list Z;         (* the UNIX file behind [fileno] *)
  active : bool;
  lastSector : Z;
  bufferInit : Z
}.

(** ** The UNIX file calls of [machine/system_dep.cc]

    [Lseek] to [off] followed by [Read] of [n] bytes; a short read fails the
    assertion of [SystemDep::Read]. *)
Definition file_read (f : list Z) (off n : Z) : result (list Z) :=
  let bs := take (Z.to_nat n) (drop (Z.to_nat off) f) in
  _ ← ASSERT (bool_decide (Z.of_nat (length bs) = n));
  Ok bs.

(** [Lseek] to [off] followed by [WriteFile]; writing past the end leaves a
    hole of zero bytes. *)
Definition file_write (f : list Z) (off : Z) (bs : list Z) : list Z :=
  let o := Z.to_nat off in
  take o f ++ replicate (o - length f) 0 ++ bs ++ drop (o + length bs) f.

(** The constructor; [existing] is the content of the UNIX file, if there is
    one. *)
Definition new_Disk (existing : option (list Z)) : result Disk :=
  f ← match existing with
      | Some f =>
          m ← file_read f 0 MAGIC_SIZE;
          _ ← ASSERT (bool_decide (le_word m = MAGIC_NUMBER));
          Ok f
      | None =>
          let f := file_write [] 0 (le_bytes 4 MAGIC_NUMBER) in
          Ok (file_write f (DISK_SIZE - 4) (le_bytes 4 0))
      end;
  Ok (mkDisk f false 0 0).

(** ** Latency *)
Definition Diff (a b : Z) : Z := if bool_decide (a > b) then a - b else b - a.

(** Returns the seek time and [*rotation]. *)
Definition TimeToSeek (st : Statistics) (d : Disk) (newSector : Z) : Z * Z :=
  let newTrack := newSector / SECTORS_PER_TRACK in
  let oldTrack := lastSector d / SECTORS_PER_TRACK in
  let seek := u32 (Diff newTrack oldTrack * SEEK_TIME) in
  let over := u32 (u64 (totalTicks st + seek) mod ROTATION_TIME) in
  let rotation := if bool_decide (over > 0) then u32 (ROTATION_TIME - over) else 0 in
  (seek, rotation).

Definition ModuloDiff (to from : Z) : Z :=
  let toOffset := to mod SECTORS_PER_TRACK in
  let fromOffset := from mod SECTORS_PER_TRACK in
  u32 (toOffset - fromOffset + SECTORS_PER_TRACK) mod SECTORS_PER_TRACK.

Definition ComputeLatency (st : Statistics) (d : Disk) (newSector : Z) (writing : bool) : Z :=
  let '(seek, rotation) := TimeToSeek st d newSector in
  let timeAfter := u32 (totalTicks st + seek + rotation) in
  if negb writing && bool_decide (seek = 0)
     && bool_decide (u32 (timeAfter - bufferInit d) / ROTATION_TIME
                     > ModuloDiff newSector (u32 (u64 (bufferInit d) / ROTATION_TIME)))
  then s32 ROTATION_TIME
  else
    let rotation :=
      u32 (rotation + ModuloDiff newSector (timeAfter / ROTATION_TIME) * ROTATION_TIME) in
    s32 (seek + rotation + ROTATION_TIME).

Definition UpdateLast (st : Statistics) (d : Disk) (newSector : Z) : Disk :=
  let '(seek, rotate) := TimeToSeek st d newSector in
  mkDisk (file d) (active d) newSector
    (if bool_decide (seek ≠ 0) then s32 (totalTicks st + seek + rotate) else bufferInit d).

Definition set_active (d : Disk) (a : bool) : Disk :=
  mkDisk (file d) a (lastSector d) (bufferInit d).
Definition set_file (d : Disk) (f : list Z) : Disk :=
  mkDisk f (active d) (lastSector d) (bufferInit d).

(** ** Requests

    A request returns the delay after which it asks [interrupt->Schedule] to
    call [DiskDone]. *)
Definition ReadRequest (st : Statistics) (d : Disk) (sectorNumber : Z)
  : result (list Z * Z * Disk * Statistics) :=
  let ticks := ComputeLatency st d sectorNumber false in
  _ ← ASSERT (negb (active d));
  _ ← ASSERT (bool_decide (sectorNumber >= 0));
  _ ← ASSERT (bool_decide (sectorNumber < NUM_SECTORS));
  bytes ← file_read (file d) (SECTOR_SIZE * sectorNumber + MAGIC_SIZE) SECTOR_SIZE;
  let d := UpdateLast st (set_active d true) sectorNumber in
  let st' := mkStats (totalTicks st) (numDiskReads st + 1) (numDiskWrites st) in
  Ok (bytes, ticks, d, st').

Definition WriteRequest (st : Statistics) (d : Disk) (sectorNumber : Z) (bytes : list Z)
  : result (Z * Disk * Statistics) :=
  let ticks := ComputeLatency st d sectorNumber true in
  _ ← ASSERT (negb (active d));
  _ ← ASSERT (bool_decide (sectorNumber >= 0) && bool_decide (sectorNumber < NUM_SECTORS));
  let d := set_file d (file_write (file d) (SECTOR_SIZE * sectorNumber + MAGIC_SIZE) bytes) in
  let d := UpdateLast st (set_active d true) sectorNumber in
  let st' := mkStats (totalTicks st) (numDiskReads st) (numDiskWrites st + 1) in
  Ok (ticks, d, st').

(** [HandleInterrupt] clears [active] and calls the handler given to the
    constructor, here [DiskRequestDone]. *)
Definition HandleInterrupt (d : Disk) : Disk := set_active d false.

(** ** The contents of a sector *)
Definition sector_of (f : list Z) (s : Z) : list Z :=
  take (Z.to_nat SECTOR_SIZE) (drop (Z.to_nat (SECTOR_SIZE * s + MAGIC_SIZE)) f).

Definition wf_file (f : list Z) : Prop := Z.of_nat (length f) = DISK_SIZE.

Lemma sector_length f s : wf_file f → 0 ≤ s < NUM_SECTORS →
  length (sector_of f s) = Z.to_nat SECTOR_SIZE.
Proof.
  unfold wf_file, sector_of, DISK_SIZE, NUM_SECTORS, SECTORS_PER_TRACK, NUM_TRACKS, SECTOR_SIZE, MAGIC_SIZE.
  intros Hf Hs. rewrite length_take, length_drop. lia.
Qed.

Lemma file_read_sector f s : wf_file f → 0 ≤ s < NUM_SECTORS →
  file_read f (SECTOR_SIZE * s + MAGIC_SIZE) SECTOR_SIZE = Ok (sector_of f s).
Proof.
  intros Hf Hs. unfold file_read. fold (sector_of f s).
  rewrite sector_length by done. by rewrite bool_decide_true by (unfold SECTOR_SIZE; lia).
Qed.

Lemma file_write_inside f off bs :
  0 ≤ off → off + Z.of_nat (length bs) ≤ Z.of_nat (length f) →
  file_write f off bs = take (Z.to_nat off) f ++ bs ++ drop (Z.to_nat off + length bs) f.
Proof.
  intros. unfold file_write. by replace (Z.to_nat off - length f)%nat with O by lia.
Qed.

Lemma take_drop_app_l {A} (l k : list A) n o :
  (o + n ≤ length l)%nat → take n (drop o (l ++ k)) = take n (drop o l).
Proof.
  intros. rewrite drop_app_le by lia. rewrite take_app_le; [done|]. rewrite length_drop. lia.
Qed.

Lemma sector_write f s s' bs :
  wf_file f → 0 ≤ s < NUM_SECTORS → 0 ≤ s' < NUM_SECTORS →
  length bs = Z.to_nat SECTOR_SIZE →
  sector_of (file_write f (SECTOR_SIZE * s + MAGIC_SIZE) bs) s'
  = (if decide (s' = s) then bs else sector_of f s').
Proof.
  unfold wf_file, DISK_SIZE, NUM_SECTORS, SECTORS_PER_TRACK, NUM_TRACKS. intros Hf Hs Hs' Hb.
  rewrite file_write_inside by (rewrite ?Hb, ?Hf; unfold SECTOR_SIZE, MAGIC_SIZE; lia).
  unfold sector_of, SECTOR_SIZE, MAGIC_SIZE in *. destruct (decide (s' = s)) as [->|Hne].
  - rewrite drop_app_length' by (rewrite length_take; lia). by rewrite take_app_length' by lia.
  - destruct (decide (s' < s)).
    + rewrite take_drop_app_l by (rewrite length_take; lia).
      rewrite <-(take_drop (Z.to_nat (128 * s + 4)) f) at 2.
      by rewrite take_drop_app_l by (rewrite length_take; lia).
    + rewrite drop_app_ge by (rewrite length_take; lia).
      rewrite drop_app_ge by (rewrite length_take; lia).
      rewrite drop_drop, !length_take. do 2 f_equal. lia.
Qed.

Lemma file_write_wf f s bs :
  wf_file f → 0 ≤ s < NUM_SECTORS → length bs = Z.to_nat SECTOR_SIZE →
  wf_file (file_write f (SECTOR_SIZE * s + MAGIC_SIZE) bs).
Proof.
  unfold wf_file, DISK_SIZE, NUM_SECTORS, SECTORS_PER_TRACK, NUM_TRACKS. intros Hf Hs Hb.
  rewrite file_write_inside by (rewrite ?Hb, ?Hf; unfold SECTOR_SIZE, MAGIC_SIZE; lia).
  rewrite !length_app, length_take, length_drop, Hb. unfold SECTOR_SIZE, MAGIC_SIZE in *. lia.
Qed.

Lemma file_write_magic f s bs :
  wf_file f → 0 ≤ s < NUM_SECTORS → length bs = Z.to_nat SECTOR_SIZE →
  take 4 (file_write f (SECTOR_SIZE * s + MAGIC_SIZE) bs) = take 4 f.
Proof.
  unfold wf_file, DISK_SIZE, NUM_SECTORS, SECTORS_PER_TRACK, NUM_TRACKS. intros Hf Hs Hb.
  rewrite file_write_inside by (rewrite ?Hb, ?Hf; unfold SECTOR_SIZE, MAGIC_SIZE; lia).
  unfold SECTOR_SIZE, MAGIC_SIZE in *. rewrite take_app_le by (rewrite length_take; lia).
  rewrite take_take. f_equal. lia.
Qed.

(** ** Bounds on the latency *)
Lemma TimeToSeek_bounds st d s :
  0 ≤ totalTicks st → 0 ≤ s < NUM_SECTORS → 0 ≤ lastSector d < NUM_SECTORS →
  0 ≤ (TimeToSeek st d s).1 ≤ 31 * SEEK_TIME ∧ 0 ≤ (TimeToSeek st d s).2 < ROTATION_TIME.
Proof.
  unfold TimeToSeek, NUM_SECTORS, SECTORS_PER_TRACK, NUM_TRACKS, Diff, SEEK_TIME, ROTATION_TIME. cbn [fst snd].
  intros Ht Hs Hl. assert (0 ≤ s / 32 ≤ 31 ∧ 0 ≤ lastSector d / 32 ≤ 31) by (Z.div_mod_to_equations; lia).
  split.
  - case_bool_decide; rewrite u32_id; unfold is_u32; lia.
  - set (x := u64 _ mod 500). assert (0 ≤ x < 500) by (apply Z.mod_pos_bound; lia).
    rewrite (u32_id x) by (unfold is_u32; lia). case_bool_decide; [|lia].
    rewrite u32_id; unfold is_u32; lia.
Qed.

Lemma ModuloDiff_bounds a b : 0 ≤ ModuloDiff a b < SECTORS_PER_TRACK.
Proof. apply Z.mod_pos_bound. unfold SECTORS_PER_TRACK. lia. Qed.

(** [ModuloDiff] is the distance between two sectors in the rotation
    direction: advancing [from] by it reaches [to]. *)
Lemma ModuloDiff_spec to from :
  (from + ModuloDiff to from) mod SECTORS_PER_TRACK = to mod SECTORS_PER_TRACK.
Proof.
  unfold ModuloDiff, SECTORS_PER_TRACK.
  pose proof (Z.mod_pos_bound to 32). pose proof (Z.mod_pos_bound from 32).
  rewrite u32_id by (unfold is_u32; lia). Z.div_mod_to_equations. lia.
Qed.

Lemma ComputeLatency_range st d s writing :
  0 ≤ totalTicks st → 0 ≤ s < NUM_SECTORS → 0 ≤ lastSector d < NUM_SECTORS →
  ROTATION_TIME ≤ ComputeLatency st d s writing
    < 2 * SECTORS_PER_TRACK * ROTATION_TIME + ROTATION_TIME.
Proof.
  intros Ht Hs Hl.
  destruct (TimeToSeek_bounds st d s Ht Hs Hl) as [H1 H2]. unfold ComputeLatency.
  destruct (TimeToSeek st d s) as [seek rotation]. cbn [fst snd] in *.
  unfold ROTATION_TIME, SEEK_TIME, SECTORS_PER_TRACK in *.
  set (c := negb writing && _ && _).
  destruct c; [rewrite s32_id by (unfold is_s32; lia); lia|].
  set (m := ModuloDiff _ _). assert (0 ≤ m < 32) by apply ModuloDiff_bounds.
  rewrite (u32_id (rotation + _)) by (unfold is_u32; lia).
  rewrite s32_id by (unfold is_s32; lia). lia.
Qed.

(** Request latencies.  A request for an existing sector is scheduled at
    least one sector transfer and less than 65 sector transfers after now (the
    longest seek, a full rotation, and the transfer), so the assertion
    [fromNow > 0] of [Interrupt::Schedule] holds for every disk request; and a
    read of the track under the head of a sector that has already passed into
    the track buffer costs exactly one transfer. *)
Theorem ComputeLatency_bounds st d s writing
  (Ht : 0 ≤ totalTicks st) (Hs : 0 ≤ s < NUM_SECTORS) (Hl : 0 ≤ lastSector d < NUM_SECTORS) :
  ROTATION_TIME ≤ ComputeLatency st d s writing
    < 2 * SECTORS_PER_TRACK * ROTATION_TIME + ROTATION_TIME ∧
  (writing = false → s / SECTORS_PER_TRACK = lastSector d / SECTORS_PER_TRACK →
   u32 (u32 (totalTicks st + (TimeToSeek st d s).2) - bufferInit d) / ROTATION_TIME
     > ModuloDiff s (u32 (u64 (bufferInit d) / ROTATION_TIME)) →
   ComputeLatency st d s writing = ROTATION_TIME).
Proof.
  split; [by apply ComputeLatency_range|]. intros -> Htrack Hbuf. unfold ComputeLatency.
  assert ((TimeToSeek st d s).1 = 0) as Hseek.
  { unfold TimeToSeek, Diff. cbn [fst]. rewrite Htrack. by rewrite bool_decide_false, Z.sub_diag by lia. }
  destruct (TimeToSeek st d s) as [seek rotation]. cbn [fst snd] in *. subst seek.
  rewrite Z.add_0_r, (bool_decide_true (0 = 0)), bool_decide_true by done. reflexivity.
Qed.

Lemma ComputeLatency_bounds_witness :
  500 ≤ ComputeLatency (mkStats 123456 0 0) (mkDisk [] false 700 0) 701 false < 32500 ∧
  ComputeLatency (mkStats 123456 0 0) (mkDisk [] false 700 0) 701 false = 500.
Proof.
  destruct (ComputeLatency_bounds (mkStats 123456 0 0) (mkDisk [] false 700 0) 701 false)
    as [H1 H2]; [cbn; unfold NUM_SECTORS, SECTORS_PER_TRACK, NUM_TRACKS; lia..|].
  split; [exact H1|]. apply H2; [reflexivity|reflexivity|]. vm_compute. reflexivity.
Defined.

(** ** The synchronous disk, one request at a time

    [ReadSector] and [WriteSector] of [filesys/synch_disk.cc] seen by a thread
    that holds the lock: the request, and then [P], which returns once the
    completion interrupt has called [HandleInterrupt] and [V]. *)
Definition SynchDisk_ReadSector (st : Statistics) (d : Disk) (s : Z)
  : result (list Z * Disk * Statistics) :=
  r ← ReadRequest st d s;
  let '(bytes, ticks, d, st) := r in
  _ ← ASSERT (bool_decide (ticks > 0));    (* [Interrupt::Schedule] *)
  Ok (bytes, HandleInterrupt d, st).

Definition SynchDisk_WriteSector (st : Statistics) (d : Disk) (s : Z) (bytes : list Z)
  : result (Disk * Statistics) :=
  r ← WriteRequest st d s bytes;
  let '(ticks, d, st) := r in
  _ ← ASSERT (bool_decide (ticks > 0));
  Ok (HandleInterrupt d, st).

(** The disk as the array of its sectors. *)
Definition sectors (d : Disk) : list (list Z) := sector_of (file d) <$> seqZ 0 NUM_SECTORS.

Record ready (st : Statistics) (d : Disk) : Prop := {
  ready_ticks : 0 ≤ totalTicks st;
  ready_idle : active d = false;
  ready_file : wf_file (file d);
  ready_last : 0 ≤ lastSector d < NUM_SECTORS;
  ready_magic : take 4 (file d) = le_bytes 4 MAGIC_NUMBER
}.

Lemma ready_decide st d :
  0 ≤ totalTicks st → active d = false → Z.of_nat (length (file d)) = DISK_SIZE →
  0 ≤ lastSector d < NUM_SECTORS → take 4 (file d) = le_bytes 4 MAGIC_NUMBER → ready st d.
Proof. by split. Qed.

Lemma sectors_lookup d s : 0 ≤ s < NUM_SECTORS →
  sectors d !! Z.to_nat s = Some (sector_of (file d) s).
Proof.
  intros Hs. unfold sectors. rewrite list_lookup_fmap, lookup_seqZ_lt by lia. cbn. do 2 f_equal. lia.
Qed.

Lemma sectors_write d s bs d' :
  wf_file (file d) → 0 ≤ s < NUM_SECTORS → length bs = Z.to_nat SECTOR_SIZE →
  file d' = file_write (file d) (SECTOR_SIZE * s + MAGIC_SIZE) bs →
  sectors d' = <[Z.to_nat s := bs]> (sectors d).
Proof.
  intros Hf Hs Hb E. apply list_eq. intros i. unfold sectors. rewrite E.
  destruct (decide (i < Z.to_nat NUM_SECTORS)%nat) as [Hi|Hi].
  - rewrite list_lookup_fmap, lookup_seqZ_lt by lia. cbn.
    rewrite sector_write by (done || lia). destruct (decide (0 + Z.of_nat i = s)) as [Ei|Ei].
    + replace i with (Z.to_nat s) by lia. rewrite list_lookup_insert_eq; [done|].
      rewrite length_fmap, length_seqZ. lia.
    + rewrite list_lookup_insert_ne, list_lookup_fmap, lookup_seqZ_lt by lia. done.
  - rewrite !lookup_ge_None_2; [done|..]; rewrite ?length_insert, length_fmap, length_seqZ; lia.
Qed.

Lemma SynchDisk_read_ok st d s :
  ready st d → 0 ≤ s < NUM_SECTORS →
  ∃ v d' st', SynchDisk_ReadSector st d s = Ok (v, d', st') ∧ rd (sectors d) s = Ok v ∧
    sectors d' = sectors d ∧ ready st' d'.
Proof.
  intros [Ht Ha Hf Hl Hm] Hs. pose proof (ComputeLatency_range st d s false Ht Hs Hl) as Hlat.
  unfold ROTATION_TIME in Hlat. eexists _, _, _. unfold SynchDisk_ReadSector, ReadRequest. rewrite Ha.
  rewrite (bool_decide_true (s >= 0)), (bool_decide_true (s < NUM_SECTORS)) by lia.
  cbn [ASSERT negb mbind result_bind]. rewrite file_read_sector by done.
  cbn [mbind result_bind]. rewrite bool_decide_true by lia.
  cbn [ASSERT mbind result_bind]. split; [done|].
  split; [apply rd_ok; [lia|by apply sectors_lookup]|].
  unfold UpdateLast. destruct (TimeToSeek _ _ _). by split.
Qed.

Lemma SynchDisk_write_ok st d s bs :
  ready st d → 0 ≤ s < NUM_SECTORS → length bs = Z.to_nat SECTOR_SIZE →
  ∃ d' st', SynchDisk_WriteSector st d s bs = Ok (d', st') ∧
    wr (sectors d) s bs = Ok (sectors d') ∧ ready st' d'.
Proof.
  intros [Ht Ha Hf Hl Hm] Hs Hb. pose proof (ComputeLatency_range st d s true Ht Hs Hl) as Hlat.
  unfold ROTATION_TIME in Hlat. eexists _, _. unfold SynchDisk_WriteSector, WriteRequest. rewrite Ha.
  rewrite (bool_decide_true (s >= 0)), (bool_decide_true (s < NUM_SECTORS)) by lia.
  cbn [ASSERT negb andb mbind result_bind]. rewrite bool_decide_true by lia.
  cbn [ASSERT mbind result_bind]. split; [done|].
  unfold UpdateLast. destruct (TimeToSeek _ _ _).
  erewrite (sectors_write d s bs (HandleInterrupt _)) by done. split.
  - apply wr_ok. unfold sectors. rewrite length_fmap, length_seqZ. lia.
  - split; [done|done|by apply file_write_wf|done|]. cbn [file HandleInterrupt set_active set_file].
    rewrite <-Hm. by apply file_write_magic.
Qed.

(** The synchronous disk is an array of sectors.  On an idle disk
    [ReadSector] returns the sector and changes no sector, [WriteSector]
    replaces exactly the sector it names, both leave the disk idle, and both
    fail (an assertion) when the sector does not exist. *)
Theorem SynchDisk_sector_array st d s bs (HR : ready st d)
  (Hb : length bs = Z.to_nat SECTOR_SIZE) :
  (0 ≤ s < NUM_SECTORS →
   (∃ v d' st', SynchDisk_ReadSector st d s = Ok (v, d', st') ∧ rd (sectors d) s = Ok v ∧
      sectors d' = sectors d ∧ ready st' d') ∧
   (∃ d' st', SynchDisk_WriteSector st d s bs = Ok (d', st') ∧
      wr (sectors d) s bs = Ok (sectors d') ∧ ready st' d')) ∧
  (NUM_SECTORS ≤ s →
   SynchDisk_ReadSector st d s = Err AssertFail ∧
   SynchDisk_WriteSector st d s bs = Err AssertFail).
Proof.
  split; intros Hs.
  - split; [by apply SynchDisk_read_ok|by apply SynchDisk_write_ok].
  - unfold SynchDisk_ReadSector, SynchDisk_WriteSector, ReadRequest, WriteRequest.
    rewrite (ready_idle _ _ HR). unfold NUM_SECTORS, SECTORS_PER_TRACK, NUM_TRACKS in *.
    rewrite (bool_decide_true (s >= 0)), (bool_decide_false (s < _)) by lia. done.
Qed.

(** A disk of zeroes. *)
Definition zeroed_file : list Z := le_bytes 4 MAGIC_NUMBER ++ replicate (Z.to_nat (DISK_SIZE - 4)) 0.
Lemma zeroed_file_length : Z.of_nat (length zeroed_file) = DISK_SIZE.
Proof. unfold zeroed_file. rewrite length_app, le_bytes_length, length_replicate. vm_compute. reflexivity. Qed.

Lemma SynchDisk_sector_array_witness :
  let d := mkDisk zeroed_file false 0 0 in
  ∃ d' st', SynchDisk_WriteSector (mkStats 0 0 0) d 1023 (replicate 128 7) = Ok (d', st') ∧
    wr (sectors d) 1023 (replicate 128 7) = Ok (sectors d').
Proof.
  intros d. destruct (SynchDisk_sector_array (mkStats 0 0 0) d 1023 (replicate 128 7)) as [H _].
  - apply ready_decide; [cbn; lia|reflexivity|exact zeroed_file_length|vm_compute; split; congruence|reflexivity].
  - reflexivity.
  - destruct H as [_ (d' & st' & E & W & _)]; [vm_compute; split; congruence|]. exists d', st'. split; [exact E|exact W].
Defined.

(** ** The interface of the synchronous disk

    What the file system code uses of [synchDisk], and its contract: an array
    of [NUM_SECTORS] sectors. *)
Class SectorStore (S : Type) := {
  ss_ReadSector : S → Z → result (list Z * S);
  ss_WriteSector : S → Z → list Z → result S
}.

Class SectorStoreSpec (S : Type) `{SectorStore S} := {
  ss_ok : S → Prop;
  ss_sectors : S → list (list Z);
  ss_shape x : ss_ok x →
    length (ss_sectors x) = Z.to_nat NUM_SECTORS ∧
    Forall (λ v, length v = Z.to_nat SECTOR_SIZE) (ss_sectors x);
  ss_read_ok x s : ss_ok x → 0 ≤ s < NUM_SECTORS →
    ∃ v x', ss_ReadSector x s = Ok (v, x') ∧ rd (ss_sectors x) s = Ok v ∧
      ss_sectors x' = ss_sectors x ∧ ss_ok x';
  ss_write_ok x s bs : ss_ok x → 0 ≤ s < NUM_SECTORS → length bs = Z.to_nat SECTOR_SIZE →
    ∃ x', ss_WriteSector x s bs = Ok x' ∧
      ss_sectors x' = <[Z.to_nat s := bs]> (ss_sectors x) ∧ ss_ok x'
}.

#[export] Instance SynchDisk_SectorStore : SectorStore (Statistics * Disk) := {
  ss_ReadSector '(st, d) s :=
    r ← SynchDisk_ReadSector st d s; let '(v, d, st) := r in Ok (v, (st, d));
  ss_WriteSector '(st, d) s bs :=
    r ← SynchDisk_WriteSector st d s bs; let '(d, st) := r in Ok (st, d)
}.

#[export] Program Instance SynchDisk_SectorStoreSpec : SectorStoreSpec (Statistics * Disk) := {
  ss_ok '(st, d) := ready st d;
  ss_sectors '(st, d) := sectors d
}.
Next Obligation.
  intros [st d] [_ _ Hf _]. unfold sectors. rewrite length_fmap, length_seqZ. split; [done|].
  apply Forall_fmap, Forall_forall. intros s Hs%elem_of_seqZ. apply sector_length; [done|lia].
Qed.
Next Obligation.
  intros [st d] s Hr Hs. destruct (SynchDisk_read_ok st d s Hr Hs) as (v & d' & st' & E & ? & ? & ?).
  exists v, (st', d'). cbn. by rewrite E.
Qed.
Next Obligation.
  intros [st d] s bs Hr Hs Hb.
  destruct (SynchDisk_write_ok st d s bs Hr Hs Hb) as (d' & st' & E & [_ W]%wr_inv & ?).
  exists (st', d'). cbn. by rewrite E.
Qed.

(** The abstract disk, an array of sectors, is itself a store: the reference
    implementation of the contract. *)
#[export] Instance Array_SectorStore : SectorStore (list (list Z)) := {
  ss_ReadSector x s := v ← rd x s; Ok (v, x);
  ss_WriteSector x s bs := wr x s bs
}.

#[export] Program Instance Array_SectorStoreSpec : SectorStoreSpec (list (list Z)) := {
  ss_ok x := length x = Z.to_nat NUM_SECTORS ∧ Forall (λ v, length v = Z.to_nat SECTOR_SIZE) x;
  ss_sectors x := x
}.
Next Obligation. done. Qed.
Next Obligation.
  intros x s [Hl Hw] Hs. destruct (rd_in_range x s) as (v & E & _); [lia|].
  exists v, x. cbn. by rewrite E.
Qed.
Next Obligation.
  intros x s bs [Hl Hw] Hs Hb. eexists. cbn. rewrite wr_ok by lia.
  split; [done|split; [done|]]. rewrite length_insert. split; [done|]. by apply Forall_insert.
Qed.

(** A zeroed disk, for concrete runs. *)
Definition blank_disk : Statistics * Disk :=
  (mkStats 0 0 0, mkDisk zeroed_file false 0 0).

Lemma blank_disk_ok : ss_ok blank_disk.
Proof.
  apply ready_decide; [cbn; lia|reflexivity|exact zeroed_file_length|vm_compute; split; congruence|reflexivity].
Qed.

(** ** Turning the machine off and on

    A store that is made anew from what the last run of the machine left. *)
Class Restart (S : Type) := restart : S → result S.
Class RestartSpec (S : Type) `{SectorStoreSpec S} `{Restart S} :=
  restart_ok x : ss_ok x → ∃ x', restart x = Ok x' ∧ ss_ok x' ∧ ss_sectors x' = ss_sectors x.

(** [synchDisk = new SynchDisk("DISK")]: the file of the last run is there. *)
#[export] Instance SynchDisk_Restart : Restart (Statistics * Disk) :=
  λ '(_, d), d ← new_Disk (Some (file d)); Ok (mkStats 0 0 0, d).
#[export] Instance SynchDisk_RestartSpec : RestartSpec (Statistics * Disk).
Proof.
  intros [st d] [Ht Ha Hf Hl Hm]. unfold restart, SynchDisk_Restart, new_Disk, file_read.
  change (Z.to_nat 0) with 0%nat. rewrite drop_0. change (Z.to_nat MAGIC_SIZE) with 4%nat.
  rewrite Hm, le_bytes_length, (bool_decide_true (Z.of_nat 4 = _)) by done. cbn [ASSERT mbind result_bind].
  rewrite bool_decide_true by (apply le_word_bytes; vm_compute; split; congruence). cbn [ASSERT mbind result_bind].
  eexists. split; [done|]. split; [|done]. by split.
Qed.

#[export] Instance Array_Restart : Restart (list (list Z)) := Ok.
#[export] Instance Array_RestartSpec : RestartSpec (list (list Z)).
Proof. intros x Hx. by exists x. Qed.

(** The first time, there is no file. *)
Lemma new_Disk_ready : ∃ d, new_Disk None = Ok d ∧ ready (mkStats 0 0 0) d.
Proof.
  eexists. split; [reflexivity|]. apply ready_decide; [done|done| |by split|reflexivity].
  cbn [file]. unfold file_write. rewrite !length_app, !length_take, !length_replicate, !length_drop, !le_bytes_length.
  vm_compute. reflexivity.
Qed.

(** ** The synchronous disk, many threads

    [lock->Acquire(); disk->ReadRequest(...); semaphore->P(); lock->Release()]
    by any number of threads, interleaved with the completion interrupt. *)
Inductive request := RdReq (s : Z) | WrReq (s : Z) (bytes : list Z).

Inductive phase :=
| Outside                  (* not in [ReadSector] or [WriteSector] *)
| AtAcquire (r : request)  (* blocked or about to take the lock *)
| AtRequest (r : request)  (* holds the lock, request not sent *)
| AtP (r : request)        (* holds the lock, in [semaphore->P()] *)
| AtRelease.               (* holds the lock, about to release it *)

Record SynchDisk := mkSynchDisk {
  sd_stats : Statistics;
  sd_disk : Disk;
  sd_owner : option nat;   (* the thread holding [lock] *)
  sd_semaphore : Z;        (* the value of [semaphore] *)
  sd_phase : nat → phase
}.

Definition set_phase (f : nat → phase) (t : nat) (p : phase) : nat → phase :=
  λ u, if decide (u = t) then p else f u.

(** Sending the request; the assertions of the disk may fail. *)
Definition send (st : Statistics) (d : Disk) (r : request) : result (Disk * Statistics) :=
  match r with
  | RdReq s => x ← ReadRequest st d s; let '(_, _, d, st) := x in Ok (d, st)
  | WrReq s bytes => x ← WriteRequest st d s bytes; let '(_, d, st) := x in Ok (d, st)
  end.

Inductive sd_step : SynchDisk → SynchDisk → Prop :=
| step_call st d o sem ph t r :
    ph t = Outside →
    sd_step (mkSynchDisk st d o sem ph) (mkSynchDisk st d o sem (set_phase ph t (AtAcquire r)))
| step_acquire st d sem ph t r :
    ph t = AtAcquire r →
    sd_step (mkSynchDisk st d None sem ph)
            (mkSynchDisk st d (Some t) sem (set_phase ph t (AtRequest r)))
| step_send st d o sem ph t r d' st' :
    ph t = AtRequest r → send st d r = Ok (d', st') →
    sd_step (mkSynchDisk st d o sem ph) (mkSynchDisk st' d' o sem (set_phase ph t (AtP r)))
| step_interrupt st d o sem ph :
    active d = true →      (* a completion interrupt is pending *)
    sd_step (mkSynchDisk st d o sem ph) (mkSynchDisk st (HandleInterrupt d) o (sem + 1) ph)
| step_P st d o sem ph t r :
    ph t = AtP r → 0 < sem →
    sd_step (mkSynchDisk st d o sem ph) (mkSynchDisk st d o (sem - 1) (set_phase ph t AtRelease))
| step_release st d o sem ph t :
    ph t = AtRelease →
    sd_step (mkSynchDisk st d o sem ph) (mkSynchDisk st d None sem (set_phase ph t Outside))
| step_tick st d o sem ph st' :
    totalTicks st ≤ totalTicks st' →
    sd_step (mkSynchDisk st d o sem ph) (mkSynchDisk st' d o sem ph).

Definition holds_lock (p : phase) : Prop :=
  match p with AtRequest _ | AtP _ | AtRelease => True | _ => False end.

(** Who holds the lock, whether a request is in flight, and whether its
    completion has been signalled. *)
Record sd_inv (x : SynchDisk) : Prop := {
  inv_owner : ∀ t, holds_lock (sd_phase x t) ↔ sd_owner x = Some t;
  inv_flight : match sd_owner x with
    | Some t => match sd_phase x t with
        | AtP _ => (active (sd_disk x) = true ∧ sd_semaphore x = 0) ∨
                   (active (sd_disk x) = false ∧ sd_semaphore x = 1)
        | _ => active (sd_disk x) = false ∧ sd_semaphore x = 0
        end
    | None => active (sd_disk x) = false ∧ sd_semaphore x = 0
    end
}.

Lemma set_phase_eq ph t p : set_phase ph t p t = p.
Proof. unfold set_phase. by rewrite decide_True. Qed.
Lemma set_phase_ne ph t p u : u ≠ t → set_phase ph t p u = ph u.
Proof. intros. unfold set_phase. by rewrite decide_False. Qed.

Lemma send_active st d r d' st' : send st d r = Ok (d', st') → active d' = true.
Proof.
  unfold send, ReadRequest, WriteRequest, UpdateLast. destruct r; intros E; by invok.
Qed.

Lemma sd_step_inv x y : sd_inv x → sd_step x y → sd_inv y.
Proof.
  intros [Ho Hf] Hstep. destruct Hstep as
    [st d o sem ph t r Ht|st d sem ph t r Ht|st d o sem ph t r d' st' Ht Hsend
    |st d o sem ph Ha|st d o sem ph t r Ht Hsem|st d o sem ph t Ht|st d o sem ph st' Hle]; cbn in *.
  - split; cbn.
    + intros u. rewrite <-Ho. destruct (decide (u = t)) as [->|];
        [by rewrite set_phase_eq, Ht|by rewrite set_phase_ne].
    + destruct o as [u|]; [|done]. destruct (decide (u = t)) as [->|]; [|by rewrite set_phase_ne].
      pose proof (proj2 (Ho t) eq_refl) as Hh. by rewrite Ht in Hh.
  - split; cbn.
    + intros u. destruct (decide (u = t)) as [->|]; [by rewrite set_phase_eq|].
      rewrite set_phase_ne, Ho by done. split; [done|]. by intros [= ->].
    + by rewrite set_phase_eq.
  - assert (o = Some t) as -> by (apply Ho; by rewrite Ht). rewrite Ht in Hf. split; cbn.
    + intros u. rewrite <-Ho. destruct (decide (u = t)) as [->|];
        [by rewrite set_phase_eq, Ht|by rewrite set_phase_ne].
    + rewrite set_phase_eq. left. split; [by eapply send_active|apply Hf].
  - split; cbn; [done|]. destruct o as [t|]; [destruct (ph t)|]; destruct_or?; destruct_and?;
      try congruence. right. split; [done|lia].
  - assert (o = Some t) as -> by (apply Ho; by rewrite Ht). rewrite Ht in Hf. split; cbn.
    + intros u. rewrite <-Ho. destruct (decide (u = t)) as [->|];
        [by rewrite set_phase_eq, Ht|by rewrite set_phase_ne].
    + rewrite set_phase_eq. destruct Hf as [[? ?]|[? ?]]; [lia|]. split; [done|lia].
  - assert (o = Some t) as -> by (apply Ho; by rewrite Ht). rewrite Ht in Hf. split; cbn.
    + intros u. destruct (decide (u = t)) as [->|]; [by rewrite set_phase_eq|].
      rewrite set_phase_ne by done. rewrite Ho. split; [by intros [= ->]|done].
    + done.
  - by split.
Qed.

Definition sd_init (st : Statistics) (d : Disk) : SynchDisk :=
  mkSynchDisk st d None 0 (λ _, Outside).

Lemma sd_inv_init st d : active d = false → sd_inv (sd_init st d).
Proof. intros Ha. split; cbn; [|done]. intros t. split; [done|by intros [=]]. Qed.

(** C40: mutual exclusion at the disk.  However many threads call [ReadSector]
    and [WriteSector], and however they interleave with the completion
    interrupts: at most one thread is between [Acquire] and [Release]; the
    assertion [!active] of the disk never fails, so no request is ever sent
    while another is in flight; and [P] returns only after the interrupt of the
    thread's own request. *)
Theorem SynchDisk_mutual_exclusion st d x
  (Ha : active d = false) (Hreach : rtc sd_step (sd_init st d) x) :
  (∀ t u, holds_lock (sd_phase x t) → holds_lock (sd_phase x u) → t = u) ∧
  (∀ t r, sd_phase x t = AtRequest r → active (sd_disk x) = false) ∧
  (∀ t, sd_phase x t = AtRelease → active (sd_disk x) = false ∧ sd_semaphore x = 0).
Proof.
  assert (sd_inv x) as [Ho Hf].
  { revert Hreach. apply (rtc_ind_r (λ x, sd_inv x)); [by apply sd_inv_init|].
    intros y z _ Hs Hi. by eapply sd_step_inv. }
  split_and!.
  - intros t u H1%Ho H2%Ho. congruence.
  - intros t r Ht. assert (sd_owner x = Some t) as E by (apply Ho; by rewrite Ht).
    rewrite E, Ht in Hf. by destruct Hf.
  - intros t Ht. assert (sd_owner x = Some t) as E by (apply Ho; by rewrite Ht).
    by rewrite E, Ht in Hf.
Qed.

Lemma SynchDisk_mutual_exclusion_witness :
  ∃ x, sd_phase x 0%nat = AtRequest (RdReq 5) ∧ sd_phase x 1%nat = AtAcquire (RdReq 6) ∧
    active (sd_disk x) = false.
Proof.
  set (d := mkDisk (replicate (Z.to_nat DISK_SIZE) 0) false 0 0).
  set (x := mkSynchDisk (mkStats 0 0 0) d (Some 0%nat) 0
    (set_phase (set_phase (set_phase (λ _, Outside) 0%nat (AtAcquire (RdReq 5)))
      1%nat (AtAcquire (RdReq 6))) 0%nat (AtRequest (RdReq 5)))).
  exists x. split; [reflexivity|]. split; [reflexivity|].
  apply (proj1 (proj2 (SynchDisk_mutual_exclusion (mkStats 0 0 0) d x eq_refl
    ltac:(eapply rtc_l; [apply (step_call _ _ _ _ _ 0%nat (RdReq 5)); reflexivity|];
          eapply rtc_l; [apply (step_call _ _ _ _ _ 1%nat (RdReq 6)); reflexivity|];
          eapply rtc_l; [apply (step_acquire _ _ _ _ 0%nat (RdReq 5)); reflexivity|];
          apply rtc_refl))) 0%nat (RdReq 5) eq_refl).
Defined.
