(* ===== verification/FileHeader.v ===== *)
(** * [filesys/raw_file_header.hh], [filesys/file_header.cc]: file headers

    A file is a chain of headers, each one sector long, each pointing to at
    most [NUM_DIRECT] data sectors.  The operations that allocate and free
    sectors are written against the interface [FreeMap], and verified against
    its contract [FreeMapSpec]; [Bitmap] is the instance the file system
    uses. *)

From S2P Require Import Prelude Bitmap Disk.
From stdpp Require Import base option list gmap numbers tactics.
From stdpp Require Import list.
Open Scope Z_scope.

(** [((SECTOR_SIZE - 2 * sizeof (int)) / sizeof (int)) - 1]. *)
Definition NUM_DIRECT : Z := (SECTOR_SIZE - 2 * 4) / 4 - 1.
Definition TIMES_FH_FITS : Z := NUM_SECTORS / (NUM_DIRECT + 1).
Definition FILE_DATA_SECTORS : Z := NUM_SECTORS - TIMES_FH_FITS.
Definition MAX_FILE_SIZE : Z := FILE_DATA_SECTORS * SECTOR_SIZE.
Definition MAX_DIR_ENTRIES : Z := MAX_FILE_SIZE / 32.

Record RawFileHeader := mkHeader {
  numBytes : Z;
  numSectors : Z;
  dataSectors : list Z;      (* [unsigned dataSectors[NUM_DIRECT]] *)
  nextFileHeader : Z
}.

(** The sector image of a header: 32 words. *)
Definition header_bytes (h : RawFileHeader) : list Z :=
  words_bytes (numBytes h :: numSectors h :: dataSectors h ++ [nextFileHeader h]).

Definition header_of_bytes (bs : list Z) : RawFileHeader :=
  let ws := bytes_words 32 bs in
  mkHeader (nth 0 ws 0) (nth 1 ws 0) (take 29 (drop 2 ws)) (nth 31 ws 0).

(** [FileLength], [ByteToSector]. *)
Definition FileLength (h : RawFileHeader) : Z := numBytes h.
Definition ByteToSector (h : RawFileHeader) (offset : Z) : result Z :=
  rd (dataSectors h) (offset / SECTOR_SIZE).

Section Alloc.
Context {B : Type} `{FreeMapSpec B}.

(** The loop that fills [dataSectors[i..]]; [freeMap->Find()] is an [int]
    stored in an [unsigned]. *)
Definition Allocate_loop (n : nat) (i : Z) (s : list Z * B) : result (list Z * B) :=
  for_loop n i
    (λ i '(ds, freeMap),
      f ← fm_Find freeMap;
      let '(sec, freeMap) := f in
      ds ← wr ds i (u32 sec);
      Ok (ds, freeMap)) s.

(** Returns the [bool], the header and the map.  On the [return false] path the
    counters of the header have already been changed. *)
Definition Allocate (h : RawFileHeader) (freeMap : B) (fileSize : Z)
  : result (bool * RawFileHeader * B) :=
  _ ← ASSERT (bool_decide (fileSize <= u32 (NUM_DIRECT * SECTOR_SIZE - numBytes h)));
  let numBytes' := u32 (numBytes h + fileSize) in
  let numSectors0 := numSectors h in
  let numSectors' := DivRoundUp numBytes' SECTOR_SIZE in
  let h := mkHeader numBytes' numSectors' (dataSectors h) (nextFileHeader h) in
  let newSectors := u32 (numSectors' - numSectors0) in
  if bool_decide (newSectors ≠ 0) then
    c ← fm_CountClear freeMap;
    if bool_decide (c < newSectors) then Ok (false, h, freeMap)
    else
      r ← Allocate_loop (span numSectors0 numSectors') numSectors0 (dataSectors h, freeMap);
      let '(ds, freeMap) := r in
      Ok (true, mkHeader (numBytes h) (numSectors h) ds (nextFileHeader h), freeMap)
  else Ok (true, h, freeMap).

Definition Deallocate (h : RawFileHeader) (freeMap : B) : result B :=
  for_loop (span 0 (numSectors h)) 0
    (λ i freeMap,
      s ← rd (dataSectors h) i;
      t ← fm_Test freeMap s;
      _ ← ASSERT t;
      fm_Clear freeMap s) freeMap.

(** ** Invariant of a header *)
Record hdr_wf (h : RawFileHeader) : Prop := {
  hw_len : length (dataSectors h) = Z.to_nat NUM_DIRECT;
  hw_bytes : 0 ≤ numBytes h ≤ NUM_DIRECT * SECTOR_SIZE;
  hw_count : numSectors h = DivRoundUp (numBytes h) SECTOR_SIZE;
  hw_u32 : Forall is_u32 (dataSectors h);
  hw_next : is_u32 (nextFileHeader h)
}.

(** The data sectors in use. *)
Definition sectors_of (h : RawFileHeader) : list Z :=
  take (Z.to_nat (numSectors h)) (dataSectors h).

(** The header owns its sectors in the map: they exist, are marked, and are
    pairwise distinct. *)
Definition owns (h : RawFileHeader) (b : B) : Prop :=
  NoDup (sectors_of h) ∧
  Forall (λ s, 0 ≤ s < fm_size b ∧ fm_used b s = true) (sectors_of h).

Lemma count_bounds n : 0 ≤ n ≤ NUM_DIRECT * SECTOR_SIZE → 0 ≤ DivRoundUp n SECTOR_SIZE ≤ NUM_DIRECT.
Proof.
  change (NUM_DIRECT * SECTOR_SIZE) with 3712. change NUM_DIRECT with 29. unfold SECTOR_SIZE.
  intros Hn. destruct (DivRoundUp_spec n 128); lia.
Qed.

Lemma DivRoundUp_mono a b : 0 ≤ a ≤ b → DivRoundUp a SECTOR_SIZE ≤ DivRoundUp b SECTOR_SIZE.
Proof.
  unfold SECTOR_SIZE. intros. destruct (DivRoundUp_spec a 128); destruct (DivRoundUp_spec b 128); lia.
Qed.

(** State of the allocation loop after the sectors [new] have been handed out,
    starting from [ds0] and [b0]. *)
Record alloc_inv (i0 : Z) (ds0 : list Z) (b0 : B) (i : Z) (s : list Z * B) : Prop := {
  ai_wf : fm_wf s.2;
  ai_size : fm_size s.2 = fm_size b0;
  ai_len : length s.1 = length ds0;
  ai_old : take (Z.to_nat i0) s.1 = take (Z.to_nat i0) ds0;
  ai_nodup : NoDup (take (Z.to_nat (i - i0)) (drop (Z.to_nat i0) s.1));
  ai_new : Forall (λ x, 0 ≤ x < fm_size b0 ∧ fm_used b0 x = false)
             (take (Z.to_nat (i - i0)) (drop (Z.to_nat i0) s.1));
  ai_used : ∀ j, 0 ≤ j < fm_size b0 →
    fm_used s.2 j = fm_used b0 j
      || bool_decide (j ∈ take (Z.to_nat (i - i0)) (drop (Z.to_nat i0) s.1));
  ai_clear : fm_clear b0 = (fm_clear s.2 + Z.to_nat (i - i0))%nat;
  ai_u32 : Forall is_u32 ds0 → Forall is_u32 s.1
}.

(** Writing entry [i] extends the segment [i0, i) by one element. *)
Lemma segment_snoc {A} (l : list A) (i0 i : Z) (x : A) :
  0 ≤ i0 ≤ i → i < Z.of_nat (length l) →
  take (Z.to_nat (i + 1 - i0)) (drop (Z.to_nat i0) (<[Z.to_nat i := x]> l))
  = take (Z.to_nat (i - i0)) (drop (Z.to_nat i0) l) ++ [x].
Proof.
  intros H1 H2. rewrite drop_insert_ge by lia.
  replace (Z.to_nat (i + 1 - i0)) with (S (Z.to_nat (i - i0))) by lia.
  replace (Z.to_nat i - Z.to_nat i0)%nat with (Z.to_nat (i - i0)) by lia.
  erewrite take_S_r.
  - rewrite take_insert_ge by lia. done.
  - apply list_lookup_insert_eq. rewrite length_drop. lia.
Qed.

Lemma alloc_step i0 ds0 b0 i ds b :
  0 ≤ i0 ≤ i → i < Z.of_nat (length ds0) → (0 < fm_clear b)%nat → fm_size b0 < 2 ^ 32 →
  alloc_inv i0 ds0 b0 i (ds, b) →
  ∃ s', (f ← fm_Find b;
         let '(sec, freeMap) := f in
         ds ← wr ds i (u32 sec);
         Ok (ds, freeMap)) = Ok s' ∧ alloc_inv i0 ds0 b0 (i + 1) s'.
Proof.
  intros Hi Hlt Hc Hsz [Hwf Hsize Hlen Hold Hnd Hnew Hused Hclear Hu]. cbn in *.
  destruct (fm_find_ok b Hwf Hc) as (x & b' & -> & Hwf' & Hs' & Hx & Ex & _ & Hb' & Hcl).
  cbn [mbind result_bind]. rewrite Hsize in *. rewrite u32_id by (unfold is_u32; lia).
  rewrite wr_ok by lia. cbn [mbind result_bind]. eexists. split; [done|].
  rewrite Hused in Ex by done. apply orb_false_iff in Ex as [Ex Hnin%bool_decide_eq_false].
  split; cbn; rewrite ?segment_snoc by lia.
  - done.
  - congruence.
  - by rewrite length_insert.
  - by rewrite take_insert_ge by lia.
  - apply NoDup_app. split_and!; [done| |apply NoDup_singleton].
    intros y Hy ->%list_elem_of_singleton. done.
  - apply Forall_app. split; [done|]. by constructor.
  - intros j Hj. rewrite Hb', Hused by done. destruct (decide (j = x)) as [->|Hne].
    + rewrite Ex. rewrite bool_decide_true by (apply elem_of_app; right; by left). done.
    + f_equal. apply bool_decide_ext. rewrite elem_of_app, list_elem_of_singleton. naive_solver.
  - replace (Z.to_nat (i + 1 - i0)) with (S (Z.to_nat (i - i0))) by lia. lia.
  - intros Hall. apply Forall_insert; [by apply Hu|unfold is_u32; lia].
Qed.

Lemma alloc_inv_init i0 ds b : fm_wf b → alloc_inv i0 ds b i0 (ds, b).
Proof.
  intros Hwf. split; cbn [fst snd]; rewrite ?Z.sub_diag; change (Z.to_nat 0) with 0%nat;
    cbn [take]; try done.
  - constructor.
  - intros j _. by rewrite orb_false_r.
Qed.

Lemma Allocate_loop_ok n i0 ds b :
  0 ≤ i0 → i0 + Z.of_nat n ≤ Z.of_nat (length ds) → fm_wf b → fm_size b < 2 ^ 32 →
  (n ≤ fm_clear b)%nat →
  ∃ s', Allocate_loop n i0 (ds, b) = Ok s' ∧ alloc_inv i0 ds b (i0 + Z.of_nat n) s'.
Proof.
  intros Hi Hn Hwf Hsz Hc. unfold Allocate_loop.
  apply (for_loop_ind (alloc_inv i0 ds b)); [by apply alloc_inv_init|].
  intros i [ds' b'] Hr HI. apply alloc_step; [lia|lia| |done|done].
  pose proof (ai_clear _ _ _ _ _ HI) as E. cbn in E. lia.
Qed.

(** What a successful [Allocate] promises. *)
Record allocated (h : RawFileHeader) (b : B) (size : Z) (h' : RawFileHeader) (b' : B) : Prop := {
  al_wf : hdr_wf h';
  al_map : fm_wf b' ∧ fm_size b' = fm_size b;
  al_bytes : numBytes h' = numBytes h + size;
  al_next : nextFileHeader h' = nextFileHeader h;
  al_sectors : ∃ new,
    sectors_of h' = sectors_of h ++ new ∧ NoDup new ∧
    Forall (λ x, 0 ≤ x < fm_size b ∧ fm_used b x = false) new ∧
    (∀ j, 0 ≤ j < fm_size b → fm_used b' j = fm_used b j || bool_decide (j ∈ new)) ∧
    fm_clear b = (fm_clear b' + length new)%nat
}.

(** The arithmetic of [Allocate]. *)
Lemma Allocate_counts h size :
  hdr_wf h → 0 ≤ size ≤ NUM_DIRECT * SECTOR_SIZE - numBytes h →
  let k := DivRoundUp (numBytes h + size) SECTOR_SIZE in
  u32 (NUM_DIRECT * SECTOR_SIZE - numBytes h) = NUM_DIRECT * SECTOR_SIZE - numBytes h ∧
  u32 (numBytes h + size) = numBytes h + size ∧
  0 ≤ numSectors h ≤ k ∧ k ≤ NUM_DIRECT ∧
  u32 (k - numSectors h) = k - numSectors h.
Proof.
  intros [Hlen Hb Hc _ _] Hs k. rewrite Hc.
  pose proof (count_bounds (numBytes h) Hb).
  pose proof (count_bounds (numBytes h + size)).
  pose proof (DivRoundUp_mono (numBytes h) (numBytes h + size)). fold k in H2, H3.
  change (NUM_DIRECT * SECTOR_SIZE) with 3712 in *. change NUM_DIRECT with 29 in *.
  rewrite !u32_id by width_lia. lia.
Qed.

Lemma allocated_of_inv h b size k ds b' :
  hdr_wf h → 0 ≤ size ≤ NUM_DIRECT * SECTOR_SIZE - numBytes h →
  k = DivRoundUp (numBytes h + size) SECTOR_SIZE →
  alloc_inv (numSectors h) (dataSectors h) b k (ds, b') →
  allocated h b size (mkHeader (numBytes h + size) k ds (nextFileHeader h)) b'.
Proof.
  intros Hh Hs Ek [Hwf Hsize Hlen Hold Hnd Hnew Hused Hclear Hu]. cbn [fst snd] in *.
  destruct (Allocate_counts h size Hh Hs) as (_ & _ & Hk & Hk' & _). rewrite <-Ek in *.
  destruct Hh as [Hl Hb Hc Hall Hnx]. change (Z.to_nat NUM_DIRECT) with 29%nat in *.
  change NUM_DIRECT with 29 in *.
  split; cbn [numBytes numSectors dataSectors nextFileHeader]; [|done..|].
  { split; cbn [numBytes numSectors dataSectors nextFileHeader];
      [by rewrite Hlen|change (NUM_DIRECT * SECTOR_SIZE) with (29 * SECTOR_SIZE); lia|done|by apply Hu|done]. }
  exists (take (Z.to_nat (k - numSectors h)) (drop (Z.to_nat (numSectors h)) ds)).
  split_and!; [|done|done|done|rewrite length_take, length_drop; lia].
  unfold sectors_of. cbn [numSectors dataSectors]. rewrite <-Hold.
  rewrite <-(take_drop (Z.to_nat (numSectors h)) ds) at 1.
  rewrite take_app_ge by (rewrite length_take; lia). f_equal.
  rewrite length_take. f_equal. lia.
Qed.

Lemma Allocate_result h b size :
  hdr_wf h → fm_wf b → fm_size b < 2 ^ 32 →
  0 ≤ size ≤ NUM_DIRECT * SECTOR_SIZE - numBytes h →
  let need := DivRoundUp (numBytes h + size) SECTOR_SIZE - numSectors h in
  if decide (need ≤ Z.of_nat (fm_clear b))
  then ∃ h' b', Allocate h b size = Ok (true, h', b') ∧ allocated h b size h' b'
  else ∃ h', Allocate h b size = Ok (false, h', b).
Proof.
  intros Hh Hb Hsz Hs need.
  destruct (Allocate_counts h size Hh Hs) as (E1 & E2 & Hk & Hk' & E3).
  unfold Allocate. rewrite E1, E2, E3. fold need.
  rewrite (bool_decide_true (size <= _)) by lia.
  cbn [ASSERT mbind result_bind].
  assert (Hlen := hw_len h Hh).
  destruct (decide (need = 0)) as [Hz|Hnz].
  - rewrite decide_True by lia. rewrite bool_decide_false by lia.
    do 2 eexists. split; [done|]. apply allocated_of_inv; [done..|].
    replace (DivRoundUp _ _) with (numSectors h) by lia. by apply alloc_inv_init.
  - rewrite bool_decide_true by lia. rewrite fm_count_ok by done. cbn [mbind result_bind].
    destruct (decide (need ≤ Z.of_nat (fm_clear b))) as [Hle|Hgt].
    + rewrite bool_decide_false by lia. unfold span. fold need. cbn [dataSectors].
      destruct (Allocate_loop_ok (Z.to_nat need) (numSectors h) (dataSectors h) b)
        as ([ds b'] & -> & Hinv); [lia| |done|done|lia|].
      { rewrite Hlen. change (Z.to_nat NUM_DIRECT) with 29%nat. change NUM_DIRECT with 29 in *. lia. }
      do 2 eexists. split; [done|]. cbn [numBytes numSectors nextFileHeader].
      apply allocated_of_inv; [done..|].
      replace (DivRoundUp _ _) with (numSectors h + Z.of_nat (Z.to_nat need)) by lia. done.
    + rewrite bool_decide_true by lia. by eexists.
Qed.

Lemma Allocate_true h b size h' b' :
  hdr_wf h → fm_wf b → fm_size b < 2 ^ 32 →
  0 ≤ size ≤ NUM_DIRECT * SECTOR_SIZE - numBytes h →
  Allocate h b size = Ok (true, h', b') → allocated h b size h' b'.
Proof.
  intros Hh Hb Hsz Hs E. pose proof (Allocate_result h b size Hh Hb Hsz Hs) as Hr. cbn zeta in Hr.
  destruct (decide _); [destruct Hr as (h1 & b1 & E1 & Ha)|destruct Hr as (h1 & E1)];
    rewrite E in E1; [by injection E1 as -> ->|discriminate].
Qed.

(** C31: [Allocate] either grows the header or reports that the disk is full.
    When it returns true, the old sectors of the file are kept, the new ones
    are distinct sectors that were free and are now marked, no other bit of the
    map changes, and the header invariant holds with the new length; this is
    the case exactly when enough free sectors are left.  Otherwise it returns
    false with the map unchanged. *)
Theorem Allocate_correct h b size :
  hdr_wf h → fm_wf b → fm_size b < 2 ^ 32 →
  0 ≤ size ≤ NUM_DIRECT * SECTOR_SIZE - numBytes h →
  let need := DivRoundUp (numBytes h + size) SECTOR_SIZE - numSectors h in
  if decide (need ≤ Z.of_nat (fm_clear b))
  then ∃ h' b', Allocate h b size = Ok (true, h', b') ∧ allocated h b size h' b'
  else ∃ h', Allocate h b size = Ok (false, h', b).
Proof. apply Allocate_result. Qed.

Lemma Deallocate_loop_ok h ss ds1 b :
  dataSectors h = ds1 ++ ss ++ drop (length ds1 + length ss) (dataSectors h) →
  fm_wf b → NoDup ss → Forall (λ s, 0 ≤ s < fm_size b ∧ fm_used b s = true) ss →
  ∃ b', for_loop (length ss) (Z.of_nat (length ds1))
      (λ i freeMap,
        s ← rd (dataSectors h) i;
        t ← fm_Test freeMap s;
        _ ← ASSERT t;
        fm_Clear freeMap s) b = Ok b' ∧
    fm_wf b' ∧ fm_size b' = fm_size b ∧
    (∀ j, 0 ≤ j < fm_size b → fm_used b' j = fm_used b j && negb (bool_decide (j ∈ ss))) ∧
    fm_clear b' = (fm_clear b + length ss)%nat.
Proof.
  revert ds1 b. induction ss as [|s ss IH]; intros ds1 b Hds Hwf Hnd Hall; cbn [for_loop length].
  { exists b. split_and!; [done..| |lia]. intros. by rewrite andb_true_r. }
  apply NoDup_cons in Hnd as [Hs Hnd]. apply Forall_cons in Hall as [[Hr Hu] Hall].
  rewrite (rd_ok _ _ s); [|lia|].
  2: { rewrite Hds, Nat2Z.id. rewrite lookup_app_r, Nat.sub_diag by lia. done. }
  cbn [mbind result_bind]. rewrite fm_test_ok, Hu by done. cbn [mbind result_bind ASSERT].
  destruct (fm_clear_ok b s Hwf Hr) as (b1 & -> & Hwf1 & Hsz1 & Hu1 & Hc1).
  cbn [mbind result_bind]. rewrite Hu in Hc1.
  destruct (IH (ds1 ++ [s]) b1) as (b2 & E2 & Hwf2 & Hsz2 & Hu2 & Hc2).
  - rewrite length_app. cbn [length]. rewrite <-app_assoc. rewrite Hds at 1.
    cbn. do 4 f_equal. lia.
  - done.
  - done.
  - rewrite Hsz1. apply Forall_forall. intros x Hx.
    rewrite Forall_forall in Hall. destruct (Hall x Hx). rewrite Hu1 by done.
    rewrite decide_False by (intros ->; done). done.
  - replace (Z.of_nat (length (ds1 ++ [s]))) with (Z.of_nat (length ds1) + 1) in E2
      by (rewrite length_app; cbn; lia).
    exists b2. rewrite E2. split_and!; [done|done|congruence| |cbn; lia].
    intros j Hj. rewrite Hu2, Hu1 by congruence. destruct (decide (j = s)) as [->|Hne].
    + rewrite (bool_decide_true (s ∈ s :: ss)) by (by left). by rewrite andb_false_r.
    + do 2 f_equal. apply bool_decide_ext. rewrite elem_of_cons. naive_solver.
Qed.

(** What [Deallocate] does to the map of a header that owns its sectors. *)
Lemma Deallocate_frees h b :
  hdr_wf h → fm_wf b → owns h b →
  ∃ b', Deallocate h b = Ok b' ∧ fm_wf b' ∧ fm_size b' = fm_size b ∧
    (∀ j, 0 ≤ j < fm_size b →
      fm_used b' j = fm_used b j && negb (bool_decide (j ∈ sectors_of h))) ∧
    fm_clear b' = (fm_clear b + length (sectors_of h))%nat.
Proof.
  intros Hh Hb [Hnd Hall]. unfold Deallocate, span. rewrite Z.sub_0_r.
  destruct Hh as [Hl Hbs Hc _ _]. pose proof (count_bounds _ Hbs) as Hcb. rewrite <-Hc in Hcb.
  change (Z.to_nat NUM_DIRECT) with 29%nat in *. change NUM_DIRECT with 29 in *.
  assert (Hlen : length (sectors_of h) = Z.to_nat (numSectors h))
    by (unfold sectors_of; rewrite length_take; lia).
  rewrite <-Hlen. apply (Deallocate_loop_ok h (sectors_of h) []); try done.
  cbn [app length]. rewrite Hlen. unfold sectors_of. by rewrite take_drop.
Qed.

Lemma allocated_owns h b size h' b' :
  owns h b → allocated h b size h' b' → owns h' b'.
Proof.
  intros [Hnd Hall] [_ [_ Hsz] _ _ (new & E & Hnd' & Hnew & Hu & _)]. unfold owns. rewrite E, Hsz.
  rewrite Forall_forall in Hall, Hnew. split.
  - apply NoDup_app. split_and!; [done| |done]. intros x Hx Hx'.
    destruct (Hall x Hx), (Hnew x Hx'). congruence.
  - apply Forall_app. split; apply Forall_forall; intros x Hx.
    + destruct (Hall x Hx) as [Hr Hux]. by rewrite Hu, Hux by done.
    + destruct (Hnew x Hx) as [Hr _]. rewrite Hu by done.
      by rewrite (bool_decide_true _ Hx), orb_true_r.
Qed.

(** Growing a file keeps the ownership of sectors (distinct, in range,
    marked), and [Deallocate] afterwards passes every [ASSERT] and clears
    exactly the bits of the file's sectors, the old and the new ones: the map
    is then the one before [Allocate], with the file's first sectors freed. *)
Theorem Allocate_Deallocate h b size h' b' :
  hdr_wf h → fm_wf b → fm_size b < 2 ^ 32 → owns h b →
  0 ≤ size ≤ NUM_DIRECT * SECTOR_SIZE - numBytes h →
  Allocate h b size = Ok (true, h', b') →
  owns h' b' ∧
  ∃ b'', Deallocate h' b' = Ok b'' ∧ fm_wf b'' ∧ fm_size b'' = fm_size b ∧
    (∀ j, 0 ≤ j < fm_size b →
      fm_used b'' j = fm_used b j && negb (bool_decide (j ∈ sectors_of h))) ∧
    fm_clear b'' = (fm_clear b + length (sectors_of h))%nat.
Proof.
  intros Hh Hb Hfs Ho Hs Ha%Allocate_true; [|done..].
  pose proof (allocated_owns _ _ _ _ _ Ho Ha) as Ho'. split; [done|].
  destruct Ha as [Hh' [Hwf' Hsz] _ _ (new & E & Hnd' & Hnew & Hu & Hc)].
  destruct (Deallocate_frees h' b' Hh' Hwf' Ho') as (b'' & -> & Hwf'' & Hsz'' & Hu'' & Hc'').
  exists b''. rewrite E, length_app in Hc''. split_and!; [done|done|congruence| |lia].
  intros j Hj. rewrite Hu'', Hu, E by congruence. rewrite Forall_forall in Hnew.
  destruct (decide (j ∈ new)) as [Hin|Hnin].
  - destruct (Hnew j Hin) as [_ ->]. rewrite (bool_decide_true (j ∈ sectors_of h ++ new))
      by (apply elem_of_app; by right). by rewrite andb_false_r.
  - rewrite (bool_decide_false (j ∈ new)), orb_false_r by done. do 2 f_equal.
    apply bool_decide_ext. rewrite elem_of_app. naive_solver.
Qed.
End Alloc.

(** The header [Create] starts from; [new FileHeader] leaves [dataSectors] with
    the contents [ds] of the allocated memory. *)
Definition empty_header (ds : list Z) : RawFileHeader := mkHeader 0 0 ds 0.

Lemma empty_header_wf ds :
  length ds = Z.to_nat NUM_DIRECT → Forall is_u32 ds → hdr_wf (empty_header ds).
Proof. intros. by split. Qed.

Lemma Allocate_correct_witness :
  ∃ h' b', Allocate (empty_header (replicate 29 0)) (mkBitmap 64 [3; 0]) 300 = Ok (true, h', b') ∧
    allocated (empty_header (replicate 29 0)) (mkBitmap 64 [3; 0]) 300 h' b'.
Proof.
  refine (Allocate_correct (empty_header (replicate 29 0)) (mkBitmap 64 [3; 0]) 300 _ _ _ _).
  - by apply empty_header_wf; [|repeat constructor].
  - split; [cbn; lia|reflexivity|repeat constructor; cbn; lia].
  - reflexivity.
  - vm_compute. split; congruence.
Defined.

Lemma Allocate_Deallocate_witness :
  ∃ h' b' b'', Allocate (empty_header (replicate 29 0)) (mkBitmap 64 [3; 0]) 300 = Ok (true, h', b') ∧
    Deallocate h' b' = Ok b'' ∧ sectors_of h' = [2; 3; 4] ∧ fm_used b'' 3 = false.
Proof.
  eexists _, _. destruct (Allocate_Deallocate (empty_header (replicate 29 0)) (mkBitmap 64 [3; 0]) 300
    (mkHeader 300 3 (2 :: 3 :: 4 :: replicate 26 0) 0) (mkBitmap 64 [31; 0]))
    as (_ & b'' & E & _ & _ & Hu & _).
  - by apply empty_header_wf; [|repeat constructor].
  - split; [cbn; lia|reflexivity|repeat constructor; cbn; lia].
  - reflexivity.
  - split; constructor.
  - vm_compute. split; congruence.
  - vm_compute. reflexivity.
  - exists b''. split; [vm_compute; reflexivity|]. split; [exact E|]. split; [reflexivity|].
    rewrite Hu by (cbn; lia). reflexivity.
Defined.

(** ** Transfer to and from disk *)
Section Transfer.
Context {S : Type} `{SectorStoreSpec S}.

Definition FetchFrom (x : S) (sector : Z) : result (RawFileHeader * S) :=
  r ← ss_ReadSector x sector;
  let '(bs, x) := r in
  Ok (header_of_bytes bs, x).

Definition WriteBack (h : RawFileHeader) (x : S) (sector : Z) : result S :=
  ss_WriteSector x sector (header_bytes h).

(** [Print]: the length, the block indexes, and for every block its number and
    the bytes it contributes to the file. *)
Definition Print (h : RawFileHeader) (x : S) : result (Z * list Z * list (Z * list Z) * S) :=
  idx ← for_loop (span 0 (numSectors h)) 0
    (λ i (out : list Z), s ← rd (dataSectors h) i; Ok (out ++ [s])) [];
  r ← for_loop (span 0 (numSectors h)) 0
    (λ i '(out, k, x),
      s ← rd (dataSectors h) i;
      r ← ss_ReadSector x s;
      let '(data, x) := r in
      let n := Z.min SECTOR_SIZE (Z.max 0 (numBytes h - k)) in
      Ok (out ++ [(s, take (Z.to_nat n) data)], k + n, x)) ([], 0, x);
  let '(out, _, x) := r in
  Ok (numBytes h, idx, out, x).

(** Every field is a 32-bit word and the array is full: what the memory of a
    [RawFileHeader] can hold. *)
Definition hdr_words (h : RawFileHeader) : Prop :=
  length (dataSectors h) = Z.to_nat NUM_DIRECT ∧
  Forall is_u32 (numBytes h :: numSectors h :: dataSectors h ++ [nextFileHeader h]).

Lemma hdr_wf_words h : hdr_wf h → hdr_words h.
Proof.
  intros [Hl Hb Hc Hall Hn]. pose proof (count_bounds _ Hb) as Hc'. rewrite <-Hc in Hc'.
  change (NUM_DIRECT * SECTOR_SIZE) with 3712 in *. change NUM_DIRECT with 29 in *.
  split; [done|]. repeat constructor; [width_lia..|].
  apply Forall_app. split; [done|]. by constructor.
Qed.

Lemma header_bytes_length h :
  length (dataSectors h) = Z.to_nat NUM_DIRECT → length (header_bytes h) = Z.to_nat SECTOR_SIZE.
Proof.
  intros Hl. unfold header_bytes. rewrite words_bytes_length. cbn [length].
  rewrite length_app, Hl. reflexivity.
Qed.

Lemma header_of_header_bytes h : hdr_words h → header_of_bytes (header_bytes h) = h.
Proof.
  intros [Hl Hw]. unfold header_of_bytes, header_bytes.
  set (ws := numBytes h :: numSectors h :: dataSectors h ++ [nextFileHeader h]) in *.
  replace (bytes_words 32 (words_bytes ws)) with ws.
  2: { rewrite <-(bytes_words_words ws Hw) at 1. f_equal.
       unfold ws. cbn [length]. by rewrite length_app, Hl. }
  unfold ws. clear ws Hw. destruct h as [nb ns ds nx]. cbn [nth drop numBytes numSectors dataSectors nextFileHeader] in *.
  rewrite drop_0, take_app_length' by done. f_equal.
  rewrite app_nth2 by (rewrite Hl; vm_compute; lia). by rewrite Hl.
Qed.

(** Writing a header to a sector and fetching it again gives the same
    header, with its [NUM_DIRECT] entries and the link to the next header, and
    changes no other sector of the disk. *)
Theorem FileHeader_roundtrip h x s (Hh : hdr_words h) (Hx : ss_ok x) (Hs : 0 ≤ s < NUM_SECTORS) :
  ∃ x', WriteBack h x s = Ok x' ∧ ss_ok x' ∧
    (∀ t, t ≠ s → rd (ss_sectors x') t = rd (ss_sectors x) t) ∧
    ∃ x'', FetchFrom x' s = Ok (h, x'') ∧ ss_sectors x'' = ss_sectors x' ∧ ss_ok x''.
Proof.
  pose proof (header_bytes_length h (proj1 Hh)) as Hlen.
  destruct (ss_write_ok x s (header_bytes h) Hx Hs Hlen) as (x' & E & Hsec & Hx').
  assert (wr (ss_sectors x) s (header_bytes h) = Ok (ss_sectors x')) as Hwr.
  { rewrite Hsec. apply wr_ok. destruct (ss_shape x Hx) as [-> _]. lia. }
  exists x'. split_and!; [done..|intros; by eapply rd_wr_ne|].
  destruct (ss_read_ok x' s Hx' Hs) as (v & x'' & E' & Hv & Hsec' & Hx'').
  rewrite (rd_wr_eq _ _ _ _ Hwr) in Hv. injection Hv as <-.
  exists x''. unfold FetchFrom. rewrite E'. cbn [mbind result_bind].
  by rewrite header_of_header_bytes.
Qed.
End Transfer.

Lemma FileHeader_roundtrip_witness :
  let h := mkHeader 300 3 (2 :: 3 :: 4 :: replicate 26 0) 77 in
  ∃ x', WriteBack h blank_disk 5 = Ok x' ∧ ∃ x'', FetchFrom x' 5 = Ok (h, x'').
Proof.
  intros h. destruct (FileHeader_roundtrip h blank_disk 5) as (x' & E & _ & _ & x'' & E' & _).
  - split; [reflexivity|]. repeat constructor; vm_compute; congruence.
  - exact blank_disk_ok.
  - vm_compute. split; congruence.
  - exists x'. split; [exact E|]. exists x''. exact E'.
Defined.

(** The translation of an offset inside the file meets no array bound and gives
    one of the sectors of the file, the one that holds the byte. *)
Lemma ByteToSector_in_file h offset :
  hdr_wf h → 0 ≤ offset < numBytes h →
  ∃ s, ByteToSector h offset = Ok s ∧ sectors_of h !! Z.to_nat (offset / SECTOR_SIZE) = Some s.
Proof.
  intros [Hl Hb Hc _ _] Ho. pose proof (count_bounds _ Hb) as Hc'. rewrite <-Hc in Hc'.
  change (NUM_DIRECT * SECTOR_SIZE) with 3712 in *. change NUM_DIRECT with 29 in *.
  assert (offset / SECTOR_SIZE < numSectors h).
  { rewrite Hc. apply Z.div_lt_upper_bound; [done|]. unfold SECTOR_SIZE in *.
    destruct (DivRoundUp_spec (numBytes h) 128); lia. }
  assert (0 ≤ offset / SECTOR_SIZE) by (apply Z.div_pos; unfold SECTOR_SIZE; lia).
  destruct (rd_in_range (dataSectors h) (offset / SECTOR_SIZE)) as (s & E & Hs).
  { rewrite Hl. change (Z.to_nat 29) with 29%nat. lia. }
  exists s. split; [done|]. unfold sectors_of. rewrite lookup_take_Some. split; [done|lia].
Qed.
