(* ===== verification/OpenFile.v ===== *)
(** * [filesys/open_file.cc]: open files

    [ReadAt] and [WriteAt] move bytes between a buffer and the sectors a file
    header points to, on top of the interface [SectorStore] of the synchronous
    disk.  The abstract view of a file is [contents], the list of its bytes;
    [ReadAt] is a slice of it and [WriteAt] replaces a slice.  [Read] and
    [Write] are the operations with a position, which follow the chain of
    headers and extend it.  The branches for host files ([isBin]) are in the
    module [Bin]. *)

From S2P Require Import Prelude Bitmap Disk FileHeader.
From stdpp Require Import base option list gmap numbers tactics.
From stdpp Require Import list.
Open Scope Z_scope.

(** The object of an open file with [isBin = false]. *)
Record OpenFile := mkOpenFile {
  hdr : RawFileHeader;
  currentSector : Z;
  seekPosition : Z;
  sector : Z
}.

(** ** Reading and writing at a position *)
Section At.
Context {S : Type} `{SectorStoreSpec S}.

(** The number of bytes transferred and the first and last sector, after the
    checks of the request; [None] is [return 0]. *)
Definition check_request (fileLength numBytes position : Z) : option (Z * Z * Z) :=
  if bool_decide (position >= fileLength) then None
  else
    let numBytes := if bool_decide (u32 (position + numBytes) > fileLength)
                    then u32 (fileLength - position) else numBytes in
    let firstSector := DivRoundDown position SECTOR_SIZE in
    let lastSector := DivRoundDown (u32 (position + numBytes - 1)) SECTOR_SIZE in
    Some (numBytes, firstSector, lastSector).

(** Returns the bytes put into [into].  The loop fills [buf] from its start,
    one sector after the other. *)
Definition ReadAt (h : RawFileHeader) (x : S) (numBytes position : Z) : result (list Z * S) :=
  _ ← ASSERT (bool_decide (numBytes > 0));
  match check_request (FileLength h) numBytes position with
  | None => Ok ([], x)
  | Some (numBytes, firstSector, lastSector) =>
      r ← for_loop (span firstSector (lastSector + 1)) firstSector
        (λ i '(buf, x),
          sectorToRead ← ByteToSector h (u32 (i * SECTOR_SIZE));
          r ← ss_ReadSector x sectorToRead;
          let '(data, x) := r in
          Ok (buf ++ data, x)) ([], x);
      let '(buf, x) := r in
      into ← slice buf (u32 (position - firstSector * SECTOR_SIZE)) numBytes;
      Ok (into, x)
  end.

(** "Read in first and last sector, if they are to be partially modified." *)
Definition read_edges (h : RawFileHeader) (x : S) (buf : list Z)
    (firstAligned lastAligned : bool) (firstSector lastSector : Z) : result (list Z * S) :=
  r ← (if negb firstAligned then
         r ← ReadAt h x SECTOR_SIZE (u32 (firstSector * SECTOR_SIZE));
         let '(data, x) := r in
         buf ← splice buf 0 data;
         Ok (buf, x)
       else Ok (buf, x));
  let '(buf, x) := r in
  if negb lastAligned && (bool_decide (firstSector ≠ lastSector) || firstAligned) then
    r ← ReadAt h x SECTOR_SIZE (u32 (lastSector * SECTOR_SIZE));
    let '(data, x) := r in
    buf ← splice buf (u32 ((lastSector - firstSector) * SECTOR_SIZE)) data;
    Ok (buf, x)
  else Ok (buf, x).

(** Returns the number of bytes written; [uninit n] is the contents of a block of
    [n] bytes returned by [new char [n]]. *)
Definition WriteAt (uninit : Z → list Z) (h : RawFileHeader) (x : S) (from : list Z) (numBytes position : Z)
  : result (Z * S) :=
  _ ← ASSERT (bool_decide (numBytes > 0));
  match check_request (FileLength h) numBytes position with
  | None => Ok (0, x)
  | Some (numBytes, firstSector, lastSector) =>
      let numSectors := u32 (1 + lastSector - firstSector) in
      let buf := uninit (u32 (numSectors * SECTOR_SIZE)) in
      let firstAligned := bool_decide (position = u32 (firstSector * SECTOR_SIZE)) in
      let lastAligned := bool_decide (u32 (position + numBytes) = u32 ((lastSector + 1) * SECTOR_SIZE)) in
      r ← read_edges h x buf firstAligned lastAligned firstSector lastSector;
      let '(buf, x) := r in
      src ← slice from 0 numBytes;
      buf ← splice buf (u32 (position - firstSector * SECTOR_SIZE)) src;
      x ← for_loop (span firstSector (lastSector + 1)) firstSector
        (λ i x,
          s ← ByteToSector h (u32 (i * SECTOR_SIZE));
          data ← slice buf (u32 ((i - firstSector) * SECTOR_SIZE)) SECTOR_SIZE;
          ss_WriteSector x s data) x;
      Ok (numBytes, x)
  end.

(** ** The abstract view *)
Definition block (secs : list (list Z)) (s : Z) : list Z := default [] (secs !! Z.to_nat s).
Definition blocks (h : RawFileHeader) (secs : list (list Z)) : list (list Z) :=
  block secs <$> sectors_of h.
(** All bytes of the file's sectors, and those below its length. *)
Definition raw_contents (h : RawFileHeader) (secs : list (list Z)) : list Z :=
  concat (blocks h secs).
Definition contents (h : RawFileHeader) (secs : list (list Z)) : list Z :=
  take (Z.to_nat (numBytes h)) (raw_contents h secs).

(** A header whose sectors exist and are distinct. *)
Record file_wf (h : RawFileHeader) : Prop := {
  fw_hdr : hdr_wf h;
  fw_range : Forall (λ s, 0 ≤ s < NUM_SECTORS) (sectors_of h);
  fw_nodup : NoDup (sectors_of h)
}.

Definition wide (w : nat) (bl : list (list Z)) : Prop := Forall (λ b, length b = w) bl.

Lemma concat_length w bl : wide w bl → length (concat bl) = (length bl * w)%nat.
Proof.
  induction 1 as [|b bl Hb _ IH]; [done|]. cbn [concat length]. rewrite length_app, Hb, IH. lia.
Qed.

Lemma concat_drop w bl j : wide w bl → concat (drop j bl) = drop (j * w) (concat bl).
Proof.
  revert j. induction bl as [|b bl IH]; intros j Hw; [by rewrite drop_nil; cbn; rewrite drop_nil|].
  apply Forall_cons in Hw as [Hb Hw]. destruct j as [|j]; [done|]. cbn [drop concat].
  rewrite IH by done. rewrite drop_app_ge by nia. f_equal. lia.
Qed.

Lemma concat_take w bl k : wide w bl → concat (take k bl) = take (k * w) (concat bl).
Proof.
  revert k. induction bl as [|b bl IH]; intros k Hw; [by rewrite take_nil; cbn; rewrite take_nil|].
  apply Forall_cons in Hw as [Hb Hw]. destruct k as [|k]; [done|]. cbn [take concat].
  rewrite IH by done. rewrite take_app_ge by nia. do 2 f_equal. lia.
Qed.

Lemma wide_take w bl k : wide w bl → wide w (take k bl).
Proof. apply Forall_take. Qed.
Lemma wide_drop w bl k : wide w bl → wide w (drop k bl).
Proof. apply Forall_drop. Qed.

Lemma block_rd secs s v : rd secs s = Ok v → block secs s = v.
Proof. intros [_ E]%rd_inv. unfold block. by rewrite E. Qed.

Lemma blocks_wide h x : ss_ok x → file_wf h → wide 128 (blocks h (ss_sectors x)).
Proof.
  intros Hx [_ Hr _]. destruct (ss_shape x Hx) as [Hl Hw]. unfold wide, blocks.
  apply Forall_fmap. eapply Forall_impl; [exact Hr|]. intros s [Hs0 Hs1].
  destruct (rd_in_range (ss_sectors x) s) as (v & E & Hv); [lia|].
  unfold compose. rewrite (block_rd _ _ _ E). rewrite Forall_lookup in Hw. exact (Hw _ _ Hv).
Qed.

Lemma sectors_of_length h : file_wf h → length (sectors_of h) = Z.to_nat (numSectors h).
Proof.
  intros [[Hl Hb Hc _ _] _ _]. unfold sectors_of. rewrite length_take.
  pose proof (count_bounds _ Hb). rewrite <-Hc in *. change (Z.to_nat NUM_DIRECT) with 29%nat in *.
  change NUM_DIRECT with 29 in *. lia.
Qed.

Lemma raw_contents_length h x : ss_ok x → file_wf h →
  Z.of_nat (length (raw_contents h (ss_sectors x))) = numSectors h * 128 ∧
  numBytes h ≤ numSectors h * 128 ∧ 0 ≤ numSectors h ≤ 29.
Proof.
  intros Hx Hf. unfold raw_contents. rewrite (concat_length 128) by (by apply blocks_wide).
  unfold blocks. rewrite length_fmap, sectors_of_length by done.
  destruct Hf as [[Hl Hb Hc _ _] _ _]. pose proof (count_bounds _ Hb). rewrite <-Hc in *.
  change NUM_DIRECT with 29 in *. unfold SECTOR_SIZE in *.
  destruct (DivRoundUp_spec (numBytes h) 128); lia.
Qed.

(** The checks of a request inside the 32-bit range. *)
Lemma check_request_ok fileLength n pos :
  0 ≤ pos < fileLength → fileLength ≤ 29 * 128 → 0 < n → pos + n < 2 ^ 32 →
  check_request fileLength n pos
  = let n' := Z.min n (fileLength - pos) in
    Some (n', pos / 128, (pos + n' - 1) / 128).
Proof.
  intros Hp Hl Hn Hw. unfold check_request, DivRoundDown, SECTOR_SIZE.
  rewrite bool_decide_false by lia. rewrite (u32_id (pos + n)) by (unfold is_u32; lia).
  case_bool_decide; cbn zeta.
  - rewrite (u32_id (fileLength - pos)) by width_lia.
    replace (Z.min n (fileLength - pos)) with (fileLength - pos) by lia.
    by rewrite u32_id by width_lia.
  - replace (Z.min n (fileLength - pos)) with n by lia. by rewrite u32_id by width_lia.
Qed.

(** The sector of the [i]-th block. *)
Lemma nth_sector h i : file_wf h → 0 ≤ i < numSectors h → numSectors h ≤ 29 →
  ∃ s, ByteToSector h (u32 (i * SECTOR_SIZE)) = Ok s ∧
    sectors_of h !! Z.to_nat i = Some s ∧ 0 ≤ s < NUM_SECTORS.
Proof.
  intros Hf Hi Hm. unfold ByteToSector, SECTOR_SIZE. rewrite u32_id by width_lia.
  rewrite Z.div_mul by done.
  destruct (lookup_lt_is_Some_2 (sectors_of h) (Z.to_nat i)) as [s Hs].
  { rewrite sectors_of_length by done. lia. }
  exists s. pose proof Hs as Hs'. unfold sectors_of in Hs'. apply lookup_take_Some in Hs' as [Hs' _].
  split_and!; [by apply rd_ok; [lia|]|done|..];
    destruct Hf as [_ Hr _]; rewrite Forall_lookup in Hr; by apply (Hr _ _ Hs).
Qed.

(** Reading a run of blocks. *)
Lemma read_blocks h x n i :
  ss_ok x → file_wf h → 0 ≤ i → i + Z.of_nat n ≤ numSectors h → numSectors h ≤ 29 →
  ∃ x', for_loop n i
    (λ i '(buf, x),
      sectorToRead ← ByteToSector h (u32 (i * SECTOR_SIZE));
      r ← ss_ReadSector x sectorToRead;
      let '(data, x) := r in
      Ok (buf ++ data, x)) ([], x)
    = Ok (concat (take n (drop (Z.to_nat i) (blocks h (ss_sectors x)))), x') ∧
    ss_ok x' ∧ ss_sectors x' = ss_sectors x.
Proof.
  intros Hx Hf Hi Hn Hm.
  edestruct (for_loop_ind (λ j '(buf, x'), ss_ok x' ∧ ss_sectors x' = ss_sectors x ∧
      buf = concat (take (Z.to_nat (j - i)) (drop (Z.to_nat i) (blocks h (ss_sectors x))))))
    as ([buf x'] & E & Hx' & Hs' & Hbuf).
  3: { exists x'. rewrite E, Hbuf. split; [|done]. do 3 f_equal. f_equal. lia. }
  { rewrite Z.sub_diag. by split_and!. }
  intros j [buf x1] Hj (Hx1 & Hs1 & Hbuf1).
  destruct (nth_sector h j Hf) as (s & -> & Hs & Hr); [lia|done|]. cbn [mbind result_bind].
  destruct (ss_read_ok x1 s Hx1 Hr) as (v & x2 & -> & Hv & Hs2 & Hx2). cbn [mbind result_bind].
  eexists. split; [done|]. cbn beta iota. split_and!; [done|congruence|].
  replace (Z.to_nat (j + 1 - i)) with (Datatypes.S (Z.to_nat (j - i))) by lia.
  rewrite (take_S_r _ _ v), concat_app, Hbuf1; [cbn; by rewrite app_nil_r|].
  rewrite lookup_drop. replace (Z.to_nat i + Z.to_nat (j - i))%nat with (Z.to_nat j) by lia.
  unfold blocks. rewrite list_lookup_fmap, Hs. cbn. rewrite Hs1 in Hv. by rewrite (block_rd _ _ _ Hv).
Qed.

Lemma ReadAt_ok h x n pos :
  ss_ok x → file_wf h → 0 ≤ pos → 0 < n → pos + n < 2 ^ 32 →
  ∃ x', ReadAt h x n pos
    = Ok (take (Z.to_nat n) (drop (Z.to_nat pos) (contents h (ss_sectors x))), x') ∧
    ss_ok x' ∧ ss_sectors x' = ss_sectors x.
Proof.
  intros Hx Hf Hp Hn Hw. destruct (raw_contents_length h x Hx Hf) as (HC & Hnb & Hns).
  unfold ReadAt. rewrite bool_decide_true by lia. cbn [ASSERT mbind result_bind].
  unfold FileLength. destruct (decide (pos < numBytes h)) as [Hlt|Hge].
  2: { unfold check_request. rewrite bool_decide_true by lia. exists x. split; [|done].
       rewrite drop_ge, take_nil; [done|]. unfold contents. rewrite length_take. lia. }
  rewrite check_request_ok by lia. cbn zeta iota beta.
  set (n' := Z.min n (numBytes h - pos)).
  assert (0 ≤ pos / 128 ≤ (pos + n' - 1) / 128) by (Z.div_mod_to_equations; lia).
  assert ((pos + n' - 1) / 128 < numSectors h) by (apply Z.div_lt_upper_bound; lia).
  destruct (read_blocks h x (span (pos / 128) ((pos + n' - 1) / 128 + 1)) (pos / 128) Hx Hf)
    as (x' & E & Hx' & Hs'); [lia|unfold span; lia|lia|].
  rewrite E. cbn [mbind result_bind]. unfold SECTOR_SIZE.
  rewrite (u32_id (pos - _)) by width_lia.
  rewrite (concat_take 128), (concat_drop 128) by (try apply wide_drop; by apply blocks_wide).
  fold (raw_contents h (ss_sectors x)). unfold span.
  rewrite slice_ok; [|Z.div_mod_to_equations; lia|lia|rewrite length_take, length_drop; Z.div_mod_to_equations; lia].
  cbn [mbind result_bind]. exists x'. split; [|done]. do 2 f_equal.
  unfold contents. apply list_eq. intros i. destruct (decide (i < Z.to_nat n')%nat) as [Hi|Hi].
  - rewrite !lookup_take_drop by (Z.div_mod_to_equations; lia).
    rewrite lookup_take_lt by lia. f_equal. Z.div_mod_to_equations; lia.
  - rewrite lookup_take_ge by lia. symmetry. apply lookup_take_None.
    destruct (decide (i < Z.to_nat n)%nat); [left|right; lia].
    rewrite lookup_drop. apply lookup_take_ge. lia.
Qed.

Lemma concat_lookup w bl i : (0 < w)%nat → wide w bl →
  concat bl !! i = bl !! (i / w)%nat ≫= λ b, b !! (i mod w)%nat.
Proof.
  intros Hw Hbl. revert i. induction Hbl as [|b bl Hb _ IH]; intros i; [done|]. cbn [concat].
  destruct (decide (i < w)%nat).
  - rewrite Nat.div_small, Nat.mod_small by done. cbn. apply lookup_app_l. lia.
  - rewrite lookup_app_r, IH, Hb by lia. 
    assert (i / w = Datatypes.S ((i - w) / w) ∧ i mod w = (i - w) mod w)%nat as [-> ->]; [|done].
    replace i with (i - w + 1 * w)%nat at 1 3 by lia.
    by rewrite Nat.div_add, Nat.Div0.mod_add, Nat.add_1_r by lia.
Qed.

(** Writing one block. *)
Lemma write_block h x x' k s data :
  file_wf h → ss_ok x → sectors_of h !! k = Some s → 0 ≤ s < NUM_SECTORS →
  ss_sectors x' = <[Z.to_nat s := data]> (ss_sectors x) →
  (∀ t, t ∉ sectors_of h → rd (ss_sectors x') t = rd (ss_sectors x) t) ∧
  ∀ j, blocks h (ss_sectors x') !! j
       = if decide (j = k) then Some data else blocks h (ss_sectors x) !! j.
Proof.
  intros [_ Hr Hnd] Hx Hk Hs Hsec. destruct (ss_shape x Hx) as [Hlen _]. split.
  - intros t Ht. apply (rd_wr_ne _ _ s _ data).
    + rewrite Hsec. apply wr_ok. lia.
    + intros ->. apply Ht. by eapply list_elem_of_lookup_2.
  - intros j. unfold blocks. rewrite !list_lookup_fmap, Hsec. case_decide as Hj.
    + subst j. rewrite Hk. cbn. unfold block. rewrite list_lookup_insert_eq; [done|lia].
    + destruct (sectors_of h !! j) as [s'|] eqn:E; [|done]. cbn. f_equal. unfold block.
      rewrite list_lookup_insert_ne; [done|]. rewrite Forall_lookup in Hr. specialize (Hr _ _ E).
      cbn in Hr. intros Heq. apply Hj. eapply (NoDup_lookup _ _ _ s'); [done..|].
      rewrite Hk. f_equal. lia.
Qed.

(** Writing a run of blocks from a buffer. *)
Lemma write_blocks h x n i buf :
  ss_ok x → file_wf h → 0 ≤ i → i + Z.of_nat n ≤ numSectors h → numSectors h ≤ 29 →
  length buf = (n * 128)%nat →
  ∃ x', for_loop n i
    (λ j x,
      s ← ByteToSector h (u32 (j * SECTOR_SIZE));
      data ← slice buf (u32 ((j - i) * SECTOR_SIZE)) SECTOR_SIZE;
      ss_WriteSector x s data) x = Ok x' ∧ ss_ok x' ∧
    (∀ t, t ∉ sectors_of h → rd (ss_sectors x') t = rd (ss_sectors x) t) ∧
    ∀ k, blocks h (ss_sectors x') !! k
         = if decide (Z.to_nat i ≤ k < Z.to_nat i + n)%nat
           then Some (take 128 (drop ((k - Z.to_nat i) * 128) buf))
           else blocks h (ss_sectors x) !! k.
Proof.
  intros Hx Hf Hi Hn Hm Hbuf.
  edestruct (for_loop_ind (λ j x', ss_ok x' ∧
      (∀ t, t ∉ sectors_of h → rd (ss_sectors x') t = rd (ss_sectors x) t) ∧
      ∀ k, blocks h (ss_sectors x') !! k
           = if decide (Z.to_nat i ≤ k < Z.to_nat j)%nat
             then Some (take 128 (drop ((k - Z.to_nat i) * 128) buf))
             else blocks h (ss_sectors x) !! k)) as (x' & E & Hx' & Ho & Hk).
  3: { exists x'. rewrite E. split_and!; [done..|]. intros k. rewrite Hk.
       apply decide_ext. lia. }
  { split_and!; [done..|]. intros k. by rewrite decide_False by lia. }
  intros j x1 Hj (Hx1 & Ho1 & Hk1).
  destruct (nth_sector h j Hf) as (s & -> & Hs & Hr); [lia|done|]. cbn [mbind result_bind].
  unfold SECTOR_SIZE. rewrite u32_id by width_lia.
  rewrite slice_ok by lia. cbn [mbind result_bind].
  set (data := take _ _). assert (length data = Z.to_nat SECTOR_SIZE) as Hd.
  { unfold data, SECTOR_SIZE. rewrite length_take, length_drop. lia. }
  destruct (ss_write_ok x1 s data Hx1 Hr Hd) as (x2 & -> & Hs2 & Hx2).
  destruct (write_block h x1 x2 (Z.to_nat j) s data Hf Hx1 Hs Hr Hs2) as [Ho2 Hk2].
  exists x2. split; [done|]. split_and!; [done|intros; by rewrite Ho2, Ho1|].
  intros k. rewrite Hk2, Hk1. destruct (decide (k = Z.to_nat j)) as [->|Hne].
  - rewrite decide_True by lia. f_equal. unfold data. f_equal. f_equal. lia.
  - apply decide_ext. lia.
Qed.

(** A buffer agrees with the file on a block (as far as the file goes). *)
Definition agrees (h : RawFileHeader) (secs : list (list Z)) (f : Z) (buf : list Z) (k : Z) : Prop :=
  ∀ i, k * 128 ≤ i < (k + 1) * 128 → i < numBytes h →
    buf !! Z.to_nat (i - f * 128) = raw_contents h secs !! Z.to_nat i.

Lemma read_edge h x buf f k :
  ss_ok x → file_wf h → 0 ≤ f ≤ k → k < numSectors h → k * 128 < numBytes h →
  (k - f + 1) * 128 ≤ Z.of_nat (length buf) →
  ∃ data x' buf', ReadAt h x SECTOR_SIZE (u32 (k * SECTOR_SIZE)) = Ok (data, x') ∧
    splice buf ((k - f) * SECTOR_SIZE) data = Ok buf' ∧ ss_ok x' ∧ ss_sectors x' = ss_sectors x ∧
    length buf' = length buf ∧ agrees h (ss_sectors x) f buf' k ∧
    ∀ j, f ≤ j → j ≠ k → agrees h (ss_sectors x) f buf j → agrees h (ss_sectors x) f buf' j.
Proof.
  intros Hx Hf Hfk Hk Hkb Hbuf. destruct (raw_contents_length h x Hx Hf) as (HC & Hnb & Hns).
  unfold SECTOR_SIZE. rewrite u32_id by width_lia.
  destruct (ReadAt_ok h x 128 (k * 128) Hx Hf) as (x' & -> & Hx' & Hs'); [lia..|].
  set (data := take _ _). assert (Z.of_nat (length data) = Z.min 128 (numBytes h - k * 128)) as Hd.
  { unfold data, contents. rewrite length_take, length_drop, length_take. lia. }
  destruct (splice_ok buf ((k - f) * 128) data) as (buf' & E & Hl & Hlk); [lia..|].
  exists data, x', buf'. split_and!; [done..| |].
  - intros i Hi Hib. rewrite Hlk, decide_True by lia. unfold data, contents.
    rewrite lookup_take_drop, lookup_take_lt by lia. f_equal. lia.
  - intros j Hfj Hj Hag i Hi Hib. rewrite Hlk, decide_False by lia. by apply Hag.
Qed.

Lemma read_edges_ok h x buf fa la f l :
  ss_ok x → file_wf h → 0 ≤ f ≤ l → l < numSectors h → l * 128 < numBytes h →
  Z.of_nat (length buf) = (l - f + 1) * 128 →
  ∃ buf' x', read_edges h x buf fa la f l = Ok (buf', x') ∧ ss_ok x' ∧
    ss_sectors x' = ss_sectors x ∧ length buf' = length buf ∧
    (fa = false → agrees h (ss_sectors x) f buf' f) ∧
    (la = false → agrees h (ss_sectors x) f buf' l).
Proof.
  intros Hx Hf Hfl Hl Hlb Hbuf. destruct (raw_contents_length h x Hx Hf) as (_ & _ & Hns).
  unfold read_edges.
  assert (∃ buf1 x1, (if negb fa
            then r ← ReadAt h x SECTOR_SIZE (u32 (f * SECTOR_SIZE));
                 let '(data, x) := r in buf ← splice buf 0 data; Ok (buf, x)
            else Ok (buf, x)) = Ok (buf1, x1) ∧ ss_ok x1 ∧ ss_sectors x1 = ss_sectors x ∧
            length buf1 = length buf ∧ (fa = false → agrees h (ss_sectors x) f buf1 f))
    as (buf1 & x1 & -> & Hx1 & Hs1 & Hl1 & Ha1).
  { destruct fa; cbn [negb]; [by exists buf, x|].
    destruct (read_edge h x buf f f) as (data & x1 & buf1 & -> & Hsp & Hx1 & Hs1 & Hl1 & Ha & _);
      [done|done|lia..|].
    rewrite Z.sub_diag, Z.mul_0_l in Hsp. cbn [mbind result_bind]. rewrite Hsp. by exists buf1, x1. }
  cbn [mbind result_bind]. destruct la; cbn [negb andb]; [by exists buf1, x1|].
  destruct (decide (f = l ∧ fa = false)) as [[-> ->]|Hne].
  - rewrite bool_decide_false by naive_solver. cbn [orb]. exists buf1, x1. naive_solver.
  - rewrite orb_true_intro by (destruct fa; [by right|left; apply bool_decide_true; naive_solver]).
    rewrite u32_id by (unfold SECTOR_SIZE; width_lia).
    destruct (read_edge h x1 buf1 f l) as (data & x2 & buf2 & -> & Hsp & Hx2 & Hs2 & Hl2 & Ha & Hk);
      [done|done|lia..|].
    cbn [mbind result_bind]. rewrite Hsp. cbn [mbind result_bind]. exists buf2, x2.
    rewrite Hs1 in *. split_and!; [done|done|done|lia| |done]. intros ->.
    apply Hk; [lia|naive_solver|by apply Ha1].
Qed.

(** [ReadAt] returns the slice of the file it names, cut at the end of
    the file (nothing when the position is at or behind it): every sector
    access is within the header's table and the disk, every copy within its
    buffer, and the disk is unchanged. *)
Theorem ReadAt_slice h x n pos
  (Hx : ss_ok x) (Hf : file_wf h) (Hp : 0 ≤ pos) (Hn : 0 < n) (Hw : pos + n < 2 ^ 32) :
  ∃ x', ReadAt h x n pos
    = Ok (take (Z.to_nat n) (drop (Z.to_nat pos) (contents h (ss_sectors x))), x') ∧
    ss_ok x' ∧ ss_sectors x' = ss_sectors x.
Proof. by apply ReadAt_ok. Qed.

Context (uninit : Z → list Z).
Hypothesis uninit_length : ∀ n, 0 ≤ n → length (uninit n) = Z.to_nat n.

(** The bytes of a file after a run of its blocks has been overwritten. *)
Lemma written_lookup h x x' f n (buf : list Z) i :
  ss_ok x → ss_ok x' → file_wf h → 0 ≤ f → length buf = (n * 128)%nat →
  f + Z.of_nat n ≤ numSectors h →
  (∀ k, blocks h (ss_sectors x') !! k
        = if decide (Z.to_nat f ≤ k < Z.to_nat f + n)%nat
          then Some (take 128 (drop ((k - Z.to_nat f) * 128) buf))
          else blocks h (ss_sectors x) !! k) →
  raw_contents h (ss_sectors x') !! i
  = if decide (Z.to_nat f * 128 ≤ i < (Z.to_nat f + n) * 128)%nat
    then buf !! (i - Z.to_nat f * 128)%nat else raw_contents h (ss_sectors x) !! i.
Proof.
  intros Hx Hx' Hf Hf0 Hbuf Hn Hk. unfold raw_contents.
  rewrite !(concat_lookup 128) by (lia || by apply blocks_wide). rewrite Hk.
  pose proof (Nat.div_mod_eq i 128) as Hdm. pose proof (Nat.mod_upper_bound i 128) as Hub.
  destruct (decide (Z.to_nat f ≤ i `div` 128 < Z.to_nat f + n)%nat).
  - rewrite decide_True by lia. cbn [mbind option_bind]. rewrite lookup_take_drop by lia. f_equal. lia.
  - rewrite decide_False by lia. done.
Qed.

Lemma WriteAt_ok h x from n pos :
  ss_ok x → file_wf h → 0 ≤ pos < numBytes h → 0 < n → pos + n < 2 ^ 32 →
  n ≤ Z.of_nat (length from) →
  let n' := Z.min n (numBytes h - pos) in
  ∃ x', WriteAt uninit h x from n pos = Ok (n', x') ∧ ss_ok x' ∧
    (∀ t, t ∉ sectors_of h → rd (ss_sectors x') t = rd (ss_sectors x) t) ∧
    (∀ i, 0 ≤ i < numBytes h →
      raw_contents h (ss_sectors x') !! Z.to_nat i
      = if decide (pos ≤ i < pos + n') then from !! Z.to_nat (i - pos)
        else raw_contents h (ss_sectors x) !! Z.to_nat i).
Proof.
  intros Hx Hf Hp Hn Hw Hfrom n'. destruct (raw_contents_length h x Hx Hf) as (HC & Hnb & Hns).
  unfold WriteAt. rewrite bool_decide_true by lia. cbn [ASSERT mbind result_bind].
  unfold FileLength. rewrite check_request_ok by lia. cbn zeta iota beta. fold n'.
  set (f := pos / 128). set (l := (pos + n' - 1) / 128).
  assert (0 ≤ f ≤ l ∧ f * 128 ≤ pos < (f + 1) * 128 ∧ l * 128 < pos + n' ≤ (l + 1) * 128)
    as (Hfl & Hfp & Hlp) by (unfold f, l; Z.div_mod_to_equations; lia).
  assert (l < numSectors h) by lia. unfold SECTOR_SIZE. clearbody f l.
  rewrite !u32_id by width_lia.
  destruct (read_edges_ok h x (uninit ((1 + l - f) * 128)) (bool_decide (pos = f * 128))
    (bool_decide (pos + n' = (l + 1) * 128)) f l Hx Hf) as (buf & x1 & -> & Hx1 & Hs1 & Hb & Ha1 & Ha2);
    [lia|lia|lia|rewrite uninit_length; lia|].
  rewrite uninit_length in Hb by lia. cbn [mbind result_bind].
  rewrite slice_ok by lia. cbn [mbind result_bind]. rewrite drop_0.
  destruct (splice_ok buf (pos - f * 128) (take (Z.to_nat n') from)) as (buf' & -> & Hb' & Hlk);
    [lia|rewrite length_take; lia|]. cbn [mbind result_bind]. rewrite length_take in Hlk.
  destruct (write_blocks h x1 (span f (l + 1)) f buf' Hx1 Hf) as (x' & E & Hx' & Ho & Hk);
    [lia|unfold span; lia|lia|unfold span; lia|].
  unfold SECTOR_SIZE in E. rewrite E. cbn [mbind result_bind]. exists x'. rewrite Hs1 in *.
  split_and!; [done..|]. intros i Hi.
  rewrite (written_lookup h x1 x' f (span f (l + 1)) buf') by (done || unfold span in *; rewrite ?Hs1; (lia || done)).
  rewrite Hs1. unfold span. destruct (decide (pos ≤ i < pos + n')) as [Hin|Hout].
  - rewrite decide_True by lia. rewrite Hlk, decide_True by lia.
    rewrite lookup_take_lt by lia. f_equal. lia.
  - destruct (decide (_ ≤ Z.to_nat i < _)%nat); [|done]. rewrite Hlk, decide_False by lia.
    replace (Z.to_nat i - Z.to_nat f * 128)%nat with (Z.to_nat (i - f * 128)) by lia.
    destruct (decide (i < pos)).
    + apply Ha1; [apply bool_decide_eq_false; lia|lia|lia].
    + apply Ha2; [apply bool_decide_eq_false; lia|lia|lia].
Qed.

(** The bytes of a file after [WriteAt]. *)
Lemma WriteAt_contents h x x' from n' pos :
  ss_ok x → ss_ok x' → file_wf h → 0 ≤ pos → 0 ≤ n' ≤ Z.of_nat (length from) →
  pos + n' ≤ numBytes h →
  (∀ i, 0 ≤ i < numBytes h →
      raw_contents h (ss_sectors x') !! Z.to_nat i
      = if decide (pos ≤ i < pos + n') then from !! Z.to_nat (i - pos)
        else raw_contents h (ss_sectors x) !! Z.to_nat i) →
  splice (contents h (ss_sectors x)) pos (take (Z.to_nat n') from)
  = Ok (contents h (ss_sectors x')).
Proof.
  intros Hx Hx' Hf Hp Hn Hle Hi. destruct (raw_contents_length h x Hx Hf) as (HC & Hnb & _).
  destruct (raw_contents_length h x' Hx' Hf) as (HC' & _).
  assert (Z.of_nat (length (contents h (ss_sectors x))) = numBytes h) as Hl
    by (unfold contents; rewrite length_take; lia).
  destruct (splice_ok (contents h (ss_sectors x)) pos (take (Z.to_nat n') from))
    as (C & -> & HlC & Hlk); [lia|rewrite length_take; lia|].
  f_equal. apply list_eq. intros i. destruct (decide (Z.of_nat i < numBytes h)).
  - rewrite Hlk. unfold contents. rewrite !(lookup_take_lt (raw_contents _ _)) by lia.
    specialize (Hi (Z.of_nat i)). rewrite Nat2Z.id in Hi. rewrite Hi by lia. rewrite length_take.
    destruct (decide (pos ≤ Z.of_nat i < pos + n')).
    + rewrite decide_True by lia. rewrite lookup_take_lt by lia. f_equal. lia.
    + by rewrite decide_False by lia.
  - rewrite !lookup_ge_None_2; [done| |lia]. unfold contents. rewrite length_take. lia.
Qed.

(** [WriteAt] replaces exactly the bytes it names, up to the end of the
    file, whatever the alignment of the request and the contents of the
    uninitialised buffer; bytes of the file outside the range, and every
    sector that does not belong to the file, keep their values; and the count
    it returns is the number of bytes replaced. *)
Theorem WriteAt_splice h x from n pos
  (Hx : ss_ok x) (Hf : file_wf h) (Hp : 0 ≤ pos) (Hn : 0 < n) (Hw : pos + n < 2 ^ 32)
  (Hfrom : n ≤ Z.of_nat (length from)) :
  let n' := Z.max 0 (Z.min n (numBytes h - pos)) in
  ∃ x', WriteAt uninit h x from n pos = Ok (n', x') ∧ ss_ok x' ∧
    (pos < numBytes h → splice (contents h (ss_sectors x)) pos (take (Z.to_nat n') from)
      = Ok (contents h (ss_sectors x'))) ∧
    (numBytes h ≤ pos → x' = x) ∧
    (∀ t, t ∉ sectors_of h → rd (ss_sectors x') t = rd (ss_sectors x) t).
Proof.
  intros n'. destruct (decide (pos < numBytes h)) as [Hlt|Hge].
  - destruct (WriteAt_ok h x from n pos) as (x' & E & Hx' & Ho & Hi); [done|done|lia..|].
    replace (Z.min n (numBytes h - pos)) with n' in * by lia.
    exists x'. split_and!; [done|done| |lia|done]. intros _. apply WriteAt_contents; try done; lia.
  - exists x. unfold WriteAt, check_request, FileLength. rewrite (bool_decide_true (n > 0)) by lia.
    cbn [ASSERT mbind result_bind]. rewrite bool_decide_true by lia.
    replace n' with 0 by lia. split_and!; [done|done|lia|done|done].
Qed.
End At.

(** A file of 300 bytes in the sectors 7, 2 and 9 of a zeroed disk. *)
Definition demo_header : RawFileHeader := mkHeader 300 3 (7 :: 2 :: 9 :: replicate 26 0) 0.

Lemma demo_file_wf : file_wf demo_header.
Proof.
  split; [split; [reflexivity|vm_compute; split; congruence|reflexivity|..]|..].
  - repeat constructor; vm_compute; congruence.
  - vm_compute; split; congruence.
  - repeat constructor; vm_compute; congruence.
  - change (NoDup [7; 2; 9]). by apply (bool_decide_unpack _).
Qed.

Lemma ReadAt_slice_witness :
  ∃ x', ReadAt demo_header blank_disk 200 120
    = Ok (take 200 (drop 120 (contents demo_header (ss_sectors blank_disk))), x').
Proof.
  destruct (ReadAt_slice demo_header blank_disk 200 120) as (x' & E & _);
    [exact blank_disk_ok|exact demo_file_wf|lia..|]. exists x'. exact E.
Defined.

Lemma WriteAt_splice_witness :
  ∃ x', WriteAt (λ n, replicate (Z.to_nat n) 255) demo_header blank_disk (replicate 200 1) 200 120
      = Ok (180, x') ∧
    splice (contents demo_header (ss_sectors blank_disk)) 120 (replicate 180 1)
      = Ok (contents demo_header (ss_sectors x')).
Proof.
  destruct (WriteAt_splice (λ n, replicate (Z.to_nat n) 255) (λ n _, length_replicate _ _)
    demo_header blank_disk (replicate 200 1) 200 120)
    as (x' & E & _ & Hc & _); [exact blank_disk_ok|exact demo_file_wf|lia..|cbn; lia|].
  exists x'. split; [exact E|]. apply Hc. reflexivity.
Defined.
