(* ===== verification/ReadWrite.v ===== *)
(** * [filesys/open_file.cc]: files with a position

    The constructor and destructor of [OpenFile] with the table of open files
    ([openFilesTable] of [threads/system.hh]), [Seek], [Length], and [Read] and
    [Write], which follow and extend the chain of headers of a file.  [Write]
    fetches the bitmap of free sectors from its file and writes it back; its
    three phases (the current header, the rest of the chain, new headers) are
    the definitions [Write_current], [Write_chain] and [Write_extend].

    The operations are those of one thread between its lock operations; a lock
    is present only as a pointer, so that using a null or deleted lock is an
    error.  The branches for host files ([isBin]) are the module [Bin]. *)

From S2P Require Import Prelude Bitmap Disk FileHeader OpenFile.
From stdpp Require Import base option list gmap numbers tactics.
From stdpp Require Import list.
Open Scope Z_scope.

(** ** The table of open files *)
Inductive lock_ptr := LNull | LLive | LDeleted.

#[export] Instance lock_ptr_eq_dec : EqDecision lock_ptr.
Proof. solve_decision. Defined.

Record OpenFileEntry := mkEntry {
  count : Z;
  removing : bool;
  removed : bool;
  writeLock : lock_ptr;
  removeLock : lock_ptr;
  closeLock : lock_ptr;
  removerSpaceId : Z
}.

(** The entries made by [Initialize] of [threads/system.cc], which leaves
    [removerSpaceId] unset. *)
Definition initial_entry (garbage : Z) : OpenFileEntry :=
  mkEntry 0 false false LNull LNull LNull garbage.

(** [Acquire] or [Release] through a pointer. *)
Definition use_lock (p : lock_ptr) : result unit :=
  match p with LLive => Ok tt | _ => Err NullPointer end.

(** The part of the constructor that registers the file. *)
Definition entry_open (e : OpenFileEntry) : OpenFileEntry :=
  let e := if bool_decide (count e = 0) then
      mkEntry (count e) (removing e) (removed e) LLive
        (match removeLock e with LNull => LLive | p => p end)
        (match closeLock e with LNull => LLive | p => p end) (removerSpaceId e)
    else e in
  mkEntry (s32 (count e + 1)) (removing e) (removed e) (writeLock e) (removeLock e) (closeLock e)
    (removerSpaceId e).

(** The destructor's effect on the table, and the remover it sends a message
    to, if any; [running id] is [runningProcesses->HasKey(id)]. *)
Definition entry_close (running : Z → bool) (e : OpenFileEntry)
  : result (OpenFileEntry * option Z) :=
  _ ← use_lock (closeLock e);
  if bool_decide (count e > 0) then
    let e := mkEntry (count e - 1) (removing e) (removed e) (writeLock e) (removeLock e)
               (closeLock e) (removerSpaceId e) in
    if bool_decide (count e = 0) then
      let msg := if removing e then
          (if running (removerSpaceId e) then Some (removerSpaceId e) else None) else None in
      Ok (mkEntry (count e) (removing e) (removed e) LDeleted (removeLock e) (closeLock e)
            (removerSpaceId e), msg)
    else Ok (e, None)
  else Ok (e, None).

(** ** Operations *)
Section Files.
Context {S : Type} `{SectorStore S}.
Context (uninit : Z → list Z).

(** [new OpenFile(sector)]. *)
Definition new_OpenFile (t : list OpenFileEntry) (x : S) (sec : Z)
  : result (OpenFile * list OpenFileEntry * S) :=
  r ← FetchFrom x sec;
  let '(h, x) := r in
  e ← rd t sec;
  t ← wr t sec (entry_open e);
  Ok (mkOpenFile h sec 0 sec, t, x).

(** [~OpenFile()], which [Close] calls. *)
Definition close_OpenFile (running : Z → bool) (t : list OpenFileEntry) (f : OpenFile)
  : result (list OpenFileEntry * option Z) :=
  e ← rd t (sector f);
  r ← entry_close running e;
  let '(e, msg) := r in
  t ← wr t (sector f) e;
  Ok (t, msg).

Definition set_hdr (f : OpenFile) (h : RawFileHeader) : OpenFile :=
  mkOpenFile h (currentSector f) (seekPosition f) (sector f).
Definition set_seek (f : OpenFile) (p : Z) : OpenFile :=
  mkOpenFile (hdr f) (currentSector f) p (sector f).
Definition set_current (f : OpenFile) (s : Z) : OpenFile :=
  mkOpenFile (hdr f) s (seekPosition f) (sector f).

Definition Seek (f : OpenFile) (position : Z) : OpenFile := set_seek f position.
Definition Length (f : OpenFile) : Z := FileLength (hdr f).
Definition GetSector (f : OpenFile) : Z := sector f.

(** The loop [while (nextSector && numBytes > 0)] of [Read]; [into] is what has
    been read so far, [fuel] bounds the number of headers visited. *)
Fixpoint Read_chain (fuel : nat) (f : OpenFile) (x : S) (nextSector numBytes : Z) (into : list Z)
  : result (list Z * OpenFile * S) :=
  if bool_decide (nextSector ≠ 0) && bool_decide (numBytes > 0) then
    match fuel with
    | O => Err OutOfFuel
    | Datatypes.S fuel =>
        r ← FetchFrom x nextSector;
        let '(h, x) := r in
        let f := set_hdr (set_seek f 0) h in
        r ← ReadAt h x numBytes (seekPosition f);
        let '(bs, x) := r in
        let result_tmp := Z.of_nat (length bs) in
        let f := set_seek f (u32 (seekPosition f + result_tmp)) in
        Read_chain fuel f x (nextFileHeader h) (u32 (numBytes - result_tmp)) (into ++ bs)
    end
  else Ok (into, f, x).

(** Returns the bytes put into [into]; their number is the [int] result. *)
Definition Read (fuel : nat) (f : OpenFile) (x : S) (numBytes : Z) (isDirectory : bool)
  : result (list Z * OpenFile * S) :=
  _ ← ASSERT (bool_decide (numBytes > 0));
  r ← (if isDirectory then
         r ← FetchFrom x (sector f);
         let '(h, x) := r in
         Ok (set_seek (set_hdr f h) 0, x)
       else Ok (f, x));
  let '(f, x) := r in
  r ← ReadAt (hdr f) x numBytes (seekPosition f);
  let '(bs, x) := r in
  let result := Z.of_nat (length bs) in
  let f' := set_seek f (u32 (seekPosition f + result)) in
  if bool_decide (u32 (seekPosition f + numBytes) > FileHeader.numBytes (hdr f)) then
    Read_chain fuel f' x (nextFileHeader (hdr f)) (u32 (numBytes - result)) bs
  else Ok (bs, f', x).

(** ** The bitmap in its file *)
Definition Bitmap_FetchFrom (b : Bitmap) (file : OpenFile) (x : S) : result (Bitmap * S) :=
  r ← ReadAt (hdr file) x (numWords b * 4) 0;
  let '(bs, x) := r in
  Ok (FetchFrom_bytes b (bs ++ drop (length bs) (words_bytes (Bitmap.map b))), x).

Definition Bitmap_WriteBack (b : Bitmap) (file : OpenFile) (x : S) : result S :=
  r ← WriteAt uninit (hdr file) x (WriteBack_bytes b) (numWords b * 4) 0;
  let '(_, x) := r in Ok x.

(** [new Bitmap(NUM_SECTORS)] followed by [FetchFrom]. *)
Definition load_freeMap (freeMapFile : OpenFile) (x : S) : result (Bitmap * S) :=
  b ← new_Bitmap NUM_SECTORS (bytes_words 32 (uninit 128));
  Bitmap_FetchFrom b freeMapFile x.

(** ** [Write]

    The local variables of [Write] and the object it works on. *)
Record wstate := mkW {
  w_file : OpenFile;
  w_disk : S;
  w_map : Bitmap;
  w_from : list Z;       (* the bytes [from] points to *)
  w_numBytes : Z;
  w_result : Z
}.

(** "Updating data" after [WriteAt]. *)
Definition advance (w : wstate) (f : OpenFile) (x : S) (result_tmp : Z) : wstate :=
  mkW (set_seek f (u32 (seekPosition f + result_tmp))) x (w_map w)
    (drop (Z.to_nat result_tmp) (w_from w))
    (u32 (w_numBytes w - result_tmp)) (s32 (w_result w + result_tmp)).

(** Write [n] bytes at [seekPosition] through the current header. *)
Definition write_out (w : wstate) (n : Z) : result wstate :=
  r ← WriteAt uninit (hdr (w_file w)) (w_disk w) (w_from w) n (seekPosition (w_file w));
  let '(result_tmp, x) := r in
  Ok (advance w (w_file w) x result_tmp).

(** [hdr->Allocate], and on success the write back of the map and of the header
    to [sec]; the [bool] is [success]. *)
Definition allocate_and_flush (freeMapFile : OpenFile) (w : wstate) (bytesToAllocate sec : Z)
  : result (bool * wstate) :=
  r ← Allocate (hdr (w_file w)) (w_map w) bytesToAllocate;
  let '(success, h, b) := r in
  let w := mkW (set_hdr (w_file w) h) (w_disk w) b (w_from w) (w_numBytes w) (w_result w) in
  if (success : bool) then
    x ← Bitmap_WriteBack b freeMapFile (w_disk w);
    x ← WriteBack h x sec;
    Ok (true, mkW (w_file w) x b (w_from w) (w_numBytes w) (w_result w))
  else Ok (false, w).

Definition HEADER_CAPACITY : Z := NUM_DIRECT * SECTOR_SIZE.

(** The part of [Write] for the current header; [false] is the early return. *)
Definition Write_current (freeMapFile : OpenFile) (w : wstate) : result (bool * wstate) :=
  let f := w_file w in
  let maxBytesToWrite := u32 (HEADER_CAPACITY - seekPosition f) in
  let bytesToWrite := if bool_decide (w_numBytes w > maxBytesToWrite)
                      then maxBytesToWrite else w_numBytes w in
  if bool_decide (bytesToWrite > 0) then
    r ← (if bool_decide (u32 (seekPosition f + bytesToWrite) > numBytes (hdr f)) then
           allocate_and_flush freeMapFile w
             (u32 (u32 (seekPosition f + bytesToWrite) - numBytes (hdr f))) (currentSector f)
         else Ok (true, w));
    let '(success, w) := r in
    if (success : bool) then w ← write_out w bytesToWrite; Ok (true, w) else Ok (false, w)
  else Ok (true, w).

(** "Travel the list of fileheaders if necessary and it exists". *)
Fixpoint Write_chain (fuel : nat) (freeMapFile : OpenFile) (w : wstate) (iterFh : Z)
  : result (bool * wstate) :=
  if bool_decide (w_numBytes w > 0) && bool_decide (iterFh ≠ 0) then
    match fuel with
    | O => Err OutOfFuel
    | Datatypes.S fuel =>
        r ← FetchFrom (w_disk w) iterFh;
        let '(h, x) := r in
        let w := mkW (set_hdr (w_file w) h) x (w_map w) (w_from w) (w_numBytes w) (w_result w) in
        let bytesToWrite := if bool_decide (w_numBytes w > HEADER_CAPACITY)
                            then HEADER_CAPACITY else w_numBytes w in
        r ← (if bool_decide (bytesToWrite > numBytes h) then
               allocate_and_flush freeMapFile w (u32 (bytesToWrite - numBytes h)) iterFh
             else Ok (true, w));
        let '(success, w) := r in
        if (success : bool) then
          let w := mkW (set_seek (set_current (w_file w) iterFh) 0) (w_disk w) (w_map w)
                     (w_from w) (w_numBytes w) (w_result w) in
          w ← write_out w bytesToWrite;
          Write_chain fuel freeMapFile w (nextFileHeader (hdr (w_file w)))
        else Ok (false, w)
    end
  else Ok (true, w).
(** [new FileHeader] with the three counters set to zero. *)
Definition fresh_header : RawFileHeader := empty_header (bytes_words 29 (uninit 116)).

(** The sectors for the new headers: [sectors[i] = freeMap->Find()], with the
    map flushed each time. *)
Definition find_header_sectors (freeMapFile : OpenFile) (b : Bitmap) (x : S) (n : Z)
  : result (list Z * Bitmap * S) :=
  for_loop (span 0 n) 0
    (λ _ '(secs, b, x),
      r ← Find b;
      let '(sec, b) := r in
      x ← Bitmap_WriteBack b freeMapFile x;
      Ok (secs ++ [sec], b, x)) ([], b, x).

(** The loop [while (allocatedFileHeaders < fileHeaderSectors && success)].  The
    header of the object is always [previousFileHeader] when an iteration
    starts.  Returns [success] and [allocatedFileHeaders]. *)
Fixpoint extend_loop (n : nat) (freeMapFile : OpenFile) (w : wstate) (secs : list Z)
    (allocatedFileHeaders : Z) : result (bool * Z * wstate) :=
  match n with
  | O => Ok (true, allocatedFileHeaders, w)
  | Datatypes.S n =>
      let bytesToAllocate := if bool_decide (w_numBytes w < HEADER_CAPACITY)
                             then w_numBytes w else HEADER_CAPACITY in
      c ← CountClear (w_map w);
      let bytesToAllocate := if bool_decide (c < DivRoundUp bytesToAllocate SECTOR_SIZE)
                             then u32 (c * SECTOR_SIZE) else bytesToAllocate in
      r ← (if bool_decide (bytesToAllocate > 0)
           then Allocate fresh_header (w_map w) bytesToAllocate
           else Ok (false, fresh_header, w_map w));
      let '(success, newFileHeader, b) := r in
      if (success : bool) then
        x ← Bitmap_WriteBack b freeMapFile (w_disk w);
        sec ← rd secs allocatedFileHeaders;
        x ← WriteBack newFileHeader x (u32 sec);
        let prev := hdr (w_file w) in
        let prev := mkHeader (numBytes prev) (numSectors prev) (dataSectors prev) (u32 sec) in
        prevSec ← rd secs (allocatedFileHeaders - 1);
        x ← WriteBack prev x (u32 prevSec);
        let w := mkW (set_hdr (set_seek (w_file w) 0) newFileHeader) x b
                   (w_from w) (w_numBytes w) (w_result w) in
        w ← write_out w bytesToAllocate;
        extend_loop n freeMapFile w secs (allocatedFileHeaders + 1)
      else Ok (false, allocatedFileHeaders,
               mkW (w_file w) (w_disk w) b (w_from w) (w_numBytes w) (w_result w))
  end.

(** "a new file header is needed": the part of [Write] that appends headers. *)
Definition Write_extend (freeMapFile : OpenFile) (w : wstate) : result wstate :=
  let totalSectors := DivRoundUp (w_numBytes w) SECTOR_SIZE in
  let fileHeaderSectors := DivRoundUp totalSectors NUM_DIRECT in
  c ← CountClear (w_map w);
  if bool_decide (c < fileHeaderSectors) then Ok w
  else
    r ← find_header_sectors freeMapFile (w_map w) (w_disk w) fileHeaderSectors;
    let '(secs, b, x) := r in
    let bytesToAllocate := if bool_decide (w_numBytes w < HEADER_CAPACITY)
                           then w_numBytes w else HEADER_CAPACITY in
    r ← Allocate fresh_header b bytesToAllocate;
    let '(success, firstHeader, b) := r in
    if (success : bool) then
      x ← Bitmap_WriteBack b freeMapFile x;
      sec0 ← rd secs 0;
      x ← WriteBack firstHeader x (u32 sec0);
      let old := hdr (w_file w) in
      x ← WriteBack (mkHeader (numBytes old) (numSectors old) (dataSectors old) (u32 sec0)) x
            (currentSector (w_file w));
      let w := mkW (set_seek (set_hdr (w_file w) firstHeader) 0) x b
                 (w_from w) (w_numBytes w) (w_result w) in
      w ← write_out w bytesToAllocate;
      r ← extend_loop (span 1 fileHeaderSectors) freeMapFile w secs 1;
      let '(success, allocatedFileHeaders, w) := r in
      b ← (if (success : bool) then Ok (w_map w)
           else for_loop (span allocatedFileHeaders fileHeaderSectors) allocatedFileHeaders
                  (λ i b, sec ← rd secs i; Clear b (u32 sec)) (w_map w));
      last ← rd secs (allocatedFileHeaders - 1);
      Ok (mkW (set_current (w_file w) last) (w_disk w) b (w_from w) (w_numBytes w) (w_result w))
    else Ok (mkW (w_file w) x b (w_from w) (w_numBytes w) (w_result w)).

(** Returns the result, the object and the disk.  [t] is the table of open
    files. *)
Definition Write (fuel : nat) (t : list OpenFileEntry) (freeMapFile f : OpenFile) (x : S)
    (from : list Z) (numBytes : Z) (isDirectory : bool) : result (Z * OpenFile * S) :=
  _ ← ASSERT (bool_decide (numBytes > 0));
  e ← rd t (sector f);
  _ ← use_lock (writeLock e);
  let f := if isDirectory then set_current (set_seek f 0) (sector f) else f in
  r ← FetchFrom x (currentSector f);
  let '(h, x) := r in
  let f := set_hdr f h in
  r ← load_freeMap freeMapFile x;
  let '(freeMap, x) := r in
  r ← Write_current freeMapFile (mkW f x freeMap from numBytes 0);
  let '(go, w) := r in
  if (go : bool) then
    r ← Write_chain fuel freeMapFile w (nextFileHeader (hdr (w_file w)));
    let '(go, w) := r in
    if (go : bool) then
      w ← (if bool_decide (w_numBytes w > 0) then Write_extend freeMapFile w else Ok w);
      Ok (w_result w, w_file w, w_disk w)
    else Ok (w_result w, w_file w, w_disk w)
  else Ok (w_result w, w_file w, w_disk w).
End Files.

(** ** Reading along the chain *)
Section ReadSpec.
Context {S : Type} `{SectorStoreSpec S}.

(** The headers that follow sector [s] (0 ends the chain). *)
Inductive chain (secs : list (list Z)) : Z → list RawFileHeader → Prop :=
| chain_nil : chain secs 0 []
| chain_cons s bs h hs :
    0 < s < NUM_SECTORS → rd secs s = Ok bs → h = header_of_bytes bs → file_wf h →
    chain secs (nextFileHeader h) hs → chain secs s (h :: hs).

Definition chain_contents (secs : list (list Z)) (hs : list RawFileHeader) : list Z :=
  concat ((λ h, contents h secs) <$> hs).

Lemma contents_length h x : ss_ok x → file_wf h →
  Z.of_nat (length (contents h (ss_sectors x))) = numBytes h.
Proof.
  intros Hx Hf. destruct (raw_contents_length h x Hx Hf) as (HC & Hnb & _).
  destruct Hf as [[_ Hb _ _ _] _ _]. unfold contents. rewrite length_take. lia.
Qed.

Lemma FetchFrom_ok x s : ss_ok x → 0 ≤ s < NUM_SECTORS →
  ∃ bs x', FetchFrom x s = Ok (header_of_bytes bs, x') ∧ rd (ss_sectors x) s = Ok bs ∧
    ss_ok x' ∧ ss_sectors x' = ss_sectors x.
Proof.
  intros Hx Hs. destruct (ss_read_ok x s Hx Hs) as (v & x' & E & Hv & Hs' & Hx').
  exists v, x'. unfold FetchFrom. by rewrite E.
Qed.

(** What is left to read of a file whose header is in [f], with the headers
    [hs] after it. *)
Definition remaining (secs : list (list Z)) (f : OpenFile) (hs : list RawFileHeader) : list Z :=
  drop (Z.to_nat (seekPosition f)) (contents (hdr f) secs) ++ chain_contents secs hs.

(** The file object [f'] after [n] bytes were read with [f]. *)
Record advanced (secs : list (list Z)) (f : OpenFile) (hs : list RawFileHeader) (n : Z) (f' : OpenFile)
    (hs' : list RawFileHeader) : Prop := {
  ad_chain : chain secs (nextFileHeader (hdr f')) hs';
  ad_wf : file_wf (hdr f');
  ad_seek : 0 ≤ seekPosition f' ≤ Z.max (seekPosition f) (NUM_DIRECT * SECTOR_SIZE);
  ad_rest : remaining secs f' hs' = drop (Z.to_nat n) (remaining secs f hs);
  ad_length : (length hs' ≤ length hs)%nat;
  ad_sector : sector f' = sector f ∧ currentSector f' = currentSector f
}.

Lemma Read_chain_ok secs hs : ∀ s fuel f x n into, chain secs s hs → ss_ok x → ss_sectors x = secs →
  (length hs ≤ fuel)%nat → 0 ≤ n < 2 ^ 32 → file_wf (hdr f) → nextFileHeader (hdr f) = s → numBytes (hdr f) ≤ seekPosition f →
  ∃ f' x' hs', Read_chain fuel f x s n into
    = Ok (into ++ take (Z.to_nat n) (chain_contents secs hs), f', x') ∧
    ss_ok x' ∧ ss_sectors x' = secs ∧ advanced secs f hs n f' hs'.
Proof.
  induction hs as [|h hs IH]; intros s fuel f x n into Hch Hx Hsec Hfuel Hn Hff Hnf Hend.
  all: assert (0 ≤ numBytes (hdr f)) as Hnn by apply Hff.
  all: assert (drop (Z.to_nat (seekPosition f)) (contents (hdr f) secs) = []) as Hdone
    by (pose proof (contents_length (hdr f) x Hx Hff) as Hl; rewrite Hsec in Hl; apply drop_ge; lia).
  { assert (s = 0) as -> by (by inversion Hch). exists f, x, []. change (chain_contents secs []) with (@nil Z). rewrite take_nil, app_nil_r.
    assert (Read_chain fuel f x 0 n into = Ok (into, f, x)) as -> by (by destruct fuel). split_and!; [done..|].
    split; [by rewrite Hnf|done|lia| |done|done]. unfold remaining. rewrite Hdone.
    change (chain_contents secs []) with (@nil Z). cbn [app]. symmetry. apply drop_nil. }
  inversion Hch as [|s' bs h' hs' Hs Hbs Hh Hf Hch']; subst s' h' hs'.
  destruct fuel as [|fuel]; [cbn in Hfuel; lia|]. cbn [Read_chain length] in *.
  rewrite (bool_decide_true (s ≠ 0)) by lia. case_bool_decide as Hpos; cbn [andb].
  2: { exists f, x, (h :: hs). replace n with 0 by lia. cbn [Z.to_nat take drop]. rewrite app_nil_r.
       split_and!; [done..|]. split; [by rewrite Hnf|done|lia|done|done|done]. }
  destruct (FetchFrom_ok x s Hx) as (v & x1 & -> & Hv & Hx1 & Hs1); [lia|].
  cbn [mbind result_bind]. rewrite Hsec, Hbs in Hv. injection Hv as <-. rewrite <-Hh.
  destruct (ReadAt_ok h x1 n 0 Hx1 Hf) as (x2 & E2 & Hx2 & Hs2); [lia..|].
  cbn [seekPosition set_hdr set_seek]. rewrite E2. cbn [mbind result_bind].
  pose proof (contents_length h x1 Hx1 Hf) as Hcl. rewrite Hs1, Hsec in *.
  change (drop (Z.to_nat 0) (contents h secs)) with (contents h secs).
  pose proof (hw_bytes _ (fw_hdr _ Hf)) as Hcap. change (NUM_DIRECT * SECTOR_SIZE) with 3712 in Hcap.
  assert (chain_contents secs (h :: hs) = contents h secs ++ chain_contents secs hs) as Hcc by done.
  set (C := contents h secs) in *. rewrite length_take.
  set (k := Z.of_nat (Z.to_nat n `min` length C)). assert (k = Z.min n (numBytes h)) as Hk by lia.
  rewrite !u32_id by width_lia. set (f1 := set_seek (set_hdr (set_seek f 0) h) (0 + k)).
  destruct (decide (n < numBytes h)) as [Hlt|Hge].
  - replace (n - k) with 0 by lia. exists f1, x2, hs.
    assert (Read_chain fuel f1 x2 (nextFileHeader h) 0 (into ++ take (Z.to_nat n) C) = Ok (into ++ take (Z.to_nat n) C, f1, x2)) as ->
      by (destruct fuel; cbn; by rewrite andb_false_r).
    rewrite Hcc, take_app_le by lia. split_and!; [done|done|congruence|].
    split; [done|done|cbn [seekPosition set_seek f1]; change (NUM_DIRECT * SECTOR_SIZE) with 3712; lia| |cbn; lia|done].
    unfold remaining. rewrite Hdone, Hcc. cbn [app seekPosition hdr set_seek set_hdr f1]. fold C.
    rewrite drop_app_le by lia. do 2 f_equal. lia.
  - destruct (IH (nextFileHeader h) fuel f1 x2 (n - k) (into ++ take (Z.to_nat n) C)) as (f' & x' & hs' & -> & Hx' & Hs' & Ha);
      [done|done|congruence|lia|lia|done|done|change (numBytes h ≤ 0 + k); lia|].
    exists f', x', hs'. rewrite Hcc. split_and!; [|done|done|].
    + do 3 f_equal. rewrite <-app_assoc. f_equal. rewrite take_app, (take_ge C) by lia. do 2 f_equal. lia.
    + destruct Ha as [Ha1 Ha2 Ha3 Ha4 Ha5 Ha6]. change (seekPosition f1) with (0 + k) in Ha3. change (NUM_DIRECT * SECTOR_SIZE) with 3712 in *.
      split; [done|done|change (NUM_DIRECT * SECTOR_SIZE) with 3712; lia| |cbn; lia|done].
      rewrite Ha4. unfold remaining. rewrite Hdone, Hcc. cbn [app seekPosition hdr set_seek set_hdr f1]. fold C.
      rewrite (drop_ge C), app_nil_l, drop_app_ge by lia. f_equal. lia.
Qed.

Lemma Read_advances fuel f x hs n
  (Hx : ss_ok x) (Hf : file_wf (hdr f)) (Hch : chain (ss_sectors x) (nextFileHeader (hdr f)) hs)
  (Hseek : 0 ≤ seekPosition f) (Hn : 0 < n) (Hw : seekPosition f + n < 2 ^ 32)
  (Hfuel : (length hs ≤ fuel)%nat) :
  ∃ f' x' hs', Read fuel f x n false = Ok (take (Z.to_nat n) (remaining (ss_sectors x) f hs), f', x') ∧
    ss_ok x' ∧ ss_sectors x' = ss_sectors x ∧ advanced (ss_sectors x) f hs n f' hs'.
Proof.
  unfold Read. rewrite bool_decide_true by lia. cbn [ASSERT mbind result_bind].
  destruct (ReadAt_ok (hdr f) x n (seekPosition f) Hx Hf) as (x1 & -> & Hx1 & Hs1); [lia..|].
  cbn [mbind result_bind]. pose proof (contents_length (hdr f) x Hx Hf) as Hcl. unfold remaining.
  pose proof (hw_bytes _ (fw_hdr _ Hf)) as Hcap. change (NUM_DIRECT * SECTOR_SIZE) with 3712 in Hcap.
  rewrite (u32_id (seekPosition f + n)) by width_lia.
  set (R := drop (Z.to_nat (seekPosition f)) (contents (hdr f) (ss_sectors x))).
  assert (Z.of_nat (length R) = Z.max 0 (numBytes (hdr f) - seekPosition f)) as HR by (unfold R; rewrite length_drop; lia).
  rewrite length_take. set (k := Z.of_nat (Z.to_nat n `min` length R)). assert (k = Z.min n (Z.of_nat (length R))) as Hk by lia.
  rewrite !u32_id by width_lia. set (f1 := set_seek f (seekPosition f + k)).
  assert (Hrem : remaining (ss_sectors x) f1 hs = drop (Z.to_nat k) R ++ chain_contents (ss_sectors x) hs).
  { unfold remaining. cbn [seekPosition hdr set_seek f1]. unfold R. rewrite drop_drop. do 2 f_equal. lia. }
  case_bool_decide as Hend.
  - destruct (Read_chain_ok (ss_sectors x) hs (nextFileHeader (hdr f)) fuel f1 x1 (n - k) (take (Z.to_nat n) R))
      as (f' & x' & hs' & -> & Hx' & Hs' & [Ha1 Ha2 Ha3 Ha4 Ha5 Ha6]); [done|done|done|done|lia|done|done| |].
    { change (numBytes (hdr f) ≤ seekPosition f + k). lia. }
    exists f', x', hs'. split_and!; [|done|done|].
    + do 3 f_equal. rewrite take_app. do 2 f_equal. lia.
    + change (seekPosition f1) with (seekPosition f + k) in Ha3. split; [done|done| |rewrite Ha4, Hrem|done|done].
      * change (NUM_DIRECT * SECTOR_SIZE) with 3712 in *. lia.
      * unfold remaining. fold R. rewrite (drop_ge R), app_nil_l, drop_app_ge by lia. f_equal. lia.
  - exists f1, x1, hs. split_and!; [|done|done|].
    + do 3 f_equal. by rewrite take_app_le by lia.
    + split; [done|done| |rewrite Hrem|done|done].
      * change (seekPosition f1) with (seekPosition f + k). change (NUM_DIRECT * SECTOR_SIZE) with 3712. lia.
      * unfold remaining. fold R. rewrite drop_app_le by lia. do 2 f_equal. lia.
Qed.

Lemma Read_ok fuel f x hs n
  (Hx : ss_ok x) (Hf : file_wf (hdr f)) (Hch : chain (ss_sectors x) (nextFileHeader (hdr f)) hs)
  (Hseek : 0 ≤ seekPosition f) (Hn : 0 < n) (Hw : seekPosition f + n < 2 ^ 32)
  (Hfuel : (length hs ≤ fuel)%nat) :
  ∃ f' x', Read fuel f x n false
    = Ok (take (Z.to_nat n) (drop (Z.to_nat (seekPosition f)) (contents (hdr f) (ss_sectors x))
            ++ chain_contents (ss_sectors x) hs), f', x') ∧
    ss_ok x' ∧ ss_sectors x' = ss_sectors x ∧ sector f' = sector f ∧ currentSector f' = currentSector f.
Proof.
  destruct (Read_advances fuel f x hs n) as (f' & x' & hs' & E & Hx' & Hs' & Ha); [done..|].
  exists f', x'. split_and!; [exact E|done|done|apply Ha|apply Ha].
Qed.

(** A directory is read from the start. *)
Lemma Read_directory fuel f x n bs h :
  ss_ok x → 0 ≤ sector f < NUM_SECTORS → rd (ss_sectors x) (sector f) = Ok bs → header_of_bytes bs = h →
  file_wf h → nextFileHeader h = 0 → 0 < n < 2 ^ 32 →
  ∃ f' x', Read fuel f x n true = Ok (take (Z.to_nat n) (contents h (ss_sectors x)), f', x') ∧
    ss_ok x' ∧ ss_sectors x' = ss_sectors x ∧ sector f' = sector f.
Proof.
  intros Hx Hr Hbs Hh Hf Hn0 Hn. destruct (FetchFrom_ok x (sector f) Hx Hr) as (v & x1 & E & Hv & Hx1 & Hs1).
  rewrite Hbs in Hv. injection Hv as <-. rewrite Hh in E.
  destruct (Read_ok fuel (set_seek (set_hdr f h) 0) x1 [] n Hx1 Hf) as (f' & x' & ER & Hx' & Hs' & Hsf & _);
    [cbn; rewrite Hn0; constructor|cbn; lia..|].
  exists f', x'. unfold Read in *. rewrite bool_decide_true in ER |- * by lia. rewrite E.
  cbn [ASSERT mbind result_bind] in ER |- *. rewrite ER, Hs1. rewrite Hs1 in Hs'. split; [|done].
  do 3 f_equal. change (chain_contents _ []) with (@nil Z). by rewrite app_nil_r.
Qed.

(** [Read] reads the file sequentially across its chain of headers: with
    the position in the current header, it returns the next [n] bytes of what
    is left of that header's data followed by the data of all later headers
    (less only at the end of the chain), terminates on every chain, and leaves
    the disk as it was. *)
Theorem Read_sequential fuel f x hs n
  (Hx : ss_ok x) (Hf : file_wf (hdr f)) (Hch : chain (ss_sectors x) (nextFileHeader (hdr f)) hs)
  (Hseek : 0 ≤ seekPosition f) (Hn : 0 < n) (Hw : seekPosition f + n < 2 ^ 32)
  (Hfuel : (length hs ≤ fuel)%nat) :
  ∃ f' x', Read fuel f x n false
    = Ok (take (Z.to_nat n) (drop (Z.to_nat (seekPosition f)) (contents (hdr f) (ss_sectors x))
            ++ chain_contents (ss_sectors x) hs), f', x') ∧
    ss_ok x' ∧ ss_sectors x' = ss_sectors x.
Proof. destruct (Read_ok fuel f x hs n) as (f' & x' & ? & ? & ? & _); [done..|]. by exists f', x'. Qed.
End ReadSpec.

(** ** Growing a file *)
Section WriteSpec.
Context {S : Type} `{SectorStoreSpec S}.
Context (uninit : Z → list Z).
(** A block of memory has the size asked for, and holds bytes. *)
Hypothesis uninit_length : ∀ n, 0 ≤ n → length (uninit n) = Z.to_nat n.
Hypothesis uninit_bytes : ∀ n, Forall is_byte (uninit n).

(** The file of the bitmap holds the bitmap [bm]. *)
Record map_ok (fm : OpenFile) (bm : Bitmap) (secs : list (list Z)) : Prop := {
  mo_file : file_wf (hdr fm);
  mo_size : numBytes (hdr fm) = 128;
  mo_wf : Bitmap.wf bm;
  mo_bits : numBits bm = NUM_SECTORS;
  mo_data : contents (hdr fm) secs = words_bytes (Bitmap.map bm)
}.

Lemma map_words bm : Bitmap.wf bm → numBits bm = NUM_SECTORS →
  length (Bitmap.map bm) = 32%nat ∧ length (words_bytes (Bitmap.map bm)) = 128%nat.
Proof.
  intros [_ Hl _] Hn. unfold numWords in Hl. rewrite Hn in Hl.
  change (DivRoundUp NUM_SECTORS BITS_IN_WORD) with 32 in Hl.
  rewrite words_bytes_length. lia.
Qed.

Lemma bytes_words_u32 n bs : Forall is_byte bs → Forall is_u32 (bytes_words n bs).
Proof.
  revert bs. induction n as [|n IH]; intros bs Hb; cbn [bytes_words]; constructor.
  - pose proof (le_word_range (take 4 bs) (Forall_take _ _ _ Hb)) as Hr.
    assert (256 ^ Z.of_nat (length (take 4 bs)) ≤ 256 ^ 4)
      by (apply Z.pow_le_mono_r; rewrite ?length_take; lia). unfold is_u32. lia.
  - apply IH. by apply Forall_drop.
Qed.

Lemma load_freeMap_ok fm bm x : ss_ok x → map_ok fm bm (ss_sectors x) →
  ∃ x', load_freeMap uninit fm x = Ok (bm, x') ∧ ss_ok x' ∧ ss_sectors x' = ss_sectors x.
Proof.
  intros Hx [Hf Hn Hwf Hb Hd]. destruct (map_words bm Hwf Hb) as [Hl Hl'].
  assert (length (bytes_words 32 (uninit 128)) = 32%nat) as Hg
    by (clear; generalize (uninit 128); intros; reflexivity).
  destruct (new_Bitmap_ok NUM_SECTORS (bytes_words 32 (uninit 128))) as (b & E & Hwfb & Hbb & _).
  { vm_compute. split; congruence. }
  { by apply bytes_words_u32. }
  { rewrite Hg. reflexivity. }
  unfold load_freeMap. rewrite E. clear E. cbn [mbind result_bind]. unfold Bitmap_FetchFrom.
  destruct (map_words b Hwfb Hbb) as [Hlb _].
  replace (numWords b * 4) with 128 by (unfold numWords; rewrite Hbb; reflexivity).
  destruct (ReadAt_ok (hdr fm) x 128 0 Hx Hf) as (x' & -> & Hx' & Hs'); [lia..|].
  cbn [mbind result_bind]. exists x'. split; [|done]. do 2 f_equal. rewrite Hd.
  change (drop (Z.to_nat 0) (words_bytes (Bitmap.map bm))) with (words_bytes (Bitmap.map bm)).
  rewrite take_ge by lia. rewrite drop_ge, app_nil_r by (rewrite words_bytes_length; lia).
  unfold FetchFrom_bytes. rewrite Hlb, <-Hl, bytes_words_words by apply Hwf.
  rewrite Hbb, <-Hb. by destruct bm.
Qed.

(** The file of the bitmap is overwritten, whatever it held. *)
Lemma Bitmap_WriteBack_file fm bm' x :
  ss_ok x → file_wf (hdr fm) → numBytes (hdr fm) = 128 → Bitmap.wf bm' → numBits bm' = NUM_SECTORS →
  ∃ x', Bitmap_WriteBack uninit bm' fm x = Ok x' ∧ ss_ok x' ∧ map_ok fm bm' (ss_sectors x') ∧
    ∀ t, t ∉ sectors_of (hdr fm) → rd (ss_sectors x') t = rd (ss_sectors x) t.
Proof.
  intros Hx Hf Hn Hwf' Hb'. destruct (map_words bm' Hwf' Hb') as [Hl Hl'].
  unfold Bitmap_WriteBack, WriteBack_bytes.
  replace (numWords bm' * 4) with 128 by (unfold numWords; rewrite Hb'; reflexivity).
  destruct (WriteAt_ok uninit uninit_length (hdr fm) x (words_bytes (Bitmap.map bm')) 128 0)
    as (x' & -> & Hx' & Ho & Hi); [done|done|lia..|].
  cbn [mbind result_bind]. exists x'. split_and!; [done|done| |done]. split; [done..|].
  replace (128 `min` (numBytes (hdr fm) - 0)) with 128 in Hi by lia.
  apply (WriteAt_contents (hdr fm) x x' (words_bytes (Bitmap.map bm')) 128 0) in Hi;
    [|done|done|done|lia..].
  pose proof (contents_length (hdr fm) x Hx Hf) as Hcl. rewrite Hn in Hcl.
  unfold splice in Hi. rewrite bool_decide_true in Hi by (rewrite length_take; lia).
  injection Hi as <-. rewrite take_ge by lia. cbn [Z.to_nat take app Nat.add].
  rewrite drop_ge, app_nil_r by lia. done.
Qed.

Lemma Bitmap_WriteBack_ok fm bm bm' x :
  ss_ok x → map_ok fm bm (ss_sectors x) → Bitmap.wf bm' → numBits bm' = NUM_SECTORS →
  ∃ x', Bitmap_WriteBack uninit bm' fm x = Ok x' ∧ ss_ok x' ∧ map_ok fm bm' (ss_sectors x') ∧
    ∀ t, t ∉ sectors_of (hdr fm) → rd (ss_sectors x') t = rd (ss_sectors x) t.
Proof. intros Hx [Hf Hn _ _ _]. by apply Bitmap_WriteBack_file. Qed.

(** The sector [cs] holds the header [h] of a file; the header, the file's data
    and the bitmap's data are in different sectors, all of them marked. *)
Record file_inv (x : S) (fm : OpenFile) (bm : Bitmap) (cs : Z) (h : RawFileHeader) : Prop := {
  fi_ok : ss_ok x;
  fi_map : map_ok fm bm (ss_sectors x);
  fi_hdr : ∃ bs, rd (ss_sectors x) cs = Ok bs ∧ header_of_bytes bs = h;
  fi_wf : file_wf h;
  fi_cs : 0 ≤ cs < NUM_SECTORS;
  fi_used : ∀ s, s ∈ cs :: sectors_of h ++ sectors_of (hdr fm) → Bitmap.bit bm s = true;
  fi_disj : NoDup (cs :: sectors_of h ++ sectors_of (hdr fm))
}.

Lemma file_inv_owns x fm bm cs h : file_inv x fm bm cs h → owns h bm.
Proof.
  intros [_ [_ _ _ Hb _] _ [_ Hr Hnd] _ Hu _]. split; [done|].
  rewrite Forall_forall in Hr |- *. intros s Hs. cbn. rewrite Hb. split; [by apply Hr|].
  apply Hu. right. apply elem_of_app. by left.
Qed.

Lemma file_inv_range x fm bm cs h s : file_inv x fm bm cs h →
  s ∈ cs :: sectors_of h ++ sectors_of (hdr fm) → 0 ≤ s < NUM_SECTORS.
Proof.
  intros [_ [[_ Hr' _] _ _ _ _] _ [_ Hr _] Hcs _ _] Hs. rewrite Forall_forall in Hr, Hr'.
  apply elem_of_cons in Hs as [->|[Hs|Hs]%elem_of_app]; [done|by apply Hr|by apply Hr'].
Qed.

Lemma blocks_frame h secs secs' :
  (∀ s, s ∈ sectors_of h → rd secs' s = rd secs s) →
  Forall (λ s, 0 ≤ s) (sectors_of h) → blocks h secs' = blocks h secs.
Proof.
  intros Hrd Hr. unfold blocks. apply list_fmap_ext. intros k s Hs.
  rewrite Forall_forall in Hr. pose proof (list_elem_of_lookup_2 _ _ _ Hs) as Hin.
  specialize (Hrd s Hin). specialize (Hr s Hin). unfold rd in Hrd.
  rewrite bool_decide_true in Hrd by done. unfold OpenFile.block.
  destruct (secs' !! Z.to_nat s), (secs !! Z.to_nat s); cbn; congruence.
Qed.

Lemma sectors_nonneg h : file_wf h → Forall (λ s, 0 ≤ s) (sectors_of h).
Proof. intros [_ Hr _]. eapply Forall_impl; [exact Hr|]. intros s Hs. apply Hs. Qed.

Lemma map_ok_frame fm bm secs secs' :
  (∀ s, s ∈ sectors_of (hdr fm) → rd secs' s = rd secs s) →
  map_ok fm bm secs → map_ok fm bm secs'.
Proof.
  intros Hfr [Hf Hn Hwf Hb Hd]. split; [done..|]. unfold contents, raw_contents.
  rewrite (blocks_frame _ secs) by (done || by apply sectors_nonneg). done.
Qed.

Lemma write_sector_frame x x' s bs :
  ss_ok x → 0 ≤ s < NUM_SECTORS → ss_sectors x' = <[Z.to_nat s := bs]> (ss_sectors x) →
  rd (ss_sectors x') s = Ok bs ∧ ∀ t, t ≠ s → rd (ss_sectors x') t = rd (ss_sectors x) t.
Proof.
  intros Hx Hs Hsec. assert (wr (ss_sectors x) s bs = Ok (ss_sectors x')) as Hwr.
  { rewrite Hsec. apply wr_ok. destruct (ss_shape x Hx) as [-> _]. lia. }
  split; [by eapply rd_wr_eq|]. intros. by eapply rd_wr_ne.
Qed.

(** The invariant after [Allocate], [WriteBack] of the map and of the header. *)
Lemma allocate_and_flush_ok x fm bm cs h f size from n res :
  file_inv x fm bm cs h → hdr f = h → 0 ≤ size ≤ HEADER_CAPACITY - numBytes h →
  let need := DivRoundUp (numBytes h + size) SECTOR_SIZE - numSectors h in
  if decide (need ≤ Z.of_nat (fm_clear bm)) then
    ∃ h' bm' x' new, allocate_and_flush uninit fm (mkW f x bm from n res) size cs
      = Ok (true, mkW (set_hdr f h') x' bm' from n res) ∧
      allocated h bm size h' bm' ∧ file_inv x' fm bm' cs h' ∧
      sectors_of h' = sectors_of h ++ new ∧
      ∀ t, t ∉ cs :: sectors_of (hdr fm) → rd (ss_sectors x') t = rd (ss_sectors x) t
  else ∃ h', allocate_and_flush uninit fm (mkW f x bm from n res) size cs
      = Ok (false, mkW (set_hdr f h') x bm from n res).
Proof.
  intros Hinv Ef Hsize need. pose proof Hinv as [Hx Hmap Hhdr Hwf Hcs Hu Hnd].
  assert (Bitmap.wf bm ∧ fm_size bm = NUM_SECTORS) as [Hbwf Hbsz] by (split; apply Hmap).
  pose proof (Allocate_result h bm size (fw_hdr h Hwf) Hbwf) as Hal. cbn zeta in Hal. fold need in Hal.
  unfold allocate_and_flush. cbn [w_file w_map w_disk w_from w_numBytes w_result]. rewrite Ef.
  destruct (decide (need ≤ Z.of_nat (fm_clear bm))) as [Hle|Hgt].
  2: { destruct Hal as (h' & ->); [rewrite Hbsz; reflexivity|exact Hsize|]. by exists h'. }
  destruct Hal as (h' & bm' & -> & Ha); [rewrite Hbsz; reflexivity|exact Hsize|].
  cbn [mbind result_bind]. pose proof Ha as [Hh' [Hwf' Hsz'] Hb' _ (new & Es & Hndn & Hnew & Hu' & _)].
  cbn in Hsz', Hwf', Hu', Hnew. assert (numBits bm' = NUM_SECTORS) as Hnb by (rewrite Hsz'; apply Hmap).
  destruct (Bitmap_WriteBack_ok fm bm bm' x Hx Hmap Hwf' Hnb) as (x1 & -> & Hx1 & Hmap1 & Ho1).
  cbn [mbind result_bind].
  destruct (ss_write_ok x1 cs (header_bytes h') Hx1 Hcs) as (x2 & E2 & Hs2 & Hx2).
  { apply header_bytes_length, Hh'. }
  unfold WriteBack. rewrite E2. cbn [mbind result_bind].
  destruct (write_sector_frame x1 x2 cs _ Hx1 Hcs Hs2) as [Hcs2 Ho2].
  exists h', bm', x2, new. split_and!; [done|done| |done|].
  2: { intros t Ht. rewrite not_elem_of_cons in Ht. rewrite Ho2, Ho1 by naive_solver. done. }
  assert (∀ s, s ∈ new → s ∉ cs :: sectors_of h ++ sectors_of (hdr fm)) as Hfresh.
  { intros s Hs Hin. apply Hu in Hin. rewrite Forall_forall in Hnew.
    destruct (Hnew s Hs) as [_ Hs0]. congruence. }
  assert (cs :: sectors_of h' ++ sectors_of (hdr fm)
          ≡ₚ new ++ (cs :: sectors_of h ++ sectors_of (hdr fm))) as Hperm.
  { rewrite Es. rewrite <-!app_assoc. solve_Permutation. }
  assert (NoDup (cs :: sectors_of h' ++ sectors_of (hdr fm))) as Hnd'.
  { rewrite Hperm. apply NoDup_app. done. }
  split; [done| | | |done| |done].
  - eapply map_ok_frame; [|exact Hmap1]. intros s Hs. apply Ho2. intros ->.
    apply NoDup_cons in Hnd as [Hn _]. apply Hn, elem_of_app. by right.
  - eexists. split; [done|]. by apply header_of_header_bytes, hdr_wf_words.
  - split; [done| |].
    + rewrite Es. apply Forall_app. split; [apply Hwf|]. eapply Forall_impl; [exact Hnew|].
      intros s [Hs _]. by rewrite <-(mo_bits _ _ _ Hmap).
    + apply NoDup_cons in Hnd' as [_ Hnd']. by apply NoDup_app in Hnd' as [? _].
  - intros s Hs. rewrite Hperm, elem_of_app in Hs.
    assert (0 ≤ s < NUM_SECTORS) as Hr.
    { destruct Hs as [Hs|Hs]; [|by eapply file_inv_range]. rewrite Forall_forall in Hnew.
      rewrite <-(mo_bits _ _ _ Hmap). by apply Hnew. }
    rewrite Hu' by (by rewrite (mo_bits _ _ _ Hmap)). destruct Hs as [Hs|Hs]; [|by rewrite Hu by done].
    by rewrite (bool_decide_true _ Hs), orb_true_r.
Qed.

Lemma file_inv_same x x' fm bm cs h :
  ss_ok x' → ss_sectors x' = ss_sectors x → file_inv x fm bm cs h → file_inv x' fm bm cs h.
Proof. intros Hx' Hs [? ? ? ? ? ? ?]. by split; rewrite ?Hs. Qed.

(** Writing data that is within the file. *)
Lemma write_out_ok x fm bm cs h f from n :
  file_inv x fm bm cs h → hdr f = h → 0 ≤ seekPosition f → 0 < n →
  seekPosition f + n ≤ numBytes h → n ≤ Z.of_nat (length from) →
  ∃ x', write_out uninit (mkW f x bm from n 0) n
    = Ok (mkW (set_seek f (seekPosition f + n)) x' bm (drop (Z.to_nat n) from) 0 n) ∧
    file_inv x' fm bm cs h ∧
    (∀ t, t ∉ sectors_of h → rd (ss_sectors x') t = rd (ss_sectors x) t) ∧
    (∀ i, 0 ≤ i < numBytes h →
      raw_contents h (ss_sectors x') !! Z.to_nat i
      = if decide (seekPosition f ≤ i < seekPosition f + n)
        then from !! Z.to_nat (i - seekPosition f)
        else raw_contents h (ss_sectors x) !! Z.to_nat i).
Proof.
  intros [Hx Hmap (bs & Hbs & Ehdr) Hwf Hcs Hu Hnd] Ef Hp Hn Hle Hfrom.
  destruct (raw_contents_length h x Hx Hwf) as (_ & Hnb & Hns).
  destruct (WriteAt_ok uninit uninit_length h x from n (seekPosition f))
    as (x' & E & Hx' & Ho & Hi); [done|done|lia..|].
  replace (n `min` (numBytes h - seekPosition f)) with n in * by lia.
  exists x'. unfold write_out. cbn [w_file w_disk w_from]. rewrite Ef, E. cbn [mbind result_bind].
  unfold advance. cbn [w_map w_from w_numBytes w_result].
  rewrite Z.sub_diag, Z.add_0_l, (u32_id (_ + _)), s32_id by width_lia. split; [done|].
  apply NoDup_cons in Hnd as [Hn1 Hnd]. pose proof Hnd as (_ & Hdis & _)%NoDup_app.
  rewrite elem_of_app in Hn1. split_and!; [|done|done]. split; try done.
  - eapply map_ok_frame; [|exact Hmap]. intros s Hs. apply Ho. intros Hs'. by apply (Hdis s).
  - exists bs. split; [|done]. rewrite Ho; [done|]. naive_solver.
  - apply NoDup_cons. rewrite elem_of_app. done.
Qed.

Lemma Write_chain_done fuel fm w s : w_numBytes w = 0 → Write_chain uninit fuel fm w s = Ok (true, w).
Proof. intros E. destruct fuel; cbn [Write_chain]; rewrite E; reflexivity. Qed.

(** The header grew by sectors that were free, and only these were marked. *)
Record grown (bm bm' : Bitmap) (h h' : RawFileHeader) (new : list Z) : Prop := {
  gr_next : nextFileHeader h' = nextFileHeader h;
  gr_sectors : sectors_of h' = sectors_of h ++ new;
  gr_free : Forall (λ s, 0 ≤ s < NUM_SECTORS ∧ Bitmap.bit bm s = false) new;
  gr_bits : ∀ j, 0 ≤ j < NUM_SECTORS → Bitmap.bit bm' j = Bitmap.bit bm j || bool_decide (j ∈ new);
  gr_clear : fm_clear bm = (fm_clear bm' + length new)%nat
}.

Lemma grown_refl bm h : grown bm bm h h [].
Proof. split; [done|by rewrite app_nil_r|constructor| |cbn; lia]. intros. by rewrite orb_false_r. Qed.

Lemma allocated_grown bm bm' h h' size :
  numBits bm = NUM_SECTORS → allocated h bm size h' bm' → ∃ new, grown bm bm' h h' new.
Proof.
  intros Hb [_ _ _ Hnx (new & Es & _ & Hnew & Hu & Hc)]. cbn in Hnew, Hu. rewrite Hb in Hnew, Hu.
  exists new. by split.
Qed.

(** Making room for a request that fits the current header. *)
Lemma reserve_ok x fm bm cs h f from n :
  file_inv x fm bm cs h → hdr f = h →
  0 ≤ seekPosition f ≤ numBytes h → 0 < n → seekPosition f + n ≤ HEADER_CAPACITY →
  let size := Z.max (numBytes h) (seekPosition f + n) in
  let step := if bool_decide (seekPosition f + n > numBytes h) then
      allocate_and_flush uninit fm (mkW f x bm from n 0) (seekPosition f + n - numBytes h) cs
    else Ok (true, mkW f x bm from n 0) in
  if decide (DivRoundUp size SECTOR_SIZE - numSectors h ≤ Z.of_nat (fm_clear bm)) then
    ∃ h' x' bm' new, step = Ok (true, mkW (set_hdr f h') x' bm' from n 0) ∧
      file_inv x' fm bm' cs h' ∧ numBytes h' = size ∧ grown bm bm' h h' new ∧
      ∀ t, t ∉ cs :: sectors_of (hdr fm) → rd (ss_sectors x') t = rd (ss_sectors x) t
  else ∃ h', step = Ok (false, mkW (set_hdr f h') x bm from n 0).
Proof.
  intros Hinv Ef Hp Hn Hcap size step. unfold step, size. case_bool_decide as Hgrow.
  - pose proof (allocate_and_flush_ok x fm bm cs h f (seekPosition f + n - numBytes h) from n 0
      Hinv Ef) as Ha. cbn zeta in Ha.
    replace (numBytes h + (seekPosition f + n - numBytes h))
      with (Z.max (numBytes h) (seekPosition f + n)) in Ha by lia.
    destruct (decide _); [|destruct Ha as (h' & E); [lia|by eexists]].
    destruct Ha as (h' & bm' & x' & _ & E & Hal & Hinv' & _ & Ho); [lia|].
    destruct (allocated_grown bm bm' h h' _ (mo_bits _ _ _ (fi_map _ _ _ _ _ Hinv)) Hal) as [new Hg].
    exists h', x', bm', new. split_and!; try done.
    rewrite (al_bytes _ _ _ _ _ Hal). lia.
  - rewrite Z.max_l by lia. pose proof (hw_count _ (fw_hdr _ (fi_wf _ _ _ _ _ Hinv))) as Hc.
    rewrite decide_True by lia. exists h, x, bm, [].
    split_and!; try done; [unfold set_hdr; rewrite <-Ef; by destruct f|apply grown_refl].
Qed.

(** The old bytes of a file that has grown. *)
Lemma grown_prefix x x' fm bm cs h h' new i :
  file_inv x fm bm cs h → ss_ok x' → file_wf h' → sectors_of h' = sectors_of h ++ new →
  (∀ t, t ∉ cs :: sectors_of (hdr fm) → rd (ss_sectors x') t = rd (ss_sectors x) t) →
  0 ≤ i < numBytes h →
  raw_contents h' (ss_sectors x') !! Z.to_nat i = contents h (ss_sectors x) !! Z.to_nat i.
Proof.
  intros [Hx _ _ Hwf _ _ Hnd] Hx' Hwf' Es Ho Hi.
  destruct (raw_contents_length h x Hx Hwf) as (HC & Hnb & _).
  unfold contents. rewrite lookup_take_lt by lia.
  assert (raw_contents h' (ss_sectors x')
          = raw_contents h (ss_sectors x) ++ concat (OpenFile.block (ss_sectors x') <$> new)) as ->.
  { unfold raw_contents, blocks at 1. rewrite Es, fmap_app, concat_app. f_equal. f_equal.
    apply blocks_frame; [|by apply sectors_nonneg]. intros s Hs. apply Ho.
    apply NoDup_cons in Hnd as [Hn1 (_ & Hdis & _)%NoDup_app].
    rewrite not_elem_of_cons. split; [|by apply Hdis]. intros ->. apply Hn1, elem_of_app. by left. }
  apply lookup_app_l. lia.
Qed.

(** The contents after the data has been written into the grown file. *)
Lemma grown_contents x x1 x2 h h' from n seek :
  ss_ok x → ss_ok x2 → file_wf h → file_wf h' → 0 ≤ seek ≤ numBytes h → 0 < n →
  n ≤ Z.of_nat (length from) → numBytes h' = Z.max (numBytes h) (seek + n) →
  (∀ i, 0 ≤ i < numBytes h →
    raw_contents h' (ss_sectors x1) !! Z.to_nat i = contents h (ss_sectors x) !! Z.to_nat i) →
  (∀ i, 0 ≤ i < numBytes h' →
    raw_contents h' (ss_sectors x2) !! Z.to_nat i
    = if decide (seek ≤ i < seek + n) then from !! Z.to_nat (i - seek)
      else raw_contents h' (ss_sectors x1) !! Z.to_nat i) →
  contents h' (ss_sectors x2)
  = take (Z.to_nat seek) (contents h (ss_sectors x)) ++ take (Z.to_nat n) from
    ++ drop (Z.to_nat (seek + n)) (contents h (ss_sectors x)).
Proof.
  intros Hx Hx2 Hwf Hwf' Hs Hn Hfrom Hsize Hold Hnew.
  pose proof (contents_length h x Hx Hwf) as HC. pose proof (contents_length h' x2 Hx2 Hwf') as HC'.
  set (C := contents h (ss_sectors x)) in *. apply list_eq. intros i.
  destruct (decide (Z.of_nat i < numBytes h')).
  2: { rewrite !lookup_ge_None_2; [done| |lia].
       rewrite !length_app, !length_take, length_drop. lia. }
  unfold contents. rewrite lookup_take_lt by lia. rewrite <-(Nat2Z.id i) at 1.
  rewrite Hnew by lia. destruct (decide (Z.of_nat i < seek)).
  - rewrite decide_False by lia. rewrite Hold, Nat2Z.id by lia.
    rewrite lookup_app_l by (rewrite length_take; lia). by rewrite lookup_take_lt by lia.
  - rewrite lookup_app_r by (rewrite length_take; lia). rewrite length_take.
    destruct (decide (Z.of_nat i < seek + n)).
    + rewrite decide_True by lia. rewrite lookup_app_l by (rewrite length_take; lia).
      rewrite lookup_take_lt by lia. f_equal. lia.
    + rewrite decide_False by lia. rewrite Hold, Nat2Z.id by lia.
      rewrite lookup_app_r by (rewrite length_take; lia). rewrite length_take, lookup_drop.
      f_equal. lia.
Qed.

(** The first phase of [Write], for a request that fits the current header. *)
Lemma Write_current_ok x fm bm cs h f from n :
  file_inv x fm bm cs h → hdr f = h → currentSector f = cs →
  0 ≤ seekPosition f ≤ numBytes h → 0 < n → seekPosition f + n ≤ HEADER_CAPACITY →
  n ≤ Z.of_nat (length from) →
  let size := Z.max (numBytes h) (seekPosition f + n) in
  let C := contents h (ss_sectors x) in
  if decide (DivRoundUp size SECTOR_SIZE - numSectors h ≤ Z.of_nat (fm_clear bm)) then
    ∃ f' x' bm' h' new, Write_current uninit fm (mkW f x bm from n 0)
      = Ok (true, mkW f' x' bm' (drop (Z.to_nat n) from) 0 n) ∧
      file_inv x' fm bm' cs h' ∧ grown bm bm' h h' new ∧
      f' = mkOpenFile h' cs (seekPosition f + n) (sector f) ∧ numBytes h' = size ∧
      contents h' (ss_sectors x')
        = take (Z.to_nat (seekPosition f)) C ++ take (Z.to_nat n) from
          ++ drop (Z.to_nat (seekPosition f + n)) C ∧
      (∀ s, 0 ≤ s < NUM_SECTORS → Bitmap.bit bm s = true →
        s ∉ cs :: sectors_of h ++ sectors_of (hdr fm) →
        rd (ss_sectors x') s = rd (ss_sectors x) s)
  else ∃ h', Write_current uninit fm (mkW f x bm from n 0)
      = Ok (false, mkW (set_hdr f h') x bm from n 0).
Proof.
  intros Hinv Ef Ecs Hp Hn Hcap Hfrom size C. subst cs.
  pose proof Hinv as [Hx Hmap _ Hwf Hcs Hu Hnd].
  destruct (raw_contents_length h x Hx Hwf) as (HC & Hnb & Hns).
  unfold Write_current. cbn [w_file w_numBytes].
  assert (HEADER_CAPACITY = 3712) as Ecap by reflexivity.
  rewrite (u32_id (HEADER_CAPACITY - _)) by width_lia.
  rewrite (bool_decide_false (n > _)) by lia. cbn zeta. rewrite (bool_decide_true (n > 0)) by lia.
  rewrite Ef, (u32_id (_ + n)) by width_lia.
  pose proof (reserve_ok x fm bm (currentSector f) h f from n Hinv Ef Hp Hn Hcap) as Hres.
  cbn zeta in Hres. fold size in Hres.
  replace (if bool_decide (seekPosition f + n > numBytes h) then _ else _) with
    (if bool_decide (seekPosition f + n > numBytes h) then
       allocate_and_flush uninit fm (mkW f x bm from n 0) (seekPosition f + n - numBytes h)
         (currentSector f)
     else Ok (true, mkW f x bm from n 0))
    by (case_bool_decide; [by rewrite u32_id by width_lia|done]).
  destruct (decide (_ ≤ _)) as [Hroom|Hfull].
  2: { destruct Hres as (h' & ->). cbn. by exists h'. }
  destruct Hres as (h' & x1 & bm' & new & -> & Hinv1 & Hsize & Hg & Ho1).
  pose proof (gr_sectors _ _ _ _ _ Hg) as Es. pose proof (gr_free _ _ _ _ _ Hg) as Hnew.
  cbn [mbind result_bind].
  destruct (write_out_ok x1 fm bm' (currentSector f) h' (set_hdr f h') from n Hinv1)
    as (x2 & -> & Hinv2 & Ho2 & Hi); [done|cbn; lia..|].
  cbn [mbind result_bind seekPosition set_hdr] in *.
  eexists _, x2, bm', h', new. split_and!; [done|done|done|done|done| |].
  - apply (grown_contents x x1 x2 h h' from n); try done; try apply Hinv2.
    intros i Hir. eapply grown_prefix; try done; apply Hinv1.
  - intros s Hs Hbit Hnin. rewrite Ho2, Ho1; [done| |].
    + rewrite not_elem_of_cons in Hnin |- *. rewrite not_elem_of_app in Hnin. naive_solver.
    + rewrite Es, not_elem_of_app. rewrite not_elem_of_cons, not_elem_of_app in Hnin.
      split; [naive_solver|]. intros Hs'. rewrite Forall_forall in Hnew. destruct (Hnew s Hs') as [_ Hf]. congruence.
Qed.

(** A write that fits the current header. *)
Lemma Write_ok fuel t e fm bm f x h from n
  (Hinv : file_inv x fm bm (currentSector f) h)
  (He : rd t (sector f) = Ok e) (Hlock : writeLock e = LLive)
  (Hseek : 0 ≤ seekPosition f ≤ numBytes h) (Hn : 0 < n)
  (Hcap : seekPosition f + n ≤ HEADER_CAPACITY) (Hfrom : n ≤ Z.of_nat (length from)) :
  let size := Z.max (numBytes h) (seekPosition f + n) in
  let C := contents h (ss_sectors x) in
  if decide (DivRoundUp size SECTOR_SIZE - numSectors h ≤ Z.of_nat (fm_clear bm)) then
    ∃ x' bm' h' new, Write uninit fuel t fm f x from n false
        = Ok (n, mkOpenFile h' (currentSector f) (seekPosition f + n) (sector f), x') ∧
      file_inv x' fm bm' (currentSector f) h' ∧ grown bm bm' h h' new ∧ numBytes h' = size ∧
      contents h' (ss_sectors x')
        = take (Z.to_nat (seekPosition f)) C ++ take (Z.to_nat n) from
          ++ drop (Z.to_nat (seekPosition f + n)) C ∧
      (∀ s, 0 ≤ s < NUM_SECTORS → Bitmap.bit bm s = true →
        s ∉ currentSector f :: sectors_of h ++ sectors_of (hdr fm) →
        rd (ss_sectors x') s = rd (ss_sectors x) s)
  else ∃ f' x', Write uninit fuel t fm f x from n false = Ok (0, f', x') ∧
      sector f' = sector f ∧ ss_ok x' ∧ ss_sectors x' = ss_sectors x.
Proof.
  intros size C. unfold Write. rewrite bool_decide_true by lia. cbn [ASSERT mbind result_bind].
  rewrite He. cbn [mbind result_bind]. rewrite Hlock. cbn [use_lock mbind result_bind].
  pose proof Hinv as [Hx _ (bs & Hbs & Ehdr) _ Hcs _ _].
  destruct (FetchFrom_ok x (currentSector f) Hx Hcs) as (v & x1 & -> & Hv & Hx1 & Hs1).
  rewrite Hbs in Hv. injection Hv as <-. rewrite Ehdr. cbn [mbind result_bind].
  destruct (load_freeMap_ok fm bm x1 Hx1) as (x2 & -> & Hx2 & Hs2); [rewrite Hs1; apply Hinv|].
  cbn [mbind result_bind]. rewrite Hs1 in Hs2.
  pose proof (Write_current_ok x2 fm bm (currentSector f) h (set_hdr f h) from n
    (file_inv_same x x2 _ _ _ _ Hx2 Hs2 Hinv) eq_refl eq_refl Hseek Hn Hcap Hfrom) as Hw.
  cbn zeta in Hw. cbn [seekPosition set_hdr sector] in Hw. fold size in Hw. rewrite Hs2 in Hw. fold C in Hw.
  destruct (decide (_ ≤ _)).
  - destruct Hw as (f' & x' & bm' & h' & new & -> & Hinv' & Hg & -> & Hsz & HC & Ho).
    cbn [mbind result_bind]. rewrite Write_chain_done by done. cbn [mbind result_bind].
    cbn [w_numBytes]. rewrite bool_decide_false by lia. cbn [mbind result_bind w_result w_file w_disk].
    by exists x', bm', h', new.
  - destruct Hw as (h' & ->). cbn. by eexists _, x2.
Qed.

(** A directory writes its whole table from the start. *)
Lemma Write_directory fuel t fm f x from n :
  Write uninit fuel t fm f x from n true
  = Write uninit fuel t fm (set_current (set_seek f 0) (sector f)) x from n false.
Proof. done. Qed.

(** C7: [Write] grows a file.  For a request that fits the current header:
    if enough sectors are free, [Write] returns [n]; the file then holds its old
    bytes with [n] new ones from the position on, as long as the larger of its
    old length and the end of the request; the header and the bitmap on disk
    describe it again (the invariant holds, so the next [Write] is
    covered too); the only sectors that became used were free and belong to the
    file; the position has advanced by [n]; and no sector in use by another
    file has changed.  If too few sectors are free, [Write] returns 0 and the
    disk is as before. *)
Theorem Write_grows fuel t e fm bm f x h from n
  (Hinv : file_inv x fm bm (currentSector f) h)
  (He : rd t (sector f) = Ok e) (Hlock : writeLock e = LLive)
  (Hseek : 0 ≤ seekPosition f ≤ numBytes h) (Hn : 0 < n)
  (Hcap : seekPosition f + n ≤ HEADER_CAPACITY) (Hfrom : n ≤ Z.of_nat (length from)) :
  let size := Z.max (numBytes h) (seekPosition f + n) in
  let C := contents h (ss_sectors x) in
  if decide (DivRoundUp size SECTOR_SIZE - numSectors h ≤ Z.of_nat (fm_clear bm)) then
    ∃ x' bm' h' new, Write uninit fuel t fm f x from n false
        = Ok (n, mkOpenFile h' (currentSector f) (seekPosition f + n) (sector f), x') ∧
      file_inv x' fm bm' (currentSector f) h' ∧ grown bm bm' h h' new ∧ numBytes h' = size ∧
      contents h' (ss_sectors x')
        = take (Z.to_nat (seekPosition f)) C ++ take (Z.to_nat n) from
          ++ drop (Z.to_nat (seekPosition f + n)) C ∧
      (∀ s, 0 ≤ s < NUM_SECTORS → Bitmap.bit bm s = true →
        s ∉ currentSector f :: sectors_of h ++ sectors_of (hdr fm) →
        rd (ss_sectors x') s = rd (ss_sectors x) s)
  else ∃ f' x', Write uninit fuel t fm f x from n false = Ok (0, f', x') ∧
      sector f' = sector f ∧ ss_ok x' ∧ ss_sectors x' = ss_sectors x.
Proof. by apply (Write_ok _ _ e). Qed.
End WriteSpec.

(** ** Host files

    The branches [if (isBin)]: a file of the host, as its bytes, with the
    [currentOffset] of the object.  [SystemDep::ReadPartial] returns what there
    is. *)
Module Bin.
Record BinFile := mkBin { contents : list Z; currentOffset : Z }.

Definition ReadAt (f : BinFile) (numBytes position : Z) : result (list Z) :=
  _ ← ASSERT (bool_decide (numBytes > 0));
  Ok (take (Z.to_nat numBytes) (drop (Z.to_nat position) (contents f))).

Definition WriteAt (f : BinFile) (from : list Z) (numBytes position : Z) : result (Z * BinFile) :=
  _ ← ASSERT (bool_decide (numBytes > 0));
  src ← slice from 0 numBytes;
  Ok (numBytes, mkBin (file_write (contents f) position src) (currentOffset f)).

Definition Read (f : BinFile) (numBytes : Z) : result (list Z * BinFile) :=
  bs ← ReadAt f numBytes (currentOffset f);
  Ok (bs, mkBin (contents f) (u32 (currentOffset f + Z.of_nat (length bs)))).

Definition Write (f : BinFile) (from : list Z) (numBytes : Z) : result (Z * BinFile) :=
  r ← WriteAt f from numBytes (currentOffset f);
  let '(n, f) := r in
  Ok (n, mkBin (contents f) (u32 (currentOffset f + n))).

Definition Length (f : BinFile) : Z := Z.of_nat (length (contents f)).
End Bin.

(** ** A concrete file

    A disk on which sector 0 holds the header of the bitmap (data in sector 2)
    and sector 5 the header of a file of 300 bytes in the sectors 7, 3 and 9. *)
Definition demo_uninit (n : Z) : list Z := replicate (Z.to_nat n) 255.
Definition demo_map : Bitmap := mkBitmap NUM_SECTORS (685 :: replicate 31 0).
Definition demo_fm : OpenFile := mkOpenFile (mkHeader 128 1 (2 :: replicate 28 0) 0) 0 0 0.
Definition demo_hdr : RawFileHeader := mkHeader 300 3 (7 :: 3 :: 9 :: replicate 26 0) 0.
Definition demo_store : list (list Z) :=
  <[2%nat := words_bytes (Bitmap.map demo_map)]>
    (<[5%nat := header_bytes demo_hdr]> (replicate 1024 (replicate 128 0))).
Definition demo_entry : OpenFileEntry := mkEntry 1 false false LLive LLive LLive 0.

Lemma demo_store_ok : ss_ok demo_store.
Proof.
  split; [reflexivity|]. unfold demo_store.
  apply Forall_insert; [apply Forall_insert; [|reflexivity]|reflexivity].
  apply Forall_replicate. reflexivity.
Qed.

Lemma demo_hdr_wf : file_wf demo_hdr.
Proof.
  split; [split; [reflexivity|vm_compute; split; congruence|reflexivity|..]|..].
  - repeat constructor; vm_compute; congruence.
  - vm_compute; split; congruence.
  - repeat constructor; vm_compute; congruence.
  - change (NoDup [7; 3; 9]). by apply (bool_decide_unpack _).
Qed.

Lemma demo_inv : file_inv demo_store demo_fm demo_map 5 demo_hdr.
Proof.
  assert (numBits demo_map = 1024) as Hb by reflexivity.
  split; [exact demo_store_ok| |eexists; split; [reflexivity|vm_compute; reflexivity]
         |exact demo_hdr_wf|vm_compute; split; congruence| |].
  - split; [|reflexivity| |reflexivity|vm_compute; reflexivity].
    + split; [split; [reflexivity|vm_compute; split; congruence|reflexivity|..]|..].
      * repeat constructor; vm_compute; congruence.
      * vm_compute; split; congruence.
      * repeat constructor; vm_compute; congruence.
      * change (NoDup [2]). apply NoDup_singleton.
    + split; [vm_compute; split; congruence|reflexivity|repeat constructor; vm_compute; congruence].
  - change (∀ s, s ∈ [5; 7; 3; 9; 2] → Bitmap.bit demo_map s = true). intros s Hs.
    repeat (apply elem_of_cons in Hs as [->|Hs]; [reflexivity|]). by apply not_elem_of_nil in Hs.
  - change (NoDup [5; 7; 3; 9; 2]). by apply (bool_decide_unpack _).
Qed.

(** [Write] of 500 bytes at position 250 of the file. *)
Lemma Write_grows_witness :
  ∃ x' bm' h', Write demo_uninit 0 (replicate 1024 demo_entry) demo_fm
      (mkOpenFile demo_hdr 5 250 5) demo_store (replicate 500 1) 500 false
      = Ok (500, mkOpenFile h' 5 750 5, x') ∧
    file_inv x' demo_fm bm' 5 h' ∧ numBytes h' = 750.
Proof.
  assert (∀ n, Forall is_byte (demo_uninit n)) as Hbytes
    by (intros n; apply Forall_replicate; unfold is_byte; lia).
  destruct (Write_grows demo_uninit (λ n _, length_replicate _ _) Hbytes 0
    (replicate 1024 demo_entry) demo_entry demo_fm demo_map (mkOpenFile demo_hdr 5 250 5)
    demo_store demo_hdr (replicate 500 1) 500) as (x' & bm' & h' & new & E & Hi & _ & Hs & _).
  - exact demo_inv.
  - reflexivity.
  - reflexivity.
  - cbn; lia.
  - lia.
  - vm_compute; congruence.
  - reflexivity.
  - exists x', bm', h'. split; [exact E|]. split; [exact Hi|exact Hs].
Defined.

(** [Read] of 120 bytes from position 200. *)
Lemma Read_sequential_witness :
  ∃ f' x', Read 0 (mkOpenFile demo_hdr 5 200 5) demo_store 120 false
    = Ok (take 120 (drop 200 (contents demo_hdr demo_store) ++ []), f', x').
Proof.
  destruct (Read_sequential 0 (mkOpenFile demo_hdr 5 200 5) demo_store [] 120)
    as (f' & x' & E & _); [exact demo_store_ok|exact demo_hdr_wf|constructor|cbn; lia..|].
  exists f', x'. exact E.
Defined.
