(* ===== verification/Directory.v ===== *)
(** * [filesys/directory_entry.hh], [filesys/directory.cc]: directories

    A directory is a table of entries; it is stored in a file as the array of
    its 32-byte entries.  Names are compared and copied with [strncmp] and
    [strncpy] up to [FILE_NAME_MAX_LEN] characters, so the key of a name is
    its prefix of that length.  The abstract view is a finite map from keys to
    sectors ([dir_map]). *)

From S2P Require Import Prelude Bitmap Disk FileHeader OpenFile ReadWrite.
From stdpp Require Import base option list gmap numbers tactics.
From stdpp Require Import list.
Open Scope Z_scope.

Definition FILE_NAME_MAX_LEN : nat := 20.
Definition NUM_DIR_ENTRIES : Z := 10.
Definition ENTRY_SIZE : Z := 32.                    (* [sizeof (DirectoryEntry)] *)
Definition DIRECTORY_FILE_SIZE : Z := ENTRY_SIZE * NUM_DIR_ENTRIES.

Record DirectoryEntry := mkDirEntry {
  inUse : bool;
  de_sector : Z;
  name : list Z;          (* [char name[FILE_NAME_MAX_LEN + 1]] *)
  isDirectory : bool
}.

(** ** C strings

    A C string is the list of its bytes before the terminating zero. *)
Definition c_string (s : list Z) : Prop := Forall (λ c, 0 < c < 256) s.

(** [!strncmp(a, b, n)]; the end of a list is the terminating zero. *)
Fixpoint strncmp_eq (n : nat) (a b : list Z) : bool :=
  match n with
  | O => true
  | S n =>
      let ca := default 0 (head a) in
      let cb := default 0 (head b) in
      if bool_decide (ca ≠ cb) then false
      else if bool_decide (ca = 0) then true
      else strncmp_eq n (tail a) (tail b)
  end.

(** [strncpy(dst, src, n)]. *)
Definition strncpy (n : nat) (dst src : list Z) : list Z :=
  take n src ++ replicate (n - length src) 0 ++ drop n dst.

(** The string in a [char] array; without a terminator inside the array, reading
    it runs past the end. *)
Fixpoint cstr (a : list Z) : result (list Z) :=
  match a with
  | [] => Err OutOfBounds
  | c :: a => if bool_decide (c = 0) then Ok [] else s ← cstr a; Ok (c :: s)
  end.

(** ** Layout

    [inUse] at 0, [sector] at 4, [name] at 8, [isDirectory] at 29; the padding
    is not observable and is written as zeros. *)
Definition byte_of_bool (b : bool) : Z := if b then 1 else 0.
Definition entry_bytes (e : DirectoryEntry) : list Z :=
  byte_of_bool (inUse e) :: replicate 3 0 ++ le_bytes 4 (de_sector e)
  ++ name e ++ [byte_of_bool (isDirectory e)] ++ replicate 2 0.
Definition entry_of_bytes (bs : list Z) : DirectoryEntry :=
  mkDirEntry (negb (nth 0 bs 0 =? 0)) (le_word (take 4 (drop 4 bs))) (take 21 (drop 8 bs))
    (negb (nth 29 bs 0 =? 0)).

Definition table_bytes (t : list DirectoryEntry) : list Z := t ≫= entry_bytes.
Fixpoint table_of_bytes (n : nat) (bs : list Z) : list DirectoryEntry :=
  match n with
  | O => []
  | S n => entry_of_bytes (take 32 bs) :: table_of_bytes n (drop 32 bs)
  end.

(** ** Operations on the table; [raw.tableSize] is its length *)

(** The constructor; [garbage] is the contents of [new DirectoryEntry [size]]. *)
Definition new_Directory (size : Z) (garbage : list DirectoryEntry)
  : result (list DirectoryEntry) :=
  _ ← ASSERT (bool_decide (size > 0));
  for_loop (span 0 size) 0
    (λ i t, e ← rd t i; wr t i (mkDirEntry false (de_sector e) (name e) false)) garbage.

Fixpoint FindIndex_from (i : Z) (t : list DirectoryEntry) (nm : list Z) : Z :=
  match t with
  | [] => -1
  | e :: t =>
      if inUse e && strncmp_eq FILE_NAME_MAX_LEN (name e) nm then s32 i
      else FindIndex_from (i + 1) t nm
  end.

Definition FindIndex (t : list DirectoryEntry) (nm : list Z) : Z := FindIndex_from 0 t nm.

Definition Find (t : list DirectoryEntry) (nm : list Z) : result Z :=
  let i := FindIndex t nm in
  if bool_decide (i ≠ -1) then e ← rd t i; Ok (s32 (de_sector e)) else Ok (-1).

Definition FindDir (t : list DirectoryEntry) (nm : list Z) : bool :=
  existsb (λ e, inUse e && strncmp_eq FILE_NAME_MAX_LEN (name e) nm && isDirectory e) t.

(** The assignment of an entry by [Add]. *)
Definition fill_entry (e : DirectoryEntry) (nm : list Z) (newSector : Z) (dir : bool)
  : DirectoryEntry :=
  mkDirEntry true (u32 newSector) (strncpy FILE_NAME_MAX_LEN (name e) nm)
    (if dir then true else isDirectory e).

(** The first entry not in use is filled; [None] when there is none. *)
Fixpoint Add_loop (t : list DirectoryEntry) (nm : list Z) (newSector : Z) (dir : bool)
  : option (list DirectoryEntry) :=
  match t with
  | [] => None
  | e :: t =>
      if negb (inUse e) then Some (fill_entry e nm newSector dir :: t)
      else t' ← Add_loop t nm newSector dir; Some (e :: t')
  end.

(** Returns the [bool], the table, and the size given to
    [fileSystem->SetDirectorySize] if the table was resized; [garbage] is the
    uninitialised last entry of the new table. *)
Definition Add (garbage : DirectoryEntry) (t : list DirectoryEntry) (nm : list Z)
    (newSector : Z) (dir : bool) : bool * list DirectoryEntry * option Z :=
  if bool_decide (FindIndex t nm ≠ -1) then (false, t, None)
  else
    match Add_loop t nm newSector dir with
    | Some t' => (true, t', None)
    | None =>
        (true, t ++ [fill_entry garbage nm newSector dir], Some (Z.of_nat (length t) + 1))
    end.

Definition Remove (t : list DirectoryEntry) (nm : list Z)
  : result (bool * list DirectoryEntry) :=
  let i := FindIndex t nm in
  if bool_decide (i = -1) then Ok (false, t)
  else
    e ← rd t i;
    t ← wr t i (mkDirEntry false (de_sector e) (name e) false);
    Ok (true, t).

(** The names [List] prints, one per line. *)
Definition List (t : list DirectoryEntry) : result (list (list Z)) :=
  for_loop (span 0 (Z.of_nat (length t))) 0
    (λ i out, e ← rd t i; if inUse e then s ← cstr (name e); Ok (out ++ [s]) else Ok out) [].

(** The text [PrintNames] writes to [into]; its length is the result. *)
Definition PrintNames (t : list DirectoryEntry) : result (list Z) :=
  for_loop (span 0 (Z.of_nat (length t))) 0
    (λ i out, e ← rd t i;
      if inUse e then
        s ← cstr (name e);
        Ok (out ++ s ++ (if isDirectory e then [47; 10] else [10]))
      else Ok out) [].

(** ** The abstract view *)

(** The characters of an array before the first zero, at most [n]. *)
Fixpoint cut (n : nat) (a : list Z) : list Z :=
  match n, a with
  | S n, c :: a => if bool_decide (c = 0) then [] else c :: cut n a
  | _, _ => []
  end.

Definition key (nm : list Z) : list Z := take FILE_NAME_MAX_LEN nm.
Definition entry_key (e : DirectoryEntry) : list Z := cut FILE_NAME_MAX_LEN (name e).

Fixpoint dir_map (t : list DirectoryEntry) : gmap (list Z) Z :=
  match t with
  | [] => ∅
  | e :: t => if inUse e then <[entry_key e := de_sector e]> (dir_map t) else dir_map t
  end.

Definition keys (t : list DirectoryEntry) : list (list Z) := entry_key <$> filter inUse t.

Record dir_wf (t : list DirectoryEntry) : Prop := {
  dw_size : Z.of_nat (length t) < 2 ^ 31;
  dw_keys : NoDup (keys t)
}.

Lemma strncmp_eq_spec n a b : c_string b → strncmp_eq n a b = bool_decide (cut n a = take n b).
Proof.
  intros Hb. revert a b Hb. induction n as [|n IH]; intros a b Hb; [done|]. cbn [strncmp_eq].
  destruct Hb as [|cb b Hcb Hb].
  - cbn. destruct a as [|ca a]; cbn; [done|]. destruct (decide (ca = 0)) as [->|Hne]; [done|].
    rewrite (bool_decide_true (ca ≠ 0)), (bool_decide_false (ca = 0)) by done. done.
  - destruct a as [|ca a]; cbn [head tail default cut take from_option id].
    + rewrite bool_decide_true by lia. by rewrite bool_decide_false.
    + destruct (decide (ca = cb)) as [->|Hne].
      * rewrite (bool_decide_false (cb ≠ cb)), (bool_decide_false (cb = 0)) by lia.
        rewrite IH by done. apply bool_decide_ext. split; congruence.
      * rewrite (bool_decide_true (ca ≠ cb)) by done.
        symmetry. apply bool_decide_false. destruct (bool_decide (ca = 0)); congruence.
Qed.

Lemma cut_strncpy n dst src : c_string src → cut n (strncpy n dst src) = take n src.
Proof.
  unfold strncpy. intros Hs. revert dst src Hs. induction n as [|n IH]; intros dst src Hs; [by rewrite take_0|].
  destruct Hs as [|c src Hc Hs]; cbn; [done|]. rewrite bool_decide_false by lia. f_equal.
  destruct dst as [|d dst]; [specialize (IH [] src Hs)|exact (IH dst src Hs)].
  rewrite drop_nil in IH. exact IH.
Qed.

Lemma fill_entry_key e nm s d : c_string nm → entry_key (fill_entry e nm s d) = key nm.
Proof. intros. by apply cut_strncpy. Qed.

Lemma match_key e nm : c_string nm →
  inUse e && strncmp_eq FILE_NAME_MAX_LEN (name e) nm = bool_decide (inUse e = true ∧ entry_key e = key nm).
Proof.
  intros. rewrite strncmp_eq_spec by done. unfold entry_key, key.
  destruct (inUse e); cbn [andb]; [apply bool_decide_ext; tauto|].
  symmetry. apply bool_decide_false. by intros [? _].
Qed.

(** [FindIndex] finds the first entry with the key. *)
Lemma FindIndex_from_spec nm t i : c_string nm → 0 ≤ i → i + Z.of_nat (length t) < 2 ^ 31 →
  (FindIndex_from i t nm = -1 ∧ (key nm ∉ keys t) ∧ dir_map t !! (key nm) = None) ∨
  (∃ l1 e l2, t = l1 ++ e :: l2 ∧ FindIndex_from i t nm = i + Z.of_nat (length l1) ∧
     inUse e = true ∧ entry_key e = key nm ∧ (key nm ∉ keys l1) ∧
     dir_map t !! (key nm) = Some (de_sector e)).
Proof.
  intros Hs. revert i. induction t as [|e t IH]; intros i Hi Hl; cbn [FindIndex_from dir_map].
  { left. split_and!; [done| |done]. apply not_elem_of_nil. }
  cbn [length] in Hl. rewrite match_key by done. unfold keys. rewrite filter_cons.
  case_bool_decide as Hm.
  - destruct Hm as [Hu Hk]. right. exists [], e, t. rewrite s32_id by (unfold is_s32; lia).
    rewrite Hu, Hk, lookup_insert_eq. split_and!; try done; [cbn; lia|apply not_elem_of_nil].
  - destruct (IH (i + 1)) as [(E & Hn & Hd)|(l1 & e' & l2 & -> & E & Hu' & Hk' & Hn & Hd)]; [lia..| |].
    + left. rewrite E. destruct (inUse e) eqn:Hu.
      * rewrite decide_True by done. rewrite fmap_cons, not_elem_of_cons.
        rewrite lookup_insert_ne by naive_solver. naive_solver.
      * rewrite decide_False by (by intros []). done.
    + right. exists (e :: l1), e', l2. rewrite E. cbn [length app]. split_and!; try done; [lia| |].
      * unfold keys. rewrite filter_cons. destruct (inUse e) eqn:Hu.
        -- rewrite decide_True by done. rewrite fmap_cons, not_elem_of_cons. naive_solver.
        -- rewrite decide_False by (by intros []). done.
      * destruct (inUse e) eqn:Hu; [|done]. by rewrite lookup_insert_ne by naive_solver.
Qed.

Lemma keys_app a b : keys (a ++ b) = keys a ++ keys b.
Proof. unfold keys. by rewrite filter_app, fmap_app. Qed.

Lemma keys_cons e t : keys (e :: t) = if inUse e then entry_key e :: keys t else keys t.
Proof.
  unfold keys. rewrite filter_cons. destruct (inUse e).
  - by rewrite decide_True.
  - by rewrite decide_False by (by intros []).
Qed.

Lemma dir_map_None t k : k ∉ keys t → dir_map t !! k = None.
Proof.
  induction t as [|e t IH]; [done|]. rewrite keys_cons. cbn [dir_map]. destruct (inUse e); [|done].
  rewrite not_elem_of_cons. intros [Hne Hk]. rewrite lookup_insert_ne by congruence. by apply IH.
Qed.

Lemma dir_map_app a b : dir_map (a ++ b) = dir_map a ∪ dir_map b.
Proof.
  induction a as [|e a IH]; cbn [dir_map app]; [by rewrite (left_id_L ∅ (∪))|].
  destruct (inUse e); rewrite IH; [by rewrite insert_union_l|done].
Qed.

(** Filling a free entry adds the binding. *)
Lemma Add_loop_spec t nm s d t' : c_string nm → key nm ∉ keys t →
  Add_loop t nm s d = Some t' →
  dir_map t' = <[key nm := u32 s]> (dir_map t) ∧ keys t' ≡ₚ key nm :: keys t ∧
  length t' = length t.
Proof.
  intros Hs. revert t'. induction t as [|e t IH]; intros t' Hk; cbn [Add_loop]; [done|].
  rewrite keys_cons in Hk |- *. cbn [dir_map]. destruct (inUse e) eqn:Hu; cbn [negb].
  - apply not_elem_of_cons in Hk as [Hne Hk].
    destruct (Add_loop t nm s d) as [t1|]; [|done]. intros [= <-].
    destruct (IH t1 Hk eq_refl) as (Hm & Hp & Hl). cbn [dir_map length]. rewrite keys_cons, Hu, Hm, Hp, Hl.
    split_and!; [by apply insert_insert_ne; congruence|constructor|done].
  - intros [= <-]. cbn [dir_map length]. rewrite keys_cons. cbn [inUse fill_entry de_sector].
    by rewrite fill_entry_key.
Qed.

Lemma Add_loop_full t nm s d : Add_loop t nm s d = None → Forall (λ e, inUse e = true) t.
Proof.
  induction t as [|e t IH]; [constructor|]. cbn. destruct (inUse e) eqn:Hu; [|done]. cbn.
  destruct (Add_loop t nm s d); [done|]. constructor; [done|by apply IH].
Qed.

Lemma Find_ok t nm : dir_wf t → c_string nm →
  Find t nm = Ok (match dir_map t !! (key nm) with Some v => s32 v | None => -1 end).
Proof.
  intros [Hsize Hnd] Hnm.
  destruct (FindIndex_from_spec nm t 0 Hnm) as [(E & Hk & Hm)|(l1 & e & l2 & -> & E & Hu & He & Hk & Hm)];
    [lia..| |]; unfold Find, FindIndex; rewrite E, Hm; [done|].
  rewrite (bool_decide_true (_ ≠ -1)) by lia.
  rewrite (rd_ok _ _ e); [done|lia|]. rewrite Z.add_0_l, Nat2Z.id. by apply list_lookup_middle.
Qed.

Lemma Add_present g t nm s d : dir_wf t → c_string nm → is_Some (dir_map t !! key nm) →
  Add g t nm s d = (false, t, None).
Proof.
  intros [Hsize Hnd] Hnm [v Hv].
  destruct (FindIndex_from_spec nm t 0 Hnm) as [(E & Hk & Hm)|(l1 & e & l2 & -> & E & Hu & He & Hk & Hm)]; [lia..|congruence|].
  unfold Add, FindIndex. by rewrite E, bool_decide_true by lia.
Qed.

(** [Add] of a new name; the table grows when no entry is free. *)
Lemma entries_Add_ok g t nm s d : dir_wf t → c_string nm → dir_map t !! key nm = None →
  ∃ t' o, Add g t nm s d = (true, t', o) ∧
    dir_map t' = <[key nm := u32 s]> (dir_map t) ∧ NoDup (keys t') ∧
    Z.of_nat (length t') = default (Z.of_nat (length t)) o ∧
    o = if forallb inUse t then Some (Z.of_nat (length t) + 1) else None.
Proof.
  intros [Hsize Hnd] Hnm Hnone.
  destruct (FindIndex_from_spec nm t 0 Hnm) as [(E & Hk & Hm)|(l1 & e & l2 & -> & E & Hu & He & Hk & Hm)]; [lia..| |congruence].
  unfold Add, FindIndex. rewrite E, bool_decide_false by lia. destruct (Add_loop t nm s d) as [t'|] eqn:Ha.
  - destruct (Add_loop_spec _ _ _ _ _ Hnm Hk Ha) as (Hm' & Hp & Hl). exists t', None.
    split_and!; [done|done| |cbn; lia|]. { rewrite Hp. by apply NoDup_cons. }
    destruct (forallb inUse t) eqn:Hf; [|done]. rewrite forallb_forall in Hf. exfalso. clear -Ha Hf.
    revert t' Ha. induction t as [|e t IH]; intros t'; cbn [Add_loop]; [done|].
    rewrite (Hf e) by (by left). cbn [negb]. destruct (Add_loop t nm s d); [|done]. intros _.
    eapply IH; [|done]. intros x Hx. apply Hf. by right.
  - eexists _, _. split; [done|]. rewrite dir_map_app, keys_app, keys_cons. cbn [dir_map].
    cbn [inUse fill_entry de_sector]. rewrite fill_entry_key by done. split_and!.
    + rewrite insert_empty. symmetry. rewrite insert_union_singleton_r; done.
    + apply NoDup_app. split_and!; [done| |apply NoDup_singleton].
      intros k Hin ->%list_elem_of_singleton. done.
    + rewrite length_app. cbn. lia.
    + apply Add_loop_full in Ha. assert (forallb inUse t = true) as ->; [|done].
      apply forallb_forall. rewrite Forall_forall in Ha. intros x Hx. apply Ha. by apply list_elem_of_In.
Qed.

Lemma entries_Remove_ok t nm : dir_wf t → c_string nm →
  ∃ t', Remove t nm = Ok (bool_decide (is_Some (dir_map t !! (key nm))), t') ∧
    dir_map t' = delete (key nm) (dir_map t) ∧ dir_wf t' ∧ length t' = length t.
Proof.
  intros [Hsize Hnd] Hnm.
  destruct (FindIndex_from_spec nm t 0 Hnm) as [(E & Hk & Hm)|(l1 & e & l2 & -> & E & Hu & He & Hk & Hm)];
    [lia..| |]; unfold Remove, FindIndex; rewrite E, Hm.
  - exists t. by rewrite delete_id by done.
  - rewrite (bool_decide_false (_ = -1)) by lia.
    rewrite (rd_ok _ _ e); [|lia|rewrite Z.add_0_l, Nat2Z.id; by apply list_lookup_middle].
    cbn [mbind result_bind]. rewrite wr_ok by (rewrite length_app; cbn; lia).
    cbn [mbind result_bind]. eexists. split; [done|].
    rewrite Z.add_0_l, Nat2Z.id, insert_app_r_alt, Nat.sub_diag by lia. cbn [list_insert insert].
    rewrite keys_app, keys_cons, Hu, He in Hnd.
    apply NoDup_app in Hnd as (Hn1 & Hn2 & [Hn3 Hn4]%NoDup_cons). split; [|split].
    + rewrite !dir_map_app. cbn [dir_map inUse]. rewrite Hu, He.
      rewrite delete_union, delete_insert_eq, !delete_id by (by apply dir_map_None). done.
    + rewrite length_app in Hsize. split; [rewrite length_app; cbn in *; lia|].
      rewrite keys_app, keys_cons. cbn [inUse]. apply NoDup_app. split_and!; [done| |done].
      intros k H1 H2. apply (Hn2 k H1). by right.
    + rewrite !length_app. done.
Qed.

(** A directory is a finite map from names, cut to 20 characters, to
    header sectors.  [Find] looks the name up (-1 when absent); [Add] refuses a
    name that is present and otherwise adds exactly this binding, in a free
    entry or in a new one at the end; [Remove] deletes exactly this binding and
    reports whether it was there; the invariant (distinct names in use) is
    kept, and no array access is out of range. *)
Theorem Directory_refines_map g t nm s d (Hwf : dir_wf t) (Hnm : c_string nm) :
  Find t nm = Ok (match dir_map t !! (key nm) with Some v => s32 v | None => -1 end) ∧
  (match dir_map t !! (key nm) with
   | Some _ => Add g t nm s d = (false, t, None)
   | None => ∃ t' o, Add g t nm s d = (true, t', o) ∧
       dir_map t' = <[key nm := u32 s]> (dir_map t) ∧ NoDup (keys t') ∧
       Z.of_nat (length t') = default (Z.of_nat (length t)) o
   end) ∧
  (∃ t', Remove t nm = Ok (bool_decide (is_Some (dir_map t !! (key nm))), t') ∧
     dir_map t' = delete (key nm) (dir_map t) ∧ dir_wf t').
Proof.
  split; [by apply Find_ok|]. split.
  - destruct (dir_map t !! key nm) eqn:E; [by apply Add_present|].
    destruct (entries_Add_ok g t nm s d Hwf Hnm E) as (t' & o & ? & ? & ? & ? & _). by exists t', o.
  - destruct (entries_Remove_ok t nm Hwf Hnm) as (t' & ? & ? & ? & _). by exists t'.
Qed.

(** Two entries, "ab" and "cd", and a free one. *)
Definition demo_table : list DirectoryEntry :=
  [mkDirEntry true 5 ([97; 98] ++ replicate 19 0) false;
   mkDirEntry false 0 (replicate 21 0) false;
   mkDirEntry true 9 ([99; 100] ++ replicate 19 0) true].
Definition demo_garbage : DirectoryEntry := mkDirEntry true 77 (replicate 21 255) true.

Lemma demo_table_wf : dir_wf demo_table.
Proof. split; [reflexivity|]. by apply (bool_decide_unpack _). Qed.

Lemma Directory_refines_map_witness :
  ∃ t', Remove demo_table [99; 100] = Ok (true, t') ∧
    dir_map t' = delete [99; 100] (dir_map demo_table).
Proof.
  destruct (Directory_refines_map demo_garbage demo_table [99; 100] 3 false) as (_ & _ & t' & E & Hm & _).
  - exact demo_table_wf.
  - repeat constructor; lia.
  - exists t'. split; [exact E|exact Hm].
Defined.

(** ** Round trip through the file *)
Definition entry_ok (e : DirectoryEntry) : Prop :=
  is_u32 (de_sector e) ∧ length (name e) = 21%nat ∧ Forall is_byte (name e).

Lemma entry_bytes_length e : entry_ok e → length (entry_bytes e) = 32%nat.
Proof.
  intros (_ & Hn & _). unfold entry_bytes. cbn [length].
  rewrite !length_app, le_bytes_length, Hn, !length_replicate. reflexivity.
Qed.

Lemma entry_of_entry_bytes e : entry_ok e → entry_of_bytes (entry_bytes e) = e.
Proof.
  intros (Hs & Hn & _). destruct e as [u s nm d]. cbn in Hn, Hs. unfold entry_bytes, entry_of_bytes.
  cbn [inUse de_sector name isDirectory].
  assert (∃ a b c f, le_bytes 4 s = [a; b; c; f]) as (a & b & c & f & E) by (cbn; eauto).
  rewrite E. cbn [replicate app take drop].
  rewrite <-E at 1. rewrite le_word_bytes by (unfold is_u32 in Hs; cbn; lia).
  rewrite drop_0, take_app_length' by done. f_equal; [by destruct u|].
  change (nth 29 _ 0) with (nth 21 (nm ++ [byte_of_bool d] ++ replicate 2 0) 0).
  rewrite app_nth2, Hn by lia. by destruct d.
Qed.

(** The bytes of a directory table are 32 per entry, and reading them back
    gives the same table, entry by entry. *)
Theorem Directory_roundtrip t (Ht : Forall entry_ok t) :
  length (table_bytes t) = (32 * length t)%nat ∧
  table_of_bytes (length t) (table_bytes t) = t.
Proof.
  unfold table_bytes. induction Ht as [|e t He _ [IHl IH]]; [done|]. rewrite bind_cons.
  pose proof (entry_bytes_length e He) as Hl. split.
  - rewrite length_app, IHl, Hl. cbn [length]. lia.
  - cbn [length table_of_bytes]. rewrite take_app_length', drop_app_length' by done.
    by rewrite entry_of_entry_bytes, IH.
Qed.

(** The entries stay well formed. *)
Lemma fill_entry_ok e nm s d : entry_ok e → c_string nm → entry_ok (fill_entry e nm s d).
Proof.
  intros (_ & Hn & Hb) Hs. split_and!; cbn [de_sector name fill_entry].
  - apply u32_range.
  - unfold strncpy, FILE_NAME_MAX_LEN. rewrite !length_app, length_take, length_replicate, length_drop. lia.
  - unfold strncpy. repeat apply Forall_app_2.
    + apply Forall_take. eapply Forall_impl; [exact Hs|]. unfold is_byte. cbn. lia.
    + apply Forall_replicate. unfold is_byte. lia.
    + by apply Forall_drop.
Qed.

Lemma Add_loop_entries t nm s d t' : Forall entry_ok t → c_string nm → Add_loop t nm s d = Some t' →
  Forall entry_ok t'.
Proof.
  intros Ht Hs. revert t'. induction Ht as [|e t He Ht IH]; intros t'; cbn [Add_loop]; [done|].
  destruct (inUse e); cbn [negb].
  - destruct (Add_loop t nm s d) as [t1|]; [|done]. intros [= <-]. constructor; [done|by apply IH].
  - intros [= <-]. constructor; [by apply fill_entry_ok|done].
Qed.

Lemma Add_entries g t nm s d b t' o : Forall entry_ok t → entry_ok g → c_string nm →
  Add g t nm s d = (b, t', o) → Forall entry_ok t'.
Proof.
  intros Ht Hg Hs. unfold Add. case_bool_decide; [by intros [= <- <- <-]|].
  destruct (Add_loop t nm s d) eqn:E; intros [= <- <- <-]; [by eapply Add_loop_entries|].
  apply Forall_app_2; [done|]. constructor; [by apply fill_entry_ok|constructor].
Qed.

Lemma Remove_entries t nm b t' : Forall entry_ok t → Remove t nm = Ok (b, t') → Forall entry_ok t'.
Proof.
  intros Ht. unfold Remove. case_bool_decide; [by intros [= <- <-]|].
  intros (e & [_ He]%rd_inv & H2)%result_bind_ok. apply result_bind_ok in H2 as (t2 & E2 & [= <- <-]).
  unfold wr in E2. case_bool_decide; [|done]. injection E2 as <-.
  apply Forall_insert; [done|]. apply (Forall_lookup_1 _ _ _ _ Ht) in He. exact He.
Qed.

Lemma full_size t : forallb inUse t = true → NoDup (keys t) → size (dir_map t) = length t.
Proof.
  induction t as [|e t IH]; [done|]. cbn [forallb dir_map length]. intros [He Ht]%andb_true_iff. rewrite keys_cons, He.
  intros [Hk Hn]%NoDup_cons. rewrite map_size_insert_None by (by apply dir_map_None). by rewrite IH.
Qed.

(** An entry that was never used, and a directory without subdirectories. *)
Definition blank (e : DirectoryEntry) : Prop := inUse e = false ∧ isDirectory e = false.
Definition plain (t : list DirectoryEntry) : Prop := Forall (λ e, isDirectory e = false) t.

Lemma FindDir_plain t nm : plain t → FindDir t nm = false.
Proof. induction 1 as [|e t He _ IH]; [done|]. cbn [FindDir existsb]. rewrite He, andb_false_r. exact IH. Qed.

Lemma Add_loop_plain t nm s t' : plain t → Add_loop t nm s false = Some t' → plain t'.
Proof.
  intros Ht. revert t'. induction Ht as [|e t He Ht IH]; intros t'; cbn [Add_loop]; [done|].
  destruct (inUse e); cbn [negb].
  - destruct (Add_loop t nm s false) as [t1|]; [|done]. intros [= <-]. constructor; [done|by apply IH].
  - intros [= <-]. by constructor.
Qed.

Lemma Add_plain g t nm s b t' o : plain t → (o ≠ None → isDirectory g = false) → Add g t nm s false = (b, t', o) → plain t'.
Proof.
  intros Ht Hg. unfold Add. case_bool_decide; [by intros [= <- <- <-]|].
  destruct (Add_loop t nm s false) eqn:E; intros [= <- <- <-]; [by eapply Add_loop_plain|].
  apply Forall_app_2; [done|]. specialize (Hg ltac:(done)). by repeat constructor.
Qed.

Lemma Remove_plain t nm b t' : plain t → Remove t nm = Ok (b, t') → plain t'.
Proof.
  intros Ht. unfold Remove. case_bool_decide; [by intros [= <- <-]|].
  intros (e & _ & H2)%result_bind_ok. apply result_bind_ok in H2 as (t2 & E2 & [= <- <-]).
  unfold wr in E2. case_bool_decide; [|done]. injection E2 as <-. by apply Forall_insert.
Qed.

Lemma new_Directory_ok g : g ≠ [] → Forall entry_ok g →
  ∃ t, new_Directory (Z.of_nat (length g)) g = Ok t ∧ length t = length g ∧ Forall entry_ok t ∧
    Forall blank t.
Proof.
  intros Hg Hok. unfold new_Directory. rewrite bool_decide_true by (destruct g; [done|cbn; lia]). cbn [ASSERT mbind result_bind].
  destruct (for_loop_ind (λ i t, length t = length g ∧ Forall entry_ok t ∧ Forall blank (take (Z.to_nat i) t)) (span 0 (Z.of_nat (length g))) 0
    (λ i t, e ← rd t i; wr t i (mkDirEntry false (de_sector e) (name e) false)) g) as (t & -> & Hl & Ht & Hu).
  - split_and!; [done|done|constructor].
  - unfold span. intros i t Hi (Hl & Ht & Hu). destruct (rd_in_range t i) as (e & -> & He); [lia|]. cbn [mbind result_bind].
    rewrite wr_ok by lia. eexists. split; [done|]. split; [by rewrite length_insert|]. split.
    + apply Forall_insert; [done|]. apply (Forall_lookup_1 _ _ _ _ Ht) in He. exact He.
    + replace (Z.to_nat (i + 1)) with (S (Z.to_nat i)) by lia.
      erewrite take_S_r by (apply list_lookup_insert_eq; by eapply lookup_lt_Some).
      rewrite take_insert_ge by lia. apply Forall_app. by repeat constructor.
  - exists t. split_and!; [done..|]. rewrite take_ge in Hu by (unfold span; lia). exact Hu.
Qed.

(** A table without names. *)
Lemma blank_dir_map t : Forall blank t → dir_map t = ∅ ∧ keys t = [] ∧ plain t.
Proof.
  induction 1 as [|e t [He Hd] _ (IH1 & IH2 & IH3)]; [split_and!; [done..|constructor]|]. cbn. rewrite He. split_and!; [done..|by constructor].
Qed.

Lemma entry_of_bytes_ok bs : length bs = 32%nat → Forall is_byte bs → entry_ok (entry_of_bytes bs).
Proof.
  intros Hl Hb. split_and!; cbn [de_sector name entry_of_bytes].
  - pose proof (le_word_range (take 4 (drop 4 bs))) as Hr. rewrite length_take, length_drop, Hl in Hr.
    unfold is_u32. apply Hr. by apply Forall_take, Forall_drop.
  - rewrite length_take, length_drop. lia.
  - by apply Forall_take, Forall_drop.
Qed.

Lemma table_of_bytes_ok n bs : length bs = (32 * n)%nat → Forall is_byte bs → Forall entry_ok (table_of_bytes n bs).
Proof.
  revert bs. induction n as [|n IH]; intros bs Hl Hb; cbn [table_of_bytes]; constructor.
  - apply entry_of_bytes_ok; [rewrite length_take; lia|by apply Forall_take].
  - apply IH; [rewrite length_drop; lia|by apply Forall_drop].
Qed.

Lemma table_of_bytes_length n bs : length (table_of_bytes n bs) = n.
Proof. revert bs. induction n; intros bs; cbn; congruence. Qed.

Lemma table_of_bytes_app m n bs cs : length bs = (32 * m)%nat →
  table_of_bytes (m + n) (bs ++ cs) = table_of_bytes m bs ++ table_of_bytes n cs.
Proof.
  revert bs. induction m as [|m IH]; intros bs Hl; [by destruct bs|].
  cbn [Nat.add table_of_bytes app]. rewrite take_app_le, drop_app_le by lia.
  rewrite IH by (rewrite length_drop; lia). done.
Qed.

Lemma Directory_roundtrip_witness :
  table_of_bytes 3 (table_bytes demo_table) = demo_table.
Proof.
  apply (Directory_roundtrip demo_table).
  repeat constructor; unfold is_u32, is_byte; cbn; lia.
Defined.

(** In a full directory the kind of a new plain file is whatever the new
    memory held: [Add] resizes the table and sets [isDirectory] only for
    directories, so [FindDir] of the file is the uninitialised byte. *)
Theorem Add_resize_kind g t nm s t' o (Hwf : dir_wf t) (Hnm : c_string nm)
  (Hfull : Forall (λ e, inUse e = true) t) (Ha : Add g t nm s false = (true, t', o)) :
  FindDir t' nm = isDirectory g.
Proof.
  unfold Add, FindIndex in Ha. destruct (FindIndex_from_spec nm t 0 Hnm)
    as [(E & Hk & _)|(l1 & e & l2 & _ & E & _)]; [lia|apply Hwf| |];
    rewrite E in Ha; [rewrite bool_decide_false in Ha by lia|by rewrite bool_decide_true in Ha by lia].
  destruct (Add_loop t nm s false) as [t1|] eqn:El.
  { exfalso. clear -Hfull El. revert t1 El. induction Hfull as [|e t He _ IH]; intros t1; cbn; [done|].
    rewrite He. cbn. destruct (Add_loop t nm s false) as [t2|]; [|done]. by destruct (IH t2 eq_refl). }
  injection Ha as <- _. unfold FindDir. rewrite existsb_app. cbn [existsb].
  rewrite orb_false_r. rewrite match_key by done. rewrite fill_entry_key by done.
  rewrite bool_decide_true by done. cbn [andb fill_entry isDirectory].
  replace (existsb _ t) with false; [done|]. symmetry. apply not_true_iff_false.
  rewrite existsb_exists. intros (e & Hin & [Hm _]%andb_true_iff). rewrite match_key in Hm by done.
  apply bool_decide_eq_true in Hm as [Hu He]. apply Hk. rewrite <-He. unfold keys.
  apply list_elem_of_fmap_2, list_elem_of_filter. split; [by rewrite Hu|by apply list_elem_of_In].
Qed.

Lemma Add_resize_kind_witness :
  let t := [mkDirEntry true 5 ([97] ++ replicate 20 0) false] in
  FindDir (Add demo_garbage t [98] 7 false).1.2 [98] = true.
Proof.
  intros t. apply (Add_resize_kind demo_garbage t [98] 7 _ (Some 2)).
  - split; [reflexivity|]. apply NoDup_singleton.
  - repeat constructor; lia.
  - repeat constructor.
  - reflexivity.
Defined.
