(* ===== verification/FileSystem.v ===== *)
(** * [filesys/file_system.cc]: the file system

    The operations of class [FileSystem] as programs of a small state and error
    monad.  The state is what the class and the globals it uses keep: the
    disk, the table of open files, the open files of the bitmap and of the
    current directory, and the size of the current directory.  A thread runs
    an operation between its lock operations; [Remove] of a file that is still
    open stops where it waits for the message of the last close. *)

From S2P Require Import Prelude Bitmap Disk FileHeader OpenFile ReadWrite Directory.
From stdpp Require Import base option list gmap numbers tactics.
From stdpp Require Import list.
Open Scope Z_scope.

Definition FREE_MAP_SECTOR : Z := 0.
Definition DIRECTORY_SECTOR : Z := 1.
Definition FREE_MAP_FILE_SIZE : Z := NUM_SECTORS / 8.
Definition MAX_DIR_LEVEL : Z := 10.
Definition FILE_PATH_MAX_LEN : Z := Z.of_nat FILE_NAME_MAX_LEN * MAX_DIR_LEVEL.
Definition SLASH : Z := 47.

(** A chain of headers without a cycle has at most one header per sector. *)
Definition FUEL : nat := Z.to_nat NUM_SECTORS.

Section FileSystem.
Context {S : Type} `{SectorStore S}.
Context (uninit : Z → list Z).
(** [runningProcesses->HasKey] and [currentThread->GetSpaceId()]. *)
Context (running : Z → bool) (currentSpaceId : Z).

Record FileSystem := mkFS {
  fs_disk : S;
  openFilesTable : list OpenFileEntry;
  freeMapFile : OpenFile;
  directoryFile : OpenFile;
  directorySize : Z;
  messages : list Z       (* the removers [Send] has woken, in order *)
}.

(** ** The monad *)
Definition M (A : Type) : Type := FileSystem → result (A * FileSystem).

#[local] Instance M_ret : MRet M := λ A a s, Ok (a, s).
#[local] Instance M_bind : MBind M := λ A B k m s,
  match m s with Ok (a, s) => k a s | Err e => Err e end.

Definition lift {A} (m : result A) : M A := λ s, a ← m; Ok (a, s).
Definition get {A} (f : FileSystem → A) : M A := λ s, Ok (f s, s).

Definition set_disk (x : S) : M unit := λ s,
  Ok (tt, mkFS x (openFilesTable s) (freeMapFile s) (directoryFile s) (directorySize s) (messages s)).
Definition set_table (t : list OpenFileEntry) : M unit := λ s,
  Ok (tt, mkFS (fs_disk s) t (freeMapFile s) (directoryFile s) (directorySize s) (messages s)).
Definition set_directoryFile (f : OpenFile) : M unit := λ s,
  Ok (tt, mkFS (fs_disk s) (openFilesTable s) (freeMapFile s) f (directorySize s) (messages s)).
Definition set_freeMapFile (f : OpenFile) : M unit := λ s,
  Ok (tt, mkFS (fs_disk s) (openFilesTable s) f (directoryFile s) (directorySize s) (messages s)).
Definition SetDirectorySize (n : Z) : M unit := λ s,
  Ok (tt, mkFS (fs_disk s) (openFilesTable s) (freeMapFile s) (directoryFile s) n (messages s)).
Definition send (m : option Z) : M unit := λ s,
  Ok (tt, mkFS (fs_disk s) (openFilesTable s) (freeMapFile s) (directoryFile s) (directorySize s)
            (messages s ++ match m with Some i => [i] | None => [] end)).

(** Programs on the disk. *)
Definition on_disk {A} (m : S → result (A * S)) : M A :=
  x ← get fs_disk;
  r ← lift (m x);
  let '(a, x) := r in
  _ ← set_disk x;
  mret a.
Definition on_disk_ (m : S → result S) : M unit :=
  on_disk (λ x, x ← m x; Ok (tt, x)).

Definition entry (sec : Z) : M OpenFileEntry :=
  t ← get openFilesTable; lift (rd t sec).
Definition set_entry (sec : Z) (e : OpenFileEntry) : M unit :=
  t ← get openFilesTable; t ← lift (wr t sec e); set_table t.

(** [new OpenFile(sector)] and [delete file]. *)
Definition open_file (sec : Z) : M OpenFile :=
  t ← get openFilesTable;
  r ← on_disk (λ x, r ← new_OpenFile t x sec; let '(f, t, x) := r in Ok ((f, t), x));
  let '(f, t) := r in
  _ ← set_table t;
  mret f.
Definition close_file (f : OpenFile) : M unit :=
  t ← get openFilesTable;
  r ← lift (close_OpenFile running t f);
  let '(t, msg) := r in
  _ ← set_table t;
  send msg.

(** ** Directories and the bitmap in their files *)

(** [new Directory(size)]. *)
Definition new_dir (size : Z) : M (list DirectoryEntry) :=
  lift (new_Directory size (table_of_bytes (Z.to_nat size) (uninit (size * ENTRY_SIZE)))).

(** [dir->FetchFrom(file, needTableSize)]: the table, the object of the file, and
    the result. *)
Definition dir_FetchFrom (t : list DirectoryEntry) (file : OpenFile) (needTableSize : bool)
  : M (list DirectoryEntry * OpenFile * Z) :=
  let n := Z.of_nat (length t) in
  r ← on_disk (λ x, r ← Read FUEL file x (u32 (n * ENTRY_SIZE)) true;
                    let '(bs, f, x) := r in Ok ((bs, f), x));
  let '(bs, file) := r in
  let t := table_of_bytes (length t) (bs ++ drop (length bs) (table_bytes t)) in
  let result := Z.of_nat (length bs) in
  if needTableSize then
    let tableSize := result / ENTRY_SIZE in
    mret (take (Z.to_nat tableSize) t, file, tableSize)
  else mret (t, file, result).

Definition dir_WriteBack (t : list DirectoryEntry) (file : OpenFile) (firstTime : bool)
  : M OpenFile :=
  let bytes := table_bytes t in
  let n := u32 (Z.of_nat (length t) * ENTRY_SIZE) in
  if firstTime then
    _ ← on_disk (λ x, WriteAt uninit (hdr file) x bytes n 0);
    mret file
  else
    t ← get openFilesTable;
    fm ← get freeMapFile;
    on_disk (λ x, r ← Write uninit FUEL t fm file x bytes n true;
                  let '(_, f, x) := r in Ok (f, x)).

(** The table of the current directory: [new Directory(directorySize)] and
    [FetchFrom(directoryFile)]. *)
Definition current_dir : M (list DirectoryEntry) :=
  n ← get directorySize;
  t ← new_dir n;
  f ← get directoryFile;
  r ← dir_FetchFrom t f false;
  let '(t, f, _) := r in
  _ ← set_directoryFile f;
  mret t.

(** [new Directory(MAX_DIR_ENTRIES)] and [FetchFrom(file, 1)], for the size. *)
Definition table_size (file : OpenFile) : M (OpenFile * Z) :=
  t ← new_dir MAX_DIR_ENTRIES;
  r ← dir_FetchFrom t file true;
  let '(_, f, n) := r in
  mret (f, n).

(** The same for [directoryFile], assigned to [directorySize]. *)
Definition refresh_directorySize : M unit :=
  f ← get directoryFile;
  r ← table_size f;
  let '(f, n) := r in
  _ ← set_directoryFile f;
  SetDirectorySize n.

Definition fetch_freeMap : M Bitmap :=
  fm ← get freeMapFile; on_disk (load_freeMap uninit fm).
Definition write_freeMap (b : Bitmap) : M unit :=
  fm ← get freeMapFile; on_disk_ (Bitmap_WriteBack uninit b fm).

(** [dir->Add], with its call of [SetDirectorySize]. *)
Definition dir_Add (t : list DirectoryEntry) (nm : list Z) (sec : Z) (isDir : bool)
  : M (bool * list DirectoryEntry) :=
  let '(b, t, resized) := Directory.Add (entry_of_bytes (uninit ENTRY_SIZE)) t nm sec isDir in
  _ ← match resized with Some n => SetDirectorySize n | None => mret tt end;
  mret (b, t).

(** The reset of the entry of a new file. *)
Definition fresh_entry (sec : Z) : M unit :=
  e ← entry sec;
  set_entry sec (mkEntry 0 false false LNull LLive LNull (removerSpaceId e)).

(** ** The constructor *)
Definition FileSystem_format : M unit :=
  freeMap ← lift (new_Bitmap NUM_SECTORS (bytes_words 32 (uninit 128)));
  dir ← new_dir NUM_DIR_ENTRIES;
  let mapH := header_of_bytes (uninit 128) in
  let dirH := header_of_bytes (uninit 128) in
  freeMap ← lift (Mark freeMap FREE_MAP_SECTOR);
  freeMap ← lift (Mark freeMap DIRECTORY_SECTOR);
  r ← lift (Allocate mapH freeMap FREE_MAP_FILE_SIZE);
  let '(ok, mapH, freeMap) := r in
  _ ← lift (ASSERT ok);
  let mapH := mkHeader (numBytes mapH) (numSectors mapH) (dataSectors mapH) 0 in
  r ← lift (Allocate dirH freeMap DIRECTORY_FILE_SIZE);
  let '(ok, dirH, freeMap) := r in
  _ ← lift (ASSERT ok);
  let dirH := mkHeader (numBytes dirH) (numSectors dirH) (dataSectors dirH) 0 in
  _ ← on_disk_ (λ x, WriteBack mapH x FREE_MAP_SECTOR);
  _ ← on_disk_ (λ x, WriteBack dirH x DIRECTORY_SECTOR);
  fm ← open_file FREE_MAP_SECTOR;
  _ ← set_freeMapFile fm;
  df ← open_file DIRECTORY_SECTOR;
  _ ← set_directoryFile df;
  _ ← write_freeMap freeMap;
  df ← dir_WriteBack dir df true;
  set_directoryFile df.

Definition FileSystem_boot : M unit :=
  fm ← open_file FREE_MAP_SECTOR;
  _ ← set_freeMapFile fm;
  df ← open_file DIRECTORY_SECTOR;
  _ ← set_directoryFile df;
  refresh_directorySize.

(** ** Paths *)

(** [sprintf(buf, "%s", s)] into a buffer of [FILE_PATH_MAX_LEN] characters. *)
Definition path_copy (s : list Z) : result (list Z) :=
  if bool_decide (Z.of_nat (length s) < FILE_PATH_MAX_LEN) then Ok s else Err OutOfBounds.

(** The tokens [strtok_r] finds with the delimiter [d]. *)
Fixpoint tokens_aux (d : Z) (tok : list Z) (s : list Z) : list (list Z) :=
  match s with
  | [] => if decide (tok = []) then [] else [tok]
  | c :: s =>
      if decide (c = d) then (if decide (tok = []) then [] else [tok]) ++ tokens_aux d [] s
      else tokens_aux d (tok ++ [c]) s
  end.
Definition tokens (d : Z) (s : list Z) : list (list Z) := tokens_aux d [] s.

(** The loop that looks for [lastSlashFound], from index [i]. *)
Fixpoint last_slash (i found : nat) (s : list Z) : nat :=
  match s with
  | [] => found
  | c :: s => last_slash (Datatypes.S i) (if decide (c = SLASH) then i else found) s
  end.
Definition lastSlashFound (nm : list Z) : nat := last_slash 1 0 (drop 1 nm).

(** ** [Open] *)
Definition Open (nm : list Z) : M (option OpenFile) :=
  dir ← current_dir;
  sector ← lift (Directory.Find dir nm);
  if bool_decide (sector >= 0) then
    e ← entry sector;
    if negb (removing e) then f ← open_file sector; mret (Some f) else mret None
  else mret None.

(** [Open] where the pointer goes to [Directory::FetchFrom], which asserts that
    it is not null. *)
Definition Open_deref (nm : list Z) : M OpenFile :=
  f ← Open nm;
  match f with Some f => mret f | None => lift (Err AssertFail) end.

(** ** [ChangeDir] *)

(** The loop over the names of an absolute path; [currDir] is the table of the
    directory reached so far. *)
Fixpoint ChangeDir_walk (names : list (list Z)) (currDir : list DirectoryEntry) : M bool :=
  match names with
  | [] => mret true
  | nm :: names =>
      if FindDir currDir nm then
        tmpOpen ← get directoryFile;
        f ← Open_deref nm;
        _ ← set_directoryFile f;
        _ ← close_file tmpOpen;
        _ ← refresh_directorySize;
        currDir ← current_dir;
        ChangeDir_walk names currDir
      else mret false
  end.

Definition ChangeDir (nm : list Z) (onlyChange : bool) : M bool :=
  if bool_decide (head nm = Some SLASH) then
    nameCopy ← lift (path_copy (drop 1 nm));
    let names := tokens SLASH nameCopy in
    (* the last [splittedName[count]] written is at index [length names] *)
    _ ← (if bool_decide (Z.of_nat (length names) < MAX_DIR_LEVEL) then mret tt
         else lift (Err OutOfBounds));
    backupDirFile ← get directoryFile;
    backupDirSize ← get directorySize;
    rootDirFile ← open_file DIRECTORY_SECTOR;
    _ ← set_directoryFile rootDirFile;
    _ ← refresh_directorySize;
    currDir ← current_dir;
    success ← ChangeDir_walk names currDir;
    if negb success then
      _ ← set_directoryFile backupDirFile;
      _ ← SetDirectorySize backupDirSize;
      mret false
    else
      _ ← (if onlyChange then close_file backupDirFile else mret tt);
      mret true
  else
    dir ← current_dir;
    if FindDir dir nm then
      f ← Open_deref nm;
      openFileToDelete ← get directoryFile;
      _ ← set_directoryFile f;
      _ ← close_file openFileToDelete;
      _ ← refresh_directorySize;
      mret true
    else mret false.

(** ** [Create] and [CreateDir]

    The first part of both: for an absolute path, change to its directory;
    the result is the backup of [directoryFile] and the name to create, or
    [None] for [return false]. *)
Definition enter_path (nm : list Z) : M (option (option OpenFile * list Z)) :=
  if bool_decide (head nm = Some SLASH) then
    if bool_decide (length nm = 1%nat) then mret None
    else
      nameCopy ← lift (path_copy nm);
      let last := lastSlashFound nm in
      let dirName := take last nameCopy in
      directoryFileBackup ← get directoryFile;
      ok ← ChangeDir (if decide (dirName = []) then [SLASH] else dirName) false;
      if (ok : bool)
      then mret (Some (Some directoryFileBackup, drop (Datatypes.S last) nameCopy))
      else mret None
  else mret (Some (None, nm)).

(** The last part: back to the directory before the change. *)
Definition leave_path (backup : option OpenFile) : M unit :=
  match backup with
  | Some directoryFileBackup =>
      tmpOpen ← get directoryFile;
      _ ← set_directoryFile directoryFileBackup;
      _ ← close_file tmpOpen;
      refresh_directorySize
  | None => mret tt
  end.

(** The part of [Create] for a name that is not in the directory. *)
Definition Create_new (dir : list DirectoryEntry) (nm : list Z) : M bool :=
  freeMap ← fetch_freeMap;
  r ← lift (Bitmap.Find freeMap);
  let '(sector, freeMap) := r in
  let success := bool_decide (sector ≠ -1) in
  r ← dir_Add dir nm sector false;
  let '(added, dir) := r in
  if negb added then mret false
  else if success then
    _ ← on_disk_ (λ x, WriteBack (fresh_header uninit) x sector);
    _ ← write_freeMap freeMap;
    df ← get directoryFile;
    df ← dir_WriteBack dir df false;
    _ ← set_directoryFile df;
    _ ← fresh_entry sector;
    mret true
  else mret false.

Definition Create (nm : list Z) : M bool :=
  p ← enter_path nm;
  match p with
  | None => mret false
  | Some (backup, nm) =>
      dir ← current_dir;
      found ← lift (Directory.Find dir nm);
      success ← (if bool_decide (found ≠ -1) then mret false else Create_new dir nm);
      _ ← leave_path backup;
      mret success
  end.

(** When [dirHeader->Allocate] fails, [CreateDir] returns at once, without going
    back to the directory it started from. *)
Definition CreateDir (nm : list Z) : M bool :=
  p ← enter_path nm;
  match p with
  | None => mret false
  | Some (backup, nm) =>
      dir ← current_dir;
      found ← lift (Directory.Find dir nm);
      r ← (if bool_decide (found ≠ -1) then mret (Some false)
        else
          freeMap ← fetch_freeMap;
          r ← lift (Bitmap.Find freeMap);
          let '(sector, freeMap) := r in
          let success := bool_decide (sector ≠ -1) in
          r ← dir_Add dir nm sector true;
          let '(added, dir) := r in
          if negb added then mret (Some false)
          else if success then
            r ← lift (Allocate (fresh_header uninit) freeMap DIRECTORY_FILE_SIZE);
            let '(ok, dirHeader, freeMap) := r in
            if negb ok then mret None
            else
              _ ← on_disk_ (λ x, WriteBack dirHeader x sector);
              _ ← write_freeMap freeMap;
              newDir ← new_dir NUM_DIR_ENTRIES;
              newDirectoryFile ← open_file sector;
              _ ← dir_WriteBack newDir newDirectoryFile true;
              df ← get directoryFile;
              df ← dir_WriteBack dir df false;
              _ ← set_directoryFile df;
              _ ← fresh_entry sector;
              mret (Some true)
          else mret (Some false));
      match r with
      | None => mret false
      | Some success => _ ← leave_path backup; mret success
      end
  end.

(** ** [Remove] *)

(** [while (nextSector)]: free the data and the header of every later header. *)
Fixpoint Remove_chain (fuel : nat) (nextSector : Z) (freeMap : Bitmap) : M Bitmap :=
  if bool_decide (nextSector ≠ 0) then
    match fuel with
    | O => lift (Err OutOfFuel)
    | Datatypes.S fuel =>
        fileH ← on_disk (λ x, FetchFrom x nextSector);
        freeMap ← lift (Deallocate fileH freeMap);
        freeMap ← lift (Clear freeMap nextSector);
        Remove_chain fuel (nextFileHeader fileH) freeMap
    end
  else mret freeMap.

Inductive remove_outcome :=
| Returned (b : bool)
| Waiting (dir : list DirectoryEntry) (sector : Z) (fileH : RawFileHeader) (freeMap : Bitmap).

(** From the point where no other thread has the file open. *)
Definition Remove_finish (nm : list Z) (dir : list DirectoryEntry) (sector : Z)
    (fileH : RawFileHeader) (freeMap : Bitmap) : M bool :=
  freeMap ← lift (Deallocate fileH freeMap);
  freeMap ← lift (Clear freeMap sector);
  freeMap ← Remove_chain FUEL (nextFileHeader fileH) freeMap;
  r ← lift (Directory.Remove dir nm);
  let '(_, dir) := r in
  _ ← write_freeMap freeMap;
  df ← get directoryFile;
  df ← dir_WriteBack dir df false;
  _ ← set_directoryFile df;
  e ← entry sector;
  (* [removed = true], [removeLock->Release()] if there is one, [removing = false] *)
  _ ← lift (if decide (removeLock e = LNull) then Ok tt else use_lock (removeLock e));
  _ ← set_entry sector (mkEntry (count e) false true (writeLock e) (removeLock e) (closeLock e)
                          (removerSpaceId e));
  mret true.

Definition Remove (nm : list Z) (callingFromRemoveDir : bool) : M remove_outcome :=
  dir ← current_dir;
  sector ← lift (Directory.Find dir nm);
  if bool_decide (sector = -1) then mret (Returned false)
  else if FindDir dir nm && negb callingFromRemoveDir then mret (Returned false)
  else
    e ← entry sector;
    _ ← lift (if decide (removeLock e = LNull) then Ok tt else use_lock (removeLock e));
    if removed e then _ ← lift (use_lock (removeLock e)); mret (Returned false)
    else
      fileH ← on_disk (λ x, FetchFrom x sector);
      freeMap ← fetch_freeMap;
      _ ← set_entry sector (mkEntry (count e) true (removed e) (writeLock e) (removeLock e)
                              (closeLock e) currentSpaceId);
      if bool_decide (count e > 0) then mret (Waiting dir sector fileH freeMap)
      else b ← Remove_finish nm dir sector fileH freeMap; mret (Returned b).

(** [RemoveDir]: 0, -1 (not empty) or -2 (no such directory); the call of
    [Remove] ignores its result, and the outcome says where it stopped. *)
Definition RemoveDir (nm : list Z) : M (Z * option remove_outcome) :=
  dir ← current_dir;
  if FindDir dir nm then
    f ← Open_deref nm;
    r ← table_size f;
    let '(f, tableSize) := r in
    t ← new_dir tableSize;
    r ← dir_FetchFrom t f false;
    let '(dirToRemove, f, _) := r in
    if existsb inUse dirToRemove then _ ← close_file f; mret (-1, None)
    else
      _ ← close_file f;
      o ← Remove nm true;
      mret (0, Some o)
  else mret (-2, None).

(** ** Listing *)
Definition Ls : M (list Z) := dir ← current_dir; lift (PrintNames dir).
Definition fs_List : M (list (list Z)) := dir ← current_dir; lift (Directory.List dir).

(** [Directory::Print]: every entry in use with its header and the headers that
    follow it. *)
Fixpoint print_chain (fuel : nat) (sec : Z) : M (list (Z * list Z * list (Z * list Z))) :=
  match fuel with
  | O => lift (Err OutOfFuel)
  | Datatypes.S fuel =>
      h ← on_disk (λ x, FetchFrom x sec);
      p ← on_disk (FileHeader.Print h);
      rest ← (if bool_decide (nextFileHeader h ≠ 0) then print_chain fuel (nextFileHeader h)
              else mret []);
      mret (p :: rest)
  end.

Fixpoint print_entries (t : list DirectoryEntry)
  : M (list (list Z * Z * list (Z * list Z * list (Z * list Z)))) :=
  match t with
  | [] => mret []
  | e :: t =>
      if inUse e then
        s ← lift (cstr (name e));
        hs ← print_chain (Datatypes.S FUEL) (de_sector e);
        rest ← print_entries t;
        mret ((s, de_sector e, hs) :: rest)
      else print_entries t
  end.

Definition PrintDir : M (list (list Z * Z * list (Z * list Z * list (Z * list Z)))) :=
  dir ← current_dir; print_entries dir.

(** ** [Check]

    The helpers return [error]; they are programs on the shadow map. *)
Definition AddToShadowBitmap (sector : Z) (map : Bitmap) : result (bool * Bitmap) :=
  t ← Test map sector;
  if (t : bool) then Ok (false, map) else m ← Mark map sector; Ok (true, m).

Definition CheckForError (value : bool) : bool := negb value.

Definition CheckSector (sector : Z) (shadowMap : Bitmap) : result (bool * Bitmap) :=
  if CheckForError (bool_decide (sector < NUM_SECTORS)) then Ok (true, shadowMap)
  else
    r ← AddToShadowBitmap sector shadowMap;
    let '(v, shadowMap) := r in
    Ok (CheckForError v, shadowMap).

Definition CheckFileHeader (rh : RawFileHeader) (shadowMap : Bitmap) : result (bool * Bitmap) :=
  let error := CheckForError (bool_decide (numSectors rh >= DivRoundUp (numBytes rh) SECTOR_SIZE)) in
  let error := error || CheckForError (bool_decide (numSectors rh < NUM_DIRECT)) in
  for_loop (span 0 (numSectors rh)) 0
    (λ i '(error, shadowMap),
      s ← rd (dataSectors rh) i;
      r ← CheckSector s shadowMap;
      let '(e, shadowMap) := r in
      Ok (error || e, shadowMap)) (error, shadowMap).

Definition CheckBitmaps (freeMap shadowMap : Bitmap) : result bool :=
  for_loop (span 0 NUM_SECTORS) 0
    (λ i error,
      a ← Test freeMap i;
      b ← Test shadowMap i;
      Ok (error || CheckForError (eqb a b))) false.

(** The entry [i] of the table: name length, repeated names, its sector and its
    header.  [known] is [knownNames[0..nameCount)]. *)
Definition CheckEntry (e : DirectoryEntry) (st : bool * list (list Z) * Bitmap)
  : M (bool * list (list Z) * Bitmap) :=
  let '(error, known, shadowMap) := st in
  if inUse e then
    nm ← lift (cstr (name e));
    let error := error || bool_decide (FILE_NAME_MAX_LEN < length nm)%nat in
    let repeated := bool_decide (nm ∈ known) in
    let error := error || repeated in
    let known := if repeated then known else known ++ [nm] in
    r ← lift (CheckSector (de_sector e) shadowMap);
    let '(e1, shadowMap) := r in
    h ← on_disk (λ x, FetchFrom x (de_sector e));
    r ← lift (CheckFileHeader h shadowMap);
    let '(e2, shadowMap) := r in
    mret (error || e1 || e2, known, shadowMap)
  else mret st.

Fixpoint CheckDirectory_loop (n : nat) (i : Z) (t : list DirectoryEntry)
    (st : bool * list (list Z) * Bitmap) : M (bool * list (list Z) * Bitmap) :=
  match n with
  | O => mret st
  | Datatypes.S n =>
      e ← lift (rd t i);
      st ← CheckEntry e st;
      CheckDirectory_loop n (i + 1) t st
  end.

Definition CheckDirectory (t : list DirectoryEntry) (shadowMap : Bitmap) : M (bool * Bitmap) :=
  r ← CheckDirectory_loop (span 0 NUM_DIR_ENTRIES) 0 t (false, [], shadowMap);
  let '(error, _, shadowMap) := r in
  mret (error, shadowMap).

Definition Check : M bool :=
  shadowMap ← lift (new_Bitmap NUM_SECTORS (bytes_words 32 (uninit 128)));
  shadowMap ← lift (Mark shadowMap FREE_MAP_SECTOR);
  shadowMap ← lift (Mark shadowMap DIRECTORY_SECTOR);
  bitRH ← on_disk (λ x, FetchFrom x FREE_MAP_SECTOR);
  let error := CheckForError (bool_decide (numBytes bitRH = FREE_MAP_FILE_SIZE)) in
  let error := error
    || CheckForError (bool_decide (numSectors bitRH = FREE_MAP_FILE_SIZE / SECTOR_SIZE)) in
  r ← lift (CheckFileHeader bitRH shadowMap);
  let '(e1, shadowMap) := r in
  dirRH ← on_disk (λ x, FetchFrom x DIRECTORY_SECTOR);
  r ← lift (CheckFileHeader dirRH shadowMap);
  let '(e2, shadowMap) := r in
  freeMap ← fetch_freeMap;
  dir ← current_dir;
  r ← CheckDirectory dir shadowMap;
  let '(e3, shadowMap) := r in
  e4 ← lift (CheckBitmaps freeMap shadowMap);
  mret (negb (error || e1 || e2 || e3 || e4)).

(** [Print]: the numbers, the headers of the bitmap and of the directory, the
    bits set in the map, and the directory. *)
Definition Print : M (list Z * list (Z * list Z * list (Z * list Z)) * list Z
                      * list (list Z * Z * list (Z * list Z * list (Z * list Z)))) :=
  freeMap ← fetch_freeMap;
  freeSectors ← lift (CountClear freeMap);
  dir ← current_dir;
  bitH ← on_disk (λ x, FetchFrom x FREE_MAP_SECTOR);
  p1 ← on_disk (FileHeader.Print bitH);
  dirH ← on_disk (λ x, FetchFrom x DIRECTORY_SECTOR);
  p2 ← on_disk (FileHeader.Print dirH);
  bits ← lift (Bitmap.Print freeMap);
  entries ← print_entries dir;
  mret ([NUM_SECTORS; u32 (NUM_SECTORS - freeSectors); freeSectors; MAX_FILE_SIZE; NUM_DIRECT;
         FILE_DATA_SECTORS], [p1; p2], bits, entries).
End FileSystem.

(** ** Paths *)

(** The path "/n1/n2/.../nk". *)
Definition join (names : list (list Z)) : list Z := names ≫= cons SLASH.

Lemma tokens_aux_app tok n s : SLASH ∉ n → tokens_aux SLASH tok (n ++ s) = tokens_aux SLASH (tok ++ n) s.
Proof.
  revert tok. induction n as [|c n IH]; intros tok Hn; [by rewrite app_nil_r|].
  apply not_elem_of_cons in Hn as [Hc Hn]. cbn [tokens_aux app].
  rewrite decide_False by congruence. rewrite IH by done. by rewrite <-app_assoc.
Qed.

Lemma tokens_aux_join names tok :
  tok ≠ [] → Forall (λ n, n ≠ [] ∧ SLASH ∉ n) names →
  tokens_aux SLASH tok (join names) = tok :: names.
Proof.
  revert tok. induction names as [|n names IH]; intros tok Htok Hn; cbn.
  { by rewrite decide_False. }
  apply Forall_cons in Hn as [[Hn Hs] Hns]. rewrite (decide_False (P := tok = [])) by done.
  cbn. f_equal. change (tokens_aux SLASH [] (n ++ join names) = n :: names).
  rewrite tokens_aux_app by done. by apply IH.
Qed.

Lemma tokens_join names :
  Forall (λ n, n ≠ [] ∧ SLASH ∉ n) names → tokens SLASH (drop 1 (join names)) = names.
Proof.
  intros Hn. destruct names as [|n names]; [done|]. apply Forall_cons in Hn as [[Hn Hs] Hns].
  unfold tokens, join. rewrite bind_cons. cbn [drop app]. rewrite drop_0.
  rewrite tokens_aux_app by done. by apply tokens_aux_join.
Qed.

Lemma last_slash_none i found s : SLASH ∉ s → last_slash i found s = found.
Proof.
  revert i found. induction s as [|c s IH]; intros i found Hs; [done|].
  apply not_elem_of_cons in Hs as [Hc Hs]. cbn. rewrite decide_False by congruence. by apply IH.
Qed.

Lemma last_slash_app i found d base :
  SLASH ∉ base → last_slash i found (d ++ SLASH :: base) = (i + length d)%nat.
Proof.
  intros Hb. revert i found. induction d as [|c d IH]; intros i found; cbn [app last_slash length].
  - rewrite last_slash_none, decide_True by done. lia.
  - rewrite IH. lia.
Qed.

(** absolute paths are taken apart correctly.  [ChangeDir] visits exactly
    the components of "/n1/.../nk"; and [Create] and [CreateDir] split a path
    at its last slash into the directory they change to and the name they
    add. *)
Theorem paths_split names d base
  (Hn : Forall (λ n, n ≠ [] ∧ SLASH ∉ n) names)
  (Hb : SLASH ∉ base) (Hd : d = [] ∨ head d = Some SLASH) :
  tokens SLASH (drop 1 (join names)) = names ∧
  (let nm := d ++ SLASH :: base in
   take (lastSlashFound nm) nm = d ∧ drop (Datatypes.S (lastSlashFound nm)) nm = base).
Proof.
  split; [by apply tokens_join|]. intros nm.
  assert (lastSlashFound nm = length d) as ->.
  { unfold lastSlashFound, nm. destruct Hd as [->|Hd]; [cbn; by apply last_slash_none|].
    destruct d as [|c d]; [done|]. cbn [drop app length]. rewrite drop_0, last_slash_app by done. lia. }
  unfold nm. rewrite take_app_length. rewrite cons_middle, app_assoc, drop_app_length'; [done|].
  rewrite length_app. cbn. lia.
Qed.

Lemma paths_split_witness :
  tokens SLASH (drop 1 (join [[97]; [98; 99]])) = [[97]; [98; 99]] ∧
  take (lastSlashFound [47; 97; 47; 98]) [47; 97; 47; 98] = [47; 97].
Proof.
  destruct (paths_split [[97]; [98; 99]] [47; 97] [98]) as [H1 [H2 _]].
  - repeat constructor; try discriminate; by apply (bool_decide_unpack _).
  - by apply (bool_decide_unpack _).
  - right. reflexivity.
  - split; [exact H1|exact H2].
Defined.
