(* ===== verification/Volume.v ===== *)
(** * The file system as a map from names to bytes

    What the operations of [FileSystem] do together with all components below
    them: the current directory in its file, the bitmap in its file, and the
    chain of headers of every file.  [volume] is the invariant of a disk with
    its current directory; [view] is what a user sees of it, a finite map from
    names to contents.  The directory fits one header (116 entries). *)

From S2P Require Import Prelude Bitmap Disk FileHeader OpenFile ReadWrite Directory FileSystem.
From stdpp Require Import base option list gmap numbers tactics.
From stdpp Require Import list.
Open Scope Z_scope.

(** ** The sectors of files *)

(** The sectors of a file: its headers, from sector [s], and their data. *)
Fixpoint footprint (s : Z) (hs : list RawFileHeader) : list Z :=
  match hs with
  | [] => []
  | h :: hs => s :: sectors_of h ++ footprint (nextFileHeader h) hs
  end.

(** Every name with the sector of its first header and its headers. *)
Abbreviation layout := (gmap (list Z) (Z * list RawFileHeader)).

Definition bytes_of (secs : list (list Z)) (L : layout) : gmap (list Z) (list Z) :=
  (λ f, chain_contents secs f.2) <$> L.

Lemma footprint_range secs s hs : chain secs s hs → Forall (λ x, 0 ≤ x < NUM_SECTORS) (footprint s hs).
Proof.
  induction 1 as [|s bs h hs Hs _ _ [_ Hr _] _ IH]; [constructor|]. cbn. constructor; [lia|].
  by apply Forall_app_2.
Qed.

Lemma headers_frame secs secs' s hs : chain secs s hs →
  (∀ x, x ∈ footprint s hs → rd secs' x = rd secs x) →
  chain secs' s hs ∧ chain_contents secs' hs = chain_contents secs hs.
Proof.
  induction 1 as [|s bs h hs Hs Hbs Hh Hf Hch IH]; intros Hfr; [split; [constructor|done]|].
  cbn [footprint] in Hfr. destruct IH as [IH1 IH2].
  { intros x Hx. apply Hfr. right. apply elem_of_app. by right. }
  split.
  - eapply chain_cons; [done|rewrite Hfr by left; exact Hbs|done..].
  - unfold chain_contents in *. rewrite !fmap_cons. cbn [concat]. rewrite IH2. f_equal.
    unfold contents, raw_contents. rewrite (blocks_frame h secs secs'); [done| |by apply sectors_nonneg].
    intros x Hx. apply Hfr. right. apply elem_of_app. by left.
Qed.

(** A chain without a cycle is no longer than the disk. *)
Lemma chain_fuel secs s hs : chain secs s hs → NoDup (footprint s hs) → (length hs ≤ FUEL)%nat.
Proof.
  intros Hc Hn. pose proof (footprint_range _ _ _ Hc) as Hr.
  assert (length hs ≤ length (footprint s hs))%nat as Hl.
  { clear. revert s. induction hs as [|h hs IH]; intros s; cbn; [lia|]. rewrite length_app. specialize (IH (nextFileHeader h)). lia. }
  assert (length (footprint s hs) ≤ length (seqZ 0 NUM_SECTORS))%nat as Hl2.
  { apply submseteq_length, NoDup_submseteq; [done|]. intros x Hx. rewrite Forall_forall in Hr.
    apply elem_of_seqZ. specialize (Hr x Hx). lia. }
  rewrite length_seqZ in Hl2. unfold FUEL. lia.
Qed.

(** The files are chains of headers, no two share a sector, and all their sectors
    are marked and none of [sys]. *)
Record files_ok (secs : list (list Z)) (bm : Bitmap) (sys : list Z) (L : layout) : Prop := {
  fo_chain k f : L !! k = Some f → f.2 ≠ [] ∧ chain secs f.1 f.2 ∧ NoDup (footprint f.1 f.2);
  fo_used k f x : L !! k = Some f → x ∈ footprint f.1 f.2 → Bitmap.bit bm x = true ∧ x ∉ sys;
  fo_disjoint k1 k2 f1 f2 x : L !! k1 = Some f1 → L !! k2 = Some f2 →
    x ∈ footprint f1.1 f1.2 → x ∈ footprint f2.1 f2.2 → k1 = k2
}.

Lemma files_ok_range secs bm sys L k f x : files_ok secs bm sys L → L !! k = Some f →
  x ∈ footprint f.1 f.2 → 0 ≤ x < NUM_SECTORS.
Proof.
  intros Hf Hk Hx. destruct (fo_chain _ _ _ _ Hf _ _ Hk) as (_ & Hc & _).
  apply footprint_range in Hc. rewrite Forall_forall in Hc. by apply Hc.
Qed.

Lemma files_ok_frame secs secs' bm bm' sys sys' L :
  files_ok secs bm sys L →
  (∀ x, 0 ≤ x < NUM_SECTORS → Bitmap.bit bm x = true → x ∉ sys → (∃ k f, L !! k = Some f ∧ x ∈ footprint f.1 f.2) →
    rd secs' x = rd secs x ∧ Bitmap.bit bm' x = true ∧ x ∉ sys') →
  files_ok secs' bm' sys' L ∧ bytes_of secs' L = bytes_of secs L.
Proof.
  intros Hf Hfr.
  assert (∀ k f x, L !! k = Some f → x ∈ footprint f.1 f.2 →
    rd secs' x = rd secs x ∧ Bitmap.bit bm' x = true ∧ x ∉ sys') as Hx.
  { intros k f x Hk Hx. destruct (fo_used _ _ _ _ Hf _ _ _ Hk Hx). apply Hfr; [by eapply files_ok_range|done..|by eauto]. }
  assert (∀ k f, L !! k = Some f → chain secs' f.1 f.2 ∧ chain_contents secs' f.2 = chain_contents secs f.2) as Hc.
  { intros k f Hk. destruct (fo_chain _ _ _ _ Hf _ _ Hk) as (_ & Hch & _). eapply headers_frame; [done|].
    intros x Hin. by eapply Hx. }
  split; [split|].
  - intros k f Hk. destruct (fo_chain _ _ _ _ Hf _ _ Hk) as (? & _ & ?). split_and!; [done|by eapply Hc|done].
  - intros k f x Hk Hin. by eapply Hx.
  - apply Hf.
  - unfold bytes_of. apply map_fmap_ext. intros k f Hk. by eapply Hc.
Qed.

Lemma files_ok_delete secs bm sys L k : files_ok secs bm sys L → files_ok secs bm sys (delete k L).
Proof.
  intros Hf. split.
  - intros k' f Hk. apply lookup_delete_Some in Hk as [_ Hk]. by eapply (fo_chain _ _ _ _ Hf).
  - intros k' f x Hk. apply lookup_delete_Some in Hk as [_ Hk]. by eapply (fo_used _ _ _ _ Hf).
  - intros k1 k2 f1 f2 x Hk1 Hk2. apply lookup_delete_Some in Hk1 as [_ Hk1], Hk2 as [_ Hk2]. by eapply (fo_disjoint _ _ _ _ Hf).
Qed.

(** A file with a new name, or a new file for a name. *)
Lemma files_ok_insert secs bm sys L k s hs :
  files_ok secs bm sys (delete k L) → hs ≠ [] → chain secs s hs → NoDup (footprint s hs) →
  (∀ x, x ∈ footprint s hs → Bitmap.bit bm x = true ∧ (x ∉ sys) ∧
    (∀ k' f, k' ≠ k → L !! k' = Some f → x ∉ footprint f.1 f.2)) →
  files_ok secs bm sys (<[k := (s, hs)]> L).
Proof.
  intros Hf Hne Hc Hn Hx. rewrite <-insert_delete_eq. split.
  - intros k' f Hk. apply lookup_insert_Some in Hk as [[<- <-]|[_ Hk]]; [done|]. by eapply (fo_chain _ _ _ _ Hf).
  - intros k' f x Hk. apply lookup_insert_Some in Hk as [[<- <-]|[_ Hk]].
    + intros Hin. destruct (Hx x Hin) as (? & ? & _). done.
    + by eapply (fo_used _ _ _ _ Hf).
  - intros k1 k2 f1 f2 x Hk1 Hk2 H1 H2.
    apply lookup_insert_Some in Hk1 as [[<- <-]|[Hn1 Hk1]], Hk2 as [[<- <-]|[Hn2 Hk2]]; [done| | |by eapply (fo_disjoint _ _ _ _ Hf)].
    + apply lookup_delete_Some in Hk2 as [? Hk2]. destruct (Hx x H1) as (_ & _ & Hno). by destruct (Hno _ _ (not_eq_sym Hn2) Hk2).
    + apply lookup_delete_Some in Hk1 as [? Hk1]. destruct (Hx x H2) as (_ & _ & Hno). by destruct (Hno _ _ (not_eq_sym Hn1) Hk1).
Qed.

Section Volume.
Context {S : Type} `{SectorStoreSpec S}.
Context (uninit : Z → list Z).
Hypothesis uninit_length : ∀ n, 0 ≤ n → length (uninit n) = Z.to_nat n.
Hypothesis uninit_bytes : ∀ n, Forall is_byte (uninit n).
Abbreviation FileSystem := (@FileSystem S).

(** ** The invariant *)
Definition secs (s : FileSystem) : list (list Z) := ss_sectors (fs_disk s).
Definition dir_sector (s : FileSystem) : Z := sector (directoryFile s).
(** The sectors of the current directory and of the bitmap. *)
Definition system (s : FileSystem) (dh : RawFileHeader) : list Z :=
  dir_sector s :: sectors_of dh ++ sectors_of (hdr (freeMapFile s)).

(** The file of the bitmap is at its place, and the header in memory is the one
    on the disk. *)
Definition map_header (s : FileSystem) : Prop :=
  sector (freeMapFile s) = FREE_MAP_SECTOR ∧ ∃ bs, rd (secs s) FREE_MAP_SECTOR = Ok bs ∧ header_of_bytes bs = hdr (freeMapFile s).

(** The disk with its bitmap [bm], the table [t] of the current directory with
    header [dh], the files [L] of this directory, and other sectors in use
    [rest] (other directories and their files, the header of the bitmap; that of
    the root directory, unless it is the current one). *)
Record volume (s : FileSystem) (bm : Bitmap) (t : list DirectoryEntry) (dh : RawFileHeader)
    (L : layout) (rest : list Z) : Prop := {
  vo_inv : file_inv (fs_disk s) (freeMapFile s) bm (dir_sector s) dh;
  vo_next : nextFileHeader dh = 0;
  vo_table : contents dh (secs s) = table_bytes t;
  vo_size : directorySize s = Z.of_nat (length t);
  vo_range : (0 < length t ≤ 116)%nat;
  vo_dir : dir_wf t;
  vo_entries : Forall entry_ok t;
  vo_layout : dir_map t = fst <$> L;
  vo_files : files_ok (secs s) bm (system s dh ++ rest) L;
  vo_rest x : x ∈ rest → 0 ≤ x < NUM_SECTORS ∧ Bitmap.bit bm x = true ∧ x ∉ system s dh;
  vo_boot : FREE_MAP_SECTOR ∈ rest;
  vo_header : map_header s;
  vo_root : dir_sector s = DIRECTORY_SECTOR ∨ DIRECTORY_SECTOR ∈ rest;
  vo_open : length (openFilesTable s) = Z.to_nat NUM_SECTORS;
  vo_lock e : rd (openFilesTable s) (dir_sector s) = Ok e → writeLock e = LLive
}.

(** What the user sees: the contents of the files of the current directory. *)
Definition view (s : FileSystem) (L : layout) : gmap (list Z) (list Z) := bytes_of (secs s) L.

(** Only what is cached in memory of the disk changed. *)
Record same_fs (s s' : FileSystem) : Prop := {
  sf_ok : ss_ok (fs_disk s');
  sf_secs : secs s' = secs s;
  sf_table : openFilesTable s' = openFilesTable s;
  sf_map : freeMapFile s' = freeMapFile s;
  sf_dir : dir_sector s' = dir_sector s;
  sf_size : directorySize s' = directorySize s;
  sf_messages : messages s' = messages s
}.

Lemma same_fs_trans s1 s2 s3 : same_fs s1 s2 → same_fs s2 s3 → same_fs s1 s3.
Proof. intros [] []. split; congruence. Qed.

(** The invariant is about the sectors of the disk and the headers in memory. *)
Lemma volume_reopened s s' bm t dh L rest :
  volume s bm t dh L rest → ss_ok (fs_disk s') → secs s' = secs s → hdr (freeMapFile s') = hdr (freeMapFile s) →
  sector (freeMapFile s') = sector (freeMapFile s) →
  dir_sector s' = dir_sector s → directorySize s' = directorySize s → length (openFilesTable s') = Z.to_nat NUM_SECTORS →
  (∀ e, rd (openFilesTable s') (dir_sector s) = Ok e → writeLock e = LLive) →
  volume s' bm t dh L rest ∧ view s' L = view s L.
Proof.
  intros [Hi] Hx Es Em Ems Ed Ez Hl Hk. unfold view. rewrite Es. split; [|done].
  split; unfold system, map_header in *; rewrite ?Es, ?Em, ?Ems, ?Ed, ?Ez; try done.
  apply (file_inv_same (fs_disk s)); [done|done|]. destruct Hi as [Hx0 [] ? ? ? ? ?].
  split; [done|split; by rewrite ?Em|done..|by rewrite Em|by rewrite Em].
Qed.

Lemma volume_same s s' bm t dh L rest :
  volume s bm t dh L rest → same_fs s s' → volume s' bm t dh L rest ∧ view s' L = view s L.
Proof.
  intros Hv [? Es Et Em Ed Ez ?]. apply volume_reopened; rewrite ?Es, ?Et, ?Em, ?Ed, ?Ez; try done; apply Hv.
Qed.

(** ** The parts of an operation *)
#[local] Existing Instances M_ret M_bind.

Definition with_disk (s : FileSystem) (x : S) : FileSystem :=
  mkFS x (openFilesTable s) (freeMapFile s) (directoryFile s) (directorySize s) (messages s).
Definition with_dir (s : FileSystem) (f : OpenFile) : FileSystem :=
  mkFS (fs_disk s) (openFilesTable s) (freeMapFile s) f (directorySize s) (messages s).
Definition with_size (s : FileSystem) (n : Z) : FileSystem :=
  mkFS (fs_disk s) (openFilesTable s) (freeMapFile s) (directoryFile s) n (messages s).
Definition with_table (s : FileSystem) (t : list OpenFileEntry) : FileSystem :=
  mkFS (fs_disk s) t (freeMapFile s) (directoryFile s) (directorySize s) (messages s).

Lemma bind_ok {A B} (m : M (S:=S) A) (k : A → M (S:=S) B) s a s' : m s = Ok (a, s') → (m ≫= k) s = k a s'.
Proof. intros E. unfold mbind, M_bind. by rewrite E. Qed.
Lemma bind_get {A B} (f : FileSystem → A) (k : A → M (S:=S) B) s : (get f ≫= k) s = k (f s) s.
Proof. done. Qed.
Lemma bind_lift {A B} (m : result A) (k : A → M (S:=S) B) s a : m = Ok a → (lift m ≫= k) s = k a s.
Proof. by intros ->. Qed.
Lemma bind_ret {A B} (a : A) (k : A → M (S:=S) B) s : (mret a ≫= k) s = k a s.
Proof. done. Qed.
Lemma bind_disk {A B} (m : S → result (A * S)) (k : A → M (S:=S) B) s a x : m (fs_disk s) = Ok (a, x) →
  (on_disk m ≫= k) s = k a (with_disk s x).
Proof. intros E. apply bind_ok. unfold on_disk. rewrite bind_get, (bind_lift _ _ _ _ E). done. Qed.
Lemma bind_disk_ {B} (m : S → result S) (k : unit → M (S:=S) B) s x : m (fs_disk s) = Ok x →
  (on_disk_ m ≫= k) s = k tt (with_disk s x).
Proof. intros E. unfold on_disk_. apply (bind_disk _ _ _ tt). by rewrite E. Qed.
Lemma bind_set_dir {B} f (k : unit → M (S:=S) B) s : (set_directoryFile f ≫= k) s = k tt (with_dir s f).
Proof. done. Qed.

(** [new Directory(n)]. *)
Lemma new_dir_ok n (s : FileSystem) : (0 < n)%nat →
  ∃ t0, new_dir uninit (Z.of_nat n) s = Ok (t0, s) ∧ length t0 = n ∧ Forall entry_ok t0 ∧
    Forall blank t0.
Proof.
  intros Hn. unfold new_dir. rewrite Nat2Z.id. set (g := table_of_bytes n _).
  assert (length g = n) as Hg by apply table_of_bytes_length.
  destruct (new_Directory_ok g) as (t0 & E0 & Hl0 & Ht0 & Hu0); [by intros E; rewrite E in Hg; cbn in Hg; lia| |].
  { apply table_of_bytes_ok; [rewrite uninit_length; unfold ENTRY_SIZE; lia|done]. }
  exists t0. rewrite Hg in E0, Hl0. unfold lift. by rewrite E0.
Qed.

(** The table [t] of a directory is read from its file, into an object with as
    many entries, or with more when the number of entries is wanted. *)
Lemma dir_FetchFrom_ok s t0 need f bs dh t :
  ss_ok (fs_disk s) → 0 ≤ sector f < NUM_SECTORS → rd (secs s) (sector f) = Ok bs → header_of_bytes bs = dh →
  file_wf dh → nextFileHeader dh = 0 → contents dh (secs s) = table_bytes t → Forall entry_ok t →
  (0 < length t0)%nat → Z.of_nat (length t0) * ENTRY_SIZE < 2 ^ 32 → Forall entry_ok t0 →
  (if (need : bool) then length t ≤ length t0 else length t = length t0)%nat →
  ∃ f' x' n, dir_FetchFrom t0 f need s = Ok ((t, f', n), with_disk s x') ∧ ss_ok x' ∧ ss_sectors x' = secs s ∧
    sector f' = sector f ∧ (need = true → n = Z.of_nat (length t)).
Proof.
  intros Hx Hcs Hbs Hh Hwf Hnx HT Ht Hpos Hsz Ht0 Hl.
  assert (length t ≤ length t0)%nat as Hle by (destruct need; lia).
  destruct (Directory_roundtrip t Ht) as [Hlt Hrt]. destruct (Directory_roundtrip t0 Ht0) as [Hlt0 _].
  destruct (Read_directory FUEL f (fs_disk s) (Z.of_nat (length t0) * ENTRY_SIZE) bs dh Hx Hcs Hbs Hh Hwf Hnx)
    as (f' & x' & ER & Hx' & Hs' & Hsec); [unfold ENTRY_SIZE in *; lia|].
  unfold secs in HT. rewrite HT, take_ge in ER by (unfold ENTRY_SIZE; lia).
  exists f', x', (if need then Z.of_nat (length t) else Z.of_nat (length (table_bytes t))).
  split; [|split_and!; [done..|by intros ->]].
  unfold dir_FetchFrom. rewrite u32_id by (unfold ENTRY_SIZE in *; width_lia).
  rewrite (bind_disk _ _ _ (table_bytes t, f') x') by (by rewrite ER).
  destruct need.
  - replace (Z.of_nat (length (table_bytes t)) / ENTRY_SIZE) with (Z.of_nat (length t))
      by (rewrite Hlt, Nat2Z.inj_mul, Z.mul_comm; symmetry; by apply Z.div_mul).
    unfold mret, M_ret. rewrite Nat2Z.id. do 4 f_equal.
    replace (length t0) with (length t + (length t0 - length t))%nat by lia.
    rewrite table_of_bytes_app, Hrt by done. by rewrite take_app_length.
  - rewrite drop_ge, app_nil_r, <-Hl, Hrt by lia. done.
Qed.

Lemma current_dir_ok s bm t dh L rest : volume s bm t dh L rest →
  ∃ s', current_dir uninit s = Ok (t, s') ∧ same_fs s s'.
Proof.
  intros Hv. pose proof (vo_inv _ _ _ _ _ _ Hv) as [Hx Hmap (bs & Hbs & Hh) Hwf Hcs _ _].
  pose proof (vo_range _ _ _ _ _ _ Hv) as Hr. unfold current_dir. rewrite bind_get, (vo_size _ _ _ _ _ _ Hv).
  destruct (new_dir_ok (length t) s) as (t0 & E0 & Hl0 & Ht0 & _); [lia|]. rewrite (bind_ok _ _ _ _ _ E0), bind_get.
  destruct (dir_FetchFrom_ok s t0 false (directoryFile s) bs dh t) as (f' & x' & n & EF & Hx' & Hs' & Hsec & _); try done.
  - by eapply vo_next.
  - by eapply vo_table.
  - by eapply vo_entries.
  - lia.
  - unfold ENTRY_SIZE. lia.
  - rewrite (bind_ok _ _ _ _ _ EF), bind_set_dir. eexists. split; [done|]. by split.
Qed.

Lemma fetch_freeMap_ok s bm : ss_ok (fs_disk s) → map_ok (freeMapFile s) bm (secs s) →
  ∃ s', fetch_freeMap uninit s = Ok (bm, s') ∧ same_fs s s'.
Proof.
  intros Hx Hm. destruct (load_freeMap_ok uninit uninit_bytes (freeMapFile s) bm (fs_disk s) Hx Hm) as (x' & E & Hx' & Hs').
  exists (with_disk s x'). split; [|by split]. unfold fetch_freeMap. rewrite bind_get. unfold on_disk.
  by rewrite bind_get, (bind_lift _ _ _ _ E).
Qed.

Lemma write_freeMap_file s bm' : ss_ok (fs_disk s) → file_wf (hdr (freeMapFile s)) → numBytes (hdr (freeMapFile s)) = 128 →
  Bitmap.wf bm' → numBits bm' = NUM_SECTORS →
  ∃ x', write_freeMap uninit bm' s = Ok (tt, with_disk s x') ∧ ss_ok x' ∧ map_ok (freeMapFile s) bm' (ss_sectors x') ∧
    ∀ y, y ∉ sectors_of (hdr (freeMapFile s)) → rd (ss_sectors x') y = rd (secs s) y.
Proof.
  intros Hx Hf Hb Hw Hn. destruct (Bitmap_WriteBack_file uninit uninit_length (freeMapFile s) bm' (fs_disk s) Hx Hf Hb Hw Hn)
    as (x' & E & Hx' & Hm' & Ho).
  exists x'. split; [|done]. unfold write_freeMap. rewrite bind_get. unfold on_disk_, on_disk.
  rewrite bind_get. rewrite (bind_lift _ _ _ (tt, x')) by (by rewrite E). done.
Qed.

Lemma write_freeMap_ok s bm bm' : ss_ok (fs_disk s) → map_ok (freeMapFile s) bm (secs s) →
  Bitmap.wf bm' → numBits bm' = NUM_SECTORS →
  ∃ x', write_freeMap uninit bm' s = Ok (tt, with_disk s x') ∧ ss_ok x' ∧ map_ok (freeMapFile s) bm' (ss_sectors x') ∧
    ∀ y, y ∉ sectors_of (hdr (freeMapFile s)) → rd (ss_sectors x') y = rd (secs s) y.
Proof. intros Hx [Hf Hb _ _ _]. by apply write_freeMap_file. Qed.

(** The whole table is written; the file of the directory may grow. *)
Lemma dir_WriteBack_ok s bm t t' dh :
  file_inv (fs_disk s) (freeMapFile s) bm (dir_sector s) dh → contents dh (secs s) = table_bytes t →
  Forall entry_ok t → Forall entry_ok t' → (0 < length t)%nat → (length t ≤ length t' ≤ 116)%nat →
  length (openFilesTable s) = Z.to_nat NUM_SECTORS → (∀ e, rd (openFilesTable s) (dir_sector s) = Ok e → writeLock e = LLive) →
  if decide (DivRoundUp (32 * Z.of_nat (length t')) SECTOR_SIZE - numSectors dh ≤ Z.of_nat (fm_clear bm)) then
    ∃ f' x' bm' dh' new, dir_WriteBack uninit t' (directoryFile s) false s = Ok (f', with_disk s x') ∧
      sector f' = dir_sector s ∧ file_inv x' (freeMapFile s) bm' (dir_sector s) dh' ∧ grown bm bm' dh dh' new ∧
      numBytes dh' = 32 * Z.of_nat (length t') ∧ contents dh' (ss_sectors x') = table_bytes t' ∧
      ∀ y, 0 ≤ y < NUM_SECTORS → Bitmap.bit bm y = true → y ∉ system s dh → rd (ss_sectors x') y = rd (secs s) y
  else ∃ f' x', dir_WriteBack uninit t' (directoryFile s) false s = Ok (f', with_disk s x') ∧
      sector f' = dir_sector s ∧ ss_ok x' ∧ ss_sectors x' = secs s.
Proof.
  intros Hinv HT Ht Ht' Hpos Hlen Hopen Hlock. pose proof Hinv as [Hx _ _ Hwf Hcs _ _].
  destruct (Directory_roundtrip t Ht) as [Hlt _]. destruct (Directory_roundtrip t' Ht') as [Hlt' _].
  pose proof (contents_length dh _ Hx Hwf) as Hnb. unfold secs in HT. rewrite HT in Hnb.
  destruct (rd_in_range (openFilesTable s) (dir_sector s)) as (e & He & _); [lia|].
  pose proof (Write_ok uninit uninit_length uninit_bytes FUEL (openFilesTable s) e (freeMapFile s) bm
    (set_current (set_seek (directoryFile s) 0) (dir_sector s)) (fs_disk s) dh (table_bytes t')
    (32 * Z.of_nat (length t')) Hinv He (Hlock e He)) as HW.
  cbn [seekPosition set_current set_seek currentSector sector] in HW. cbn zeta in HW.
  rewrite Z.add_0_l, Z.max_r in HW by lia.
  assert (HB : ∀ r f' x', Write uninit FUEL (openFilesTable s) (freeMapFile s)
      (set_current (set_seek (directoryFile s) 0) (dir_sector s)) (fs_disk s) (table_bytes t') (32 * Z.of_nat (length t')) false
      = Ok (r, f', x') → dir_WriteBack uninit t' (directoryFile s) false s = Ok (f', with_disk s x')).
  { intros r f' x' E. unfold dir_WriteBack. rewrite !bind_get. unfold on_disk. rewrite bind_get.
    rewrite (bind_lift _ _ _ (f', x')); [done|]. rewrite Write_directory. unfold ENTRY_SIZE.
    rewrite u32_id, Z.mul_comm by width_lia. fold (dir_sector s). by rewrite E. }
  destruct (decide (_ ≤ _)).
  - destruct HW as (x' & bm' & dh' & new & E & Hi & Hg & Hsz & HC & Ho); [lia|lia|change HEADER_CAPACITY with 3712; lia|lia|].
    eexists _, x', bm', dh', new. split; [by eapply HB|]. split_and!; try done.
    rewrite HC, HT. rewrite (drop_ge (table_bytes t)), app_nil_r by lia. by rewrite (take_ge (table_bytes t')) by lia.
  - destruct HW as (f' & x' & E & Hsf & Hx' & Hs'); [lia|lia|change HEADER_CAPACITY with 3712; lia|lia|].
    exists f', x'. split; [by eapply HB|]. done.
Qed.

(** ** Changing the volume *)
Lemma file_inv_other x x' fm bm bm' cs h :
  file_inv x fm bm cs h → ss_ok x' → map_ok fm bm' (ss_sectors x') →
  (∀ y, y ∈ cs :: sectors_of h → rd (ss_sectors x') y = rd (ss_sectors x) y) →
  (∀ y, y ∈ cs :: sectors_of h ++ sectors_of (hdr fm) → Bitmap.bit bm y = true → Bitmap.bit bm' y = true) →
  file_inv x' fm bm' cs h.
Proof.
  intros Hi Hx Hm Hrd Hb. pose proof Hi as [_ _ (bs & Hbs & Hh) Hwf Hcs Hu Hnd]. split; try done.
  - exists bs. split; [|done]. by rewrite Hrd by left.
  - intros y Hy. apply Hb; [done|by apply Hu].
Qed.

Lemma file_inv_frame x x' fm bm bm' cs h :
  file_inv x fm bm cs h → ss_ok x' → map_ok fm bm' (ss_sectors x') →
  (∀ y, y ∈ cs :: sectors_of h → rd (ss_sectors x') y = rd (ss_sectors x) y) →
  (∀ y, 0 ≤ y < NUM_SECTORS → Bitmap.bit bm y = true → Bitmap.bit bm' y = true) →
  file_inv x' fm bm' cs h.
Proof.
  intros Hi Hx Hm Hrd Hb. eapply file_inv_other; [done..|]. intros y Hy. apply Hb. by eapply file_inv_range.
Qed.

Lemma system_in_use s bm t dh L rest y : volume s bm t dh L rest → y ∈ system s dh →
  0 ≤ y < NUM_SECTORS ∧ Bitmap.bit bm y = true.
Proof.
  intros Hv Hy. pose proof (vo_inv _ _ _ _ _ _ Hv) as Hi.
  split; [by eapply file_inv_range|by apply (fi_used _ _ _ _ _ Hi)].
Qed.

(** After a change of the directory and its table, or of other sectors. *)
Lemma volume_update s s' bm bm' t t' dh dh' L L' rest :
  volume s bm t dh L rest →
  file_inv (fs_disk s') (freeMapFile s') bm' (dir_sector s') dh' → nextFileHeader dh' = 0 →
  contents dh' (secs s') = table_bytes t' → directorySize s' = Z.of_nat (length t') →
  (0 < length t' ≤ 116)%nat → NoDup (keys t') → Forall entry_ok t' → dir_map t' = fst <$> L' →
  length (openFilesTable s') = Z.to_nat NUM_SECTORS →
  (∀ e, rd (openFilesTable s') (dir_sector s') = Ok e → writeLock e = LLive) →
  files_ok (secs s') bm' (system s' dh' ++ rest) L' →
  (∀ y, y ∈ rest → Bitmap.bit bm' y = true ∧ y ∉ system s' dh') →
  (∀ y, y ∈ rest → rd (secs s') y = rd (secs s) y) → freeMapFile s' = freeMapFile s → dir_sector s' = dir_sector s →
  volume s' bm' t' dh' L' rest.
Proof.
  intros Hv Hi Hn HT Hs Hr Hk He HL Hlen Hlk Hf Hrest Hrd Em Ed. pose proof (vo_boot _ _ _ _ _ _ Hv). split; try done.
  - split; [lia|done].
  - intros y Hy. destruct (vo_rest _ _ _ _ _ _ Hv y Hy) as (? & _ & _). destruct (Hrest y Hy). done.
  - unfold map_header. rewrite Hrd, Em by done. apply (vo_header _ _ _ _ _ _ Hv).
  - rewrite Ed. apply (vo_root _ _ _ _ _ _ Hv).
Qed.

(** A free sector is not in any use. *)
Lemma free_sector s bm t dh L rest y : volume s bm t dh L rest → Bitmap.bit bm y = false →
  (y ∉ system s dh) ∧ (y ∉ rest) ∧ (∀ k f, L !! k = Some f → y ∉ footprint f.1 f.2).
Proof.
  intros Hv Hy. split_and!.
  - intros [_ E]%(system_in_use _ _ _ _ _ _ _ Hv). congruence.
  - intros (_ & E & _)%(vo_rest _ _ _ _ _ _ Hv). congruence.
  - intros k f Hk Hin. destruct (fo_used _ _ _ _ (vo_files _ _ _ _ _ _ Hv) _ _ _ Hk Hin). congruence.
Qed.

Lemma find_sector bm : Bitmap.wf bm → numBits bm = NUM_SECTORS →
  (fm_clear bm = 0%nat ∧ Bitmap.Find bm = Ok (-1, bm)) ∨
  ∃ sec bm1, Bitmap.Find bm = Ok (sec, bm1) ∧ Bitmap.wf bm1 ∧ numBits bm1 = NUM_SECTORS ∧ 0 ≤ sec < NUM_SECTORS ∧
    Bitmap.bit bm sec = false ∧ fm_clear bm = Datatypes.S (fm_clear bm1) ∧
    ∀ j, 0 ≤ j < NUM_SECTORS → Bitmap.bit bm1 j = if decide (j = sec) then true else Bitmap.bit bm j.
Proof.
  intros Hw Hn. pose proof (wf_bits _ Hw). destruct (fm_clear bm) as [|n] eqn:E.
  - left. split; [done|]. cbn in E. destruct (Find_loop_ok bm (span 0 (numBits bm)) 0 Hw) as
      [[_ ?]|(k & b' & _ & Hk & Ek & _)]; [lia|by rewrite span_nat by lia|lia|done|].
    assert (0 < clear_upto (Bitmap.bit bm) (numBits bm))%nat; [|lia]. apply clear_upto_pos. eauto.
  - right. pose proof (fm_find_ok (B:=Bitmap) bm) as Hfind. cbn in Hfind, E.
    destruct (Hfind Hw) as (i & b' & Ef & Hw' & Hs & Hi & Hu & _ & Hb & Hc); [lia|].
    rewrite Hn in *. exists i, b'. cbn. split_and!; try done; try lia.
Qed.

(** ** [Create] *)

Lemma grown_length bm bm' h h' new : grown bm bm' h h' new → file_wf h → file_wf h' →
  Z.of_nat (length new) = numSectors h' - numSectors h.
Proof.
  intros Hg Hw Hw'. pose proof (sectors_of_length h Hw) as Hl. pose proof (sectors_of_length h' Hw') as Hl'.
  rewrite (gr_sectors _ _ _ _ _ Hg), length_app in Hl'.
  pose proof (hw_count _ (fw_hdr _ Hw)). pose proof (count_bounds _ (hw_bytes _ (fw_hdr _ Hw))).
  pose proof (hw_count _ (fw_hdr _ Hw')). pose proof (count_bounds _ (hw_bytes _ (fw_hdr _ Hw'))). lia.
Qed.

(** A file that is written back with as many bytes takes no sector. *)
Lemma grown_same bm bm' h h' new : grown bm bm' h h' new → file_wf h → file_wf h' → numBytes h' = numBytes h → new = [].
Proof.
  intros Hg Hw Hw' Hb. pose proof (grown_length _ _ _ _ _ Hg Hw Hw') as Hl.
  rewrite (hw_count _ (fw_hdr _ Hw')), Hb, <-(hw_count _ (fw_hdr _ Hw)) in Hl. apply length_zero_iff_nil. lia.
Qed.

(** The number of sectors by which the directory must grow for one more name. *)
Definition dir_need (t : list DirectoryEntry) (dh : RawFileHeader) : Z :=
  if forallb inUse t then DivRoundUp (32 * (Z.of_nat (length t) + 1)) SECTOR_SIZE - numSectors dh else 0.

(** The header of a new file on its sector, and the bitmap, are written. *)
Lemma new_header_ok s n bm bm1 t dh L rest sec :
  volume s bm t dh L rest → Bitmap.wf bm1 → numBits bm1 = NUM_SECTORS → 0 ≤ sec < NUM_SECTORS → Bitmap.bit bm sec = false →
  (∀ j, 0 ≤ j < NUM_SECTORS → Bitmap.bit bm1 j = if decide (j = sec) then true else Bitmap.bit bm j) →
  ∃ x3 x4, WriteBack (fresh_header uninit) (fs_disk s) sec = Ok x3 ∧
    write_freeMap uninit bm1 (with_disk (with_size s n) x3) = Ok (tt, with_disk (with_size s n) x4) ∧
    file_inv x4 (freeMapFile s) bm1 (dir_sector s) dh ∧ contents dh (ss_sectors x4) = contents dh (secs s) ∧
    rd (ss_sectors x4) sec = Ok (header_bytes (fresh_header uninit)) ∧
    ∀ y, y ≠ sec → y ∉ sectors_of (hdr (freeMapFile s)) → rd (ss_sectors x4) y = rd (secs s) y.
Proof.
  intros Hv Hw1 Hn1 Hsec Hfree Hb1. pose proof (vo_inv _ _ _ _ _ _ Hv) as Hi. pose proof Hi as [Hx Hm _ Hwf _ _ _].
  destruct (free_sector _ _ _ _ _ _ sec Hv Hfree) as (Hsys & _ & _). unfold system in Hsys. rewrite not_elem_of_cons, not_elem_of_app in Hsys.
  destruct Hsys as (Hs1 & Hs2 & Hs3).
  destruct (ss_write_ok (fs_disk s) sec (header_bytes (fresh_header uninit)) Hx Hsec) as (x3 & E3 & Hs & Hx3).
  { apply header_bytes_length. cbn. generalize (uninit 116). intros. reflexivity. }
  destruct (write_sector_frame _ _ _ _ Hx Hsec Hs) as [Hrd3 Ho3].
  assert (map_ok (freeMapFile s) bm (ss_sectors x3)) as Hm3.
  { eapply map_ok_frame; [|exact Hm]. intros y Hy. apply Ho3. intros ->. done. }
  destruct (write_freeMap_ok (with_disk (with_size s n) x3) bm bm1 Hx3 Hm3 Hw1 Hn1) as (x4 & E4 & Hx4 & Hm4 & Ho4).
  assert (∀ y, y ≠ sec → y ∉ sectors_of (hdr (freeMapFile s)) → rd (ss_sectors x4) y = rd (secs s) y) as Ho.
  { intros y Hy1 Hy2. rewrite Ho4 by done. by apply Ho3. }
  assert (∀ y, y ∈ dir_sector s :: sectors_of dh → rd (ss_sectors x4) y = rd (secs s) y) as Hod.
  { intros y Hy. apply Ho.
    - intros ->. apply elem_of_cons in Hy as [?|?]; done.
    - intros Hy2. pose proof (fi_disj _ _ _ _ _ Hi) as Hnd. rewrite app_comm_cons in Hnd.
      apply NoDup_app in Hnd as (_ & Hnd & _). by apply (Hnd y). }
  exists x3, x4. split_and!; [by unfold WriteBack|exact E4| | |by rewrite Ho4|done].
  - eapply file_inv_frame; [exact Hi|done|done|done|]. intros y Hy E. rewrite Hb1 by done. by case_decide.
  - unfold contents, raw_contents. rewrite (blocks_frame dh (secs s)); [done| |by apply sectors_nonneg].
    intros y Hy. apply Hod. by right.
Qed.

(** The table grows only when every entry is in use.  A plain file in a directory
    without subdirectories: the kind of a new last entry is what its memory held. *)
Record entry_added (d : bool) (t t' : list DirectoryEntry) : Prop := {
  ea_length : length t' = if forallb inUse t then Datatypes.S (length t) else length t;
  ea_plain : d = false → (forallb inUse t = true → isDirectory (entry_of_bytes (uninit ENTRY_SIZE)) = false) → plain t → plain t'
}.

Lemma dir_Add_ok s bm t dh L rest nm sec d :
  volume s bm t dh L rest → c_string nm → L !! key nm = None → 0 ≤ sec < NUM_SECTORS →
  ∃ t', dir_Add uninit t nm sec d s = Ok ((true, t'), with_size s (Z.of_nat (length t'))) ∧
    dir_map t' = <[key nm := sec]> (dir_map t) ∧ NoDup (keys t') ∧ Forall entry_ok t' ∧
    (length t' = if forallb inUse t then Datatypes.S (length t) else length t) ∧ entry_added d t t'.
Proof.
  intros Hv Hnm HL Hsec. assert (dir_map t !! key nm = None) as Hnone.
  { by rewrite (vo_layout _ _ _ _ _ _ Hv), lookup_fmap, HL. }
  destruct (entries_Add_ok (entry_of_bytes (uninit ENTRY_SIZE)) t nm sec d (vo_dir _ _ _ _ _ _ Hv) Hnm Hnone)
    as (t' & o & E & Hm & Hk & Hl & Ho).
  rewrite u32_id in Hm by (change NUM_SECTORS with 1024 in Hsec; width_lia).
  assert (length t' = if forallb inUse t then Datatypes.S (length t) else length t) as Hlen.
  { rewrite Ho in Hl. destruct (forallb inUse t); cbn in Hl; lia. }
  exists t'. split_and!; try done.
  - unfold dir_Add. rewrite E. rewrite Hl. destruct o as [n|]; [done|]. cbn [default].
    rewrite <-(vo_size _ _ _ _ _ _ Hv). by destruct s.
  - eapply Add_entries; [by eapply vo_entries| |done|exact E]. apply entry_of_bytes_ok; [|done].
    by rewrite uninit_length.
  - split; [done|]. intros -> Hg Ht. eapply Add_plain; [exact Ht| |exact E]. intros Hne. apply Hg. rewrite Ho in Hne. by destruct (forallb inUse t).
Qed.

(** Without a free sector nothing is written. *)
Lemma with_size_self s n : with_size (with_size s n) (directorySize s) = s.
Proof. by destruct s. Qed.

Lemma Create_new_full s bm t dh L rest nm :
  volume s bm t dh L rest → c_string nm → L !! key nm = None → fm_clear bm = 0%nat →
  ∃ s', Create_new uninit t nm s = Ok (false, s') ∧ same_fs s (with_size s' (directorySize s)) ∧
    directorySize s' = directorySize s + (if forallb inUse t then 1 else 0).
Proof.
  intros Hv Hnm HL Hc. pose proof (vo_inv _ _ _ _ _ _ Hv) as Hi. pose proof (fi_map _ _ _ _ _ Hi) as Hm.
  destruct (fetch_freeMap_ok s bm (fi_ok _ _ _ _ _ Hi) Hm) as (s1 & E1 & Hs1).
  destruct (volume_same _ _ _ _ _ _ _ Hv Hs1) as [Hv1 _].
  destruct (find_sector bm (mo_wf _ _ _ Hm) (mo_bits _ _ _ Hm)) as [[_ Ef]|(sec & bm1 & _ & _ & _ & _ & _ & E & _)]; [|congruence].
  unfold Create_new. rewrite (bind_ok _ _ _ _ _ E1), (bind_lift _ _ _ _ Ef). cbn beta iota.
  assert (∃ t', dir_Add uninit t nm (-1) false s1
    = Ok ((true, t'), with_size s1 (directorySize s + (if forallb inUse t then 1 else 0)))) as (t' & Ea).
  { assert (dir_map t !! key nm = None) as Hnone by (by rewrite (vo_layout _ _ _ _ _ _ Hv), lookup_fmap, HL).
    destruct (entries_Add_ok (entry_of_bytes (uninit ENTRY_SIZE)) t nm (-1) false (vo_dir _ _ _ _ _ _ Hv) Hnm Hnone)
      as (t' & o & E & _ & _ & _ & Ho).
    unfold dir_Add. rewrite E. exists t'. rewrite Ho. destruct (forallb inUse t).
    - by rewrite (vo_size _ _ _ _ _ _ Hv).
    - rewrite Z.add_0_r, <-(sf_size _ _ Hs1). by destruct s1. }
  rewrite (bind_ok _ _ _ _ _ Ea). cbn [negb]. rewrite (bool_decide_false (-1 ≠ -1)) by (intros []; done).
  eexists. split; [done|]. split; [|reflexivity].
  destruct Hs1 as [H1 H2 H3 H4 H5 H6 H7]. split; [exact H1|exact H2|exact H3|exact H4|exact H5|reflexivity|exact H7].
Qed.

(** The entry of a file that was just created. *)
Definition fresh (r : Z) : OpenFileEntry := mkEntry 0 false false LNull LLive LNull r.

Lemma fresh_entry_ok s sec : length (openFilesTable s) = Z.to_nat NUM_SECTORS → 0 ≤ sec < NUM_SECTORS →
  ∃ r, fresh_entry sec s = Ok (tt, with_table s (<[Z.to_nat sec := fresh r]> (openFilesTable s))).
Proof.
  intros Hl Hs. destruct (rd_in_range (openFilesTable s) sec) as (e & E & _); [lia|].
  unfold fresh_entry. rewrite (bind_ok _ _ s e s) by (unfold entry; rewrite bind_get; unfold lift; by rewrite E).
  eexists. unfold set_entry. rewrite bind_get. erewrite bind_lift by (apply wr_ok; lia). done.
Qed.

(** The system sectors of a directory that grew. *)
Lemma system_grown s s' bm bm' dh dh' new y :
  grown bm bm' dh dh' new → dir_sector s' = dir_sector s → freeMapFile s' = freeMapFile s →
  Bitmap.bit bm y = true → y ∉ system s dh → y ∉ system s' dh'.
Proof.
  intros Hg Ed Em Hb Hy Hin. unfold system in *. rewrite Ed, Em, (gr_sectors _ _ _ _ _ Hg) in Hin.
  apply elem_of_cons in Hin as [->|Hin]; [apply Hy; by left|].
  apply elem_of_app in Hin as [[Hin|Hin]%elem_of_app|Hin].
  - apply Hy. right. apply elem_of_app. by left.
  - pose proof (gr_free _ _ _ _ _ Hg) as Hf. rewrite Forall_forall in Hf. destruct (Hf y Hin). congruence.
  - apply Hy. right. apply elem_of_app. by right.
Qed.

Lemma grown_bit bm bm' h h' new y : grown bm bm' h h' new → 0 ≤ y < NUM_SECTORS →
  Bitmap.bit bm y = true → Bitmap.bit bm' y = true.
Proof. intros Hg Hy E. by rewrite (gr_bits _ _ _ _ _ Hg), E. Qed.

Lemma not_in_system s dh rest y : y ∉ system s dh ++ rest → (y ∉ system s dh) ∧ (y ∉ sectors_of (hdr (freeMapFile s))) ∧ y ∉ rest.
Proof.
  rewrite not_elem_of_app. intros [Hy Hr]. split_and!; [done| |done].
  intros Hin. apply Hy. right. apply elem_of_app. by right.
Qed.

(** The header of a new file. *)
Lemma fresh_chain secs0 sec : 0 < sec < NUM_SECTORS → rd secs0 sec = Ok (header_bytes (fresh_header uninit)) →
  chain secs0 sec [fresh_header uninit] ∧ footprint sec [fresh_header uninit] = [sec] ∧
  chain_contents secs0 [fresh_header uninit] = [].
Proof.
  intros Hs Hrd. assert (hdr_wf (fresh_header uninit)) as Hwf.
  { apply empty_header_wf; [generalize (uninit 116); intros; reflexivity|by apply bytes_words_u32]. }
  split_and!; [|done|done]. eapply chain_cons; [done|exact Hrd| | |constructor].
  - by rewrite header_of_header_bytes by (by apply hdr_wf_words).
  - split; [done|constructor|constructor].
Qed.

(** The directory of a volume was written back after a new sector was taken:
    the files are the old ones. *)
Lemma files_after_write s s' bm bm1 bm' dh dh' new L rest sec :
  files_ok (secs s) bm (system s dh ++ rest) L → (∀ y, y ∈ rest → 0 ≤ y < NUM_SECTORS ∧ Bitmap.bit bm y = true ∧ y ∉ system s dh) →
  Bitmap.bit bm sec = false → (∀ y, 0 ≤ y < NUM_SECTORS → Bitmap.bit bm y = true → Bitmap.bit bm1 y = true) →
  grown bm1 bm' dh dh' new → dir_sector s' = dir_sector s → freeMapFile s' = freeMapFile s →
  (∀ y, 0 ≤ y < NUM_SECTORS → Bitmap.bit bm y = true → y ≠ sec → y ∉ system s dh → rd (secs s') y = rd (secs s) y) →
  files_ok (secs s') bm' (system s' dh' ++ rest) L ∧ view s' L = view s L ∧
  (∀ y, y ∈ rest → Bitmap.bit bm' y = true ∧ y ∉ system s' dh') ∧ (∀ y, y ∈ rest → rd (secs s') y = rd (secs s) y).
Proof.
  intros Hf Hrest Hfree Hb1 Hg Ed Em Ho. split_and!.
  - eapply files_ok_frame; [exact Hf|]. intros y Hr Hy (Hs & _ & Hyr)%not_in_system _. split_and!.
    + apply Ho; try done. congruence.
    + eapply grown_bit; [done|done|]. by apply Hb1.
    + rewrite not_elem_of_app. split; [|done]. eapply system_grown; [done..| |done]. by apply Hb1.
  - eapply files_ok_frame; [exact Hf|]. intros y Hr Hy (Hs & _ & Hyr)%not_in_system _. split_and!.
    + apply Ho; try done. congruence.
    + eapply grown_bit; [done|done|]. by apply Hb1.
    + rewrite not_elem_of_app. split; [|done]. eapply system_grown; [done..| |done]. by apply Hb1.
  - intros y Hy. destruct (Hrest y Hy) as (Hr & Hb & Hs). split.
    + eapply grown_bit; [done|done|]. by apply Hb1.
    + eapply system_grown; [done..| |done]. by apply Hb1.
  - intros y Hy. destruct (Hrest y Hy) as (Hr & Hb & Hs). apply Ho; try done. congruence.
Qed.

Lemma dir_bytes s bm t dh L rest : volume s bm t dh L rest → numBytes dh = 32 * Z.of_nat (length t).
Proof.
  intros Hv. pose proof (vo_inv _ _ _ _ _ _ Hv) as [Hx _ _ Hwf _ _ _].
  pose proof (contents_length dh _ Hx Hwf) as Hl. pose proof (vo_table _ _ _ _ _ _ Hv) as HT. unfold secs in HT. rewrite HT in Hl.
  destruct (Directory_roundtrip t (vo_entries _ _ _ _ _ _ Hv)) as [El _]. lia.
Qed.

Lemma dir_need_spec s bm t dh L rest (t' : list DirectoryEntry) : volume s bm t dh L rest →
  length t' = (if forallb inUse t then Datatypes.S (length t) else length t) →
  DivRoundUp (32 * Z.of_nat (length t')) SECTOR_SIZE - numSectors dh = dir_need t dh.
Proof.
  intros Hv ->. unfold dir_need. destruct (forallb inUse t); [do 2 f_equal; lia|].
  pose proof (vo_inv _ _ _ _ _ _ Hv) as [_ _ _ [Hh _ _] _ _ _]. rewrite (hw_count _ Hh), (dir_bytes _ _ _ _ _ _ Hv). lia.
Qed.

Lemma other_entry (tbl : list OpenFileEntry) i j e e' : 0 ≤ i < Z.of_nat (length tbl) → i ≠ j →
  rd (<[Z.to_nat i := e]> tbl) j = Ok e' → rd tbl j = Ok e'.
Proof. intros Hi Hij <-. symmetry. eapply rd_wr_ne; [|done]. by apply wr_ok. Qed.

(** The name [k] and its header at [sec] were added to the volume. *)
Lemma volume_new_file s s' bm bm1 bm' t t' dh dh' new L rest k sec h e :
  volume s bm t dh L rest → L !! k = None → 0 ≤ sec < NUM_SECTORS → Bitmap.bit bm sec = false → Bitmap.bit bm1 sec = true →
  chain (secs s') sec [h] → footprint sec [h] = [sec] → grown bm1 bm' dh dh' new →
  freeMapFile s' = freeMapFile s → dir_sector s' = dir_sector s → directorySize s' = Z.of_nat (length t') →
  openFilesTable s' = <[Z.to_nat sec := e]> (openFilesTable s) →
  file_inv (fs_disk s') (freeMapFile s) bm' (dir_sector s) dh' → contents dh' (secs s') = table_bytes t' →
  (length t ≤ length t' ≤ 116)%nat → NoDup (keys t') → Forall entry_ok t' → dir_map t' = <[k := sec]> (dir_map t) →
  files_ok (secs s') bm' (system s' dh' ++ rest) L → (∀ y, y ∈ rest → Bitmap.bit bm' y = true ∧ y ∉ system s' dh') →
  (∀ y, y ∈ rest → rd (secs s') y = rd (secs s) y) →
  volume s' bm' t' dh' (<[k := (sec, [h])]> L) rest.
Proof.
  intros Hv HL Hsec Hfree Hsec1 Hch Hfp Hg Em Ed Es Eo Hi HT Hlt Hk He Hm Hfiles Hrest Hrd.
  destruct (free_sector _ _ _ _ _ _ sec Hv Hfree) as (Hfs & Hfr & Hff). pose proof (vo_open _ _ _ _ _ _ Hv) as Hopen.
  pose proof (vo_range _ _ _ _ _ _ Hv) as Hrange.
  apply (volume_update s s' bm bm' t t' dh dh' L _ rest Hv); try done.
  - by rewrite Em, Ed.
  - rewrite (gr_next _ _ _ _ _ Hg). apply (vo_next _ _ _ _ _ _ Hv).
  - lia.
  - by rewrite Hm, fmap_insert, (vo_layout _ _ _ _ _ _ Hv).
  - by rewrite Eo, length_insert.
  - intros e'. rewrite Ed, Eo. intros E%other_entry; [by apply (vo_lock _ _ _ _ _ _ Hv)|lia|].
    intros ->. apply Hfs. by left.
  - apply files_ok_insert; [by rewrite delete_id|done|done|rewrite Hfp; apply NoDup_singleton|].
    rewrite Hfp. intros y ->%list_elem_of_singleton. split_and!.
    + by eapply grown_bit.
    + rewrite not_elem_of_app. split; [by eapply system_grown|done].
    + intros k' f0 _ Hk'. by apply (Hff k').
Qed.

(** The header was written, but the directory was not. *)
Lemma volume_lost s s' bm bm1 t dh L rest sec e :
  volume s bm t dh L rest → 0 ≤ sec < NUM_SECTORS → Bitmap.bit bm sec = false → Bitmap.bit bm1 sec = true →
  (∀ y, 0 ≤ y < NUM_SECTORS → Bitmap.bit bm y = true → Bitmap.bit bm1 y = true) →
  freeMapFile s' = freeMapFile s → dir_sector s' = dir_sector s → directorySize s' = Z.of_nat (length t) →
  openFilesTable s' = <[Z.to_nat sec := e]> (openFilesTable s) →
  file_inv (fs_disk s') (freeMapFile s) bm1 (dir_sector s) dh → contents dh (secs s') = contents dh (secs s) →
  (∀ y, y ≠ sec → y ∉ system s dh → rd (secs s') y = rd (secs s) y) →
  volume s' bm1 t dh L (sec :: rest) ∧ view s' L = view s L.
Proof.
  intros Hv Hsec Hfree Hsec1 Hmono Em Ed Es Eo Hi HT Ho.
  destruct (free_sector _ _ _ _ _ _ sec Hv Hfree) as (Hfs & Hfr & Hff). pose proof (vo_open _ _ _ _ _ _ Hv) as Hopen.
  assert (system s' dh = system s dh) as Esys by (unfold system; by rewrite Em, Ed).
  destruct (files_ok_frame (secs s) (secs s') bm bm1 (system s dh ++ rest) (system s' dh ++ sec :: rest) L (vo_files _ _ _ _ _ _ Hv))
    as [Hfiles Hview].
  { intros y Hr Hy (Hs & _ & Hyr)%not_in_system _. assert (y ≠ sec) by congruence. split_and!; [by apply Ho|by apply Hmono|].
    rewrite Esys. apply not_elem_of_app. split; [done|by apply not_elem_of_cons]. }
  split; [|done]. split; rewrite ?Em, ?Ed, ?Esys, ?Eo, ?length_insert; try apply Hv; try done.
  - rewrite HT. apply (vo_table _ _ _ _ _ _ Hv).
  - by rewrite Esys in Hfiles.
  - intros y Hy. apply elem_of_cons in Hy as [->|Hy]; [done|].
    destruct (vo_rest _ _ _ _ _ _ Hv _ Hy) as (Hr & Hb & Hs). split; [exact Hr|split; [by apply Hmono|exact Hs]].
  - right. apply (vo_boot _ _ _ _ _ _ Hv).
  - destruct (vo_rest _ _ _ _ _ _ Hv _ (vo_boot _ _ _ _ _ _ Hv)) as (_ & Hb & Hs).
    unfold map_header. rewrite Ho, Em; [apply (vo_header _ _ _ _ _ _ Hv)|congruence|done].
  - destruct (vo_root _ _ _ _ _ _ Hv); [by left|]. right. by right.
  - intros e' E%other_entry; [by apply (vo_lock _ _ _ _ _ _ Hv)|lia|]. intros ->. apply Hfs. by left.
Qed.

Lemma Create_new_ok s bm t dh L rest nm :
  volume s bm t dh L rest → c_string nm → L !! key nm = None → (length t < 116)%nat ∨ forallb inUse t = false →
  (0 < fm_clear bm)%nat →
  if decide (1 + dir_need t dh ≤ Z.of_nat (fm_clear bm)) then
    ∃ s' bm' t' dh' sec h, Create_new uninit t nm s = Ok (true, s') ∧
      volume s' bm' t' dh' (<[key nm := (sec, [h])]> L) rest ∧ Bitmap.bit bm sec = false ∧
      view s' (<[key nm := (sec, [h])]> L) = <[key nm := []]> (view s L) ∧
      (∀ y, y ∈ rest → rd (secs s') y = rd (secs s) y) ∧ entry_added false t t' ∧
      Z.of_nat (fm_clear bm) = Z.of_nat (fm_clear bm') + 1 + dir_need t dh ∧ numSectors dh' = numSectors dh + dir_need t dh ∧
      ∃ r, openFilesTable s' = <[Z.to_nat sec := fresh r]> (openFilesTable s)
  else
    ∃ s' bm' sec, Create_new uninit t nm s = Ok (true, s') ∧
      volume (with_size s' (Z.of_nat (length t))) bm' t dh L (sec :: rest) ∧ view s' L = view s L.
Proof.
  intros Hv Hnm HL Hlen Hc. pose proof (vo_inv _ _ _ _ _ _ Hv) as Hi. pose proof (fi_map _ _ _ _ _ Hi) as Hm.
  unfold Create_new. destruct (fetch_freeMap_ok s bm (fi_ok _ _ _ _ _ Hi) Hm) as (s1 & E & Hs1).
  rewrite (bind_ok _ _ _ _ _ E). clear E.
  destruct (volume_same _ _ _ _ _ _ _ Hv Hs1) as [Hv1 Hview]. rewrite <-Hview, <-(sf_secs _ _ Hs1), <-(sf_table _ _ Hs1). clear Hview Hv Hs1 Hi Hm s.
  pose proof (fi_map _ _ _ _ _ (vo_inv _ _ _ _ _ _ Hv1)) as Hm.
  destruct (find_sector bm (mo_wf _ _ _ Hm) (mo_bits _ _ _ Hm)) as [[? _]|(sec & bm1 & E & Hw1 & Hn1 & Hsec & Hfree & Hcl & Hb1)]; [lia|].
  rewrite (bind_lift _ _ _ _ E). clear E. rewrite (bool_decide_true (sec ≠ -1)) by lia.
  destruct (dir_Add_ok s1 bm t dh L rest nm sec false Hv1 Hnm HL Hsec) as (t' & E & Hm' & Hk' & He' & Hl' & Hp').
  rewrite (bind_ok _ _ _ _ _ E). clear E. cbn [negb].
  destruct (new_header_ok s1 (Z.of_nat (length t')) bm bm1 t dh L rest sec Hv1 Hw1 Hn1 Hsec Hfree Hb1)
    as (x3 & x4 & E3 & E4 & Hi4 & HT4 & Hrd4 & Ho4).
  rewrite (bind_disk_ _ _ _ x3) by exact E3. rewrite (bind_ok _ _ _ _ _ E4). clear E3 E4. rewrite bind_get.
  set (s4 := with_disk (with_size s1 (Z.of_nat (length t'))) x4).
  change (with_disk (with_disk (with_size s1 (Z.of_nat (length t'))) x3) x4) with s4.
  pose proof (vo_range _ _ _ _ _ _ Hv1) as Hrange.
  assert (length t ≤ length t' ≤ 116)%nat as Hlt.
  { destruct Hlen as [?|Hfa]; [destruct (forallb inUse t); lia|]. rewrite Hfa in Hl'. lia. }
  pose proof (dir_WriteBack_ok s4 bm1 t t' dh Hi4) as HD. unfold secs in HT4, HD. cbn [fs_disk s4 with_disk] in HD.
  rewrite HT4 in HD. 
  specialize (HD (vo_table _ _ _ _ _ _ Hv1) (vo_entries _ _ _ _ _ _ Hv1) He' (proj1 Hrange) Hlt (vo_open _ _ _ _ _ _ Hv1) (vo_lock _ _ _ _ _ _ Hv1)).
  rewrite (dir_need_spec _ _ _ _ _ _ t' Hv1 Hl') in HD.
  assert (Hmono : ∀ y, 0 ≤ y < NUM_SECTORS → Bitmap.bit bm y = true → Bitmap.bit bm1 y = true).
  { intros y Hy E. rewrite (Hb1 y Hy). by destruct (decide (y = sec)). }
  assert (Hsec1 : Bitmap.bit bm1 sec = true) by (by rewrite Hb1, decide_True).
  destruct (free_sector _ _ _ _ _ _ sec Hv1 Hfree) as (Hfs & Hfr & Hff).
  assert (0 < sec) as Hpos.
  { destruct (decide (sec = 0)) as [->|]; [|lia]. destruct (vo_rest _ _ _ _ _ _ Hv1 _ (vo_boot _ _ _ _ _ _ Hv1)) as (_ & E & _).
    unfold FREE_MAP_SECTOR in E. congruence. }
  destruct (decide (dir_need t dh ≤ Z.of_nat (fm_clear bm1))) as [Hroom|Hroom].
  - rewrite decide_True by lia.
    destruct HD as (f' & x5 & bm' & dh' & new & E & Ef & Hi5 & Hg & Hnb & HT5 & Ho5).
    rewrite (bind_ok _ _ _ _ _ E), bind_set_dir. clear E.
    set (s5 := with_dir (with_disk s4 x5) f').
    destruct (fresh_entry_ok s5 sec (vo_open _ _ _ _ _ _ Hv1) Hsec) as (r & E). rewrite (bind_ok _ _ _ _ _ E). clear E.
    set (s6 := with_table s5 _).
    destruct (files_after_write s1 s6 bm bm1 bm' dh dh' new L rest sec (vo_files _ _ _ _ _ _ Hv1) (vo_rest _ _ _ _ _ _ Hv1) Hfree
      Hmono Hg Ef eq_refl) as (Hfiles & Hview & Hrest & Hrd).
    { intros y Hr Hy Hne Hs. change (secs s6) with (ss_sectors x5). rewrite Ho5 by (done || by apply Hmono).
      apply Ho4; [done|]. by eapply not_in_system with (rest := []); rewrite app_nil_r. }
    assert (rd (secs s6) sec = Ok (header_bytes (fresh_header uninit))) as Hrd6.
    { change (secs s6) with (ss_sectors x5). by rewrite Ho5. }
    destruct (fresh_chain (secs s6) sec) as (Hch & Hfp & Hcc); [lia|done|].
    exists s6, bm', t', dh', sec, (fresh_header uninit). split; [done|]. split_and!; [|done| |exact Hrd|exact Hp'| | |by exists r].
    + by eapply (volume_new_file s1 s6 bm bm1 bm' t t' dh dh' new).
    + unfold view, bytes_of. rewrite fmap_insert. cbn [snd]. rewrite Hcc. f_equal. exact Hview.
    + pose proof (grown_length _ _ _ _ _ Hg (fi_wf _ _ _ _ _ Hi4) (fi_wf _ _ _ _ _ Hi5)) as Hnl.
      rewrite (hw_count _ (fw_hdr _ (fi_wf _ _ _ _ _ Hi5))), Hnb, (dir_need_spec _ _ _ _ _ _ t' Hv1 Hl') in Hnl.
      pose proof (gr_clear _ _ _ _ _ Hg). lia.
    + rewrite (hw_count _ (fw_hdr _ (fi_wf _ _ _ _ _ Hi5))), Hnb, <-(dir_need_spec _ _ _ _ _ _ t' Hv1 Hl'). lia.
  - rewrite decide_False by lia. destruct HD as (f' & x5 & E & Ef & Hx5 & Hs5).
    rewrite (bind_ok _ _ _ _ _ E), bind_set_dir. clear E.
    set (s5 := with_dir (with_disk s4 x5) f').
    destruct (fresh_entry_ok s5 sec (vo_open _ _ _ _ _ _ Hv1) Hsec) as (r & E). rewrite (bind_ok _ _ _ _ _ E). clear E.
    set (s6 := with_table s5 _). exists s6, bm1, sec. split; [done|].
    assert (secs s6 = ss_sectors x4) as E6 by exact Hs5.
    apply (volume_lost s1 (with_size s6 (Z.of_nat (length t))) bm bm1 t dh L rest sec (fresh r)); try done.
    + eapply file_inv_same; [exact Hx5|exact Hs5|exact Hi4].
    + change (secs (with_size s6 _)) with (secs s6). by rewrite E6.
    + intros y Hy Hs. change (secs (with_size s6 _)) with (secs s6). rewrite E6. apply Ho4; [done|].
      by eapply not_in_system with (rest := []); rewrite app_nil_r.
Qed.

Context (running : Z → bool).

(** A file's first header is where the directory says. *)
Lemma layout_find s bm t dh L rest nm : volume s bm t dh L rest → c_string nm →
  Directory.Find t nm = Ok (match L !! key nm with Some f => f.1 | None => -1 end) ∧
  ∀ f, L !! key nm = Some f → 0 < f.1 < NUM_SECTORS.
Proof.
  intros Hv Hnm.
  assert (∀ f, L !! key nm = Some f → 0 < f.1 < NUM_SECTORS) as Hr.
  { intros f Hf. destruct (fo_chain _ _ _ _ (vo_files _ _ _ _ _ _ Hv) _ _ Hf) as (Hne & Hc & _).
    destruct f as [sec hs]. cbn in *. by destruct Hc. }
  split; [|exact Hr]. rewrite (Find_ok t nm (vo_dir _ _ _ _ _ _ Hv) Hnm), (vo_layout _ _ _ _ _ _ Hv), lookup_fmap.
  destruct (L !! key nm) as [f|] eqn:E; [|done]. cbn. specialize (Hr f eq_refl). change NUM_SECTORS with 1024 in Hr.
  by rewrite s32_id by width_lia.
Qed.

Lemma Create_file_ok s bm t dh L rest nm (Hv : volume s bm t dh L rest) (Hnm : c_string nm)
  (Hrel : head nm ≠ Some SLASH) (Hlen : L !! key nm = None → (length t < 116)%nat ∨ forallb inUse t = false) :
  match L !! key nm with
  | Some _ => ∃ s', Create uninit running nm s = Ok (false, s') ∧ volume s' bm t dh L rest ∧ view s' L = view s L ∧
      openFilesTable s' = openFilesTable s
  | None =>
      if decide (fm_clear bm = 0%nat) then
        ∃ s', Create uninit running nm s = Ok (false, s') ∧
          same_fs s (with_size s' (directorySize s)) ∧
          directorySize s' = directorySize s + (if forallb inUse t then 1 else 0)
      else if decide (1 + dir_need t dh ≤ Z.of_nat (fm_clear bm)) then
        ∃ s' bm' t' dh' sec h, Create uninit running nm s = Ok (true, s') ∧
          volume s' bm' t' dh' (<[key nm := (sec, [h])]> L) rest ∧ Bitmap.bit bm sec = false ∧
          view s' (<[key nm := (sec, [h])]> L) = <[key nm := []]> (view s L) ∧
          (∀ y, y ∈ rest → rd (secs s') y = rd (secs s) y) ∧ entry_added false t t' ∧
          Z.of_nat (fm_clear bm) = Z.of_nat (fm_clear bm') + 1 + dir_need t dh ∧ numSectors dh' = numSectors dh + dir_need t dh ∧
          ∃ r, openFilesTable s' = <[Z.to_nat sec := fresh r]> (openFilesTable s)
      else
        ∃ s' bm' sec, Create uninit running nm s = Ok (true, s') ∧
          volume (with_size s' (Z.of_nat (length t))) bm' t dh L (sec :: rest) ∧ view s' L = view s L
  end.
Proof.
  assert (∃ s1, same_fs s s1 ∧ Create uninit running nm s
    = (success ← (if decide (is_Some (L !! key nm)) then mret false else Create_new uninit t nm); mret success) s1) as (s1 & Hs1 & ->).
  { destruct (current_dir_ok s bm t dh L rest Hv) as (s1 & E & Hs1). exists s1. split; [done|].
    destruct (layout_find s bm t dh L rest nm Hv Hnm) as [Ef Hr].
    unfold Create. rewrite (bind_ok _ _ s (Some (None, nm)) s) by (unfold enter_path; by rewrite bool_decide_false).
    rewrite (bind_ok _ _ _ _ _ E), (bind_lift _ _ _ _ Ef). destruct (L !! key nm) as [f|] eqn:EL.
    - specialize (Hr f eq_refl). rewrite bool_decide_true by lia. by rewrite decide_True by done.
    - rewrite bool_decide_false by (intros []; done). by rewrite (decide_False (P:=is_Some None)) by (by apply is_Some_None). }
  destruct (volume_same _ _ _ _ _ _ _ Hv Hs1) as [Hv1 Hview]. rewrite <-Hview, <-(sf_secs _ _ Hs1), <-(sf_table _ _ Hs1).
  destruct (L !! key nm) as [f|] eqn:EL.
  - rewrite decide_True by done. by exists s1.
  - rewrite (decide_False (P:=is_Some None)) by (by apply is_Some_None). destruct (decide (fm_clear bm = 0%nat)) as [Hz|Hz].
    + destruct (Create_new_full s1 bm t dh L rest nm Hv1 Hnm EL Hz) as (s' & E & Hs' & En).
      rewrite (bind_ok _ _ _ _ _ E). clear E. exists s'. split; [done|].
      rewrite (sf_size _ _ Hs1) in Hs', En. split; [by eapply same_fs_trans|done].
    + pose proof (Create_new_ok s1 bm t dh L rest nm Hv1 Hnm EL (Hlen eq_refl) ltac:(lia)) as HC.
      destruct (decide (1 + dir_need t dh ≤ _)).
      * destruct HC as (s' & bm' & t' & dh' & sec & h & E & HC). rewrite (bind_ok _ _ _ _ _ E). clear E.
        by exists s', bm', t', dh', sec, h.
      * destruct HC as (s' & bm' & sec & E & HC). rewrite (bind_ok _ _ _ _ _ E). clear E. by exists s', bm', sec.
Qed.

(** C13: [Create] of a relative name in the current directory, which has fewer
    than 116 entries (29 sectors) or a free one.  A name that exists (its first
    20 characters) is refused and nothing changes.  Otherwise, if the header
    and the growth of the directory find free sectors, the result is true and
    the file system holds exactly one more, empty file, on a sector that was
    free; every other file keeps its bytes, and the sectors of other
    directories ([rest]) theirs.  On a full disk the result is false, and the sectors
    of the disk, the table of open files, the open files of the map and of the
    directory and the messages are as before ([same_fs]); but the size the
    kernel keeps in memory for the directory, [directorySize], has become one more
    if the table had no free entry.  If there is only room for the header,
    [Create] returns true, but the name is not in the directory, and the sector
    is lost. *)
Theorem Create_correct s bm t dh L rest nm (Hv : volume s bm t dh L rest) (Hnm : c_string nm)
  (Hrel : head nm ≠ Some SLASH) (Hlen : L !! key nm = None → (length t < 116)%nat ∨ forallb inUse t = false) :
  match L !! key nm with
  | Some _ => ∃ s', Create uninit running nm s = Ok (false, s') ∧ volume s' bm t dh L rest ∧ view s' L = view s L ∧
      openFilesTable s' = openFilesTable s
  | None =>
      if decide (fm_clear bm = 0%nat) then
        ∃ s', Create uninit running nm s = Ok (false, s') ∧
          same_fs s (with_size s' (directorySize s)) ∧
          directorySize s' = directorySize s + (if forallb inUse t then 1 else 0)
      else if decide (1 + dir_need t dh ≤ Z.of_nat (fm_clear bm)) then
        ∃ s' bm' t' dh' sec h, Create uninit running nm s = Ok (true, s') ∧
          volume s' bm' t' dh' (<[key nm := (sec, [h])]> L) rest ∧ Bitmap.bit bm sec = false ∧
          view s' (<[key nm := (sec, [h])]> L) = <[key nm := []]> (view s L) ∧
          (∀ y, y ∈ rest → rd (secs s') y = rd (secs s) y) ∧ entry_added false t t' ∧
          Z.of_nat (fm_clear bm) = Z.of_nat (fm_clear bm') + 1 + dir_need t dh ∧ numSectors dh' = numSectors dh + dir_need t dh ∧
          ∃ r, openFilesTable s' = <[Z.to_nat sec := fresh r]> (openFilesTable s)
      else
        ∃ s' bm' sec, Create uninit running nm s = Ok (true, s') ∧
          volume (with_size s' (Z.of_nat (length t))) bm' t dh L (sec :: rest) ∧ view s' L = view s L
  end.
Proof. by apply Create_file_ok. Qed.

(** ** [Open] *)
Lemma open_file_ok s sec bs : ss_ok (fs_disk s) → 0 ≤ sec < NUM_SECTORS → rd (secs s) sec = Ok bs →
  length (openFilesTable s) = Z.to_nat NUM_SECTORS →
  ∃ x' e, rd (openFilesTable s) sec = Ok e ∧
    open_file sec s = Ok (mkOpenFile (header_of_bytes bs) sec 0 sec,
      with_table (with_disk s x') (<[Z.to_nat sec := entry_open e]> (openFilesTable s))) ∧
    ss_ok x' ∧ ss_sectors x' = secs s.
Proof.
  intros Hx Hs Hbs Hl. destruct (FetchFrom_ok (fs_disk s) sec Hx Hs) as (v & x' & EF & Hv & Hx' & Hs').
  unfold secs in Hbs. rewrite Hbs in Hv. injection Hv as <-.
  destruct (rd_in_range (openFilesTable s) sec) as (e & He & _); [lia|]. exists x', e. split_and!; try done.
  unfold open_file. rewrite bind_get.
  rewrite (bind_disk _ _ s (mkOpenFile (header_of_bytes bs) sec 0 sec, <[Z.to_nat sec := entry_open e]> (openFilesTable s)) x').
  - done.
  - unfold new_OpenFile. rewrite EF. cbn [mbind result_bind]. rewrite He. cbn [mbind result_bind].
    rewrite wr_ok by lia. done.
Qed.

(** The table of open files, apart from the directory's entry, is free to change. *)
Lemma volume_table s bm t dh L rest tbl : volume s bm t dh L rest → length tbl = length (openFilesTable s) →
  (∀ e, rd tbl (dir_sector s) = Ok e → writeLock e = LLive) →
  volume (with_table s tbl) bm t dh L rest ∧ view (with_table s tbl) L = view s L.
Proof.
  intros Hv Hl Hk. apply volume_reopened; try done; [apply Hv|]. change (length tbl = Z.to_nat NUM_SECTORS).
  rewrite Hl. apply (vo_open _ _ _ _ _ _ Hv).
Qed.

Lemma volume_entry s bm t dh L rest sec e : volume s bm t dh L rest → 0 ≤ sec < NUM_SECTORS → sec ≠ dir_sector s →
  let s' := with_table s (<[Z.to_nat sec := e]> (openFilesTable s)) in volume s' bm t dh L rest ∧ view s' L = view s L.
Proof.
  intros Hv Hs Hne. apply volume_table; [done|by rewrite length_insert|].
  intros e' E%other_entry; [by apply (vo_lock _ _ _ _ _ _ Hv)|rewrite (vo_open _ _ _ _ _ _ Hv); lia|done].
Qed.

(** The first sector of a file is none of the system. *)
Lemma layout_sector s bm t dh L rest k sec hs : volume s bm t dh L rest → L !! k = Some (sec, hs) →
  0 < sec < NUM_SECTORS ∧ sec ≠ dir_sector s ∧ chain (secs s) sec hs ∧ NoDup (footprint sec hs) ∧
  ∃ bs h hs', hs = h :: hs' ∧ rd (secs s) sec = Ok bs ∧ h = header_of_bytes bs ∧ file_wf h ∧ chain (secs s) (nextFileHeader h) hs'.
Proof.
  intros Hv Hk. destruct (fo_chain _ _ _ _ (vo_files _ _ _ _ _ _ Hv) _ _ Hk) as (Hne & Hc & Hn). cbn in *.
  pose proof (fo_used _ _ _ _ (vo_files _ _ _ _ _ _ Hv) k _ sec Hk) as Hu. cbn in Hu. pose proof Hc as Hc2.
  destruct Hc as [|sec bs h hs Hs Hbs Hh Hf Hch]; [done|]. split_and!; try done; try lia.
  - intros ->. destruct (Hu ltac:(by left)) as [_ Hy]. apply Hy. by left.
  - by exists bs, h, hs.
Qed.

Lemma Open_file_ok s bm t dh L rest nm (Hv : volume s bm t dh L rest) (Hnm : c_string nm) :
  match L !! key nm with
  | None => ∃ s', FileSystem.Open uninit nm s = Ok (None, s') ∧ volume s' bm t dh L rest ∧ view s' L = view s L ∧
      openFilesTable s' = openFilesTable s
  | Some (sec, hs) => ∃ e s', rd (openFilesTable s) sec = Ok e ∧ volume s' bm t dh L rest ∧ view s' L = view s L ∧
      if removing e then FileSystem.Open uninit nm s = Ok (None, s')
      else ∃ h, let f := mkOpenFile h sec 0 sec in
        head hs = Some h ∧ FileSystem.Open uninit nm s = Ok (Some f, s') ∧
        openFilesTable s' = <[Z.to_nat sec := entry_open e]> (openFilesTable s) ∧
        view s L !! key nm = Some (chain_contents (secs s) hs) ∧
        ∀ n, 0 < n < 2 ^ 32 → ∃ f' x', Read FUEL f (fs_disk s') n false
          = Ok (take (Z.to_nat n) (chain_contents (secs s) hs), f', x') ∧ ss_ok x' ∧ ss_sectors x' = secs s'
  end.
Proof.
  destruct (current_dir_ok s bm t dh L rest Hv) as (s1 & E & Hs1). destruct (layout_find s bm t dh L rest nm Hv Hnm) as [Ef Hr].
  destruct (volume_same _ _ _ _ _ _ _ Hv Hs1) as [Hv1 Hview].
  unfold FileSystem.Open. rewrite (bind_ok _ _ _ _ _ E), (bind_lift _ _ _ _ Ef). clear E Ef.
  destruct (L !! key nm) as [[sec hs]|] eqn:EL.
  - specialize (Hr _ eq_refl). cbn [fst] in Hr |- *. rewrite bool_decide_true by lia.
    destruct (layout_sector _ _ _ _ _ _ _ _ _ Hv1 EL) as (_ & Hne & Hc & Hn & bs & h & hs' & -> & Hbs & -> & Hwf & Hch).
    pose proof (vo_inv _ _ _ _ _ _ Hv1) as [Hx _ _ _ _ _ _].
    destruct (open_file_ok s1 sec bs Hx) as (x' & e & He & EO & Hx' & Hs'); [lia|done|apply (vo_open _ _ _ _ _ _ Hv1)|].
    exists e. rewrite <-(sf_table _ _ Hs1), <-(sf_secs _ _ Hs1).
    rewrite (bind_ok _ _ s1 e s1) by (unfold entry; rewrite bind_get; unfold lift; by rewrite He).
    destruct (removing e); cbn [negb].
    + exists s1. by split_and!.
    + rewrite (bind_ok _ _ _ _ _ EO). clear EO. set (s2 := with_table _ _). exists s2.
      assert (same_fs s1 (with_disk s1 x')) as Hs2 by (by split).
      destruct (volume_same _ _ _ _ _ _ _ Hv1 Hs2) as [Hv2 Hview2].
      destruct (volume_entry _ _ _ _ _ _ sec (entry_open e) Hv2 ltac:(lia) Hne) as [Hv3 Hview3].
      split_and!; [done|exact Hv3|exact (eq_trans Hview3 (eq_trans Hview2 Hview))|]. eexists. split; [done|]. split; [done|]. split_and!; [done| |].
      * rewrite <-Hview. unfold view, bytes_of. by rewrite lookup_fmap, EL.
      * intros n Hnn. rewrite <-Hs' in Hch. change (fs_disk s2) with x'.
        destruct (Read_ok FUEL (mkOpenFile (header_of_bytes bs) sec 0 sec) x' hs' n Hx' Hwf Hch)
          as (f' & x2 & ER & Hx2 & Hs2' & _); [cbn; lia..| |].
        { apply (chain_fuel (secs s1)) in Hc; [cbn in Hc; lia|done]. }
        exists f', x2. rewrite ER. split_and!; [|done|by rewrite Hs2']. do 3 f_equal.
        cbn [hdr seekPosition]. unfold chain_contents. rewrite fmap_cons. cbn [concat]. by rewrite Hs'.
  - rewrite bool_decide_false by lia. exists s1. split_and!; [done..|apply (sf_table _ _ Hs1)].
Qed.

(** C15: [Open] in the current directory.  An unknown name, or a file that is
    being removed, is not opened.  Otherwise the count of the file goes up, the
    file system is as before, and reading from the new object gives the contents
    of the file from its start, across its headers. *)
Theorem Open_correct s bm t dh L rest nm (Hv : volume s bm t dh L rest) (Hnm : c_string nm) :
  match L !! key nm with
  | None => ∃ s', FileSystem.Open uninit nm s = Ok (None, s') ∧ volume s' bm t dh L rest ∧ view s' L = view s L ∧
      openFilesTable s' = openFilesTable s
  | Some (sec, hs) => ∃ e s', rd (openFilesTable s) sec = Ok e ∧ volume s' bm t dh L rest ∧ view s' L = view s L ∧
      if removing e then FileSystem.Open uninit nm s = Ok (None, s')
      else ∃ h, let f := mkOpenFile h sec 0 sec in
        head hs = Some h ∧ FileSystem.Open uninit nm s = Ok (Some f, s') ∧
        openFilesTable s' = <[Z.to_nat sec := entry_open e]> (openFilesTable s) ∧
        view s L !! key nm = Some (chain_contents (secs s) hs) ∧
        ∀ n, 0 < n < 2 ^ 32 → ∃ f' x', Read FUEL f (fs_disk s') n false
          = Ok (take (Z.to_nat n) (chain_contents (secs s) hs), f', x') ∧ ss_ok x' ∧ ss_sectors x' = secs s'
  end.
Proof. by apply Open_file_ok. Qed.

(** ** Writing to a file *)
Lemma footprint_single sec h : footprint sec [h] = sec :: sectors_of h.
Proof. cbn. by rewrite app_nil_r. Qed.

(** The invariant of a file of the volume that has one header. *)
Lemma volume_file_inv s bm t dh L rest k sec h : volume s bm t dh L rest → L !! k = Some (sec, [h]) →
  file_inv (fs_disk s) (freeMapFile s) bm sec h.
Proof.
  intros Hv Hk. destruct (layout_sector _ _ _ _ _ _ _ _ _ Hv Hk) as (Hs & _ & _ & Hn & bs & h' & hs' & [= <- <-] & Hbs & Hh & Hwf & _).
  pose proof (vo_inv _ _ _ _ _ _ Hv) as Hi. pose proof Hi as [Hx Hm _ _ _ Hu Hnd].
  pose proof (λ y, fo_used _ _ _ _ (vo_files _ _ _ _ _ _ Hv) k _ y Hk) as Hf. cbn [fst snd] in Hf. rewrite footprint_single in Hn, Hf.
  assert (∀ y, y ∈ sectors_of (hdr (freeMapFile s)) → y ∈ system s dh) as Hsys.
  { intros y Hy. right. apply elem_of_app. by right. }
  split; try done; [by exists bs|lia| |].
  - intros y. rewrite app_comm_cons. intros [Hy|Hy]%elem_of_app; [by apply Hf|]. by apply Hu, Hsys.
  - rewrite app_comm_cons. apply NoDup_app. split_and!; [done| |].
    + intros y Hy Hy'. destruct (Hf y Hy) as [_ Hno]. apply Hno, elem_of_app. left. by apply Hsys.
    + apply (fw_nodup _ (mo_file _ _ _ Hm)).
Qed.

(** The file [k] of the volume has a new header and new contents. *)
Lemma volume_grown s x' bm bm' t dh L rest k sec h h' new :
  volume s bm t dh L rest → L !! k = Some (sec, [h]) → file_inv x' (freeMapFile s) bm' sec h' → grown bm bm' h h' new →
  (∀ y, 0 ≤ y < NUM_SECTORS → Bitmap.bit bm y = true → y ∉ sec :: sectors_of h ++ sectors_of (hdr (freeMapFile s)) →
    rd (ss_sectors x') y = rd (secs s) y) →
  volume (with_disk s x') bm' t dh (<[k := (sec, [h'])]> L) rest ∧
  view (with_disk s x') (<[k := (sec, [h'])]> L) = <[k := contents h' (ss_sectors x')]> (view s L).
Proof.
  intros Hv Hk Hi' Hg Ho. set (s' := with_disk s x').
  destruct (layout_sector _ _ _ _ _ _ _ _ _ Hv Hk) as (Hs & _ & _ & Hn & bs & h0 & hs0 & [= <- <-] & _ & _ & _ & Hnx).
  pose proof (volume_file_inv _ _ _ _ _ _ _ _ _ Hv Hk) as Hi. pose proof (vo_inv _ _ _ _ _ _ Hv) as Hd.
  pose proof (vo_files _ _ _ _ _ _ Hv) as Hf. pose proof (λ y, fo_used _ _ _ _ Hf k _ y Hk) as Hu. cbn [fst snd] in Hu.
  rewrite footprint_single in Hu, Hn.
  assert (Hof : ∀ y, 0 ≤ y < NUM_SECTORS → Bitmap.bit bm y = true → y ∉ sectors_of (hdr (freeMapFile s)) → y ∉ sec :: sectors_of h →
    rd (secs s') y = rd (secs s) y).
  { intros y Hr Hb Hy1 Hy2. apply Ho; [done..|]. rewrite app_comm_cons. by apply not_elem_of_app. }
  assert (Hdir : ∀ y, y ∈ dir_sector s :: sectors_of dh → rd (secs s') y = rd (secs s) y).
  { intros y Hy. destruct (system_in_use s bm t dh L rest y Hv) as [Hr Hb].
    { unfold system. rewrite app_comm_cons. apply elem_of_app. by left. }
    apply Hof; [done..| |].
    - intros Hy'. pose proof (fi_disj _ _ _ _ _ Hd) as Hnd. rewrite app_comm_cons in Hnd.
      apply NoDup_app in Hnd as (_ & Hnd & _). by apply (Hnd y).
    - intros [_ Hno]%Hu. apply Hno, elem_of_app. left. unfold system. rewrite app_comm_cons. apply elem_of_app. by left. }
  assert (Hrestd : ∀ y, y ∈ rest → y ∉ sec :: sectors_of h).
  { intros y Hy [_ Hno]%Hu. apply Hno, elem_of_app. by right. }
  destruct (files_ok_frame (secs s) (secs s') bm bm' (system s dh ++ rest) (system s' dh ++ rest) (delete k L))
    as [Hf' Hview]; [by apply files_ok_delete|..].
  { intros y Hr Hb (Hsys & Hfm & Hres)%not_in_system (k' & f' & [Hne Hk']%lookup_delete_Some & Hy). split_and!.
    - apply Hof; [done..|]. intros Hy'. apply Hne. apply (fo_disjoint _ _ _ _ Hf k k' _ f' y Hk Hk'); [|done].
      cbn. by rewrite app_nil_r.
    - by eapply grown_bit.
    - by apply not_elem_of_app. }
  assert (chain (secs s') sec [h']) as Hch'.
  { destruct (fi_hdr _ _ _ _ _ Hi') as (bs' & Hbs' & Hh'). eapply chain_cons; [done|exact Hbs'|done|apply (fi_wf _ _ _ _ _ Hi')|].
    rewrite (gr_next _ _ _ _ _ Hg). inversion Hnx. constructor. }
  split.
  - apply (volume_update s s' bm bm' t t dh dh L _ rest Hv); try apply Hv.
    + eapply file_inv_frame; [exact Hd|apply (fi_ok _ _ _ _ _ Hi')|apply (fi_map _ _ _ _ _ Hi')|exact Hdir|].
      intros y Hy. by eapply grown_bit.
    + rewrite <-(vo_table _ _ _ _ _ _ Hv). unfold contents, raw_contents. rewrite (blocks_frame dh (secs s)); [done| |].
      * intros y Hy. apply Hdir. by right.
      * apply sectors_nonneg, (fi_wf _ _ _ _ _ Hd).
    + rewrite fmap_insert. cbn. rewrite insert_id; [apply (vo_layout _ _ _ _ _ _ Hv)|]. by rewrite lookup_fmap, Hk.
    + apply files_ok_insert; [done|done|done| |]; rewrite footprint_single.
      * pose proof (fi_disj _ _ _ _ _ Hi') as Hnd. rewrite app_comm_cons in Hnd. by apply NoDup_app in Hnd as [? _].
      * intros y Hy. rewrite (gr_sectors _ _ _ _ _ Hg), app_comm_cons in Hy.
        pose proof (gr_free _ _ _ _ _ Hg) as Hfr. rewrite Forall_forall in Hfr. apply elem_of_app in Hy as [Hy|Hy].
        -- destruct (Hu y Hy) as [Hb Hno]. split_and!; [|exact Hno|].
           ++ eapply grown_bit; [done| |done]. eapply (files_ok_range _ _ _ _ _ _ _ Hf Hk). cbn. by rewrite app_nil_r.
           ++ intros k' f' Hne Hk' Hy'. apply Hne. apply (fo_disjoint _ _ _ _ Hf k' k f' _ y Hk' Hk); [done|]. cbn. by rewrite app_nil_r.
        -- destruct (Hfr y Hy) as [Hr Hb]. destruct (free_sector _ _ _ _ _ _ y Hv Hb) as (H1 & H2 & H3). split_and!.
           ++ rewrite (gr_bits _ _ _ _ _ Hg) by done. by rewrite (bool_decide_true _ Hy), orb_true_r.
           ++ by apply not_elem_of_app.
           ++ intros k' f' _ Hk'. by apply (H3 k').
    + intros y Hy. destruct (vo_rest _ _ _ _ _ _ Hv y Hy) as (Hr & Hb & Hno). split; [by eapply grown_bit|exact Hno].
    + intros y Hy. destruct (vo_rest _ _ _ _ _ _ Hv y Hy) as (Hr & Hb & Hno). apply Hof; [done..| |by apply Hrestd].
      intros Hy'. apply Hno. right. apply elem_of_app. by right.
    + done.
    + done.
  - unfold view, bytes_of in *. rewrite fmap_insert. etrans; [symmetry; apply insert_delete_eq|].
    rewrite <-fmap_delete, Hview, fmap_delete, insert_delete_eq. f_equal. cbn. by rewrite app_nil_r.
Qed.

Lemma Write_file_ok s bm t dh L rest k f h e from n (Hv : volume s bm t dh L rest)
  (Hk : L !! k = Some (sector f, [h])) (Hcs : currentSector f = sector f)
  (He : rd (openFilesTable s) (sector f) = Ok e) (Hlock : writeLock e = LLive)
  (Hseek : 0 ≤ seekPosition f ≤ numBytes h) (Hn : 0 < n)
  (Hcap : seekPosition f + n ≤ HEADER_CAPACITY) (Hfrom : n ≤ Z.of_nat (length from)) :
  let C := contents h (secs s) in
  view s L !! k = Some C ∧
  if decide (DivRoundUp (Z.max (numBytes h) (seekPosition f + n)) SECTOR_SIZE - numSectors h ≤ Z.of_nat (fm_clear bm)) then
    ∃ x' bm' h', Write uninit FUEL (openFilesTable s) (freeMapFile s) f (fs_disk s) from n false
        = Ok (n, mkOpenFile h' (sector f) (seekPosition f + n) (sector f), x') ∧
      volume (with_disk s x') bm' t dh (<[k := (sector f, [h'])]> L) rest ∧
      view (with_disk s x') (<[k := (sector f, [h'])]> L)
        = <[k := take (Z.to_nat (seekPosition f)) C ++ take (Z.to_nat n) from ++ drop (Z.to_nat (seekPosition f + n)) C]> (view s L) ∧
      numBytes h' = Z.max (numBytes h) (seekPosition f + n) ∧
      Z.of_nat (fm_clear bm) - Z.of_nat (fm_clear bm') = numSectors h' - numSectors h
  else ∃ f' x', Write uninit FUEL (openFilesTable s) (freeMapFile s) f (fs_disk s) from n false = Ok (0, f', x') ∧
    volume (with_disk s x') bm t dh L rest ∧ view (with_disk s x') L = view s L.
Proof.
  intros C. split.
  { unfold view, bytes_of. rewrite lookup_fmap, Hk. cbn. by rewrite app_nil_r. }
  pose proof (volume_file_inv _ _ _ _ _ _ _ _ _ Hv Hk) as Hi. rewrite <-Hcs in Hi.
  pose proof (Write_ok uninit uninit_length uninit_bytes FUEL (openFilesTable s) e (freeMapFile s) bm f (fs_disk s) h from n
    Hi He Hlock Hseek Hn Hcap Hfrom) as HW. cbn zeta in HW. rewrite Hcs in HW.
  destruct (decide (_ ≤ _)).
  - destruct HW as (x' & bm' & h' & new & E & Hi' & Hg & Hnb & HC & Ho). exists x', bm', h'. rewrite E. split; [done|]. clear E.
    fold (secs s) in HC, Ho. fold C in HC. rewrite <-HC. rewrite Hcs in Hi.
    destruct (volume_grown s x' bm bm' t dh L rest k (sector f) h h' new) as [Hv' Hview']; [done..|].
    split; [exact Hv'|split; [exact Hview'|split; [exact Hnb|]]].
    pose proof (grown_length _ _ _ _ _ Hg (fi_wf _ _ _ _ _ Hi) (fi_wf _ _ _ _ _ Hi')). pose proof (gr_clear _ _ _ _ _ Hg). lia.
  - destruct HW as (f' & x' & E & _ & Hx' & Hs'). exists f', x'. rewrite E. split; [done|]. clear E.
    apply (volume_same s); [done|by split].
Qed.

(** C14: [Write] on a file of the current directory that has one header, when
    the request begins inside the file or at its end, and ends within what one
    header holds (29 sectors, 3712 bytes).  [C] is what the file holds; if
    enough sectors are free, [n] is the result, the file holds [C] with the new
    bytes from the position on, the position is behind them, and the rest of the
    file system is as before; otherwise the result is 0 and nothing is written.
    A file with a chain of headers, where [Write] looks for the header at the
    wrong sector, is outside this theorem. *)
Theorem Write_correct s bm t dh L rest k f h e from n (Hv : volume s bm t dh L rest)
  (Hk : L !! k = Some (sector f, [h])) (Hcs : currentSector f = sector f)
  (He : rd (openFilesTable s) (sector f) = Ok e) (Hlock : writeLock e = LLive)
  (Hseek : 0 ≤ seekPosition f ≤ numBytes h) (Hn : 0 < n)
  (Hcap : seekPosition f + n ≤ HEADER_CAPACITY) (Hfrom : n ≤ Z.of_nat (length from)) :
  let C := contents h (secs s) in
  view s L !! k = Some C ∧
  if decide (DivRoundUp (Z.max (numBytes h) (seekPosition f + n)) SECTOR_SIZE - numSectors h ≤ Z.of_nat (fm_clear bm)) then
    ∃ x' bm' h', Write uninit FUEL (openFilesTable s) (freeMapFile s) f (fs_disk s) from n false
        = Ok (n, mkOpenFile h' (sector f) (seekPosition f + n) (sector f), x') ∧
      volume (with_disk s x') bm' t dh (<[k := (sector f, [h'])]> L) rest ∧
      view (with_disk s x') (<[k := (sector f, [h'])]> L)
        = <[k := take (Z.to_nat (seekPosition f)) C ++ take (Z.to_nat n) from ++ drop (Z.to_nat (seekPosition f + n)) C]> (view s L) ∧
      numBytes h' = Z.max (numBytes h) (seekPosition f + n) ∧
      Z.of_nat (fm_clear bm) - Z.of_nat (fm_clear bm') = numSectors h' - numSectors h
  else ∃ f' x', Write uninit FUEL (openFilesTable s) (freeMapFile s) f (fs_disk s) from n false = Ok (0, f', x') ∧
    volume (with_disk s x') bm t dh L rest ∧ view (with_disk s x') L = view s L.
Proof. by eapply Write_file_ok. Qed.

(** ** [Remove] *)

(** The map without the sectors [l]. *)
Definition freed (bm bm' : Bitmap) (l : list Z) : Prop :=
  Bitmap.wf bm' ∧ numBits bm' = NUM_SECTORS ∧
  ∀ j, 0 ≤ j < NUM_SECTORS → Bitmap.bit bm' j = Bitmap.bit bm j && negb (bool_decide (j ∈ l)).

(** The data and the header of a file are given back. *)
Lemma free_header bm sec h : Bitmap.wf bm → numBits bm = NUM_SECTORS → file_wf h → 0 ≤ sec < NUM_SECTORS →
  NoDup (sec :: sectors_of h) → (∀ y, y ∈ sectors_of h → Bitmap.bit bm y = true) →
  ∃ b1 b2, Deallocate h bm = Ok b1 ∧ Clear b1 sec = Ok b2 ∧ freed bm b2 (sec :: sectors_of h).
Proof.
  intros Hw Hn [Hh Hr Hnd] Hs Hns Hu. pose proof (Deallocate_frees (B:=Bitmap) h bm Hh Hw) as HD. cbn in HD. rewrite Hn in HD.
  destruct HD as (b1 & E1 & Hw1 & Hn1 & Hb1 & _).
  { split; [done|]. cbn. rewrite Hn. apply Forall_forall. intros y Hy. rewrite Forall_forall in Hr. split; [by apply Hr|by apply Hu]. }
  destruct (Clear_ok b1 sec Hw1) as (b2 & E2 & Hw2 & Hn2 & Hb2); [lia|].
  exists b1, b2. split; [exact E1|]. split; [exact E2|]. split; [done|]. split; [congruence|]. intros j Hj. rewrite Hb2 by lia.
  case_decide as Hc.
  - subst j. rewrite (bool_decide_true (sec ∈ sec :: _)) by left. by rewrite andb_false_r.
  - rewrite Hb1 by done. do 2 f_equal. apply bool_decide_ext. rewrite elem_of_cons. naive_solver.
Qed.

Lemma freed_trans b1 b2 b3 l1 l2 : freed b1 b2 l1 → freed b2 b3 l2 → freed b1 b3 (l1 ++ l2).
Proof.
  intros (_ & _ & H1) (? & ? & H2). do 2 (split; [done|]). intros j Hj. rewrite H2, H1, <-andb_assoc, <-negb_orb by done.
  do 2 f_equal. symmetry. rewrite <-bool_decide_or. apply bool_decide_ext. apply elem_of_app.
Qed.

(** Every later header of a chain. *)
Lemma Remove_chain_ok s0 hs : ∀ sec fuel bm σ, chain s0 sec hs → (length hs ≤ fuel)%nat → NoDup (footprint sec hs) →
  Bitmap.wf bm → numBits bm = NUM_SECTORS → (∀ y, y ∈ footprint sec hs → Bitmap.bit bm y = true) →
  ss_ok (fs_disk σ) → secs σ = s0 →
  ∃ bm' x', Remove_chain fuel sec bm σ = Ok (bm', with_disk σ x') ∧ ss_ok x' ∧ ss_sectors x' = s0 ∧ freed bm bm' (footprint sec hs).
Proof.
  induction hs as [|h hs IH]; intros sec fuel bm σ Hc Hl Hn Hw Hb Hu Hx Hs.
  - inversion Hc. subst. exists bm, (fs_disk σ). split; [by destruct fuel, σ|]. do 4 (split; [done|]).
    intros j Hj. cbn. by rewrite andb_true_r.
  - inversion Hc as [|sec' bs h' hs' Hsec Hbs Hh Hwf Hch]; subst. destruct fuel as [|fuel]; [cbn in Hl; lia|]. cbn [length] in Hl.
    cbn [footprint] in Hn, Hu. rewrite app_comm_cons in Hn. apply NoDup_app in Hn as (Hn1 & Hn2 & Hn3).
    cbn [Remove_chain]. rewrite bool_decide_true by lia.
    destruct (FetchFrom_ok (fs_disk σ) sec Hx) as (v & x1 & EF & Hv & Hx1 & Hs1); [lia|].
    unfold secs in Hbs. rewrite Hbs in Hv. injection Hv as <-. rewrite (bind_disk _ _ _ _ _ EF).
    destruct (free_header bm sec (header_of_bytes bs)) as (b1 & b2 & E1 & E2 & Hf); [done|done|done|lia|done| |].
    { intros y Hy. apply Hu. right. apply elem_of_app. by left. }
    rewrite (bind_lift _ _ _ _ E1), (bind_lift _ _ _ _ E2). pose proof Hf as (Hw2 & Hb2 & Hu2).
    destruct (IH (nextFileHeader (header_of_bytes bs)) fuel b2 (with_disk σ x1) Hch) as (bm' & x' & E & Hx' & Hs' & Hf');
      [lia|done|done|done| |done|exact Hs1|].
    { intros y Hy. rewrite Hu2.
      - rewrite Hu by (right; apply elem_of_app; by right). rewrite bool_decide_false; [done|]. intros Hy'. by apply (Hn2 y).
      - eapply Forall_forall in Hy; [|by eapply footprint_range]. done. }
    exists bm', x'. rewrite E. do 3 (split; [done|]). cbn [footprint]. rewrite app_comm_cons. by eapply freed_trans.
Qed.

(** The bitmap and the directory without a name are written back. *)
Lemma write_without s bm bm1 t t' dh L rest k f :
  volume s bm t dh L rest → L !! k = Some f → freed bm bm1 (footprint f.1 f.2) →
  dir_map t' = delete k (dir_map t) → dir_wf t' → length t' = length t → Forall entry_ok t' →
  ∃ x2 x3 df dh' bm', write_freeMap uninit bm1 s = Ok (tt, with_disk s x2) ∧
    dir_WriteBack uninit t' (directoryFile s) false (with_disk s x2) = Ok (df, with_disk s x3) ∧
    let s' := with_dir (with_disk s x3) df in
    sector df = dir_sector s ∧ volume s' bm' t' dh' (delete k L) rest ∧ view s' (delete k L) = delete k (view s L) ∧
    freed bm bm' (footprint f.1 f.2) ∧ (∀ y, y ∈ rest → rd (secs s') y = rd (secs s) y).
Proof.
  intros Hv Hk Hfr Hm Hwf Hl He. pose proof Hfr as (Hw1 & Hn1 & Hb1). pose proof (vo_inv _ _ _ _ _ _ Hv) as Hi.
  pose proof (vo_files _ _ _ _ _ _ Hv) as Hf. pose proof (fi_wf _ _ _ _ _ Hi) as Hdw. pose proof (vo_range _ _ _ _ _ _ Hv) as Hrange.
  pose proof (λ y, fo_used _ _ _ _ Hf k _ y Hk) as Hu.
  assert (Hkeep : ∀ y, 0 ≤ y < NUM_SECTORS → Bitmap.bit bm y = true → y ∉ footprint f.1 f.2 → Bitmap.bit bm1 y = true).
  { intros y Hr Hb Hy. by rewrite Hb1, Hb, bool_decide_false. }
  assert (Hsysk : ∀ y, y ∈ system s dh → Bitmap.bit bm1 y = true).
  { intros y Hy. destruct (system_in_use _ _ _ _ _ _ _ Hv Hy). apply Hkeep; [done..|]. intros [_ Hno]%Hu. apply Hno, elem_of_app. by left. }
  destruct (write_freeMap_ok s bm bm1 (fi_ok _ _ _ _ _ Hi) (fi_map _ _ _ _ _ Hi) Hw1 Hn1) as (x2 & E2 & Hx2 & Hm2 & Ho2).
  assert (Hdir2 : ∀ y, y ∈ dir_sector s :: sectors_of dh → rd (ss_sectors x2) y = rd (secs s) y).
  { intros y Hy. apply Ho2. intros Hy'. pose proof (fi_disj _ _ _ _ _ Hi) as Hnd. rewrite app_comm_cons in Hnd.
    apply NoDup_app in Hnd as (_ & Hnd & _). by apply (Hnd y). }
  assert (file_inv x2 (freeMapFile s) bm1 (dir_sector s) dh) as Hi2.
  { eapply file_inv_other; [exact Hi|done|done|exact Hdir2|]. intros y Hy _. by apply Hsysk. }
  assert (contents dh (ss_sectors x2) = table_bytes t) as HT2.
  { rewrite <-(vo_table _ _ _ _ _ _ Hv). unfold contents, raw_contents. rewrite (blocks_frame dh (secs s)); [done| |by apply sectors_nonneg].
    intros y Hy. apply Hdir2. by right. }
  pose proof (dir_WriteBack_ok (with_disk s x2) bm1 t t' dh Hi2 HT2 (vo_entries _ _ _ _ _ _ Hv) He (proj1 Hrange) ltac:(lia)
    (vo_open _ _ _ _ _ _ Hv) (vo_lock _ _ _ _ _ _ Hv)) as HD. rewrite Hl in HD.
  rewrite decide_True in HD by (rewrite (hw_count _ (fw_hdr _ Hdw)), (dir_bytes _ _ _ _ _ _ Hv); lia).
  destruct HD as (df & x3 & bm' & dh' & new & E3 & Edf & Hi3 & Hg & Hnb & HT3 & Ho3).
  assert (new = []) as ->.
  { eapply grown_same; [exact Hg|done|apply (fi_wf _ _ _ _ _ Hi3)|]. by rewrite Hnb, (dir_bytes _ _ _ _ _ _ Hv). }
  exists x2, x3, df, dh', bm'. split; [exact E2|]. split; [exact E3|]. clear E2 E3. intros s'.
  assert (Hbits : ∀ y, 0 ≤ y < NUM_SECTORS → Bitmap.bit bm' y = Bitmap.bit bm1 y).
  { intros y Hy. rewrite (gr_bits _ _ _ _ _ Hg) by done. apply orb_false_r. }
  assert (Hsys : system s' dh' = system s dh).
  { unfold system. change (dir_sector s') with (sector df). by rewrite Edf, (gr_sectors _ _ _ _ _ Hg), app_nil_r. }
  assert (Ho : ∀ y, 0 ≤ y < NUM_SECTORS → Bitmap.bit bm y = true → y ∉ footprint f.1 f.2 → y ∉ system s dh → rd (secs s') y = rd (secs s) y).
  { intros y Hr Hb Hy Hno. change (secs s') with (ss_sectors x3). rewrite Ho3; [|done|by apply Hkeep|done].
    apply Ho2. intros Hy'. apply Hno. right. apply elem_of_app. by right. }
  destruct (files_ok_frame (secs s) (secs s') bm bm' (system s dh ++ rest) (system s' dh' ++ rest) (delete k L))
    as [Hf' Hview]; [by apply files_ok_delete|..].
  { intros y Hr Hb Hno (k' & f' & [Hne Hk']%lookup_delete_Some & Hy). pose proof (not_in_system _ _ _ _ Hno) as (Hs1 & _ & _).
    assert (y ∉ footprint f.1 f.2) as Hy2 by (intros Hy'; apply Hne; by eapply (fo_disjoint _ _ _ _ Hf)).
    split; [by apply Ho|]. split; [rewrite Hbits by done; by apply Hkeep|]. by rewrite Hsys. }
  assert (Hrest : ∀ y, y ∈ rest → 0 ≤ y < NUM_SECTORS ∧ Bitmap.bit bm y = true ∧ (y ∉ footprint f.1 f.2) ∧ y ∉ system s dh).
  { intros y Hy. destruct (vo_rest _ _ _ _ _ _ Hv y Hy) as (Hr & Hb & Hno). split; [exact Hr|]. split; [exact Hb|]. split; [|exact Hno].
    intros [_ Hno']%Hu. apply Hno', elem_of_app. by right. }
  split; [exact Edf|split; [|split; [|split]]].
  - apply (volume_update s s' bm bm' t t' dh dh' L _ rest Hv); try done; try apply Hv.
    + change (dir_sector s') with (sector df). by rewrite Edf.
    + rewrite (gr_next _ _ _ _ _ Hg). apply (vo_next _ _ _ _ _ _ Hv).
    + change (directorySize s') with (directorySize s). by rewrite Hl, (vo_size _ _ _ _ _ _ Hv).
    + lia.
    + apply Hwf.
    + by rewrite Hm, fmap_delete, (vo_layout _ _ _ _ _ _ Hv).
    + intros e. change (dir_sector s') with (sector df). rewrite Edf. apply (vo_lock _ _ _ _ _ _ Hv).
    + intros y Hy. destruct (Hrest y Hy) as (Hr & Hb & Hy1 & Hy2). rewrite Hbits, Hsys by done. split; [by apply Hkeep|done].
    + intros y Hy. destruct (Hrest y Hy) as (Hr & Hb & Hy1 & Hy2). by apply Ho.
  - unfold view in *. rewrite Hview. unfold bytes_of. by rewrite fmap_delete.
  - split; [apply (fi_map _ _ _ _ _ Hi3)|]. split; [apply (fi_map _ _ _ _ _ Hi3)|]. intros y Hy. by rewrite Hbits, Hb1.
  - intros y Hy. destruct (Hrest y Hy) as (Hr & Hb & Hy1 & Hy2). by apply Ho.
Qed.

Lemma use_removeLock p : p ≠ LDeleted → (if decide (p = LNull) then Ok tt else use_lock p) = Ok tt.
Proof. destruct p; intros Hp; [by rewrite decide_True|by rewrite decide_False|done]. Qed.

Lemma set_entry_ok s sec e : 0 ≤ sec < Z.of_nat (length (openFilesTable s)) →
  set_entry sec e s = Ok (tt, with_table s (<[Z.to_nat sec := e]> (openFilesTable s))).
Proof. intros Hs. unfold set_entry. by rewrite bind_get, (bind_lift _ _ _ _ (wr_ok _ _ _ Hs)). Qed.

Definition entry_removed (e : OpenFileEntry) : OpenFileEntry :=
  mkEntry (count e) false true (writeLock e) (removeLock e) (closeLock e) (removerSpaceId e).

(** The removal itself, when nobody has the file open any more. *)
Lemma Remove_finish_ok s bm t dh L rest nm sec h hs e :
  volume s bm t dh L rest → c_string nm → L !! key nm = Some (sec, h :: hs) →
  rd (openFilesTable s) sec = Ok e → removeLock e ≠ LDeleted →
  ∃ s' bm' t' dh', Remove_finish uninit nm t sec h bm s = Ok (true, s') ∧
    volume s' bm' t' dh' (delete (key nm) L) rest ∧ view s' (delete (key nm) L) = delete (key nm) (view s L) ∧
    freed bm bm' (footprint sec (h :: hs)) ∧ (∀ y, y ∈ rest → rd (secs s') y = rd (secs s) y) ∧
    openFilesTable s' = <[Z.to_nat sec := entry_removed e]> (openFilesTable s) ∧ (plain t → plain t') ∧ length t' = length t.
Proof.
  intros Hv Hnm Hk He Hrl. pose proof (vo_inv _ _ _ _ _ _ Hv) as Hi. pose proof (fi_map _ _ _ _ _ Hi) as Hmap.
  destruct (layout_sector _ _ _ _ _ _ _ _ _ Hv Hk) as (Hs & Hne & Hc & Hn & bs & h0 & hs0 & [= <- <-] & Hbs & -> & Hwf & Hch).
  pose proof (λ y, fo_used _ _ _ _ (vo_files _ _ _ _ _ _ Hv) _ _ y Hk) as Hu. cbn [fst snd] in Hu.
  cbn [footprint] in Hn, Hu. rewrite app_comm_cons in Hn, Hu. pose proof Hn as (Hn1 & Hn2 & Hn3)%NoDup_app.
  destruct (free_header bm sec (header_of_bytes bs)) as (b1 & b2 & E1 & E2 & Hf);
    [apply Hmap|apply Hmap|done|lia|done| |].
  { intros y Hy. apply Hu, elem_of_app. left. by right. }
  unfold Remove_finish. rewrite (bind_lift _ _ _ _ E1), (bind_lift _ _ _ _ E2). clear E1 E2. pose proof Hf as (Hw2 & Hb2 & Hu2).
  destruct (Remove_chain_ok (secs s) hs (nextFileHeader (header_of_bytes bs)) FUEL b2 s Hch) as (bm1 & x1 & E & Hx1 & Hs1 & Hf1); try done.
  { apply chain_fuel in Hc; [cbn in Hc; lia|]. cbn [footprint]. by rewrite app_comm_cons. }
  { intros y Hy. rewrite Hu2.
    - destruct (Hu y) as [-> _]; [apply elem_of_app; by right|]. rewrite bool_decide_false; [done|]. intros Hy'. by apply (Hn2 y).
    - eapply Forall_forall in Hy; [|by eapply footprint_range]. done. }
  { apply Hi. }
  rewrite (bind_ok _ _ _ _ _ E). clear E. pose proof (freed_trans _ _ _ _ _ Hf Hf1) as Hfr.
  destruct (entries_Remove_ok t nm (vo_dir _ _ _ _ _ _ Hv) Hnm) as (t' & ER & Hm' & Hwf' & Hl').
  pose proof (Remove_entries _ _ _ _ (vo_entries _ _ _ _ _ _ Hv) ER) as He'.
  assert (plain t → plain t') as Hp' by (intros Hp; by eapply Remove_plain).
  rewrite (bind_lift _ _ _ _ ER). clear ER. set (s1 := with_disk s x1).
  destruct (volume_same s s1 bm t dh L rest Hv) as [Hv1 Hview1]; [by split|].
  destruct (write_without s1 bm bm1 t t' dh L rest (key nm) _ Hv1 Hk) as (x2 & x3 & df & dh' & bm' & E2 & E3 & Edf & Hv' & Hview' & Hfr' & Hrd);
    [cbn [fst snd footprint]; by rewrite app_comm_cons|done..|].
  rewrite (bind_ok _ _ _ _ _ E2), bind_get, (bind_ok _ _ _ _ _ E3), bind_set_dir. clear E2 E3.
  set (s3 := with_dir (with_disk s1 x3) df) in *.
  assert (rd (openFilesTable s3) sec = Ok e) as He3 by exact He.
  rewrite (bind_ok _ _ s3 e s3) by (unfold entry; rewrite bind_get; unfold lift; by rewrite He3).
  rewrite (bind_lift _ _ _ tt) by (by apply use_removeLock).
  assert (sec ≠ dir_sector s3) as Hne3 by (change (dir_sector s3) with (sector df); by rewrite Edf).
  destruct (volume_entry s3 bm' t' dh' _ rest sec (entry_removed e) Hv' ltac:(lia) Hne3) as [Hv4 Hview4].
  rewrite (bind_ok _ _ _ _ _ (set_entry_ok s3 sec _ ltac:(rewrite (vo_open _ _ _ _ _ _ Hv'); lia))).
  set (s4 := with_table s3 _) in *.
  exists s4, bm', t', dh'. split; [done|]. split; [exact Hv4|]. split; [by rewrite Hview4, Hview', Hview1|]. split; [exact Hfr'|].
  split; [|split; [reflexivity|split; [exact Hp'|exact Hl']]]. intros y Hy. rewrite <-Hs1. by apply Hrd.
Qed.

Lemma Remove_file_ok me s bm t dh L rest nm (Hv : volume s bm t dh L rest) (Hnm : c_string nm) :
  match L !! key nm with
  | None => ∃ s', FileSystem.Remove uninit me nm false s = Ok (Returned false, s') ∧ volume s' bm t dh L rest ∧ view s' L = view s L ∧
      openFilesTable s' = openFilesTable s
  | Some (sec, hs) =>
      if FindDir t nm then
        ∃ s', FileSystem.Remove uninit me nm false s = Ok (Returned false, s') ∧ volume s' bm t dh L rest ∧ view s' L = view s L ∧
          openFilesTable s' = openFilesTable s
      else ∀ e, rd (openFilesTable s) sec = Ok e → removeLock e ≠ LDeleted →
      if removed e then
        removeLock e = LLive →
        ∃ s', FileSystem.Remove uninit me nm false s = Ok (Returned false, s') ∧ volume s' bm t dh L rest ∧ view s' L = view s L ∧
          openFilesTable s' = openFilesTable s
      else
      if bool_decide (count e > 0) then
        ∃ s' h, FileSystem.Remove uninit me nm false s = Ok (Waiting t sec h bm, s') ∧ head hs = Some h ∧
          volume s' bm t dh L rest ∧ view s' L = view s L ∧
          rd (openFilesTable s') sec = Ok (mkEntry (count e) true false (writeLock e) (removeLock e) (closeLock e) me)
      else ∃ s' bm' t' dh', FileSystem.Remove uninit me nm false s = Ok (Returned true, s') ∧
        volume s' bm' t' dh' (delete (key nm) L) rest ∧ view s' (delete (key nm) L) = delete (key nm) (view s L) ∧
        freed bm bm' (footprint sec hs) ∧ (∀ y, y ∈ rest → rd (secs s') y = rd (secs s) y) ∧ (plain t → plain t') ∧ length t' = length t ∧
        ∃ e', openFilesTable s' = <[Z.to_nat sec := e']> (openFilesTable s)
  end.
Proof.
  destruct (current_dir_ok s bm t dh L rest Hv) as (s1 & E & Hs1). destruct (layout_find s bm t dh L rest nm Hv Hnm) as [Ef Hr].
  destruct (volume_same _ _ _ _ _ _ _ Hv Hs1) as [Hv1 Hview].
  unfold FileSystem.Remove. rewrite (bind_ok _ _ _ _ _ E), (bind_lift _ _ _ _ Ef). clear E Ef.
  destruct (L !! key nm) as [[sec hs]|] eqn:EL; [|rewrite bool_decide_true by done; exists s1; split_and!; [done..|apply (sf_table _ _ Hs1)]].
  specialize (Hr _ eq_refl). cbn [fst] in Hr |- *. rewrite (bool_decide_false (sec = -1)) by lia.
  destruct (FindDir t nm) eqn:Hd; cbn [andb negb]; [exists s1; split_and!; [done..|apply (sf_table _ _ Hs1)]|].
  intros e He Hrl. destruct (removed e) eqn:Hrem.
  { intros Hll. exists s1. rewrite <-(sf_table _ _ Hs1) in He.
    rewrite (bind_ok _ _ s1 e s1) by (unfold entry; rewrite bind_get; unfold lift; by rewrite He).
    rewrite (bind_lift _ _ _ tt) by (by apply use_removeLock). rewrite Hrem, (bind_lift _ _ _ tt) by (by rewrite Hll).
    split_and!; [done..|apply (sf_table _ _ Hs1)]. }
  rewrite <-(sf_table _ _ Hs1) in He. rewrite <-Hview, <-(sf_secs _ _ Hs1).
  destruct (layout_sector _ _ _ _ _ _ _ _ _ Hv1 EL) as (_ & Hne & Hc & Hn & bs & h & hs' & -> & Hbs & -> & Hwf & Hch).
  rewrite (bind_ok _ _ s1 e s1) by (unfold entry; rewrite bind_get; unfold lift; by rewrite He).
  rewrite (bind_lift _ _ _ tt), Hrem by (by apply use_removeLock).
  pose proof (vo_inv _ _ _ _ _ _ Hv1) as Hi.
  destruct (FetchFrom_ok (fs_disk s1) sec (fi_ok _ _ _ _ _ Hi)) as (v & x1 & EF & Hvb & Hx1 & Hsx); [lia|].
  unfold secs in Hbs. rewrite Hbs in Hvb. injection Hvb as <-. rewrite (bind_disk _ _ _ _ _ EF). clear EF.
  destruct (volume_same s1 (with_disk s1 x1) bm t dh L rest Hv1) as [Hv2 Hview2]; [by split|].
  pose proof (vo_inv _ _ _ _ _ _ Hv2) as Hi2.
  destruct (fetch_freeMap_ok (with_disk s1 x1) bm (fi_ok _ _ _ _ _ Hi2) (fi_map _ _ _ _ _ Hi2)) as (s3 & E3 & Hs3).
  rewrite (bind_ok _ _ _ _ _ E3). clear E3. destruct (volume_same _ _ _ _ _ _ _ Hv2 Hs3) as [Hv3 Hview3].
  assert (Hdir : dir_sector s3 = dir_sector s1) by exact (sf_dir _ _ Hs3).
  assert (Htbl : openFilesTable s3 = openFilesTable s1) by exact (sf_table _ _ Hs3).
  rewrite (bind_ok _ _ _ _ _ (set_entry_ok s3 sec _ ltac:(rewrite (vo_open _ _ _ _ _ _ Hv3); lia))).
  set (e2 := mkEntry (count e) true false (writeLock e) (removeLock e) (closeLock e) me). set (s4 := with_table s3 _).
  destruct (volume_entry s3 bm t dh L rest sec e2 Hv3) as [Hv4 Hview4]; [lia|congruence|].
  assert (He4 : rd (openFilesTable s4) sec = Ok e2).
  { change (openFilesTable s4) with (<[Z.to_nat sec := e2]> (openFilesTable s3)). eapply rd_wr_eq, wr_ok.
    rewrite (vo_open _ _ _ _ _ _ Hv3). lia. }
  assert (Hv14 : view s4 L = view s1 L) by exact (eq_trans Hview4 (eq_trans Hview3 Hview2)).
  change (count e2) with (count e). case_bool_decide.
  - exists s4, (header_of_bytes bs). do 4 (split; [done|]). exact He4.
  - destruct (Remove_finish_ok s4 bm t dh L rest nm sec _ hs' e2 Hv4 Hnm EL He4 Hrl) as (s' & bm' & t' & dh' & EE & Hv' & Hview' & Hf & Hrd & Ht & Hp & Hlt).
    rewrite (bind_ok _ _ _ _ _ EE). clear EE. exists s', bm', t', dh'. split; [done|]. split; [exact Hv'|].
    split; [by rewrite Hview', Hv14|]. split; [exact Hf|]. split; [|split; [exact Hp|split; [exact Hlt|]]].
    + intros y Hy. rewrite Hrd by done. change (secs s4) with (secs s3). rewrite (sf_secs _ _ Hs3). exact (f_equal (λ l, rd l y) Hsx).
    + exists (entry_removed e2). rewrite Ht, <-(sf_table _ _ Hs1), <-Htbl. apply list_insert_insert_eq.
Qed.

(** C12: [Remove] of a name of the current directory.  An unknown name, the name
    of a directory, and a file that is already removed are refused (the
    result is false), and nothing changes.  If nobody has the file open, exactly
    its name disappears, exactly its sectors (the headers of its chain and their
    data) become free, and no other file and no sector of other directories
    changes.  If the file is open, it is only marked as being removed, by this
    thread, and [Remove] waits; the removal then has the same effect on the
    volume ([Remove_finish]).  The lock of the file's entry must not have been
    deleted. *)
Theorem Remove_correct me s bm t dh L rest nm (Hv : volume s bm t dh L rest) (Hnm : c_string nm) :
  match L !! key nm with
  | None => ∃ s', FileSystem.Remove uninit me nm false s = Ok (Returned false, s') ∧ volume s' bm t dh L rest ∧ view s' L = view s L ∧
      openFilesTable s' = openFilesTable s
  | Some (sec, hs) =>
      if FindDir t nm then
        ∃ s', FileSystem.Remove uninit me nm false s = Ok (Returned false, s') ∧ volume s' bm t dh L rest ∧ view s' L = view s L ∧
          openFilesTable s' = openFilesTable s
      else ∀ e, rd (openFilesTable s) sec = Ok e → removeLock e ≠ LDeleted →
      if removed e then
        removeLock e = LLive →
        ∃ s', FileSystem.Remove uninit me nm false s = Ok (Returned false, s') ∧ volume s' bm t dh L rest ∧ view s' L = view s L ∧
          openFilesTable s' = openFilesTable s
      else
      if bool_decide (count e > 0) then
        ∃ s' h, FileSystem.Remove uninit me nm false s = Ok (Waiting t sec h bm, s') ∧ head hs = Some h ∧
          volume s' bm t dh L rest ∧ view s' L = view s L ∧
          rd (openFilesTable s') sec = Ok (mkEntry (count e) true false (writeLock e) (removeLock e) (closeLock e) me)
      else ∃ s' bm' t' dh', FileSystem.Remove uninit me nm false s = Ok (Returned true, s') ∧
        volume s' bm' t' dh' (delete (key nm) L) rest ∧ view s' (delete (key nm) L) = delete (key nm) (view s L) ∧
        freed bm bm' (footprint sec hs) ∧ (∀ y, y ∈ rest → rd (secs s') y = rd (secs s) y) ∧ (plain t → plain t') ∧ length t' = length t ∧
        ∃ e', openFilesTable s' = <[Z.to_nat sec := e']> (openFilesTable s)
  end.
Proof. by apply Remove_file_ok. Qed.
End Volume.

(** ** A concrete volume

    Sector 0 holds the header of the bitmap (data in sector 2), sector 1 that of
    the directory (data in 3, 4 and 5), which has one file, "ab", with its
    header in sector 6 and its three bytes in sector 7. *)
Definition demo_free_entry : DirectoryEntry := mkDirEntry false 0 (replicate 21 0) false.
Definition demo_dir : list DirectoryEntry :=
  mkDirEntry true 6 (97 :: 98 :: replicate 19 0) false :: replicate 9 demo_free_entry.
Definition demo_map_hdr : RawFileHeader := mkHeader 128 1 (2 :: replicate 28 0) 0.
Definition demo_dir_hdr : RawFileHeader := mkHeader 320 3 (3 :: 4 :: 5 :: replicate 26 0) 0.
Definition demo_file_hdr : RawFileHeader := mkHeader 3 1 (7 :: replicate 28 0) 0.
Definition demo_bits : Bitmap := mkBitmap NUM_SECTORS (255 :: replicate 31 0).
Definition demo_bytes : list Z := table_bytes demo_dir ++ replicate 64 0.
Definition demo_sectors : list (list Z) :=
  [header_bytes demo_map_hdr; header_bytes demo_dir_hdr; words_bytes (Bitmap.map demo_bits);
   take 128 demo_bytes; take 128 (drop 128 demo_bytes); take 128 (drop 256 demo_bytes);
   header_bytes demo_file_hdr; 120 :: 121 :: 122 :: replicate 125 0] ++ replicate 1016 (replicate 128 0).
Definition demo_open : OpenFileEntry := mkEntry 1 false false LLive LLive LLive 0.
Definition demo_closed : OpenFileEntry := mkEntry 0 false false LNull LLive LNull 0.
Definition demo_fs : @FileSystem (list (list Z)) :=
  mkFS demo_sectors (replicate 2 demo_open ++ replicate 1022 demo_closed) (mkOpenFile demo_map_hdr 0 0 0)
    (mkOpenFile demo_dir_hdr 1 320 1) 10 [].
Definition demo_layout : layout := {[ [97; 98] := (6, [demo_file_hdr]) ]}.

Lemma demo_hdr_file_wf h n : h = mkHeader (numBytes h) (numSectors h) (dataSectors h) 0 → length (dataSectors h) = 29%nat →
  0 ≤ numBytes h ≤ 3712 → numSectors h = DivRoundUp (numBytes h) SECTOR_SIZE → Forall (λ s, 0 ≤ s < NUM_SECTORS) (dataSectors h) →
  sectors_of h = n → NoDup n → file_wf h.
Proof.
  intros E Hl Hb Hn Hd Hs Hnd. split; [split| |by rewrite Hs].
  - done.
  - done.
  - done.
  - eapply Forall_impl; [exact Hd|]. intros x Hx. cbn beta in Hx. change NUM_SECTORS with 1024 in Hx. unfold is_u32. lia.
  - rewrite E. cbn. unfold is_u32. lia.
  - by apply Forall_take.
Qed.

Ltac demo_header := eapply demo_hdr_file_wf; [reflexivity|reflexivity|cbn; lia|reflexivity| |reflexivity|];
  [repeat constructor; vm_compute; congruence|apply (bool_decide_unpack _); vm_compute; exact I].

Lemma demo_volume : volume demo_fs demo_bits demo_dir demo_dir_hdr demo_layout [0].
Proof.
  assert (file_wf demo_map_hdr) as Hm by demo_header. assert (file_wf demo_dir_hdr) as Hd by demo_header.
  assert (file_wf demo_file_hdr) as Hf by demo_header.
  assert (chain demo_sectors 6 [demo_file_hdr]) as Hc.
  { eapply chain_cons; [done|reflexivity|vm_compute; reflexivity|exact Hf|constructor]. }
  assert (∀ y, 0 ≤ y < 8 → Bitmap.bit demo_bits y = true) as Hb.
  { intros y Hy. assert (y = 0 ∨ y = 1 ∨ y = 2 ∨ y = 3 ∨ y = 4 ∨ y = 5 ∨ y = 6 ∨ y = 7) as Hc' by lia.
    destruct_or! Hc'; subst; reflexivity. }
  split.
  - split; [|split; [done|reflexivity| |reflexivity|vm_compute; reflexivity]|eexists; split; [reflexivity|vm_compute; reflexivity]
           |done|vm_compute; split; congruence| |].
    + split; [reflexivity|]. unfold demo_sectors. apply Forall_app_2; [repeat constructor|apply Forall_replicate; reflexivity].
    + split; [vm_compute; split; congruence|reflexivity|repeat constructor; vm_compute; congruence].
    + intros y Hy. change (y ∈ [1; 3; 4; 5; 2]) in Hy. apply Hb. rewrite !elem_of_cons, elem_of_nil in Hy. lia.
    + change (NoDup [1; 3; 4; 5; 2]). apply (bool_decide_unpack _). vm_compute. exact I.
  - reflexivity.
  - vm_compute. reflexivity.
  - reflexivity.
  - cbn. lia.
  - split; [cbn; lia|]. apply (bool_decide_unpack _). vm_compute. exact I.
  - repeat constructor; vm_compute; congruence.
  - vm_compute. reflexivity.
  - assert (∀ k f, demo_layout !! k = Some f → k = [97; 98] ∧ f = (6, [demo_file_hdr])) as HL.
    { intros k f Hk. unfold demo_layout in Hk. apply lookup_singleton_Some in Hk as [<- <-]. done. }
    split.
    + intros k f [-> ->]%HL. split_and!; [done|exact Hc|]. apply (bool_decide_unpack _). vm_compute. exact I.
    + intros k f x [-> ->]%HL Hx. change (x ∈ [6; 7]) in Hx. change (Bitmap.bit demo_bits x = true ∧ x ∉ [1; 3; 4; 5; 2; 0]).
      assert (x = 6 ∨ x = 7) as Hx' by (rewrite !elem_of_cons, elem_of_nil in Hx; tauto).
      split; [apply Hb; lia|]. rewrite !elem_of_cons, elem_of_nil. lia.
    + intros k1 k2 f1 f2 x [-> _]%HL [-> _]%HL. done.
  - intros x ->%list_elem_of_singleton. split; [done|]. split; [apply Hb; lia|]. change (0 ∉ [1; 3; 4; 5; 2]).
    rewrite !elem_of_cons, elem_of_nil. lia.
  - by left.
  - split; [reflexivity|]. eexists. split; [reflexivity|]. vm_compute. reflexivity.
  - by left.
  - reflexivity.
  - intros e [= <-]. reflexivity.
Qed.

Lemma demo_uninit_length n : 0 ≤ n → length (demo_uninit n) = Z.to_nat n.
Proof. intros _. apply length_replicate. Qed.
Lemma demo_uninit_bytes n : Forall is_byte (demo_uninit n).
Proof. apply Forall_replicate. unfold is_byte. lia. Qed.

Lemma demo_clear : fm_clear demo_bits = 1016%nat.
Proof. vm_compute. reflexivity. Qed.

(** A new file "c". *)
Lemma Create_correct_witness : ∃ s' bm' t' dh' sec h,
  Create demo_uninit (λ _, false) [99] demo_fs = Ok (true, s') ∧
  volume s' bm' t' dh' (<[[99] := (sec, [h])]> demo_layout) [0].
Proof.
  pose proof (Create_correct demo_uninit demo_uninit_length demo_uninit_bytes (λ _, false) demo_fs demo_bits demo_dir demo_dir_hdr
    demo_layout [0] [99] demo_volume) as H.
  assert (c_string [99]) as H1 by repeat constructor. assert (head [99] ≠ Some SLASH) as H2 by discriminate.
  assert (demo_layout !! key [99] = None → (length demo_dir < 116)%nat ∨ forallb inUse demo_dir = false) as H3 by (left; cbn; lia). specialize (H H1 H2 H3).
  assert (demo_layout !! key [99] = None) as E by (vm_compute; reflexivity). rewrite E, demo_clear in H.
  rewrite (decide_False (P:=1016%nat = 0%nat)) in H by discriminate.
  assert (dir_need demo_dir demo_dir_hdr = 0) as E2 by (vm_compute; reflexivity). rewrite E2 in H.
  rewrite decide_True in H by lia. destruct H as (s' & bm' & t' & dh' & sec & h & EC & Hv & _).
  exists s', bm', t', dh', sec, h. split; [exact EC|exact Hv].
Defined.

Lemma demo_lookup : demo_layout !! key [97; 98] = Some (6, [demo_file_hdr]).
Proof. vm_compute. reflexivity. Qed.

(** "ab" is opened, and reading gives its bytes. *)
Lemma Open_correct_witness : ∃ f s', FileSystem.Open demo_uninit [97; 98] demo_fs = Ok (Some f, s') ∧
  volume s' demo_bits demo_dir demo_dir_hdr demo_layout [0] ∧
  ∃ f' x', Read FUEL f (fs_disk s') 100 false = Ok ([120; 121; 122], f', x').
Proof.
  pose proof (Open_correct demo_uninit demo_uninit_length demo_uninit_bytes demo_fs demo_bits demo_dir demo_dir_hdr
    demo_layout [0] [97; 98] demo_volume) as H.
  assert (c_string [97; 98]) as H1 by repeat constructor. specialize (H H1). rewrite demo_lookup in H.
  destruct H as (e & s' & He & Hv & _ & H). assert (e = demo_closed) as -> by (injection He as <-; reflexivity).
  cbn [removing demo_closed] in H. destruct H as (h & _ & EO & _ & _ & H). exists (mkOpenFile h 6 0 6), s'. split; [exact EO|]. split; [exact Hv|].
  destruct (H 100) as (f' & x' & ER & _); [lia|]. exists f', x'. exact ER.
Defined.

(** The same volume with "ab" open. *)
Definition demo_fs_open : @FileSystem (list (list Z)) :=
  with_table demo_fs (<[6%nat := demo_open]> (openFilesTable demo_fs)).

Lemma Write_correct_witness : ∃ x' h',
  Write demo_uninit FUEL (openFilesTable demo_fs_open) (freeMapFile demo_fs_open) (mkOpenFile demo_file_hdr 6 2 6)
    (fs_disk demo_fs_open) [65; 66] 2 false = Ok (2, mkOpenFile h' 6 4 6, x') ∧
  view (with_disk demo_fs_open x') (<[[97; 98] := (6, [h'])]> demo_layout) !! [97; 98] = Some [120; 121; 65; 66].
Proof.
  destruct (volume_entry demo_fs demo_bits demo_dir demo_dir_hdr demo_layout [0] 6 demo_open demo_volume) as [Hv _]; [done|discriminate|].
  destruct (Write_correct demo_uninit demo_uninit_length demo_uninit_bytes demo_fs_open demo_bits demo_dir demo_dir_hdr demo_layout [0]
    [97; 98] (mkOpenFile demo_file_hdr 6 2 6) demo_file_hdr demo_open [65; 66] 2 Hv) as [_ H].
  - vm_compute. reflexivity.
  - reflexivity.
  - reflexivity.
  - reflexivity.
  - cbn. lia.
  - lia.
  - vm_compute. congruence.
  - cbn. lia.
  - rewrite demo_clear, decide_True in H by (vm_compute; congruence). destruct H as (x' & bm' & h' & E & _ & EV & _).
    exists x', h'. split; [exact E|]. change (sector (mkOpenFile demo_file_hdr 6 2 6)) with 6 in EV.
    rewrite EV, lookup_insert_eq. reflexivity.
Defined.

(** "ab" is removed. *)
Lemma Remove_correct_witness : ∃ s' bm' t' dh', FileSystem.Remove demo_uninit 0 [97; 98] false demo_fs = Ok (Returned true, s') ∧
  volume s' bm' t' dh' (delete [97; 98] demo_layout) [0] ∧ freed demo_bits bm' [6; 7].
Proof.
  pose proof (Remove_correct demo_uninit demo_uninit_length demo_uninit_bytes (λ _, false) 0 demo_fs demo_bits demo_dir demo_dir_hdr
    demo_layout [0] [97; 98] demo_volume) as H.
  assert (c_string [97; 98]) as H1 by repeat constructor. specialize (H H1). rewrite demo_lookup in H.
  assert (FindDir demo_dir [97; 98] = false) as H2 by (vm_compute; reflexivity). rewrite H2 in H.
  assert (rd (openFilesTable demo_fs) 6 = Ok demo_closed) as H3 by reflexivity.
  specialize (H demo_closed H3). assert (removeLock demo_closed ≠ LDeleted) as H4 by discriminate. specialize (H H4). change (removed demo_closed) with false in H. cbn iota in H.
  rewrite bool_decide_false in H by (cbn; lia). destruct H as (s' & bm' & t' & dh' & E & Hv & _ & Hf & _).
  exists s', bm', t', dh'. split; [exact E|]. split; [exact Hv|exact Hf].
Defined.
