(* ===== verification/Boot.v ===== *)
(** * Formatting a disk, and starting from one

    The constructor of [FileSystem]: on a formatted disk it finds the volume that
    was there when the machine stopped; on a disk to format it leaves an empty
    volume.  Together with [Volume]: files survive the end of the machine. *)

From S2P Require Import Prelude Bitmap Disk FileHeader OpenFile ReadWrite Directory FileSystem Volume.
From stdpp Require Import base option list gmap numbers tactics.
From stdpp Require Import list.
Open Scope Z_scope.

Section Boot.
Context {S : Type} `{SectorStoreSpec S}.
Context (uninit : Z → list Z).
Hypothesis uninit_length : ∀ n, 0 ≤ n → length (uninit n) = Z.to_nat n.
Hypothesis uninit_bytes : ∀ n, Forall is_byte (uninit n).
Abbreviation FileSystem := (@FileSystem S).
#[local] Existing Instances M_ret M_bind.

(** ** Starting *)

(** No file was opened yet. *)
Definition closed (e : OpenFileEntry) : Prop := ∃ g, e = initial_entry g.
Record all_closed (t : list OpenFileEntry) : Prop := {
  ac_length : length t = Z.to_nat NUM_SECTORS;
  ac_closed : Forall closed t
}.

Lemma all_closed_entry t i e : all_closed t → rd t i = Ok e → closed e.
Proof. intros [_ Ht] [_ He]%rd_inv. by apply (Forall_lookup_1 _ _ _ _ Ht) in He. Qed.

(** Opening a file uses only its own entry. *)
Lemma opened_entry t i j e e' : all_closed t → 0 ≤ i < NUM_SECTORS → i ≠ j →
  rd (<[Z.to_nat i := e]> t) j = Ok e' → closed e'.
Proof.
  intros Ht Hi Hij He. eapply all_closed_entry; [exact Ht|]. eapply other_entry; [|exact Hij|exact He].
  rewrite (ac_length _ Ht). lia.
Qed.

(** The machine [s0] starts with the disk of [s]: nothing is open. *)
Record starts_from (s s0 : FileSystem) : Prop := {
  st_ok : ss_ok (fs_disk s0);
  st_secs : secs s0 = secs s;
  st_closed : all_closed (openFilesTable s0)
}.

(** The two files that stay open. *)
Definition boot_open (t : list OpenFileEntry) : Prop :=
  ∀ sec e, sec ∈ [FREE_MAP_SECTOR; DIRECTORY_SECTOR] → rd t sec = Ok e → closeLock e = LLive.

Lemma boot_open_ok t e0 e1 : all_closed t → closed e0 → closed e1 →
  boot_open (<[Z.to_nat DIRECTORY_SECTOR := entry_open e1]> (<[Z.to_nat FREE_MAP_SECTOR := entry_open e0]> t)).
Proof.
  intros Ht [g0 ->] [g1 ->] sec e Hsec He. pose proof (ac_length _ Ht) as Hl.
  assert (1 < Z.of_nat (length t)) as Hl' by (rewrite Hl; by vm_compute).
  apply elem_of_cons in Hsec as [->|Hsec%list_elem_of_singleton].
  - apply other_entry in He; [|rewrite length_insert; unfold DIRECTORY_SECTOR; lia|done].
    rewrite (rd_wr_eq _ _ _ _ (wr_ok t FREE_MAP_SECTOR _ ltac:(unfold FREE_MAP_SECTOR; lia))) in He. by injection He as <-.
  - rewrite Hsec in He. set (t0 := <[Z.to_nat FREE_MAP_SECTOR := _]> t) in He.
    assert (0 ≤ DIRECTORY_SECTOR < Z.of_nat (length t0)) as Hr by (unfold t0; rewrite length_insert; unfold DIRECTORY_SECTOR; lia).
    rewrite (rd_wr_eq _ _ _ _ (wr_ok t0 DIRECTORY_SECTOR _ Hr)) in He. by injection He as <-.
Qed.

Lemma entry_open_lock e : count e = 0 → writeLock (entry_open e) = LLive.
Proof. intros E. unfold entry_open. by rewrite bool_decide_true by done. Qed.

Lemma bind_set_map {A} f (k : unit → M (S:=S) A) (s : FileSystem) :
  (set_freeMapFile f ≫= k) s
  = k tt (mkFS (fs_disk s) (openFilesTable s) f (directoryFile s) (directorySize s) (messages s)).
Proof. done. Qed.

(** [directorySize] is found by reading a directory of the greatest size. *)
Lemma refresh_ok s bm t dh L rest :
  volume (with_size s (Z.of_nat (length t))) bm t dh L rest →
  ∃ s', refresh_directorySize uninit s = Ok (tt, s') ∧ same_fs (with_size s (Z.of_nat (length t))) s'.
Proof.
  intros Hv. pose proof (vo_inv _ _ _ _ _ _ Hv) as [Hx _ (bs & Hbs & Hh) Hwf Hcs _ _]. pose proof (vo_range _ _ _ _ _ _ Hv).
  unfold refresh_directorySize, table_size. rewrite bind_get.
  destruct (new_dir_ok uninit uninit_length uninit_bytes (Z.to_nat MAX_DIR_ENTRIES) s) as (t0 & E0 & Hl0 & Ht0 & _);
    [vm_compute; lia|]. change (Z.of_nat (Z.to_nat MAX_DIR_ENTRIES)) with MAX_DIR_ENTRIES in E0.
  assert (length t0 = 3960%nat) as Hl by (rewrite Hl0; vm_compute; reflexivity). clear Hl0.
  destruct (dir_FetchFrom_ok s t0 true (directoryFile s) bs dh t Hx Hcs Hbs Hh Hwf (vo_next _ _ _ _ _ _ Hv)
    (vo_table _ _ _ _ _ _ Hv) (vo_entries _ _ _ _ _ _ Hv)) as (f' & x' & n & EF & Hx' & Hs' & Hsec & Hn).
  - lia.
  - unfold ENTRY_SIZE. lia.
  - exact Ht0.
  - lia.
  - rewrite (Hn eq_refl) in EF. clear Hn. erewrite bind_ok.
    2: { etrans; [exact (bind_ok _ _ _ _ _ E0)|]. etrans; [exact (bind_ok _ _ _ _ _ EF)|]. reflexivity. }
    cbn beta iota. rewrite bind_set_dir. eexists. split; [done|]. by split.
Qed.

Lemma FileSystem_boot_ok s s0 bm t dh L rest :
  volume s bm t dh L rest → DIRECTORY_SECTOR ∉ rest → starts_from s s0 →
  ∃ s', FileSystem_boot uninit s0 = Ok (tt, s') ∧ volume s' bm t dh L rest ∧ view s' L = view s L ∧
    (∀ sec e, 1 < sec → rd (openFilesTable s') sec = Ok e → closed e) ∧ boot_open (openFilesTable s').
Proof.
  intros Hv Hroot [Hx0 Hs0 Hc0]. pose proof (ac_length _ Hc0) as Hl0. destruct (vo_header _ _ _ _ _ _ Hv) as (Hms & b0 & Hb0 & Hh0).
  pose proof (vo_inv _ _ _ _ _ _ Hv) as [_ _ (b1 & Hb1 & Hh1) _ _ _ _].
  destruct (vo_root _ _ _ _ _ _ Hv) as [Ed|?]; [|done]. rewrite Ed in Hb1. unfold FileSystem_boot.
  destruct (open_file_ok s0 FREE_MAP_SECTOR b0 Hx0) as (x1 & e0 & He0 & E & Hx1 & Hs1); [done|by rewrite Hs0|done|].
  rewrite (bind_ok _ _ _ _ _ E), bind_set_map. clear E. set (s1 := mkFS _ _ _ _ _ _).
  assert (length (openFilesTable s1) = Z.to_nat NUM_SECTORS) as Hl1 by (cbn; by rewrite length_insert).
  destruct (open_file_ok s1 DIRECTORY_SECTOR b1 Hx1) as (x2 & e1 & He1 & E & Hx2 & Hs2);
    [done|by unfold secs; cbn; rewrite Hs1, Hs0|done|].
  rewrite (bind_ok _ _ _ _ _ E), bind_set_dir. clear E. set (s2 := with_dir _ _).
  assert (secs s2 = secs s) as Hsecs by (unfold secs; cbn; rewrite Hs2; exact (eq_trans Hs1 Hs0)).
  assert (count e1 = 0) as Hc1.
  { apply opened_entry in He1 as [g ->]; [done|exact Hc0|by split|done]. }
  destruct (volume_reopened s (with_size s2 (Z.of_nat (length t))) bm t dh L rest Hv) as [Hv2 Hview2];
    [exact Hx2|exact Hsecs|exact Hh0|exact (eq_sym Hms)|exact (eq_sym Ed)|exact (eq_sym (vo_size _ _ _ _ _ _ Hv))|..].
  - change (length (<[Z.to_nat DIRECTORY_SECTOR := entry_open e1]> (openFilesTable s1)) = Z.to_nat NUM_SECTORS).
    by rewrite length_insert.
  - intros e He. rewrite Ed in He.
    change (rd (<[Z.to_nat DIRECTORY_SECTOR := entry_open e1]> (openFilesTable s1)) DIRECTORY_SECTOR = Ok e) in He.
    assert (0 ≤ DIRECTORY_SECTOR < Z.of_nat (length (openFilesTable s1))) as Hr by (rewrite Hl1; by split).
    rewrite (rd_wr_eq _ _ _ _ (wr_ok (openFilesTable s1) DIRECTORY_SECTOR (entry_open e1) Hr)) in He.
    injection He as <-. by apply entry_open_lock.
  - destruct (refresh_ok _ _ _ _ _ _ Hv2) as (s' & E & Hsame). exists s'. split; [exact E|].
    destruct (volume_same _ _ _ _ _ _ _ Hv2 Hsame) as [Hv' Hview'].
    split; [exact Hv'|split; [exact (eq_trans Hview' Hview2)|]].
    split; [|rewrite (sf_table _ _ Hsame); apply boot_open_ok; [exact Hc0|by eapply all_closed_entry|]].
    2: { refine (opened_entry _ FREE_MAP_SECTOR DIRECTORY_SECTOR _ e1 Hc0 _ _ He1); [by split|discriminate]. }
    intros sec e Hsec He. rewrite (sf_table _ _ Hsame) in He.
    change (rd (<[Z.to_nat DIRECTORY_SECTOR := entry_open e1]> (openFilesTable s1)) sec = Ok e) in He.
    apply other_entry in He; [|rewrite Hl1; by split|unfold DIRECTORY_SECTOR; lia].
    eapply opened_entry; [exact Hc0| | |exact He]; [by split|unfold FREE_MAP_SECTOR; lia].
Qed.

(** C8: starting from a disk: the constructor of [FileSystem] on a formatted disk
    opens its two files and finds the volume that was there when the machine
    stopped, with the same files and the same bytes; every other file is closed. *)
Theorem FileSystem_boot_correct s s0 bm t dh L rest
  (Hv : volume s bm t dh L rest) (Hroot : DIRECTORY_SECTOR ∉ rest) (Hs : starts_from s s0) :
  ∃ s', FileSystem_boot uninit s0 = Ok (tt, s') ∧ volume s' bm t dh L rest ∧ view s' L = view s L ∧
    (∀ sec e, 1 < sec → rd (openFilesTable s') sec = Ok e → closed e) ∧ boot_open (openFilesTable s').
Proof. by apply FileSystem_boot_ok. Qed.

(** ** Formatting *)

(** The memory of a new header; the code relies on its two counts being zero. *)
Definition raw_header : RawFileHeader := header_of_bytes (uninit 128).

(** With a count of bytes near the capacity, the constructor stops at the
    assertion of [Allocate]. *)
Lemma format_stops s : NUM_DIRECT * SECTOR_SIZE - FREE_MAP_FILE_SIZE < numBytes raw_header ≤ NUM_DIRECT * SECTOR_SIZE →
  FileSystem_format uninit s = Err AssertFail.
Proof.
  intros Hb. unfold FileSystem_format. fold raw_header. cbn zeta.
  destruct (new_Bitmap_ok NUM_SECTORS (bytes_words 32 (uninit 128))) as (b0 & E0 & Hw0 & Hn0 & _).
  { vm_compute. by split. }
  { by apply bytes_words_u32. }
  { clear. generalize (uninit 128). intros. reflexivity. }
  destruct (Mark_ok b0 FREE_MAP_SECTOR Hw0) as (b1 & E1 & Hw1 & Hn1 & _); [rewrite Hn0; by split|].
  destruct (Mark_ok b1 DIRECTORY_SECTOR Hw1) as (b2 & E2 & _); [rewrite Hn1, Hn0; by split|].
  destruct (new_dir_ok uninit uninit_length uninit_bytes (Z.to_nat NUM_DIR_ENTRIES) s) as (t & Et & _); [vm_compute; lia|].
  change (Z.of_nat (Z.to_nat NUM_DIR_ENTRIES)) with NUM_DIR_ENTRIES in Et.
  rewrite (bind_lift _ _ _ _ E0), (bind_ok _ _ _ _ _ Et), (bind_lift _ _ _ _ E1), (bind_lift _ _ _ _ E2).
  assert (Allocate raw_header b2 FREE_MAP_FILE_SIZE = Err AssertFail) as ->; [|done].
  unfold Allocate. change (NUM_DIRECT * SECTOR_SIZE) with 3712 in *. change FREE_MAP_FILE_SIZE with 128 in *.
  rewrite (u32_id (3712 - numBytes raw_header)) by width_lia. rewrite (bool_decide_false (128 <= 3712 - numBytes raw_header)) by lia. reflexivity.
Qed.

Section Format.
Hypothesis uninit_counts : numBytes raw_header = 0 ∧ numSectors raw_header = 0.

Lemma raw_header_wf : hdr_wf raw_header.
Proof.
  destruct uninit_counts as [Hb Hs].
  assert (Forall is_u32 (bytes_words 32 (uninit 128))) as Hu by (by apply bytes_words_u32).
  assert (length (bytes_words 32 (uninit 128)) = 32%nat) as Hl
    by (clear; generalize (uninit 128); intros; reflexivity).
  split; rewrite ?Hb, ?Hs; unfold raw_header, header_of_bytes; cbn zeta; cbn [dataSectors nextFileHeader].
  - rewrite length_take, length_drop, Hl. reflexivity.
  - vm_compute. by split.
  - reflexivity.
  - by apply Forall_take, Forall_drop.
  - destruct (nth_in_or_default 31 (bytes_words 32 (uninit 128)) 0) as [Hin| ->]; [|unfold is_u32; lia].
    rewrite Forall_forall in Hu. apply Hu. by apply list_elem_of_In.
Qed.

Definition end_chain (h : RawFileHeader) : RawFileHeader := mkHeader (numBytes h) (numSectors h) (dataSectors h) 0.

(** [Allocate] for one of the two files. *)
Lemma format_header bm n : Bitmap.wf bm → numBits bm = NUM_SECTORS → 0 ≤ n ≤ NUM_DIRECT * SECTOR_SIZE →
  DivRoundUp n SECTOR_SIZE ≤ Z.of_nat (fm_clear bm) →
  ∃ h bm', Allocate raw_header bm n = Ok (true, h, bm') ∧ Bitmap.wf bm' ∧ numBits bm' = NUM_SECTORS ∧
    file_wf (end_chain h) ∧ numBytes h = n ∧
    Forall (λ y, 0 ≤ y < NUM_SECTORS ∧ Bitmap.bit bm y = false) (sectors_of (end_chain h)) ∧
    (∀ j, 0 ≤ j < NUM_SECTORS → Bitmap.bit bm' j = Bitmap.bit bm j || bool_decide (j ∈ sectors_of (end_chain h))) ∧
    Z.of_nat (fm_clear bm) = Z.of_nat (fm_clear bm') + DivRoundUp n SECTOR_SIZE.
Proof.
  intros Hw Hn Hr Hc. destruct uninit_counts as [Hb0 Hs0]. pose proof raw_header_wf as Hh.
  pose proof (Allocate_result raw_header bm n Hh Hw) as HA. cbn zeta in HA.
  rewrite Hb0, Hs0, Z.add_0_l, !Z.sub_0_r, decide_True in HA by lia.
  destruct HA as (h & bm' & E & Ha); [cbn; rewrite Hn; reflexivity|lia|]. exists h, bm'. split; [exact E|]. clear E.
  destruct Ha as [Hh' [Hw' Hn'] Hb _ (new & Hs & Hnd & Hfr & Hu & Hcl)]. cbn in Hw', Hn', Hfr, Hu, Hcl.
  assert (sectors_of raw_header = []) as E0 by (unfold sectors_of; by rewrite Hs0).
  rewrite E0 in Hs. cbn [app] in Hs. rewrite Hn in *.
  assert (hdr_wf (end_chain h)) as Hwf by (destruct Hh'; split; try done; unfold is_u32; cbn; lia).
  change (sectors_of (end_chain h)) with (sectors_of h). rewrite Hs.
  assert (file_wf (end_chain h)) as Hf.
  { split; [done| |]; change (sectors_of (end_chain h)) with (sectors_of h); rewrite Hs; [|done].
    eapply Forall_impl; [exact Hfr|]. by intros y []. }
  split_and!; try done.
  - rewrite Hb, Hb0. lia.
  - pose proof (sectors_of_length _ Hf) as Hl. change (sectors_of (end_chain h)) with (sectors_of h) in Hl.
    rewrite Hs in Hl. change (numSectors (end_chain h)) with (numSectors h) in Hl.
    rewrite (hw_count _ Hh'), Hb, Hb0, Z.add_0_l in Hl. pose proof (count_bounds n Hr). cbn. rewrite Hn, Hcl. lia.
Qed.

(** The map with the two boot sectors marked. *)
Lemma boot_map : ∃ b0 b1 b2, new_Bitmap NUM_SECTORS (bytes_words 32 (uninit 128)) = Ok b0 ∧
  Mark b0 FREE_MAP_SECTOR = Ok b1 ∧ Mark b1 DIRECTORY_SECTOR = Ok b2 ∧ Bitmap.wf b2 ∧ numBits b2 = NUM_SECTORS ∧
  fm_clear b2 = 1022%nat ∧ ∀ j, 0 ≤ j < NUM_SECTORS → Bitmap.bit b2 j = bool_decide (j < 2).
Proof.
  destruct (new_Bitmap_ok NUM_SECTORS (bytes_words 32 (uninit 128))) as (b0 & E0 & Hw0 & Hn0 & Hb0).
  { vm_compute. by split. }
  { by apply bytes_words_u32. }
  { clear. generalize (uninit 128). intros. reflexivity. }
  destruct (Mark_ok b0 FREE_MAP_SECTOR Hw0) as (b1 & E1 & Hw1 & Hn1 & Hb1); [rewrite Hn0; by split|].
  destruct (Mark_ok b1 DIRECTORY_SECTOR Hw1) as (b2 & E2 & Hw2 & Hn2 & Hb2); [rewrite Hn1, Hn0; by split|].
  exists b0, b1, b2. split; [exact E0|]. split; [exact E1|]. split; [exact E2|]. split; [exact Hw2|]. split; [congruence|].
  assert (∀ j, 0 ≤ j < NUM_SECTORS → Bitmap.bit b2 j = bool_decide (j < 2)) as Hb.
  { intros j Hj. rewrite Hb2, Hb1, Hb0 by lia. unfold DIRECTORY_SECTOR, FREE_MAP_SECTOR.
    destruct (decide (j = 1)), (decide (j = 0)), (bool_decide_reflect (j < 2)); lia || done. }
  split; [|exact Hb]. cbn. rewrite Hn2, Hn1, Hn0.
  rewrite (clear_upto_ext _ (λ j, bool_decide (j < 2))) by done. vm_compute. reflexivity.
Qed.

(** The first version of the directory fills its file. *)
Lemma dir_first_ok s t df : ss_ok (fs_disk s) → file_wf (hdr df) → numBytes (hdr df) = DIRECTORY_FILE_SIZE →
  length t = Z.to_nat NUM_DIR_ENTRIES → Forall entry_ok t →
  ∃ x', dir_WriteBack uninit t df true s = Ok (df, with_disk s x') ∧ ss_ok x' ∧
    contents (hdr df) (ss_sectors x') = table_bytes t ∧
    ∀ y, y ∉ sectors_of (hdr df) → rd (ss_sectors x') y = rd (secs s) y.
Proof.
  intros Hx Hf Hb Hl Ht. destruct (Directory_roundtrip t Ht) as [Hlt _]. rewrite Hl in Hlt.
  pose proof (contents_length (hdr df) _ Hx Hf) as Hcl.
  destruct (WriteAt_ok uninit uninit_length (hdr df) (fs_disk s) (table_bytes t) 320 0 Hx Hf)
    as (x' & E & Hx' & Ho & Hi); [rewrite Hb; vm_compute; by split|done|done|rewrite Hlt; vm_compute; congruence|].
  assert (320 `min` (numBytes (hdr df) - 0) = 320) as Hmin by (rewrite Hb; reflexivity). rewrite Hmin in E, Hi. rewrite Hb in Hcl.
  exists x'. split; [|split; [done|split; [|exact Ho]]].
  - unfold dir_WriteBack. rewrite Hl. change (u32 (Z.of_nat (Z.to_nat NUM_DIR_ENTRIES) * ENTRY_SIZE)) with 320.
    rewrite (bind_disk _ _ _ _ _ E). reflexivity.
  - apply (WriteAt_contents (hdr df) (fs_disk s) x' (table_bytes t) 320 0) in Hi;
      [|done|done|done|done|rewrite Hlt; vm_compute; split; congruence|rewrite Hb; vm_compute; congruence].
    rewrite take_ge in Hi by (rewrite Hlt; vm_compute; lia).
    unfold splice in Hi. rewrite bool_decide_true in Hi by (rewrite Hlt, Hcl; vm_compute; split; congruence).
    injection Hi as <-. cbn [Z.to_nat take app Nat.add]. rewrite drop_ge, app_nil_r; [done|].
    rewrite Hlt. change DIRECTORY_FILE_SIZE with 320 in Hcl. change (32 * Z.to_nat NUM_DIR_ENTRIES)%nat with 320%nat. lia.
Qed.

(** A header is written on its sector. *)
Lemma write_header_ok x sec h : ss_ok x → 0 ≤ sec < NUM_SECTORS → hdr_wf h →
  ∃ x', WriteBack h x sec = Ok x' ∧ ss_ok x' ∧ rd (ss_sectors x') sec = Ok (header_bytes h) ∧
    ∀ y, y ≠ sec → rd (ss_sectors x') y = rd (ss_sectors x) y.
Proof.
  intros Hx Hs Hh. destruct (ss_write_ok x sec (header_bytes h) Hx Hs) as (x' & E & Hsec & Hx').
  { apply header_bytes_length, Hh. }
  destruct (write_sector_frame _ _ _ _ Hx Hs Hsec) as [? ?]. by exists x'.
Qed.

(** The two headers of the new volume and their sectors. *)
Record boot_headers (mh dh : RawFileHeader) (bm : Bitmap) : Prop := {
  bh_map : file_wf mh;
  bh_dir : file_wf dh;
  bh_map_size : numBytes mh = FREE_MAP_FILE_SIZE;
  bh_dir_size : numBytes dh = DIRECTORY_FILE_SIZE;
  bh_next : nextFileHeader dh = 0;
  bh_wf : Bitmap.wf bm;
  bh_bits : numBits bm = NUM_SECTORS;
  bh_clear : fm_clear bm = 1018%nat;
  bh_used : ∀ y, y ∈ 0 :: 1 :: sectors_of dh ++ sectors_of mh → Bitmap.bit bm y = true;
  bh_nodup : NoDup (0 :: 1 :: sectors_of dh ++ sectors_of mh)
}.

Lemma boot_headers_ok b2 : Bitmap.wf b2 → numBits b2 = NUM_SECTORS → fm_clear b2 = 1022%nat →
  (∀ j, 0 ≤ j < NUM_SECTORS → Bitmap.bit b2 j = bool_decide (j < 2)) →
  ∃ mh b3 dh b4, Allocate raw_header b2 FREE_MAP_FILE_SIZE = Ok (true, mh, b3) ∧
    Allocate raw_header b3 DIRECTORY_FILE_SIZE = Ok (true, dh, b4) ∧ boot_headers (end_chain mh) (end_chain dh) b4.
Proof.
  intros Hw Hn Hc Hb.
  destruct (format_header b2 FREE_MAP_FILE_SIZE Hw Hn) as (mh & b3 & E3 & Hw3 & Hn3 & Hf3 & Hs3 & Hfr3 & Hu3 & Hc3);
    [vm_compute; split; congruence|rewrite Hc; vm_compute; congruence|].
  change (DivRoundUp FREE_MAP_FILE_SIZE SECTOR_SIZE) with 1 in Hc3.
  destruct (format_header b3 DIRECTORY_FILE_SIZE Hw3 Hn3) as (dh & b4 & E4 & Hw4 & Hn4 & Hf4 & Hs4 & Hfr4 & Hu4 & Hc4);
    [vm_compute; split; congruence|change (DivRoundUp DIRECTORY_FILE_SIZE SECTOR_SIZE) with 3; lia|].
  change (DivRoundUp DIRECTORY_FILE_SIZE SECTOR_SIZE) with 3 in Hc4.
  exists mh, b3, dh, b4. split; [exact E3|]. split; [exact E4|]. clear E3 E4.
  rewrite Forall_forall in Hfr3, Hfr4.
  assert (Hlow : ∀ j, 0 ≤ j < 2 → Bitmap.bit b3 j = true).
  { intros j Hj. rewrite Hu3, Hb by (change NUM_SECTORS with 1024; lia). by rewrite bool_decide_true by lia. }
  assert (Hmap : ∀ y, y ∈ sectors_of (end_chain mh) → 2 ≤ y < NUM_SECTORS ∧ Bitmap.bit b3 y = true).
  { intros y Hy. destruct (Hfr3 y Hy) as [Hr Hbit]. rewrite Hb in Hbit by done. apply bool_decide_eq_false in Hbit.
    split; [lia|]. by rewrite Hu3, (bool_decide_true _ Hy), orb_true_r. }
  assert (Hdir : ∀ y, y ∈ sectors_of (end_chain dh) → 2 ≤ y < NUM_SECTORS ∧ Bitmap.bit b3 y = false).
  { intros y Hy. destruct (Hfr4 y Hy) as [Hr Hbit]. split; [|done]. destruct (decide (y < 2)); [|lia].
    rewrite Hlow in Hbit; [done|lia]. }
  assert (Hno : ∀ y, y ∈ sectors_of (end_chain dh) ++ sectors_of (end_chain mh) → 2 ≤ y).
  { intros y [Hy|Hy]%elem_of_app; [apply Hdir in Hy|apply Hmap in Hy]; lia. }
  split; try done; [cbn in Hc, Hc3, Hc4 |- *; lia|..].
  - intros y Hy. assert (0 ≤ y < NUM_SECTORS) as Hr.
    { rewrite !elem_of_cons, elem_of_app in Hy. change NUM_SECTORS with 1024 in *.
      destruct Hy as [->|[->|[Hy|Hy]]]; [lia|lia|apply Hdir in Hy; lia|apply Hmap in Hy; lia]. }
    rewrite Hu4 by done. rewrite !elem_of_cons, elem_of_app in Hy. destruct Hy as [->|[->|[Hy|Hy]]].
    + by rewrite Hlow.
    + by rewrite Hlow.
    + by rewrite (bool_decide_true _ Hy), orb_true_r.
    + destruct (Hmap y Hy) as [_ ->]. done.
  - apply NoDup_cons. split; [intros [?|?%Hno]%elem_of_cons; lia|]. apply NoDup_cons. split; [intros ?%Hno; lia|].
    apply NoDup_app. split_and!; [apply Hf4| |apply Hf3]. intros y [_ Hy]%Hdir [_ Hy']%Hmap. congruence.
Qed.

(** What is on the disk after the format makes an empty volume. *)
Lemma format_volume s mh dh bm t : boot_headers mh dh bm → ss_ok (fs_disk s) →
  hdr (freeMapFile s) = mh → sector (freeMapFile s) = FREE_MAP_SECTOR → dir_sector s = DIRECTORY_SECTOR →
  rd (secs s) FREE_MAP_SECTOR = Ok (header_bytes mh) → rd (secs s) DIRECTORY_SECTOR = Ok (header_bytes dh) →
  contents mh (secs s) = words_bytes (Bitmap.map bm) → contents dh (secs s) = table_bytes t →
  length t = Z.to_nat NUM_DIR_ENTRIES → Forall entry_ok t → Forall blank t →
  length (openFilesTable s) = Z.to_nat NUM_SECTORS →
  (∀ e, rd (openFilesTable s) DIRECTORY_SECTOR = Ok e → writeLock e = LLive) →
  volume (with_size s NUM_DIR_ENTRIES) bm t dh ∅ [FREE_MAP_SECTOR].
Proof.
  intros [Hm Hd Hms Hds Hnx Hw Hn _ Hu Hnd] Hx Em Ems Ed Hb0 Hb1 Hmap HT Hl Ht Hun Hlen Hlock.
  destruct (blank_dir_map t Hun) as (Edm & Ek & _). apply NoDup_cons in Hnd as [Hn0 Hnd].
  split; unfold system, map_header; change (dir_sector (with_size s NUM_DIR_ENTRIES)) with (dir_sector s);
    change (freeMapFile (with_size s NUM_DIR_ENTRIES)) with (freeMapFile s);
    change (secs (with_size s NUM_DIR_ENTRIES)) with (secs s); rewrite ?Em, ?Ed.
  - split; [done| | |done|by split| |by rewrite Em].
    + split; rewrite ?Em; done.
    + eexists. split; [exact Hb1|]. apply header_of_header_bytes, hdr_wf_words, Hd.
    + intros y Hy. apply Hu. right. by rewrite Em in Hy.
  - exact Hnx.
  - exact HT.
  - change (NUM_DIR_ENTRIES = Z.of_nat (length t)). rewrite Hl. reflexivity.
  - rewrite Hl. change (Z.to_nat NUM_DIR_ENTRIES) with 10%nat. lia.
  - split; [rewrite Hl; change (Z.to_nat NUM_DIR_ENTRIES) with 10%nat; lia|]. rewrite Ek. constructor.
  - exact Ht.
  - by rewrite Edm, fmap_empty.
  - split; [intros k f E|intros k f x E|intros k1 k2 f1 f2 x E]; by rewrite lookup_empty in E.
  - intros x ->%list_elem_of_singleton. split; [by split|]. split; [apply Hu; by left|]. exact Hn0.
  - by left.
  - split; [exact Ems|]. eexists. split; [exact Hb0|]. apply header_of_header_bytes, hdr_wf_words, Hm.
  - by left.
  - exact Hlen.
  - exact Hlock.
Qed.

Lemma FileSystem_format_ok s :
  ss_ok (fs_disk s) → all_closed (openFilesTable s) →
  ∃ s' bm t dh, FileSystem_format uninit s = Ok (tt, s') ∧
    volume (with_size s' NUM_DIR_ENTRIES) bm t dh ∅ [FREE_MAP_SECTOR] ∧ plain t ∧ fm_clear bm = 1018%nat ∧ numSectors dh = 3 ∧
    boot_open (openFilesTable s') ∧ directorySize s' = directorySize s.
Proof.
  intros Hx Hc. pose proof (ac_length _ Hc) as Hl. destruct boot_map as (b0 & b1 & b2 & E0 & E1 & E2 & Hw2 & Hn2 & Hc2 & Hb2).
  destruct (boot_headers_ok b2 Hw2 Hn2 Hc2 Hb2) as (mh & b3 & dh & b4 & E3 & E4 & HB). pose proof HB as [Hm Hd Hms Hds _ Hw Hn _ _ Hnd].
  unfold FileSystem_format. fold raw_header. cbn zeta. rewrite (bind_lift _ _ _ _ E0).
  destruct (new_dir_ok uninit uninit_length uninit_bytes (Z.to_nat NUM_DIR_ENTRIES) s) as (t & Et & Hlt & Ht & Hun); [vm_compute; lia|].
  change (Z.of_nat (Z.to_nat NUM_DIR_ENTRIES)) with NUM_DIR_ENTRIES in Et.
  rewrite (bind_ok _ _ _ _ _ Et), (bind_lift _ _ _ _ E1), (bind_lift _ _ _ _ E2), (bind_lift _ _ _ _ E3), (bind_lift _ _ _ tt eq_refl).
  rewrite (bind_lift _ _ _ _ E4), (bind_lift _ _ _ tt eq_refl). clear E0 Et E1 E2 E3 E4.
  fold (end_chain mh) (end_chain dh). set (MH := end_chain mh) in *. set (DH := end_chain dh) in *. clearbody MH DH.
  destruct (write_header_ok (fs_disk s) FREE_MAP_SECTOR MH Hx) as (x1 & E & Hx1 & Hr1 & Ho1); [by split|apply Hm|].
  rewrite (bind_disk_ _ _ _ _ E). clear E.
  destruct (write_header_ok x1 DIRECTORY_SECTOR DH Hx1) as (x2 & E & Hx2 & Hr2 & Ho2); [by split|apply Hd|].
  erewrite bind_disk_ by exact E. clear E.
  assert (rd (ss_sectors x2) FREE_MAP_SECTOR = Ok (header_bytes MH)) as Hr2' by (by rewrite Ho2).
  set (s2 := with_disk _ x2). change (openFilesTable s) with (openFilesTable s2) in Hl, Hc.
  change (fs_disk s) with (fs_disk s) in Ho1. change x2 with (fs_disk s2) in Hx2, Hr2, Hr2'. change (directorySize s) with (directorySize s2).
  clearbody s2. clear Ho1 Ho2 Hr1 Hx1 x1 Hx s.
  destruct (open_file_ok s2 FREE_MAP_SECTOR (header_bytes MH) Hx2) as (x3 & e0 & He0 & E & Hx3 & Hs3); [by split|exact Hr2'|exact Hl|].
  rewrite (bind_ok _ _ _ _ _ E), bind_set_map, (header_of_header_bytes MH) by apply hdr_wf_words, Hm. clear E.
  set (s3 := mkFS _ _ _ _ _ _).
  assert (length (openFilesTable s3) = Z.to_nat NUM_SECTORS) as Hl3 by (cbn; by rewrite length_insert).
  assert (∀ e, rd (openFilesTable s3) DIRECTORY_SECTOR = Ok e → closed e) as Hc3'.
  { intros e He. by apply opened_entry in He. }
  assert (∀ e, rd (openFilesTable s3) DIRECTORY_SECTOR = Ok e → count e = 0) as Hc3.
  { intros e [g ->]%Hc3'. done. }
  assert (∀ e1, closed e1 → boot_open (<[Z.to_nat DIRECTORY_SECTOR := entry_open e1]> (openFilesTable s3))) as Hbo.
  { intros e1 Hc1. apply boot_open_ok; [exact Hc|by eapply all_closed_entry|done]. }
  assert (secs s3 = secs s2) as Es3 by exact Hs3. assert (ss_ok (fs_disk s3)) as Hx3' by exact Hx3.
  assert (freeMapFile s3 = mkOpenFile MH 0 0 0) as Ef3 by reflexivity. assert (directorySize s3 = directorySize s2) as En3 by reflexivity.
  clearbody s3.
  assert (rd (secs s3) DIRECTORY_SECTOR = Ok (header_bytes DH)) as Hr3 by (rewrite Es3; exact Hr2).
  destruct (open_file_ok s3 DIRECTORY_SECTOR (header_bytes DH) Hx3') as (x4 & e1 & He1 & E & Hx4 & Hs4); [by split|exact Hr3|exact Hl3|].
  rewrite (bind_ok _ _ _ _ _ E), bind_set_dir, (header_of_header_bytes DH) by apply hdr_wf_words, Hd. clear E.
  set (df := mkOpenFile DH DIRECTORY_SECTOR 0 DIRECTORY_SECTOR). set (s4 := with_dir (S:=S) _ df).
  destruct (write_freeMap_file uninit uninit_length s4 b4) as (x5 & E & Hx5 & Hm5 & Ho5);
    [exact Hx4|change (freeMapFile s4) with (freeMapFile s3); by rewrite Ef3..|exact Hw|exact Hn|].
  rewrite (bind_ok _ _ _ _ _ E). clear E.
  destruct (dir_first_ok (with_disk s4 x5) t df Hx5 Hd Hds Hlt Ht) as (x6 & E & Hx6 & HT & Ho6).
  rewrite (bind_ok _ _ _ _ _ E). clear E. do 4 eexists. split; [reflexivity|]. split; [|split; [apply (blank_dir_map t Hun)|split; [apply (bh_clear _ _ _ HB)|split; [by rewrite (hw_count _ (fw_hdr _ Hd)), Hds|]]]].
  2: { split; [apply Hbo; by apply Hc3'|exact En3]. }
  change (freeMapFile s4) with (freeMapFile s3) in Hm5, Ho5. rewrite Ef3 in Hm5, Ho5. cbn [hdr] in Ho5.
  change (hdr df) with DH in HT, Ho6.
  assert (∀ y, y ∉ sectors_of DH ++ sectors_of MH → rd (ss_sectors x6) y = rd (secs s2) y) as Ho.
  { intros y [Hy1 Hy2]%not_elem_of_app. rewrite Ho6, <-Es3, <-Hs4 by done. by apply Ho5. }
  apply NoDup_cons in Hnd as [Hn0 Hnd]. pose proof Hnd as [Hn1 Hnd2]%NoDup_cons.
  apply (format_volume _ MH DH b4 t HB); try done.
  - change (hdr (freeMapFile s3) = MH). by rewrite Ef3.
  - change (sector (freeMapFile s3) = FREE_MAP_SECTOR). by rewrite Ef3.
  - change (rd (ss_sectors x6) FREE_MAP_SECTOR = Ok (header_bytes MH)). rewrite Ho; [exact Hr2'|]. intros Hy. apply Hn0. by right.
  - change (rd (ss_sectors x6) DIRECTORY_SECTOR = Ok (header_bytes DH)). by rewrite Ho.
  - change (contents MH (ss_sectors x6) = words_bytes (Bitmap.map b4)).
    apply (map_ok_frame _ _ _ (ss_sectors x6)) in Hm5; [apply (mo_data _ _ _ Hm5)|]. cbn [hdr].
    intros y Hy. apply Ho6. intros Hy'. by apply NoDup_app in Hnd2 as (_ & Hnd2 & _); apply (Hnd2 y).
  - change (length (<[Z.to_nat DIRECTORY_SECTOR := entry_open e1]> (openFilesTable s3)) = Z.to_nat NUM_SECTORS).
    by rewrite length_insert.
  - intros e He.
    change (rd (<[Z.to_nat DIRECTORY_SECTOR := entry_open e1]> (openFilesTable s3)) DIRECTORY_SECTOR = Ok e) in He.
    rewrite (rd_wr_eq _ _ _ _ (wr_ok (openFilesTable s3) DIRECTORY_SECTOR (entry_open e1) ltac:(rewrite Hl3; by split))) in He.
    injection He as <-. apply entry_open_lock. by apply Hc3.
Qed.

End Format.

End Boot.

(** Memory that is zero, as a fresh page of the host is. *)
Definition zeros (n : Z) : list Z := replicate (Z.to_nat n) 0.
Lemma zeros_length n : 0 ≤ n → length (zeros n) = Z.to_nat n.
Proof. intros _. apply length_replicate. Qed.
Lemma zeros_bytes n : Forall is_byte (zeros n).
Proof. apply Forall_replicate. unfold is_byte. lia. Qed.
Lemma demo_counts : numBytes (raw_header zeros) = 0 ∧ numSectors (raw_header zeros) = 0.
Proof. split; vm_compute; reflexivity. Qed.

(** A machine without open files. *)
Definition demo_start (x : list (list Z)) : @FileSystem (list (list Z)) :=
  mkFS x (replicate 1024 (initial_entry 0)) (mkOpenFile demo_map_hdr 0 0 0) (mkOpenFile demo_map_hdr 0 0 0) 0 [].

Lemma demo_start_closed x : all_closed (openFilesTable (demo_start x)).
Proof. split; [apply length_replicate|]. apply Forall_replicate. by exists 0. Qed.

Lemma FileSystem_boot_correct_witness : ∃ s', FileSystem_boot demo_uninit (demo_start demo_sectors) = Ok (tt, s') ∧
  view s' demo_layout !! [97; 98] = Some [120; 121; 122].
Proof.
  destruct (FileSystem_boot_correct demo_uninit demo_uninit_length demo_uninit_bytes demo_fs (demo_start demo_sectors) demo_bits
    demo_dir demo_dir_hdr demo_layout [0] demo_volume) as (s' & E & _ & Hview & _).
  - intros H%list_elem_of_singleton. discriminate.
  - split; [apply (vo_inv _ _ _ _ _ _ demo_volume)|exact eq_refl|exact (demo_start_closed _)].
  - exists s'. split; [exact E|]. rewrite Hview. vm_compute. reflexivity.
Defined.

(** Memory in which the first word, the count of bytes, is 3584 + 1. *)
Definition dirty (n : Z) : list Z := take (Z.to_nat n) (1 :: 14 :: replicate (Z.to_nat n) 0).
Lemma dirty_length n : 0 ≤ n → length (dirty n) = Z.to_nat n.
Proof. intros _. unfold dirty. rewrite length_take. cbn [length]. rewrite length_replicate. lia. Qed.
Lemma dirty_bytes n : Forall is_byte (dirty n).
Proof. apply Forall_take. repeat constructor; [unfold is_byte; lia..|]. apply Forall_replicate. unfold is_byte. lia. Qed.

Definition demo_full : list (list Z) := replicate 1024 (replicate 128 255).
Lemma demo_full_ok : ss_ok demo_full.
Proof. split; [exact (length_replicate _ _)|apply Forall_replicate, length_replicate]. Qed.

