(* ===== verification/Commands.v ===== *)
(** * [threads/main.cc], [threads/system.cc], [filesys/fs_test.cc]: the program [nachos]

    What a person does at the shell of the host: [nachos -f] formats the disk,
    [nachos -cp unix file] copies a file of the host to the simulated disk,
    [nachos -pr file] prints one and [nachos -rm file] removes one.  Each run
    parses its arguments twice ([Initialize] and [main]), starts the file system,
    carries out its commands and stops; what is left is the disk.  The commands
    that run user programs, tests or the network end the list of actions. *)

From S2P Require Import Prelude Bitmap Disk FileHeader OpenFile ReadWrite Directory FileSystem.
From stdpp Require Import base option list gmap numbers strings pretty tactics.
From stdpp Require Import list.
Open Scope Z_scope.

(** The characters of a string constant. *)
Fixpoint txt (s : string) : list Z :=
  match s with
  | EmptyString => []
  | String a s => Z.of_nat (Ascii.nat_of_ascii a) :: txt s
  end.
Arguments txt _%_string.
Definition NEWLINE : list Z := [10].
Abbreviation str := (list Z).

(** ** The arguments *)

(** [atoi]: blanks, a sign, digits; the behaviour for a number that does not fit
    an [int] is undefined. *)
Definition is_digit (c : Z) : bool := (48 <=? c) && (c <=? 57).
Definition is_blank (c : Z) : bool := (c =? 32) || ((9 <=? c) && (c <=? 13)).
Fixpoint skip_blanks (s : str) : str :=
  match s with c :: s' => if is_blank c then skip_blanks s' else s | [] => [] end.
Fixpoint digits (acc : Z) (s : str) : Z :=
  match s with c :: s => if is_digit c then digits (10 * acc + (c - 48)) s else acc | [] => acc end.
Definition atoi (s : str) : result Z :=
  let n := match skip_blanks s with
           | 45 :: s => - digits 0 s
           | 43 :: s => digits 0 s
           | s => digits 0 s
           end in
  if bool_decide (- 2 ^ 31 ≤ n < 2 ^ 31) then Ok n else Err OutOfBounds.

Record DebugOpts := mkDebugOpts { location : bool; function : bool; sleep : bool; interactive : bool }.
Definition no_debug_opts : DebugOpts := mkDebugOpts false false false false.

(** One option of [-do]; [None] for [return false]. *)
Definition debug_opt (o : DebugOpts) (token : str) : option DebugOpts :=
  if decide (token = txt "location" ∨ token = txt "l") then
    Some (mkDebugOpts true (function o) (sleep o) (interactive o))
  else if decide (token = txt "function" ∨ token = txt "f") then
    Some (mkDebugOpts (location o) true (sleep o) (interactive o))
  else if decide (token = txt "sleep" ∨ token = txt "s") then
    Some (mkDebugOpts (location o) (function o) true (interactive o))
  else if decide (token = txt "interactive" ∨ token = txt "i") then
    Some (mkDebugOpts (location o) (function o) (sleep o) true)
  else None.
Fixpoint debug_opts (o : DebugOpts) (ts : list str) : option DebugOpts :=
  match ts with [] => Some o | t :: ts => o ← debug_opt o t; debug_opts o ts end.
Definition ParseDebugOpts (s : str) (o : DebugOpts) : option DebugOpts :=
  debug_opts o (tokens 44 s).

(** What [Initialize] keeps of the command line. *)
Record Options := mkOptions {
  debugFlags : str;
  debugOpts : DebugOpts;
  randomSeed : option Z;      (* [randomYield] is true when it is set *)
  timeSlice : option Z;       (* [preemptiveScheduling] *)
  debugUserProg : bool;
  format : bool
}.
Definition DEFAULT_TIME_SLICE : Z := 50000.
Definition no_options : Options := mkOptions [] no_debug_opts None None false false.

(** The loop over the arguments.  The options with a value take the argument
    that follows, whatever it is; all other arguments are looked at one by one. *)
Fixpoint Initialize_args (argv : list str) (o : Options) : result Options :=
  match argv with
  | [] => Ok o
  | a :: rest =>
      let next (o : Options) := Initialize_args rest o in
      if decide (a = txt "-d") then
        match rest with
        | [] => Ok (mkOptions (txt "+") (debugOpts o) (randomSeed o) (timeSlice o) (debugUserProg o) (format o))
        | v :: rest' => Initialize_args rest'
            (mkOptions v (debugOpts o) (randomSeed o) (timeSlice o) (debugUserProg o) (format o))
        end
      else if decide (a = txt "-do") then
        match rest with
        | [] => Err AssertFail
        | v :: rest' =>
            match ParseDebugOpts v (debugOpts o) with
            | None => Err AssertFail
            | Some d => Initialize_args rest'
                (mkOptions (debugFlags o) d (randomSeed o) (timeSlice o) (debugUserProg o) (format o))
            end
        end
      else if decide (a = txt "-rs") then
        match rest with
        | [] => Err AssertFail
        | v :: rest' => n ← atoi v; Initialize_args rest'
            (mkOptions (debugFlags o) (debugOpts o) (Some n) (timeSlice o) (debugUserProg o) (format o))
        end
      else if decide (a = txt "-p") then
        match rest with
        | [] => Ok (mkOptions (debugFlags o) (debugOpts o) (randomSeed o) (Some DEFAULT_TIME_SLICE) (debugUserProg o) (format o))
        | v :: rest' => n ← atoi v; Initialize_args rest'
            (mkOptions (debugFlags o) (debugOpts o) (randomSeed o) (Some n) (debugUserProg o) (format o))
        end
      else if decide (a = txt "-s") then
        next (mkOptions (debugFlags o) (debugOpts o) (randomSeed o) (timeSlice o) true (format o))
      else if decide (a = txt "-f") then
        next (mkOptions (debugFlags o) (debugOpts o) (randomSeed o) (timeSlice o) (debugUserProg o) true)
      else next o
  end.

(** What [main] does for an argument, after which it goes on. *)
Inductive action :=
| DoCopy (from to : str)
| DoBigCopy (from to : str)
| DoCopyExact (from to : str)
| DoPrint (name : str)
| DoRemove (name : str)
| DoList
| DoPrintAll
| DoCheck
| DoStart (prog : str)             (* [-x]: [StartProcess], which returns if it cannot open the file *)
| DoTest (flag : str).             (* [-tf], [-tfs], [-tfc], [-td] *)

(** How the loop of [main] ends. *)
Inductive ending :=
| Finish                           (* [currentThread->Finish()] *)
| InfoAndReturn                    (* [-i], [-z]: [return 0] from [main] *)
| ConsoleAndHalt (synch : bool) (files : option (str * str))
| Stopped.                         (* a failed [ASSERT] *)

Definition is_test (a : str) : bool :=
  bool_decide (a ∈ [txt "-tf"; txt "-tfs"; txt "-tfc"; txt "-td"]).

(** [-cp] and its variants. *)
Definition copy_flag (a : str) : option (str → str → action) :=
  if decide (a = txt "-cp") then Some DoCopy
  else if decide (a = txt "-bcp") then Some DoBigCopy
  else if decide (a = txt "-cpe") then Some DoCopyExact
  else None.

Definition console_args (rest : list str) : option (option (str * str)) :=
  match rest with
  | [] => Some None
  | [_] => None
  | i :: o :: _ => Some (Some (i, o))
  end.

Fixpoint main_args (argv : list str) : list action * ending :=
  match argv with
  | [] => ([], Finish)
  | a :: rest =>
      if decide (a = txt "-i" ∨ a = txt "-z") then ([], InfoAndReturn)
      else if decide (a = txt "-x") then
        match rest with
        | [] => ([], Stopped)
        | p :: rest => let '(l, e) := main_args rest in (DoStart p :: l, e)
        end
      else if decide (a = txt "-tc" ∨ a = txt "-tsc") then
        match console_args rest with
        | None => ([], Stopped)
        | Some fs => ([], ConsoleAndHalt (bool_decide (a = txt "-tsc")) fs)
        end
      else
        match copy_flag a with
        | Some copy =>
            match rest with
            | from :: to :: rest => let '(l, e) := main_args rest in (copy from to :: l, e)
            | _ => ([], Stopped)
            end
        | None =>
            if decide (a = txt "-pr") then
              match rest with
              | n :: rest => let '(l, e) := main_args rest in (DoPrint n :: l, e)
              | [] => ([], Stopped)
              end
            else if decide (a = txt "-rm") then
              match rest with
              | n :: rest => let '(l, e) := main_args rest in (DoRemove n :: l, e)
              | [] => ([], Stopped)
              end
            else
              let '(l, e) := main_args rest in
              ((if decide (a = txt "-ls") then [DoList]
                else if decide (a = txt "-D") then [DoPrintAll]
                else if decide (a = txt "-c") then [DoCheck]
                else if is_test a then [DoTest a] else []) ++ l, e)
        end
  end.

(** ** The commands on files *)
Section Commands.
Context {S : Type} `{SectorStore S}.
Context (uninit : Z → list Z).
(** [runningProcesses->HasKey] and [currentThread->GetSpaceId()]. *)
Context (running : Z → bool) (me : Z).
(** The files of the host, as [fopen(name, "r")] and [fread] see them. *)
Context (host : gmap str (list Z)).
#[local] Existing Instances M_ret M_bind.
Abbreviation M := (M (S:=S)).

(** [openFile->Write(from, strlen)] and [openFile->Read(into, n)]. *)
Definition file_Write (f : OpenFile) (from : list Z) : M (Z * OpenFile) :=
  t ← get openFilesTable;
  fm ← get freeMapFile;
  on_disk (λ x, r ← Write uninit FUEL t fm f x from (Z.of_nat (length from)) false;
                let '(n, f, x) := r in Ok ((n, f), x)).
Definition file_Read (f : OpenFile) (n : Z) : M (list Z * OpenFile) :=
  on_disk (λ x, r ← Read FUEL f x n false; let '(bs, f, x) := r in Ok ((bs, f), x)).

Definition TRANSFER_SIZE : nat := 10.

Definition no_input (from : str) : str := txt "Copy: could not open input file " ++ from ++ NEWLINE.
Definition no_output (to : str) : str := txt "Copy: could not create output file " ++ to ++ NEWLINE.

(** The part all three share: [body] gets the new file and what [fread] has to
    give; the result is the text printed. *)
Definition copying (from to : str) (body : OpenFile → list Z → M (OpenFile * str)) : M str :=
  match host !! from with
  | None => mret (no_input from)
  | Some content =>
      created ← Create uninit running to;
      if negb created then mret (no_output to)
      else
        f ← Open_deref uninit to;
        r ← body f content;
        let '(f, out) := r in
        _ ← close_file running f;
        mret out
  end.

(** The loop of [Copy]; [tries] is the number of chunks that [++count < 20000]
    still allows, [fp] the rest of the host file. *)
Fixpoint Copy_loop (tries : nat) (f : OpenFile) (fp : list Z) : M OpenFile :=
  let buffer := take TRANSFER_SIZE fp in
  if bool_decide (buffer = []) then mret f
  else
    match tries with
    | O => mret f
    | Datatypes.S tries =>
        r ← file_Write f buffer;
        Copy_loop tries (r.2) (drop TRANSFER_SIZE fp)
    end.
Definition MAX_CHUNKS : nat := Z.to_nat 19999.

Definition Copy (from to : str) : M str :=
  copying from to (λ f content, f ← Copy_loop MAX_CHUNKS f content; mret (f, [])).

(** [printf("%d")]. *)
Definition dec (n : Z) : str := txt (pretty n).

Definition BIG_TRANSFER : nat := Z.to_nat 500000.
Fixpoint BigCopy_loop (fuel : nat) (f : OpenFile) (fp : list Z) (out : str) : M (OpenFile * str) :=
  let buffer := take BIG_TRANSFER fp in
  let amountRead := Z.of_nat (length buffer) in
  if bool_decide (amountRead > 0) then
    match fuel with
    | O => lift (Err OutOfFuel)
    | Datatypes.S fuel =>
        r ← file_Write f buffer;
        let '(result, f) := r in
        let out := out ++ txt "Amount to write: " ++ dec amountRead ++ NEWLINE
                     ++ txt "Amount writed: " ++ dec result ++ NEWLINE in
        if bool_decide (result = 0) then mret (f, out)
        else BigCopy_loop fuel f (drop BIG_TRANSFER fp) out
    end
  else mret (f, out).
Definition BigCopy (from to : str) : M str :=
  copying from to (λ f content, BigCopy_loop (Datatypes.S (length content)) f content []).

(** One [fread] and one [Write], which asserts that there is something to write. *)
Definition EXACT_TRANSFER : nat := Z.to_nat 3712.
Definition CopyExactFileHeaderSize (from to : str) : M str :=
  copying from to (λ f content, r ← file_Write f (take EXACT_TRANSFER content); mret (r.2, [])).

(** The loop of [Print]; every turn but the last prints a byte. *)
Fixpoint Print_loop (fuel : nat) (f : OpenFile) (out : str) : M (OpenFile * str) :=
  match fuel with
  | O => lift (Err OutOfFuel)
  | Datatypes.S fuel =>
      r ← file_Read f (Z.of_nat TRANSFER_SIZE);
      let '(buffer, f) := r in
      if bool_decide (buffer = []) then mret (f, out) else Print_loop fuel f (out ++ buffer)
  end.
Definition PRINT_FUEL : nat := Datatypes.S (Z.to_nat (NUM_SECTORS * SECTOR_SIZE)).

(** The text of the file on the standard output; [None] when the file is not
    there, which is said on the standard error. *)
Definition Print (nm : str) : M (option str) :=
  f ← Open uninit nm;
  match f with
  | None => mret None
  | Some f =>
      r ← Print_loop PRINT_FUEL f [];
      let '(f, out) := r in
      _ ← close_file running f;
      mret (Some out)
  end.

(** ** [PerformanceTest]: writing and reading a file in small pieces *)
Definition FILE_NAME : str := txt "TestFile".
Definition CONTENTS : list Z := txt "1234567890".
Definition CONTENT_SIZE : Z := 10.
Definition FILE_SIZE : Z := CONTENT_SIZE * 5000.

(** The text is what is printed on either output. *)
Fixpoint FileWrite_loop (n : nat) (f : OpenFile) : M (OpenFile * str) :=
  match n with
  | O => mret (f, [])
  | Datatypes.S n =>
      r ← file_Write f CONTENTS;
      let '(numBytes, f) := r in
      if bool_decide (numBytes < 10) then mret (f, txt "Perf test: unable to write " ++ FILE_NAME ++ NEWLINE)
      else FileWrite_loop n f
  end.
Definition sequential (what : string) : str :=
  txt "Sequential " ++ txt what ++ txt " of " ++ dec FILE_SIZE ++ txt " byte file, in " ++ dec CONTENT_SIZE
    ++ txt " byte chunks" ++ NEWLINE.
Definition FileWrite_body : M str :=
  created ← Create uninit running FILE_NAME;
  if negb created then mret (txt "Perf test: cannot create " ++ FILE_NAME ++ NEWLINE)
  else
    f ← Open uninit FILE_NAME;
    match f with
    | None => mret (txt "Perf test: unable to open " ++ FILE_NAME ++ NEWLINE)
    | Some f =>
        r ← FileWrite_loop (Z.to_nat (FILE_SIZE / CONTENT_SIZE)) f;
        let '(f, out) := r in
        _ ← close_file running f;
        mret out
    end.

Definition FileWrite : M str := out ← FileWrite_body; mret (sequential "write" ++ out).

Fixpoint FileRead_loop (n : nat) (f : OpenFile) : M (OpenFile * str) :=
  match n with
  | O => mret (f, [])
  | Datatypes.S n =>
      r ← file_Read f CONTENT_SIZE;
      let '(buffer, f) := r in
      if bool_decide (Z.of_nat (length buffer) < 10) || negb (strncmp_eq 10 buffer CONTENTS)
      then mret (f, txt "Perf test: unable to read " ++ FILE_NAME ++ NEWLINE)
      else FileRead_loop n f
  end.
Definition FileRead_body : M str :=
  f ← Open uninit FILE_NAME;
  match f with
  | None => mret (txt "Perf test: unable to open file " ++ FILE_NAME ++ NEWLINE)
  | Some f =>
      r ← FileRead_loop (Z.to_nat (FILE_SIZE / CONTENT_SIZE)) f;
      let '(f, out) := r in
      _ ← close_file running f;
      mret out
  end.

Definition FileRead : M str := out ← FileRead_body; mret (sequential "read" ++ out).

(** ** One run of [nachos] *)

(** What happens after an action: the loop goes on, the thread waits for ever
    (a removal of a file that is open), or the rest is not in this file (user
    programs, tests, the printed form of the whole file system). *)
Inductive after := GoesOn | Waits | Leaves (a : action).

Definition do_action (a : action) : M (str * after) :=
  match a with
  | DoCopy from to => out ← Copy from to; mret (out, GoesOn)
  | DoBigCopy from to => out ← BigCopy from to; mret (out, GoesOn)
  | DoCopyExact from to => out ← CopyExactFileHeaderSize from to; mret (out, GoesOn)
  | DoPrint nm => out ← Print nm; mret (default [] out ++ NEWLINE, GoesOn)
  | DoRemove nm =>
      o ← Remove uninit me nm false;
      mret ([], match o with Returned _ => GoesOn | Waiting _ _ _ _ => Waits end)
  | DoList => names ← fs_List uninit; mret (concat ((λ nm, nm ++ NEWLINE) <$> names) ++ NEWLINE, GoesOn)
  | DoCheck =>
      result ← Check uninit;
      mret (txt "Filesystem check " ++ txt (if result : bool then "succeeded" else "failed") ++ txt "." ++ NEWLINE,
            GoesOn)
  | DoStart _ | DoPrintAll | DoTest _ => mret ([], Leaves a)
  end.

Fixpoint do_actions (l : list action) : M (str * after) :=
  match l with
  | [] => mret ([], GoesOn)
  | a :: l =>
      r ← do_action a;
      let '(out, next) := r in
      match next with
      | GoesOn => r ← do_actions l; let '(out', next) := r in mret (out ++ out', next)
      | _ => mret (out, next)
      end
  end.

(** The globals of the file system when [Initialize] makes [fileSystem]: the
    table of open files, and an object whose fields are not set. *)
Definition null_file : OpenFile := mkOpenFile (mkHeader 0 0 [] 0) 0 0 0.
Definition initial_table : list OpenFileEntry :=
  replicate (Z.to_nat NUM_SECTORS) (initial_entry (le_word (uninit 4))).
Definition power_on (x : S) : FileSystem :=
  mkFS x initial_table null_file null_file (le_word (uninit 4)) [].

(** [new FileSystem(format)] and its destructor. *)
Definition new_FileSystem (format : bool) : M unit :=
  if format then FileSystem_format uninit else FileSystem_boot uninit.
Definition delete_FileSystem : M unit :=
  fm ← get freeMapFile;
  _ ← close_file running fm;
  df ← get directoryFile;
  close_file running df.

(** The arguments are those after the name of the program; the disk is the one
    the last run left.  The result is the text on the standard output, how the
    run went on, and the disk. *)
Definition nachos `{Restart S} (argv : list str) (x : S) : result (str * after * ending * S) :=
  x ← restart x;
  o ← Initialize_args argv no_options;
  r ← new_FileSystem (format o) (power_on x);
  let '(_, s) := r in
  let '(l, e) := main_args argv in
  r ← do_actions l s;
  let '(out, next, s) := r in
  match next, e with
  | GoesOn, Finish => r ← delete_FileSystem s; let '(_, s) := r in Ok (out, next, e, fs_disk s)
  | _, _ => Ok (out, next, e, fs_disk s)
  end.
End Commands.
