(* ===== verification/Checking.v ===== *)
(** * What [Check] of the file system decides

    [FileSystem::Check] walks the headers and the table of the root directory and
    marks their sectors on a map of its own.  On a volume it fails no assertion
    and changes nothing, and its answer is described exactly: it is [true] when
    every header it looks at has a free slot for a data sector, and no sector is
    in use but those it came across.  So lost sectors are found, and so is every
    file that the rest of the file system allows and [Check] does not know: files
    that fill their header or have a second one, entries behind the tenth, other
    directories. *)

From S2P Require Import Prelude Bitmap Disk FileHeader OpenFile ReadWrite Directory FileSystem Volume Boot.
From stdpp Require Import base option list gmap numbers tactics.
From stdpp Require Import list.
Open Scope Z_scope.

(** ** Marking sectors on the map *)
Record marks (b b' : Bitmap) (l : list Z) : Prop := {
  mk_wf : Bitmap.wf b';
  mk_bits : numBits b' = numBits b;
  mk_set j : 0 ≤ j < NUM_SECTORS → Bitmap.bit b' j = Bitmap.bit b j || bool_decide (j ∈ l)
}.

Lemma marks_nil b : Bitmap.wf b → marks b b [].
Proof. intros Hb. split; [done..|]. intros j _. rewrite bool_decide_false by apply not_elem_of_nil. by rewrite orb_false_r. Qed.

Lemma marks_app b1 b2 b3 l1 l2 : marks b1 b2 l1 → marks b2 b3 l2 → marks b1 b3 (l1 ++ l2).
Proof.
  intros [_ Hn2 Hb2] [Hw3 Hn3 Hb3]. split; [done|congruence|]. intros j Hj. rewrite Hb3, Hb2 by done.
  rewrite <-orb_assoc. f_equal. rewrite <-bool_decide_or. apply bool_decide_ext. by rewrite elem_of_app.
Qed.

Lemma marks_clear b b' l y : marks b b' l → 0 ≤ y < NUM_SECTORS → Bitmap.bit b y = false → y ∉ l → Bitmap.bit b' y = false.
Proof. intros [_ _ Hb] Hy Hby Hl. by rewrite Hb, Hby, bool_decide_false. Qed.

Lemma Mark_marks b y : Bitmap.wf b → numBits b = NUM_SECTORS → 0 ≤ y < NUM_SECTORS → ∃ b', Mark b y = Ok b' ∧ marks b b' [y].
Proof.
  intros Hw Hn Hy. destruct (Mark_ok b y Hw ltac:(lia)) as (b' & E & Hw' & Hn' & Hb'). exists b'. split; [done|].
  split; [done..|]. intros j Hj. rewrite Hb' by lia.
  destruct (decide (j = y)) as [->|Hne]; [by rewrite bool_decide_true, orb_true_r by left|].
  rewrite bool_decide_false by (by intros ?%list_elem_of_singleton). by rewrite orb_false_r.
Qed.

Lemma CheckSector_ok b y : Bitmap.wf b → numBits b = NUM_SECTORS → 0 ≤ y < NUM_SECTORS → Bitmap.bit b y = false →
  ∃ b', CheckSector y b = Ok (false, b') ∧ marks b b' [y].
Proof.
  intros Hw Hn Hy Hb. destruct (Mark_marks b y Hw Hn Hy) as (b' & E & Hm). exists b'. split; [|done].
  unfold CheckSector, AddToShadowBitmap, CheckForError. rewrite bool_decide_true by lia. cbn [negb].
  rewrite Test_ok by (by rewrite ?Hn). cbn [mbind result_bind]. rewrite Hb, E. done.
Qed.

(** A header with all its slots in use is reported. *)
Definition full (h : RawFileHeader) : bool := bool_decide (numSectors h = NUM_DIRECT).

Lemma CheckFileHeader_ok b h : Bitmap.wf b → numBits b = NUM_SECTORS → file_wf h →
  (∀ y, y ∈ sectors_of h → Bitmap.bit b y = false) →
  ∃ b', CheckFileHeader h b = Ok (full h, b') ∧ marks b b' (sectors_of h).
Proof.
  intros Hw Hn Hf Hfree. pose proof (sectors_of_length h Hf) as Hl. destruct Hf as [Hh Hr Hnd].
  pose proof (count_bounds _ (hw_bytes _ Hh)) as Hc. rewrite <-(hw_count _ Hh) in Hc. unfold CheckFileHeader.
  assert (CheckForError (bool_decide (numSectors h >= DivRoundUp (numBytes h) SECTOR_SIZE)) = false) as ->.
  { unfold CheckForError. by rewrite bool_decide_true by (rewrite (hw_count _ Hh); lia). }
  assert (CheckForError (bool_decide (numSectors h < NUM_DIRECT)) = full h) as ->.
  { unfold CheckForError, full. rewrite <-bool_decide_not. apply bool_decide_ext. lia. }
  cbn [orb].
  destruct (for_loop_ind (λ i r, r.1 = full h ∧ marks b r.2 (take (Z.to_nat i) (sectors_of h))) (span 0 (numSectors h)) 0
    (λ i '(error, m), s ← rd (dataSectors h) i; r ← CheckSector s m; let '(e, m) := r in Ok (error || e, m)) (full h, b))
    as ([e b'] & E & He & Hm).
  - split; [done|]. by apply marks_nil.
  - intros i [e m] Hi [He Hm]. cbn [fst snd] in He, Hm. subst e. unfold span in Hi.
    assert ((Z.to_nat i < length (sectors_of h))%nat) as Hlt by lia.
    destruct (lookup_lt_is_Some_2 _ _ Hlt) as [y Hy]. pose proof (list_elem_of_lookup_2 _ _ _ Hy) as Hin.
    pose proof Hr as Hr'. rewrite Forall_forall in Hr'. specialize (Hr' y Hin).
    assert (rd (dataSectors h) i = Ok y) as ->.
    { apply rd_ok; [lia|]. unfold sectors_of in Hy. by apply lookup_take_Some in Hy as [? _]. }
    cbn [mbind result_bind]. destruct (CheckSector_ok m y) as (m' & E & Hm').
    + apply Hm.
    + rewrite (mk_bits _ _ _ Hm). exact Hn.
    + exact Hr'.
    + eapply marks_clear; [exact Hm|exact Hr'|by apply Hfree|]. intros (j & Hj & Hlj)%elem_of_take.
      pose proof (NoDup_lookup _ _ _ _ Hnd Hj Hy). lia.
    + rewrite E. cbn [mbind result_bind]. eexists. split; [reflexivity|]. split; [apply orb_false_r|].
      replace (Z.to_nat (i + 1)) with (Datatypes.S (Z.to_nat i)) by lia. rewrite (take_S_r _ _ _ Hy). by eapply marks_app.
  - exists b'. cbn [fst snd] in *. subst e. split; [exact E|]. rewrite span_nat, take_ge in Hm by lia. exact Hm.
Qed.

Lemma CheckBitmaps_ok a b : Bitmap.wf a → Bitmap.wf b → numBits a = NUM_SECTORS → numBits b = NUM_SECTORS →
  ∃ e, CheckBitmaps a b = Ok e ∧ (e = false ↔ ∀ y, 0 ≤ y < NUM_SECTORS → Bitmap.bit a y = Bitmap.bit b y).
Proof.
  intros Hwa Hwb Hna Hnb. unfold CheckBitmaps.
  destruct (for_loop_ind (λ i e, e = false ↔ ∀ y, 0 ≤ y < i → Bitmap.bit a y = Bitmap.bit b y) (span 0 NUM_SECTORS) 0
    (λ i error, x ← Test a i; y ← Test b i; Ok (error || CheckForError (eqb x y))) false) as (e & E & He).
  - split; [lia|done].
  - intros i e Hi He. unfold span in Hi. change (Z.of_nat (Z.to_nat (NUM_SECTORS - 0))) with NUM_SECTORS in Hi.
    rewrite (Test_ok a), (Test_ok b) by (done || lia). cbn [mbind result_bind]. eexists. split; [reflexivity|].
    unfold CheckForError. rewrite orb_false_iff, negb_false_iff, eqb_true_iff, He. split.
    + intros [Hlo Hi'] y Hy. destruct (decide (y = i)) as [->|]; [done|]. apply Hlo. lia.
    + intros Hall. split; [intros y Hy|]; apply Hall; lia.
  - exists e. split; [done|]. by rewrite span_nat in He.
Qed.

(** ** The directory *)
Lemma cstr_cut n : ∀ a, (length (cut n a) < n)%nat → (n ≤ length a)%nat → cstr a = Ok (cut n a).
Proof.
  induction n as [|n IH]; intros a Hc Hl; [lia|]. destruct a as [|c a]; [cbn in Hl; lia|]. cbn [cut cstr] in *.
  case_bool_decide; [done|]. cbn [length] in *. by rewrite IH by lia.
Qed.

Lemma dir_map_entry t e : NoDup (keys t) → e ∈ t → inUse e = true → dir_map t !! entry_key e = Some (de_sector e).
Proof.
  induction t as [|e' t IH]; [by intros _ ?%elem_of_nil|]. rewrite keys_cons. cbn [dir_map]. intros Hn He Hu.
  apply elem_of_cons in He as [<-|He]; [rewrite Hu; apply lookup_insert_eq|].
  destruct (inUse e') eqn:Hu'; [|by apply IH]. apply NoDup_cons in Hn as [Hk Hn].
  rewrite lookup_insert_ne; [by apply IH|]. intros Ek. apply Hk. rewrite Ek. unfold keys.
  apply list_elem_of_fmap. exists e. split; [done|]. by apply list_elem_of_filter; rewrite Hu.
Qed.

(** The first header of the file of an entry, which is all that is looked at. *)
Definition head_of (L : layout) (e : DirectoryEntry) : option (Z * RawFileHeader) :=
  if inUse e then match L !! entry_key e with Some (sec, h :: _) => Some (sec, h) | _ => None end else None.
Definition heads (L : layout) (t : list DirectoryEntry) : list (Z * RawFileHeader) := omap (head_of L) t.
Definition head_sectors (f : Z * RawFileHeader) : list Z := f.1 :: sectors_of f.2.
Definition seen (L : layout) (t : list DirectoryEntry) : list Z := concat (head_sectors <$> heads L t).

Section Checking.
Context {S : Type} `{SectorStoreSpec S}.
Context (uninit : Z → list Z).
Hypothesis uninit_length : ∀ n, 0 ≤ n → length (uninit n) = Z.to_nat n.
Hypothesis uninit_bytes : ∀ n, Forall is_byte (uninit n).
Abbreviation FileSystem := (@FileSystem S).
#[local] Existing Instances M_ret M_bind.

(** An entry whose first header is on the disk. *)
Record entry_there (d : list (list Z)) (L : layout) (e : DirectoryEntry) (sec : Z) (h : RawFileHeader) : Prop := {
  et_head : head_of L e = Some (sec, h);
  et_sector : de_sector e = sec;
  et_range : 0 ≤ sec < NUM_SECTORS;
  et_header : ∃ bs, rd d sec = Ok bs ∧ header_of_bytes bs = h;
  et_wf : file_wf h;
  et_name : cstr (name e) = Ok (entry_key e) ∧ (length (entry_key e) ≤ FILE_NAME_MAX_LEN)%nat
}.

Lemma same_fs_refl (s : FileSystem) : ss_ok (fs_disk s) → same_fs s s.
Proof. by split. Qed.

Lemma CheckEntry_ok (s : FileSystem) L e sec h e0 known b : ss_ok (fs_disk s) → inUse e = true → entry_there (secs s) L e sec h →
  entry_key e ∉ known → Bitmap.wf b → numBits b = NUM_SECTORS → NoDup (sec :: sectors_of h) →
  (∀ y, y ∈ sec :: sectors_of h → Bitmap.bit b y = false) →
  ∃ s' b', CheckEntry e (e0, known, b) s = Ok ((e0 || full h, known ++ [entry_key e], b'), s') ∧ same_fs s s' ∧
    marks b b' (sec :: sectors_of h).
Proof.
  intros Hx Hu [_ Hsec Hr (bs & Hbs & Hh) Hf [Hn Hlen]] Hk Hw Hnb [Hn1 Hn2]%NoDup_cons Hfree. unfold CheckEntry. rewrite Hu, Hsec.
  rewrite (bind_lift _ _ _ _ Hn). cbn zeta. rewrite (bool_decide_false (FILE_NAME_MAX_LEN < _)%nat) by lia.
  rewrite (bool_decide_false (entry_key e ∈ known)) by done. rewrite !orb_false_r.
  destruct (CheckSector_ok b sec Hw Hnb Hr) as (b1 & E1 & Hm1); [apply Hfree; by left|]. rewrite (bind_lift _ _ _ _ E1).
  destruct (FetchFrom_ok (fs_disk s) sec Hx Hr) as (v & x' & EF & Hv & Hx' & Hs').
  unfold secs in Hbs. rewrite Hbs in Hv. injection Hv as <-. rewrite (bind_disk _ _ _ _ _ EF), Hh.
  destruct (CheckFileHeader_ok b1 h) as (b2 & E2 & Hm2); [apply Hm1|rewrite (mk_bits _ _ _ Hm1); exact Hnb|exact Hf| |].
  { intros y Hy. eapply marks_clear; [exact Hm1| |apply Hfree; by right|].
    - pose proof (fw_range _ Hf) as Hrange. rewrite Forall_forall in Hrange. by apply Hrange.
    - intros ->%list_elem_of_singleton. done. }
  rewrite (bind_lift _ _ _ _ E2). exists (with_disk s x'), b2. rewrite orb_false_r. split; [done|]. split; [by split|].
  exact (marks_app _ _ _ [sec] _ Hm1 Hm2).
Qed.

Lemma CheckDirectory_loop_ok L t es : ∀ i s e0 known b, ss_ok (fs_disk s) →
  (∀ j e, es !! j = Some e → rd t (i + Z.of_nat j) = Ok e) →
  (∀ e, e ∈ es → inUse e = true → ∃ sec h, entry_there (secs s) L e sec h) →
  NoDup (known ++ keys es) → NoDup (seen L es) → Bitmap.wf b → numBits b = NUM_SECTORS →
  (∀ y, y ∈ seen L es → 0 ≤ y < NUM_SECTORS ∧ Bitmap.bit b y = false) →
  ∃ (s' : FileSystem) b', CheckDirectory_loop (length es) i t (e0, known, b) s
      = Ok ((e0 || existsb (λ f, full f.2) (heads L es), known ++ keys es, b'), s') ∧ same_fs s s' ∧ marks b b' (seen L es).
Proof.
  induction es as [|e es IH]; intros i s e0 known b Hx Ht Hes Hk Hnd Hw Hn Hfree; cbn [length CheckDirectory_loop].
  { exists s, b. rewrite orb_false_r, app_nil_r. split; [done|]. split; [by apply same_fs_refl|by apply marks_nil]. }
  assert (rd t i = Ok e) as Hrd by (rewrite <-(Ht O e eq_refl); f_equal; lia). rewrite (bind_lift _ _ _ _ Hrd).
  assert (∀ j e', es !! j = Some e' → rd t (i + 1 + Z.of_nat j) = Ok e') as Ht'.
  { intros j e' Hj. rewrite <-(Ht (Datatypes.S j) e' Hj). f_equal. lia. }
  unfold seen, heads in *. cbn [omap list_omap] in *. rewrite keys_cons in *. destruct (inUse e) eqn:Hu.
  - destruct (Hes e ltac:(by left) Hu) as (sec & h & He). pose proof (et_head _ _ _ _ _ He) as Hh. rewrite Hh in *.
    rewrite fmap_cons in *. cbn [concat] in *. apply NoDup_app in Hnd as (Hnd1 & Hdis & Hnd2).
    assert (entry_key e ∉ known) as Hke.
    { intros Hin. apply NoDup_app in Hk as (_ & Hk & _). apply (Hk _ Hin). by left. }
    destruct (CheckEntry_ok s L e sec h e0 known b Hx Hu He Hke Hw Hn Hnd1) as (s1 & b1 & E & Hs1 & Hm1).
    { intros y Hy. apply Hfree. apply elem_of_app. by left. }
    rewrite (bind_ok _ _ _ _ _ E). pose proof (sf_ok _ _ Hs1) as Hx1. pose proof (sf_secs _ _ Hs1) as Hsec1.
    destruct (IH (i + 1) s1 (e0 || full h) (known ++ [entry_key e]) b1 Hx1 Ht') as (s2 & b2 & E2 & Hs2 & Hm2).
    + intros e' He' Hu'. rewrite Hsec1. apply Hes; [by right|done].
    + by rewrite <-app_assoc.
    + exact Hnd2.
    + apply Hm1.
    + rewrite (mk_bits _ _ _ Hm1). exact Hn.
    + intros y Hy. destruct (Hfree y) as [Hry Hby]; [apply elem_of_app; by right|]. split; [done|].
      eapply marks_clear; [exact Hm1|done|done|]. intros Hy'. by apply (Hdis y).
    + exists s2, b2. rewrite E2. cbn [existsb snd]. rewrite <-app_assoc, orb_assoc. split; [done|].
      split; [by eapply same_fs_trans|by eapply marks_app].
  - assert (head_of L e = None) as Hh by (unfold head_of; by rewrite Hu). rewrite Hh in *.
    unfold CheckEntry. rewrite Hu, bind_ret. apply IH; try done. intros e' He'. apply Hes. by right.
Qed.

(** ** The whole check *)

Lemma seen_inv L es y : y ∈ seen L es → ∃ e sec h hs, e ∈ es ∧ inUse e = true ∧ L !! entry_key e = Some (sec, h :: hs) ∧
  y ∈ sec :: sectors_of h.
Proof.
  unfold seen, heads. rewrite list_elem_of_In, in_concat. intros (l & Hl & Hy). revert Hl Hy. rewrite <-!list_elem_of_In.
  intros (f & -> & (e & He & Hh)%list_elem_of_omap)%list_elem_of_fmap Hy. unfold head_of in Hh.
  destruct (inUse e) eqn:Hu; [|done]. destruct (L !! entry_key e) as [[sec [|h hs]]|] eqn:E; [done| |done].
  injection Hh as <-. by exists e, sec, h, hs.
Qed.

Lemma keys_in t e : e ∈ t → inUse e = true → entry_key e ∈ keys t.
Proof. intros He Hu. apply list_elem_of_fmap. exists e. split; [done|]. by apply list_elem_of_filter; rewrite Hu. Qed.

(** Only names shorter than the field, whose terminator is set, can be read. *)
Definition terminated (L : layout) : Prop := ∀ k f, L !! k = Some f → (length k < FILE_NAME_MAX_LEN)%nat.

Lemma volume_entry_there s bm t dh L rest e : volume s bm t dh L rest → terminated L → e ∈ t → inUse e = true →
  ∃ sec h, entry_there (secs s) L e sec h.
Proof.
  intros Hv Hnames He Hu. pose proof (dir_map_entry t e (dw_keys _ (vo_dir _ _ _ _ _ _ Hv)) He Hu) as Hm.
  rewrite (vo_layout _ _ _ _ _ _ Hv), lookup_fmap in Hm. destruct (L !! entry_key e) as [[sec hs]|] eqn:EL; [|done].
  injection Hm as Hs. cbn in Hs. destruct (layout_sector _ _ _ _ _ _ _ _ _ Hv EL) as (Hr & _ & _ & _ & bs & h & hs' & -> & Hbs & Hh & Hf & _).
  exists sec, h. pose proof (Hnames _ _ EL) as Hl.
  assert (length (name e) = 21%nat) as Hn.
  { pose proof (vo_entries _ _ _ _ _ _ Hv) as Hok. rewrite Forall_forall in Hok. apply (Hok e He). }
  split; [unfold head_of; by rewrite Hu, EL|done|lia|by exists bs|done|].
  split; [|lia]. apply cstr_cut; [exact Hl|]. rewrite Hn. unfold FILE_NAME_MAX_LEN. lia.
Qed.

Lemma seen_nodup s bm t dh L rest es : volume s bm t dh L rest → NoDup (keys es) → NoDup (seen L es).
Proof.
  intros Hv. induction es as [|e es IH]; [constructor|]. rewrite keys_cons.
  assert (seen L (e :: es) = match head_of L e with Some f => head_sectors f | None => [] end ++ seen L es) as ->.
  { unfold seen, heads. cbn [omap list_omap]. by destruct (head_of L e). }
  destruct (head_of L e) as [[sec h]|] eqn:Hh.
  - unfold head_of in Hh. destruct (inUse e) eqn:Hu; [|done]. destruct (L !! entry_key e) as [[sec' [|h' hs]]|] eqn:EL; [done| |done].
    injection Hh as -> ->. intros [Hk Hn]%NoDup_cons.
    destruct (layout_sector _ _ _ _ _ _ _ _ _ Hv EL) as (_ & _ & _ & Hnd & _). cbn [footprint] in Hnd. rewrite app_comm_cons in Hnd.
    apply NoDup_app. split; [by apply NoDup_app in Hnd as [? _]|]. split; [|by apply IH].
    intros y Hy (e2 & sec2 & h2 & hs2 & He2 & Hu2 & EL2 & Hy2)%seen_inv. apply Hk.
    rewrite (fo_disjoint _ _ _ _ (vo_files _ _ _ _ _ _ Hv) _ _ _ _ y EL EL2); [by apply keys_in| |]; cbn [fst snd footprint];
      rewrite app_comm_cons; apply elem_of_app; by left.
  - destruct (inUse e); [|exact IH]. intros [_ Hn]%NoDup_cons. by apply IH.
Qed.

Lemma seen_used s bm t dh L rest es y : volume s bm t dh L rest → y ∈ seen L es →
  0 ≤ y < NUM_SECTORS ∧ Bitmap.bit bm y = true ∧ y ∉ system s dh ++ rest.
Proof.
  intros Hv (e & sec & h & hs & _ & _ & EL & Hy)%seen_inv. pose proof (vo_files _ _ _ _ _ _ Hv) as Hf.
  assert (y ∈ footprint sec (h :: hs)) as Hin by (cbn [footprint]; rewrite app_comm_cons; apply elem_of_app; by left).
  split; [by eapply (files_ok_range _ _ _ _ _ _ _ Hf EL)|by apply (fo_used _ _ _ _ Hf _ _ _ EL)].
Qed.

(** What [Check] comes across. *)
Definition looked_at (s : FileSystem) (dh : RawFileHeader) (L : layout) (t : list DirectoryEntry) : list Z :=
  FREE_MAP_SECTOR :: system s dh ++ seen L (take (Z.to_nat NUM_DIR_ENTRIES) t).

(** The headers of the two system files. *)
Lemma system_headers s bm t dh L rest : volume s bm t dh L rest → dir_sector s = DIRECTORY_SECTOR →
  file_wf (hdr (freeMapFile s)) ∧ file_wf dh ∧ numBytes (hdr (freeMapFile s)) = FREE_MAP_FILE_SIZE ∧
  numSectors (hdr (freeMapFile s)) = FREE_MAP_FILE_SIZE / SECTOR_SIZE ∧
  NoDup (DIRECTORY_SECTOR :: sectors_of dh ++ sectors_of (hdr (freeMapFile s))) ∧
  (FREE_MAP_SECTOR ∉ system s dh) ∧ Bitmap.bit bm FREE_MAP_SECTOR = true.
Proof.
  intros Hv Hroot. pose proof (vo_inv _ _ _ _ _ _ Hv) as [_ [Hm Hms _ _ _] _ Hd _ _ Hdis]. rewrite Hroot in Hdis.
  destruct (vo_rest _ _ _ _ _ _ Hv _ (vo_boot _ _ _ _ _ _ Hv)) as (_ & Hb0 & Hz). split_and!; try done.
  by rewrite (hw_count _ (fw_hdr _ Hm)), Hms.
Qed.

(** The two headers are marked on the map of [Check] after its two boot sectors. *)
Lemma check_headers b2 mh dh : Bitmap.wf b2 → numBits b2 = NUM_SECTORS →
  (∀ j, 0 ≤ j < NUM_SECTORS → Bitmap.bit b2 j = bool_decide (j < 2)) → file_wf mh → file_wf dh →
  NoDup (DIRECTORY_SECTOR :: sectors_of dh ++ sectors_of mh) →
  FREE_MAP_SECTOR ∉ DIRECTORY_SECTOR :: sectors_of dh ++ sectors_of mh →
  ∃ b3 b4, CheckFileHeader mh b2 = Ok (full mh, b3) ∧ CheckFileHeader dh b3 = Ok (full dh, b4) ∧
    Bitmap.wf b4 ∧ numBits b4 = NUM_SECTORS ∧ ∀ y, 0 ≤ y < NUM_SECTORS →
      Bitmap.bit b4 y = bool_decide (y ∈ FREE_MAP_SECTOR :: DIRECTORY_SECTOR :: sectors_of dh ++ sectors_of mh).
Proof.
  intros Hw2 Hn2 Hb2 Hm Hd [Hone Hnd]%NoDup_cons Hz. apply NoDup_app in Hnd as (_ & Hdis & _).
  assert (∀ y, y ∈ sectors_of dh ++ sectors_of mh → 0 ≤ y < NUM_SECTORS ∧ Bitmap.bit b2 y = false) as Hfree.
  { intros y Hy. assert (0 ≤ y < NUM_SECTORS) as Hr.
    { pose proof (fw_range _ Hm) as Hrm. pose proof (fw_range _ Hd) as Hrd. rewrite Forall_forall in Hrm, Hrd.
      apply elem_of_app in Hy as [Hy|Hy]; [by apply Hrd|by apply Hrm]. }
    split; [done|]. rewrite Hb2 by done. apply bool_decide_false. intros Hlt.
    assert (y = FREE_MAP_SECTOR ∨ y = DIRECTORY_SECTOR) as [->| ->] by (unfold FREE_MAP_SECTOR, DIRECTORY_SECTOR; lia); [|done].
    apply Hz. by right. }
  destruct (CheckFileHeader_ok b2 mh Hw2 Hn2 Hm) as (b3 & E3 & Hm3); [intros y Hy; apply Hfree, elem_of_app; by right|].
  destruct (CheckFileHeader_ok b3 dh) as (b4 & E4 & Hm4); [apply Hm3|rewrite (mk_bits _ _ _ Hm3); exact Hn2|exact Hd| |].
  { intros y Hy. destruct (Hfree y) as [Hr Hb]; [apply elem_of_app; by left|]. eapply marks_clear; [exact Hm3|done|done|].
    by apply Hdis. }
  exists b3, b4. split; [done|]. split; [done|]. split; [apply Hm4|].
  split; [by rewrite (mk_bits _ _ _ Hm4), (mk_bits _ _ _ Hm3)|]. intros y Hy.
  rewrite (mk_set _ _ _ Hm4), (mk_set _ _ _ Hm3), Hb2, <-!bool_decide_or by done. apply bool_decide_ext.
  rewrite !elem_of_cons, elem_of_app. unfold FREE_MAP_SECTOR, DIRECTORY_SECTOR. split; [|tauto || (intros [?|[?|?]]; lia || tauto)].
  intros [[?|?]|?]; [|tauto..]. destruct (decide (y = 0)); [tauto|]. right; left. lia.
Qed.

(** The files of the first ten entries are marked after them. *)
Lemma check_files s bm t dh L rest b : volume s bm t dh L rest → dir_sector s = DIRECTORY_SECTOR → terminated L →
  NUM_DIR_ENTRIES ≤ Z.of_nat (length t) → Bitmap.wf b → numBits b = NUM_SECTORS →
  (∀ y, 0 ≤ y < NUM_SECTORS → Bitmap.bit b y = bool_decide (y ∈ FREE_MAP_SECTOR :: system s dh)) →
  ∃ (s' : FileSystem) b', CheckDirectory t b s
      = Ok ((existsb (λ f, full f.2) (heads L (take (Z.to_nat NUM_DIR_ENTRIES) t)), b'), s') ∧ same_fs s s' ∧
    Bitmap.wf b' ∧ numBits b' = NUM_SECTORS ∧
    ∀ y, 0 ≤ y < NUM_SECTORS → Bitmap.bit b' y = bool_decide (y ∈ looked_at s dh L t).
Proof.
  intros Hv Hroot Hnames Hlen Hw Hn Hb. set (es := take (Z.to_nat NUM_DIR_ENTRIES) t).
  assert (length es = span 0 NUM_DIR_ENTRIES) as Hl.
  { unfold es, span. rewrite length_take. unfold NUM_DIR_ENTRIES in *. lia. }
  assert (∀ e, e ∈ es → e ∈ t) as Hin by (intros e He; unfold es in He; by apply elem_of_take in He as (i & ?%list_elem_of_lookup_2 & _)).
  assert (NoDup (keys es)) as Hk.
  { pose proof (dw_keys _ (vo_dir _ _ _ _ _ _ Hv)) as Hk. rewrite <-(take_drop (Z.to_nat NUM_DIR_ENTRIES) t), keys_app in Hk.
    by apply NoDup_app in Hk as [? _]. }
  destruct (CheckDirectory_loop_ok L t es 0 s false [] b) as (s' & b' & E & Hs & Hm).
  - apply (vo_inv _ _ _ _ _ _ Hv).
  - intros j e Hj. unfold es in Hj. apply lookup_take_Some in Hj as [Hj _]. apply rd_ok; [lia|]. by rewrite Z.add_0_l, Nat2Z.id.
  - intros e He Hu. eapply volume_entry_there; [exact Hv|exact Hnames|by apply Hin|exact Hu].
  - exact Hk.
  - by eapply seen_nodup.
  - exact Hw.
  - exact Hn.
  - intros y Hy. destruct (seen_used _ _ _ _ _ _ _ _ Hv Hy) as (Hr & _ & [Hys Hyr]%not_elem_of_app). split; [done|].
    rewrite Hb by done. apply bool_decide_false. intros [->|?]%elem_of_cons; [|done]. apply Hyr. apply (vo_boot _ _ _ _ _ _ Hv).
  - rewrite Hl in E. unfold CheckDirectory. rewrite (bind_ok _ _ _ _ _ E). exists s', b'. split; [done|]. split; [done|].
    split; [apply Hm|]. split; [rewrite (mk_bits _ _ _ Hm); exact Hn|]. intros y Hy.
    rewrite (mk_set _ _ _ Hm), Hb, <-bool_decide_or by done. apply bool_decide_ext. unfold looked_at. fold es.
    rewrite !elem_of_cons, elem_of_app. tauto.
Qed.

(** The answer, from the maps compared. *)
Lemma answer_ok s bm t dh L rest b e : volume s bm t dh L rest → Bitmap.bit bm FREE_MAP_SECTOR = true →
  (e = false ↔ ∀ y, 0 ≤ y < NUM_SECTORS → Bitmap.bit bm y = Bitmap.bit b y) →
  (∀ y, 0 ≤ y < NUM_SECTORS → Bitmap.bit b y = bool_decide (y ∈ looked_at s dh L t)) →
  negb (false || full dh || existsb (λ f, full f.2) (heads L (take (Z.to_nat NUM_DIR_ENTRIES) t)) || e) = true ↔
    numSectors dh ≠ NUM_DIRECT ∧
    (∀ sec h, (sec, h) ∈ heads L (take (Z.to_nat NUM_DIR_ENTRIES) t) → numSectors h ≠ NUM_DIRECT) ∧
    ∀ y, 0 ≤ y < NUM_SECTORS → Bitmap.bit bm y = true → y ∈ looked_at s dh L t.
Proof.
  intros Hv Hzb He Hb.
  assert (existsb (λ f, full f.2) (heads L (take (Z.to_nat NUM_DIR_ENTRIES) t)) = false ↔
    ∀ sec h, (sec, h) ∈ heads L (take (Z.to_nat NUM_DIR_ENTRIES) t) → numSectors h ≠ NUM_DIRECT) as Hex.
  { split.
    - intros Hex sec h Hin Hfull. apply not_true_iff_false in Hex. apply Hex, existsb_exists. exists (sec, h).
      split; [by apply list_elem_of_In|by apply bool_decide_true].
    - intros Hall. apply not_true_iff_false. intros ([sec h] & Hin & Hfull%bool_decide_eq_true)%existsb_exists.
      apply list_elem_of_In in Hin. by apply (Hall sec h). }
  assert (full dh = false ↔ numSectors dh ≠ NUM_DIRECT) as Hfd by apply bool_decide_eq_false.
  cbn [orb]. rewrite negb_true_iff, !orb_false_iff, Hfd, Hex, He.
  enough ((∀ y, 0 ≤ y < NUM_SECTORS → Bitmap.bit bm y = Bitmap.bit b y) ↔
    ∀ y, 0 ≤ y < NUM_SECTORS → Bitmap.bit bm y = true → y ∈ looked_at s dh L t) by tauto.
  split.
  - intros Hall y Hy Hset. rewrite (Hall y Hy), Hb in Hset by done. by apply bool_decide_eq_true in Hset.
  - intros Hall y Hy. rewrite Hb by done. destruct (Bitmap.bit bm y) eqn:Ey; [by rewrite bool_decide_true by auto|].
    symmetry. apply bool_decide_false. unfold looked_at. rewrite elem_of_cons, elem_of_app. intros [->|[Hsys|Hseen]].
    + congruence.
    + destruct (system_in_use _ _ _ _ _ _ _ Hv Hsys) as [_ ?]. congruence.
    + destruct (seen_used _ _ _ _ _ _ _ _ Hv Hseen) as (_ & ? & _). congruence.
Qed.

Lemma Check_ok s bm t dh L rest : volume s bm t dh L rest → dir_sector s = DIRECTORY_SECTOR → terminated L →
  NUM_DIR_ENTRIES ≤ Z.of_nat (length t) →
  ∃ b s', Check uninit s = Ok (b, s') ∧ same_fs s s' ∧
    (b = true ↔
       numSectors dh ≠ NUM_DIRECT ∧
       (∀ sec h, (sec, h) ∈ heads L (take (Z.to_nat NUM_DIR_ENTRIES) t) → numSectors h ≠ NUM_DIRECT) ∧
       ∀ y, 0 ≤ y < NUM_SECTORS → Bitmap.bit bm y = true → y ∈ looked_at s dh L t).
Proof.
  intros Hv Hroot Hnames Hlen. pose proof (vo_inv _ _ _ _ _ _ Hv) as [Hx Hmap (bs1 & Hbs1 & Hh1) _ _ _ _].
  destruct (system_headers _ _ _ _ _ _ Hv Hroot) as (Hmf & Hdf & Hmb & Hms & Hnd & Hz & Hzb). rewrite Hroot in Hbs1.
  destruct (boot_map uninit uninit_bytes) as (b0 & b1 & b2 & E0 & E1 & E2 & Hw2 & Hn2 & _ & Hb2).
  unfold Check. rewrite (bind_lift _ _ _ _ E0), (bind_lift _ _ _ _ E1), (bind_lift _ _ _ _ E2). clear E0 E1 E2.
  destruct (FetchFrom_ok (fs_disk s) FREE_MAP_SECTOR Hx) as (v & x1 & EF & Hbs & Hx1 & Hs1); [by split|].
  destruct (vo_header _ _ _ _ _ _ Hv) as (_ & bs0 & Hbs0 & Hh0). unfold secs in Hbs0. rewrite Hbs0 in Hbs. injection Hbs as <-.
  rewrite (bind_disk _ _ _ _ _ EF), Hh0. clear EF. cbn zeta. rewrite Hmb, Hms, !bool_decide_true by done. cbn [CheckForError negb orb].
  unfold system in Hz. rewrite Hroot in Hz.
  destruct (check_headers b2 (hdr (freeMapFile s)) dh Hw2 Hn2 Hb2 Hmf Hdf Hnd Hz) as (b3 & b4 & E3 & E4 & Hw4 & Hn4 & Hb4).
  rewrite (bind_lift _ _ _ _ E3). clear E3.
  destruct (FetchFrom_ok x1 DIRECTORY_SECTOR Hx1) as (v & x2 & EF & Hbs & Hx2 & Hs2); [by split|].
  rewrite Hs1, Hbs1 in Hbs. injection Hbs as <-. erewrite bind_disk by exact EF. rewrite Hh1, (bind_lift _ _ _ _ E4). clear EF E4.
  assert (same_fs s (with_disk (with_disk s x1) x2)) as Hsame by (split; try done; exact (eq_trans Hs2 Hs1)).
  destruct (volume_same _ _ _ _ _ _ _ Hv Hsame) as [Hv2 _].
  destruct (fetch_freeMap_ok uninit uninit_bytes (with_disk (with_disk s x1) x2) bm Hx2 (fi_map _ _ _ _ _ (vo_inv _ _ _ _ _ _ Hv2))) as (s3 & E & Hsame3).
  rewrite (bind_ok _ _ _ _ _ E). clear E. destruct (volume_same _ _ _ _ _ _ _ Hv2 Hsame3) as [Hv3 _].
  destruct (current_dir_ok uninit uninit_length uninit_bytes _ _ _ _ _ _ Hv3) as (s4 & E & Hsame4).
  rewrite (bind_ok _ _ _ _ _ E). clear E. destruct (volume_same _ _ _ _ _ _ _ Hv3 Hsame4) as [Hv4 _].
  pose proof (same_fs_trans _ _ _ (same_fs_trans _ _ _ Hsame Hsame3) Hsame4) as Hs4.
  assert (system s4 dh = system s dh) as Esys by (unfold system; by rewrite (sf_dir _ _ Hs4), (sf_map _ _ Hs4)).
  destruct (check_files s4 bm t dh L rest b4 Hv4) as (s5 & b5 & E & Hs5 & Hw5 & Hn5 & Hb5); try done.
  { by rewrite (sf_dir _ _ Hs4). }
  { intros y Hy. rewrite Hb4, Esys by done. unfold system. by rewrite Hroot. }
  rewrite (bind_ok _ _ _ _ _ E). clear E.
  destruct (CheckBitmaps_ok bm b5) as (e & E & He); [apply Hmap|done|apply Hmap|done|]. rewrite (bind_lift _ _ _ _ E).
  eexists _, s5. split; [reflexivity|]. split; [by eapply same_fs_trans|].
  assert (full (hdr (freeMapFile s)) = false) as -> by (unfold full; by rewrite Hms).
  eapply answer_ok; [exact Hv|exact Hzb|exact He|]. intros y Hy. rewrite Hb5 by done. unfold looked_at. by rewrite Esys.
Qed.

(** C11: [Check] on any volume with the root directory current fails no assertion,
    changes nothing, and answers [true] exactly when the header of the directory
    and the first headers of the files of the first ten entries are not full, and
    every sector in use is one of those it looked at: the two headers of the
    system and their data, and these files' first headers and data. *)
Theorem Check_exact s bm t dh L rest (Hv : volume s bm t dh L rest) (Hroot : dir_sector s = DIRECTORY_SECTOR)
  (Hnames : terminated L) (Hlen : NUM_DIR_ENTRIES ≤ Z.of_nat (length t)) :
  ∃ b s', Check uninit s = Ok (b, s') ∧ same_fs s s' ∧
    (b = true ↔
       numSectors dh ≠ NUM_DIRECT ∧
       (∀ sec h, (sec, h) ∈ heads L (take (Z.to_nat NUM_DIR_ENTRIES) t) → numSectors h ≠ NUM_DIRECT) ∧
       ∀ y, 0 ≤ y < NUM_SECTORS → Bitmap.bit bm y = true → y ∈ looked_at s dh L t).
Proof. exact (Check_ok s bm t dh L rest Hv Hroot Hnames Hlen). Qed.
End Checking.

(** The example volume has no lost sector. *)
Lemma Check_exact_witness : ∃ s', Check demo_uninit demo_fs = Ok (true, s') ∧ same_fs demo_fs s'.
Proof.
  destruct (Check_exact demo_uninit demo_uninit_length demo_uninit_bytes demo_fs demo_bits demo_dir demo_dir_hdr demo_layout [0]
    demo_volume eq_refl) as (b & s' & E & Hs & Hb).
  - intros k f Hk. unfold demo_layout in Hk. apply lookup_singleton_Some in Hk as [<- _]. cbn. unfold FILE_NAME_MAX_LEN. lia.
  - cbn. unfold NUM_DIR_ENTRIES. lia.
  - exists s'. split; [|exact Hs]. replace true with b; [exact E|]. apply Hb. split; [discriminate|]. split.
    + intros sec h Hin. change (heads demo_layout (take (Z.to_nat NUM_DIR_ENTRIES) demo_dir)) with [(6, demo_file_hdr)] in Hin.
      apply list_elem_of_singleton in Hin. injection Hin as -> ->. discriminate.
    + intros y Hy Hset. assert (forallb (λ y, negb (Bitmap.bit demo_bits y) || bool_decide
        (y ∈ looked_at demo_fs demo_dir_hdr demo_layout demo_dir)) (seqZ 0 NUM_SECTORS) = true) as Hall by (vm_compute; reflexivity).
      rewrite forallb_forall in Hall. specialize (Hall y). rewrite <-list_elem_of_In, elem_of_seqZ, Hset in Hall.
      specialize (Hall ltac:(lia)). cbn [negb orb] in Hall. by apply bool_decide_eq_true in Hall.
Defined.
