(* ===== verification/Sessions.v ===== *)
(** * Runs of [nachos]: the disk is a persistent map from names to files

    The commands of [Commands] over the invariant of [Volume].  First each
    command on its own, then a run of [nachos], then any number of runs after the
    disk was formatted: what they print and what they leave on the disk is what a
    finite map from names to bytes gives, run after run.  The runs are those in
    which files fit one header (3712 bytes), the directory has at most 116 files,
    and the disk has room; the room is counted on the map ([cost]).  As the count
    is exact, no sector is ever lost, and [Check] of [Checking] succeeds. *)

From S2P Require Import Prelude Bitmap Disk FileHeader OpenFile ReadWrite Directory FileSystem Volume Boot Checking Commands.
From stdpp Require Import base option list gmap fin_maps numbers strings tactics.
From stdpp Require Import list.
Open Scope Z_scope.

(** ** Room *)

(** The sectors of the files of a map: one header each, and their data. *)
Definition sectors_for (C : list Z) : Z := 1 + DivRoundUp (Z.of_nat (length C)) SECTOR_SIZE.
Definition cost (m : gmap str (list Z)) : Z := map_fold (λ _ C acc, sectors_for C + acc) 0 m.

Lemma cost_empty : cost ∅ = 0.
Proof. apply map_fold_empty. Qed.
Lemma cost_insert m k C : m !! k = None → cost (<[k := C]> m) = sectors_for C + cost m.
Proof. intros Hk. apply (map_fold_insert_L (λ _ C acc, sectors_for C + acc)); [lia|done]. Qed.
Lemma cost_delete m k C : m !! k = Some C → cost m = sectors_for C + cost (delete k m).
Proof. intros Hk. apply (map_fold_delete_L (λ _ C acc, sectors_for C + acc)); [lia|done]. Qed.
Lemma cost_update m k C C' : m !! k = Some C → cost (<[k := C']> m) = cost m - sectors_for C + sectors_for C'.
Proof.
  intros Hk. rewrite (cost_delete m k C Hk), <-insert_delete_eq, cost_insert by apply lookup_delete_eq. lia.
Qed.
Lemma sectors_for_pos C : 1 ≤ sectors_for C.
Proof. unfold sectors_for, SECTOR_SIZE. destruct (DivRoundUp_spec (Z.of_nat (length C)) 128); lia. Qed.
Lemma cost_nonneg m : 0 ≤ cost m.
Proof.
  induction m as [|k C m Hk IH] using map_ind; [by rewrite cost_empty|]. rewrite cost_insert by done.
  pose proof (sectors_for_pos C). lia.
Qed.

(** The cost, name by name. *)
Definition keys_cost (m : gmap str (list Z)) (ks : list str) : Z :=
  foldr (λ k acc, sectors_for (default [] (m !! k)) + acc) 0 ks.

Lemma keys_cost_ext m m' ks : (∀ k, k ∈ ks → m !! k = m' !! k) → keys_cost m ks = keys_cost m' ks.
Proof.
  induction ks as [|k ks IH]; [done|]. intros Hm. cbn. f_equal; [by rewrite (Hm k) by left|]. apply IH. intros k' Hk. apply Hm. by right.
Qed.

Lemma cost_keys ks : ∀ m, NoDup ks → (∀ k, is_Some (m !! k) ↔ k ∈ ks) → cost m = keys_cost m ks.
Proof.
  induction ks as [|k ks IH]; intros m Hn Hm.
  - assert (m = ∅) as ->; [|apply cost_empty]. apply map_empty. intros k. apply eq_None_not_Some. rewrite Hm. by apply not_elem_of_nil.
  - apply NoDup_cons in Hn as [Hk Hn]. destruct (proj2 (Hm k)) as [C HC]; [by left|]. rewrite (cost_delete _ _ _ HC).
    rewrite (IH (delete k m) Hn). 2: { intros k'. rewrite lookup_delete_is_Some, Hm, elem_of_cons. naive_solver. }
    cbn. rewrite HC. f_equal. apply keys_cost_ext. intros k' Hk'. apply lookup_delete_ne. by intros ->.
Qed.

(** Every sector in use is in a list without repetitions that is long enough. *)
Lemma count_set f n : 0 ≤ n → Z.of_nat (clear_upto f n) + Z.of_nat (length (filter (λ i, f i = true) (seqZ 0 n))) = n.
Proof.
  revert n. apply (natlike_ind (λ n, _ = n)); [done|]. intros n Hn IH. change (Z.succ n) with (n + 1).
  rewrite clear_upto_succ, seqZ_app by lia. assert (seqZ (0 + n) 1 = [n]) as -> by (cbn; f_equal; lia).
  rewrite filter_app, length_app, filter_cons, filter_nil. destruct (f n) eqn:E; [rewrite decide_True by done|rewrite decide_False by done]; cbn [length]; lia.
Qed.

Lemma all_in_use bm l : numBits bm = NUM_SECTORS → NoDup l → (∀ y, y ∈ l → 0 ≤ y < NUM_SECTORS ∧ Bitmap.bit bm y = true) →
  Z.of_nat (length l) + Z.of_nat (fm_clear bm) = NUM_SECTORS → ∀ y, 0 ≤ y < NUM_SECTORS → Bitmap.bit bm y = true → y ∈ l.
Proof.
  intros Hn Hnd Hl Hlen y Hy Hset. set (marked := filter (λ i, Bitmap.bit bm i = true) (seqZ 0 NUM_SECTORS)).
  assert (∀ x, x ∈ marked ↔ 0 ≤ x < NUM_SECTORS ∧ Bitmap.bit bm x = true) as Hmark.
  { intros x. unfold marked. rewrite list_elem_of_filter, elem_of_seqZ. rewrite Z.add_0_l. tauto. }
  assert (l ≡ₚ marked) as Hp.
  { apply submseteq_length_Permutation.
    - apply NoDup_submseteq; [done|]. intros x Hx. apply Hmark. by apply Hl.
    - pose proof (count_set (Bitmap.bit bm) NUM_SECTORS ltac:(by vm_compute)) as Hc. fold marked in Hc.
      change (fm_clear bm) with (clear_upto (Bitmap.bit bm) (numBits bm)) in Hlen. rewrite Hn in Hlen. lia. }
  rewrite Hp. by apply Hmark.
Qed.

(** Sectors given back are free again. *)
Lemma freed_clear bm bm' l : freed bm bm' l → numBits bm = NUM_SECTORS → NoDup l →
  Forall (λ y, 0 ≤ y < NUM_SECTORS ∧ Bitmap.bit bm y = true) l → fm_clear bm' = (fm_clear bm + length l)%nat.
Proof.
  intros (_ & Hn' & Hb) Hn Hnd Hl. cbn. rewrite Hn, Hn'.
  rewrite (clear_upto_ext (Bitmap.bit bm') (λ j, Bitmap.bit bm j && negb (bool_decide (j ∈ l)))) by done.
  clear Hb Hn' bm'. revert Hl. induction Hnd as [|y l Hy Hnd IH]; intros Hl.
  - cbn. rewrite Nat.add_0_r. apply clear_upto_ext. intros j _. by rewrite andb_true_r.
  - apply Forall_cons in Hl as [[Hr Hyb] Hl]. specialize (IH Hl).
    rewrite (clear_upto_flip _ (λ j, Bitmap.bit bm j && negb (bool_decide (j ∈ l))) y); [cbn; lia|done| | |].
    + rewrite (bool_decide_true (y ∈ _)) by left. apply andb_false_r.
    + by rewrite Hyb, (bool_decide_false (y ∈ l)).
    + intros j _ Hj. do 2 f_equal. apply bool_decide_ext. rewrite elem_of_cons. naive_solver.
Qed.

Section Sessions.
Context {S : Type} `{RestartSpec S}.
Context (uninit : Z → list Z).
Hypothesis uninit_length : ∀ n, 0 ≤ n → length (uninit n) = Z.to_nat n.
Hypothesis uninit_bytes : ∀ n, Forall is_byte (uninit n).
(** How many names the directory may have; with ten its table never grows.  The
    entry of a table that grows keeps the kind that is in memory, which the code
    does not set. *)
Context (N : nat).
Hypothesis table_bound : (Z.to_nat NUM_DIR_ENTRIES ≤ N ≤ 116)%nat.
Hypothesis uninit_kind : (Z.to_nat NUM_DIR_ENTRIES < N)%nat → isDirectory (entry_of_bytes (uninit ENTRY_SIZE)) = false.
Context (running : Z → bool) (me : Z) (host : gmap str (list Z)).
Abbreviation FileSystem := (@FileSystem S).
#[local] Existing Instances M_ret M_bind.

(** ** The invariant of a run *)

(** Nobody has the file open, or removes it. *)
Definition idle (e : OpenFileEntry) : Prop :=
  count e = 0 ∧ removing e = false ∧ removed e = false ∧ removeLock e ≠ LDeleted ∧ closeLock e ≠ LDeleted.

Record kept (s : FileSystem) (bm : Bitmap) (t : list DirectoryEntry) (dh : RawFileHeader) (L : layout) : Prop := {
  kp_volume : volume s bm t dh L [FREE_MAP_SECTOR];
  kp_plain : plain t;
  kp_table : (Z.to_nat NUM_DIR_ENTRIES ≤ length t ≤ N)%nat;
  kp_single k f : L !! k = Some f → ∃ h, f.2 = [h];
  kp_count : Z.of_nat (fm_clear bm) + cost (view s L) + numSectors dh = 1021
}.

Record live (s : FileSystem) (bm : Bitmap) (t : list DirectoryEntry) (dh : RawFileHeader) (L : layout) : Prop := {
  lv_kept : kept s bm t dh L;
  lv_idle k f e : L !! k = Some f → rd (openFilesTable s) f.1 = Ok e → idle e;
  lv_boot sec e : sec ∈ [FREE_MAP_SECTOR; DIRECTORY_SECTOR] → rd (openFilesTable s) sec = Ok e → closeLock e = LLive
}.

Lemma kept_dir s bm t dh L : kept s bm t dh L → dir_sector s = DIRECTORY_SECTOR.
Proof.
  intros Hk. destruct (vo_root _ _ _ _ _ _ (kp_volume _ _ _ _ _ Hk)) as [?|E%list_elem_of_singleton]; [done|discriminate].
Qed.

(** The directory has as many entries in use as there are files. *)
Lemma view_size s bm t dh L rest : volume s bm t dh L rest → (size (view s L) < N)%nat →
  (length t < N)%nat ∨ forallb inUse t = false.
Proof.
  intros Hv Hs. destruct (forallb inUse t) eqn:E; [|by right]. left.
  pose proof (full_size t E (dw_keys _ (vo_dir _ _ _ _ _ _ Hv))) as Hf. rewrite (vo_layout _ _ _ _ _ _ Hv) in Hf.
  unfold view, bytes_of in Hs. rewrite !map_size_fmap in *. lia.
Qed.

Lemma view_lookup s bm t dh L k : kept s bm t dh L →
  (L !! k = None ∧ view s L !! k = None) ∨
  ∃ sec h, L !! k = Some (sec, [h]) ∧ view s L !! k = Some (contents h (secs s)) ∧ file_wf h ∧
    0 < sec < NUM_SECTORS ∧ sec ≠ dir_sector s ∧
    Z.of_nat (length (contents h (secs s))) = numBytes h ∧ sectors_for (contents h (secs s)) = 1 + numSectors h.
Proof.
  intros Hk. pose proof (kp_volume _ _ _ _ _ Hk) as Hv. unfold view, bytes_of. rewrite lookup_fmap.
  destruct (L !! k) as [[sec hs]|] eqn:E; [|by left]. right.
  destruct (kp_single _ _ _ _ _ Hk _ _ E) as [h Hh]. cbn in Hh. subst hs. exists sec, h.
  destruct (layout_sector _ _ _ _ _ _ _ _ _ Hv E) as (Hs & Hne & _ & _ & bs & h0 & hs0 & [= <- <-] & _ & _ & Hwf & _).
  pose proof (contents_length h _ (fi_ok _ _ _ _ _ (vo_inv _ _ _ _ _ _ Hv)) Hwf) as Hl.
  split; [done|]. split; [|split; [done|split; [done|split; [done|split; [exact Hl|]]]]].
  - cbn. by rewrite app_nil_r.
  - unfold sectors_for, secs. rewrite Hl. by rewrite (hw_count _ (fw_hdr _ Hwf)).
Qed.

(** Two names are on different sectors. *)
Lemma layout_disjoint s bm t dh L rest k1 k2 f1 f2 : volume s bm t dh L rest → L !! k1 = Some f1 → L !! k2 = Some f2 →
  f1.1 = f2.1 → k1 = k2.
Proof.
  intros Hv Hk1 Hk2 E. pose proof (vo_files _ _ _ _ _ _ Hv) as Hf.
  destruct (fo_chain _ _ _ _ Hf _ _ Hk1) as (Hn1 & _). destruct (fo_chain _ _ _ _ Hf _ _ Hk2) as (Hn2 & _).
  apply (fo_disjoint _ _ _ _ Hf k1 k2 f1 f2 f1.1 Hk1 Hk2).
  - destruct f1 as [? [|]]; [done|]. by left.
  - rewrite E. destruct f2 as [? [|]]; [done|]. by left.
Qed.

(** ** [Create] *)
Lemma live_Create s bm t dh L nm : live s bm t dh L → c_string nm → head nm ≠ Some SLASH →
  view s L !! key nm = None → (size (view s L) < N)%nat → cost (view s L) ≤ 991 →
  ∃ s' bm' t' dh' sec h, Create uninit running nm s = Ok (true, s') ∧ live s' bm' t' dh' (<[key nm := (sec, [h])]> L) ∧
    view s' (<[key nm := (sec, [h])]> L) = <[key nm := []]> (view s L).
Proof.
  intros [Hk Hidle Hboot] Hnm Hrel Hnone Hsize Hcost. pose proof (kp_volume _ _ _ _ _ Hk) as Hv.
  destruct (view_lookup _ _ _ _ _ (key nm) Hk) as [[EL _]|(? & ? & _ & E & _)]; [|congruence].
  pose proof (view_size _ _ _ _ _ _ Hv Hsize) as HlenN. pose proof (kp_table _ _ _ _ _ Hk) as Htable.
  assert ((length t < 116)%nat ∨ forallb inUse t = false) as Hlen by (destruct HlenN as [?|?]; [left; lia|by right]). pose proof (vo_range _ _ _ _ _ _ Hv) as Hrange.
  pose proof (fi_wf _ _ _ _ _ (vo_inv _ _ _ _ _ _ Hv)) as Hdw. pose proof (kp_count _ _ _ _ _ Hk) as Hcount.
  assert (numSectors dh ≤ 29) as H29 by (rewrite (hw_count _ (fw_hdr _ Hdw));
    apply (count_bounds _ (hw_bytes _ (fw_hdr _ Hdw)))).
  assert (dir_need t dh + numSectors dh ≤ 29) as Hneed.
  { unfold dir_need. destruct (forallb inUse t) eqn:Ef.
    - destruct Hlen as [Hlen|?]; [|done].
      pose proof (DivRoundUp_mono (32 * (Z.of_nat (length t) + 1)) 3712). change (DivRoundUp 3712 SECTOR_SIZE) with 29 in *. lia.
    - lia. }
  pose proof (Create_file_ok uninit uninit_length uninit_bytes running s bm t dh L _ nm Hv Hnm Hrel (λ _, Hlen)) as HC.
  rewrite EL, decide_False, decide_True in HC by lia.
  destruct HC as (s' & bm' & t' & dh' & sec & h & E & Hv' & Hfree & Hview & _ & Hp & Hcl & Hns & r & Htbl).
  exists s', bm', t', dh', sec, h. split; [exact E|]. split; [|exact Hview].
  destruct (free_sector _ _ _ _ _ _ sec Hv Hfree) as (Hsys & Hrest & Hfiles).
  destruct (layout_sector _ _ _ _ _ _ (key nm) sec [h] Hv') as (Hsec & _); [apply lookup_insert_eq|].
  pose proof (vo_open _ _ _ _ _ _ Hv) as Hopen.
  assert (Hother : ∀ j e, j ≠ sec → rd (openFilesTable s') j = Ok e → rd (openFilesTable s) j = Ok e).
  { intros j e Hj He. rewrite Htbl in He. apply other_entry in He; [done|rewrite Hopen; lia|done]. }
  split; [split|..].
  - exact Hv'.
  - apply (ea_plain _ _ _ _ Hp); [done| |apply Hk]. intros Hf. apply uninit_kind. destruct HlenN as [?|?]; [lia|congruence].
  - rewrite (ea_length _ _ _ _ Hp). destruct HlenN as [?|Hfa]; [destruct (forallb inUse t); lia|by rewrite Hfa].
  - intros k f E'. apply lookup_insert_Some in E' as [[_ <-]|[_ E']]; [by exists h|by apply (kp_single _ _ _ _ _ Hk k)].
  - rewrite Hview, cost_insert by done. change (sectors_for []) with 1. lia.
  - intros k f e E' He. apply lookup_insert_Some in E' as [[_ <-]|[_ E']].
    + cbn [fst] in He. rewrite Htbl in He. rewrite (rd_wr_eq _ _ _ _ (wr_ok (openFilesTable s) sec (Volume.fresh r) ltac:(lia))) in He.
      injection He as <-. by split_and!.
    + eapply Hidle; [exact E'|]. apply Hother; [|exact He]. intros Ef. apply (Hfiles k f E').
      destruct (kp_single _ _ _ _ _ Hk k f E') as [h' Hh']. rewrite Hh', Ef. by left.
  - intros j e Hj He. apply (Hboot j); [exact Hj|]. apply Hother; [|exact He]. intros ->.
    apply elem_of_cons in Hj as [Ej|Ej%list_elem_of_singleton].
    + apply Hrest. rewrite Ej. by left.
    + apply Hsys. rewrite Ej, <-(kept_dir _ _ _ _ _ Hk). by left.
Qed.

(** ** Opening and closing *)
Lemma live_Open s bm t dh L nm sec h : live s bm t dh L → c_string nm → L !! key nm = Some (sec, [h]) →
  ∃ e s', rd (openFilesTable s) sec = Ok e ∧ idle e ∧ FileSystem.Open uninit nm s = Ok (Some (mkOpenFile h sec 0 sec), s') ∧
    openFilesTable s' = <[Z.to_nat sec := entry_open e]> (openFilesTable s) ∧ kept s' bm t dh L ∧ view s' L = view s L.
Proof.
  intros [Hk Hidle _] Hnm HL. pose proof (kp_volume _ _ _ _ _ Hk) as Hv.
  pose proof (Open_file_ok uninit uninit_length uninit_bytes s bm t dh L _ nm Hv Hnm) as HO. rewrite HL in HO.
  destruct HO as (e & s' & He & Hv' & Hview & HO). pose proof (Hidle _ _ _ HL He) as Hi. rewrite (proj1 (proj2 Hi)) in HO.
  destruct HO as (h' & [= <-] & EO & Htbl & _). exists e, s'. split_and!; try done.
  split; [done|apply Hk|apply Hk|apply Hk|]. rewrite Hview. apply Hk.
Qed.

Lemma entry_open_idle e : idle e → writeLock (entry_open e) = LLive ∧
  ∃ e', entry_close running (entry_open e) = Ok (e', None) ∧ idle e'.
Proof.
  clear uninit_kind table_bound N.
  intros (Hc & Hr & Hd & Hrl & Hcl). unfold entry_open. rewrite bool_decide_true by done. cbn [writeLock]. split; [done|].
  unfold entry_close. cbn [closeLock count removing removed writeLock removeLock removerSpaceId]. rewrite Hc.
  change (s32 (0 + 1)) with 1.
  assert (use_lock match closeLock e with LNull => LLive | p => p end = Ok tt) as -> by (by destruct (closeLock e)).
  cbn [mbind result_bind]. rewrite bool_decide_true by lia. cbn [count]. change (1 - 1) with 0.
  rewrite bool_decide_true by done. cbn [removing]. rewrite Hr. eexists. split; [done|].
  split_and!; try done; cbn; [by destruct (removeLock e)|by destruct (closeLock e)].
Qed.

Lemma close_file_ok (s : FileSystem) f e e' : rd (openFilesTable s) (sector f) = Ok e → entry_close running e = Ok (e', None) →
  close_file running f s = Ok (tt, with_table s (<[Z.to_nat (sector f) := e']> (openFilesTable s))).
Proof.
  clear uninit_kind table_bound N.
  intros He Hc. unfold close_file. rewrite bind_get. unfold close_OpenFile. rewrite He. cbn [mbind result_bind].
  rewrite Hc. cbn [mbind result_bind]. pose proof (rd_inv _ _ _ He) as [Hr Hl]. apply lookup_lt_Some in Hl.
  erewrite bind_lift by (rewrite wr_ok by lia; reflexivity). unfold mbind, M_bind. cbn. unfold FileSystem.send. cbn. by rewrite app_nil_r.
Qed.

(** A file that was opened in [s0] is closed. *)
Lemma live_close s0 bm0 t0 dh0 L0 s bm t dh L sec k h0 e f :
  live s0 bm0 t0 dh0 L0 → rd (openFilesTable s0) sec = Ok e → idle e → kept s bm t dh L →
  openFilesTable s = <[Z.to_nat sec := entry_open e]> (openFilesTable s0) →
  (∀ k' f', L !! k' = Some f' → ∃ f0, L0 !! k' = Some f0 ∧ f0.1 = f'.1) → L0 !! k = Some (sec, [h0]) →
  sector f = sec →
  ∃ s', close_file running f s = Ok (tt, s') ∧ live s' bm t dh L ∧ view s' L = view s L.
Proof.
  intros [Hk0 Hidle Hboot] He Hi Hk Htbl HL HLk0 Hf.
  destruct (layout_sector _ _ _ _ _ _ _ _ _ (kp_volume _ _ _ _ _ Hk0) HLk0) as (Hsec & Hne & _).
  pose proof (vo_open _ _ _ _ _ _ (kp_volume _ _ _ _ _ Hk0)) as Hlen.
  destruct (entry_open_idle e Hi) as (_ & e' & Ec & Hi').
  assert (rd (openFilesTable s) (sector f) = Ok (entry_open e)) as Hrd.
  { rewrite Htbl, Hf. apply (rd_wr_eq (openFilesTable s0)), wr_ok. lia. }
  rewrite (close_file_ok s f _ _ Hrd Ec). eexists. split; [done|].
  assert (sec ≠ dir_sector s) as Hne' by (rewrite (kept_dir _ _ _ _ _ Hk), <-(kept_dir _ _ _ _ _ Hk0); done).
  destruct (volume_entry s bm t dh L _ sec e' (kp_volume _ _ _ _ _ Hk) ltac:(lia) Hne') as [Hv Hview]. rewrite Hf.
  split; [|exact Hview].
  assert (Hother : ∀ j e1, j ≠ sec → rd (<[Z.to_nat sec := e']> (openFilesTable s)) j = Ok e1 → rd (openFilesTable s0) j = Ok e1).
  { intros j e1 Hj He1. rewrite Htbl, list_insert_insert_eq in He1. apply other_entry in He1; [done|lia|done]. }
  split; [split|..].
  - exact Hv.
  - apply Hk.
  - apply Hk.
  - apply Hk.
  - rewrite Hview. apply Hk.
  - intros k' f' e1 HL' He1. destruct (decide (f'.1 = sec)) as [Ef|Hnf].
    + rewrite Ef in He1. cbn [openFilesTable with_table] in He1. rewrite Htbl, list_insert_insert_eq in He1.
      rewrite (rd_wr_eq _ _ _ _ (wr_ok (openFilesTable s0) sec e' ltac:(lia))) in He1. by injection He1 as <-.
    + destruct (HL _ _ HL') as (f0 & HL0 & E0). apply (Hidle k' f0); [done|]. rewrite E0. by apply Hother.
  - intros j e1 Hj He1. apply (Hboot j); [done|]. apply Hother; [|done]. intros ->.
    rewrite (kept_dir _ _ _ _ _ Hk0) in Hne. rewrite !elem_of_cons, elem_of_nil in Hj. unfold FREE_MAP_SECTOR in Hj. destruct Hj as [->|[?|[]]]; [lia|done].
Qed.

(** ** [Copy] *)
Lemma file_Write_ok (s : FileSystem) f from n f' x' :
  Write uninit FUEL (openFilesTable s) (freeMapFile s) f (fs_disk s) from (Z.of_nat (length from)) false = Ok (n, f', x') →
  file_Write uninit f from s = Ok ((n, f'), with_disk s x').
Proof.
  intros E. unfold file_Write. rewrite !bind_get. unfold on_disk. rewrite bind_get.
  erewrite bind_lift by (rewrite E; reflexivity). done.
Qed.

(** One chunk is appended to a file with one header. *)
Lemma append_ok s bm t dh L k sec h e buffer : kept s bm t dh L → L !! k = Some (sec, [h]) →
  rd (openFilesTable s) sec = Ok e → writeLock e = LLive → buffer ≠ [] →
  numBytes h + Z.of_nat (length buffer) ≤ HEADER_CAPACITY →
  cost (view s L) - (1 + numSectors h) + sectors_for (contents h (secs s) ++ buffer) ≤ 992 →
  ∃ x' bm' h', let s' := with_disk s x' in let L' := <[k := (sec, [h'])]> L in
    file_Write uninit (mkOpenFile h sec (numBytes h) sec) buffer s
      = Ok ((Z.of_nat (length buffer), mkOpenFile h' sec (numBytes h') sec), s') ∧
    kept s' bm' t dh L' ∧ numBytes h' = numBytes h + Z.of_nat (length buffer) ∧
    view s' L' = <[k := contents h (secs s) ++ buffer]> (view s L) ∧ contents h' (secs s') = contents h (secs s) ++ buffer.
Proof.
  intros Hk HL He Hlock Hb Hcap Hcost. pose proof (kp_volume _ _ _ _ _ Hk) as Hv.
  destruct (view_lookup _ _ _ _ _ k Hk) as [[E _]|(sec' & h1 & E & Hview & Hwf & Hsec & _ & HlC & HsC)]; [congruence|].
  rewrite HL in E. injection E as <- <-. set (C := contents h (secs s)) in *.
  pose proof (hw_bytes _ (fw_hdr _ Hwf)) as Hnb. set (n := Z.of_nat (length buffer)) in *.
  assert (0 < n) as Hn by (unfold n; destruct buffer; [done|cbn; lia]).
  destruct (Write_file_ok uninit uninit_length uninit_bytes s bm t dh L _ k (mkOpenFile h sec (numBytes h) sec) h e buffer n Hv)
    as [_ HW]; [done|done|exact He|done|cbn; lia|done|exact Hcap|unfold n; lia|].
  cbn [seekPosition sector] in HW. fold C in HW. rewrite Z.max_r in HW by lia.
  pose proof (kp_count _ _ _ _ _ Hk) as Hcount.
  pose proof (fi_wf _ _ _ _ _ (vo_inv _ _ _ _ _ _ Hv)) as Hdw.
  assert (numSectors dh ≤ 29) as H29 by (rewrite (hw_count _ (fw_hdr _ Hdw));
    apply (count_bounds _ (hw_bytes _ (fw_hdr _ Hdw)))).
  assert (sectors_for (C ++ buffer) = 1 + DivRoundUp (numBytes h + n) SECTOR_SIZE) as Es.
  { unfold sectors_for. rewrite length_app, Nat2Z.inj_add, HlC. done. }
  rewrite decide_True in HW by lia. destruct HW as (x' & bm' & h' & E & Hv' & Hview' & Hnb' & Hcl).
  assert (take (Z.to_nat (numBytes h)) C ++ take (Z.to_nat n) buffer ++ drop (Z.to_nat (numBytes h + n)) C = C ++ buffer) as EC.
  { rewrite (take_ge C), (take_ge buffer), (drop_ge C), app_nil_r by (unfold n in *; lia). done. }
  rewrite EC in Hview'. exists x', bm', h'. cbn zeta.
  split; [|split; [split|split; [done|split; [done|]]]].
  - rewrite Hnb'. by apply file_Write_ok.
  - exact Hv'.
  - apply Hk.
  - apply Hk.
  - intros k' f E'. apply lookup_insert_Some in E' as [[_ <-]|[_ E']]; [by exists h'|by apply (kp_single _ _ _ _ _ Hk k')].
  - rewrite Hview', (cost_update _ _ C) by done. rewrite HsC, Es.
    destruct (layout_sector _ _ _ _ _ _ k sec [h'] Hv') as (_ & _ & _ & _ & _ & h2 & ? & [= <- <-] & _ & _ & Hwf' & _);
      [apply lookup_insert_eq|].
    pose proof (hw_count _ (fw_hdr _ Hwf')) as Hc'. rewrite Hnb' in Hc'. lia.
  - assert (view (with_disk s x') (<[k := (sec, [h'])]> L) !! k = Some (contents h' (secs (with_disk s x')))) as E1.
    { unfold view, bytes_of. rewrite lookup_fmap, lookup_insert_eq. cbn. by rewrite app_nil_r. }
    rewrite Hview', lookup_insert_eq in E1. by injection E1 as <-.
Qed.

Lemma Copy_loop_ok tries : ∀ fp s bm t dh L k sec h e, kept s bm t dh L → L !! k = Some (sec, [h]) →
  rd (openFilesTable s) sec = Ok e → writeLock e = LLive → (length fp ≤ 10 * tries)%nat →
  numBytes h + Z.of_nat (length fp) ≤ HEADER_CAPACITY →
  cost (view s L) - (1 + numSectors h) + sectors_for (contents h (secs s) ++ fp) ≤ 992 →
  ∃ x' bm' h', let s' := with_disk s x' in let L' := <[k := (sec, [h'])]> L in
    Copy_loop uninit tries (mkOpenFile h sec (numBytes h) sec) fp s = Ok (mkOpenFile h' sec (numBytes h') sec, s') ∧
    kept s' bm' t dh L' ∧ view s' L' = <[k := contents h (secs s) ++ fp]> (view s L).
Proof.
  induction tries as [|tries IH]; intros fp s bm t dh L k sec h e Hk HL He Hlock Hl Hcap Hcost.
  all: destruct (view_lookup _ _ _ _ _ k Hk) as [[E _]|(sec' & h1 & E & Hview & Hwf & _ & _ & HlC & HsC)]; [congruence|];
    rewrite HL in E; injection E as <- <-; cbn [Copy_loop]; unfold TRANSFER_SIZE; destruct (decide (fp = [])) as [->|Hne].
  1, 3: exists (fs_disk s), bm, h; cbn zeta; assert (with_disk s (fs_disk s) = s) as -> by (by destruct s);
    rewrite app_nil_r, (insert_id L) by done; (split; [done|split; [done|]]); by rewrite insert_id.
  { destruct fp; [done|cbn in Hl; lia]. }
  rewrite bool_decide_false by (destruct fp; done).
  set (b := take 10 fp). set (r := drop 10 fp). assert (fp = b ++ r) as Efp by (symmetry; apply take_drop).
  assert (Z.of_nat (length fp) = Z.of_nat (length b) + Z.of_nat (length r)) as Hlen by (rewrite Efp, length_app; lia).
  assert (b ≠ []) as Hbne by (unfold b; by destruct fp).
  assert (sectors_for (contents h (secs s) ++ b) ≤ sectors_for (contents h (secs s) ++ fp)) as Hmono.
  { unfold sectors_for. pose proof (DivRoundUp_mono (Z.of_nat (length (contents h (secs s) ++ b))) (Z.of_nat (length (contents h (secs s) ++ fp)))).
    rewrite !length_app in *. lia. }
  destruct (append_ok s bm t dh L k sec h e b) as (x1 & bm1 & h1 & E & Hk1 & Hnb1 & Hv1 & HC1); try done; [lia|lia|].
  cbn zeta in *. rewrite (bind_ok _ _ _ _ _ E). clear E. cbn [snd].
  set (s1 := with_disk s x1) in *. set (L1 := <[k := (sec, [h1])]> L) in *.
  assert (L1 !! k = Some (sec, [h1])) as HL1 by apply lookup_insert_eq.
  destruct (view_lookup _ _ _ _ _ k Hk1) as [[E _]|(sec' & h2 & E & _ & _ & _ & _ & _ & HsC1)]; [congruence|].
  rewrite HL1 in E. injection E as <- <-.
  destruct (IH r s1 bm1 t dh L1 k sec h1 e Hk1 HL1 He Hlock) as (x2 & bm2 & h2 & E & Hk2 & Hv2).
  - unfold r. rewrite length_drop. lia.
  - lia.
  - rewrite Hv1, (cost_update _ _ _ _ Hview), HC1, <-app_assoc, <-Efp. rewrite <-HC1, HsC1, HsC in *. lia.
  - exists x2, bm2, h2. cbn zeta in *. unfold L1 in *. rewrite insert_insert_eq in Hk2, Hv2. split; [exact E|]. split; [exact Hk2|].
    etrans; [exact Hv2|]. by rewrite Hv1, HC1, insert_insert_eq, <-app_assoc, <-Efp.
Qed.

(** A change of the state that leaves what [live] is about. *)
Lemma live_same s s' bm t dh L : live s bm t dh L → volume s' bm t dh L [FREE_MAP_SECTOR] → view s' L = view s L →
  openFilesTable s' = openFilesTable s → live s' bm t dh L.
Proof.
  intros [Hk Hidle Hboot] Hv Hview Ht. split; rewrite ?Ht; [split|done|done]; [done|apply Hk|apply Hk|apply Hk|].
  rewrite Hview. apply Hk.
Qed.

Definition fits (m : gmap str (list Z)) (C : list Z) : Prop :=
  (size m < N)%nat ∧ Z.of_nat (length C) ≤ HEADER_CAPACITY ∧ cost m + sectors_for C ≤ 992.

(** [Copy] to a new file. *)
Lemma live_Copy_new s bm t dh L from to C : live s bm t dh L → c_string to → head to ≠ Some SLASH →
  host !! from = Some C → view s L !! key to = None → fits (view s L) C →
  ∃ s' bm' t' dh' L', Copy uninit running host from to s = Ok ([], s') ∧ live s' bm' t' dh' L' ∧
    view s' L' = <[key to := C]> (view s L).
Proof.
  intros Hl Hnm Hrel Hhost Hnone (Hsize & Hcap & Hcost). pose proof (sectors_for_pos C) as HCpos.
  destruct (live_Create s bm t dh L to Hl Hnm Hrel Hnone Hsize) as (s1 & bm1 & t1 & dh1 & sec & h & E & Hl1 & Hv1); [lia|].
  unfold Copy, copying. rewrite Hhost, (bind_ok _ _ _ _ _ E). cbn [negb]. clear E.
  set (L1 := <[key to := (sec, [h])]> L) in *. assert (L1 !! key to = Some (sec, [h])) as HL1 by apply lookup_insert_eq.
  destruct (live_Open s1 bm1 t1 dh1 L1 to sec h Hl1 Hnm HL1) as (e & s2 & He & Hi & EO & Htbl & Hk2 & Hv2).
  assert (Open_deref uninit to s1 = Ok (mkOpenFile h sec 0 sec, s2)) as ED.
  { unfold Open_deref. by rewrite (bind_ok _ _ _ _ _ EO). }
  rewrite (bind_ok _ _ _ _ _ ED). clear EO ED.
  destruct (view_lookup _ _ _ _ _ (key to) Hk2) as [[? _]|(sec' & h' & E & Hvk & _ & Hsec & _ & HlC & HsC)]; [congruence|].
  rewrite HL1 in E. injection E as <- <-. rewrite Hv2, Hv1, lookup_insert_eq in Hvk. injection Hvk as HC0. rewrite <-HC0 in *.
  change (sectors_for []) with 1 in HsC. cbn [length] in HlC.
  assert (rd (openFilesTable s2) sec = Ok (entry_open e)) as He2.
  { rewrite Htbl. apply (rd_wr_eq (openFilesTable s1)), wr_ok. pose proof (rd_inv _ _ _ He) as [? ?%lookup_lt_Some]. lia. }
  destruct (entry_open_idle e Hi) as [Hlock _].
  destruct (Copy_loop_ok MAX_CHUNKS C s2 bm1 t1 dh1 L1 (key to) sec h (entry_open e) Hk2 HL1 He2 Hlock) as (x3 & bm3 & h3 & E & Hk3 & Hv3).
  - change HEADER_CAPACITY with 3712 in Hcap. unfold MAX_CHUNKS. lia.
  - lia.
  - rewrite <-HC0, Hv2, Hv1, cost_insert by done. change (sectors_for []) with 1. cbn [app]. lia.
  - cbn zeta in *. rewrite <-HlC in E. change (Z.of_nat 0) with 0 in E. erewrite bind_ok.
    2: { etrans; [exact (bind_ok _ _ _ _ _ E)|]. reflexivity. }
    cbn beta iota. clear E. rewrite <-HC0 in Hv3. cbn [app] in Hv3.
    destruct (live_close s1 bm1 t1 dh1 L1 (with_disk s2 x3) bm3 t1 dh1 (<[key to := (sec, [h3])]> L1) sec (key to) h e
      (mkOpenFile h3 sec (numBytes h3) sec) Hl1 He Hi Hk3 Htbl) as (s4 & E & Hl4 & Hv4); [|done|done|].
    { intros k' f' E'. apply lookup_insert_Some in E' as [[<- <-]|[_ E']]; [by exists (sec, [h])|by exists f']. }
    rewrite (bind_ok _ _ _ _ _ E). clear E. exists s4, bm3, t1, dh1, (<[key to := (sec, [h3])]> L1). split; [done|].
    split; [exact Hl4|]. by rewrite Hv4, Hv3, Hv2, Hv1, insert_insert_eq.
Qed.

(** [Copy] to a name that exists, or from a file that does not. *)
Lemma live_Copy_exists s bm t dh L from to C C' : live s bm t dh L → c_string to → head to ≠ Some SLASH →
  host !! from = Some C → view s L !! key to = Some C' →
  ∃ s', Copy uninit running host from to s = Ok (no_output to, s') ∧ live s' bm t dh L ∧ view s' L = view s L.
Proof.
  intros Hl Hnm Hrel Hhost Hsome. pose proof (lv_kept _ _ _ _ _ Hl) as Hk. pose proof (kp_volume _ _ _ _ _ Hk) as Hv.
  destruct (view_lookup _ _ _ _ _ (key to) Hk) as [[_ ?]|(sec & h & EL & _)]; [congruence|].
  pose proof (Create_file_ok uninit uninit_length uninit_bytes running s bm t dh L _ to Hv Hnm Hrel) as HC.
  rewrite EL in HC. destruct HC as (s' & E & Hv' & Hview & Ht); [done|].
  exists s'. unfold Copy, copying. rewrite Hhost, (bind_ok _ _ _ _ _ E). split; [done|]. split; [by eapply live_same|done].
Qed.

(** ** [Print] *)
Lemma Print_loop_ok fuel : ∀ f hs (s : FileSystem) out, ss_ok (fs_disk s) → file_wf (hdr f) →
  chain (secs s) (nextFileHeader (hdr f)) hs → 0 ≤ seekPosition f ≤ NUM_DIRECT * SECTOR_SIZE → (length hs ≤ FUEL)%nat →
  (length (remaining (secs s) f hs) < fuel)%nat →
  ∃ f' x', Print_loop fuel f out s = Ok ((f', out ++ remaining (secs s) f hs), with_disk s x') ∧
    ss_ok x' ∧ ss_sectors x' = secs s ∧ sector f' = sector f.
Proof.
  clear uninit_kind table_bound N.
  induction fuel as [|fuel IH]; intros f hs s out Hx Hf Hch Hseek Hl Hfuel; [lia|]. cbn [Print_loop].
  destruct (Read_advances FUEL f (fs_disk s) hs 10 Hx Hf Hch) as (f1 & x1 & hs1 & E & Hx1 & Hs1 & [Ha1 Ha2 Ha3 Ha4 Ha5 [Ha6 _]]); [lia|lia| |done|].
  { change (NUM_DIRECT * SECTOR_SIZE) with 3712 in Hseek. lia. }
  fold (secs s) in *. unfold file_Read, TRANSFER_SIZE. change (Z.of_nat 10) with 10.
  erewrite bind_disk by (rewrite E; reflexivity). clear E. cbn beta iota.
  set (R := remaining (secs s) f hs) in *. change (Z.to_nat 10) with 10%nat in *. case_bool_decide as Hb.
  - assert (R = []) as -> by (by destruct R). exists f1, x1. rewrite app_nil_r. done.
  - destruct (IH f1 hs1 (with_disk s x1) (out ++ take 10 R)) as (f2 & x2 & E & Hx2 & Hs2 & Hsec2).
    + exact Hx1.
    + exact Ha2.
    + unfold secs. cbn [fs_disk with_disk]. by rewrite Hs1.
    + lia.
    + lia.
    + unfold secs. cbn [fs_disk with_disk]. rewrite Hs1, Ha4, length_drop. destruct R; [done|]. cbn in Hfuel |- *. lia.
    + exists f2, x2. unfold secs in E, Hs2. cbn [fs_disk with_disk] in E, Hs2. rewrite Hs1, Ha4 in E. rewrite E.
      split; [|split; [done|split; [by rewrite Hs2|congruence]]].
      do 3 f_equal. rewrite <-app_assoc. f_equal. apply take_drop.
Qed.

(** All the data of a file is on the disk. *)
Lemma chain_contents_length x sec hs : ss_ok x → chain (ss_sectors x) sec hs → NoDup (footprint sec hs) →
  (length (chain_contents (ss_sectors x) hs) < PRINT_FUEL)%nat.
Proof.
  clear uninit_kind table_bound N.
  intros Hx Hc Hn. assert (length (footprint sec hs) ≤ Z.to_nat NUM_SECTORS)%nat as Hl.
  { rewrite <-(length_seqZ 0 NUM_SECTORS). apply submseteq_length, NoDup_submseteq; [done|]. intros y Hy.
    pose proof (footprint_range _ _ _ Hc) as Hr. rewrite Forall_forall in Hr. apply elem_of_seqZ. specialize (Hr y Hy). lia. }
  assert (Z.of_nat (length (chain_contents (ss_sectors x) hs)) ≤ SECTOR_SIZE * Z.of_nat (length (footprint sec hs))) as Hd.
  { clear Hl Hn. induction Hc as [|s bs h hs Hs Hbs Hh Hf Hch IH]; [cbn; lia|].
    unfold chain_contents in *. rewrite fmap_cons. cbn [concat footprint length]. rewrite !length_app.
    pose proof (contents_length h x Hx Hf) as Hcl. pose proof (sectors_of_length h Hf) as Hsl.
    pose proof (hw_count _ (fw_hdr _ Hf)) as Hcount. pose proof (hw_bytes _ (fw_hdr _ Hf)) as Hb.
    unfold SECTOR_SIZE in *. destruct (DivRoundUp_spec (numBytes h) 128); lia. }
  unfold PRINT_FUEL. change (NUM_SECTORS * SECTOR_SIZE) with 131072. change (Z.to_nat NUM_SECTORS) with 1024%nat in Hl.
  unfold SECTOR_SIZE in Hd. lia.
Qed.

(** The whole file is printed, across its headers. *)
Lemma Print_ok s bm t dh L rest nm sec hs e : volume s bm t dh L rest → c_string nm → L !! key nm = Some (sec, hs) →
  rd (openFilesTable s) sec = Ok e → idle e →
  ∃ s' e', Print uninit running nm s = Ok (Some (chain_contents (secs s) hs), s') ∧ volume s' bm t dh L rest ∧
    view s' L = view s L ∧ openFilesTable s' = <[Z.to_nat sec := e']> (openFilesTable s) ∧ idle e'.
Proof.
  clear uninit_kind table_bound N.
  intros Hv Hnm HL He Hi. pose proof (Open_file_ok uninit uninit_length uninit_bytes s bm t dh L _ nm Hv Hnm) as HO. rewrite HL in HO.
  destruct HO as (e1 & s1 & He1 & Hv1 & Hview1 & HO). rewrite He in He1. injection He1 as <-.
  rewrite (proj1 (proj2 Hi)) in HO. destruct HO as (h & Hh & EO & Ht1 & Hvk & _).
  unfold Print. rewrite (bind_ok _ _ _ _ _ EO). clear EO.
  destruct (layout_sector _ _ _ _ _ _ _ _ _ Hv1 HL) as (Hsec & Hne & Hc & Hnd & bs & h' & hs' & -> & _ & _ & Hwf & Hch).
  injection Hh as ->. assert (ss_ok (fs_disk s1)) as Hx1 by apply (vo_inv _ _ _ _ _ _ Hv1).
  pose proof (chain_contents_length (fs_disk s1) sec _ Hx1 Hc Hnd) as Hlen. pose proof (chain_fuel _ _ _ Hc Hnd) as Hfl.
  assert (remaining (secs s1) (mkOpenFile h sec 0 sec) hs' = chain_contents (secs s1) (h :: hs')) as Er.
  { unfold remaining, chain_contents. rewrite fmap_cons. done. }
  assert (chain_contents (secs s1) (h :: hs') = chain_contents (secs s) (h :: hs')) as Ec.
  { assert (view s1 L !! key nm = Some (chain_contents (secs s1) (h :: hs'))) as E1
      by (unfold view, bytes_of; by rewrite lookup_fmap, HL). rewrite Hview1, Hvk in E1. by injection E1. }
  destruct (Print_loop_ok PRINT_FUEL (mkOpenFile h sec 0 sec) hs' s1 [] Hx1 Hwf Hch) as (f2 & x2 & E & Hx2 & Hs2 & Hf2).
  { cbn [seekPosition]. change (NUM_DIRECT * SECTOR_SIZE) with 3712. lia. }
  { cbn [length] in Hfl. lia. }
  { rewrite Er. exact Hlen. }
  rewrite (bind_ok _ _ _ _ _ E), Er, Ec. cbn [app]. clear E.
  destruct (entry_open_idle e Hi) as (_ & e' & Ecl & Hi').
  pose proof (vo_open _ _ _ _ _ _ Hv) as Hopen.
  assert (rd (openFilesTable (with_disk s1 x2)) (sector f2) = Ok (entry_open e)) as Hrd.
  { cbn [openFilesTable with_disk]. rewrite Ht1, Hf2. apply (rd_wr_eq (openFilesTable s)), wr_ok. lia. }
  rewrite (bind_ok _ _ _ _ _ (close_file_ok _ f2 _ _ Hrd Ecl)).
  destruct (volume_same s1 (with_disk s1 x2) bm t dh L rest Hv1) as [Hv2 Hview2]; [by split|].
  destruct (volume_entry (with_disk s1 x2) bm t dh L rest sec e' Hv2 ltac:(lia) Hne) as [Hv3 Hview3].
  rewrite Hf2. cbn [sector] in *. eexists _, e'. split; [done|]. split; [exact Hv3|]. split; [by rewrite Hview3, Hview2|]. split; [|done].
  cbn [openFilesTable with_table with_disk]. by rewrite Ht1, list_insert_insert_eq.
Qed.

(** C10: [Print] of a file that nobody has open, however many headers it has,
    prints exactly its bytes, ends, and leaves every file as it was and the
    file closed again. *)
Theorem Print_correct s bm t dh L rest nm sec hs e
  (Hv : volume s bm t dh L rest) (Hnm : c_string nm) (HL : L !! key nm = Some (sec, hs))
  (He : rd (openFilesTable s) sec = Ok e) (Hi : idle e) :
  ∃ s' e', Print uninit running nm s = Ok (Some (chain_contents (secs s) hs), s') ∧ volume s' bm t dh L rest ∧
    view s' L = view s L ∧ openFilesTable s' = <[Z.to_nat sec := e']> (openFilesTable s) ∧ idle e'.
Proof. by apply (Print_ok _ _ _ _ _ _ _ _ _ e). Qed.

(** The entry of one file changed, and the file is still idle. *)
Lemma live_entry s s' bm t dh L k sec hs e' : live s bm t dh L → L !! k = Some (sec, hs) →
  volume s' bm t dh L [FREE_MAP_SECTOR] → view s' L = view s L →
  openFilesTable s' = <[Z.to_nat sec := e']> (openFilesTable s) → idle e' → live s' bm t dh L.
Proof.
  intros [Hk Hidle Hboot] HL Hv Hview Ht Hi. pose proof (kp_volume _ _ _ _ _ Hk) as Hv0.
  pose proof (vo_open _ _ _ _ _ _ Hv0) as Hopen. destruct (layout_sector _ _ _ _ _ _ _ _ _ Hv0 HL) as (Hsec & Hne & _).
  assert (Hother : ∀ j e, j ≠ sec → rd (openFilesTable s') j = Ok e → rd (openFilesTable s) j = Ok e).
  { intros j e Hj He. rewrite Ht in He. apply other_entry in He; [done|lia|done]. }
  split; [split|..].
  - done.
  - apply Hk.
  - apply Hk.
  - apply Hk.
  - rewrite Hview. apply Hk.
  - intros k' f' e HL' He. destruct (decide (f'.1 = sec)) as [Ef|Hnf]; [|by eapply Hidle, Hother].
    rewrite Ef, Ht in He. rewrite (rd_wr_eq _ _ _ _ (wr_ok (openFilesTable s) sec e' ltac:(lia))) in He. by injection He as <-.
  - intros j e Hj He. apply (Hboot j); [done|]. apply Hother; [|done]. intros ->.
    rewrite (kept_dir _ _ _ _ _ Hk) in Hne. rewrite !elem_of_cons, elem_of_nil in Hj. unfold FREE_MAP_SECTOR in Hj.
    destruct Hj as [->|[?|[]]]; [lia|done].
Qed.

Lemma live_Print s bm t dh L nm : live s bm t dh L → c_string nm →
  ∃ s', Print uninit running nm s = Ok (view s L !! key nm, s') ∧ live s' bm t dh L ∧ view s' L = view s L.
Proof.
  intros Hl Hnm. pose proof (lv_kept _ _ _ _ _ Hl) as Hk. pose proof (kp_volume _ _ _ _ _ Hk) as Hv.
  destruct (view_lookup _ _ _ _ _ (key nm) Hk) as [[EL ->]|(sec & h & EL & -> & _ & Hsec & _)].
  - pose proof (Open_file_ok uninit uninit_length uninit_bytes s bm t dh L _ nm Hv Hnm) as HO. rewrite EL in HO.
    destruct HO as (s' & E & Hv' & Hview & Ht). exists s'. unfold Print. rewrite (bind_ok _ _ _ _ _ E).
    split; [done|]. split; [by eapply live_same|done].
  - destruct (rd_in_range (openFilesTable s) sec) as (e & He & _); [rewrite (vo_open _ _ _ _ _ _ Hv); lia|].
    pose proof (lv_idle _ _ _ _ _ Hl _ _ _ EL He) as Hi.
    destruct (Print_ok s bm t dh L _ nm sec [h] e Hv Hnm EL He Hi) as (s' & e' & E & Hv' & Hview & Ht & Hi').
    exists s'. rewrite E. cbn. rewrite app_nil_r. split; [done|]. split; [by eapply live_entry|done].
Qed.

(** ** [Remove] *)
Lemma live_Remove s bm t dh L nm : live s bm t dh L → c_string nm →
  ∃ b s' bm' t' dh', FileSystem.Remove uninit me nm false s = Ok (Returned b, s') ∧ live s' bm' t' dh' (delete (key nm) L) ∧
    view s' (delete (key nm) L) = delete (key nm) (view s L).
Proof.
  intros Hl Hnm. pose proof (lv_kept _ _ _ _ _ Hl) as Hk. pose proof (kp_volume _ _ _ _ _ Hk) as Hv.
  pose proof (Remove_file_ok uninit uninit_length uninit_bytes running me s bm t dh L _ nm Hv Hnm) as HR.
  destruct (view_lookup _ _ _ _ _ (key nm) Hk) as [[EL Hnone]|(sec & h & EL & Hsome & Hwf & Hsec & Hne & HlC & HsC)].
  { rewrite EL in HR. destruct HR as (s' & E & Hv' & Hview & Ht). exists false, s', bm, t, dh. split; [done|].
    rewrite (delete_id L), (delete_id (view s L)) by done. split; [by eapply live_same|done]. }
  rewrite EL in HR. destruct (rd_in_range (openFilesTable s) sec) as (e & He & _); [rewrite (vo_open _ _ _ _ _ _ Hv); lia|].
  destruct (lv_idle _ _ _ _ _ Hl _ _ _ EL He) as (Hc & _ & Hrem & Hrl & _).
  rewrite (FindDir_plain t nm (kp_plain _ _ _ _ _ Hk)) in HR. specialize (HR e He Hrl). rewrite Hrem in HR. rewrite bool_decide_false in HR by lia.
  destruct HR as (s' & bm' & t' & dh' & E & Hv' & Hview & Hfr & _ & Hp & Hlt & e' & Ht).
  exists true, s', bm', t', dh'. split; [done|]. split; [|done].
  destruct (layout_sector _ _ _ _ _ _ _ _ _ Hv EL) as (_ & _ & Hch & Hnd & _).
  assert (fm_clear bm' = (fm_clear bm + length (footprint sec [h]))%nat) as Hclear.
  { apply freed_clear; [done|apply (fi_map _ _ _ _ _ (vo_inv _ _ _ _ _ _ Hv))|done|]. apply Forall_forall. intros y Hy. split.
    - eapply Forall_forall in Hy; [|by eapply footprint_range]. done.
    - eapply (fo_used _ _ _ _ (vo_files _ _ _ _ _ _ Hv) _ _ y EL). exact Hy. }
  assert (numSectors dh' = numSectors dh) as Hdh.
  { rewrite (hw_count _ (fw_hdr _ (fi_wf _ _ _ _ _ (vo_inv _ _ _ _ _ _ Hv')))), (hw_count _ (fw_hdr _ (fi_wf _ _ _ _ _ (vo_inv _ _ _ _ _ _ Hv)))).
    by rewrite (dir_bytes _ _ _ _ _ _ Hv'), (dir_bytes _ _ _ _ _ _ Hv), Hlt. }
  split; [split|..].
  - done.
  - apply Hp, Hk.
  - rewrite Hlt. apply Hk.
  - intros k' f' [_ E']%lookup_delete_Some. by apply (kp_single _ _ _ _ _ Hk k').
  - rewrite Hview, Hclear, Hdh, footprint_single. cbn [length]. rewrite (sectors_of_length h Hwf).
    pose proof (kp_count _ _ _ _ _ Hk) as Hcount. rewrite (cost_delete _ _ _ Hsome), HsC in Hcount.
    pose proof (hw_count _ (fw_hdr _ Hwf)). pose proof (count_bounds _ (hw_bytes _ (fw_hdr _ Hwf))). lia.
  - intros k' f' e1 [Hnk E']%lookup_delete_Some He1. apply (lv_idle _ _ _ _ _ Hl k' f' e1 E').
    rewrite Ht in He1. apply other_entry in He1; [done|rewrite (vo_open _ _ _ _ _ _ Hv); lia|].
    intros Es. apply Hnk. symmetry. eapply layout_disjoint; [exact Hv|exact E'|exact EL|by symmetry].
  - intros j e1 Hj He1. apply (lv_boot _ _ _ _ _ Hl j); [done|]. rewrite Ht in He1.
    apply other_entry in He1; [done|rewrite (vo_open _ _ _ _ _ _ Hv); lia|]. intros ->.
    rewrite (kept_dir _ _ _ _ _ Hk) in Hne. rewrite !elem_of_cons, elem_of_nil in Hj. unfold FREE_MAP_SECTOR in Hj.
    destruct Hj as [->|[?|[]]]; [lia|done].
Qed.

(** ** [Check] *)

(** Names that can be read back, and files that do not fill their header. *)
Definition checkable (m : gmap str (list Z)) : Prop :=
  ∀ k C, m !! k = Some C → (length k < FILE_NAME_MAX_LEN)%nat ∧ Z.of_nat (length C) ≤ (NUM_DIRECT - 1) * SECTOR_SIZE.

Lemma seen_cost s bm t dh L es : kept s bm t dh L → (∀ e, e ∈ es → inUse e = true → is_Some (L !! entry_key e)) →
  Z.of_nat (length (seen L es)) = keys_cost (view s L) (keys es).
Proof.
  intros Hk. induction es as [|e es IH]; [done|]. intros Hes. rewrite keys_cons.
  assert (Z.of_nat (length (seen L es)) = keys_cost (view s L) (keys es)) as E by (apply IH; intros; apply Hes; [by right|done]).
  unfold seen, heads in *. cbn [omap list_omap]. unfold head_of at 1. destruct (inUse e) eqn:Hu; [|exact E].
  destruct (Hes e ltac:(by left) Hu) as [f Hf].
  destruct (view_lookup _ _ _ _ _ (entry_key e) Hk) as [[? _]|(sec & h & EL & Hv & Hwf & _ & _ & _ & Hs)]; [congruence|].
  rewrite EL, fmap_cons. cbn [concat keys_cost foldr]. rewrite length_app, Hv. cbn [default from_option id].
  unfold head_sectors at 1. cbn [fst snd length]. rewrite (sectors_of_length h Hwf), Hs.
  fold (keys_cost (view s L) (keys es)). rewrite <-E.
  pose proof (count_bounds _ (hw_bytes _ (fw_hdr _ Hwf))) as Hc. rewrite <-(hw_count _ (fw_hdr _ Hwf)) in Hc. lia.
Qed.

Lemma looked_at_nodup s bm t dh L rest : volume s bm t dh L rest → NoDup (looked_at s dh L t) ∧
  ∀ y, y ∈ looked_at s dh L t → 0 ≤ y < NUM_SECTORS ∧ Bitmap.bit bm y = true.
Proof.
  intros Hv. pose proof (vo_boot _ _ _ _ _ _ Hv) as Hboot. destruct (vo_rest _ _ _ _ _ _ Hv _ Hboot) as (Hr0 & Hb0 & Hz).
  split.
  - apply NoDup_cons. split.
    + intros [Hy|Hy]%elem_of_app; [done|]. destruct (seen_used _ _ _ _ _ _ _ _ Hv Hy) as (_ & _ & [_ Hn]%not_elem_of_app). done.
    + apply NoDup_app. split; [apply (fi_disj _ _ _ _ _ (vo_inv _ _ _ _ _ _ Hv))|]. split.
      * intros y Hy Hs. by destruct (seen_used _ _ _ _ _ _ _ _ Hv Hs) as (_ & _ & [Hn _]%not_elem_of_app).
      * eapply seen_nodup; [exact Hv|]. pose proof (dw_keys _ (vo_dir _ _ _ _ _ _ Hv)) as Hk.
        rewrite <-(take_drop (Z.to_nat NUM_DIR_ENTRIES) t), keys_app in Hk. by apply NoDup_app in Hk as [? _].
  - intros y [->|[Hy|Hy]%elem_of_app]%elem_of_cons; [done|by eapply system_in_use|].
    by destruct (seen_used _ _ _ _ _ _ _ _ Hv Hy) as (? & ? & _).
Qed.

(** While the directory has its first ten entries, no sector is lost, and [Check]
    finds nothing wrong. *)
Lemma live_Check s bm t dh L : live s bm t dh L → N = Z.to_nat NUM_DIR_ENTRIES → checkable (view s L) →
  ∃ s', Check uninit s = Ok (true, s') ∧ live s' bm t dh L ∧ view s' L = view s L.
Proof.
  intros Hl HN Hc. pose proof (lv_kept _ _ _ _ _ Hl) as Hk. pose proof (kp_volume _ _ _ _ _ Hk) as Hv.
  pose proof (kp_table _ _ _ _ _ Hk) as Ht. pose proof (vo_inv _ _ _ _ _ _ Hv) as Hi.
  assert (∀ k f, L !! k = Some f → ∃ sec h, f = (sec, [h]) ∧ view s L !! k = Some (contents h (secs s)) ∧ file_wf h ∧
    Z.of_nat (length (contents h (secs s))) = numBytes h) as Hfile.
  { intros k f HL. destruct (view_lookup _ _ _ _ _ k Hk) as [[? _]|(sec & h & EL & Hvk & Hwf & _ & _ & Hlen & _)]; [congruence|].
    exists sec, h. split; [congruence|done]. }
  destruct (Check_ok uninit uninit_length uninit_bytes s bm t dh L _ Hv (kept_dir _ _ _ _ _ Hk)) as (b & s' & E & Hs & Hb).
  - intros k f HL. destruct (Hfile k f HL) as (sec & h & _ & Hvk & _). by destruct (Hc _ _ Hvk).
  - lia.
  - destruct (volume_same _ _ _ _ _ _ _ Hv Hs) as [Hv' Hview]. exists s'. split; [|split; [|done]].
    2: { eapply live_same; [exact Hl|exact Hv'|exact Hview|apply (sf_table _ _ Hs)]. }
    replace true with b; [exact E|]. apply Hb. clear Hb E. split; [|split].
    + rewrite (hw_count _ (fw_hdr _ (fi_wf _ _ _ _ _ Hi))), (dir_bytes _ _ _ _ _ _ Hv).
      replace (length t) with 10%nat by (unfold NUM_DIR_ENTRIES in *; lia). by vm_compute.
    + intros sec h (e & _ & He)%list_elem_of_omap. unfold head_of in He. destruct (inUse e); [|done].
      destruct (L !! entry_key e) as [f|] eqn:EL; [|done]. destruct (Hfile _ _ EL) as (sec' & h' & -> & Hvk & Hwf & Hlen).
      injection He as -> ->. destruct (Hc _ _ Hvk) as [_ Hsize]. rewrite Hlen in Hsize. rewrite (hw_count _ (fw_hdr _ Hwf)).
      pose proof (DivRoundUp_mono (numBytes h) ((NUM_DIRECT - 1) * SECTOR_SIZE)) as Hmono.
      change (DivRoundUp ((NUM_DIRECT - 1) * SECTOR_SIZE) SECTOR_SIZE) with 28 in Hmono.
      pose proof (hw_bytes _ (fw_hdr _ Hwf)). change NUM_DIRECT with 29. lia.
    + destruct (looked_at_nodup _ _ _ _ _ _ Hv) as [Hnd Hused]. apply all_in_use; [apply (fi_map _ _ _ _ _ Hi)|exact Hnd|exact Hused|].
      assert (take (Z.to_nat NUM_DIR_ENTRIES) t = t) as Et by (apply take_ge; lia). unfold looked_at. rewrite Et. cbn [length].
      rewrite length_app. unfold system. cbn [length]. rewrite length_app.
      rewrite (sectors_of_length _ (fi_wf _ _ _ _ _ Hi)), (sectors_of_length _ (mo_file _ _ _ (fi_map _ _ _ _ _ Hi))).
      destruct (system_headers _ _ _ _ _ _ Hv (kept_dir _ _ _ _ _ Hk)) as (_ & _ & _ & -> & _).
      pose proof (seen_cost s bm t dh L t Hk) as Hsc. rewrite <-(cost_keys (keys t)) in Hsc.
      * pose proof (kp_count _ _ _ _ _ Hk) as Hcount.
        pose proof (count_bounds _ (hw_bytes _ (fw_hdr _ (fi_wf _ _ _ _ _ Hi)))) as Hcb. rewrite <-(hw_count _ (fw_hdr _ (fi_wf _ _ _ _ _ Hi))) in Hcb.
        change (Z.to_nat (FREE_MAP_FILE_SIZE / SECTOR_SIZE)) with 1%nat. change NUM_SECTORS with 1024.
        assert (Z.of_nat (length (seen L t)) = cost (view s L)) as Hseen.
        { apply Hsc. intros e He Hu. pose proof (dir_map_entry t e (dw_keys _ (vo_dir _ _ _ _ _ _ Hv)) He Hu) as Hm.
          rewrite (vo_layout _ _ _ _ _ _ Hv), lookup_fmap in Hm. destruct (L !! entry_key e); [by eexists|done]. }
        lia.
      * apply (dw_keys _ (vo_dir _ _ _ _ _ _ Hv)).
      * intros k. unfold view, bytes_of. rewrite lookup_fmap, fmap_is_Some. split.
        -- intros [f HL]. destruct (decide (k ∈ keys t)) as [|Hn]; [done|]. apply dir_map_None in Hn.
           rewrite (vo_layout _ _ _ _ _ _ Hv), lookup_fmap, HL in Hn. done.
        -- intros (e & -> & He)%list_elem_of_fmap. apply list_elem_of_filter in He as [Hu He].
           assert (inUse e = true) as Hu' by (by destruct (inUse e)).
           pose proof (dir_map_entry t e (dw_keys _ (vo_dir _ _ _ _ _ _ Hv)) He Hu') as Hm.
           rewrite (vo_layout _ _ _ _ _ _ Hv), lookup_fmap in Hm. destruct (L !! entry_key e); [by eexists|done].
Qed.

(** ** One command *)
Inductive cmd :=
| Cp (from to : str)
| Pr (name : str)
| Rm (name : str)
| Ck.

Definition cmd_args (c : cmd) : list str :=
  match c with
  | Cp from to => [txt "-cp"; from; to]
  | Pr nm => [txt "-pr"; nm]
  | Rm nm => [txt "-rm"; nm]
  | Ck => [txt "-c"]
  end.
Definition cmd_action (c : cmd) : action :=
  match c with Cp from to => DoCopy from to | Pr nm => DoPrint nm | Rm nm => DoRemove nm | Ck => DoCheck end.

(** What a command prints, and the files after it. *)
Definition cmd_spec (m : gmap str (list Z)) (c : cmd) : str * gmap str (list Z) :=
  match c with
  | Cp from to =>
      match host !! from, m !! key to with
      | None, _ => (no_input from, m)
      | Some _, Some _ => (no_output to, m)
      | Some C, None => ([], <[key to := C]> m)
      end
  | Pr nm => (default [] (m !! key nm) ++ NEWLINE, m)
  | Rm nm => ([], delete (key nm) m)
  | Ck => (txt "Filesystem check succeeded." ++ NEWLINE, m)
  end.

(** A command with names in the current directory, for which there is room. *)
Definition cmd_ok (m : gmap str (list Z)) (c : cmd) : Prop :=
  match c with
  | Cp from to => c_string to ∧ head to ≠ Some SLASH ∧ ∀ C, host !! from = Some C → m !! key to = None → fits m C
  | Pr nm | Rm nm => c_string nm
  | Ck => N = Z.to_nat NUM_DIR_ENTRIES ∧ checkable m
  end.

(** An argument that cannot be taken for an option. *)
Definition no_hyphen (a : str) : Prop := head a ≠ Some 45.
Definition cmd_names (c : cmd) : Prop :=
  match c with Cp from to => no_hyphen from ∧ no_hyphen to | Pr nm | Rm nm => no_hyphen nm | Ck => True end.

(** The live file system that holds the files [m], and the disk that keeps them. *)
Definition holds (s : FileSystem) (m : gmap str (list Z)) : Prop :=
  ∃ bm t dh L, live s bm t dh L ∧ view s L = m.
Definition stored (x : S) (m : gmap str (list Z)) : Prop :=
  ∃ s bm t dh L, fs_disk s = x ∧ kept s bm t dh L ∧ view s L = m.

Lemma holds_stored s m : holds s m → stored (fs_disk s) m.
Proof. intros (bm & t & dh & L & Hl & Hm). exists s, bm, t, dh, L. split; [done|]. split; [apply Hl|done]. Qed.

Lemma do_action_ok s m c : holds s m → cmd_ok m c →
  ∃ s', do_action uninit running me host (cmd_action c) s = Ok (((cmd_spec m c).1, GoesOn), s') ∧ holds s' (cmd_spec m c).2.
Proof.
  intros (bm & t & dh & L & Hl & <-) Hc. destruct c as [from to|nm|nm|]; cbn [cmd_action do_action cmd_spec cmd_ok] in *.
  - destruct Hc as (Hnm & Hrel & Hfit). destruct (host !! from) as [C|] eqn:Eh.
    + destruct (view s L !! key to) as [C'|] eqn:Ev.
      * destruct (live_Copy_exists s bm t dh L from to C C' Hl Hnm Hrel Eh Ev) as (s' & E & Hl' & Hv').
        rewrite (bind_ok _ _ _ _ _ E). exists s'. split; [done|]. by exists bm, t, dh, L.
      * destruct (live_Copy_new s bm t dh L from to C Hl Hnm Hrel Eh Ev (Hfit _ eq_refl eq_refl))
          as (s' & bm' & t' & dh' & L' & E & Hl' & Hv').
        rewrite (bind_ok _ _ _ _ _ E). exists s'. split; [done|]. by exists bm', t', dh', L'.
    + assert (Copy uninit running host from to s = Ok (no_input from, s)) as E by (unfold Copy, copying; by rewrite Eh).
      rewrite (bind_ok _ _ _ _ _ E). exists s. split; [done|]. by exists bm, t, dh, L.
  - destruct (live_Print s bm t dh L nm Hl Hc) as (s' & E & Hl' & Hv').
    rewrite (bind_ok _ _ _ _ _ E). exists s'. split; [done|]. by exists bm, t, dh, L.
  - destruct (live_Remove s bm t dh L nm Hl Hc) as (b & s' & bm' & t' & dh' & E & Hl' & Hv').
    rewrite (bind_ok _ _ _ _ _ E). exists s'. split; [done|]. by exists bm', t', dh', (delete (key nm) L).
  - destruct Hc as [HN Hc]. destruct (live_Check s bm t dh L Hl HN Hc) as (s' & E & Hl' & Hv').
    rewrite (bind_ok _ _ _ _ _ E). exists s'. split; [exact eq_refl|]. exists bm, t, dh, L. split; [exact Hl'|exact Hv'].
Qed.

(** ** The commands of a run *)
Fixpoint run_spec (m : gmap str (list Z)) (cs : list cmd) : str * gmap str (list Z) :=
  match cs with
  | [] => ([], m)
  | c :: cs => let '(out, m) := cmd_spec m c in let '(out', m) := run_spec m cs in (out ++ out', m)
  end.
Fixpoint run_ok (m : gmap str (list Z)) (cs : list cmd) : Prop :=
  match cs with
  | [] => True
  | c :: cs => cmd_ok m c ∧ cmd_names c ∧ run_ok (cmd_spec m c).2 cs
  end.
Definition args_of (cs : list cmd) : list str := concat (cmd_args <$> cs).

Lemma do_actions_ok cs : ∀ s m, holds s m → run_ok m cs →
  ∃ s', do_actions uninit running me host (cmd_action <$> cs) s = Ok (((run_spec m cs).1, GoesOn), s') ∧
    holds s' (run_spec m cs).2.
Proof.
  induction cs as [|c cs IH]; intros s m Hs Hok; [by exists s|]. destruct Hok as (Hc & _ & Hok).
  destruct (do_action_ok s m c Hs Hc) as (s1 & E & Hs1). rewrite fmap_cons. cbn [do_actions run_spec].
  rewrite (bind_ok _ _ _ _ _ E). destruct (cmd_spec m c) as [out m1]. cbn [fst snd] in *. cbn beta iota.
  destruct (IH s1 m1 Hs1 Hok) as (s2 & E2 & Hs2). rewrite (bind_ok _ _ _ _ _ E2).
  destruct (run_spec m1 cs) as [out' m2]. by exists s2.
Qed.

(** [main] finds exactly the commands, and [Initialize] nothing. *)
Lemma main_args_cmds cs : main_args (args_of cs) = (cmd_action <$> cs, Finish).
Proof.
  induction cs as [|c cs IH]; [done|]. unfold args_of in *. rewrite !fmap_cons. cbn [concat].
  destruct c as [from to|nm|nm|]; cbn [cmd_args app]; cbn -[txt]; by rewrite IH.
Qed.

Lemma no_hyphen_arg a rest o : no_hyphen a → Initialize_args (a :: rest) o = Initialize_args rest o.
Proof.
  intros Ha. cbn [Initialize_args].
  assert (∀ s, head (txt s) = Some 45 → a ≠ txt s) as Hne by (intros s Hs ->; done).
  by rewrite !decide_False by (by apply Hne).
Qed.

Lemma Initialize_args_cmds cs : ∀ m o, run_ok m cs → Initialize_args (args_of cs) o = Ok o.
Proof.
  induction cs as [|c cs IH]; intros m o Hok; [done|]. destruct Hok as (_ & Hn & Hok).
  unfold args_of in *. rewrite fmap_cons. cbn [concat].
  destruct c as [from to|nm|nm|]; cbn [cmd_args app cmd_names] in *.
  - destruct Hn as [Hf Ht]. transitivity (Initialize_args (from :: to :: concat (cmd_args <$> cs)) o); [done|].
    rewrite !no_hyphen_arg by done. by eapply IH.
  - transitivity (Initialize_args (nm :: concat (cmd_args <$> cs)) o); [done|]. rewrite no_hyphen_arg by done. by eapply IH.
  - transitivity (Initialize_args (nm :: concat (cmd_args <$> cs)) o); [done|]. rewrite no_hyphen_arg by done. by eapply IH.
  - transitivity (Initialize_args (concat (cmd_args <$> cs)) o); [done|]. by eapply IH.
Qed.

(** ** Starting and stopping *)
Lemma initial_table_closed : all_closed (initial_table uninit).
Proof. split; [apply length_replicate|]. apply Forall_replicate. by eexists. Qed.

Lemma closed_idle e : closed e → idle e.
Proof. intros [g ->]. by split_and!. Qed.

Lemma close_boot_ok (s : FileSystem) f : sector f ∈ [FREE_MAP_SECTOR; DIRECTORY_SECTOR] →
  length (openFilesTable s) = Z.to_nat NUM_SECTORS → boot_open (openFilesTable s) →
  ∃ s', close_file running f s = Ok (tt, s') ∧ fs_disk s' = fs_disk s ∧ freeMapFile s' = freeMapFile s ∧
    directoryFile s' = directoryFile s ∧ length (openFilesTable s') = Z.to_nat NUM_SECTORS ∧ boot_open (openFilesTable s').
Proof.
  intros Hf Hl Hb. assert (0 ≤ sector f < Z.of_nat (length (openFilesTable s))) as Hr.
  { rewrite Hl. rewrite !elem_of_cons, elem_of_nil in Hf. by destruct Hf as [->|[->|[]]]. }
  destruct (rd_in_range _ _ Hr) as (e & He & _). pose proof (Hb _ _ Hf He) as Hc.
  assert (∃ e' msg, entry_close running e = Ok (e', msg) ∧ closeLock e' = LLive) as (e' & msg & Ec & Hc').
  { unfold entry_close. rewrite Hc. cbn [use_lock mbind result_bind]. repeat case_bool_decide; eauto. }
  unfold close_file. rewrite bind_get. unfold close_OpenFile. rewrite He. cbn [mbind result_bind]. rewrite Ec. cbn [mbind result_bind].
  erewrite bind_lift by (rewrite wr_ok by done; reflexivity). eexists. split; [reflexivity|].
  split; [done|split; [done|split; [done|split; [exact (eq_trans (length_insert _ _ _) Hl)|]]]].
  intros j e1 Hj He1. change (rd (<[Z.to_nat (sector f) := e']> (openFilesTable s)) j = Ok e1) in He1.
  destruct (decide (sector f = j)) as [<-|Hne].
  - rewrite (rd_wr_eq _ _ _ _ (wr_ok (openFilesTable s) (sector f) e' Hr)) in He1. by injection He1 as <-.
  - apply (Hb j); [done|]. eapply other_entry; [exact Hr|exact Hne|exact He1].
Qed.

Lemma delete_FileSystem_ok (s : FileSystem) : sector (freeMapFile s) = FREE_MAP_SECTOR → dir_sector s = DIRECTORY_SECTOR →
  length (openFilesTable s) = Z.to_nat NUM_SECTORS → boot_open (openFilesTable s) →
  ∃ s', delete_FileSystem running s = Ok (tt, s') ∧ fs_disk s' = fs_disk s.
Proof.
  intros Hm Hd Hl Hb. unfold delete_FileSystem. rewrite bind_get.
  destruct (close_boot_ok s (freeMapFile s)) as (s1 & E & Hx1 & _ & Hd1 & Hl1 & Hb1); [rewrite Hm; by left|done|done|].
  rewrite (bind_ok _ _ _ _ _ E), bind_get, Hd1.
  destruct (close_boot_ok s1 (directoryFile s)) as (s2 & E2 & Hx2 & _); [unfold dir_sector in Hd; rewrite Hd; right; by left|done|done|].
  exists s2. split; [exact E2|congruence].
Qed.

Lemma holds_delete s m : holds s m → ∃ s', delete_FileSystem running s = Ok (tt, s') ∧ fs_disk s' = fs_disk s.
Proof.
  intros (bm & t & dh & L & Hl & _). pose proof (kp_volume _ _ _ _ _ (lv_kept _ _ _ _ _ Hl)) as Hv. apply delete_FileSystem_ok.
  - apply (vo_header _ _ _ _ _ _ Hv).
  - apply (kept_dir _ _ _ _ _ (lv_kept _ _ _ _ _ Hl)).
  - apply (vo_open _ _ _ _ _ _ Hv).
  - intros j e Hj He. by apply (lv_boot _ _ _ _ _ Hl j).
Qed.

(** The machine starts from a disk that keeps [m]. *)
Lemma boot_holds x x' m : stored x m → ss_ok x' → ss_sectors x' = ss_sectors x →
  ∃ s, FileSystem_boot uninit (power_on uninit x') = Ok (tt, s) ∧ holds s m.
Proof.
  intros (s & bm & t & dh & L & <- & Hk & Hm) Hx' Hs'. pose proof (kp_volume _ _ _ _ _ Hk) as Hv.
  destruct (FileSystem_boot_ok uninit uninit_length uninit_bytes s (power_on uninit x') bm t dh L _ Hv)
    as (s1 & E & Hv1 & Hview & Hcl & Hb).
  { intros E%list_elem_of_singleton. discriminate. }
  { split; [exact Hx'|exact Hs'|exact initial_table_closed]. }
  exists s1. split; [exact E|]. exists bm, t, dh, L. split; [|congruence]. split; [split|..].
  - exact Hv1.
  - apply Hk.
  - apply Hk.
  - apply Hk.
  - rewrite Hview. apply Hk.
  - intros k [sec hs] e HL He. cbn [fst] in He. destruct (layout_sector _ _ _ _ _ _ _ _ _ Hv1 HL) as (Hsec & Hne & _).
    apply closed_idle, (Hcl sec); [|done]. destruct (vo_root _ _ _ _ _ _ Hv1) as [Ed|Ed%list_elem_of_singleton]; [|discriminate].
    rewrite Ed in Hne. unfold DIRECTORY_SECTOR in Hne. lia.
  - exact Hb.
Qed.

(** ** A run, and many runs *)
Lemma nachos_ok x m cs : stored x m → run_ok m cs →
  ∃ x', nachos uninit running me host (args_of cs) x = Ok ((run_spec m cs).1, GoesOn, Finish, x') ∧ stored x' (run_spec m cs).2.
Proof.
  intros Hst Hok. assert (ss_ok x) as Hx.
  { destruct Hst as (s & bm & t & dh & L & <- & Hk & _). apply (vo_inv _ _ _ _ _ _ (kp_volume _ _ _ _ _ Hk)). }
  destruct (restart_ok x Hx) as (x1 & E1 & Hx1 & Hs1). unfold nachos. rewrite E1. cbn [mbind result_bind].
  rewrite (Initialize_args_cmds cs m no_options Hok). cbn [mbind result_bind format no_options new_FileSystem].
  destruct (boot_holds x x1 m Hst Hx1 Hs1) as (s & E & Hs). rewrite E. cbn [mbind result_bind].
  rewrite main_args_cmds. destruct (do_actions_ok cs s m Hs Hok) as (s2 & E2 & Hs2). rewrite E2. cbn [mbind result_bind].
  destruct (holds_delete s2 _ Hs2) as (s3 & E3 & Hx3). rewrite E3. cbn [mbind result_bind].
  exists (fs_disk s3). split; [done|]. rewrite Hx3. by apply holds_stored.
Qed.

Lemma nachos_format_ok x : numBytes (raw_header uninit) = 0 → numSectors (raw_header uninit) = 0 → ss_ok x →
  ∃ x', nachos uninit running me host [txt "-f"] x = Ok ([], GoesOn, Finish, x') ∧ stored x' ∅.
Proof.
  intros Hb0 Hs0 Hx. destruct (restart_ok x Hx) as (x1 & E1 & Hx1 & _). unfold nachos. rewrite E1. cbn [mbind result_bind].
  change (Initialize_args [txt "-f"] no_options) with (Ok (mkOptions [] no_debug_opts None None false true)).
  cbn [mbind result_bind format new_FileSystem].
  destruct (FileSystem_format_ok uninit uninit_length uninit_bytes (conj Hb0 Hs0) (power_on uninit x1) Hx1 initial_table_closed)
    as (s & bm & t & dh & E & Hv & Hp & Hc & Hn & Hb & _). rewrite E. cbn [mbind result_bind].
  change (main_args [txt "-f"]) with (@nil action, Finish). cbn [do_actions]. unfold mret at 1, M_ret. cbn [mbind result_bind].
  destruct (delete_FileSystem_ok s) as (s3 & E3 & Hx3).
  - apply (vo_header _ _ _ _ _ _ Hv).
  - destruct (vo_root _ _ _ _ _ _ Hv) as [Ed|Ed%list_elem_of_singleton]; [exact Ed|discriminate].
  - apply (vo_open _ _ _ _ _ _ Hv).
  - exact Hb.
  - rewrite E3. cbn [mbind result_bind]. exists (fs_disk s3). split; [done|]. rewrite Hx3.
    exists (with_size s NUM_DIR_ENTRIES), bm, t, dh, ∅. split; [done|]. split; [|done].
    pose proof (vo_size _ _ _ _ _ _ Hv) as Hsize. cbn [directorySize with_size] in Hsize. split; [done|done|lia| |].
    + intros k f E'. by rewrite lookup_empty in E'.
    + change (view (with_size s NUM_DIR_ENTRIES) ∅) with (view s ∅). unfold view, bytes_of. rewrite fmap_empty, cost_empty, Hc, Hn. done.
Qed.

(** Run after run on the same disk, with the text each run prints. *)
Fixpoint nachos_runs (runs : list (list str)) (x : S) : result (list str * S) :=
  match runs with
  | [] => Ok ([], x)
  | argv :: runs =>
      r ← nachos uninit running me host argv x;
      let '(out, next, e, x) := r in
      match next, e with
      | GoesOn, Finish => r ← nachos_runs runs x; let '(outs, x) := r in Ok (out :: outs, x)
      | _, _ => Ok ([out], x)
      end
  end.

Fixpoint runs_spec (m : gmap str (list Z)) (runs : list (list cmd)) : list str * gmap str (list Z) :=
  match runs with
  | [] => ([], m)
  | cs :: runs => let '(out, m) := run_spec m cs in let '(outs, m) := runs_spec m runs in (out :: outs, m)
  end.
Fixpoint runs_ok (m : gmap str (list Z)) (runs : list (list cmd)) : Prop :=
  match runs with
  | [] => True
  | cs :: runs => run_ok m cs ∧ runs_ok (run_spec m cs).2 runs
  end.

Lemma nachos_runs_ok runs : ∀ x m, stored x m → runs_ok m runs →
  ∃ x', nachos_runs (args_of <$> runs) x = Ok ((runs_spec m runs).1, x') ∧ stored x' (runs_spec m runs).2.
Proof.
  induction runs as [|cs runs IH]; intros x m Hst Hok; [by exists x|]. destruct Hok as [Hc Hok].
  destruct (nachos_ok x m cs Hst Hc) as (x1 & E & Hst1). rewrite fmap_cons. cbn [nachos_runs runs_spec]. rewrite E.
  cbn [mbind result_bind]. destruct (run_spec m cs) as [out m1]. cbn [fst snd] in *.
  destruct (IH x1 m1 Hst1 Hok) as (x2 & E2 & Hst2). rewrite E2. cbn [mbind result_bind].
  destruct (runs_spec m1 runs) as [outs m2]. by exists x2.
Qed.

(** C1: the program [nachos] keeps a map from names to files on its disk.  On a
    disk that keeps the map [m] ([stored]), any number of runs with the commands
    [-cp], [-pr], [-rm] and [-c] print exactly what a finite map from names
    (their first 20 characters) to bytes gives, across the ends of the runs; no
    run stops on an error, and the disk left keeps the map of the specification.
    The empty map is what [nachos -f] leaves on any disk, if the memory of the
    two new headers has the counts 0, which the constructor does not set.

    The runs are those with [runs_ok]: the names are relative, and not options; a
    file that [-cp] creates has at most 3712 bytes (one header), the map then has
    at most [N] names, and its files take at most 992 sectors; [-c] is used
    with [N] = 10, names shorter than 20 characters and files of at most 3584
    bytes, as [Check] would report others.  [N] is between 10 and 116; for more
    than 10 the entries of a grown directory must not be directories in the memory they
    come from ([uninit_kind]). *)
Theorem nachos_persistent_map :
  (numBytes (raw_header uninit) = 0 → numSectors (raw_header uninit) = 0 → ∀ x, ss_ok x →
    ∃ x', nachos_runs [[txt "-f"]] x = Ok ([[]], x') ∧ stored x' ∅) ∧
  (∀ x m runs, stored x m → runs_ok m runs →
    ∃ x', nachos_runs (args_of <$> runs) x = Ok ((runs_spec m runs).1, x') ∧ stored x' (runs_spec m runs).2).
Proof.
  split; [|by intros; apply nachos_runs_ok]. intros Hb Hs x Hx.
  destruct (nachos_format_ok x Hb Hs Hx) as (x1 & E & Hst). cbn [nachos_runs]. rewrite E. by exists x1.
Qed.
End Sessions.

(** ** A run, a second run *)
Definition demo_host : gmap str (list Z) := {[ txt "h" := txt "xyz" ]}.
Definition demo_runs : list (list cmd) :=
  [[Cp (txt "h") (txt "a"); Pr (txt "a")];
   [Ck; Cp (txt "h") (txt "a"); Pr (txt "a"); Rm (txt "a"); Pr (txt "a"); Cp (txt "g") (txt "b")]].

Lemma demo_fits m : size m = 0%nat → cost m = 0 → fits 10 m (txt "xyz").
Proof. intros E1 E2. unfold fits. rewrite E1, E2. split; [lia|]. split; [by vm_compute|by vm_compute]. Qed.

Lemma demo_name c : 0 < c < 256 → c_string [c].
Proof. intros Hc. by constructor. Qed.

Lemma demo_checkable : checkable {[ key (txt "a") := txt "xyz" ]}.
Proof. intros k C Hk. apply lookup_singleton_Some in Hk as [<- <-]. split; [cbn; unfold FILE_NAME_MAX_LEN; lia|by vm_compute]. Qed.

Lemma demo_runs_ok : runs_ok 10 demo_host ∅ demo_runs.
Proof.
  assert (∀ C, demo_host !! txt "h" = Some C → C = txt "xyz") as Hh by (intros C E; by injection E as <-).
  assert (c_string (txt "a") ∧ c_string (txt "b")) as [Ha Hb] by (split; by apply demo_name).
  cbn [runs_ok demo_runs run_ok]. cbn [cmd_ok cmd_names]. split_and!; try done.
  - intros C ->%Hh _. apply demo_fits; reflexivity.
  - exact demo_checkable.
Qed.

Lemma nachos_persistent_map_witness : ∃ x x',
  nachos_runs zeros (λ _, false) 0 demo_host [[txt "-f"]] blank_disk = Ok ([[]], x) ∧
  nachos_runs zeros (λ _, false) 0 demo_host (args_of <$> demo_runs) x
    = Ok ([txt "xyz" ++ NEWLINE;
           txt "Filesystem check succeeded." ++ NEWLINE ++ txt "Copy: could not create output file a" ++ NEWLINE
             ++ txt "xyz" ++ NEWLINE ++ NEWLINE ++ txt "Copy: could not open input file g" ++ NEWLINE], x').
Proof.
  assert (Z.to_nat NUM_DIR_ENTRIES ≤ 10 ≤ 116)%nat as H10 by (unfold NUM_DIR_ENTRIES; lia).
  destruct (nachos_persistent_map (S := (Statistics * Disk)%type) zeros zeros_length zeros_bytes 10 H10 (λ _, eq_refl) (λ _, false) 0 demo_host) as [Hf Hr].
  destruct (Hf (proj1 demo_counts) (proj2 demo_counts) blank_disk blank_disk_ok) as (x & E & Hst).
  destruct (Hr x ∅ demo_runs Hst demo_runs_ok) as (x' & E' & _).
  exists x, x'. split; [exact E|]. etrans; [exact E'|]. f_equal.
Defined.

(** The file "ab" with the bytes "xyz" of the example volume. *)
Lemma Print_correct_witness : ∃ s', Print demo_uninit (λ _, false) (txt "ab") demo_fs = Ok (Some (txt "xyz"), s') ∧
  volume s' demo_bits demo_dir demo_dir_hdr demo_layout [0].
Proof.
  assert (c_string (txt "ab")) as H1 by repeat constructor. assert (idle demo_closed) as H2 by (by split_and!).
  destruct (Print_correct demo_uninit demo_uninit_length demo_uninit_bytes (λ _, false) demo_fs demo_bits demo_dir demo_dir_hdr
    demo_layout [0] (txt "ab") 6 [demo_file_hdr] demo_closed demo_volume H1 demo_lookup eq_refl H2) as (s' & e' & E & Hv & _).
  exists s'. split; [|exact Hv]. etrans; [exact E|]. reflexivity.
Defined.
