(* ===== verification/Mmu.v ===== *)
(** * [machine/mmu.cc], [machine/translation_entry.hh]: the memory unit

    Main memory is an array of bytes; a virtual address goes through the TLB
    or, on a machine without one, through the page table of the running
    program.  The counters for the LRU policy of page replacement
    ([references_done], [coreMap[i]->last_use_counter]) are updated on every
    hit, as in the source.  The configuration is that of [filesys/Makefile]:
    16 page frames and a TLB of 8 entries. *)

From S2P Require Import Prelude Disk.
From stdpp Require Import base option list gmap numbers tactics.
From stdpp Require Import list.
Open Scope Z_scope.

Inductive ExceptionType :=
| NO_EXCEPTION
| SYSCALL_EXCEPTION
| PAGE_FAULT_EXCEPTION
| READ_ONLY_EXCEPTION
| BUS_ERROR_EXCEPTION
| ADDRESS_ERROR_EXCEPTION
| OVERFLOW_EXCEPTION
| ILLEGAL_INSTR_EXCEPTION.

#[export] Instance ExceptionType_eq_dec : EqDecision ExceptionType.
Proof. solve_decision. Defined.

Definition PAGE_SIZE : Z := SECTOR_SIZE.
Definition NUM_PHYS_PAGES : Z := 16.
Definition MEMORY_SIZE : Z := NUM_PHYS_PAGES * PAGE_SIZE.
Definition TLB_SIZE : Z := 8.

Record TranslationEntry := mkTE {
  virtualPage : Z;
  physicalPage : Z;
  valid : bool;
  readOnly : bool;
  use : bool;
  dirty : bool
}.

Record MMU := mkMMU {
  mainMemory : list Z;                        (* bytes *)
  tlb : option (list TranslationEntry);
  pageTable : option (list TranslationEntry); (* [pageTableSize] is its length *)
  references_done : Z;
  last_use_counter : list Z;                  (* of [coreMap], by frame *)
  tlbTotal : Z;
  tlbHitCount : Z
}.

(** The constructor under [USE_TLB]; [garbage] is the contents of
    [new TranslationEntry[TLB_SIZE]]. *)
Definition new_MMU (garbage : list TranslationEntry) (counters : list Z) : MMU :=
  mkMMU (replicate (Z.to_nat MEMORY_SIZE) 0)
    (Some ((λ e, mkTE (virtualPage e) (physicalPage e) false (readOnly e) (use e) (dirty e))
             <$> garbage))
    None 0 counters 0 0.

(** A pointer to an entry: which table, and the index in it. *)
Inductive entry_ptr := InTLB (i : Z) | InPageTable (i : Z).

(** The search loop of [RetrievePageEntry] from index [i]. *)
Fixpoint tlb_find (i : Z) (t : list TranslationEntry) (vpn : Z) : option (Z * TranslationEntry) :=
  match t with
  | [] => None
  | e :: t => if valid e && bool_decide (virtualPage e = vpn) then Some (i, e)
              else tlb_find (i + 1) t vpn
  end.

(** The entry for a page or the exception, and the new counters. *)
Definition RetrievePageEntry (m : MMU) (vpn : Z)
  : result ((ExceptionType + entry_ptr * TranslationEntry) * MMU) :=
  match tlb m with
  | None =>
      match pageTable m with
      | None => Err NullPointer
      | Some pt =>
          if bool_decide (vpn >= Z.of_nat (length pt)) then Ok (inl ADDRESS_ERROR_EXCEPTION, m)
          else
            e ← rd pt vpn;
            if negb (valid e) then Ok (inl PAGE_FAULT_EXCEPTION, m)
            else Ok (inr (InPageTable vpn, e), m)
      end
  | Some t =>
      let m := mkMMU (mainMemory m) (tlb m) (pageTable m) (u32 (references_done m + 1))
                 (last_use_counter m) (s32 (tlbTotal m + 1)) (tlbHitCount m) in
      match tlb_find 0 t vpn with
      | Some (i, e) =>
          c ← wr (last_use_counter m) (physicalPage e) (references_done m);
          Ok (inr (InTLB i, e),
              mkMMU (mainMemory m) (tlb m) (pageTable m) (references_done m) c
                (tlbTotal m) (s32 (tlbHitCount m + 1)))
      | None => Ok (inl PAGE_FAULT_EXCEPTION, m)
      end
  end.

(** Assignment through an entry pointer. *)
Definition set_table_entry (m : MMU) (p : entry_ptr) (e : TranslationEntry) : result MMU :=
  match p with
  | InTLB i =>
      match tlb m with
      | Some t => t ← wr t i e;
          Ok (mkMMU (mainMemory m) (Some t) (pageTable m) (references_done m)
                (last_use_counter m) (tlbTotal m) (tlbHitCount m))
      | None => Err NullPointer
      end
  | InPageTable i =>
      match pageTable m with
      | Some t => t ← wr t i e;
          Ok (mkMMU (mainMemory m) (tlb m) (Some t) (references_done m)
                (last_use_counter m) (tlbTotal m) (tlbHitCount m))
      | None => Err NullPointer
      end
  end.

Definition misaligned (virtAddr size : Z) : bool :=
  (bool_decide (size = 4) && negb (Z.land virtAddr 3 =? 0))
  || (bool_decide (size = 2) && negb (Z.land virtAddr 1 =? 0)).

(** The physical address or the exception. *)
Definition Translate (m : MMU) (virtAddr size : Z) (writing : bool)
  : result ((ExceptionType + Z) * MMU) :=
  _ ← ASSERT (xorb (bool_decide (tlb m = None)) (bool_decide (pageTable m = None)));
  if misaligned virtAddr size then Ok (inl ADDRESS_ERROR_EXCEPTION, m)
  else
    let vpn := virtAddr / PAGE_SIZE in
    let offset := virtAddr mod PAGE_SIZE in
    r ← RetrievePageEntry m vpn;
    let '(r, m) := r in
    match r with
    | inl exception => Ok (inl exception, m)
    | inr (p, entry) =>
        if readOnly entry && writing then Ok (inl READ_ONLY_EXCEPTION, m)
        else
          let pageFrame := physicalPage entry in
          if bool_decide (pageFrame >= NUM_PHYS_PAGES) then Ok (inl BUS_ERROR_EXCEPTION, m)
          else
            m ← set_table_entry m p
                  (mkTE (virtualPage entry) (physicalPage entry) (valid entry) (readOnly entry)
                     true (if writing then true else dirty entry));
            let physAddr := u32 (pageFrame * PAGE_SIZE + offset) in
            _ ← ASSERT (bool_decide (physAddr >= 0)
                        && bool_decide (u32 (physAddr + size) <= MEMORY_SIZE));
            Ok (inr physAddr, m)
    end.

(** A [char] of memory as an [int]. *)
Definition sext8 (b : Z) : Z := if bool_decide (b < 128) then b else b - 256.

Definition ReadMem (m : MMU) (addr size : Z) : result ((ExceptionType + Z) * MMU) :=
  r ← Translate m addr size false;
  let '(r, m) := r in
  match r with
  | inl e => Ok (inl e, m)
  | inr pa =>
      if bool_decide (size = 1) then b ← rd (mainMemory m) pa; Ok (inr (sext8 b), m)
      else if bool_decide (size = 2) then
        bs ← slice (mainMemory m) pa 2; Ok (inr (le_word bs), m)
      else if bool_decide (size = 4) then
        bs ← slice (mainMemory m) pa 4; Ok (inr (s32 (le_word bs)), m)
      else Err AssertFail
  end.

Definition set_memory (m : MMU) (mem : list Z) : MMU :=
  mkMMU mem (tlb m) (pageTable m) (references_done m) (last_use_counter m) (tlbTotal m)
    (tlbHitCount m).

Definition WriteMem (m : MMU) (addr size value : Z) : result (ExceptionType * MMU) :=
  r ← Translate m addr size true;
  let '(r, m) := r in
  match r with
  | inl e => Ok (e, m)
  | inr pa =>
      if bool_decide (size = 1) then
        mem ← wr (mainMemory m) pa (Z.land value 255); Ok (NO_EXCEPTION, set_memory m mem)
      else if bool_decide (size = 2) then
        mem ← splice (mainMemory m) pa (le_bytes 2 (Z.land value 65535));
        Ok (NO_EXCEPTION, set_memory m mem)
      else if bool_decide (size = 4) then
        mem ← splice (mainMemory m) pa (le_bytes 4 (u32 value));
        Ok (NO_EXCEPTION, set_memory m mem)
      else Err AssertFail
  end.

(** ** The TLB machine *)
Record mmu_wf (m : MMU) (t : list TranslationEntry) : Prop := {
  mw_mem : Z.of_nat (length (mainMemory m)) = MEMORY_SIZE;
  mw_tlb : tlb m = Some t;
  mw_pt : pageTable m = None;
  mw_frames : Forall (λ e, valid e = true → 0 ≤ physicalPage e < NUM_PHYS_PAGES) t;
  mw_counters : Z.of_nat (length (last_use_counter m)) = NUM_PHYS_PAGES
}.

(** The entry the TLB has for a page: the first valid one. *)
Definition tlb_entry (t : list TranslationEntry) (vpn : Z) : option TranslationEntry :=
  snd <$> tlb_find 0 t vpn.

(** The outcome of a translation. *)
Definition translation (t : list TranslationEntry) (addr size : Z) (writing : bool)
  : ExceptionType + Z :=
  if misaligned addr size then inl ADDRESS_ERROR_EXCEPTION
  else match tlb_entry t (addr / PAGE_SIZE) with
       | None => inl PAGE_FAULT_EXCEPTION
       | Some e => if readOnly e && writing then inl READ_ONLY_EXCEPTION
                   else inr (physicalPage e * PAGE_SIZE + addr mod PAGE_SIZE)
       end.

Lemma tlb_find_spec i t vpn j e :
  tlb_find i t vpn = Some (j, e) →
  i ≤ j ∧ t !! Z.to_nat (j - i) = Some e ∧ valid e = true ∧ virtualPage e = vpn.
Proof.
  revert i. induction t as [|e0 t IH]; intros i; cbn; [done|].
  destruct (valid e0 && bool_decide (virtualPage e0 = vpn)) eqn:E.
  - intros [= <- <-]. apply andb_true_iff in E as [? ?%bool_decide_eq_true].
    rewrite Z.sub_diag. split_and!; [lia|done..].
  - intros (? & Hl & ? & ?)%IH. split_and!; [lia| |done..].
    replace (Z.to_nat (j - i)) with (S (Z.to_nat (j - (i + 1)))) by lia. done.
Qed.

(** Setting the use and dirty bits of the entry found changes no translation. *)
Lemma tlb_find_touch i t vpn j e e' vpn' :
  tlb_find i t vpn = Some (j, e) →
  valid e' = valid e → virtualPage e' = virtualPage e →
  tlb_find i (<[Z.to_nat (j - i) := e']> t) vpn'
  = (λ '(k, x), (k, if decide (k = j) then e' else x)) <$> tlb_find i t vpn'.
Proof.
  intros Hf Hv Hp. revert i Hf. induction t as [|e0 t IH]; intros i; [done|]. cbn [tlb_find].
  destruct (valid e0 && bool_decide (virtualPage e0 = vpn)) eqn:E.
  - intros [= <- <-]. rewrite Z.sub_diag. change (Z.to_nat 0) with 0%nat.
    cbn [insert list_insert tlb_find]. rewrite Hv, Hp.
    destruct (valid e0 && bool_decide (virtualPage e0 = vpn')); cbn; [by rewrite decide_True|].
    destruct (tlb_find (i + 1) t vpn') as [[k x]|] eqn:Ef; [|done]. cbn.
    apply tlb_find_spec in Ef as [? _]. by rewrite decide_False by lia.
  - intros Hf. pose proof (tlb_find_spec _ _ _ _ _ Hf) as [Hij _].
    replace (Z.to_nat (j - i)) with (S (Z.to_nat (j - (i + 1)))) by lia. cbn [tlb_find insert list_insert].
    destruct (valid e0 && bool_decide (virtualPage e0 = vpn')); cbn; [by rewrite decide_False by lia|].
    by apply IH.
Qed.

Lemma land_3 a : Z.land a 3 = a mod 4.
Proof. exact (Z.land_ones a 2 ltac:(lia)). Qed.
Lemma land_1 a : Z.land a 1 = a mod 2.
Proof. exact (Z.land_ones a 1 ltac:(lia)). Qed.

Lemma frame_addr pf off sz addr :
  0 ≤ pf < NUM_PHYS_PAGES → off = addr mod PAGE_SIZE → 0 ≤ addr →
  sz = 1 ∨ sz = 2 ∨ sz = 4 → misaligned addr sz = false →
  0 ≤ pf * PAGE_SIZE + off ∧ pf * PAGE_SIZE + off + sz ≤ MEMORY_SIZE.
Proof.
  unfold MEMORY_SIZE, PAGE_SIZE, NUM_PHYS_PAGES, SECTOR_SIZE, misaligned.
  rewrite land_3, land_1. intros Hp -> Ha Hs Hm.
  assert (sz = 4 → addr mod 4 = 0).
  { intros ->. rewrite bool_decide_true in Hm by done. cbn in Hm.
    destruct (addr mod 4 =? 0) eqn:E; [by apply Z.eqb_eq|done]. }
  assert (sz = 2 → addr mod 2 = 0).
  { intros ->. rewrite (bool_decide_false (2 = 4)), (bool_decide_true (2 = 2)) in Hm by lia. cbn in Hm.
    destruct (addr mod 2 =? 0) eqn:E; [by apply Z.eqb_eq|done]. }
  destruct Hs as [-> | [-> | ->]]; Z.div_mod_to_equations; lia.
Qed.

Lemma Translate_ok m t addr size writing :
  mmu_wf m t → 0 ≤ addr → size = 1 ∨ size = 2 ∨ size = 4 →
  ∃ m' t', Translate m addr size writing = Ok (translation t addr size writing, m') ∧
    mmu_wf m' t' ∧ mainMemory m' = mainMemory m ∧
    (∀ a sz w, translation t' a sz w = translation t a sz w) ∧
    ∀ pa, translation t addr size writing = inr pa → 0 ≤ pa ∧ pa + size ≤ MEMORY_SIZE.
Proof.
  intros [Hmem Htlb Hpt Hfr Hcnt] Ha Hs. unfold Translate, translation, RetrievePageEntry.
  rewrite Htlb, Hpt. cbn [xorb bool_decide decide_rel].
  rewrite bool_decide_false, bool_decide_true by done. cbn [xorb ASSERT mbind result_bind].
  destruct (misaligned addr size) eqn:Hmis; [by exists m, t|]. unfold tlb_entry.
  destruct (tlb_find 0 t (addr / PAGE_SIZE)) as [[i e]|] eqn:Hf; cbn [fmap option_fmap option_map snd].
  2: { eexists _, t. cbn [mbind result_bind]. split; [done|]. by split_and!. }
  pose proof (tlb_find_spec _ _ _ _ _ Hf) as (Hi & Hlk & Hv & Hp). rewrite Z.sub_0_r in Hlk.
  pose proof Hfr as Hfr'. rewrite Forall_lookup in Hfr'. pose proof (Hfr' _ _ Hlk Hv) as Hpf.
  rewrite wr_ok by (cbn; lia). cbn [mbind result_bind].
  destruct (readOnly e && writing) eqn:Hro; cbn [mbind result_bind].
  { eexists _, t. split; [done|]. split_and!; [|done..]. split; cbn; [done..|by rewrite length_insert]. }
  rewrite bool_decide_false by lia. cbn [set_table_entry tlb]. 
  apply lookup_lt_Some in Hlk as Hlt.
  rewrite wr_ok by lia. cbn [mbind result_bind].
  destruct (frame_addr (physicalPage e) _ size addr Hpf eq_refl Ha Hs Hmis) as [Hlo Hhi].
  change MEMORY_SIZE with 2048 in *. rewrite !(u32_id (_ * PAGE_SIZE + _)) by (unfold is_u32; lia).
  rewrite (u32_id (_ + size)) by (unfold is_u32; lia). rewrite !bool_decide_true by lia. cbn [andb ASSERT mbind result_bind].
  eexists _, _. split; [done|]. split_and!; [|done| |].
  - split; cbn; [done|done|done| |by rewrite length_insert]. apply Forall_insert; [done|]. cbn. done.
  - intros a sz w. unfold translation, tlb_entry. destruct (misaligned a sz); [done|].
    set (e' := mkTE _ _ _ _ _ _).
    pose proof (tlb_find_touch 0 t _ i e e' (a / PAGE_SIZE) Hf eq_refl eq_refl) as Ht.
    rewrite Z.sub_0_r in Ht. rewrite Ht.
    destruct (tlb_find 0 t (a / PAGE_SIZE)) as [[k x]|] eqn:Hk; [|done]. cbn.
    destruct (decide (k = i)) as [->|]; [|done]. unfold e'. cbn.
    apply tlb_find_spec in Hk as (_ & Hk & _). rewrite Z.sub_0_r, Hlk in Hk.
    by injection Hk as <-.
  - intros pa [= <-]. lia.
Qed.

(** C32: address translation.  On a machine with a TLB every access of 1, 2 or 4
    bytes has exactly the outcome [translation] says (an address error when
    misaligned, a page fault when no valid entry has the page, a read-only
    fault for a write to a read-only page, the frame and the offset
    otherwise); the physical range lies in main memory, so no [ASSERT] fails;
    memory is not changed, and the use and dirty bits that are set change no
    translation. *)
Theorem Translate_correct m t addr size writing
  (Hwf : mmu_wf m t) (Ha : 0 ≤ addr) (Hs : size = 1 ∨ size = 2 ∨ size = 4) :
  ∃ m' t', Translate m addr size writing = Ok (translation t addr size writing, m') ∧
    mmu_wf m' t' ∧ mainMemory m' = mainMemory m ∧
    (∀ a sz w, translation t' a sz w = translation t a sz w) ∧
    ∀ pa, translation t addr size writing = inr pa → 0 ≤ pa ∧ pa + size ≤ MEMORY_SIZE.
Proof. by apply Translate_ok. Qed.

(** The bytes [WriteMem] stores and the value [ReadMem] gives for them. *)
Definition stored (size value : Z) : list Z :=
  if bool_decide (size = 1) then [Z.land value 255]
  else if bool_decide (size = 2) then le_bytes 2 (Z.land value 65535)
  else le_bytes 4 (u32 value).
Definition loaded (size value : Z) : Z :=
  if bool_decide (size = 1) then sext8 (Z.land value 255)
  else if bool_decide (size = 2) then Z.land value 65535
  else s32 value.

Lemma stored_length size value : size = 1 ∨ size = 2 ∨ size = 4 → Z.of_nat (length (stored size value)) = size.
Proof. by intros [-> | [-> | ->]]. Qed.

Lemma WriteMem_ok m t addr size value pa :
  mmu_wf m t → 0 ≤ addr → size = 1 ∨ size = 2 ∨ size = 4 →
  translation t addr size true = inr pa →
  ∃ m' t', WriteMem m addr size value = Ok (NO_EXCEPTION, m') ∧ mmu_wf m' t' ∧
    (∀ a sz w, translation t' a sz w = translation t a sz w) ∧
    splice (mainMemory m) pa (stored size value) = Ok (mainMemory m').
Proof.
  intros Hwf Ha Hs Hpa. destruct (Translate_ok m t addr size true Hwf Ha Hs) as (m' & t' & E & Hwf' & Hm & Ht & Hr).
  destruct (Hr pa Hpa) as [Hlo Hhi]. unfold WriteMem. rewrite E, Hpa. cbn [mbind result_bind].
  pose proof (stored_length size value Hs) as Hl. pose proof (mw_mem _ _ Hwf) as Hmem.
  destruct (splice_ok (mainMemory m) pa (stored size value)) as (mem & Esp & Hlm & _); [lia|lia|].
  exists (set_memory m' mem), t'. split.
  - rewrite Hm. destruct Hs as [-> | [-> | ->]].
    + rewrite bool_decide_true by done. rewrite wr_ok by lia. cbn [mbind result_bind].
      unfold splice in Esp. rewrite bool_decide_true in Esp by (cbn; lia). injection Esp as <-.
      rewrite insert_take_drop by lia. do 4 f_equal. cbn. f_equal. f_equal. lia.
    + rewrite bool_decide_false, bool_decide_true by done. unfold stored in Esp.
      rewrite bool_decide_false, bool_decide_true in Esp by done. by rewrite Esp.
    + rewrite !bool_decide_false, bool_decide_true by done. unfold stored in Esp.
      rewrite !bool_decide_false in Esp by done. by rewrite Esp.
  - split_and!; [|done|done]. destruct Hwf' as [? ? ? ? ?]. split; cbn; [lia|done..].
Qed.

Lemma ReadMem_ok m t addr size value pa :
  mmu_wf m t → 0 ≤ addr → size = 1 ∨ size = 2 ∨ size = 4 →
  translation t addr size false = inr pa →
  slice (mainMemory m) pa size = Ok (stored size value) →
  ∃ m' t', ReadMem m addr size = Ok (inr (loaded size value), m') ∧ mmu_wf m' t' ∧
    mainMemory m' = mainMemory m.
Proof.
  intros Hwf Ha Hs Hpa Hsl. destruct (Translate_ok m t addr size false Hwf Ha Hs) as (m' & t' & E & Hwf' & Hm & Ht & Hr).
  destruct (Hr pa Hpa) as [Hlo Hhi]. pose proof (mw_mem _ _ Hwf) as Hmem.
  exists m', t'. split; [|done]. unfold ReadMem. rewrite E, Hpa. cbn [mbind result_bind]. rewrite Hm.
  destruct Hs as [-> | [-> | ->]].
  - rewrite bool_decide_true by done.
    destruct (rd_in_range (mainMemory m) pa) as (b & -> & Hb); [lia|]. cbn [mbind result_bind].
    rewrite slice_ok in Hsl by lia. change (Z.to_nat 1) with 1%nat in Hsl. 
    rewrite (drop_S _ b) in Hsl by done. injection Hsl as ->. reflexivity.
  - rewrite bool_decide_false, bool_decide_true by done. rewrite Hsl. cbn [mbind result_bind].
    unfold stored, loaded. rewrite bool_decide_false, bool_decide_true by done.
    rewrite le_word_bytes; [done|]. change 65535 with (Z.ones 16). rewrite Z.land_ones by lia.
    apply Z.mod_pos_bound. reflexivity.
  - rewrite !bool_decide_false, bool_decide_true by done. rewrite Hsl. cbn [mbind result_bind].
    unfold stored, loaded. rewrite !bool_decide_false by done.
    rewrite le_word_bytes by apply u32_range. by rewrite s32_u32.
Qed.

Lemma slice_splice {A} (l l' : list A) off bs :
  splice l off bs = Ok l' → slice l' off (Z.of_nat (length bs)) = Ok bs.
Proof.
  unfold splice. case_bool_decide as Hb; [|done]. intros [= <-].
  rewrite slice_ok; [|lia|lia|rewrite !length_app, length_take; lia]. f_equal.
  rewrite drop_app_length' by (rewrite length_take; lia). apply take_app_length'. lia.
Qed.

(** Memory works.  A store through a writable page followed by a load of the
    same size at the same address gives the value stored, cut to that size;
    and the store changes no byte of main memory outside its physical
    range. *)
Theorem WriteMem_ReadMem m t addr size value pa
  (Hwf : mmu_wf m t) (Ha : 0 ≤ addr) (Hs : size = 1 ∨ size = 2 ∨ size = 4)
  (Hpa : translation t addr size true = inr pa) :
  ∃ m1 m2, WriteMem m addr size value = Ok (NO_EXCEPTION, m1) ∧
    ReadMem m1 addr size = Ok (inr (loaded size value), m2) ∧
    mainMemory m2 = mainMemory m1 ∧
    ∀ i, 0 ≤ i → ¬ pa ≤ i < pa + size → rd (mainMemory m1) i = rd (mainMemory m) i.
Proof.
  destruct (WriteMem_ok m t addr size value pa Hwf Ha Hs Hpa) as (m1 & t1 & E1 & Hwf1 & Ht & Hsp).
  pose proof (stored_length size value Hs) as Hl.
  destruct (ReadMem_ok m1 t1 addr size value pa Hwf1 Ha Hs) as (m2 & t2 & E2 & _ & Hm2).
  - rewrite Ht. unfold translation in Hpa |- *. destruct (misaligned addr size); [done|].
    destruct (tlb_entry t (addr / PAGE_SIZE)) as [e|]; [|done]. rewrite andb_false_r.
    by destruct (readOnly e && true).
  - apply slice_splice in Hsp. by rewrite Hl in Hsp.
  - exists m1, m2. split_and!; [done..|]. intros i Hi Hout.
    unfold splice in Hsp. case_bool_decide as Hb; [|done].
    destruct (splice_ok (mainMemory m) pa (stored size value)) as (l & El & _ & Hlk); [lia..|].
    unfold splice in El. rewrite bool_decide_true in El by done. rewrite Hsp in El.
    injection El as El. unfold rd. rewrite bool_decide_true by done.
    rewrite El, Hlk, decide_False by lia. done.
Qed.

(** Page 3 in frame 5, writable, in the third entry. *)
Definition demo_tlb : list TranslationEntry :=
  replicate 2 (mkTE 0 0 false false false false)
  ++ [mkTE 3 5 true false false false] ++ replicate 5 (mkTE 0 0 false false false false).
Definition demo_mmu : MMU :=
  mkMMU (replicate 2048 0) (Some demo_tlb) None 0 (replicate 16 0) 0 0.

Lemma demo_mmu_wf : mmu_wf demo_mmu demo_tlb.
Proof.
  split; [reflexivity..| |reflexivity]. repeat constructor; vm_compute; congruence.
Qed.

Lemma Translate_correct_witness :
  ∃ m', Translate demo_mmu 388 4 true = Ok (inr 644, m').
Proof.
  destruct (Translate_correct demo_mmu demo_tlb 388 4 true demo_mmu_wf) as (m' & t' & E & _).
  - lia.
  - lia.
  - exists m'. exact E.
Defined.

Lemma WriteMem_ReadMem_witness :
  ∃ m1 m2, WriteMem demo_mmu 388 4 (-2) = Ok (NO_EXCEPTION, m1) ∧
    ReadMem m1 388 4 = Ok (inr (-2), m2).
Proof.
  destruct (WriteMem_ReadMem demo_mmu demo_tlb 388 4 (-2) 644 demo_mmu_wf) as (m1 & m2 & E1 & E2 & _).
  - lia.
  - lia.
  - reflexivity.
  - exists m1, m2. split; [exact E1|exact E2].
Defined.
