(* ===== verification/Mips.v ===== *)
(** * [machine/encoding.cc], [machine/instruction.cc], [machine/mips_sim.cc],
    [machine/machine.cc]: the MIPS simulator

    The decoder, with the tables of the source, and the execution of one
    instruction.  Registers are [int]s: values are kept in [-2^31, 2^31) and
    arithmetic wraps.  An instruction either completes or raises an exception;
    the handler that [RaiseException] then calls is kernel code: [Execution]
    has the page-fault handler and [Syscalls] the others. *)

From S2P Require Import Prelude Bitmap Disk Mmu.
From stdpp Require Import base option list gmap numbers tactics.
From stdpp Require Import list.
Open Scope Z_scope.

(** ** Decoding *)
Inductive opcode :=
| OP_ADD | OP_ADDI | OP_ADDIU | OP_ADDU | OP_AND | OP_ANDI | OP_BEQ | OP_BGEZ
| OP_BGEZAL | OP_BGTZ | OP_BLEZ | OP_BLTZ | OP_BLTZAL | OP_BNE | OP_DIV | OP_DIVU
| OP_J | OP_JAL | OP_JALR | OP_JR | OP_LB | OP_LBU | OP_LH | OP_LHU
| OP_LUI | OP_LW | OP_LWL | OP_LWR | OP_MFHI | OP_MFLO | OP_MTHI | OP_MTLO
| OP_MULT | OP_MULTU | OP_NOR | OP_OR | OP_ORI | OP_RFE | OP_SB | OP_SH
| OP_SLL | OP_SLLV | OP_SLT | OP_SLTI | OP_SLTIU | OP_SLTU | OP_SRA | OP_SRAV
| OP_SRL | OP_SRLV | OP_SUB | OP_SUBU | OP_SW | OP_SWL | OP_SWR | OP_XOR
| OP_XORI | OP_SYSCALL | OP_UNIMP | OP_RES | SPECIAL | BCOND.

#[export] Instance opcode_eq_dec : EqDecision opcode.
Proof. solve_decision. Defined.

Inductive format := IFMT | JFMT | RFMT.

#[export] Instance format_eq_dec : EqDecision format.
Proof. solve_decision. Defined.

Definition OP_TABLE : list (opcode * format) :=
  [(SPECIAL, RFMT); (BCOND, IFMT); (OP_J, JFMT); (OP_JAL, JFMT);
   (OP_BEQ, IFMT); (OP_BNE, IFMT); (OP_BLEZ, IFMT); (OP_BGTZ, IFMT);
   (OP_ADDI, IFMT); (OP_ADDIU, IFMT); (OP_SLTI, IFMT); (OP_SLTIU, IFMT);
   (OP_ANDI, IFMT); (OP_ORI, IFMT); (OP_XORI, IFMT); (OP_LUI, IFMT);
   (OP_UNIMP, IFMT); (OP_UNIMP, IFMT); (OP_UNIMP, IFMT); (OP_UNIMP, IFMT);
   (OP_RES, IFMT); (OP_RES, IFMT); (OP_RES, IFMT); (OP_RES, IFMT);
   (OP_RES, IFMT); (OP_RES, IFMT); (OP_RES, IFMT); (OP_RES, IFMT);
   (OP_RES, IFMT); (OP_RES, IFMT); (OP_RES, IFMT); (OP_RES, IFMT);
   (OP_LB, IFMT); (OP_LH, IFMT); (OP_LWL, IFMT); (OP_LW, IFMT);
   (OP_LBU, IFMT); (OP_LHU, IFMT); (OP_LWR, IFMT); (OP_RES, IFMT);
   (OP_SB, IFMT); (OP_SH, IFMT); (OP_SWL, IFMT); (OP_SW, IFMT);
   (OP_RES, IFMT); (OP_RES, IFMT); (OP_SWR, IFMT); (OP_RES, IFMT);
   (OP_UNIMP, IFMT); (OP_UNIMP, IFMT); (OP_UNIMP, IFMT); (OP_UNIMP, IFMT);
   (OP_RES, IFMT); (OP_RES, IFMT); (OP_RES, IFMT); (OP_RES, IFMT);
   (OP_UNIMP, IFMT); (OP_UNIMP, IFMT); (OP_UNIMP, IFMT); (OP_UNIMP, IFMT);
   (OP_RES, IFMT); (OP_RES, IFMT); (OP_RES, IFMT); (OP_RES, IFMT)].

Definition SPECIAL_TABLE : list opcode :=
  [OP_SLL; OP_RES; OP_SRL; OP_SRA;
   OP_SLLV; OP_RES; OP_SRLV; OP_SRAV;
   OP_JR; OP_JALR; OP_RES; OP_RES;
   OP_SYSCALL; OP_UNIMP; OP_RES; OP_RES;
   OP_MFHI; OP_MTHI; OP_MFLO; OP_MTLO;
   OP_RES; OP_RES; OP_RES; OP_RES;
   OP_MULT; OP_MULTU; OP_DIV; OP_DIVU;
   OP_RES; OP_RES; OP_RES; OP_RES;
   OP_ADD; OP_ADDU; OP_SUB; OP_SUBU;
   OP_AND; OP_OR; OP_XOR; OP_NOR;
   OP_RES; OP_RES; OP_SLT; OP_SLTU;
   OP_RES; OP_RES; OP_RES; OP_RES;
   OP_RES; OP_RES; OP_RES; OP_RES;
   OP_RES; OP_RES; OP_RES; OP_RES;
   OP_RES; OP_RES; OP_RES; OP_RES;
   OP_RES; OP_RES; OP_RES; OP_RES].

Record Instruction := mkInstr {
  value : Z;
  opCode : opcode;
  rs : Z;
  rt : Z;
  rd_ : Z;
  extra : Z
}.

Definition Decode (value : Z) : result Instruction :=
  let rs := Z.land (Z.shiftr value 21) 0x1F in
  let rt := Z.land (Z.shiftr value 16) 0x1F in
  let rd' := Z.land (Z.shiftr value 11) 0x1F in
  opPtr ← rd OP_TABLE (Z.land (Z.shiftr value 26) 0x3F);
  let '(op, fmt) := opPtr in
  let extra :=
    match fmt with
    | IFMT => let extra := Z.land value 0xFFFF in
              if negb (Z.land extra 0x8000 =? 0) then s32 (Z.lor extra 0xFFFF0000) else extra
    | RFMT => Z.land (Z.shiftr value 6) 0x1F
    | JFMT => Z.land value 0x3FFFFFF
    end in
  opCode ← (match op with
    | SPECIAL => rd SPECIAL_TABLE (Z.land value 0x3F)
    | BCOND =>
        let i := Z.land value 0x1F0000 in
        Ok (if i =? 0 then OP_BLTZ
            else if i =? 0x10000 then OP_BGEZ
            else if i =? 0x100000 then OP_BLTZAL
            else if i =? 0x110000 then OP_BGEZAL
            else OP_UNIMP)
    | op => Ok op
    end);
  Ok (mkInstr value opCode rs rt rd' extra).

(** ** Registers *)
Definition RET_ADDR_REG : Z := 31.
Definition HI_REG : Z := 32.
Definition LO_REG : Z := 33.
Definition PC_REG : Z := 34.
Definition NEXT_PC_REG : Z := 35.
Definition PREV_PC_REG : Z := 36.
Definition LOAD_REG : Z := 37.
Definition LOAD_VALUE_REG : Z := 38.
Definition BAD_VADDR_REG : Z := 39.
Definition NUM_GP_REGS : Z := 32.
Definition NUM_TOTAL_REGS : Z := 40.
Definition SIGN_BIT : Z := 0x80000000.

(** The processor is the same for every memory: [mem_read] and [mem_write] are
    [MMU::ReadMem] and [MMU::WriteMem] of the machine. *)
Class Memory (M : Type) := {
  mem_read : M → Z → Z → result ((ExceptionType + Z) * M);
  mem_write : M → Z → Z → Z → result (ExceptionType * M)
}.
#[export] Instance MMU_memory : Memory MMU := { mem_read := ReadMem; mem_write := WriteMem }.

Record MachineOf (M : Type) := mkMachine {
  registers : list Z;
  mmu : M;
  handlers : ExceptionType → bool      (* is a handler set? *)
}.
Arguments mkMachine {M} registers mmu handlers.
Arguments registers {M} m : rename.
Arguments mmu {M} m : rename.
Arguments handlers {M} m _ : rename.

(** ** Outcomes *)
Inductive outcomeOf (M : Type) :=
| Completed (m : MachineOf M)
| Raised (et : ExceptionType) (m : MachineOf M).
Arguments Completed {M} m.
Arguments Raised {M} et m.

(** The machine of this kernel. *)
Abbreviation Machine := (MachineOf MMU).
Abbreviation outcome := (outcomeOf MMU).

Section Processor.
Context {M : Type} `{Memory M}.

Definition reg (m : MachineOf M) (r : Z) : result Z := rd (registers m) r.
Definition set_reg (m : MachineOf M) (r v : Z) : result (MachineOf M) :=
  regs ← wr (registers m) r v; Ok (mkMachine regs (mmu m) (handlers m)).
Definition set_mmu (m : MachineOf M) (u : M) : MachineOf M := mkMachine (registers m) u (handlers m).

Definition ReadRegister (m : MachineOf M) (num : Z) : result Z :=
  _ ← ASSERT (bool_decide (num < NUM_TOTAL_REGS)); reg m num.
Definition WriteRegister (m : MachineOf M) (num v : Z) : result (MachineOf M) :=
  _ ← ASSERT (bool_decide (num < NUM_TOTAL_REGS));
  if bool_decide (num ≠ 0) then set_reg m num v else Ok m.

Definition DelayedLoad (m : MachineOf M) (nextReg nextValue : Z) : result (MachineOf M) :=
  lr ← reg m LOAD_REG;
  lv ← reg m LOAD_VALUE_REG;
  m ← set_reg m lr lv;
  m ← set_reg m LOAD_REG nextReg;
  m ← set_reg m LOAD_VALUE_REG nextValue;
  set_reg m 0 0.

(** [RaiseException] up to the call of the handler. *)
Definition RaiseException (m : MachineOf M) (et : ExceptionType) (badVAddr : Z) : result (outcomeOf M) :=
  _ ← ASSERT (handlers m et);
  m ← set_reg m BAD_VADDR_REG (s32 badVAddr);
  m ← DelayedLoad m 0 0;
  Ok (Raised et m).

(** [Machine::ReadMem] and [Machine::WriteMem] with the code that follows a
    success. *)
Definition with_ReadMem (m : MachineOf M) (addr size : Z) (k : Z → MachineOf M → result (outcomeOf M))
  : result (outcomeOf M) :=
  r ← mem_read (mmu m) (u32 addr) size;
  let '(r, u) := r in
  let m := set_mmu m u in
  match r with inl e => RaiseException m e (u32 addr) | inr v => k v m end.

Definition with_WriteMem (m : MachineOf M) (addr size v : Z) (k : MachineOf M → result (outcomeOf M))
  : result (outcomeOf M) :=
  r ← mem_write (mmu m) (u32 addr) size v;
  let '(e, u) := r in
  let m := set_mmu m u in
  if decide (e = NO_EXCEPTION) then k m else RaiseException m e (u32 addr).

(** The end of [ExecInstruction]: the delayed load and the program counters. *)
Definition finish (m : MachineOf M) (nextLoadReg nextLoadValue pcAfter : Z) : result (outcomeOf M) :=
  m ← DelayedLoad m nextLoadReg nextLoadValue;
  pc ← reg m PC_REG;
  m ← set_reg m PREV_PC_REG pc;
  npc ← reg m NEXT_PC_REG;
  m ← set_reg m PC_REG npc;
  m ← set_reg m NEXT_PC_REG pcAfter;
  Ok (Completed m).

(** ** Multiplication *)
Fixpoint Mult_loop (n : nat) (a bLo bHi lo hi : Z) : Z * Z :=
  match n with
  | O => (lo, hi)
  | S n =>
      let odd := negb (Z.land a 1 =? 0) in
      let lo' := if odd then u32 (lo + bLo) else lo in
      let hi' := if odd then u32 (u32 (if bool_decide (lo' < bLo) then hi + 1 else hi) + bHi) else hi in
      if odd && (Z.land (u32 a) 0xFFFFFFFE =? 0) then (lo', hi')
      else
        let bHi' := u32 (bHi * 2) in
        let bHi' := if negb (Z.land bLo SIGN_BIT =? 0) then Z.lor bHi' 1 else bHi' in
        Mult_loop n (Z.shiftr a 1) (u32 (bLo * 2)) bHi' lo' hi'
  end.

(** Returns the words for [*hiPtr] and [*loPtr]. *)
Definition Mult (a b : Z) (signedArith : bool) : Z * Z :=
  if bool_decide (a = 0) || bool_decide (b = 0) then (0, 0)
  else
    let negative := signedArith && xorb (bool_decide (a < 0)) (bool_decide (b < 0)) in
    let a := if signedArith && bool_decide (a < 0) then s32 (- a) else a in
    let b := if signedArith && bool_decide (b < 0) then s32 (- b) else b in
    let '(lo, hi) := Mult_loop 32 a (u32 b) 0 0 0 in
    let '(lo, hi) :=
      if negative then
        let hi := u32 (Z.lnot hi) in
        let lo := u32 (u32 (Z.lnot lo) + 1) in
        (lo, if bool_decide (lo = 0) then u32 (hi + 1) else hi)
      else (lo, hi) in
    (s32 hi, s32 lo).

(** ** Execution *)
Definition IndexToAddr (x : Z) : Z := s32 (Z.shiftl x 2).

(** [x & SIGN_BIT] as a condition. *)
Definition sign (x : Z) : bool := negb (Z.land (u32 x) SIGN_BIT =? 0).
(** The bit operations on [int]s. *)
Definition and32 (x y : Z) : Z := s32 (Z.land (u32 x) (u32 y)).
Definition or32 (x y : Z) : Z := s32 (Z.lor (u32 x) (u32 y)).
Definition xor32 (x y : Z) : Z := s32 (Z.lxor (u32 x) (u32 y)).
Definition b2z (b : bool) : Z := if b then 1 else 0.

(** [INT_MIN / -1] overflows. *)
Definition div_overflows (a b : Z) : bool := bool_decide (a = - 2 ^ 31) && bool_decide (b = -1).

(** The three kinds of straight-line instructions: a result for a register, a
    jump, a load. *)
Definition set_and_finish (m : MachineOf M) (r v pcAfter : Z) : result (outcomeOf M) :=
  m ← set_reg m r v; finish m 0 0 pcAfter.
Definition branch (m : MachineOf M) (taken : bool) (i : Instruction) (pcAfter : Z) : result (outcomeOf M) :=
  npc ← reg m NEXT_PC_REG;
  finish m 0 0 (if taken then s32 (npc + IndexToAddr (extra i)) else pcAfter).
Definition link (m : MachineOf M) (r : Z) : result (MachineOf M) :=
  npc ← reg m NEXT_PC_REG; set_reg m r (s32 (npc + 4)).

(** The value LWL and LWR merge into. *)
Definition load_base (m : MachineOf M) (r : Z) : result Z :=
  lr ← reg m LOAD_REG;
  if bool_decide (lr = r) then reg m LOAD_VALUE_REG else reg m r.

Definition ExecInstruction (m : MachineOf M) (i : Instruction) : result (outcomeOf M) :=
  npc ← reg m NEXT_PC_REG;
  let pcAfter := s32 (npc + 4) in
  match opCode i with
  | OP_ADD =>
      a ← reg m (rs i); b ← reg m (rt i);
      let sum := s32 (a + b) in
      if negb (sign (xor32 a b)) && sign (xor32 a sum) then RaiseException m OVERFLOW_EXCEPTION 0
      else set_and_finish m (rd_ i) sum pcAfter
  | OP_ADDI =>
      a ← reg m (rs i);
      let sum := s32 (a + extra i) in
      if negb (sign (xor32 a (extra i))) && sign (xor32 (extra i) sum)
      then RaiseException m OVERFLOW_EXCEPTION 0
      else set_and_finish m (rt i) sum pcAfter
  | OP_ADDIU => a ← reg m (rs i); set_and_finish m (rt i) (s32 (a + extra i)) pcAfter
  | OP_ADDU =>
      a ← reg m (rs i); b ← reg m (rt i); set_and_finish m (rd_ i) (s32 (a + b)) pcAfter
  | OP_AND =>
      a ← reg m (rs i); b ← reg m (rt i); set_and_finish m (rd_ i) (and32 a b) pcAfter
  | OP_ANDI =>
      a ← reg m (rs i);
      set_and_finish m (rt i) (and32 a (Z.land (u32 (extra i)) 0xFFFF)) pcAfter
  | OP_BEQ =>
      a ← reg m (rs i); b ← reg m (rt i); branch m (bool_decide (a = b)) i pcAfter
  | OP_BGEZAL =>
      m ← link m RET_ADDR_REG;
      a ← reg m (rs i); branch m (negb (sign a)) i pcAfter
  | OP_BGEZ => a ← reg m (rs i); branch m (negb (sign a)) i pcAfter
  | OP_BGTZ => a ← reg m (rs i); branch m (bool_decide (a > 0)) i pcAfter
  | OP_BLEZ => a ← reg m (rs i); branch m (bool_decide (a <= 0)) i pcAfter
  | OP_BLTZAL =>
      m ← link m RET_ADDR_REG;
      a ← reg m (rs i); branch m (sign a) i pcAfter
  | OP_BLTZ => a ← reg m (rs i); branch m (sign a) i pcAfter
  | OP_BNE =>
      a ← reg m (rs i); b ← reg m (rt i); branch m (bool_decide (a ≠ b)) i pcAfter
  | OP_DIV =>
      a ← reg m (rs i); b ← reg m (rt i);
      if bool_decide (b = 0) then
        m ← set_reg m LO_REG 0; m ← set_reg m HI_REG 0; finish m 0 0 pcAfter
      else if div_overflows a b then Err Undefined
      else
        m ← set_reg m LO_REG (Z.quot a b);
        m ← set_reg m HI_REG (Z.rem a b);
        finish m 0 0 pcAfter
  | OP_DIVU =>
      a ← reg m (rs i); b ← reg m (rt i);
      if bool_decide (u32 b = 0) then
        m ← set_reg m LO_REG 0; m ← set_reg m HI_REG 0; finish m 0 0 pcAfter
      else
        m ← set_reg m LO_REG (s32 (u32 a / u32 b));
        m ← set_reg m HI_REG (s32 (u32 a mod u32 b));
        finish m 0 0 pcAfter
  | OP_JAL =>
      m ← link m RET_ADDR_REG;
      finish m 0 0 (or32 (and32 pcAfter 0xF0000000) (IndexToAddr (extra i)))
  | OP_J => finish m 0 0 (or32 (and32 pcAfter 0xF0000000) (IndexToAddr (extra i)))
  | OP_JALR => m ← link m (rd_ i); a ← reg m (rs i); finish m 0 0 a
  | OP_JR => a ← reg m (rs i); finish m 0 0 a
  | OP_LB | OP_LBU =>
      a ← reg m (rs i);
      with_ReadMem m (s32 (a + extra i)) 1 (λ v m,
        finish m (rt i)
          (if negb (Z.land (u32 v) 0x80 =? 0) && bool_decide (opCode i = OP_LB)
           then or32 v 0xFFFFFF00 else and32 v 0xFF) pcAfter)
  | OP_LH | OP_LHU =>
      a ← reg m (rs i);
      let tmp := s32 (a + extra i) in
      if negb (Z.land (u32 tmp) 1 =? 0) then RaiseException m ADDRESS_ERROR_EXCEPTION (u32 tmp)
      else with_ReadMem m tmp 2 (λ v m,
        finish m (rt i)
          (if negb (Z.land (u32 v) 0x8000 =? 0) && bool_decide (opCode i = OP_LH)
           then or32 v 0xFFFF0000 else and32 v 0xFFFF) pcAfter)
  | OP_LUI => set_and_finish m (rt i) (s32 (Z.shiftl (extra i) 16)) pcAfter
  | OP_LW =>
      a ← reg m (rs i);
      let tmp := s32 (a + extra i) in
      if negb (Z.land (u32 tmp) 3 =? 0) then RaiseException m ADDRESS_ERROR_EXCEPTION (u32 tmp)
      else with_ReadMem m tmp 4 (λ v m, finish m (rt i) v pcAfter)
  | OP_LWL =>
      (* with [tmp & 3 == 0] asserted, the [switch] takes its case 0 *)
      a ← reg m (rs i);
      let tmp := s32 (a + extra i) in
      _ ← ASSERT (Z.land (u32 tmp) 3 =? 0);
      with_ReadMem m tmp 4 (λ v m, _ ← load_base m (rt i); finish m (rt i) v pcAfter)
  | OP_LWR =>
      a ← reg m (rs i);
      let tmp := s32 (a + extra i) in
      _ ← ASSERT (Z.land (u32 tmp) 3 =? 0);
      with_ReadMem m tmp 4 (λ v m,
        base ← load_base m (rt i);
        finish m (rt i)
          (or32 (and32 base 0xFFFFFF00) (and32 (Z.shiftr v 24) 0xFF)) pcAfter)
  | OP_MFHI => a ← reg m HI_REG; set_and_finish m (rd_ i) a pcAfter
  | OP_MFLO => a ← reg m LO_REG; set_and_finish m (rd_ i) a pcAfter
  | OP_MTHI => a ← reg m (rs i); set_and_finish m HI_REG a pcAfter
  | OP_MTLO => a ← reg m (rs i); set_and_finish m LO_REG a pcAfter
  | OP_MULT | OP_MULTU =>
      a ← reg m (rs i); b ← reg m (rt i);
      let '(hi, lo) := Mult a b (bool_decide (opCode i = OP_MULT)) in
      m ← set_reg m HI_REG hi;
      m ← set_reg m LO_REG lo;
      finish m 0 0 pcAfter
  | OP_NOR =>
      a ← reg m (rs i); b ← reg m (rt i);
      set_and_finish m (rd_ i) (s32 (Z.lnot (or32 a b))) pcAfter
  | OP_OR =>
      a ← reg m (rs i); b ← reg m (rt i); set_and_finish m (rd_ i) (or32 a b) pcAfter
  | OP_ORI =>
      a ← reg m (rs i);
      set_and_finish m (rt i) (or32 a (Z.land (u32 (extra i)) 0xFFFF)) pcAfter
  | OP_SB =>
      a ← reg m (rs i); v ← reg m (rt i);
      with_WriteMem m (s32 (a + extra i)) 1 v (λ m, finish m 0 0 pcAfter)
  | OP_SH =>
      a ← reg m (rs i); v ← reg m (rt i);
      with_WriteMem m (s32 (a + extra i)) 2 v (λ m, finish m 0 0 pcAfter)
  | OP_SLL =>
      a ← reg m (rt i); set_and_finish m (rd_ i) (s32 (Z.shiftl a (extra i))) pcAfter
  | OP_SLLV =>
      a ← reg m (rt i); b ← reg m (rs i);
      set_and_finish m (rd_ i) (s32 (Z.shiftl a (Z.land (u32 b) 0x1F))) pcAfter
  | OP_SLT =>
      a ← reg m (rs i); b ← reg m (rt i);
      set_and_finish m (rd_ i) (b2z (bool_decide (a < b))) pcAfter
  | OP_SLTI =>
      a ← reg m (rs i); set_and_finish m (rt i) (b2z (bool_decide (a < extra i))) pcAfter
  | OP_SLTIU =>
      a ← reg m (rs i);
      set_and_finish m (rt i) (b2z (bool_decide (u32 a < u32 (extra i)))) pcAfter
  | OP_SLTU =>
      a ← reg m (rs i); b ← reg m (rt i);
      set_and_finish m (rd_ i) (b2z (bool_decide (u32 a < u32 b))) pcAfter
  | OP_SRA =>
      a ← reg m (rt i); set_and_finish m (rd_ i) (Z.shiftr a (extra i)) pcAfter
  | OP_SRAV =>
      a ← reg m (rt i); b ← reg m (rs i);
      set_and_finish m (rd_ i) (Z.shiftr a (Z.land (u32 b) 0x1F)) pcAfter
  | OP_SRL =>
      (* [tmp] is an [int] *)
      tmp ← reg m (rt i); set_and_finish m (rd_ i) (Z.shiftr tmp (extra i)) pcAfter
  | OP_SRLV =>
      tmp ← reg m (rt i); b ← reg m (rs i);
      set_and_finish m (rd_ i) (Z.shiftr tmp (Z.land (u32 b) 0x1F)) pcAfter
  | OP_SUB =>
      a ← reg m (rs i); b ← reg m (rt i);
      let diff := s32 (a - b) in
      if sign (xor32 a b) && sign (xor32 a diff) then RaiseException m OVERFLOW_EXCEPTION 0
      else set_and_finish m (rd_ i) diff pcAfter
  | OP_SUBU =>
      a ← reg m (rs i); b ← reg m (rt i); set_and_finish m (rd_ i) (s32 (a - b)) pcAfter
  | OP_SW =>
      a ← reg m (rs i); v ← reg m (rt i);
      with_WriteMem m (s32 (a + extra i)) 4 v (λ m, finish m 0 0 pcAfter)
  | OP_SWL =>
      a ← reg m (rs i);
      let tmp := s32 (a + extra i) in
      _ ← ASSERT (Z.land (u32 tmp) 3 =? 0);
      with_ReadMem m tmp 4 (λ _ m,
        v ← reg m (rt i);
        with_WriteMem m tmp 4 v (λ m, finish m 0 0 pcAfter))
  | OP_SWR =>
      a ← reg m (rs i);
      let tmp := s32 (a + extra i) in
      _ ← ASSERT (Z.land (u32 tmp) 3 =? 0);
      with_ReadMem m tmp 4 (λ old m,
        v ← reg m (rt i);
        with_WriteMem m tmp 4 (or32 (and32 old 0xFFFFFF) (s32 (Z.shiftl v 24)))
          (λ m, finish m 0 0 pcAfter))
  | OP_SYSCALL => RaiseException m SYSCALL_EXCEPTION 0
  | OP_XOR =>
      a ← reg m (rs i); b ← reg m (rt i); set_and_finish m (rd_ i) (xor32 a b) pcAfter
  | OP_XORI =>
      a ← reg m (rs i);
      set_and_finish m (rt i) (xor32 a (Z.land (u32 (extra i)) 0xFFFF)) pcAfter
  | OP_RES | OP_UNIMP => RaiseException m ILLEGAL_INSTR_EXCEPTION 0
  | OP_RFE | SPECIAL | BCOND => Err AssertFail
  end.

(** [FetchInstruction]: the word at the program counter, decoded, or the
    exception that was raised. *)
Definition FetchInstruction (m : MachineOf M) : result (outcomeOf M + Instruction * MachineOf M) :=
  pc ← reg m PC_REG;
  r ← mem_read (mmu m) (u32 pc) 4;
  let '(r, u) := r in
  let m := set_mmu m u in
  match r with
  | inl e => o ← RaiseException m e (u32 pc); Ok (inl o)
  | inr raw => i ← Decode (u32 raw); Ok (inr (i, m))
  end.

(** The body of the loop of [Run], up to the exception handler and
    [interrupt->OneTick]. *)
Definition processor_step (m : MachineOf M) : result (outcomeOf M) :=
  r ← FetchInstruction m;
  match r with inl o => Ok o | inr (i, m) => ExecInstruction m i end.
End Processor.

(** ** [Mult] computes the product *)
Definition W : Z := 4294967296.

Lemma W_pow : 2 ^ 32 = W. Proof. reflexivity. Qed.

Lemma sign_bit_u32 x : 0 ≤ x < W → negb (Z.land x SIGN_BIT =? 0) = bool_decide (W / 2 ≤ x).
Proof.
  intros Hx. change SIGN_BIT with (2 ^ 31). change (W / 2) with 2147483648.
  destruct (Z.land x (2 ^ 31) =? 0) eqn:E.
  - apply Z.eqb_eq in E. symmetry. apply bool_decide_false. intros Hle.
    assert (Z.testbit (Z.land x (2 ^ 31)) 31 = true) as Ht; [|by rewrite E in Ht].
    rewrite Z.land_spec, Z.pow2_bits_true, andb_true_r by lia.
    apply Z.testbit_true; [lia|]. replace (x / 2 ^ 31) with 1; [done|].
    unfold W in *. apply (Z.div_unique x (2 ^ 31) 1 (x - 2 ^ 31)); lia.
  - symmetry. apply bool_decide_true. apply Z.nlt_ge. intros Hlt. apply Z.eqb_neq in E. apply E.
    apply Z.bits_inj'. intros k Hk. rewrite Z.land_spec, Z.bits_0, Z.pow2_bits_eqb by lia.
    destruct (31 =? k) eqn:Ek; [|apply andb_false_r]. apply Z.eqb_eq in Ek as <-.
    rewrite andb_true_r. apply Z.testbit_false; [lia|].
    rewrite Z.div_small; [done|]. unfold W in *. lia.
Qed.

Lemma lor_even_1 x : 0 ≤ x → x mod 2 = 0 → Z.lor x 1 = x + 1.
Proof.
  intros Hx He. assert (x = 2 * (x / 2)) as E by (pose proof (Z.div_mod x 2 ltac:(lia)); lia).
  revert E. generalize (x / 2). intros k ->. destruct k; [done|done|lia].
Qed.

Lemma mul2_u32 b : 0 ≤ b < W →
  u32 (b * 2) = if bool_decide (W / 2 ≤ b) then b * 2 - W else b * 2.
Proof. intros Hb. case_bool_decide; unfold W in *; width_lia. Qed.

(** Doubling the pair [bHi:bLo]. *)
Lemma double_pair bLo bHi :
  0 ≤ bLo < W → 0 ≤ bHi < W →
  let bHi' := u32 (bHi * 2) in
  let bHi' := if negb (Z.land bLo SIGN_BIT =? 0) then Z.lor bHi' 1 else bHi' in
  0 ≤ u32 (bLo * 2) < W ∧ 0 ≤ bHi' < W ∧
  (bHi' * W + u32 (bLo * 2)) mod (W * W) = (2 * (bHi * W + bLo)) mod (W * W).
Proof.
  intros Hlo Hhi. cbn zeta. rewrite sign_bit_u32 by done.
  rewrite !mul2_u32 by done.
  assert (∀ x, 0 ≤ x → x mod 2 = 0 → Z.lor x 1 = x + 1) as Hlor by apply lor_even_1.
  case_bool_decide; case_bool_decide; rewrite ?Hlor;
    unfold W in *; try (Z.div_mod_to_equations; lia).
Qed.

Lemma land_high_bits x : 0 ≤ x < W → Z.land x 0xFFFFFFFE = 2 * (x / 2).
Proof.
  intros Hx. change 0xFFFFFFFE with (Z.ldiff (Z.ones 32) (Z.ones 1)).
  rewrite Z.ldiff_land, Z.land_assoc, Z.land_ones by lia. rewrite Z.mod_small by (unfold W in Hx; lia).
  rewrite <-Z.ldiff_land, Z.ldiff_ones_r, Z.shiftl_mul_pow2, Z.shiftr_div_pow2 by lia.
  change (2 ^ 1) with 2. lia.
Qed.

(** One addition of the pairs, with its carry. *)
Lemma add_pair bLo bHi lo hi :
  0 ≤ bLo < W → 0 ≤ bHi < W → 0 ≤ lo < W → 0 ≤ hi < W →
  let lo' := u32 (lo + bLo) in
  let hi' := u32 (u32 (if bool_decide (lo' < bLo) then hi + 1 else hi) + bHi) in
  0 ≤ lo' < W ∧ 0 ≤ hi' < W ∧
  ∃ q, hi' * W + lo' = hi * W + lo + (bHi * W + bLo) + q * (W * W).
Proof.
  intros Hb1 Hb2 H1 H2. cbn zeta. unfold u32. rewrite W_pow.
  set (lo' := (lo + bLo) mod W). set (c := if bool_decide (lo' < bLo) then hi + 1 else hi).
  assert (0 ≤ lo' < W) by (by apply Z.mod_pos_bound).
  assert (c * W + lo' = hi * W + lo + bLo) as Hc.
  { unfold c, lo'. case_bool_decide as Hlt; unfold lo', W in *; Z.div_mod_to_equations; lia. }
  split_and!; [lia|lia|by apply Z.mod_pos_bound|by apply Z.mod_pos_bound|].
  rewrite Z.add_mod_idemp_l by done. exists (- ((c + bHi) / W)).
  pose proof (Z.div_mod (c + bHi) W ltac:(done)) as Hd. nia.
Qed.

Lemma mod_split a n : a mod 2 ^ Z.of_nat (S n) = a mod 2 + 2 * ((a / 2) mod 2 ^ Z.of_nat n).
Proof.
  rewrite Nat2Z.inj_succ, Z.pow_succ_r by lia. apply Z.rem_mul_r; [lia|].
  apply Z.pow_pos_nonneg; lia.
Qed.

(** The loop adds [a mod 2^n] times the pair [bHi:bLo] to the pair [hi:lo]. *)
Lemma Mult_loop_spec n : (n ≤ 32)%nat → ∀ a bLo bHi lo hi,
  0 ≤ bLo < W → 0 ≤ bHi < W → 0 ≤ lo < W → 0 ≤ hi < W →
  let '(lo', hi') := Mult_loop n a bLo bHi lo hi in
  0 ≤ lo' < W ∧ 0 ≤ hi' < W ∧
  hi' * W + lo' = (hi * W + lo + (a mod 2 ^ Z.of_nat n) * (bHi * W + bLo)) mod (W * W).
Proof.
  induction n as [|n IH]; intros Hn a bLo bHi lo hi Hb1 Hb2 H1 H2; cbn [Mult_loop].
  { split_and!; [lia..|]. change (2 ^ Z.of_nat 0) with 1. rewrite Z.mod_1_r.
    rewrite Z.mod_small; unfold W in *; lia. }
  rewrite land_1. set (odd := negb (a mod 2 =? 0)).
  set (lo' := if odd then u32 (lo + bLo) else lo).
  set (hi' := if odd then u32 (u32 (if bool_decide (lo' < bLo) then hi + 1 else hi) + bHi) else hi).
  assert (a mod 2 = if odd then 1 else 0) as Ha.
  { unfold odd. pose proof (Z.mod_pos_bound a 2). destruct (a mod 2 =? 0) eqn:E; cbn;
      [by apply Z.eqb_eq|apply Z.eqb_neq in E; lia]. }
  assert (0 ≤ lo' < W ∧ 0 ≤ hi' < W ∧
    ∃ q, hi' * W + lo' = hi * W + lo + (a mod 2) * (bHi * W + bLo) + q * (W * W))
    as (Hl' & Hh' & q & Hstep).
  { unfold hi', lo'. rewrite Ha. destruct odd.
    - destruct (add_pair bLo bHi lo hi Hb1 Hb2 H1 H2) as (? & ? & q & E).
      split_and!; [lia..|]. exists q. lia.
    - split_and!; [lia..|]. exists 0. lia. }
  clearbody lo' hi'. rewrite land_high_bits by apply (u32_range a).
  destruct (odd && (2 * (u32 a / 2) =? 0)) eqn:Ebrk.
  - apply andb_true_iff in Ebrk as [Hodd Hz%Z.eqb_eq]. rewrite Hodd in Ha.
    assert (a mod 2 ^ Z.of_nat (S n) = 1) as ->.
    { rewrite mod_split, Ha. replace ((a / 2) mod 2 ^ Z.of_nat n) with 0; [lia|].
      assert (a / 2 = a / W * 2 ^ (31 - Z.of_nat n) * 2 ^ Z.of_nat n) as ->.
      { rewrite <-Z.mul_assoc, <-Z.pow_add_r by lia.
        replace (31 - Z.of_nat n + Z.of_nat n) with 31 by lia. change (2 ^ 31) with 2147483648.
        unfold u32 in Hz. rewrite W_pow in Hz. unfold W in *. Z.div_mod_to_equations. lia. }
      rewrite Z.mod_mul; [done|]. apply Z.pow_nonzero; lia. }
    split_and!; [lia..|]. rewrite Ha in Hstep. 
    replace (hi * W + lo + 1 * (bHi * W + bLo)) with (hi' * W + lo' + (- q) * (W * W)) by lia.
    rewrite Z.mod_add by done. rewrite Z.mod_small; [done|]. nia.
  - destruct (double_pair bLo bHi Hb1 Hb2) as (Hd1 & Hd2 & Hd3). cbn zeta in Hd2, Hd3.
    specialize (IH ltac:(lia) (Z.shiftr a 1) _ _ lo' hi' Hd1 Hd2 Hl' Hh').
    destruct (Mult_loop n _ _ _ _ _) as [lo2 hi2]. destruct IH as (? & ? & ->).
    split_and!; [lia..|]. rewrite Z.shiftr_div_pow2 by lia. change (2 ^ 1) with 2.
    rewrite mod_split. set (t := (a / 2) mod 2 ^ Z.of_nat n).
    rewrite Z.add_mod, Z.mul_mod, Hd3, <-Z.mul_mod, <-Z.add_mod by done.
    replace (hi' * W + lo' + t * (2 * (bHi * W + bLo))) with
      (hi * W + lo + (a mod 2 + 2 * t) * (bHi * W + bLo) + q * (W * W)) by lia.
    by rewrite Z.mod_add.
Qed.

(** The two's complement of a pair of words. *)
Lemma negate_pair lo hi : 0 ≤ lo < W → 0 ≤ hi < W →
  let hi1 := u32 (Z.lnot hi) in
  let lo1 := u32 (u32 (Z.lnot lo) + 1) in
  let hi2 := if bool_decide (lo1 = 0) then u32 (hi1 + 1) else hi1 in
  0 ≤ lo1 < W ∧ 0 ≤ hi2 < W ∧ hi2 * W + lo1 = (- (hi * W + lo)) mod (W * W).
Proof.
  intros Hlo Hhi. cbn zeta. unfold Z.lnot, Z.pred.
  assert (u32 (- lo + -1) = W - 1 - lo) as -> by (unfold W in *; width_lia).
  assert (u32 (- hi + -1) = W - 1 - hi) as -> by (unfold W in *; width_lia).
  destruct (decide (lo = 0)) as [->|Hne].
  - assert (u32 (W - 1 - 0 + 1) = 0) as -> by reflexivity. rewrite bool_decide_true by done.
    destruct (decide (hi = 0)) as [->|Hhne].
    + assert (u32 (W - 1 - 0 + 1) = 0) as -> by reflexivity. split_and!; [unfold W; lia..|done].
    + rewrite u32_id by (unfold is_u32, W in *; lia). split_and!; [unfold W in *; lia..|].
      apply (Z.mod_unique _ _ (-1)); unfold W in *; lia.
  - rewrite (u32_id (W - 1 - lo + 1)) by (unfold is_u32, W in *; lia).
    rewrite bool_decide_false by lia. split_and!; [unfold W in *; lia..|].
    apply (Z.mod_unique _ _ (-1)); unfold W in *; lia.
Qed.

Lemma abs_word x : is_s32 x → u32 (if bool_decide (x < 0) then s32 (- x) else x) = Z.abs x.
Proof. intros Hx. case_bool_decide; width_lia. Qed.

Ltac abs_cases a b :=
  first [ rewrite (Z.abs_neq a), (Z.abs_eq b) by lia | rewrite (Z.abs_eq a), (Z.abs_neq b) by lia
        | rewrite (Z.abs_eq a), (Z.abs_eq b) by lia | rewrite (Z.abs_neq a), (Z.abs_neq b) by lia ];
  lia.

(** C33: multiplication.  For all register values, the words [Mult] leaves in HI
    and LO are the 64-bit product: of the values as signed numbers for MULT
    (also for the most negative number, whose absolute value is not an
    [int]), and as unsigned numbers for MULTU. *)
Theorem Mult_correct a b (Ha : is_s32 a) (Hb : is_s32 b) :
  let '(hi, lo) := Mult a b true in
  let '(hiu, lou) := Mult a b false in
  u32 hi * 2 ^ 32 + u32 lo = (a * b) mod 2 ^ 64 ∧
  u32 hiu * 2 ^ 32 + u32 lou = u32 a * u32 b.
Proof.
  change (2 ^ 64) with (W * W). rewrite W_pow. unfold Mult.
  destruct (bool_decide (a = 0) || bool_decide (b = 0)) eqn:Hz.
  { apply orb_true_iff in Hz as [->%bool_decide_eq_true | ->%bool_decide_eq_true];
      [done|by rewrite !Z.mul_0_r]. }
  cbn [andb].
  set (a' := if bool_decide (a < 0) then s32 (- a) else a).
  set (b' := if bool_decide (b < 0) then s32 (- b) else b).
  pose proof (abs_word a Ha) as Ea. fold a' in Ea. pose proof (abs_word b Hb) as Eb. fold b' in Eb.
  pose proof (Mult_loop_spec 32 ltac:(lia) a' (u32 b') 0 0 0 (u32_range b')) as Hs.
  pose proof (Mult_loop_spec 32 ltac:(lia) a (u32 b) 0 0 0 (u32_range b)) as Hu.
  destruct (Mult_loop 32 a' (u32 b') 0 0 0) as [lo hi].
  destruct (Mult_loop 32 a (u32 b) 0 0 0) as [lou hiu].
  destruct Hs as (Hlo & Hhi & Hs); [unfold W; lia..|].
  destruct Hu as (Hlou & Hhiu & Hu); [unfold W; lia..|].
  change (a' mod 2 ^ Z.of_nat 32) with (u32 a') in Hs.
  change (a mod 2 ^ Z.of_nat 32) with (u32 a) in Hu. rewrite Ea, Eb in Hs. rewrite !Z.add_0_l, ?Z.mul_0_l in *.
  assert (0 ≤ u32 a * u32 b < W * W) as Hub
    by (pose proof (u32_range a); pose proof (u32_range b); unfold is_u32, W in *; nia).
  rewrite Z.mod_small in Hu by done.
  assert (∀ l h, 0 ≤ l < W → 0 ≤ h < W → u32 (s32 h) * W + u32 (s32 l) = h * W + l) as Hback.
  { intros l h ? ?. by rewrite !u32_s32, !u32_id. }
  destruct (xorb (bool_decide (a < 0)) (bool_decide (b < 0))) eqn:Hneg.
  - destruct (negate_pair lo hi Hlo Hhi) as (Hl2 & Hh2 & Hn). cbn zeta in Hl2, Hh2, Hn.
    split; [|rewrite Hback by done; lia]. rewrite Hback, Hn, Hs by done.
    rewrite <-(Z.sub_0_l (_ mod _)), Zminus_mod_idemp_r. f_equal.
    revert Hneg. clear -Ha Hb.
    do 2 case_bool_decide; cbn [xorb]; intros; try done; abs_cases a b.
  - split; [|rewrite Hback by done; lia]. rewrite Hback, Hs by done. f_equal.
    revert Hneg. clear -Ha Hb.
    do 2 case_bool_decide; cbn [xorb]; intros; try done; abs_cases a b.
Qed.

Lemma Mult_correct_witness :
  let '(hi, lo) := Mult (-2147483648) 3 true in
  u32 hi * 2 ^ 32 + u32 lo = (-2147483648 * 3) mod 2 ^ 64.
Proof.
  assert (is_s32 (-2147483648)) as Ha by (unfold is_s32; lia).
  assert (is_s32 3) as Hb by (unfold is_s32; lia).
  pose proof (Mult_correct (-2147483648) 3 Ha Hb) as H.
  destruct (Mult (-2147483648) 3 true) as [hi lo], (Mult (-2147483648) 3 false) as [hiu lou].
  exact (proj1 H).
Defined.

(** ** Decoding is total *)

(** Opcodes [ExecInstruction] has a case for. *)
Definition executable (op : opcode) : bool :=
  match op with OP_RFE | SPECIAL | BCOND => false | _ => true end.

Definition is_shift (op : opcode) : bool :=
  match op with OP_SLL | OP_SRA | OP_SRL => true | _ => false end.

(** What [Decode] promises of an instruction. *)
Record instr_ok (i : Instruction) : Prop := {
  io_op : executable (opCode i) = true;
  io_rs : 0 ≤ rs i < NUM_GP_REGS;
  io_rt : 0 ≤ rt i < NUM_GP_REGS;
  io_rd : 0 ≤ rd_ i < NUM_GP_REGS;
  io_extra : is_s32 (extra i);
  io_shift : is_shift (opCode i) = true → 0 ≤ extra i < 32
}.

Lemma land_ones_range x k : 0 ≤ k → 0 ≤ Z.land x (Z.ones k) < 2 ^ k.
Proof. intros. rewrite Z.land_ones by lia. apply Z.mod_pos_bound. lia. Qed.

Lemma rd_Forall {A} (P : A → Prop) (l : list A) i :
  Forall P l → 0 ≤ i < Z.of_nat (length l) → ∃ x, rd l i = Ok x ∧ P x.
Proof.
  intros HP Hi. destruct (rd_in_range l i Hi) as (x & E & Hx). exists x. split; [done|].
  rewrite Forall_lookup in HP. by eapply HP.
Qed.

(** The tables only have opcodes the simulator executes; those of the first table
    other than the two indirections are no shifts. *)
Lemma OP_TABLE_ok : Forall (λ e,
  e.1 = SPECIAL ∧ e.2 = RFMT ∨ e.1 = BCOND ∧ e.2 = IFMT
  ∨ executable e.1 = true ∧ is_shift e.1 = false) OP_TABLE.
Proof. apply (bool_decide_unpack _). vm_compute. exact I. Qed.
Lemma SPECIAL_TABLE_ok : Forall (λ op, executable op = true) SPECIAL_TABLE.
Proof. repeat constructor. Qed.

Lemma extra_range fmt v :
  is_s32 (match fmt with
    | IFMT => let extra := Z.land v 0xFFFF in
              if negb (Z.land extra 0x8000 =? 0) then s32 (Z.lor extra 0xFFFF0000) else extra
    | RFMT => Z.land (Z.shiftr v 6) 0x1F
    | JFMT => Z.land v 0x3FFFFFF
    end).
Proof.
  destruct fmt; cbn zeta.
  - destruct (negb _); [apply s32_range|]. pose proof (land_ones_range v 16 ltac:(lia)) as H.
    change (Z.ones 16) with 0xFFFF in H. unfold is_s32. lia.
  - pose proof (land_ones_range v 26 ltac:(lia)) as H.
    change (Z.ones 26) with 0x3FFFFFF in H. unfold is_s32. lia.
  - pose proof (land_ones_range (Z.shiftr v 6) 5 ltac:(lia)) as H.
    change (Z.ones 5) with 0x1F in H. unfold is_s32. lia.
Qed.

Lemma Decode_ok v : 0 ≤ v → ∃ i, Decode v = Ok i ∧ instr_ok i.
Proof.
  intros Hv. unfold Decode.
  assert (∀ x, 0 ≤ Z.land x 0x1F < 32) as H5 by (intros x; exact (land_ones_range x 5 ltac:(lia))).
  assert (∀ x, 0 ≤ Z.land x 0x3F < 64) as H6 by (intros x; exact (land_ones_range x 6 ltac:(lia))).
  destruct (rd_Forall _ OP_TABLE (Z.land (Z.shiftr v 26) 0x3F) OP_TABLE_ok) as ([op fmt] & -> & Hop).
  { apply H6. }
  cbn [mbind result_bind]. pose proof (extra_range fmt v) as Hx. cbn zeta in Hx.
  cbn [fst snd] in Hop. destruct Hop as [[-> ->]|[[-> ->]|[Hex Hsh]]].
  - destruct (rd_Forall _ SPECIAL_TABLE (Z.land v 0x3F) SPECIAL_TABLE_ok) as (op & -> & Hop).
    { apply H6. }
    cbn [mbind result_bind]. eexists. split; [done|]. split; cbn [opCode rs rt rd_ extra]; try done; try apply H5.
  - cbn [mbind result_bind]. eexists. split; [done|]. split; cbn [opCode rs rt rd_ extra]; try done; try apply H5;
      repeat match goal with |- context [if ?b then _ else _] => destruct b end; done.
  - assert (match op with
        | SPECIAL => rd SPECIAL_TABLE (Z.land v 0x3F)
        | BCOND => Ok (if Z.land v 0x1F0000 =? 0 then OP_BLTZ
            else if Z.land v 0x1F0000 =? 0x10000 then OP_BGEZ
            else if Z.land v 0x1F0000 =? 0x100000 then OP_BLTZAL
            else if Z.land v 0x1F0000 =? 0x110000 then OP_BGEZAL else OP_UNIMP)
        | op => Ok op end = Ok op) as E by (by destruct op).
    cbn zeta. rewrite E. cbn [mbind result_bind]. eexists. split; [done|].
    split; cbn [opCode rs rt rd_ extra]; try done; try apply H5. by rewrite Hsh.
Qed.

(** Decoding is total.  Every 32-bit word decodes without leaving the tables
    to an instruction that [ExecInstruction] has a case for, so its default
    [ASSERT(false)] is unreachable; the register numbers are those of general
    purpose registers, the immediate is an [int], and the amount of a constant
    shift is below 32. *)
Theorem Decode_total v (Hv : 0 ≤ v < 2 ^ 32) : ∃ i, Decode v = Ok i ∧ instr_ok i.
Proof. apply Decode_ok. lia. Qed.

Lemma Decode_total_witness : ∃ i, Decode 0x2402000A = Ok i ∧ instr_ok i.
Proof. apply Decode_total. lia. Defined.
