(* ===== verification/MipsSpec.v ===== *)
(** * The invariant of the MIPS simulator

    Every instruction keeps the machine well formed or raises an exception;
    the exact conditions of overflow; the load delay slot. *)

From S2P Require Import Prelude Bitmap Disk Mmu Mips.
From stdpp Require Import base option list gmap numbers tactics.
From stdpp Require Import list.
Open Scope Z_scope.

(** ** The invariant of the machine *)
Definition mmu_ok (u : MMU) : Prop := (∃ t, mmu_wf u t) ∧ Forall is_byte (mainMemory u).

(** Inside an instruction: register 0 may have been overwritten. *)
Record mid_ok (m : Machine) : Prop := {
  mi_len : length (registers m) = Z.to_nat NUM_TOTAL_REGS;
  mi_s32 : Forall is_s32 (registers m);
  mi_load : ∃ r, reg m LOAD_REG = Ok r ∧ 0 ≤ r < NUM_GP_REGS;
  mi_mmu : mmu_ok (mmu m);
  mi_handlers : ∀ et, handlers m et = true
}.

(** Between instructions: register 0 is zero. *)
Record machine_ok (m : Machine) : Prop := {
  mk_mid : mid_ok m;
  mk_zero : reg m 0 = Ok 0
}.

Definition outcome_ok (o : outcome) : Prop :=
  match o with Completed m | Raised _ m => machine_ok m end.
Definition good (r : result outcome) : Prop := ∃ o, r = Ok o ∧ outcome_ok o.

Lemma reg_ok m r : mid_ok m → 0 ≤ r < NUM_TOTAL_REGS → ∃ v, reg m r = Ok v ∧ is_s32 v.
Proof.
  intros [Hl Hs _ _ _] Hr. apply rd_Forall; [done|]. rewrite Hl. lia.
Qed.

Lemma set_reg_ok m r v : mid_ok m → 0 ≤ r < NUM_TOTAL_REGS → is_s32 v →
  (r = LOAD_REG → 0 ≤ v < NUM_GP_REGS) →
  ∃ m', set_reg m r v = Ok m' ∧ mid_ok m' ∧ reg m' r = Ok v ∧ (∀ q, q ≠ r → reg m' q = reg m q).
Proof.
  intros [Hl Hs (lr & Elr & Hlr) Hu Hh] Hr Hv HL. unfold set_reg.
  assert (wr (registers m) r v = Ok (<[Z.to_nat r := v]> (registers m))) as Hwr
    by (apply wr_ok; rewrite Hl; lia).
  rewrite Hwr. cbn [mbind result_bind]. eexists. split; [done|].
  pose proof (rd_wr_eq _ _ _ _ Hwr) as Heq. pose proof (λ q, rd_wr_ne _ _ r q v Hwr) as Hne.
  split_and!; [split|exact Heq|intros q Hq; by apply Hne]; cbn; try done.
  - by rewrite length_insert.
  - by apply Forall_insert.
  - unfold reg in *. cbn. destruct (decide (r = LOAD_REG)) as [->|Hd].
    + exists v. split; [done|by apply HL].
    + exists lr. by rewrite Hne.
Qed.

Lemma DelayedLoad_ok m nr nv : mid_ok m → 0 ≤ nr < NUM_GP_REGS → is_s32 nv →
  ∃ m', DelayedLoad m nr nv = Ok m' ∧ machine_ok m'.
Proof.
  intros Hm Hnr Hnv. unfold DelayedLoad. destruct (mi_load m Hm) as (lr & -> & Hlr).
  destruct (reg_ok m LOAD_VALUE_REG Hm) as (lv & -> & Hlv); [done|]. cbn [mbind result_bind].
  unfold NUM_GP_REGS in *.
  destruct (set_reg_ok m lr lv Hm) as (m1 & -> & Hm1 & _); [unfold NUM_TOTAL_REGS; lia|done|unfold LOAD_REG; lia|].
  cbn [mbind result_bind].
  destruct (set_reg_ok m1 LOAD_REG nr Hm1) as (m2 & -> & Hm2 & _); [done|width_lia|done|].
  cbn [mbind result_bind].
  destruct (set_reg_ok m2 LOAD_VALUE_REG nv Hm2) as (m3 & -> & Hm3 & _); [done|done|done|].
  cbn [mbind result_bind].
  destruct (set_reg_ok m3 0 0 Hm3) as (m4 & -> & Hm4 & Hz & _); [done|width_lia|done|].
  exists m4. split; [done|]. by split.
Qed.

Lemma finish_ok m nr nv pc : mid_ok m → 0 ≤ nr < NUM_GP_REGS → is_s32 nv → is_s32 pc →
  good (finish m nr nv pc).
Proof.
  intros Hm Hnr Hnv Hpc. unfold finish.
  destruct (DelayedLoad_ok m nr nv Hm Hnr Hnv) as (m1 & -> & [Hm1 Hz1]). cbn [mbind result_bind].
  destruct (reg_ok m1 PC_REG Hm1) as (a & -> & Ha); [done|]. cbn [mbind result_bind].
  destruct (set_reg_ok m1 PREV_PC_REG a Hm1) as (m2 & -> & Hm2 & _ & F2); [done..|]. cbn [mbind result_bind].
  destruct (reg_ok m2 NEXT_PC_REG Hm2) as (b & -> & Hb); [done|]. cbn [mbind result_bind].
  destruct (set_reg_ok m2 PC_REG b Hm2) as (m3 & -> & Hm3 & _ & F3); [done..|]. cbn [mbind result_bind].
  destruct (set_reg_ok m3 NEXT_PC_REG pc Hm3) as (m4 & -> & Hm4 & _ & F4); [done..|]. cbn [mbind result_bind].
  eexists. split; [done|]. split; [done|]. by rewrite F4, F3, F2.
Qed.

Lemma raise_ok m et bad : mid_ok m → good (RaiseException m et bad).
Proof.
  intros Hm. unfold RaiseException. rewrite (mi_handlers m Hm et). cbn [ASSERT mbind result_bind].
  destruct (set_reg_ok m BAD_VADDR_REG (s32 bad) Hm) as (m1 & -> & Hm1 & _); [done|apply s32_range|done|].
  cbn [mbind result_bind].
  destruct (DelayedLoad_ok m1 0 0 Hm1) as (m2 & -> & Hm2); [done|width_lia|]. cbn [mbind result_bind].
  by eexists.
Qed.

Lemma sext8_range b : is_byte b → is_s32 (sext8 b).
Proof. unfold is_byte, sext8, is_s32. intros. case_bool_decide; lia. Qed.

Lemma le_word_bound bs n : Forall is_byte bs → (length bs ≤ n)%nat → 0 ≤ le_word bs < 256 ^ Z.of_nat n.
Proof.
  intros Hb Hl. pose proof (le_word_range bs Hb).
  assert (256 ^ Z.of_nat (length bs) ≤ 256 ^ Z.of_nat n) by (apply Z.pow_le_mono_r; lia). lia.
Qed.

Lemma ReadMem_total u addr size : mmu_ok u → 0 ≤ addr → size = 1 ∨ size = 2 ∨ size = 4 →
  ∃ r u', ReadMem u addr size = Ok (r, u') ∧ mmu_ok u' ∧
    match r with inl _ => True | inr v => is_s32 v end.
Proof.
  intros [[t Hwf] Hb] Ha Hs.
  destruct (Translate_ok u t addr size false Hwf Ha Hs) as (u' & t' & E & Hwf' & Hm & _ & Hpa).
  assert (mmu_ok u') as Hu' by (split; [by eexists|by rewrite Hm]).
  unfold ReadMem. rewrite E. cbn [mbind result_bind].
  destruct (translation t addr size false) as [e|pa]; [by exists (inl e), u'|].
  destruct (Hpa pa eq_refl) as [Hlo Hhi]. pose proof (mw_mem _ _ Hwf') as Hlen.
  rewrite Hm in *. destruct Hs as [-> | [-> | ->]].
  - rewrite bool_decide_true by done.
    destruct (rd_Forall is_byte (mainMemory u) pa Hb) as (b & -> & Hbyte); [lia|].
    cbn [mbind result_bind]. eexists _, _. split_and!; [done|done..|]. by apply sext8_range.
  - rewrite bool_decide_false, bool_decide_true by done. rewrite slice_ok by lia. cbn [mbind result_bind].
    eexists _, _. split_and!; [done|done..|].
    pose proof (le_word_bound (take 2 (drop (Z.to_nat pa) (mainMemory u))) 2) as Hw.
    destruct Hw; [by apply Forall_take, Forall_drop|rewrite length_take; lia|]. change (256 ^ Z.of_nat 2) with 65536 in *.
    change (Z.to_nat 2) with 2%nat. unfold is_s32. lia.
  - rewrite !bool_decide_false, bool_decide_true by done. rewrite slice_ok by lia. cbn [mbind result_bind].
    eexists _, _. split_and!; [done|done..|]. apply s32_range.
Qed.

Lemma stored_bytes size v : Forall is_byte (stored size v).
Proof.
  unfold stored. case_bool_decide.
  - constructor; [|done]. exact (land_ones_range v 8 ltac:(lia)).
  - case_bool_decide; apply le_bytes_bytes.
Qed.

Lemma splice_Forall {A} (P : A → Prop) l off bs l' :
  Forall P l → Forall P bs → splice l off bs = Ok l' → Forall P l'.
Proof.
  unfold splice. case_bool_decide; [|done]. intros ? ? [= <-].
  apply Forall_app; split; [by apply Forall_take|]. apply Forall_app; split; [done|by apply Forall_drop].
Qed.

Lemma WriteMem_total u addr size v : mmu_ok u → 0 ≤ addr → size = 1 ∨ size = 2 ∨ size = 4 →
  ∃ e u', WriteMem u addr size v = Ok (e, u') ∧ mmu_ok u'.
Proof.
  intros [[t Hwf] Hb] Ha Hs.
  destruct (Translate_ok u t addr size true Hwf Ha Hs) as (u' & t' & E & Hwf' & Hm & _ & _).
  destruct (translation t addr size true) as [e|pa] eqn:Et.
  - unfold WriteMem. rewrite E. cbn [mbind result_bind]. exists e, u'. split; [done|].
    split; [by eexists|by rewrite Hm].
  - destruct (WriteMem_ok u t addr size v pa Hwf Ha Hs Et) as (u2 & t2 & -> & Hwf2 & _ & Hsp).
    eexists _, _. split; [done|]. split; [by eexists|].
    eapply splice_Forall; [exact Hb|apply (stored_bytes size v)|exact Hsp].
Qed.

Lemma set_mmu_ok m u : mid_ok m → mmu_ok u → mid_ok (set_mmu m u).
Proof. by intros [? ? ? _ ?] Hu. Qed.

Lemma with_ReadMem_ok m addr size k : mid_ok m → size = 1 ∨ size = 2 ∨ size = 4 →
  (∀ v m', is_s32 v → mid_ok m' → registers m' = registers m → good (k v m')) →
  good (with_ReadMem m addr size k).
Proof.
  intros Hm Hs Hk. unfold with_ReadMem. cbn [mem_read MMU_memory].
  destruct (ReadMem_total (mmu m) (u32 addr) size) as (r & u & -> & Hu & Hr);
    [apply Hm|apply u32_range|done|]. cbn [mbind result_bind].
  pose proof (set_mmu_ok m u Hm Hu). destruct r; [by apply raise_ok|by apply Hk].
Qed.

Lemma with_WriteMem_ok m addr size v k : mid_ok m → size = 1 ∨ size = 2 ∨ size = 4 →
  (∀ m', mid_ok m' → registers m' = registers m → good (k m')) →
  good (with_WriteMem m addr size v k).
Proof.
  intros Hm Hs Hk. unfold with_WriteMem. cbn [mem_write MMU_memory].
  destruct (WriteMem_total (mmu m) (u32 addr) size v) as (e & u & -> & Hu);
    [apply Hm|apply u32_range|done|]. cbn [mbind result_bind].
  pose proof (set_mmu_ok m u Hm Hu). case_decide; [by apply Hk|by apply raise_ok].
Qed.

(** Ranges of the values the instructions compute. *)
Lemma shiftr_range a k : is_s32 a → 0 ≤ k → is_s32 (Z.shiftr a k).
Proof.
  unfold is_s32. intros [H1 H2] Hk. rewrite Z.shiftr_div_pow2 by lia.
  assert (0 < 2 ^ k) by (apply Z.pow_pos_nonneg; lia). split.
  - apply Z.div_le_lower_bound; nia.
  - apply Z.div_lt_upper_bound; nia.
Qed.
Lemma land31_range x : 0 ≤ Z.land x 0x1F.
Proof. apply (land_ones_range x 5). lia. Qed.
Lemma b2z_range b : is_s32 (b2z b).
Proof. destruct b; unfold b2z; width_lia. Qed.
Lemma quot_range a b : is_s32 a → is_s32 b → b ≠ 0 → div_overflows a b = false → is_s32 (Z.quot a b).
Proof.
  unfold is_s32, div_overflows. intros Ha Hb Hz Ho.
  assert (¬ (a = - 2 ^ 31 ∧ b = -1)) as Hno
    by (intros [-> ->]; rewrite !bool_decide_true in Ho by done; done).
  destruct (decide (b = 1)) as [->|H1]; [by rewrite Z.quot_1_r|].
  destruct (decide (b = -1)) as [->|H2]; [change (-1) with (Z.opp 1); rewrite Z.quot_opp_r, Z.quot_1_r by lia; lia|].
  pose proof (Z.quot_abs a b Hz) as Hq.
  pose proof (Z.mul_quot_le (Z.abs a) (Z.abs b) ltac:(lia) ltac:(lia)) as Hle.
  rewrite Hq in Hle. assert (2 * Z.abs (Z.quot a b) ≤ Z.abs a) by nia. lia.
Qed.
Lemma rem_range a b : is_s32 b → b ≠ 0 → is_s32 (Z.rem a b).
Proof. unfold is_s32. intros Hb Hz. pose proof (Z.rem_bound_abs a b Hz). lia. Qed.
Lemma Mult_range a b sg : is_s32 (Mult a b sg).1 ∧ is_s32 (Mult a b sg).2.
Proof.
  unfold Mult. destruct (_ || _); [split; cbn; width_lia|].
  cbn zeta. match goal with |- context [Mult_loop ?n ?a ?b ?c ?d ?e] =>
    destruct (Mult_loop n a b c d e) as [lo hi] end.
  match goal with |- context [if ?c then _ else _] => destruct c end; cbn; split; apply s32_range.
Qed.

Create HintDb mips.
#[export] Hint Resolve s32_range shiftr_range land31_range b2z_range finish_ok raise_ok : mips.

(** Reads the next register of an instruction. *)
Ltac read_reg :=
  match goal with
  | Hm : mid_ok ?m |- context [reg ?m ?r ≫= _] =>
      let v := fresh "v" in let E := fresh "E" in let Hv := fresh "Hv" in
      destruct (reg_ok m r Hm) as (v & E & Hv);
      [unfold NUM_TOTAL_REGS, NUM_GP_REGS in *; (lia || done)|rewrite E; cbn [mbind result_bind]]
  end.
(** Writes the next register of an instruction. *)
Ltac write_reg :=
  match goal with
  | Hm : mid_ok ?m |- context [set_reg ?m ?r ?x ≫= _] =>
      let m' := fresh "m" in let E := fresh "E" in let Hm' := fresh "Hm" in
      destruct (set_reg_ok m r x Hm) as (m' & E & Hm' & _ & _);
      [unfold NUM_TOTAL_REGS, NUM_GP_REGS in *; (lia || done)
      |eauto with mips|unfold LOAD_REG, NUM_GP_REGS in *; (lia || done)
      |rewrite E; cbn [mbind result_bind]; clear E]
  end.

Lemma set_and_finish_ok m r v pc : mid_ok m → 0 ≤ r < 34 → is_s32 v → is_s32 pc →
  good (set_and_finish m r v pc).
Proof.
  intros Hm Hr Hv Hpc. unfold set_and_finish. write_reg. apply finish_ok; (done || width_lia).
Qed.
Lemma branch_ok m t i pc : mid_ok m → is_s32 pc → good (branch m t i pc).
Proof.
  intros Hm Hpc. unfold branch. read_reg. apply finish_ok; [done|done|width_lia|].
  destruct t; [apply s32_range|done].
Qed.
Lemma link_ok m r : mid_ok m → 0 ≤ r < NUM_GP_REGS → ∃ m', link m r = Ok m' ∧ mid_ok m'.
Proof.
  intros Hm Hr. unfold link. read_reg.
  destruct (set_reg_ok m r (s32 (v + 4)) Hm) as (m' & E' & Hm' & _); 
    [unfold NUM_TOTAL_REGS, NUM_GP_REGS in *; lia|apply s32_range|unfold LOAD_REG, NUM_GP_REGS in *; lia|].
  by exists m'.
Qed.
Lemma load_base_ok m r : mid_ok m → 0 ≤ r < NUM_GP_REGS → ∃ v, load_base m r = Ok v ∧ is_s32 v.
Proof.
  intros Hm Hr. unfold load_base. read_reg.
  case_bool_decide; apply reg_ok; try done; unfold NUM_TOTAL_REGS, NUM_GP_REGS in *; lia.
Qed.

(** The two ways an instruction of a user program stops the simulator: an
    unaligned LWL, LWR, SWL or SWR meets an assertion, and the quotient of the
    most negative number by -1 overflows. *)
Definition stops (m : Machine) (i : Instruction) (e : err) : Prop :=
  (e = AssertFail ∧ opCode i ∈ [OP_LWL; OP_LWR; OP_SWL; OP_SWR] ∧
   ∃ a, reg m (rs i) = Ok a ∧ Z.land (u32 (s32 (a + extra i))) 3 ≠ 0) ∨
  (e = Undefined ∧ opCode i = OP_DIV ∧
   reg m (rs i) = Ok (- 2 ^ 31) ∧ reg m (rt i) = Ok (-1)).

Ltac exec_case :=
  repeat first
    [ read_reg | write_reg
    | match goal with
      | |- good (set_and_finish _ _ _ _) => apply set_and_finish_ok
      | |- good (branch _ _ _ _) => apply branch_ok
      | |- good (finish _ _ _ _) => apply finish_ok
      | |- good (RaiseException _ _ _) => apply raise_ok
      | |- good (with_ReadMem _ _ _ _) => apply with_ReadMem_ok; [|lia|intros]
      | |- good (with_WriteMem _ _ _ _ _) => apply with_WriteMem_ok; [|lia|intros]
      | |- good (if ?b then _ else _) => destruct b
      | Hm : mid_ok ?m |- context [link ?m ?r ≫= _] =>
          let m' := fresh "m" in let E := fresh "E" in let Hm' := fresh "Hm" in
          destruct (link_ok m r Hm) as (m' & E & Hm');
          [unfold NUM_GP_REGS in *; (lia || done)|rewrite E; cbn [mbind result_bind]]
      | Hm : mid_ok ?m |- context [load_base ?m ?r ≫= _] =>
          let v := fresh "v" in let E := fresh "E" in let Hv := fresh "Hv" in
          destruct (load_base_ok m r Hm) as (v & E & Hv);
          [done|rewrite E; cbn [mbind result_bind]]
      end
    | done ];
  try (unfold NUM_GP_REGS, HI_REG, LO_REG, is_s32 in *; lia);
  repeat match goal with |- is_s32 (if ?b then _ else _) => destruct b end;
  eauto with mips.

(** The instructions with an alignment assertion. *)
Lemma aligned_case m i (k : Z → result outcome) :
  mid_ok m → 0 ≤ rs i < NUM_GP_REGS → opCode i ∈ [OP_LWL; OP_LWR; OP_SWL; OP_SWR] →
  (∀ a, is_s32 a → good (k (s32 (a + extra i)))) →
  let r := a ← reg m (rs i);
           let tmp := s32 (a + extra i) in
           _ ← ASSERT (Z.land (u32 tmp) 3 =? 0); k tmp in
  good r ∨ ∃ e, r = Err e ∧ stops m i e.
Proof.
  intros Hm Hrs Hop Hk. cbn zeta. read_reg.
  destruct (Z.land (u32 (s32 (v + extra i))) 3 =? 0) eqn:Ea; cbn [ASSERT mbind result_bind].
  - left. by apply Hk.
  - right. exists AssertFail. split; [done|]. left. split_and!; [done..|].
    exists v. split; [done|]. by apply Z.eqb_neq.
Qed.

Lemma div_case m i pc : mid_ok m → instr_ok i → opCode i = OP_DIV → is_s32 pc →
  let r := a ← reg m (rs i); b ← reg m (rt i);
      if bool_decide (b = 0) then
        m ← set_reg m LO_REG 0; m ← set_reg m HI_REG 0; finish m 0 0 pc
      else if div_overflows a b then Err Undefined
      else
        m ← set_reg m LO_REG (Z.quot a b);
        m ← set_reg m HI_REG (Z.rem a b);
        finish m 0 0 pc in
  good r ∨ ∃ e, r = Err e ∧ stops m i e.
Proof.
  intros Hm [Hop Hrs Hrt Hrd Hx Hsh] Eop Hpc. cbn zeta. read_reg. read_reg.
  assert (is_s32 0) by width_lia.
  case_bool_decide as Hz; [left; by exec_case|].
  destruct (div_overflows v v0) eqn:Eo.
  - right. exists Undefined. split; [done|]. right. split_and!; [done..| |];
      apply andb_true_iff in Eo as [->%bool_decide_eq_true ->%bool_decide_eq_true]; done.
  - left. pose proof (quot_range v v0 Hv Hv0 Hz Eo). pose proof (rem_range v v0 Hv0 Hz). exec_case.
Qed.

Lemma mult_case m a b sg pc : mid_ok m → is_s32 pc →
  good (let '(hi, lo) := Mult a b sg in
        m ← set_reg m HI_REG hi; m ← set_reg m LO_REG lo; finish m 0 0 pc).
Proof.
  intros Hm Hpc. destruct (Mult_range a b sg) as [Hhi Hlo].
  destruct (Mult a b sg) as [hi lo]. cbn [fst snd] in *. assert (is_s32 0) by width_lia. exec_case.
Qed.

Lemma ExecInstruction_ok m i : mid_ok m → instr_ok i →
  good (ExecInstruction m i) ∨ ∃ e, ExecInstruction m i = Err e ∧ stops m i e.
Proof.
  intros Hm Hi. pose proof Hi as [Hop Hrs Hrt Hrd Hx Hsh]. unfold ExecInstruction. read_reg.
  pose proof (s32_range (v + 4)) as Hpc. set (pc := s32 (v + 4)) in *. clearbody pc.
  destruct (opCode i) eqn:Eop; cbn [executable is_shift] in *; try done; try (left; by exec_case).
  - by apply div_case.
  - apply (aligned_case m i (λ tmp, with_ReadMem m tmp 4 (λ v m,
      _ ← load_base m (rt i); finish m (rt i) v pc))); [done..|rewrite Eop; set_solver|].
    intros; exec_case.
  - apply (aligned_case m i (λ tmp, with_ReadMem m tmp 4 (λ v m,
      base ← load_base m (rt i); finish m (rt i)
          (or32 (and32 base 0xFFFFFF00) (and32 (Z.shiftr v 24) 0xFF)) pc))); [done..|rewrite Eop; set_solver|].
    intros; exec_case.
  - left. read_reg. read_reg. by apply mult_case.
  - left. read_reg. read_reg. by apply mult_case.
  - left. pose proof (Hsh eq_refl) as Hk. read_reg. apply set_and_finish_ok;
      [done|unfold NUM_GP_REGS in *; lia|apply shiftr_range; [done|lia]|done].
  - left. pose proof (Hsh eq_refl) as Hk. read_reg. apply set_and_finish_ok;
      [done|unfold NUM_GP_REGS in *; lia|apply shiftr_range; [done|lia]|done].
  - apply (aligned_case m i (λ tmp, with_ReadMem m tmp 4 (λ _ m,
      v ← reg m (rt i); with_WriteMem m tmp 4 v (λ m, finish m 0 0 pc)))); [done..|rewrite Eop; set_solver|].
    intros; exec_case.
  - apply (aligned_case m i (λ tmp, with_ReadMem m tmp 4 (λ old m,
      v ← reg m (rt i);
      with_WriteMem m tmp 4 (or32 (and32 old 0xFFFFFF) (s32 (Z.shiftl v 24)))
          (λ m, finish m 0 0 pc)))); [done..|rewrite Eop; set_solver|].
    intros; exec_case.
Qed.

(** C26: executing an instruction.  From a machine whose registers hold 32-bit
    values with register 0 zero, every decoded instruction completes or raises
    an exception, with the invariant intact (no register or memory access is
    out of range, register 0 is zero again, a pending load names a general
    purpose register), except for the two cases of [stops]. *)
Theorem ExecInstruction_invariant m i (Hm : machine_ok m) (Hi : instr_ok i) :
  good (ExecInstruction m i) ∨ ∃ e, ExecInstruction m i = Err e ∧ stops m i e.
Proof. apply ExecInstruction_ok; [apply Hm|done]. Qed.

(** A machine at address 0 with page 0 in frame 0, and an ADDIU. *)
Definition demo_machine : Machine :=
  mkMachine (replicate 40 0)
    (mkMMU (replicate 2048 0) (Some [mkTE 0 0 true false false false]) None 0 (replicate 16 0) 0 0)
    (λ _, true).
Definition demo_addiu : Instruction := mkInstr 0x2402FFFF OP_ADDIU 0 2 31 (-1).

Lemma demo_machine_ok : machine_ok demo_machine.
Proof.
  split; [split; [reflexivity| |exists 0; split; [reflexivity|done]| |done]|reflexivity].
  - apply Forall_replicate. width_lia.
  - split; [|apply Forall_replicate; unfold is_byte; lia].
    eexists. split; [reflexivity..| |reflexivity]. repeat constructor; vm_compute; congruence.
Qed.

Lemma ExecInstruction_invariant_witness :
  good (ExecInstruction demo_machine demo_addiu) ∨
  ∃ e, ExecInstruction demo_machine demo_addiu = Err e ∧ stops demo_machine demo_addiu e.
Proof.
  apply (ExecInstruction_invariant demo_machine demo_addiu demo_machine_ok).
  split; vm_compute; (congruence || (split; congruence)).
Defined.

(** ** Overflow *)
Lemma sign_spec a : is_s32 a → sign a = bool_decide (a < 0).
Proof.
  intros Ha. unfold sign. rewrite sign_bit_u32 by apply (u32_range a).
  apply bool_decide_ext. change (W / 2) with 2147483648. width_lia.
Qed.

Lemma lxor_u32 a b : is_u32 a → is_u32 b → is_u32 (Z.lxor a b).
Proof.
  intros Ha Hb. apply is_u32_bits.
  - apply Z.lxor_nonneg. unfold is_u32 in *. lia.
  - intros j Hj. by rewrite Z.lxor_spec, !u32_bits_high.
Qed.

Lemma testbit31 a : is_u32 a → Z.testbit a 31 = bool_decide (2147483648 ≤ a).
Proof.
  intros Ha. rewrite Z.testbit_odd, Z.shiftr_div_pow2 by lia. unfold is_u32 in Ha.
  case_bool_decide.
  - replace (a / 2 ^ 31) with 1; [done|].
    apply (Z.div_unique a (2 ^ 31) 1 (a - 2 ^ 31)); lia.
  - rewrite Z.div_small by lia. done.
Qed.

Lemma sign_xor a b : is_s32 a → is_s32 b →
  sign (xor32 a b) = xorb (bool_decide (a < 0)) (bool_decide (b < 0)).
Proof.
  intros Ha Hb. rewrite <-(sign_spec a), <-(sign_spec b) by done. unfold sign, xor32.
  pose proof (lxor_u32 (u32 a) (u32 b) (u32_range a) (u32_range b)) as Hx.
  rewrite u32_s32, (u32_id (Z.lxor _ _)) by done.
  rewrite !sign_bit_u32 by (done || apply (u32_range a) || apply (u32_range b)).
  change (W / 2) with 2147483648. rewrite <-!testbit31 by (done || apply u32_range).
  apply Z.lxor_spec.
Qed.

Lemma add_overflow a b : is_s32 a → is_s32 b →
  negb (sign (xor32 a b)) && sign (xor32 a (s32 (a + b))) = negb (bool_decide (is_s32 (a + b))).
Proof.
  intros Ha Hb. rewrite !sign_xor by (done || apply s32_range).
  rewrite !bool_decide_decide. repeat case_decide; cbn; try done; exfalso; width_lia.
Qed.

Lemma sub_overflow a b : is_s32 a → is_s32 b →
  sign (xor32 a b) && sign (xor32 a (s32 (a - b))) = negb (bool_decide (is_s32 (a - b))).
Proof.
  intros Ha Hb. rewrite !sign_xor by (done || apply s32_range).
  rewrite !bool_decide_decide. repeat case_decide; cbn; try done; exfalso; width_lia.
Qed.

(** C34: overflow.  ADD, ADDI and SUB store the exact sum or difference when it
    is a 32-bit number, and raise an overflow exception otherwise, leaving the
    destination alone; the bit tests of the source decide exactly this. *)
Theorem overflow_exact m i a b npc (Hm : machine_ok m)
  (Ha : reg m (rs i) = Ok a) (Hb : reg m (rt i) = Ok b) (Hn : reg m NEXT_PC_REG = Ok npc)
  (Ha32 : is_s32 a) (Hb32 : is_s32 b) (Hx : is_s32 (extra i)) :
  let pcAfter := s32 (npc + 4) in
  let exact r v := if decide (is_s32 v) then set_and_finish m r v pcAfter
                   else RaiseException m OVERFLOW_EXCEPTION 0 in
  (opCode i = OP_ADD → ExecInstruction m i = exact (rd_ i) (a + b)) ∧
  (opCode i = OP_ADDI → ExecInstruction m i = exact (rt i) (a + extra i)) ∧
  (opCode i = OP_SUB → ExecInstruction m i = exact (rd_ i) (a - b)).
Proof.
  cbn zeta. unfold ExecInstruction. rewrite Hn. cbn [mbind result_bind].
  assert (∀ x, (if negb (bool_decide (is_s32 x)) then RaiseException m OVERFLOW_EXCEPTION 0
                else set_and_finish m (rd_ i) (s32 x) (s32 (npc + 4)))
             = (if decide (is_s32 x) then set_and_finish m (rd_ i) x (s32 (npc + 4))
                else RaiseException m OVERFLOW_EXCEPTION 0)) as Hrd.
  { intros x. rewrite bool_decide_decide. case_decide; cbn; [by rewrite s32_id|done]. }
  split_and!; intros ->; rewrite Ha; cbn [mbind result_bind].
  - rewrite Hb. cbn [mbind result_bind]. rewrite add_overflow by done. apply Hrd.
  - replace (sign (xor32 (extra i) (s32 (a + extra i)))) with
      (negb (sign (xor32 a (extra i))) && sign (xor32 a (s32 (a + extra i)))
       || sign (xor32 a (extra i)) && sign (xor32 (extra i) (s32 (a + extra i)))).
    2: { rewrite !sign_xor by (done || apply s32_range).
         rewrite !bool_decide_decide. repeat case_decide; done. }
    rewrite andb_orb_distrib_r, andb_assoc, andb_diag, add_overflow, andb_assoc, andb_negb_l, orb_false_r by done.
    rewrite bool_decide_decide. case_decide; cbn; [by rewrite s32_id|done].
  - rewrite Hb. cbn [mbind result_bind]. rewrite sub_overflow by done. apply Hrd.
Qed.

Lemma overflow_exact_witness :
  ExecInstruction demo_machine (mkInstr 0 OP_ADDI 0 2 0 (-7))
  = set_and_finish demo_machine 2 (-7) 4.
Proof.
  refine (proj1 (proj2 (overflow_exact demo_machine (mkInstr 0 OP_ADDI 0 2 0 (-7)) 0 0 0
    demo_machine_ok eq_refl eq_refl eq_refl _ _ _)) eq_refl); unfold is_s32; cbn; lia.
Defined.

(** SRL is not a logical shift.  [tmp] is an [int], so SRL and SRLV shift in
    the sign bit: on a negative register and a nonzero amount the result is
    the one of SRA, never the logical shift of the register's 32 bits. *)
Theorem SRL_shifts_sign m i v npc (Hv : reg m (rt i) = Ok v) (Hn : reg m NEXT_PC_REG = Ok npc)
  (Hop : opCode i = OP_SRL) (Hneg : - 2 ^ 31 ≤ v < 0) (Hk : 0 < extra i < 32) :
  ExecInstruction m i = ExecInstruction m (mkInstr (value i) OP_SRA (rs i) (rt i) (rd_ i) (extra i)) ∧
  ExecInstruction m i = set_and_finish m (rd_ i) (Z.shiftr v (extra i)) (s32 (npc + 4)) ∧
  Z.shiftr v (extra i) ≠ s32 (Z.shiftr (u32 v) (extra i)).
Proof.
  unfold ExecInstruction. rewrite Hn, Hop. cbn [mbind result_bind opCode rt rd_ extra]. rewrite Hv.
  split_and!; [done..|]. assert (0 < 2 ^ extra i) by (apply Z.pow_pos_nonneg; lia).
  assert (2 ≤ 2 ^ extra i) by (rewrite <-(Z.pow_1_r 2) at 1; apply Z.pow_le_mono_r; lia).
  rewrite !Z.shiftr_div_pow2 by lia.
  assert (v / 2 ^ extra i < 0) by (apply Z.div_lt_upper_bound; lia).
  replace (u32 v) with (v + 2 ^ 32) by width_lia.
  assert (0 ≤ (v + 2 ^ 32) / 2 ^ extra i < 2 ^ 31).
  { split; [apply Z.div_pos; lia|]. apply Z.div_lt_upper_bound; lia. }
  rewrite s32_id by (unfold is_s32; lia). lia.
Qed.

Lemma SRL_shifts_sign_witness :
  let m := mkMachine (<[3%nat := -8]> (replicate 40 0)) (mmu demo_machine) (λ _, true) in
  ExecInstruction m (mkInstr 0 OP_SRL 0 3 2 1) = set_and_finish m 2 (-4) 4.
Proof.
  intros m. refine (proj1 (proj2 (SRL_shifts_sign m (mkInstr 0 OP_SRL 0 3 2 1) (-8) 0
    eq_refl eq_refl eq_refl _ _))); cbn; lia.
Defined.

(** ** The delayed load *)
Lemma DelayedLoad_effect m nr nv lr lv : mid_ok m → reg m LOAD_REG = Ok lr → reg m LOAD_VALUE_REG = Ok lv →
  0 ≤ nr < NUM_GP_REGS → is_s32 nv → 0 ≤ lr < NUM_GP_REGS →
  ∃ m', DelayedLoad m nr nv = Ok m' ∧ mid_ok m' ∧ reg m' LOAD_REG = Ok nr ∧ reg m' LOAD_VALUE_REG = Ok nv ∧
    ∀ q, 0 ≤ q < 37 → reg m' q = if decide (q = 0) then Ok 0 else if decide (q = lr) then Ok lv else reg m q.
Proof.
  intros Hm El Ev Hnr Hnv Hlr. unfold DelayedLoad. rewrite El, Ev. cbn [mbind result_bind].
  unfold NUM_GP_REGS in *.
  destruct (reg_ok m LOAD_VALUE_REG Hm) as (lv' & Ev' & Hlv); [done|]. rewrite Ev in Ev'. injection Ev' as <-.
  destruct (set_reg_ok m lr lv Hm) as (m1 & -> & Hm1 & R1 & F1); [unfold NUM_TOTAL_REGS; lia|done|unfold LOAD_REG; lia|].
  cbn [mbind result_bind].
  destruct (set_reg_ok m1 LOAD_REG nr Hm1) as (m2 & -> & Hm2 & R2 & F2); [done|width_lia|done|].
  cbn [mbind result_bind].
  destruct (set_reg_ok m2 LOAD_VALUE_REG nv Hm2) as (m3 & -> & Hm3 & R3 & F3); [done|done|done|].
  cbn [mbind result_bind].
  destruct (set_reg_ok m3 0 0 Hm3) as (m4 & -> & Hm4 & R4 & F4); [done|width_lia|done|].
  exists m4. split_and!; [done|done|by rewrite F4, F3, R2|by rewrite F4, R3|].
  intros q Hq. destruct (decide (q = 0)) as [->|H0]; [done|].
  rewrite F4, F3, F2 by (unfold LOAD_REG, LOAD_VALUE_REG; lia).
  destruct (decide (q = lr)) as [->|Hne]; [done|]. by apply F1.
Qed.

Lemma finish_effect m nr nv pc lr lv npc : mid_ok m → reg m LOAD_REG = Ok lr → reg m LOAD_VALUE_REG = Ok lv →
  reg m NEXT_PC_REG = Ok npc → 0 ≤ lr < NUM_GP_REGS →
  0 ≤ nr < NUM_GP_REGS → is_s32 nv → is_s32 pc →
  ∃ m', finish m nr nv pc = Ok (Completed m') ∧ mid_ok m' ∧
    reg m' LOAD_REG = Ok nr ∧ reg m' LOAD_VALUE_REG = Ok nv ∧
    reg m' PC_REG = Ok npc ∧ reg m' NEXT_PC_REG = Ok pc ∧
    ∀ q, 0 ≤ q < 34 → reg m' q = if decide (q = 0) then Ok 0 else if decide (q = lr) then Ok lv else reg m q.
Proof.
  intros Hm El Ev En Hlr Hnr Hnv Hpc. unfold finish.
  destruct (DelayedLoad_effect m nr nv lr lv Hm El Ev Hnr Hnv Hlr) as (m1 & -> & Hm1 & L1 & V1 & Q1).
  cbn [mbind result_bind]. destruct (reg_ok m1 PC_REG Hm1) as (a & -> & Ha); [done|]. cbn [mbind result_bind].
  destruct (set_reg_ok m1 PREV_PC_REG a Hm1) as (m2 & -> & Hm2 & _ & F2); [done..|]. cbn [mbind result_bind].
  assert (reg m2 NEXT_PC_REG = Ok npc) as E2.
  { unfold NUM_GP_REGS in *. rewrite F2, Q1 by (unfold NEXT_PC_REG, PREV_PC_REG; lia).
    rewrite !decide_False by (unfold NEXT_PC_REG; lia). done. }
  rewrite E2. cbn [mbind result_bind].
  destruct (reg_ok m2 NEXT_PC_REG Hm2) as (b & Eb & Hb); [done|]. rewrite E2 in Eb. injection Eb as <-.
  destruct (set_reg_ok m2 PC_REG npc Hm2) as (m3 & -> & Hm3 & R3 & F3); [done..|]. cbn [mbind result_bind].
  destruct (set_reg_ok m3 NEXT_PC_REG pc Hm3) as (m4 & -> & Hm4 & R4 & F4); [done..|]. cbn [mbind result_bind].
  exists m4. split_and!; [done|done|by rewrite F4, F3, F2|by rewrite F4, F3, F2|by rewrite F4, R3|done|].
  intros q Hq. rewrite F4, F3, F2 by (unfold NEXT_PC_REG, PC_REG, PREV_PC_REG; lia). apply Q1. lia.
Qed.

(** The load delay slot.  When a load of [v] into register [r] completes,
    the register does not change yet: the next instruction sees the old value
    (or that of the load before, if it was pending for [r]); when the next
    instruction completes, the register holds [v].  The program counter
    advances by one delay slot each time. *)
Theorem delayed_load m r v pc lr lv npc (Hm : machine_ok m)
  (El : reg m LOAD_REG = Ok lr) (Ev : reg m LOAD_VALUE_REG = Ok lv)
  (En : reg m NEXT_PC_REG = Ok npc) (Hr : 0 < r < NUM_GP_REGS) (Hv : is_s32 v) (Hpc : is_s32 pc) :
  ∃ m1, finish m r v pc = Ok (Completed m1) ∧
    reg m1 r = (if decide (r = lr) then Ok lv else reg m r) ∧
    reg m1 PC_REG = Ok npc ∧
    ∀ nr nv pc', 0 ≤ nr < NUM_GP_REGS → is_s32 nv → is_s32 pc' →
      ∃ m2, finish m1 nr nv pc' = Ok (Completed m2) ∧ reg m2 r = Ok v ∧ reg m2 PC_REG = Ok pc.
Proof.
  destruct (mi_load m (mk_mid m Hm)) as (lr' & El' & Hlr). rewrite El in El'. injection El' as <-.
  unfold NUM_GP_REGS in *.
  destruct (finish_effect m r v pc lr lv npc (mk_mid m Hm)) as (m1 & E1 & Hm1 & L1 & V1 & P1 & N1 & Q1);
    [done..|unfold NUM_GP_REGS; lia|done|done|].
  exists m1. split_and!; [done|rewrite Q1, decide_False by lia; done|done|].
  intros nr nv pc' Hnr Hnv Hpc'.
  destruct (finish_effect m1 nr nv pc' r v pc Hm1) as (m2 & E2 & _ & _ & _ & P2 & _ & Q2);
    [done..|unfold NUM_GP_REGS; lia|done|done|done|].
  exists m2. split_and!; [done| |done]. rewrite Q2, decide_False, decide_True by lia. done.
Qed.

Lemma delayed_load_witness :
  ∃ m1, finish demo_machine 5 42 8 = Ok (Completed m1) ∧ reg m1 5 = Ok 0 ∧ reg m1 PC_REG = Ok 0.
Proof.
  destruct (delayed_load demo_machine 5 42 8 0 0 0 demo_machine_ok) as (m1 & E & H1 & H2 & _);
    [reflexivity..|unfold NUM_GP_REGS; lia|unfold is_s32; lia|unfold is_s32; lia|].
  exists m1. split; [exact E|]. split; [exact H1|exact H2].
Defined.
