(* ===== verification/AddressSpace.v ===== *)
(** * [userprog/executable.cc], [userprog/address_space.cc] and the page-fault
    handler of [userprog/exception.cc]: demand paging

    A program is loaded page by page, when it first touches a page; when all
    page frames are in use, the least recently used one is evacuated, to the
    swap file of its process if it was written to.  The state [VM] has the
    machine (memory, TLB and the counters of the LRU policy), the map of page
    frames, the core map, the processes, and the fault counter of the running
    thread.  The executable and the swap file are host files (module [Bin] of
    [ReadWrite]).  The configuration is that of [filesys/Makefile]:
    [USE_TLB], [DEMAND_LOADING], [SWAP], [PRPOLICY_LRU]. *)

From S2P Require Import Prelude Bitmap Disk ReadWrite Mmu Mips.
From stdpp Require Import base option list gmap numbers tactics.
From stdpp Require Import list.
Open Scope Z_scope.

Definition INT_MAX : Z := 2147483647.
Definition UINT_MAX : Z := 4294967295.
Definition USER_STACK_SIZE : Z := 2048.
Definition STACK_REG : Z := 29.

(** ** Executables: [bin/noff.h], [userprog/executable.cc] *)
Definition NOFF_MAGIC : Z := 0xBADFAD.
Record noffSegment := mkSegment { virtualAddr : Z; inFileAddr : Z; size : Z }.
Record noffHeader := mkNoff {
  noffMagic : Z;
  code : noffSegment;
  initData : noffSegment;
  uninitData : noffSegment
}.
Definition NOFF_HEADER_SIZE : Z := 40.           (* [sizeof (noffHeader)] *)

Definition segment_of_words (ws : list Z) : noffSegment :=
  mkSegment (nth 0 ws 0) (nth 1 ws 0) (nth 2 ws 0).
Definition noff_of_bytes (bs : list Z) : noffHeader :=
  let ws := bytes_words 10 bs in
  mkNoff (nth 0 ws 0) (segment_of_words (drop 1 ws)) (segment_of_words (drop 4 ws))
    (segment_of_words (drop 7 ws)).

Record Executable := mkExecutable { exe_file : Bin.BinFile; header : noffHeader }.

(** The constructor; [garbage] is the memory of the header before the file is
    read into it. *)
Definition new_Executable (garbage : list Z) (f : Bin.BinFile) : result Executable :=
  bs ← Bin.ReadAt f NOFF_HEADER_SIZE 0;
  hb ← splice garbage 0 bs;
  Ok (mkExecutable f (noff_of_bytes hb)).

(** [WordToHost] is the identity on the little-endian hosts, so the header is
    never swapped. *)
Definition WordToHost (w : Z) : Z := w.
Definition SwapSegment (s : noffSegment) : noffSegment :=
  mkSegment (WordToHost (virtualAddr s)) (WordToHost (inFileAddr s)) (WordToHost (size s)).
Definition SwapHeader (h : noffHeader) : noffHeader :=
  mkNoff (WordToHost (noffMagic h)) (SwapSegment (code h)) (SwapSegment (initData h))
    (SwapSegment (uninitData h)).

Definition CheckMagic (e : Executable) : bool * Executable :=
  let h := header e in
  let h := if bool_decide (noffMagic h ≠ NOFF_MAGIC)
              && bool_decide (WordToHost (noffMagic h) = NOFF_MAGIC)
           then SwapHeader h else h in
  (bool_decide (noffMagic h = NOFF_MAGIC), mkExecutable (exe_file e) h).

Definition GetSize (e : Executable) : Z :=
  u32 (size (code (header e)) + size (initData (header e)) + size (uninitData (header e))).
Definition GetCodeSize (e : Executable) : Z := size (code (header e)).
Definition GetInitDataSize (e : Executable) : Z := size (initData (header e)).
Definition GetUninitDataSize (e : Executable) : Z := size (uninitData (header e)).
Definition GetCodeAddr (e : Executable) : Z := virtualAddr (code (header e)).
Definition GetInitDataAddr (e : Executable) : Z := virtualAddr (initData (header e)).

(** The bytes that are stored at [dest]. *)
Definition ReadCodeBlock (e : Executable) (sz offset : Z) : result (list Z) :=
  _ ← ASSERT (bool_decide (sz ≠ 0));
  _ ← ASSERT (bool_decide (offset < size (code (header e))));
  Bin.ReadAt (exe_file e) sz (u32 (inFileAddr (code (header e)) + offset)).

Definition ReadDataBlock (e : Executable) (sz offset : Z) : result (list Z) :=
  _ ← ASSERT (bool_decide (sz ≠ 0));
  _ ← ASSERT (bool_decide (offset < size (initData (header e))));
  Bin.ReadAt (exe_file e) sz (u32 (inFileAddr (initData (header e)) + offset)).

(** ** Address spaces *)
Record AddressSpace := mkSpace {
  codeSize : Z;
  initDataSize : Z;
  dataVirtualAddr : Z;
  openSwapFile : Bin.BinFile;
  addressSpaceId : Z;
  exeFile : Bin.BinFile;
  pages : list TranslationEntry          (* [pageTable]; [numPages] is its length *)
}.

Definition numPages (sp : AddressSpace) : Z := Z.of_nat (length (pages sp)).
Definition set_pages (sp : AddressSpace) (pt : list TranslationEntry) : AddressSpace :=
  mkSpace (codeSize sp) (initDataSize sp) (dataVirtualAddr sp) (openSwapFile sp)
    (addressSpaceId sp) (exeFile sp) pt.
Definition set_swap (sp : AddressSpace) (f : Bin.BinFile) : AddressSpace :=
  mkSpace (codeSize sp) (initDataSize sp) (dataVirtualAddr sp) f
    (addressSpaceId sp) (exeFile sp) (pages sp).

Record VM := mkVM {
  machine : Machine;
  addressesBitMap : Bitmap;
  coreMap : list (Z * Z);                (* [spaceId], [virtualPage] *)
  runningProcesses : gmap Z (option AddressSpace);  (* [->space], which may be null *)
  currentSpace : Z;                      (* [currentThread->GetSpaceId()] *)
  numFaults : Z                          (* [currentThread->numFaults] *)
}.

Definition vm_mmu (s : VM) : MMU := mmu (machine s).
Definition set_vm_mmu (s : VM) (u : MMU) : VM :=
  mkVM (set_mmu (machine s) u) (addressesBitMap s) (coreMap s) (runningProcesses s)
    (currentSpace s) (numFaults s).
Definition set_vm_map (s : VM) (b : Bitmap) : VM :=
  mkVM (machine s) b (coreMap s) (runningProcesses s) (currentSpace s) (numFaults s).
Definition set_vm_core (s : VM) (c : list (Z * Z)) : VM :=
  mkVM (machine s) (addressesBitMap s) c (runningProcesses s) (currentSpace s) (numFaults s).
Definition set_vm_space (s : VM) (id : Z) (sp : AddressSpace) : VM :=
  mkVM (machine s) (addressesBitMap s) (coreMap s) (<[id := Some sp]> (runningProcesses s))
    (currentSpace s) (numFaults s).
Definition set_vm_faults (s : VM) (n : Z) : VM :=
  mkVM (machine s) (addressesBitMap s) (coreMap s) (runningProcesses s) (currentSpace s) n.

Definition set_tlb (u : MMU) (t : list TranslationEntry) : MMU :=
  mkMMU (mainMemory u) (Some t) (Mmu.pageTable u) (references_done u) (last_use_counter u)
    (tlbTotal u) (tlbHitCount u).
Definition set_lru (u : MMU) (refs : Z) (counters : list Z) : MMU :=
  mkMMU (mainMemory u) (tlb u) (Mmu.pageTable u) refs counters (tlbTotal u) (tlbHitCount u).

(** [runningProcesses->Get(id)->space], dereferenced. *)
Definition space_of (s : VM) (id : Z) : result AddressSpace :=
  match runningProcesses s !! id with
  | Some (Some sp) => Ok sp
  | _ => Err NullPointer
  end.
Definition get_tlb (s : VM) : result (list TranslationEntry) :=
  match tlb (vm_mmu s) with Some t => Ok t | None => Err NullPointer end.

(** [getPageTableEntry] returns a pointer into the table, without a bound
    check; it is read and written through. *)
Definition getPageTableEntry (s : VM) (id vpn : Z) : result TranslationEntry :=
  sp ← space_of s id; rd (pages sp) vpn.
Definition set_page (s : VM) (id vpn : Z) (e : TranslationEntry) : result VM :=
  sp ← space_of s id;
  pt ← wr (pages sp) vpn e;
  Ok (set_vm_space s id (set_pages sp pt)).

Definition with_valid (e : TranslationEntry) (v : bool) : TranslationEntry :=
  mkTE (virtualPage e) (physicalPage e) v (readOnly e) (use e) (dirty e).
Definition with_frame (e : TranslationEntry) (p : Z) : TranslationEntry :=
  mkTE (virtualPage e) p (valid e) (readOnly e) (use e) (dirty e).

Section Paging.
(** The memory in which [Executable] objects are created. *)
Context (garbage : list Z).

Definition new_AddressSpace (executable_file : Bin.BinFile) (spaceId : Z)
    (swapFile : option Bin.BinFile) : result AddressSpace :=
  swap ← (match swapFile with Some f => Ok f | None => Err AssertFail end);
  exe ← new_Executable garbage executable_file;
  let '(ok, exe) := CheckMagic exe in
  _ ← ASSERT ok;
  let sz := u32 (GetSize exe + USER_STACK_SIZE) in
  let n := DivRoundUp sz PAGE_SIZE in
  Ok (mkSpace (GetCodeSize exe) (GetInitDataSize exe) (GetInitDataAddr exe) swap spaceId
        executable_file ((λ i, mkTE i INT_MAX false false false false) <$> seqZ 0 n)).

(** The part of [LoadPage] that reads the executable into a frame, here a buffer
    of [PAGE_SIZE] bytes that was cleared. *)
Definition load_from_exe (sp : AddressSpace) (vpn : Z) (frame : list Z) : result (list Z) :=
  exe ← new_Executable garbage (exeFile sp);
  let vpnAddressToRead := u32 (vpn * PAGE_SIZE) in
  r ← (if bool_decide (codeSize sp > 0) && bool_decide (vpnAddressToRead < codeSize sp) then
         let rest := u32 (codeSize sp - vpnAddressToRead) in
         let toRead := if bool_decide (rest < PAGE_SIZE) then rest else PAGE_SIZE in
         bs ← ReadCodeBlock exe PAGE_SIZE vpnAddressToRead;
         frame ← splice frame 0 bs;
         Ok (frame, toRead)
       else Ok (frame, 0));
  let '(frame, read) := r in
  let dataEnd := u32 (dataVirtualAddr sp + initDataSize sp) in
  if bool_decide (initDataSize sp > 0)
     && bool_decide (u32 (vpnAddressToRead + read) < dataEnd)
     && bool_decide (read ≠ PAGE_SIZE) then
    let rest := u32 (dataEnd - u32 (vpnAddressToRead + read)) in
    let toRead := if bool_decide (rest < u32 (PAGE_SIZE - read)) then rest
                  else u32 (PAGE_SIZE - read) in
    if bool_decide (read ≠ 0) then bs ← ReadDataBlock exe toRead 0; splice frame read bs
    else bs ← ReadDataBlock exe toRead (u32 (vpnAddressToRead - codeSize sp)); splice frame 0 bs
  else Ok frame.

Definition zero_page : list Z := replicate (Z.to_nat PAGE_SIZE) 0.

Definition LoadPage (s : VM) (id vpnAddress physicalPage : Z) : result VM :=
  _ ← ASSERT (bool_decide (physicalPage ≠ INT_MAX));
  sp ← space_of s id;
  let u := vm_mmu s in
  let physicalAddressToWrite := u32 (physicalPage * PAGE_SIZE) in
  mem ← splice (mainMemory u) physicalAddressToWrite zero_page;
  let vpn := vpnAddress / PAGE_SIZE in
  e ← rd (pages sp) vpn;
  frame ← (if dirty e then
             bs ← Bin.ReadAt (openSwapFile sp) PAGE_SIZE (vpn * PAGE_SIZE);
             splice zero_page 0 bs
           else load_from_exe sp vpn zero_page);
  mem ← splice mem physicalAddressToWrite frame;
  core ← wr (coreMap s) physicalPage (addressSpaceId sp, vpn);
  Ok (set_vm_core (set_vm_mmu s (set_memory u mem)) core).

(** The victim and the machine with the LRU counters. *)
Definition PickVictim (u : MMU) : result (Z * MMU) :=
  let u := if bool_decide (references_done u = UINT_MAX)
           then set_lru u 0 ((λ _, 0) <$> last_use_counter u) else u in
  r ← for_loop (span 0 NUM_PHYS_PAGES) 0
        (λ i (st : Z * Z), let '(mn, victim) := st in
           c ← rd (last_use_counter u) i;
           Ok (if bool_decide (c < mn) then (c, i) else (mn, victim))) (UINT_MAX, 0);
  Ok (r.2, u).

(** The loop of [EvacuatePage] that takes the frame out of the TLB and saves the
    bits of its entry. *)
Definition evict_tlb (t : list TranslationEntry) (entry : TranslationEntry) (victim : Z)
  : result (list TranslationEntry * TranslationEntry) :=
  for_loop (span 0 TLB_SIZE) 0
    (λ i (st : list TranslationEntry * TranslationEntry), let '(t, entry) := st in
       e ← rd t i;
       if bool_decide (physicalPage e = victim) && valid e then
         let e := with_valid e false in
         t ← wr t i e; Ok (t, e)
       else Ok (t, entry)) (t, entry).

(** A dirty page goes to the swap file; the entry is marked as out of memory. *)
Definition save_victim (s : VM) (id vpn victim : Z) (entry : TranslationEntry) : result VM :=
  s ← (if dirty entry then
         sp ← space_of s id;
         frame ← slice (mainMemory (vm_mmu s)) (u32 (victim * PAGE_SIZE)) PAGE_SIZE;
         w ← Bin.WriteAt (openSwapFile sp) frame PAGE_SIZE (u32 (vpn * PAGE_SIZE));
         Ok (set_vm_space s id (set_swap sp w.2))
       else Ok s);
  set_page s id vpn (with_valid (with_frame entry INT_MAX) false).

Definition EvacuatePage (s : VM) : result (Z * VM) :=
  r ← PickVictim (vm_mmu s);
  let '(victim, u) := r in
  let s := set_vm_mmu s u in
  c ← rd (coreMap s) victim;
  let '(victimSpace, victimPage) := c in
  if bool_decide (is_Some (runningProcesses s !! victimSpace)) then
    entry ← getPageTableEntry s victimSpace victimPage;
    t ← get_tlb s;
    r ← evict_tlb t entry victim;
    let '(t, entry) := r in
    let s := set_vm_mmu s (set_tlb (vm_mmu s) t) in
    s ← save_victim s victimSpace victimPage victim entry;
    Ok (victim, s)
  else Ok (victim, s).

(** A frame for the page: a free one, or the one of a victim. *)
Definition find_frame (s : VM) : result (Z * VM) :=
  f ← Bitmap.Find (addressesBitMap s);
  let '(possibleFrame, b) := f in
  let s := set_vm_map s b in
  if bool_decide (possibleFrame = -1) then
    r ← EvacuatePage s;
    let '(frame, s) := r in
    _ ← ASSERT (bool_decide (s32 frame ≠ -1));
    Ok (frame, s)
  else Ok (u32 possibleFrame, s).

(** The part of the handler that brings a page into memory. *)
Definition load_missing (s : VM) (id vpnAddress vpn : Z) : result VM :=
  r ← find_frame s;
  let '(frame, s) := r in
  e ← getPageTableEntry s id vpn;
  s ← set_page s id vpn (with_frame e frame);
  let u := vm_mmu s in
  let refs := u32 (references_done u + 1) in
  counters ← wr (last_use_counter u) frame refs;
  let s := set_vm_mmu s (set_lru u refs counters) in
  e ← getPageTableEntry s id vpn;
  LoadPage s id vpnAddress (physicalPage e).

(** The part that puts the entry of the page into the TLB, in round-robin
    order. *)
Definition install_entry (s : VM) (id vpn : Z) : result VM :=
  let tlbEntry := numFaults s mod TLB_SIZE in
  t ← get_tlb s;
  old ← rd t tlbEntry;
  s ← (if valid old then
         let saved := with_valid old false in
         t ← wr t tlbEntry saved;
         set_page (set_vm_mmu s (set_tlb (vm_mmu s) t)) id (virtualPage old) saved
       else Ok s);
  e ← getPageTableEntry s id vpn;
  t ← get_tlb s;
  t ← wr t tlbEntry e;
  Ok (set_vm_faults (set_vm_mmu s (set_tlb (vm_mmu s) t)) (u32 (numFaults s + 1))).

Definition TLBPageFaultHandler (s : VM) : result VM :=
  a ← ReadRegister (machine s) BAD_VADDR_REG;
  let vpnAddress := u32 a in
  let vpn := vpnAddress / PAGE_SIZE in
  let id := currentSpace s in
  e ← getPageTableEntry s id vpn;
  s ← set_page s id vpn (with_valid e true);
  s ← (if bool_decide (physicalPage e = INT_MAX) then load_missing s id vpnAddress vpn
       else Ok s);
  install_entry s id vpn.

(** ** Context switches *)
Definition SaveState (s : VM) (id : Z) : result VM :=
  for_loop (span 0 TLB_SIZE) 0
    (λ i s,
       t ← get_tlb s;
       e ← rd t i;
       if valid e then
         c ← rd (coreMap s) (physicalPage e);
         _ ← getPageTableEntry s id c.2;
         let saved := with_valid e false in
         t ← wr t i saved;
         set_page (set_vm_mmu s (set_tlb (vm_mmu s) t)) id c.2 saved
       else Ok s) s.

Definition RestoreState (s : VM) : result VM :=
  t ← get_tlb s;
  t ← for_loop (span 0 TLB_SIZE) 0 (λ i t, e ← rd t i; wr t i (with_valid e false)) t;
  Ok (set_vm_mmu s (set_tlb (vm_mmu s) t)).

Definition InitRegisters (s : VM) (sp : AddressSpace) : result VM :=
  m ← for_loop (span 0 NUM_TOTAL_REGS) 0 (λ i m, WriteRegister m i 0) (machine s);
  m ← WriteRegister m PC_REG 0;
  m ← WriteRegister m NEXT_PC_REG 4;
  m ← WriteRegister m STACK_REG (s32 (u32 (numPages sp * PAGE_SIZE - 16)));
  Ok (mkVM m (addressesBitMap s) (coreMap s) (runningProcesses s) (currentSpace s) (numFaults s)).

(** The destructor: the frames are cleared and freed. *)
Definition delete_AddressSpace (s : VM) (sp : AddressSpace) : result VM :=
  for_loop (length (pages sp)) 0
    (λ i s,
       e ← rd (pages sp) i;
       if bool_decide (physicalPage e = INT_MAX) then Ok s
       else
         b ← Bitmap.Clear (addressesBitMap s) (physicalPage e);
         mem ← splice (mainMemory (vm_mmu s)) (u32 (physicalPage e * PAGE_SIZE)) zero_page;
         Ok (set_vm_map (set_vm_mmu s (set_memory (vm_mmu s) mem)) b)) s.

(** ** [Scheduler::Run] for user programs

    The registers of a user program are in its thread while it does not run. *)
Definition SaveUserState (m : Machine) (userRegisters : list Z) : result (list Z) :=
  for_loop (span 0 NUM_TOTAL_REGS) 0 (λ i u, v ← ReadRegister m i; wr u i v) userRegisters.

Definition RestoreUserState (m : Machine) (userRegisters : list Z) : result Machine :=
  for_loop (span 0 NUM_TOTAL_REGS) 0
    (λ i m, v ← rd userRegisters i; WriteRegister m i v) m.

(** The table of processes keeps the pointer to a thread after the thread, and
    with it its address space, was deleted. *)
Definition dangling (s : VM) (id : Z) : VM :=
  mkVM (machine s) (addressesBitMap s) (coreMap s) (<[id := None]> (runningProcesses s))
    (currentSpace s) (numFaults s).

(** From the running program to another one: the registers saved for the old
    program and the new state.  [finished] is [threadToBeDestroyed]. *)
Record thread_data := mkThreadData { td_space : Z; td_faults : Z; td_registers : list Z }.

Definition Run (s : VM) (oldRegisters : list Z) (next : thread_data) (finished : option Z)
  : result (list Z * VM) :=
  saved ← SaveUserState (machine s) oldRegisters;
  s ← SaveState s (currentSpace s);
  let s := mkVM (machine s) (addressesBitMap s) (coreMap s) (runningProcesses s)
             (td_space next) (td_faults next) in
  s ← (match finished with
       | Some id => sp ← space_of s id; s ← delete_AddressSpace s sp; Ok (dangling s id)
       | None => Ok s
       end);
  m ← RestoreUserState (machine s) (td_registers next);
  s ← RestoreState (mkVM m (addressesBitMap s) (coreMap s) (runningProcesses s)
                     (currentSpace s) (numFaults s));
  Ok (saved, s).

End Paging.
