(* ===== verification/Paging.v ===== *)
(** * Demand paging is transparent

    The virtual memory of a process is a sequence of pages; where a page is kept
    (a frame, the swap file, or still only the executable) is the business of
    [AddressSpace].  The invariant [vm_inv] ties page tables, TLB, core map and
    frame map together; the theorems show that a page fault, an eviction and a
    context switch keep it and change no byte of the virtual memory of any
    process, and that a user store changes exactly the bytes it names. *)

From S2P Require Import Prelude Bitmap Disk ReadWrite Mmu Mips AddressSpace.
From stdpp Require Import base option list gmap numbers tactics.
From stdpp Require Import list.
Open Scope Z_scope.

Section Paging.
Context (garbage : list Z).

(** ** The virtual memory *)
Definition sp_of (s : VM) (id : Z) : option AddressSpace := mjoin (runningProcesses s !! id).
Definition pte (s : VM) (id : Z) (v : nat) : option TranslationEntry :=
  sp ← sp_of s id; pages sp !! v.

Definition frame_at (mem : list Z) (p : Z) : list Z := take 128 (drop (Z.to_nat (p * 128)) mem).
Definition pad (bs : list Z) : list Z := bs ++ drop (length bs) zero_page.
Definition swap_page (f : Bin.BinFile) (v : nat) : list Z :=
  pad (take 128 (drop (v * 128) (Bin.contents f))).
Definition image (sp : AddressSpace) (v : nat) : result (list Z) :=
  load_from_exe garbage sp (Z.of_nat v) zero_page.

(** The contents of a page, wherever it is. *)
Definition vpage (s : VM) (id : Z) (v : nat) : option (list Z) :=
  sp ← sp_of s id;
  e ← pages sp !! v;
  if decide (physicalPage e = INT_MAX) then
    if dirty e then Some (swap_page (openSwapFile sp) v)
    else match image sp v with Ok pg => Some pg | Err _ => None end
  else Some (frame_at (mainMemory (vm_mmu s)) (physicalPage e)).

(** No TLB entry of the running process has a newer dirty bit for page [v]. *)
Definition tlb_clean (s : VM) (t : list TranslationEntry) (id : Z) (v : nat) : Prop :=
  id = currentSpace s → ∀ i te, t !! i = Some te → valid te = true →
  virtualPage te = Z.of_nat v → dirty te = false.

Definition in_use (s : VM) (p : Z) : Prop := Bitmap.bit (addressesBitMap s) p = true.

(** The invariant; [h] is a frame that is in use but belongs to no page, between
    the choice of a frame and the load of the page. *)
Record vm_inv (h : option Z) (s : VM) (t : list TranslationEntry) : Prop := {
  vi_mmu : mmu_wf (vm_mmu s) t;
  vi_tlb : length t = 8%nat;
  vi_map : Bitmap.wf (addressesBitMap s) ∧ numBits (addressesBitMap s) = 16;
  vi_core : length (coreMap s) = 16%nat;
  vi_cur : is_Some (sp_of s (currentSpace s));
  vi_ids id sp : sp_of s id = Some sp →
    addressSpaceId sp = id ∧ Z.of_nat (length (pages sp)) * 128 ≤ 2 ^ 32;
  vi_image id sp v : sp_of s id = Some sp → (v < length (pages sp))%nat →
    ∃ pg, image sp v = Ok pg ∧ length pg = 128%nat;
  vi_pte id v e : pte s id v = Some e → virtualPage e = Z.of_nat v ∧ readOnly e = false ∧
    (physicalPage e = INT_MAX ∨
     0 ≤ physicalPage e < 16 ∧ in_use s (physicalPage e) ∧ h ≠ Some (physicalPage e) ∧
     coreMap s !! Z.to_nat (physicalPage e) = Some (id, Z.of_nat v));
  vi_frame p : 0 ≤ p < 16 → in_use s p → h ≠ Some p →
    ∃ id v e, pte s id v = Some e ∧ physicalPage e = p;
  vi_hole p : h = Some p → 0 ≤ p < 16 ∧ in_use s p;
  vi_tlb_pte i te : t !! i = Some te → valid te = true →
    ∃ v e, virtualPage te = Z.of_nat v ∧ readOnly te = false ∧
      pte s (currentSpace s) v = Some e ∧ physicalPage e = physicalPage te ∧
      (dirty e = true → dirty te = true);
  vi_tlb_inj i j te te' : t !! i = Some te → t !! j = Some te' →
    valid te = true → valid te' = true → virtualPage te = virtualPage te' → i = j;
  vi_clean id sp v e : sp_of s id = Some sp → pages sp !! v = Some e →
    physicalPage e ≠ INT_MAX → dirty e = false → tlb_clean s t id v →
    image sp v = Ok (frame_at (mainMemory (vm_mmu s)) (physicalPage e))
}.

(** ** Updates of a page table entry *)
Definition upd (s : VM) (id : Z) (v : nat) (e : TranslationEntry) : VM :=
  match sp_of s id with
  | Some sp => set_vm_space s id (set_pages sp (<[v := e]> (pages sp)))
  | None => s
  end.

Lemma space_of_ok s id sp : sp_of s id = Some sp → space_of s id = Ok sp.
Proof.
  unfold sp_of, space_of. destruct (runningProcesses s !! id) as [[?|]|]; cbn; congruence.
Qed.

Lemma pte_inv s id v e : pte s id v = Some e →
  ∃ sp, sp_of s id = Some sp ∧ pages sp !! v = Some e ∧ (v < length (pages sp))%nat.
Proof.
  unfold pte. intros (sp & Hs & Hl)%bind_Some. exists sp. split_and!; [done..|].
  by eapply lookup_lt_Some.
Qed.

Lemma pte_of s id sp v e : sp_of s id = Some sp → pages sp !! v = Some e → pte s id v = Some e.
Proof. unfold pte. by intros ->. Qed.

Lemma getPageTableEntry_ok s id v e :
  pte s id v = Some e → getPageTableEntry s id (Z.of_nat v) = Ok e.
Proof.
  intros (sp & Hs & Hl & _)%pte_inv. unfold getPageTableEntry.
  rewrite (space_of_ok _ _ _ Hs). cbn. apply rd_ok; [lia|]. by rewrite Nat2Z.id.
Qed.

Lemma sp_of_set_space s id sp id' :
  sp_of (set_vm_space s id sp) id' = if decide (id' = id) then Some sp else sp_of s id'.
Proof.
  unfold sp_of, set_vm_space. cbn. destruct (decide (id' = id)) as [->|].
  - by rewrite lookup_insert_eq.
  - by rewrite lookup_insert_ne.
Qed.

Lemma set_page_ok s id v e e' :
  pte s id v = Some e → set_page s id (Z.of_nat v) e' = Ok (upd s id v e').
Proof.
  intros (sp & Hs & Hl & Hlt)%pte_inv. unfold set_page, upd. rewrite (space_of_ok _ _ _ Hs), Hs.
  cbn. rewrite wr_ok by lia. by rewrite Nat2Z.id.
Qed.

Lemma sp_of_upd s id v e id' :
  sp_of (upd s id v e) id' =
    if decide (id' = id) then (λ sp, set_pages sp (<[v := e]> (pages sp))) <$> sp_of s id
    else sp_of s id'.
Proof.
  unfold upd. destruct (sp_of s id) as [sp|] eqn:Hs; [by rewrite sp_of_set_space|].
  cbn. destruct (decide (id' = id)) as [->|]; done.
Qed.

Lemma pte_upd s id v e e0 id' v' : pte s id v = Some e0 →
  pte (upd s id v e) id' v' =
    if decide (id' = id ∧ v' = v) then Some e else pte s id' v'.
Proof.
  intros (sp & Hs & Hl & Hlt)%pte_inv. unfold pte at 1. rewrite sp_of_upd, Hs. cbn.
  destruct (decide (id' = id)) as [->|]; cbn.
  - destruct (decide (v' = v)) as [->|].
    + rewrite decide_True by done. by apply list_lookup_insert_eq.
    + rewrite decide_False by naive_solver. unfold pte. rewrite Hs. cbn. by apply list_lookup_insert_ne.
  - by rewrite decide_False by naive_solver.
Qed.

Lemma upd_fields s id v e :
  machine (upd s id v e) = machine s ∧ addressesBitMap (upd s id v e) = addressesBitMap s ∧
  coreMap (upd s id v e) = coreMap s ∧ currentSpace (upd s id v e) = currentSpace s ∧
  numFaults (upd s id v e) = numFaults s.
Proof. unfold upd. by destruct (sp_of s id). Qed.

Lemma vm_mmu_upd s id v e : vm_mmu (upd s id v e) = vm_mmu s.
Proof. unfold vm_mmu. by rewrite (proj1 (upd_fields s id v e)). Qed.

Lemma image_set_pages sp pt v : image (set_pages sp pt) v = image sp v.
Proof. done. Qed.
Lemma image_set_swap sp f v : image (set_swap sp f) v = image sp v.
Proof. done. Qed.

Lemma upd_upd s id v e e' : upd (upd s id v e) id v e' = upd s id v e'.
Proof.
  unfold upd at 1. rewrite sp_of_upd, decide_True by done.
  unfold upd. destruct (sp_of s id) as [sp|] eqn:Hs; cbn; [|by rewrite ?Hs].
  unfold set_vm_space, set_pages. cbn. by rewrite insert_insert_eq, list_insert_insert_eq.
Qed.

(** A change of one entry that keeps its frame, while TLB entries for the page
    may be dropped: no dirty bit gets lost. *)
Record entry_change (s : VM) (t t' : list TranslationEntry) (id : Z) (v : nat)
    (e e' : TranslationEntry) : Prop := {
  ec_old : pte s id v = Some e;
  ec_vp : virtualPage e' = virtualPage e;
  ec_ro : readOnly e' = readOnly e;
  ec_pp : physicalPage e' = physicalPage e;
  ec_out : physicalPage e = INT_MAX → dirty e' = dirty e;
  ec_len : length t' = length t;
  ec_sub i te : t' !! i = Some te → valid te = true → t !! i = Some te;
  ec_kept i te : t !! i = Some te → valid te = true → t' !! i = Some te ∨
    id = currentSpace s ∧ virtualPage te = Z.of_nat v ∧ (dirty te = true → dirty e' = true);
  ec_dirty : dirty e = true → dirty e' = true;
  ec_tlb i te : id = currentSpace s → t' !! i = Some te → valid te = true →
    virtualPage te = Z.of_nat v → dirty e' = true → dirty te = true
}.

Lemma sp_of_set_mmu s u id : sp_of (set_vm_mmu s u) id = sp_of s id.
Proof. done. Qed.
Lemma pte_set_mmu s u id v : pte (set_vm_mmu s u) id v = pte s id v.
Proof. done. Qed.

Lemma mmu_wf_set_tlb u t t' : mmu_wf u t →
  (∀ i te, t' !! i = Some te → valid te = true → 0 ≤ physicalPage te < NUM_PHYS_PAGES) →
  mmu_wf (set_tlb u t') t'.
Proof. intros [] Hf. split; cbn; [done..| |done]. by apply Forall_lookup. Qed.

Lemma tlb_frame h s t i te : vm_inv h s t → t !! i = Some te → valid te = true →
  0 ≤ physicalPage te < 16.
Proof.
  intros Hi Hl Hv. pose proof (mw_frames _ _ (vi_mmu _ _ _ Hi)) as Hf.
  rewrite Forall_lookup in Hf. exact (Hf _ _ Hl Hv).
Qed.

Lemma tlb_clean_change s t t' id v e e' id2 v2 :
  entry_change s t t' id v e e' →
  tlb_clean s t' id2 v2 → (id2 = id ∧ v2 = v → dirty e' = false) → tlb_clean s t id2 v2.
Proof.
  intros Hc Ht Hd Hcur i te Hl Hv Hp.
  destruct (ec_kept _ _ _ _ _ _ _ Hc _ _ Hl Hv) as [Hl'|(Hid & Hvp & Hdir)].
  - by apply (Ht Hcur i).
  - assert (v2 = v) by lia. destruct (dirty te) eqn:E; [|done].
    rewrite Hd in Hdir by (split; congruence). naive_solver.
Qed.

Lemma vm_inv_change h s t t' id v e e' :
  vm_inv h s t → entry_change s t t' id v e e' →
  vm_inv h (set_vm_mmu (upd s id v e') (set_tlb (vm_mmu s) t')) t'.
Proof.
  intros Hi Hc. pose proof (ec_old _ _ _ _ _ _ _ Hc) as Hold.
  pose proof (upd_fields s id v e') as (Em & Eb & Ec & Ecur & _).
  pose proof (pte_upd s id v e' e) as Hp. specialize (Hp) with (1 := Hold).
  split; cbn [vm_mmu set_vm_mmu machine mmu set_mmu addressesBitMap coreMap currentSpace set_tlb mainMemory];
    unfold in_use, tlb_clean; cbn [addressesBitMap currentSpace set_vm_mmu];
    rewrite ?Eb, ?Ec, ?Ecur.
  - eapply mmu_wf_set_tlb; [by eapply vi_mmu|]. intros i te Hl Hv.
    eapply tlb_frame; [done| |done]. by eapply ec_sub.
  - rewrite (ec_len _ _ _ _ _ _ _ Hc). by eapply vi_tlb.
  - by eapply vi_map.
  - by eapply vi_core.
  - rewrite sp_of_set_mmu, sp_of_upd. destruct (vi_cur _ _ _ Hi) as [sp Hs].
    case_decide as E; [rewrite <-E, Hs|rewrite Hs]; by eexists.
  - intros id2 sp2. rewrite sp_of_set_mmu, sp_of_upd. case_decide as E; [|by eapply vi_ids].
    destruct (sp_of s id) as [sp|] eqn:Hs; cbn; [|done]. intros [= <-]. subst id2. cbn.
    rewrite length_insert. by eapply vi_ids.
  - intros id2 sp2 v2. rewrite sp_of_set_mmu, sp_of_upd. case_decide as E; [|by eapply vi_image].
    destruct (sp_of s id) as [sp|] eqn:Hs; cbn; [|done]. intros [= <-]. cbn.
    rewrite length_insert, image_set_pages. by eapply vi_image.
  - intros id2 v2 e2. rewrite pte_set_mmu, Hp. case_decide as E; [|by eapply vi_pte].
    destruct E as [-> ->]. intros [= <-].
    rewrite (ec_vp _ _ _ _ _ _ _ Hc), (ec_ro _ _ _ _ _ _ _ Hc), (ec_pp _ _ _ _ _ _ _ Hc).
    by eapply vi_pte.
  - intros p Hr Hb Hh. destruct (vi_frame _ _ _ Hi p Hr Hb Hh) as (id2 & v2 & e2 & Hl & He).
    destruct (decide (id2 = id ∧ v2 = v)) as [[-> ->]|E].
    + exists id, v, e'. rewrite pte_set_mmu, Hp, decide_True by done.
      rewrite (ec_pp _ _ _ _ _ _ _ Hc). split; congruence.
    + exists id2, v2, e2. by rewrite pte_set_mmu, Hp, decide_False by done.
  - apply (vi_hole _ _ _ Hi).
  - intros i te Hl Hv. pose proof (ec_sub _ _ _ _ _ _ _ Hc _ _ Hl Hv) as Hl0.
    destruct (vi_tlb_pte _ _ _ Hi _ _ Hl0 Hv) as (v2 & e2 & Hvp & Hro & He2 & Hpp & Hd).
    destruct (decide (currentSpace s = id ∧ v2 = v)) as [[E ->]|E].
    + exists v, e'. rewrite pte_set_mmu, Hp, decide_True by done. rewrite E in He2.
      assert (e2 = e) as -> by congruence.
      rewrite (ec_pp _ _ _ _ _ _ _ Hc). split_and!; [done..|].
      by eapply ec_tlb.
    + exists v2, e2. by rewrite pte_set_mmu, Hp, decide_False by done.
  - intros i j te te' H1 H2 V1 V2 Hv. apply (vi_tlb_inj _ _ _ Hi i j te te'); try done; by eapply ec_sub.
  - intros id2 sp2 v2 e2 Hs2 Hl2 Hpp Hd Ht. rewrite sp_of_set_mmu, sp_of_upd in Hs2.
    assert (Hcl : (id2 = id ∧ v2 = v → dirty e' = false) → tlb_clean s t id2 v2).
    { intros. eapply tlb_clean_change; done. }
    case_decide as E; [|eapply vi_clean; try done; apply Hcl; naive_solver].
    destruct (sp_of s id) as [sp|] eqn:Hs; cbn in Hs2; [|done]. injection Hs2 as <-. subst id2.
    cbn in Hl2. rewrite image_set_pages. destruct (decide (v2 = v)) as [->|Ev].
    + apply pte_inv in Hold as (sp' & Hs' & Hl & Hlt). assert (sp' = sp) as -> by congruence.
      rewrite list_lookup_insert_eq in Hl2 by done. injection Hl2 as <-.
      rewrite (ec_pp _ _ _ _ _ _ _ Hc) in *. eapply vi_clean; try done; [|by apply Hcl].
      destruct (dirty e) eqn:Ed; [|done]. by rewrite (ec_dirty _ _ _ _ _ _ _ Hc Ed) in Hd.
    + rewrite list_lookup_insert_ne in Hl2 by done. eapply vi_clean; try done. apply Hcl. naive_solver.
Qed.

(** A page is what its entry says. *)
Lemma vpage_eq s id sp v e : sp_of s id = Some sp → pages sp !! v = Some e →
  vpage s id v = if decide (physicalPage e = INT_MAX) then
      if dirty e then Some (swap_page (openSwapFile sp) v)
      else match image sp v with Ok pg => Some pg | Err _ => None end
    else Some (frame_at (mainMemory (vm_mmu s)) (physicalPage e)).
Proof. intros Hs Hl. unfold vpage. rewrite Hs. cbn. by rewrite Hl. Qed.

Lemma vpage_None s id v : pte s id v = None → vpage s id v = None.
Proof.
  unfold pte, vpage. destruct (sp_of s id); [|done]. cbn. by intros ->.
Qed.

Lemma vpage_change s t t' id v e e' id2 v2 : entry_change s t t' id v e e' →
  vpage (set_vm_mmu (upd s id v e') (set_tlb (vm_mmu s) t')) id2 v2 = vpage s id2 v2.
Proof.
  intros Hc. pose proof (ec_old _ _ _ _ _ _ _ Hc) as (sp & Hs & Hl & Hlt)%pte_inv.
  unfold vpage. rewrite sp_of_set_mmu, sp_of_upd. cbn [vm_mmu set_vm_mmu machine mmu set_mmu set_tlb mainMemory].
  case_decide as E; [|done]. subst id2. rewrite Hs. cbn [fmap option_fmap option_map mbind option_bind].
  cbn [pages set_pages openSwapFile]. rewrite image_set_pages.
  destruct (decide (v2 = v)) as [->|]; [|by rewrite list_lookup_insert_ne by done].
  rewrite list_lookup_insert_eq, Hl by done. cbn [mbind option_bind].
  rewrite (ec_pp _ _ _ _ _ _ _ Hc). case_decide as E; [|done].
  by rewrite (ec_out _ _ _ _ _ _ _ Hc E).
Qed.

(** *** The valid bit of a page table entry does not matter *)
Lemma set_valid_change s t h id v e b : vm_inv h s t → pte s id v = Some e →
  entry_change s t t id v e (with_valid e b).
Proof.
  intros Hi Hl. split; try done; [by left|]. cbn. intros i te -> Ht Hv Hp Hd.
  destruct (vi_tlb_pte _ _ _ Hi _ _ Ht Hv) as (v' & e2 & Hvp & _ & He2 & _ & Hd2).
  assert (v' = v) as -> by lia. apply Hd2. congruence.
Qed.

(** *** Saving a TLB entry in the page table *)
Lemma save_change s t h i te v : vm_inv h s t → t !! i = Some te → valid te = true →
  virtualPage te = Z.of_nat v →
  ∃ e, entry_change s t (<[i := with_valid te false]> t) (currentSpace s) v e (with_valid te false).
Proof.
  intros Hi Hl Hv Hp. destruct (vi_tlb_pte _ _ _ Hi _ _ Hl Hv) as (v' & e & Hvp & Hro & He & Hpp & Hd).
  assert (v' = v) as -> by lia. pose proof (vi_pte _ _ _ Hi _ _ _ He) as (Evp & Ero & _).
  pose proof (tlb_frame _ _ _ _ _ Hi Hl Hv) as Hf.
  apply lookup_lt_Some in Hl as Hlt. exists e. split; cbn; try done.
  - congruence.
  - congruence.
  - intros E. unfold INT_MAX in E. lia.
  - by rewrite length_insert.
  - intros j tj Hj Vj. destruct (decide (j = i)) as [->|Hne].
    + rewrite list_lookup_insert_eq in Hj by done. injection Hj as <-. by cbn in Vj.
    + by rewrite list_lookup_insert_ne in Hj.
  - intros j tj Hj Vj. destruct (decide (j = i)) as [->|Hne].
    + right. assert (tj = te) as -> by congruence. done.
    + left. by rewrite list_lookup_insert_ne.
  - intros j tj _ Hj Vj Pj. destruct (decide (j = i)) as [->|Hne].
    + rewrite list_lookup_insert_eq in Hj by done. injection Hj as <-. done.
    + rewrite list_lookup_insert_ne in Hj by done. destruct Hne.
      eapply vi_tlb_inj; [exact Hi|exact Hj|exact Hl|done|done|congruence].
Qed.

(** *** The swap file *)
Lemma zero_page_lookup i : zero_page !! i = if decide (i < 128)%nat then Some 0 else None.
Proof.
  unfold zero_page. change (Z.to_nat PAGE_SIZE) with 128%nat. case_decide.
  - by apply lookup_replicate_2.
  - apply lookup_ge_None. rewrite length_replicate. lia.
Qed.

Lemma swap_page_lookup f v i : swap_page f v !! i =
  if decide (i < 128)%nat then Some (default 0 (Bin.contents f !! (v * 128 + i)%nat)) else None.
Proof.
  unfold swap_page, pad. set (bs := take 128 _).
  assert (Hlen : length bs = (128 `min` (length (Bin.contents f) - v * 128))%nat).
  { unfold bs. rewrite length_take, length_drop. lia. }
  destruct (decide (i < length bs)%nat) as [Hi|Hi].
  - rewrite lookup_app_l, decide_True by lia. unfold bs. rewrite lookup_take_drop by lia.
    destruct (lookup_lt_is_Some_2 (Bin.contents f) (v * 128 + i)) as [x Hx]; [lia|]. by rewrite Hx.
  - rewrite lookup_app_r, lookup_drop, zero_page_lookup by lia.
    replace (length bs + (i - length bs))%nat with i by lia. case_decide; [|done].
    by rewrite (lookup_ge_None_2 (Bin.contents f)) by lia.
Qed.

Lemma file_write_lookup f o bs j :
  default 0 (file_write f (Z.of_nat o) bs !! j) =
    if decide (o ≤ j < o + length bs)%nat then default 0 (bs !! (j - o)%nat) else default 0 (f !! j).
Proof.
  unfold file_write. rewrite Nat2Z.id. 
  destruct (decide (j < o `min` length f)%nat) as [H1|H1].
  { rewrite decide_False by lia. rewrite lookup_app_l by (rewrite length_take; lia).
    by rewrite lookup_take_lt by lia. }
  rewrite lookup_app_r, length_take by (rewrite length_take; lia).
  destruct (decide (j < o)%nat) as [H2|H2].
  { rewrite decide_False by lia. rewrite lookup_app_l by (rewrite length_replicate; lia).
    rewrite lookup_replicate_2 by lia. by rewrite (lookup_ge_None_2 f) by lia. }
  rewrite lookup_app_r, length_replicate by (rewrite length_replicate; lia).
  case_decide as H3.
  { rewrite lookup_app_l by lia. do 2 f_equal. lia. }
  rewrite lookup_app_r, lookup_drop by lia. do 2 f_equal. lia.
Qed.

Lemma swap_page_write f v v2 fr o : length fr = 128%nat →
  swap_page (Bin.mkBin (file_write (Bin.contents f) (Z.of_nat (v * 128)) fr) o) v2
  = if decide (v2 = v) then fr else swap_page f v2.
Proof.
  intros Hl. apply list_eq. intros i. rewrite swap_page_lookup. cbn [Bin.contents].
  rewrite file_write_lookup. case_decide as Hi.
  - destruct (decide (v2 = v)) as [->|Hne].
    + rewrite decide_True by lia. replace (v * 128 + i - v * 128)%nat with i by lia.
      destruct (lookup_lt_is_Some_2 fr i) as [x Hx]; [lia|]. by rewrite Hx.
    + rewrite decide_False by lia. rewrite swap_page_lookup. by rewrite decide_True by done.
  - case_decide; [by rewrite lookup_ge_None_2 by lia|].
    rewrite swap_page_lookup. by rewrite decide_False by done.
Qed.

(** *** Taking a page out of its frame *)
Definition gone (e : TranslationEntry) : TranslationEntry := with_valid (with_frame e INT_MAX) false.
Definition write_swap (sp : AddressSpace) (v : nat) (fr : list Z) : AddressSpace :=
  set_swap sp (Bin.mkBin (file_write (Bin.contents (openSwapFile sp)) (Z.of_nat (v * 128)) fr)
                 (Bin.currentOffset (openSwapFile sp))).
Definition drop_space (sp : AddressSpace) (v : nat) (e : TranslationEntry) (fr : list Z) : AddressSpace :=
  set_pages (if dirty e then write_swap sp v fr else sp) (<[v := gone e]> (pages sp)).

Lemma drop_space_fields sp v e fr :
  addressSpaceId (drop_space sp v e fr) = addressSpaceId sp ∧
  pages (drop_space sp v e fr) = <[v := gone e]> (pages sp) ∧
  ∀ v2, image (drop_space sp v e fr) v2 = image sp v2.
Proof. unfold drop_space. by destruct (dirty e). Qed.

Section Drop.
Context (s : VM) (t : list TranslationEntry) (id : Z) (sp : AddressSpace) (v : nat)
  (e : TranslationEntry).
Context (Hi : vm_inv None s t) (Hs : sp_of s id = Some sp) (Hl : pages sp !! v = Some e)
  (Hres : physicalPage e ≠ INT_MAX)
  (Hnt : ∀ i te, t !! i = Some te → valid te = true → physicalPage te ≠ physicalPage e).

Let fr := frame_at (mainMemory (vm_mmu s)) (physicalPage e).
Let s' := set_vm_space s id (drop_space sp v e fr).

Lemma drop_pte id2 v2 :
  pte s' id2 v2 = if decide (id2 = id ∧ v2 = v) then Some (gone e) else pte s id2 v2.
Proof.
  unfold pte at 1, s'. rewrite sp_of_set_space. destruct (drop_space_fields sp v e fr) as (_ & Ep & _).
  destruct (decide (id2 = id)) as [->|]; cbn [mbind option_bind]; [|by rewrite decide_False by naive_solver].
  rewrite Ep. destruct (decide (v2 = v)) as [->|].
  - rewrite decide_True by done. apply list_lookup_insert_eq. by eapply lookup_lt_Some.
  - rewrite decide_False by naive_solver. unfold pte. rewrite Hs. by apply list_lookup_insert_ne.
Qed.

Lemma drop_frame : 0 ≤ physicalPage e < 16 ∧ in_use s (physicalPage e) ∧
  coreMap s !! Z.to_nat (physicalPage e) = Some (id, Z.of_nat v).
Proof.
  pose proof (vi_pte _ _ _ Hi _ _ _ (pte_of _ _ _ _ _ Hs Hl)) as (_ & _ & [?|(? & ? & _ & ?)]); done.
Qed.

Lemma drop_other id2 v2 e2 : pte s id2 v2 = Some e2 → ¬ (id2 = id ∧ v2 = v) →
  physicalPage e2 ≠ physicalPage e.
Proof.
  intros He2 Hne Epp. destruct drop_frame as (Hr & _ & Hc).
  pose proof (vi_pte _ _ _ Hi _ _ _ He2) as (_ & _ & [E|(_ & _ & _ & Hc2)]); [congruence|].
  rewrite Epp, Hc in Hc2. injection Hc2 as -> Ev. apply Hne. split; [done|lia].
Qed.

Lemma drop_tlb_clean : tlb_clean s t id v.
Proof.
  intros -> i te Ht Hv Hp. exfalso.
  destruct (vi_tlb_pte _ _ _ Hi _ _ Ht Hv) as (v2 & e2 & Hvp & _ & He2 & Hpp & _).
  assert (v2 = v) as -> by lia. rewrite (pte_of _ _ _ _ _ Hs Hl) in He2. injection He2 as <-.
  by apply (Hnt _ _ Ht Hv).
Qed.

Lemma drop_inv : vm_inv (Some (physicalPage e)) s' t.
Proof.
  destruct drop_frame as (Hr & Hu & Hc). destruct (drop_space_fields sp v e fr) as (Eid & Ep & Eim).
  split; try apply Hi.
  - unfold s'. rewrite sp_of_set_space. destruct (vi_cur _ _ _ Hi) as [sp2 E].
    cbn [currentSpace set_vm_space]. case_decide; [by eexists|by rewrite E].
  - intros id2 sp2. unfold s'. rewrite sp_of_set_space. case_decide as E; [|by eapply vi_ids].
    intros [= <-]. rewrite Eid, Ep, length_insert. subst id2. by eapply vi_ids.
  - intros id2 sp2 v2. unfold s'. rewrite sp_of_set_space. case_decide as E; [|by eapply vi_image].
    intros [= <-]. rewrite Ep, length_insert, Eim. by eapply vi_image.
  - intros id2 v2 e2. rewrite drop_pte. case_decide as E.
    + intros [= <-]. destruct E as [-> ->]. cbn.
      pose proof (vi_pte _ _ _ Hi _ _ _ (pte_of _ _ _ _ _ Hs Hl)) as (? & ? & _). eauto.
    + intros He2. pose proof (drop_other _ _ _ He2 E).
      pose proof (vi_pte _ _ _ Hi _ _ _ He2) as (? & ? & [?|(? & ? & _ & ?)]); [eauto|].
      split_and!; [done..|]. right. split; [done|]. split; [done|]. split; [congruence|done].
  - intros p Hp Hb Hh. destruct (vi_frame _ _ _ Hi p Hp Hb) as (id2 & v2 & e2 & He2 & Epp); [done|].
    exists id2, v2, e2. split; [|done]. rewrite drop_pte, decide_False; [done|].
    intros [-> ->]. rewrite (pte_of _ _ _ _ _ Hs Hl) in He2. congruence.
  - intros p [= <-]. done.
  - intros i te Ht Hv. destruct (vi_tlb_pte _ _ _ Hi _ _ Ht Hv) as (v2 & e2 & Hvp & Hro & He2 & Hpp & Hd).
    exists v2, e2. split_and!; try done. rewrite drop_pte, decide_False; [done|].
    cbn. intros [E ->]. rewrite E, (pte_of _ _ _ _ _ Hs Hl) in He2. injection He2 as <-.
    by apply (Hnt _ _ Ht Hv).
  - intros id2 sp2 v2 e2 Hs2 Hl2 Hp2 Hd2 Ht2. unfold s' in Hs2. rewrite sp_of_set_space in Hs2.
    case_decide as E; [|by eapply (vi_clean _ _ _ Hi)].
    injection Hs2 as <-. subst id2. rewrite Ep in Hl2. rewrite Eim.
    destruct (decide (v2 = v)) as [->|].
    + rewrite list_lookup_insert_eq in Hl2 by (by eapply lookup_lt_Some). by injection Hl2 as <-.
    + rewrite list_lookup_insert_ne in Hl2 by done. by eapply (vi_clean _ _ _ Hi).
Qed.

Lemma frame_at_length p : 0 ≤ p < 16 → length (frame_at (mainMemory (vm_mmu s)) p) = 128%nat.
Proof.
  intros Hp. unfold frame_at. rewrite length_take, length_drop.
  pose proof (mw_mem _ _ (vi_mmu _ _ _ Hi)) as Hm. change MEMORY_SIZE with 2048 in Hm. lia.
Qed.

Lemma drop_vpage id2 v2 : vpage s' id2 v2 = vpage s id2 v2.
Proof.
  destruct drop_frame as (Hr & _). pose proof (drop_space_fields sp v e fr) as (_ & Ep & Eim).
  unfold vpage, s'. rewrite sp_of_set_space. case_decide as E; [|done]. subst id2. rewrite Hs.
  cbn [mbind option_bind]. rewrite Ep, Eim. destruct (decide (v2 = v)) as [->|Hne].
  - rewrite list_lookup_insert_eq, Hl by (by eapply lookup_lt_Some). cbn [mbind option_bind].
    rewrite decide_True by done. rewrite decide_False by done. cbn [gone with_valid with_frame dirty].
    unfold drop_space. destruct (dirty e) eqn:Ed.
    + cbn [openSwapFile set_pages write_swap set_swap]. rewrite swap_page_write, decide_True; [done..|].
      by apply frame_at_length.
    + by rewrite (vi_clean _ _ _ Hi _ _ _ _ Hs Hl Hres Ed drop_tlb_clean).
  - rewrite list_lookup_insert_ne by done. destruct (pages sp !! v2) as [e2|] eqn:El; [|done].
    cbn [mbind option_bind]. case_decide; [|done]. destruct (dirty e2); [|done].
    unfold drop_space. destruct (dirty e); [|done].
    cbn [openSwapFile set_pages write_swap set_swap]. rewrite swap_page_write, decide_False; [done..|].
    by apply frame_at_length.
Qed.
End Drop.

(** *** Marking a free frame, and the LRU counters *)
Lemma mark_inv s t f b : vm_inv None s t → 0 ≤ f < 16 →
  Bitmap.wf b → numBits b = 16 → Bitmap.bit (addressesBitMap s) f = false →
  (∀ j, 0 ≤ j < 16 → Bitmap.bit b j = if decide (j = f) then true else Bitmap.bit (addressesBitMap s) j) →
  vm_inv (Some f) (set_vm_map s b) t.
Proof.
  intros Hi Hf Hb Hn Hfree Hbit. split; try apply Hi.
  - done.
  - intros id v e He. pose proof (vi_pte _ _ _ Hi _ _ _ He) as (? & ? & [?|(Hr & Hu & _ & ?)]); [eauto|].
    split_and!; [done..|]. right. unfold in_use in *. cbn.
    assert (physicalPage e ≠ f) by congruence. rewrite Hbit, decide_False by done.
    split; [done|]. split; [done|]. split; [congruence|done].
  - intros p Hp Hu Hh. unfold in_use in Hu. cbn in Hu. rewrite Hbit, decide_False in Hu by congruence.
    by apply (vi_frame _ _ _ Hi).
  - intros p [= <-]. split; [done|]. unfold in_use. cbn. by rewrite Hbit, decide_True.
Qed.

Lemma lru_inv h s t r c : vm_inv h s t → Z.of_nat (length c) = 16 →
  vm_inv h (set_vm_mmu s (set_lru (vm_mmu s) r c)) t.
Proof. intros Hi Hc. split; try apply Hi. destruct (vi_mmu _ _ _ Hi). by split. Qed.

(** *** Loading a page into the free frame *)
Section Fill.
Context (s : VM) (t : list TranslationEntry) (id : Z) (sp : AddressSpace) (v : nat)
  (e : TranslationEntry) (p : Z) (mem : list Z).
Context (Hi : vm_inv (Some p) s t) (Hs : sp_of s id = Some sp) (Hl : pages sp !! v = Some e)
  (Hout : physicalPage e = INT_MAX) (Hlen : length mem = length (mainMemory (vm_mmu s)))
  (Hother : ∀ q, 0 ≤ q < 16 → q ≠ p → frame_at mem q = frame_at (mainMemory (vm_mmu s)) q)
  (Hpage : vpage s id v = Some (frame_at mem p)).

Let s' := set_vm_core
  (set_vm_mmu (upd s id v (with_frame e p)) (set_memory (vm_mmu s) mem))
  (<[Z.to_nat p := (id, Z.of_nat v)]> (coreMap s)).

Lemma fill_pte id2 v2 :
  pte s' id2 v2 = if decide (id2 = id ∧ v2 = v) then Some (with_frame e p) else pte s id2 v2.
Proof.
  change (pte s' id2 v2) with (pte (upd s id v (with_frame e p)) id2 v2).
  eapply pte_upd. by eapply pte_of.
Qed.

Lemma fill_range : 0 ≤ p < 16 ∧ in_use s p ∧ p ≠ INT_MAX.
Proof. destruct (vi_hole _ _ _ Hi p eq_refl). unfold INT_MAX. split_and!; lia || done. Qed.

Lemma fill_image : dirty e = false → image sp v = Ok (frame_at mem p).
Proof.
  intros Hd. rewrite (vpage_eq _ _ _ _ _ Hs Hl), decide_True, Hd in Hpage by done.
  destruct (image sp v); congruence.
Qed.

Lemma fill_other id2 v2 e2 : pte s id2 v2 = Some e2 → physicalPage e2 ≠ INT_MAX →
  0 ≤ physicalPage e2 < 16 ∧ physicalPage e2 ≠ p ∧ ¬ (id2 = id ∧ v2 = v).
Proof.
  intros He Hn. pose proof (vi_pte _ _ _ Hi _ _ _ He) as (_ & _ & [?|(? & _ & Hh & _)]); [done|].
  split; [done|]. split; [congruence|]. intros [-> ->].
  rewrite (pte_of _ _ _ _ _ Hs Hl) in He. congruence.
Qed.

Lemma fill_inv : vm_inv None s' t.
Proof.
  destruct fill_range as (Hr & Hu & Hpm). pose proof (upd_fields s id v (with_frame e p)) as (_ & Eb & _ & Ec & _).
  assert (Eb' : addressesBitMap s' = addressesBitMap s) by exact Eb.
  assert (Ec' : currentSpace s' = currentSpace s) by exact Ec.
  assert (Em' : mainMemory (vm_mmu s') = mem) by done.
  assert (Eco : coreMap s' = <[Z.to_nat p := (id, Z.of_nat v)]> (coreMap s)) by done.
  split; unfold in_use, tlb_clean; rewrite ?Eb', ?Ec', ?Em', ?Eco; try apply Hi.
  - destruct (vi_mmu _ _ _ Hi). split; cbn; try done. by rewrite Hlen.
  - rewrite length_insert. apply Hi.
  - change (is_Some (sp_of (upd s id v (with_frame e p)) (currentSpace s))).
    rewrite sp_of_upd, Hs. destruct (vi_cur _ _ _ Hi) as [sp2 E].
    case_decide; [by eexists|by rewrite E].
  - intros id2 sp2. change (sp_of s' id2) with (sp_of (upd s id v (with_frame e p)) id2).
    rewrite sp_of_upd, Hs. case_decide as E; [|by eapply vi_ids]. cbn. intros [= <-]. subst id2. cbn.
    rewrite length_insert. by eapply vi_ids.
  - intros id2 sp2 v2. change (sp_of s' id2) with (sp_of (upd s id v (with_frame e p)) id2).
    rewrite sp_of_upd, Hs. case_decide as E; [|by eapply vi_image]. cbn. intros [= <-]. cbn.
    rewrite length_insert, image_set_pages. by eapply vi_image.
  - intros id2 v2 e2. rewrite fill_pte. case_decide as E.
    + intros [= <-]. destruct E as [-> ->]. cbn.
      pose proof (vi_pte _ _ _ Hi _ _ _ (pte_of _ _ _ _ _ Hs Hl)) as (? & ? & _).
      split_and!; [done..|]. right. rewrite list_lookup_insert_eq by (rewrite (vi_core _ _ _ Hi); lia). done.
    + intros He2. pose proof (vi_pte _ _ _ Hi _ _ _ He2) as (? & ? & [?|(? & Hu2 & Hh & ?)]); [eauto|].
      split_and!; [done..|]. right. rewrite list_lookup_insert_ne; [done|].
      intros Eq. apply Hh. f_equal. lia.
  - intros q Hq Hb _. destruct (decide (q = p)) as [->|Hne].
    + exists id, v, (with_frame e p). by rewrite fill_pte, decide_True.
    + destruct (vi_frame _ _ _ Hi q Hq Hb) as (id2 & v2 & e2 & He2 & Epp); [congruence|].
      exists id2, v2, e2. split; [|done]. rewrite fill_pte, decide_False; [done|].
      eapply fill_other; [exact He2|]. unfold INT_MAX. lia.
  - done.
  - intros i te Ht Hv. destruct (vi_tlb_pte _ _ _ Hi _ _ Ht Hv) as (v2 & e2 & Hvp & Hro & He2 & Hpp & Hd).
    exists v2, e2. split_and!; try done. rewrite fill_pte, decide_False; [done|].
    eapply fill_other; [exact He2|]. pose proof (tlb_frame _ _ _ _ _ Hi Ht Hv). unfold INT_MAX. lia.
  - intros id2 sp2 v2 e2 Hs2 Hl2 Hp2 Hd2 Ht2.
    change (sp_of s' id2) with (sp_of (upd s id v (with_frame e p)) id2) in Hs2.
    rewrite sp_of_upd, Hs in Hs2. case_decide as E.
    + cbn in Hs2. injection Hs2 as <-. subst id2. cbn in Hl2. rewrite image_set_pages.
      destruct (decide (v2 = v)) as [->|].
      * rewrite list_lookup_insert_eq in Hl2 by (by eapply lookup_lt_Some). injection Hl2 as <-.
        by apply fill_image.
      * rewrite list_lookup_insert_ne in Hl2 by done.
        destruct (fill_other _ _ _ (pte_of _ _ _ _ _ Hs Hl2) Hp2) as (? & ? & _).
        rewrite Hother by done. by eapply (vi_clean _ _ _ Hi).
    + destruct (fill_other _ _ _ (pte_of _ _ _ _ _ Hs2 Hl2) Hp2) as (? & ? & _).
      rewrite Hother by done. by eapply (vi_clean _ _ _ Hi).
Qed.

Lemma fill_vpage id2 v2 : vpage s' id2 v2 = vpage s id2 v2.
Proof.
  destruct fill_range as (Hr & _ & Hpm). destruct (decide (id2 = id ∧ v2 = v)) as [[-> ->]|Hne].
  - rewrite Hpage. unfold vpage. change (sp_of s' id) with (sp_of (upd s id v (with_frame e p)) id).
    rewrite sp_of_upd, Hs, decide_True by done. cbn.
    rewrite list_lookup_insert_eq by (by eapply lookup_lt_Some). cbn. by rewrite decide_False.
  - unfold vpage. change (sp_of s' id2) with (sp_of (upd s id v (with_frame e p)) id2).
    rewrite sp_of_upd, Hs. case_decide as E.
    + subst id2. rewrite Hs. cbn [fmap option_fmap option_map mbind option_bind].
      cbn [pages set_pages openSwapFile]. rewrite image_set_pages, list_lookup_insert_ne by naive_solver.
      destruct (pages sp !! v2) as [e2|] eqn:E2; [|done]. cbn [mbind option_bind]. case_decide; [done|].
      destruct (fill_other _ _ _ (pte_of _ _ _ _ _ Hs E2)) as (? & ? & _); [done|].
      cbn. by rewrite Hother.
    + destruct (sp_of s id2) as [sp2|] eqn:Hs2; [|done]. cbn [mbind option_bind].
      destruct (pages sp2 !! v2) as [e2|] eqn:E2; [|done]. cbn [mbind option_bind]. case_decide; [done|].
      destruct (fill_other _ _ _ (pte_of _ _ _ _ _ Hs2 E2)) as (? & ? & _); [done|].
      cbn. by rewrite Hother.
Qed.
End Fill.

(** *** Putting the entry of a page into a free TLB slot *)
Lemma install_inv s t k old v e : vm_inv None s t → t !! k = Some old → valid old = false →
  pte s (currentSpace s) v = Some e → physicalPage e ≠ INT_MAX → valid e = true →
  (∀ i te, t !! i = Some te → valid te = true → virtualPage te ≠ Z.of_nat v) →
  vm_inv None (set_vm_mmu s (set_tlb (vm_mmu s) (<[k := e]> t))) (<[k := e]> t).
Proof.
  intros Hi Hk Hold He Hres Hv Hmiss. apply lookup_lt_Some in Hk as Hlt.
  pose proof (vi_pte _ _ _ Hi _ _ _ He) as (Evp & Ero & [?|(Er & _)]); [done|].
  assert (Hcase : ∀ i te, <[k := e]> t !! i = Some te → valid te = true →
            i = k ∧ te = e ∨ i ≠ k ∧ t !! i = Some te).
  { intros i te Hl _. destruct (decide (i = k)) as [->|].
    - rewrite list_lookup_insert_eq in Hl by done. injection Hl as <-. by left.
    - rewrite list_lookup_insert_ne in Hl by done. by right. }
  split; try apply Hi.
  - eapply mmu_wf_set_tlb; [by eapply vi_mmu|]. intros i te Hl Vt.
    destruct (Hcase _ _ Hl Vt) as [[_ ->]|[_ Hl']]; [done|]. by eapply tlb_frame.
  - rewrite length_insert. apply Hi.
  - intros i te Hl Vt. destruct (Hcase _ _ Hl Vt) as [[_ ->]|[_ Hl']]; [|by eapply (vi_tlb_pte _ _ _ Hi)].
    by exists v, e.
  - intros i j te te' H1 H2 V1 V2 Hp. destruct (Hcase _ _ H1 V1) as [[-> ->]|[N1 L1]],
      (Hcase _ _ H2 V2) as [[-> ->]|[N2 L2]]; [done|..].
    + destruct (Hmiss _ _ L2 V2). congruence.
    + destruct (Hmiss _ _ L1 V1). congruence.
    + by apply (vi_tlb_inj _ _ _ Hi i j te te').
  - intros id2 sp2 v2 e2 Hs2 Hl2 Hp2 Hd2 Ht2. eapply (vi_clean _ _ _ Hi); try done.
    intros Ec i te Hl Vt Vp. apply (Ht2 Ec i); try done.
    rewrite list_lookup_insert_ne; [done|]. intros ->. congruence.
Qed.

(** ** Frames of memory *)
Lemma frame_at_lookup mem p i : (i < 128)%nat →
  frame_at mem p !! i = mem !! (Z.to_nat (p * 128) + i)%nat.
Proof. intros. unfold frame_at. by apply lookup_take_drop. Qed.

Lemma frame_at_eq mem p pg : length pg = 128%nat →
  (∀ i, (i < 128)%nat → mem !! (Z.to_nat (p * 128) + i)%nat = pg !! i) → frame_at mem p = pg.
Proof.
  intros Hl H. apply list_eq. intros i. destruct (decide (i < 128)%nat).
  - rewrite frame_at_lookup by done. auto.
  - rewrite !lookup_ge_None_2; [done|lia|]. unfold frame_at. rewrite length_take. lia.
Qed.

Lemma splice_frame mem p pg : length mem = 2048%nat → length pg = 128%nat → 0 ≤ p < 16 →
  ∃ mem', splice mem (p * 128) pg = Ok mem' ∧ length mem' = 2048%nat ∧ frame_at mem' p = pg ∧
    ∀ q, 0 ≤ q < 16 → q ≠ p → frame_at mem' q = frame_at mem q.
Proof.
  intros Hm Hp Hr. destruct (splice_ok mem (p * 128) pg) as (mem' & E & Hl & Hk); [lia..|].
  exists mem'. split_and!; [done|lia| |].
  - apply frame_at_eq; [done|]. intros i Hi. rewrite Hk, decide_True by lia. f_equal. lia.
  - intros q Hq Hne. apply list_eq. intros i. destruct (decide (i < 128)%nat).
    + rewrite !frame_at_lookup, Hk by done. rewrite decide_False by lia. done.
    + rewrite !lookup_ge_None_2; [done|unfold frame_at; rewrite length_take; lia..].
Qed.

Lemma mem_length h s t : vm_inv h s t → length (mainMemory (vm_mmu s)) = 2048%nat.
Proof.
  intros Hi. pose proof (mw_mem _ _ (vi_mmu _ _ _ Hi)) as Hm. change MEMORY_SIZE with 2048 in Hm. lia.
Qed.

Lemma get_tlb_ok h s t : vm_inv h s t → get_tlb s = Ok t.
Proof. intros Hi. unfold get_tlb. by rewrite (mw_tlb _ _ (vi_mmu _ _ _ Hi)). Qed.

Lemma frame_addr_u32 p : 0 ≤ p < 16 → u32 (p * PAGE_SIZE) = p * 128.
Proof. intros. change PAGE_SIZE with 128. apply u32_id. unfold is_u32. lia. Qed.

(** ** The operations *)
(** No frame was used longer ago. *)
Definition least (c : list Z) (victim : Z) : Prop :=
  ∀ q y z, c !! Z.to_nat victim = Some y → 0 ≤ q < 16 → c !! Z.to_nat q = Some z → z < UINT_MAX → y ≤ z.

Lemma PickVictim_ok u : Z.of_nat (length (last_use_counter u)) = 16 →
  ∃ victim u', PickVictim u = Ok (victim, u') ∧ 0 ≤ victim < 16 ∧
    (references_done u ≠ UINT_MAX → u' = u) ∧ least (last_use_counter u') victim ∧
    ∃ r c, u' = set_lru u r c ∧ Z.of_nat (length c) = 16.
Proof.
  intros Hl. unfold PickVictim.
  set (u1 := if bool_decide _ then _ else u).
  assert (H1 : ∃ r c, u1 = set_lru u r c ∧ Z.of_nat (length c) = 16).
  { unfold u1. case_bool_decide.
    - eexists _, _. split; [done|]. by rewrite length_fmap.
    - exists (references_done u), (last_use_counter u). by destruct u. }
  destruct H1 as (r & c & E1 & Hc).
  destruct (for_loop_ind (λ i (st : Z * Z), 0 ≤ st.2 < 16 ∧
      (st.1 = UINT_MAX ∨ last_use_counter u1 !! Z.to_nat st.2 = Some st.1) ∧
      ∀ q z, 0 ≤ q < i → last_use_counter u1 !! Z.to_nat q = Some z → st.1 ≤ z ∨ UINT_MAX ≤ z) (span 0 NUM_PHYS_PAGES) 0
    (λ i (st : Z * Z), let '(mn, victim) := st in
           c ← rd (last_use_counter u1) i;
           Ok (if bool_decide (c < mn) then (c, i) else (mn, victim))) (UINT_MAX, 0))
    as ([mn victim] & E & Hv & Hmn & Hle).
  - cbn [fst snd]. split; [lia|]. split; [by left|lia].
  - intros i [mn vi] Hi (Hvi & Hmn & Hle). change (span 0 NUM_PHYS_PAGES) with 16%nat in Hi. cbn [fst snd] in *.
    destruct (rd_in_range (last_use_counter u1) i) as (x & Hx & Hlk); [rewrite E1; cbn; lia|].
    rewrite Hx. cbn [mbind result_bind]. eexists. split; [done|]. case_bool_decide; cbn [fst snd].
    + split; [lia|]. split; [by right|]. intros q z Hq Hz. destruct (decide (q = i)) as [->|]; [left; naive_solver lia|].
      destruct (Hle q z) as [?|?]; [lia|done|left; lia|by right].
    + split; [lia|]. split; [done|]. intros q z Hq Hz. destruct (decide (q = i)) as [->|]; [left; naive_solver lia|].
      apply (Hle q z); [lia|done].
  - rewrite E. cbn [mbind result_bind snd]. cbn [fst snd] in *. exists victim, u1. split_and!; try done; [lia|lia| | |eauto].
    + intros Hr. unfold u1. by rewrite bool_decide_false.
    + intros q y z Hy Hq Hz Hmax. destruct (Hle q z) as [?|?]; [change (span 0 NUM_PHYS_PAGES) with 16%nat; lia|done| |lia].
      destruct Hmn as [->|Hmn]; [lia|]. rewrite Hy in Hmn. injection Hmn as ->. done.
Qed.

(** At most one TLB entry has a frame. *)
Lemma tlb_frame_inj h s t i j te te' : vm_inv h s t → t !! i = Some te → t !! j = Some te' →
  valid te = true → valid te' = true → physicalPage te = physicalPage te' → i = j.
Proof.
  intros Hi Li Lj Vi Vj Hp.
  destruct (vi_tlb_pte _ _ _ Hi _ _ Li Vi) as (v & e & Hvp & _ & He & Hpe & _).
  destruct (vi_tlb_pte _ _ _ Hi _ _ Lj Vj) as (v' & e' & Hvp' & _ & He' & Hpe' & _).
  pose proof (tlb_frame _ _ _ _ _ Hi Li Vi) as Hf.
  apply (vi_tlb_inj _ _ _ Hi i j te te'); try done.
  pose proof (vi_pte _ _ _ Hi _ _ _ He) as (_ & _ & [E|(_ & _ & _ & Hc)]); [unfold INT_MAX in E; lia|].
  pose proof (vi_pte _ _ _ Hi _ _ _ He') as (_ & _ & [E|(_ & _ & _ & Hc')]); [unfold INT_MAX in E; lia|].
  rewrite Hpe in Hc. rewrite Hpe', <-Hp, Hc in Hc'. injection Hc'. lia.
Qed.

Lemma evict_tlb_ok t e victim : length t = 8%nat →
  (∀ i j te te', t !! i = Some te → t !! j = Some te' → valid te = true → valid te' = true →
    physicalPage te = victim → physicalPage te' = victim → i = j) →
  (evict_tlb t e victim = Ok (t, e) ∧
    ∀ i te, t !! i = Some te → valid te = true → physicalPage te ≠ victim) ∨
  (∃ i te, t !! i = Some te ∧ valid te = true ∧ physicalPage te = victim ∧
    evict_tlb t e victim = Ok (<[i := with_valid te false]> t, with_valid te false)).
Proof.
  intros Hlen Hu.
  set (P := λ (k : Z) (st : list TranslationEntry * TranslationEntry),
    (st = (t, e) ∧ ∀ i te, Z.of_nat i < k → t !! i = Some te → valid te = true → physicalPage te ≠ victim) ∨
    (∃ i te, Z.of_nat i < k ∧ t !! i = Some te ∧ valid te = true ∧ physicalPage te = victim ∧
      st = (<[i := with_valid te false]> t, with_valid te false))).
  unfold evict_tlb. edestruct (for_loop_ind P (span 0 TLB_SIZE) 0) as (st & E & HP).
  3: { erewrite E. change (0 + Z.of_nat (span 0 TLB_SIZE)) with 8 in HP.
       destruct HP as [[-> Hn]|(i & te & _ & Hl & Hv & Hp & ->)].
       - left. split; [done|]. intros i te Hl. apply (Hn i); [|done]. apply lookup_lt_Some in Hl. lia.
       - right. by exists i, te. }
  { left. split; [done|]. lia. }
  intros k [tk ek] Hk HP. change (span 0 TLB_SIZE) with 8%nat in Hk. cbn beta iota.
  destruct (lookup_lt_is_Some_2 t (Z.to_nat k)) as [te Hte]; [lia|].
  destruct HP as [[[= -> ->] Hn]|(i & tei & Hik & Hl & Hv & Hp & [= -> ->])].
  - rewrite (rd_ok _ _ _ (proj1 Hk) Hte). cbn [mbind result_bind].
    destruct (bool_decide (physicalPage te = victim) && valid te) eqn:Eb.
    + apply andb_true_iff in Eb as [Ep%bool_decide_eq_true Ev]. rewrite wr_ok by lia. cbn.
      eexists. split; [done|]. right. exists (Z.to_nat k), te. split_and!; try done. lia.
    + eexists. split; [done|]. left. split; [done|]. intros j tej Hj Hlj Vj Pj.
      destruct (decide (Z.of_nat j = k)) as [<-|]; [|apply (Hn j tej); [lia|done..]].
      rewrite Nat2Z.id in Hte. assert (tej = te) as -> by congruence.
      rewrite bool_decide_true, Vj in Eb by done. done.
  - rewrite (rd_ok _ k te) by (lia || by rewrite list_lookup_insert_ne by lia). cbn [mbind result_bind].
    destruct (bool_decide (physicalPage te = victim) && valid te) eqn:Eb.
    + apply andb_true_iff in Eb as [Ep%bool_decide_eq_true Ev].
      assert (i = Z.to_nat k); [|lia]. by eapply Hu.
    + eexists. split; [done|]. right. exists i, tei. split_and!; try done. lia.
Qed.

Lemma WriteAt_swap (f : Bin.BinFile) fr v : length fr = 128%nat → Z.of_nat v * 128 < 2 ^ 32 →
  Bin.WriteAt f fr PAGE_SIZE (u32 (Z.of_nat v * PAGE_SIZE))
  = Ok (PAGE_SIZE, Bin.mkBin (file_write (Bin.contents f) (Z.of_nat (v * 128)) fr) (Bin.currentOffset f)).
Proof.
  intros Hl Hv. change PAGE_SIZE with 128. unfold Bin.WriteAt. rewrite bool_decide_true by lia.
  cbn [ASSERT mbind result_bind]. rewrite slice_ok by lia. cbn [mbind result_bind].
  rewrite u32_id by (unfold is_u32; lia). change (Z.to_nat 0) with 0%nat. rewrite drop_0.
  rewrite take_ge by lia. by replace (Z.of_nat v * 128) with (Z.of_nat (v * 128)) by lia.
Qed.

(** What a step of the kernel leaves alone: the running process, every virtual
    page, the entries of pages that are not in memory; TLB entries are only
    dropped. *)
Record quiet (s : VM) (t : list TranslationEntry) (s' : VM) (t' : list TranslationEntry) : Prop := {
  q_cur : currentSpace s' = currentSpace s;
  q_faults : numFaults s' = numFaults s;
  q_vpage id v : vpage s' id v = vpage s id v;
  q_out id v e : pte s id v = Some e → physicalPage e = INT_MAX → pte s' id v = Some e;
  q_tlb i te : t' !! i = Some te → valid te = true → t !! i = Some te
}.

Lemma quiet_trans s1 t1 s2 t2 s3 t3 : quiet s1 t1 s2 t2 → quiet s2 t2 s3 t3 → quiet s1 t1 s3 t3.
Proof.
  intros [C1 F1 V1 O1 T1] [C2 F2 V2 O2 T2].
  split; [congruence|congruence|intros; by rewrite V2|auto|auto].
Qed.

(** The page is in memory, in frame [q]. *)
Definition resident (s : VM) (id : Z) (v : nat) (q : Z) : Prop :=
  q ≠ INT_MAX ∧ physicalPage <$> pte s id v = Some q.

(** What a step of the kernel keeps in memory and in the TLB: all but frame [x]. *)
Record keeps (x : option Z) (s : VM) (t : list TranslationEntry) (s' : VM) (t' : list TranslationEntry) : Prop := {
  kp_res id v q : resident s id v q → x ≠ Some q → resident s' id v q;
  kp_tlb i te : t !! i = Some te → valid te = true → x ≠ Some (physicalPage te) → t' !! i = Some te
}.

Lemma keeps_trans x s1 t1 s2 t2 s3 t3 : keeps x s1 t1 s2 t2 → keeps x s2 t2 s3 t3 → keeps x s1 t1 s3 t3.
Proof. intros [R1 T1] [R2 T2]. split; auto. Qed.

Lemma keeps_weaken x s t s' t' : keeps None s t s' t' → keeps x s t s' t'.
Proof. intros [R T]. split; intros; [by apply R|by apply T]. Qed.

Definition lru_of (u : MMU) : Z * list Z := (references_done u, last_use_counter u).
Definition lru (s : VM) : Z * list Z := lru_of (vm_mmu s).
(** Frame [p] is used: its age is the new number of references. *)
Definition lru_use (r : Z) (c : list Z) (p : Z) : Z * list Z := (u32 (r + 1), <[Z.to_nat p := u32 (r + 1)]> c).

Lemma keeps_change s t t' id v e e' : vm_inv None s t → entry_change s t t' id v e e' →
  keeps (Some (physicalPage e)) s t (set_vm_mmu (upd s id v e') (set_tlb (vm_mmu s) t')) t' ∧
  ∀ id2 v2 q, resident s id2 v2 q → resident (set_vm_mmu (upd s id v e') (set_tlb (vm_mmu s) t')) id2 v2 q.
Proof.
  intros Hi Hc. assert (HR : ∀ id2 v2 q, resident s id2 v2 q →
    resident (set_vm_mmu (upd s id v e') (set_tlb (vm_mmu s) t')) id2 v2 q).
  { intros id2 v2 q [Hq Hp]. split; [done|]. rewrite pte_set_mmu, (pte_upd s id v e' e) by apply Hc.
    case_decide as E; [|done]. destruct E as [-> ->]. rewrite (ec_old _ _ _ _ _ _ _ Hc) in Hp.
    rewrite <-Hp. cbn. by rewrite (ec_pp _ _ _ _ _ _ _ Hc). }
  split; [|done]. split; [by eauto|]. intros i te Hl Hv Hne.
  destruct (ec_kept _ _ _ _ _ _ _ Hc _ _ Hl Hv) as [?|(-> & Hvp & _)]; [done|]. exfalso. apply Hne. f_equal.
  destruct (vi_tlb_pte _ _ _ Hi _ _ Hl Hv) as (v2 & e2 & Hvp2 & _ & He2 & <- & _).
  assert (v2 = v) as -> by lia. rewrite (ec_old _ _ _ _ _ _ _ Hc) in He2. congruence.
Qed.

Lemma quiet_change s t t' id v e e' : entry_change s t t' id v e e' → physicalPage e ≠ INT_MAX →
  quiet s t (set_vm_mmu (upd s id v e') (set_tlb (vm_mmu s) t')) t'.
Proof.
  intros Hc Hr. pose proof (upd_fields s id v e') as (_ & _ & _ & Ec & En).
  split; [done|done| | |].
  - intros. by eapply vpage_change.
  - intros id2 v2 e2 He2 Hp2. rewrite pte_set_mmu, (pte_upd s id v e' e) by apply Hc.
    rewrite decide_False; [done|]. intros [-> ->]. pose proof (ec_old _ _ _ _ _ _ _ Hc). congruence.
  - apply Hc.
Qed.

Lemma quiet_drop s t id sp v e : vm_inv None s t → sp_of s id = Some sp → pages sp !! v = Some e →
  physicalPage e ≠ INT_MAX →
  (∀ i te, t !! i = Some te → valid te = true → physicalPage te ≠ physicalPage e) →
  quiet s t (set_vm_space s id
    (drop_space sp v e (frame_at (mainMemory (vm_mmu s)) (physicalPage e)))) t.
Proof.
  intros Hi Hs Hl Hr Hn. split; try done.
  - intros. by eapply drop_vpage.
  - intros id2 v2 e2 He2 Hp2. rewrite (drop_pte s id sp v e) by done. rewrite decide_False; [done|].
    intros [-> ->]. rewrite (pte_of _ _ _ _ _ Hs Hl) in He2. congruence.
Qed.

Lemma keeps_drop s t id sp v e : vm_inv None s t → sp_of s id = Some sp → pages sp !! v = Some e →
  keeps (Some (physicalPage e)) s t (set_vm_space s id
    (drop_space sp v e (frame_at (mainMemory (vm_mmu s)) (physicalPage e)))) t.
Proof.
  intros Hi Hs Hl. split; [|done]. intros id2 v2 q [Hq Hp] Hne. split; [done|].
  rewrite (drop_pte s id sp v e) by done. case_decide as E; [|done]. destruct E as [-> ->].
  rewrite (pte_of _ _ _ _ _ Hs Hl) in Hp. cbn in Hp. congruence.
Qed.

Lemma set_tlb_id s t : tlb (vm_mmu s) = Some t → set_vm_mmu s (set_tlb (vm_mmu s) t) = s.
Proof.
  intros E. destruct s as [[? u ?]]; cbn in *. destruct u; cbn in *.
  unfold set_vm_mmu, set_mmu, set_tlb. cbn. by rewrite E.
Qed.

(** The end of [EvacuatePage]: the swap file and the page table. *)
Lemma save_victim_ok s id sp v e0 e victim : sp_of s id = Some sp → pages sp !! v = Some e0 →
  length (mainMemory (vm_mmu s)) = 2048%nat → 0 ≤ victim < 16 → Z.of_nat v * 128 < 2 ^ 32 →
  save_victim s id (Z.of_nat v) victim e
  = Ok (set_vm_space s id (drop_space sp v e (frame_at (mainMemory (vm_mmu s)) victim))).
Proof.
  intros Hs Hl Hm Hv Hw. apply lookup_lt_Some in Hl as Hlt. unfold save_victim.
  assert (Hsp : ∀ sp', pages sp' = pages sp → set_page (set_vm_space s id sp') id (Z.of_nat v) (gone e)
    = Ok (set_vm_space s id (set_pages sp' (<[v := gone e]> (pages sp))))).
  { intros sp' Ep. erewrite set_page_ok by (eapply pte_of; [by rewrite sp_of_set_space, decide_True|by rewrite Ep]).
    unfold upd. rewrite sp_of_set_space, decide_True by done.
    unfold set_vm_space. cbn. by rewrite insert_insert_eq, Ep. }
  unfold drop_space. destruct (dirty e).
  - rewrite (space_of_ok _ _ _ Hs). cbn [mbind result_bind]. rewrite (frame_addr_u32 victim) by done.
    rewrite slice_ok by (change PAGE_SIZE with 128; lia). cbn [mbind result_bind].
    change (Z.to_nat PAGE_SIZE) with 128%nat.
    fold (frame_at (mainMemory (vm_mmu s)) victim).
    rewrite WriteAt_swap; [|unfold frame_at; rewrite length_take, length_drop; lia|done].
    cbn [mbind result_bind snd]. fold (gone e). by rewrite Hsp.
  - cbn [mbind result_bind]. fold (gone e). rewrite (set_page_ok _ _ _ e0) by (by eapply pte_of).
    unfold upd. by rewrite Hs.
Qed.

(** The victim is in no TLB entry. *)
Lemma evict_miss s t id v e : vm_inv None s t → pte s id v = Some e → 0 ≤ physicalPage e < 16 →
  (∀ i te, t !! i = Some te → valid te = true → physicalPage te ≠ physicalPage e) →
  ∃ s', save_victim s id (Z.of_nat v) (physicalPage e) e = Ok s' ∧
    vm_inv (Some (physicalPage e)) s' t ∧ quiet s t s' t ∧ keeps (Some (physicalPage e)) s t s' t ∧ lru s' = lru s.
Proof.
  intros Hi He Hr Hn. apply pte_inv in He as (sp & Hs & Hl & Hlt).
  pose proof (vi_ids _ _ _ Hi _ _ Hs) as [_ Hsz].
  assert (Hne : physicalPage e ≠ INT_MAX) by (unfold INT_MAX; lia).
  rewrite (save_victim_ok s id sp v e) by (done || lia || exact (mem_length _ _ _ Hi)).
  eexists. split; [done|]. split; [by eapply drop_inv|]. split; [by eapply quiet_drop|]. split; [by eapply keeps_drop|done].
Qed.

(** The page of a frame in the TLB is the one the core map names. *)
Lemma tlb_owner s t id v e i te : vm_inv None s t → pte s id v = Some e → t !! i = Some te →
  valid te = true → physicalPage te = physicalPage e →
  id = currentSpace s ∧ virtualPage te = Z.of_nat v.
Proof.
  intros Hi He Ht Hv Hp. pose proof (tlb_frame _ _ _ _ _ Hi Ht Hv) as Hf.
  destruct (vi_tlb_pte _ _ _ Hi _ _ Ht Hv) as (v2 & e2 & Hvp & _ & He2 & Hpp & _).
  pose proof (vi_pte _ _ _ Hi _ _ _ He) as (_ & _ & [E|(_ & _ & _ & C1)]); [unfold INT_MAX in E; lia|].
  pose proof (vi_pte _ _ _ Hi _ _ _ He2) as (_ & _ & [E|(_ & _ & _ & C2)]); [unfold INT_MAX in E; lia|].
  rewrite Hpp, Hp, C1 in C2. injection C2 as -> Ev. split; [done|lia].
Qed.

(** The victim is in the TLB: its entry is saved first. *)
Lemma evict_hit s t id v e i te : vm_inv None s t → pte s id v = Some e → t !! i = Some te →
  valid te = true → physicalPage te = physicalPage e →
  let t' := <[i := with_valid te false]> t in
  ∃ s', save_victim (set_vm_mmu s (set_tlb (vm_mmu s) t')) id (Z.of_nat v) (physicalPage e)
          (with_valid te false) = Ok s' ∧
    vm_inv (Some (physicalPage e)) s' t' ∧ quiet s t s' t' ∧ keeps (Some (physicalPage e)) s t s' t' ∧ lru s' = lru s.
Proof.
  intros Hi He Ht Hv Hp t'. pose proof (tlb_frame _ _ _ _ _ Hi Ht Hv) as Hf.
  destruct (tlb_owner _ _ _ _ _ _ _ Hi He Ht Hv Hp) as [-> Hvp].
  destruct (save_change _ _ _ _ _ _ Hi Ht Hv Hvp) as [e3 Hc].
  assert (e3 = e) as -> by (pose proof (ec_old _ _ _ _ _ _ _ Hc); congruence).
  apply pte_inv in He as (sp & Hs & Hl & Hlt). pose proof (vi_ids _ _ _ Hi _ _ Hs) as [_ Hsz].
  set (te' := with_valid te false) in *.
  set (s2 := set_vm_mmu (upd s (currentSpace s) v te') (set_tlb (vm_mmu s) t')).
  assert (Hi2 : vm_inv None s2 t') by (by eapply vm_inv_change).
  assert (He2 : pte s2 (currentSpace s) v = Some te').
  { unfold s2. rewrite pte_set_mmu, (pte_upd s _ v te' e), decide_True; [done..|]. apply Hc. }
  destruct (evict_miss s2 t' (currentSpace s) v te' Hi2 He2) as (s' & E & Hi' & Hq & Hk & Hlru).
  { cbn. lia. }
  { intros j tj Hj Vj Pj. pose proof (ec_sub _ _ _ _ _ _ _ Hc _ _ Hj Vj) as Hj0.
    assert (j = i) as -> by (eapply tlb_frame_inj; [exact Hi|done..]).
    unfold t' in Hj. rewrite list_lookup_insert_eq in Hj by (by eapply lookup_lt_Some).
    by injection Hj as <-. }
  cbn [te' with_valid physicalPage] in E, Hi', Hk. rewrite Hp in E, Hi', Hk. exists s'. split_and!; [|done| | |].
  - assert (Hm : length (mainMemory (vm_mmu s)) = 2048%nat) by (by eapply mem_length).
    apply pte_inv in He2 as (sp2 & Hs2 & Hl2 & _). rewrite <-E, (save_victim_ok s2 _ sp2 v te') by (done || lia).
    rewrite (save_victim_ok _ _ sp v e) by (done || lia). f_equal.
    unfold s2 in Hs2. rewrite sp_of_set_mmu, sp_of_upd, decide_True, Hs in Hs2 by done. injection Hs2 as <-.
    unfold s2, upd. rewrite Hs. unfold set_vm_space, drop_space, set_pages, write_swap, set_swap. cbn.
    rewrite insert_insert_eq, list_insert_insert_eq. by destruct (dirty te).
  - eapply quiet_trans; [eapply quiet_change; [done|unfold INT_MAX; lia]|done].
  - eapply keeps_trans; [by apply (keeps_change _ _ _ _ _ _ _ Hi Hc)|done].
  - by rewrite Hlru.
Qed.

Lemma running_some s id sp : sp_of s id = Some sp → is_Some (runningProcesses s !! id).
Proof. unfold sp_of. destruct (runningProcesses s !! id); cbn; [by eexists|done]. Qed.

Lemma EvacuatePage_ok s t : vm_inv None s t → (∀ p, 0 ≤ p < 16 → in_use s p) →
  ∃ victim s' t', EvacuatePage s = Ok (victim, s') ∧ 0 ≤ victim < 16 ∧
    vm_inv (Some victim) s' t' ∧ quiet s t s' t' ∧
    (references_done (vm_mmu s) ≠ UINT_MAX →
      keeps (Some victim) s t s' t' ∧ lru s' = lru s ∧ least (last_use_counter (vm_mmu s)) victim).
Proof.
  intros Hi0 Hfull. unfold EvacuatePage.
  destruct (PickVictim_ok (vm_mmu s)) as (victim & u & E & Hr & Hsame & Hleast & rr & c & -> & Hc).
  { apply (mw_counters _ _ (vi_mmu _ _ _ Hi0)). }
  rewrite E. cbn [mbind result_bind]. pose proof (lru_inv _ _ _ rr c Hi0 Hc) as Hi.
  assert (Hq : quiet s t (set_vm_mmu s (set_lru (vm_mmu s) rr c)) t) by done.
  assert (Hk1 : keeps (Some victim) s t (set_vm_mmu s (set_lru (vm_mmu s) rr c)) t) by (by split).
  set (s1 := set_vm_mmu s _) in *.
  assert (Hlru1 : references_done (vm_mmu s) ≠ UINT_MAX → lru s1 = lru s ∧ least (last_use_counter (vm_mmu s)) victim).
  { intros H. specialize (Hsame H). rewrite Hsame in Hleast. split; [|done]. unfold lru, s1.
    change (vm_mmu (set_vm_mmu s ?u)) with u. by rewrite Hsame. }
  assert (Hu : in_use s1 victim) by (by apply Hfull). clearbody s1.
  destruct (vi_frame _ _ _ Hi victim Hr Hu) as (id & v & e & He & Hp); [done|].
  assert (Hres : physicalPage e ≠ INT_MAX) by (unfold INT_MAX; lia).
  pose proof (vi_pte _ _ _ Hi _ _ _ He) as (_ & _ & [?|(_ & _ & _ & Hcore)]); [done|].
  apply pte_inv in He as Hsp. destruct Hsp as (sp & Hs & _).
  rewrite Hp in Hcore. rewrite (rd_ok _ _ _ (proj1 Hr) Hcore). cbn [mbind result_bind].
  rewrite bool_decide_true by (by eapply running_some).
  rewrite (getPageTableEntry_ok _ _ _ _ He), (get_tlb_ok _ _ _ Hi). cbn [mbind result_bind]. subst victim.
  destruct (evict_tlb_ok t e (physicalPage e)) as [[Ee Hn]|(i & te & Ht & Hv & Htp & Ee)].
  { apply (vi_tlb _ _ _ Hi). }
  { intros i j te te' ? ? ? ? ? ?. eapply tlb_frame_inj; try done. congruence. }
  - rewrite Ee. cbn [mbind result_bind]. rewrite (set_tlb_id s1 t) by apply (vi_mmu _ _ _ Hi).
    destruct (evict_miss _ _ _ _ _ Hi He Hr Hn) as (s' & -> & Hi' & Hq' & Hk' & Hl'). cbn [mbind result_bind].
    eexists _, s', t. split_and!; [done|lia|lia|done|by eapply quiet_trans|].
    intros [E1 ?]%Hlru1. split_and!; [by eapply keeps_trans|congruence|done].
  - rewrite Ee. cbn [mbind result_bind].
    destruct (evict_hit _ _ _ _ _ _ _ Hi He Ht Hv Htp) as (s' & -> & Hi' & Hq' & Hk' & Hl'). cbn [mbind result_bind].
    eexists _, s', _. split_and!; [done|lia|lia|done|by eapply quiet_trans|].
    intros [E1 ?]%Hlru1. split_and!; [by eapply keeps_trans|congruence|done].
Qed.

Lemma find_frame_ok s t : vm_inv None s t →
  ∃ f s' t', find_frame s = Ok (f, s') ∧ 0 ≤ f < 16 ∧ vm_inv (Some f) s' t' ∧ quiet s t s' t' ∧
    (references_done (vm_mmu s) ≠ UINT_MAX → ∃ x, keeps x s t s' t' ∧ lru s' = lru s ∧
      ∀ p, x = Some p → least (last_use_counter (vm_mmu s)) p).
Proof.
  intros Hi. destruct (vi_map _ _ _ Hi) as [Hb Hn]. unfold find_frame, Bitmap.Find.
  destruct (Find_loop_ok (addressesBitMap s) (span 0 (numBits (addressesBitMap s))) 0 Hb)
    as [[Hall E]|(k & b' & E & Hk & Hfree & _ & Hb' & Hn' & Hbit)]; [lia|rewrite Hn; reflexivity|lia|..].
  - rewrite E. cbn [mbind result_bind]. rewrite bool_decide_true by done.
    replace (set_vm_map s (addressesBitMap s)) with s by (by destruct s).
    destruct (EvacuatePage_ok s t Hi) as (f & s' & t' & -> & Hf & Hi' & Hq & Hk).
    { intros p Hp. apply Hall. lia. }
    cbn [mbind result_bind]. rewrite (s32_id f) by (unfold is_s32; lia). rewrite (bool_decide_true (f ≠ -1)) by lia.
    cbn. exists f, s', t'. split_and!; try done; [lia..|]. intros (? & ? & ?)%Hk. exists (Some f).
    split_and!; [done..|]. by intros p [= <-].
  - rewrite E. cbn [mbind result_bind]. rewrite bool_decide_false by lia.
    rewrite u32_id by (unfold is_u32; lia). exists k, (set_vm_map s b'), t. split; [done|].
    split; [lia|]. split; [|split; [done|intros _; by exists None]].
    apply mark_inv; try done; [lia|lia|]. intros j Hj. apply Hbit. lia.
Qed.

Lemma zero_page_length : length zero_page = 128%nat.
Proof. done. Qed.

Lemma pad_splice bs : (length bs ≤ 128)%nat → splice zero_page 0 bs = Ok (pad bs).
Proof.
  intros H. unfold splice, pad. by rewrite bool_decide_true by (rewrite zero_page_length; lia).
Qed.

Lemma pad_length bs : (length bs ≤ 128)%nat → length (pad bs) = 128%nat.
Proof. intros. unfold pad. rewrite length_app, length_drop, zero_page_length. lia. Qed.

(** [LoadPage] fills the frame with the page. *)
Lemma LoadPage_ok s t id v e p addr : vm_inv (Some p) s t → pte s id v = Some e →
  physicalPage e = INT_MAX → addr / 128 = Z.of_nat v →
  ∃ mem, LoadPage garbage (upd s id v (with_frame e p)) id addr p
      = Ok (set_vm_core (set_vm_mmu (upd s id v (with_frame e p)) (set_memory (vm_mmu s) mem))
              (<[Z.to_nat p := (id, Z.of_nat v)]> (coreMap s))) ∧
    length mem = length (mainMemory (vm_mmu s)) ∧
    (∀ q, 0 ≤ q < 16 → q ≠ p → frame_at mem q = frame_at (mainMemory (vm_mmu s)) q) ∧
    vpage s id v = Some (frame_at mem p).
Proof.
  intros Hi He Hout Ha. apply pte_inv in He as (sp & Hs & Hl & Hlt).
  destruct (vi_hole _ _ _ Hi p eq_refl) as [Hr _]. pose proof (mem_length _ _ _ Hi) as Hm.
  pose proof (upd_fields s id v (with_frame e p)) as (_ & _ & Eco & _).
  rewrite (vpage_eq _ _ _ _ _ Hs Hl), decide_True by done.
  assert (Hpg : ∃ pg, (if dirty e then
             bs ← Bin.ReadAt (openSwapFile sp) PAGE_SIZE (Z.of_nat v * PAGE_SIZE);
             splice zero_page 0 bs
           else image sp v) = Ok pg ∧ length pg = 128%nat ∧
     (if dirty e then Some (swap_page (openSwapFile sp) v)
      else match image sp v with Ok pg => Some pg | Err _ => None end) = Some pg).
  { destruct (dirty e); [|destruct (vi_image _ _ _ Hi _ _ _ Hs Hlt) as (pg & -> & ?); by exists pg].
    unfold Bin.ReadAt. rewrite bool_decide_true by done. cbn [ASSERT mbind result_bind].
    change (Z.to_nat PAGE_SIZE) with 128%nat.
    replace (Z.to_nat (Z.of_nat v * PAGE_SIZE)) with (v * 128)%nat by (change PAGE_SIZE with 128; lia).
    rewrite pad_splice by (rewrite length_take; lia).
    eexists. split; [done|]. split; [|done]. apply pad_length. rewrite length_take. lia. }
  destruct Hpg as (pg & Epg & Hpgl & Hvp).
  destruct (splice_frame (mainMemory (vm_mmu s)) p zero_page Hm eq_refl Hr) as (m1 & E1 & L1 & _ & O1).
  destruct (splice_frame m1 p pg L1 Hpgl Hr) as (m2 & E2 & L2 & F2 & O2).
  exists m2. split_and!; [|congruence|intros q Hq Hne; rewrite O2, O1; done|congruence].
  unfold LoadPage. rewrite bool_decide_true by (unfold INT_MAX; lia). cbn [ASSERT mbind result_bind].
  rewrite (space_of_ok _ _ (set_pages sp (<[v := with_frame e p]> (pages sp))))
    by (rewrite sp_of_upd, decide_True, Hs by done; done).
  cbn [mbind result_bind]. rewrite vm_mmu_upd, frame_addr_u32, E1 by done. cbn [mbind result_bind].
  change (addr / PAGE_SIZE) with (addr / 128). rewrite Ha.
  cbn [pages set_pages openSwapFile addressSpaceId].
  rewrite (rd_ok _ _ (with_frame e p)) by (lia || by rewrite Nat2Z.id, list_lookup_insert_eq).
  cbn [mbind result_bind with_frame dirty].
  change (load_from_exe garbage (set_pages sp _) (Z.of_nat v) zero_page) with (image sp v).
  rewrite Epg. cbn [mbind result_bind]. rewrite E2, Eco. cbn [mbind result_bind].
  rewrite wr_ok by (rewrite (vi_core _ _ _ Hi); lia). cbn [mbind result_bind].
  by rewrite (proj1 (vi_ids _ _ _ Hi _ _ Hs)).
Qed.

Lemma load_missing_ok s t id v e addr : vm_inv None s t → pte s id v = Some e →
  physicalPage e = INT_MAX → addr / 128 = Z.of_nat v →
  ∃ s' t' p, load_missing garbage s id addr (Z.of_nat v) = Ok s' ∧ vm_inv None s' t' ∧
    0 ≤ p < 16 ∧ pte s' id v = Some (with_frame e p) ∧
    currentSpace s' = currentSpace s ∧ numFaults s' = numFaults s ∧
    (∀ id2 v2, vpage s' id2 v2 = vpage s id2 v2) ∧
    (∀ i te, t' !! i = Some te → valid te = true → t !! i = Some te) ∧
    (references_done (vm_mmu s) ≠ UINT_MAX → ∃ x, keeps x s t s' t' ∧ (∀ p, x = Some p → least (last_use_counter (vm_mmu s)) p) ∧
      lru s' = (u32 (references_done (vm_mmu s) + 1),
                <[Z.to_nat p := u32 (references_done (vm_mmu s) + 1)]> (last_use_counter (vm_mmu s)))).
Proof.
  intros Hi He Hout Ha. unfold load_missing.
  destruct (find_frame_ok s t Hi) as (p & s1 & t1 & -> & Hp & Hi1 & [Qc Qf Qv Qo Qt] & Hkeep). cbn [mbind result_bind].
  pose proof (Qo _ _ _ He Hout) as He1.
  rewrite (getPageTableEntry_ok _ _ _ _ He1). cbn [mbind result_bind].
  rewrite (set_page_ok _ _ _ _ _ He1). cbn [mbind result_bind]. rewrite vm_mmu_upd.
  pose proof (mw_counters _ _ (vi_mmu _ _ _ Hi1)) as Hcnt. change NUM_PHYS_PAGES with 16 in Hcnt.
  rewrite wr_ok by lia. cbn [mbind result_bind].
  set (r := u32 _). set (c := <[_ := _]> (last_use_counter _)).
  pose proof (lru_inv _ _ _ r c Hi1) as Hi2. specialize (Hi2 ltac:(unfold c; by rewrite length_insert)).
  set (s2 := set_vm_mmu s1 (set_lru (vm_mmu s1) r c)) in *.
  assert (Ecomm : set_vm_mmu (upd s1 id v (with_frame e p)) (set_lru (vm_mmu s1) r c)
                  = upd s2 id v (with_frame e p)).
  { unfold s2, upd. rewrite sp_of_set_mmu. by destruct (sp_of s1 id). }
  rewrite Ecomm. assert (He2 : pte s2 id v = Some e) by done.
  rewrite (getPageTableEntry_ok _ id v (with_frame e p)) by (by rewrite (pte_upd _ _ _ _ e), decide_True).
  cbn [mbind result_bind with_frame physicalPage].
  destruct (LoadPage_ok s2 t1 id v e p addr Hi2 He2 Hout Ha) as (mem & -> & Hl & Ho & Hpg).
  pose proof He2 as (sp & Hs & Hlk & _)%pte_inv.
  eexists _, t1, p. split; [done|]. split; [by eapply fill_inv|]. split; [done|]. split; [|split; [|split; [|split; [|split]]]].
  - erewrite fill_pte by done. by rewrite decide_True.
  - rewrite <-Qc. by apply (upd_fields s2 id v).
  - rewrite <-Qf. by apply (upd_fields s2 id v).
  - intros id2 v2. etrans; [by eapply fill_vpage|]. etrans; [|apply Qv]. done.
  - exact Qt.
  - intros (x & Hkx & Hl1 & Hx)%Hkeep. exists x. injection Hl1 as Er Ec. split_and!; [|done|].
    + destruct Hkx as [HR HT]. split; [|exact HT]. intros id2 v2 q Hres Hne. destruct (HR id2 v2 q Hres Hne) as [Hq Hq2]. split; [done|].
      erewrite fill_pte by done. case_decide as E; [|done]. destruct E as [-> ->].
      change (pte s1 id v) with (pte s2 id v) in Hq2. rewrite He2 in Hq2. cbn in Hq2. congruence.
    + rewrite <-Er, <-Ec. done.
Qed.

(** [install_entry] puts the entry of the page into the TLB, in the slot after
    the last one it used. *)
Definition slot (s : VM) : nat := Z.to_nat (numFaults s mod TLB_SIZE).

Record installs (e : TranslationEntry) (s : VM) (t : list TranslationEntry) (s' : VM) (t' : list TranslationEntry) : Prop := {
  is_entry : t' !! slot s = Some e;
  is_cur : currentSpace s' = currentSpace s;
  is_faults : numFaults s' = u32 (numFaults s + 1);
  is_lru : lru s' = lru s;
  is_res id v q : resident s id v q → resident s' id v q;
  is_page id v : vpage s' id v = vpage s id v;
  is_tlb i te : i ≠ slot s → t !! i = Some te → t' !! i = Some te
}.

Lemma install_end s s1 t t1 old v e : vm_inv None s1 t1 → currentSpace s1 = currentSpace s →
  numFaults s1 = numFaults s → lru s1 = lru s → pte s1 (currentSpace s) v = Some e →
  physicalPage e ≠ INT_MAX → valid e = true →
  t1 !! slot s = Some old → valid old = false →
  (∀ i te, t1 !! i = Some te → valid te = true → virtualPage te ≠ Z.of_nat v) →
  (∀ id2 v2, vpage s1 id2 v2 = vpage s id2 v2) →
  (∀ id2 v2 q, resident s id2 v2 q → resident s1 id2 v2 q) →
  (∀ i te, i ≠ slot s → t !! i = Some te → t1 !! i = Some te) →
  ∃ s' t', (e ← getPageTableEntry s1 (currentSpace s) (Z.of_nat v); t ← get_tlb s1;
      t ← wr t (numFaults s mod TLB_SIZE) e;
      Ok (set_vm_faults (set_vm_mmu s1 (set_tlb (vm_mmu s1) t)) (u32 (numFaults s1 + 1)))) = Ok s' ∧
    vm_inv None s' t' ∧ installs e s t s' t'.
Proof.
  intros Hi1 Hc1 Hf1 Hl1 He1 Hres Hv Ho1 Vo1 Hm1 Hv1 Hr1 Ht1.
  rewrite (getPageTableEntry_ok _ _ _ _ He1), (get_tlb_ok _ _ _ Hi1). cbn [mbind result_bind].
  assert (0 ≤ numFaults s mod TLB_SIZE) by (by apply Z.mod_pos_bound).
  apply lookup_lt_Some in Ho1 as Hlt. rewrite wr_ok by (unfold slot in Hlt; lia). cbn [mbind result_bind].
  rewrite <-Hc1 in He1.
  pose proof (install_inv s1 t1 _ old v e Hi1 Ho1 Vo1 He1 Hres Hv Hm1) as Hi'.
  eexists _, _. split; [done|]. split; [split; apply Hi'|]. split.
  - by apply list_lookup_insert_eq.
  - done.
  - by rewrite <-Hf1.
  - done.
  - intros id2 v2 q Hq. exact (Hr1 _ _ _ Hq).
  - intros id2 v2. rewrite <-Hv1. done.
  - intros i te Hne Hl. fold (slot s). rewrite list_lookup_insert_ne by done. by apply Ht1.
Qed.

Lemma install_entry_ok s t v e : vm_inv None s t → pte s (currentSpace s) v = Some e →
  physicalPage e ≠ INT_MAX → valid e = true →
  (∀ i te, t !! i = Some te → valid te = true → virtualPage te ≠ Z.of_nat v) →
  ∃ s' t', install_entry s (currentSpace s) (Z.of_nat v) = Ok s' ∧ vm_inv None s' t' ∧ installs e s t s' t'.
Proof.
  intros Hi He Hres Hv Hmiss. unfold install_entry. rewrite (get_tlb_ok _ _ _ Hi). cbn [mbind result_bind].
  assert (Hk : 0 ≤ numFaults s mod TLB_SIZE < 8) by (by apply Z.mod_pos_bound).
  pose proof (vi_tlb _ _ _ Hi) as Hlen.
  destruct (rd_in_range t (numFaults s mod TLB_SIZE)) as (old & Hrd & Hold); [lia|]. rewrite Hrd. cbn [mbind result_bind].
  destruct (valid old) eqn:Vold; cbn [mbind result_bind]; [|by eapply install_end].
  rewrite wr_ok by lia. cbn [mbind result_bind].
  destruct (vi_tlb_pte _ _ _ Hi _ _ Hold Vold) as (v2 & e2 & Hvp2 & _ & He2 & Hp2 & _).
  destruct (save_change _ _ _ _ _ _ Hi Hold Vold Hvp2) as [e3 Hc].
  destruct (keeps_change _ _ _ _ _ _ _ Hi Hc) as [_ HR].
  fold (slot s) in *. set (t1 := <[slot s := _]> t) in *. rewrite Hvp2.
  rewrite (set_page_ok _ _ _ e2) by done. cbn [mbind result_bind].
  replace (upd (set_vm_mmu s (set_tlb (vm_mmu s) t1)) (currentSpace s) v2 (with_valid old false))
    with (set_vm_mmu (upd s (currentSpace s) v2 (with_valid old false)) (set_tlb (vm_mmu s) t1))
    by (unfold upd; rewrite sp_of_set_mmu; by destruct (sp_of s (currentSpace s))).
  pose proof (upd_fields s (currentSpace s) v2 (with_valid old false)) as (_ & _ & _ & Ec & En).
  eapply (install_end _ _ t t1 (with_valid old false)); try done.
  - by eapply vm_inv_change.
  - rewrite pte_set_mmu, (pte_upd _ _ _ _ e2), decide_False; [done| |done].
    intros [_ ->]. by eapply Hmiss.
  - unfold t1. apply list_lookup_insert_eq. unfold slot. lia.
  - intros i te Ht Vt. by eapply Hmiss; [eapply ec_sub|].
  - intros. by eapply vpage_change.
  - intros i te Hne Hl. unfold t1. by rewrite list_lookup_insert_ne.
Qed.

(** ** The TLB as a partial map *)
Lemma tlb_find_none i t vpn : tlb_find i t vpn = None →
  ∀ j te, t !! j = Some te → valid te = true → virtualPage te ≠ vpn.
Proof.
  revert i. induction t as [|e t IH]; intros i; cbn; [done|].
  destruct (valid e && bool_decide (virtualPage e = vpn)) eqn:E; [done|].
  intros Hn [|j] te; cbn; [|by apply (IH (i + 1))].
  intros [= ->] Hv Hp. rewrite Hv, bool_decide_true in E by done. done.
Qed.

Lemma tlb_find_some h s t k te : vm_inv h s t → t !! k = Some te → valid te = true →
  tlb_find 0 t (virtualPage te) = Some (Z.of_nat k, te).
Proof.
  intros Hi Hk Hv. destruct (tlb_find 0 t (virtualPage te)) as [[j e]|] eqn:E.
  - apply tlb_find_spec in E as (Hj & Hl & Vj & Pj). rewrite Z.sub_0_r in Hl.
    assert (Z.to_nat j = k) by (eapply (vi_tlb_inj _ _ _ Hi); [exact Hl|exact Hk|done..]).
    assert (j = Z.of_nat k) by lia. subst j. rewrite Nat2Z.id in Hl. congruence.
  - exfalso. by eapply tlb_find_none.
Qed.

(** The page is mapped: every aligned access to it goes to frame [p]. *)
Definition mapped (t : list TranslationEntry) (v : nat) (p : Z) : Prop :=
  ∀ addr size writing, addr / PAGE_SIZE = Z.of_nat v → misaligned addr size = false →
    translation t addr size writing = inr (p * PAGE_SIZE + addr mod PAGE_SIZE).

Lemma mapped_entry h s t k e v : vm_inv h s t → t !! k = Some e → valid e = true →
  virtualPage e = Z.of_nat v → mapped t v (physicalPage e).
Proof.
  intros Hi Hk Hv Hp addr size writing Ha Hm. unfold translation, tlb_entry. rewrite Hm, Ha, <-Hp.
  rewrite (tlb_find_some _ _ _ _ _ Hi Hk Hv). cbn.
  destruct (vi_tlb_pte _ _ _ Hi _ _ Hk Hv) as (_ & _ & _ & -> & _). done.
Qed.

Lemma vpage_of_tlb s t k te v : vm_inv None s t → t !! k = Some te → valid te = true →
  virtualPage te = Z.of_nat v →
  vpage s (currentSpace s) v = Some (frame_at (mainMemory (vm_mmu s)) (physicalPage te)).
Proof.
  intros Hi Hk Hv Hp. pose proof (tlb_frame _ _ _ _ _ Hi Hk Hv) as Hf.
  destruct (vi_tlb_pte _ _ _ Hi _ _ Hk Hv) as (v' & e & Hp' & _ & He & Hpp & _).
  assert (v' = v) as -> by lia. apply pte_inv in He as (sp & Hs & Hl & _).
  rewrite (vpage_eq _ _ _ _ _ Hs Hl), decide_False, Hpp; [done|]. unfold INT_MAX. lia.
Qed.

(** What the handler does to memory, the TLB and the ages of the frames: frame
    [x] is evacuated if no frame was free, and the other pages stay where they
    are; the TLB loses that page and the slot it reuses. *)
Record handled (x : option Z) (v : nat) (s : VM) (t : list TranslationEntry) (s' : VM) (t' : list TranslationEntry) : Prop := {
  hd_least p : x = Some p → least (last_use_counter (vm_mmu s)) p;
  hd_in q : resident s (currentSpace s) v q → x = None;
  hd_res id v2 q : resident s id v2 q → x ≠ Some q → resident s' id v2 q;
  hd_tlb i te : i ≠ slot s → t !! i = Some te → valid te = true → x ≠ Some (physicalPage te) → t' !! i = Some te;
  hd_lru : lru s' = lru s ∨ ∃ p, 0 ≤ p < 16 ∧
    lru s' = (u32 (references_done (vm_mmu s) + 1),
              <[Z.to_nat p := u32 (references_done (vm_mmu s) + 1)]> (last_use_counter (vm_mmu s)))
}.

Lemma set_valid_resident s id v e b id2 v2 q : pte s id v = Some e →
  resident (upd s id v (with_valid e b)) id2 v2 q ↔ resident s id2 v2 q.
Proof.
  intros He. unfold resident. rewrite (pte_upd _ _ _ _ e) by done.
  case_decide as E; [|done]. destruct E as [-> ->]. by rewrite He.
Qed.

Lemma page_fault_full s t a v (Hi : vm_inv None s t)
  (Ha : ReadRegister (machine s) BAD_VADDR_REG = Ok a) (Hv : u32 a / PAGE_SIZE = Z.of_nat v)
  (Hpage : is_Some (pte s (currentSpace s) v)) (Hmiss : tlb_find 0 t (Z.of_nat v) = None) :
  ∃ s' t' e, TLBPageFaultHandler garbage s = Ok s' ∧ vm_inv None s' t' ∧
    currentSpace s' = currentSpace s ∧ numFaults s' = u32 (numFaults s + 1) ∧
    (∀ id v2, vpage s' id v2 = vpage s id v2) ∧
    t' !! slot s = Some e ∧ valid e = true ∧ virtualPage e = Z.of_nat v ∧
    (references_done (vm_mmu s) ≠ UINT_MAX → ∃ x, handled x v s t s' t').
Proof.
  destruct Hpage as [e He]. pose proof (tlb_find_none _ _ _ Hmiss) as Hm.
  unfold TLBPageFaultHandler. rewrite Ha. cbn [mbind result_bind].
  rewrite Hv, (getPageTableEntry_ok _ _ _ _ He). cbn [mbind result_bind].
  rewrite (set_page_ok _ _ _ _ _ He). cbn [mbind result_bind].
  pose proof (set_valid_change s t None _ v e true Hi He) as Hc.
  pose proof (vm_inv_change _ _ _ _ _ _ _ _ Hi Hc) as Hi1.
  pose proof (λ id v2, vpage_change _ _ _ _ _ _ _ id v2 Hc) as Hv1.
  rewrite <-(vm_mmu_upd s (currentSpace s) v (with_valid e true)) in Hi1, Hv1.
  rewrite set_tlb_id in Hi1, Hv1 by (rewrite vm_mmu_upd; apply (vi_mmu _ _ _ Hi)).
  pose proof (upd_fields s (currentSpace s) v (with_valid e true)) as (_ & _ & _ & Ec & En).
  pose proof (vm_mmu_upd s (currentSpace s) v (with_valid e true)) as Eu.
  pose proof (λ id2 v2 q, set_valid_resident s (currentSpace s) v e true id2 v2 q He) as Hres1.
  assert (He1 : pte (upd s (currentSpace s) v (with_valid e true)) (currentSpace s) v
    = Some (with_valid e true)) by (by rewrite (pte_upd _ _ _ _ e), decide_True).
  pose proof (vi_pte _ _ _ Hi _ _ _ He) as (Hvp & _).
  set (s1 := upd s _ v _) in *. clearbody s1. case_bool_decide as Hout.
  - destruct (load_missing_ok s1 t (currentSpace s) v _ (u32 a) Hi1 He1 Hout Hv)
      as (s2 & t2 & p & -> & Hi2 & Hp & He2 & Ec2 & En2 & Hv2 & Ht2 & Hk2). cbn [mbind result_bind].
    rewrite Ec in Ec2. rewrite En in En2. rewrite Eu in Hk2. rewrite <-Ec2 in He2. rewrite <-Ec2.
    destruct (install_entry_ok s2 t2 v _ Hi2 He2) as (s' & t' & E & Hi' & [K1 K2 K3 K4 K5 K6 K7]).
    { cbn. unfold INT_MAX. lia. }
    { done. }
    { intros i te Hl Vt. apply (Hm i te); auto. }
    assert (Eslot : slot s2 = slot s) by (unfold slot; by rewrite En2). rewrite Eslot in *.
    eexists s', t', _. split_and!; try done.
    + congruence.
    + intros. by rewrite K6, Hv2.
    + intros (x & [HR HT] & Hl & Hlru)%Hk2. exists x. split.
      * done.
      * intros q [Hq Hq2]. rewrite He in Hq2. cbn in *. congruence.
      * intros id v2 q Hq Hne. apply K5, HR; [|done]. by apply Hres1.
      * intros i te Hne Hl1 Hval Hx. apply K7; [done|]. by apply HT.
      * right. exists p. rewrite K4. by rewrite Hlru.
  - rewrite <-Ec in He1. cbn [mbind result_bind]. rewrite <-Ec.
    destruct (install_entry_ok s1 t v _ Hi1 He1) as (s' & t' & E & Hi' & [K1 K2 K3 K4 K5 K6 K7]); [done..|].
    assert (Eslot : slot s1 = slot s) by (unfold slot; by rewrite En). rewrite Eslot in *.
    eexists s', t', _. split_and!; try done.
    + congruence.
    + intros. by rewrite K6.
    + intros _. exists None. split; try done.
      * intros id v2 q Hq _. apply K5. by apply Hres1.
      * intros i te Hne Hl1 _ _. by apply K7.
      * left. rewrite K4. unfold lru. by rewrite Eu.
Qed.

Lemma page_fault_ok s t a v (Hi : vm_inv None s t)
  (Ha : ReadRegister (machine s) BAD_VADDR_REG = Ok a) (Hv : u32 a / PAGE_SIZE = Z.of_nat v)
  (Hpage : is_Some (pte s (currentSpace s) v)) (Hmiss : tlb_find 0 t (Z.of_nat v) = None) :
  ∃ s' t' p, TLBPageFaultHandler garbage s = Ok s' ∧ vm_inv None s' t' ∧
    currentSpace s' = currentSpace s ∧
    (∀ id v2, vpage s' id v2 = vpage s id v2) ∧ mapped t' v p ∧
    vpage s (currentSpace s) v = Some (frame_at (mainMemory (vm_mmu s')) p).
Proof.
  destruct (page_fault_full s t a v Hi Ha Hv Hpage Hmiss) as (s' & t' & e & E & Hi' & Ec & _ & Hv' & Hk & Vk & Pk & _).
  exists s', t', (physicalPage e). split_and!; try done.
  - by eapply mapped_entry.
  - rewrite <-Hv', <-Ec. by eapply vpage_of_tlb.
Qed.

(** C4: demand paging is transparent.  When the running process touches one of
    its pages that the TLB does not have, the handler returns; no page of any
    process has changed, wherever pages were moved (also when a frame had to be
    evacuated to swap, and when the page is loaded back or for the first
    time); the invariant holds again; and the repeated access is translated, to
    the frame that holds the page. *)
Theorem page_fault_transparent s t a v (Hi : vm_inv None s t)
  (Ha : ReadRegister (machine s) BAD_VADDR_REG = Ok a) (Hv : u32 a / PAGE_SIZE = Z.of_nat v)
  (Hpage : is_Some (pte s (currentSpace s) v)) (Hmiss : tlb_find 0 t (Z.of_nat v) = None) :
  ∃ s' t' p, TLBPageFaultHandler garbage s = Ok s' ∧ vm_inv None s' t' ∧
    currentSpace s' = currentSpace s ∧
    (∀ id v2, vpage s' id v2 = vpage s id v2) ∧ mapped t' v p ∧
    vpage s (currentSpace s) v = Some (frame_at (mainMemory (vm_mmu s')) p).
Proof. by eapply page_fault_ok. Qed.

(** ** User accesses *)
Definition touch (e : TranslationEntry) (writing : bool) : TranslationEntry :=
  mkTE (virtualPage e) (physicalPage e) (valid e) (readOnly e) true (if writing then true else dirty e).

Lemma Translate_tlb m t k te addr size writing pa m' : tlb m = Some t →
  tlb_find 0 t (addr / PAGE_SIZE) = Some (Z.of_nat k, te) →
  Translate m addr size writing = Ok (inr pa, m') →
  tlb m' = Some (<[k := touch te writing]> t) ∧ pa = u32 (physicalPage te * PAGE_SIZE + addr mod PAGE_SIZE).
Proof.
  intros Ht Hf. unfold Translate, RetrievePageEntry, ASSERT. rewrite Ht, Hf.
  destruct (xorb _ _); cbn [mbind result_bind]; [|done].
  destruct (misaligned addr size); [done|].
  destruct (wr _ _ _) as [c|] eqn:Ew; cbn [mbind result_bind]; [|done].
  destruct (readOnly te && writing); [done|]. case_bool_decide; [done|].
  cbn [set_table_entry tlb]. destruct (wr t (Z.of_nat k) _) as [t'|] eqn:Ewt; cbn [mbind result_bind]; [|done].
  apply wr_inv in Ewt as [_ ->]. rewrite Nat2Z.id. destruct (_ && _); cbn [mbind result_bind]; [|done].
  intros [= <- <-]. done.
Qed.

Lemma splice_in_frame mem p off bs : length mem = 2048%nat → 0 ≤ p < 16 → 0 ≤ off →
  off + Z.of_nat (length bs) ≤ 128 →
  ∃ mem' pg', splice mem (p * 128 + off) bs = Ok mem' ∧ length mem' = 2048%nat ∧
    splice (frame_at mem p) off bs = Ok pg' ∧ frame_at mem' p = pg' ∧
    ∀ q, 0 ≤ q < 16 → q ≠ p → frame_at mem' q = frame_at mem q.
Proof.
  intros Hm Hp Ho Hl. destruct (splice_ok mem (p * 128 + off) bs) as (mem' & E & L & K); [lia..|].
  assert (Hf : length (frame_at mem p) = 128%nat) by (unfold frame_at; rewrite length_take, length_drop; lia).
  destruct (splice_ok (frame_at mem p) off bs) as (pg' & E' & L' & K'); [lia..|].
  exists mem', pg'. split_and!; [done|lia|done| |].
  - apply frame_at_eq; [lia|]. intros i Hi. rewrite K, K', frame_at_lookup by done.
    destruct (decide (Z.to_nat off ≤ i < Z.to_nat off + length bs)%nat).
    + rewrite decide_True by lia. f_equal. lia.
    + by rewrite decide_False by lia.
  - intros q Hq Hne. apply list_eq. intros i. destruct (decide (i < 128)%nat).
    + rewrite !frame_at_lookup, K by done. rewrite decide_False by lia. done.
    + rewrite !lookup_ge_None_2; [done|unfold frame_at; rewrite length_take; lia..].
Qed.

Lemma offset_bound addr size : 0 ≤ addr → size = 1 ∨ size = 2 ∨ size = 4 →
  misaligned addr size = false → 0 ≤ addr mod PAGE_SIZE ∧ addr mod PAGE_SIZE + size ≤ 128.
Proof.
  intros Ha Hs Hm. split; [by apply Z.mod_pos_bound|].
  destruct (frame_addr 15 (addr mod PAGE_SIZE) size addr) as [_ H]; try done.
  change MEMORY_SIZE with 2048 in H. change PAGE_SIZE with 128 in *. lia.
Qed.

Section Store.
Context (s : VM) (t : list TranslationEntry) (k : nat) (te : TranslationEntry) (v : nat)
  (u : MMU).
Context (Hi : vm_inv None s t) (Hk : t !! k = Some te) (Hv : valid te = true)
  (Hvp : virtualPage te = Z.of_nat v).
Let t' := <[k := touch te true]> t.
Context (Hu : mmu_wf u t')
  (Hother : ∀ q, 0 ≤ q < 16 → q ≠ physicalPage te →
    frame_at (mainMemory u) q = frame_at (mainMemory (vm_mmu s)) q).

Lemma store_case i x : t' !! i = Some x → i = k ∧ x = touch te true ∨ i ≠ k ∧ t !! i = Some x.
Proof.
  unfold t'. intros Hl. apply lookup_lt_Some in Hk as Hlt. destruct (decide (i = k)) as [->|].
  - rewrite list_lookup_insert_eq in Hl by done. injection Hl as <-. by left.
  - rewrite list_lookup_insert_ne in Hl by done. by right.
Qed.

(** Another page in memory is in another frame. *)
Lemma store_other id v2 e2 : pte s id v2 = Some e2 → physicalPage e2 ≠ INT_MAX →
  ¬ (id = currentSpace s ∧ v2 = v) → 0 ≤ physicalPage e2 < 16 ∧ physicalPage e2 ≠ physicalPage te.
Proof.
  intros He Hr Hne. pose proof (vi_pte _ _ _ Hi _ _ _ He) as (_ & _ & [?|(? & _)]); [done|].
  split; [done|]. intros E. apply Hne.
  destruct (tlb_owner _ _ _ _ _ _ _ Hi He Hk Hv (eq_sym E)) as [? ?]. split; [done|lia].
Qed.

Lemma store_inv : vm_inv None (set_vm_mmu s u) t'.
Proof.
  split; try apply Hi.
  - exact Hu.
  - unfold t'. rewrite length_insert. apply Hi.
  - intros i x Hl Vx. destruct (store_case _ _ Hl) as [[-> ->]|[_ Hl']]; [|by eapply (vi_tlb_pte _ _ _ Hi)].
    destruct (vi_tlb_pte _ _ _ Hi _ _ Hk Hv) as (v2 & e2 & ? & ? & ? & ? & ?). by exists v2, e2.
  - intros i j x y Lx Ly Vx Vy E. destruct (store_case _ _ Lx) as [[-> ->]|[N1 L1]],
      (store_case _ _ Ly) as [[-> ->]|[N2 L2]]; [done|..].
    + destruct N2. by eapply (vi_tlb_inj _ _ _ Hi j k y te).
    + destruct N1. by eapply (vi_tlb_inj _ _ _ Hi i k x te).
    + by eapply (vi_tlb_inj _ _ _ Hi i j x y).
  - intros id sp v2 e2 Hs Hl Hr Hd Ht. rewrite sp_of_set_mmu in Hs.
    change (vm_mmu (set_vm_mmu s u)) with u. destruct (decide (id = currentSpace s ∧ v2 = v)) as [[-> ->]|Hne].
    + exfalso. specialize (Ht eq_refl k (touch te true)). cbn in Ht. unfold t' in Ht.
      rewrite list_lookup_insert_eq in Ht by (by eapply lookup_lt_Some). by specialize (Ht eq_refl Hv Hvp).
    + destruct (store_other _ _ _ (pte_of _ _ _ _ _ Hs Hl) Hr Hne) as [? ?]. rewrite Hother by done.
      eapply (vi_clean _ _ _ Hi); try done. intros Ec i x Lx Vx Px. apply (Ht Ec i); try done.
      unfold t'. rewrite list_lookup_insert_ne; [done|]. intros ->. apply Hne. split; [done|].
      assert (x = te) by congruence. subst x. lia.
Qed.

Lemma store_vpage id v2 : ¬ (id = currentSpace s ∧ v2 = v) →
  vpage (set_vm_mmu s u) id v2 = vpage s id v2.
Proof.
  intros Hne. unfold vpage. rewrite sp_of_set_mmu. destruct (sp_of s id) as [sp|] eqn:Hs; [|done].
  cbn [mbind option_bind]. destruct (pages sp !! v2) as [e2|] eqn:Hl; [|done]. cbn [mbind option_bind].
  case_decide; [done|]. destruct (store_other id v2 e2 (pte_of _ _ _ _ _ Hs Hl)) as [? ?]; [done..|].
  change (vm_mmu (set_vm_mmu s u)) with u. by rewrite Hother.
Qed.
End Store.

(** The access found an entry of the TLB: only its use and dirty bits and the age
    of the frame change. *)
Record accessed (s : VM) (t : list TranslationEntry) (v : nat) (u : MMU) (t' : list TranslationEntry) : Prop := {
  ac_entry : ∃ k te writing, t !! k = Some te ∧ valid te = true ∧ virtualPage te = Z.of_nat v ∧
    t' = <[k := touch te writing]> t ∧
    lru_of u = lru_use (references_done (vm_mmu s)) (last_use_counter (vm_mmu s)) (physicalPage te)
}.

Lemma Translate_lru m t k te addr size writing pa m' : tlb m = Some t →
  tlb_find 0 t (addr / PAGE_SIZE) = Some (Z.of_nat k, te) →
  0 ≤ physicalPage te < Z.of_nat (length (last_use_counter m)) →
  Translate m addr size writing = Ok (inr pa, m') →
  lru_of m' = lru_use (references_done m) (last_use_counter m) (physicalPage te).
Proof.
  intros Ht Hf Hp. unfold Translate, RetrievePageEntry, ASSERT. rewrite Ht, Hf.
  destruct (xorb _ _); cbn [mbind result_bind]; [|done].
  destruct (misaligned addr size); [done|]. cbn [last_use_counter references_done].
  rewrite wr_ok by lia. cbn [mbind result_bind].
  destruct (readOnly te && writing); [done|]. case_bool_decide; [done|].
  cbn [set_table_entry tlb]. destruct (wr t (Z.of_nat k) _) as [t'|]; cbn [mbind result_bind]; [|done].
  destruct (_ && _); cbn [mbind result_bind]; [|done]. by intros [= <- <-].
Qed.

Lemma Translate_hit s t addr size writing v pa : vm_inv None s t → 0 ≤ addr →
  size = 1 ∨ size = 2 ∨ size = 4 → addr / PAGE_SIZE = Z.of_nat v →
  translation t addr size writing = inr pa →
  ∃ k te m1, t !! k = Some te ∧ valid te = true ∧ virtualPage te = Z.of_nat v ∧ 0 ≤ physicalPage te < 16 ∧
    misaligned addr size = false ∧
    Translate (vm_mmu s) addr size writing = Ok (inr pa, m1) ∧
    mmu_wf m1 (<[k := touch te writing]> t) ∧ mainMemory m1 = mainMemory (vm_mmu s) ∧
    pa = physicalPage te * 128 + addr mod 128 ∧
    lru_of m1 = lru_use (references_done (vm_mmu s)) (last_use_counter (vm_mmu s)) (physicalPage te).
Proof.
  intros Hi Ha Hs Hv Hpa. pose proof (vi_mmu _ _ _ Hi) as Hwf. pose proof (mw_tlb _ _ Hwf) as Htlb.
  assert (Hte : ∃ k te, tlb_find 0 t (addr / PAGE_SIZE) = Some (Z.of_nat k, te) ∧ t !! k = Some te ∧
    valid te = true ∧ virtualPage te = Z.of_nat v ∧ misaligned addr size = false).
  { unfold translation, tlb_entry in Hpa. destruct (misaligned addr size); [done|].
    destruct (tlb_find 0 t (addr / PAGE_SIZE)) as [[j te]|] eqn:Ef; [|done].
    pose proof (tlb_find_spec _ _ _ _ _ Ef) as (Hj & Hl & Hval & Hp). rewrite Z.sub_0_r in Hl.
    exists (Z.to_nat j), te. rewrite Z2Nat.id by done. by rewrite <-Hv. }
  destruct Hte as (k & te & Hf & Hk & Hval & Hvp & Hmis).
  pose proof (tlb_frame _ _ _ _ _ Hi Hk Hval) as Hfr.
  destruct (Translate_ok _ _ addr size writing Hwf Ha Hs) as (m1 & t1 & Etr & Hwf1 & Hmm & _).
  rewrite Hpa in Etr. destruct (Translate_tlb _ _ _ _ _ _ _ _ _ Htlb Hf Etr) as [Ht1 Epa].
  assert (t1 = <[k := touch te writing]> t) as -> by (pose proof (mw_tlb _ _ Hwf1); congruence).
  pose proof (offset_bound addr size Ha Hs Hmis) as [Ho1 Ho2].
  change PAGE_SIZE with 128 in *. rewrite u32_id in Epa by (unfold is_u32; lia).
  exists k, te, m1. split_and!; try done; [lia|lia|].
  eapply Translate_lru; [exact Htlb|exact Hf| |exact Etr].
  pose proof (mw_counters _ _ Hwf) as Hc. change NUM_PHYS_PAGES with 16 in Hc. lia.
Qed.

Lemma store_ok s t addr size value v pa (Hi : vm_inv None s t) (Ha : 0 ≤ addr)
  (Hs : size = 1 ∨ size = 2 ∨ size = 4) (Hv : addr / PAGE_SIZE = Z.of_nat v)
  (Hpa : translation t addr size true = inr pa) :
  ∃ u t' pg pg', WriteMem (vm_mmu s) addr size value = Ok (NO_EXCEPTION, u) ∧
    vm_inv None (set_vm_mmu s u) t' ∧ accessed s t v u t' ∧
    vpage s (currentSpace s) v = Some pg ∧
    splice pg (addr mod PAGE_SIZE) (stored size value) = Ok pg' ∧
    vpage (set_vm_mmu s u) (currentSpace s) v = Some pg' ∧
    ∀ id v2, ¬ (id = currentSpace s ∧ v2 = v) → vpage (set_vm_mmu s u) id v2 = vpage s id v2.
Proof.
  pose proof (vi_mmu _ _ _ Hi) as Hwf. pose proof (mem_length _ _ _ Hi) as Hm.
  destruct (WriteMem_ok _ _ addr size value pa Hwf Ha Hs Hpa) as (u & t' & E & Hu & _ & Hsp).
  destruct (Translate_hit _ _ _ _ _ _ _ Hi Ha Hs Hv Hpa)
    as (k & te & m1 & Hk & Hval & Hvp & Hfr & Hmis & Etr & Hwf1 & Hmm & Epa & Hlru).
  assert (Eu : t' = <[k := touch te true]> t ∧ lru_of u = lru_of m1).
  { pose proof (mw_tlb _ _ Hu) as Htu. pose proof (mw_tlb _ _ Hwf1) as Ht1. unfold WriteMem in E. rewrite Etr in E.
    cbn [mbind result_bind] in E. assert (Hx : tlb u = tlb m1 ∧ lru_of u = lru_of m1); [|split; [destruct Hx; congruence|apply Hx]].
    revert E. repeat case_bool_decide; try done; intros E; invok; done. }
  destruct Eu as [-> Elru]. pose proof (stored_length size value Hs) as Hsl.
  pose proof (offset_bound addr size Ha Hs Hmis) as [Ho1 Ho2].
  destruct (splice_in_frame (mainMemory (vm_mmu s)) (physicalPage te) (addr mod PAGE_SIZE) (stored size value))
    as (mem' & pg' & Em & Lm & Epg & Fp & Oth); [done|done|done|lia|].
  assert (mem' = mainMemory u) as -> by (change PAGE_SIZE with 128 in *; congruence).
  pose proof (store_inv s t k te v u Hi Hk Hval Hvp Hu Oth) as Hi'.
  exists u, (<[k := touch te true]> t), (frame_at (mainMemory (vm_mmu s)) (physicalPage te)), pg'. split_and!; try done.
  - split. exists k, te, true. split_and!; try done. congruence.
  - by eapply vpage_of_tlb.
  - rewrite <-Fp. eapply (vpage_of_tlb (set_vm_mmu s u) _ k (touch te true) v Hi'); [|done..].
    apply list_lookup_insert_eq. by eapply lookup_lt_Some.
  - intros. by eapply store_vpage.
Qed.

Lemma load_inv s t k te v u : vm_inv None s t → t !! k = Some te → valid te = true →
  mmu_wf u (<[k := touch te false]> t) → mainMemory u = mainMemory (vm_mmu s) →
  vm_inv None (set_vm_mmu s u) (<[k := touch te false]> t) ∧ ∀ id, vpage (set_vm_mmu s u) id v = vpage s id v.
Proof.
  intros Hi Hk Hv Hu Hm. apply lookup_lt_Some in Hk as Hlt.
  assert (Hc : ∀ i x, <[k := touch te false]> t !! i = Some x → ∃ y, t !! i = Some y ∧ valid x = valid y ∧
    virtualPage x = virtualPage y ∧ readOnly x = readOnly y ∧ physicalPage x = physicalPage y ∧ dirty x = dirty y).
  { intros i x Hl. destruct (decide (i = k)) as [->|].
    - rewrite list_lookup_insert_eq in Hl by done. injection Hl as <-. by exists te.
    - rewrite list_lookup_insert_ne in Hl by done. by exists x. }
  split; [|intros id; unfold vpage; rewrite sp_of_set_mmu; change (vm_mmu (set_vm_mmu s u)) with u; by rewrite Hm].
  split; try apply Hi.
  - exact Hu.
  - rewrite length_insert. apply Hi.
  - intros i x (y & Hy & Ev & Ep & Er & Ef & Ed)%Hc Vx. rewrite Ev in Vx.
    destruct (vi_tlb_pte _ _ _ Hi _ _ Hy Vx) as (v2 & e2 & ? & ? & ? & ? & ?). exists v2, e2.
    split_and!; [congruence|congruence|done|congruence|by rewrite Ed].
  - intros i j x y (x' & Hx & Evx & Epx & _)%Hc (y' & Hy & Evy & Epy & _)%Hc Vx Vy E.
    apply (vi_tlb_inj _ _ _ Hi i j x' y'); congruence.
  - intros id sp v2 e2 Hs Hl Hr Hd Ht. rewrite sp_of_set_mmu in Hs. change (vm_mmu (set_vm_mmu s u)) with u.
    rewrite Hm. eapply (vi_clean _ _ _ Hi); try done. intros Ec i x Lx Vx Px. destruct (decide (i = k)) as [->|].
    + assert (x = te) as -> by congruence. apply (Ht Ec k (touch te false)); try done.
      by apply list_lookup_insert_eq.
    + apply (Ht Ec i x); try done. by rewrite list_lookup_insert_ne.
Qed.

(** A load from a mapped address: the bytes of the page, and nothing changes. *)
(** The value of the bytes of an access. *)
Definition value_of (size : Z) (bs : list Z) : Z :=
  if bool_decide (size = 1) then sext8 (List.hd 0 bs)
  else if bool_decide (size = 2) then le_word bs else s32 (le_word bs).

Lemma load_ok s t addr size v pa (Hi : vm_inv None s t) (Ha : 0 ≤ addr)
  (Hs : size = 1 ∨ size = 2 ∨ size = 4) (Hv : addr / PAGE_SIZE = Z.of_nat v)
  (Hpa : translation t addr size false = inr pa) :
  ∃ u t' pg, vm_inv None (set_vm_mmu s u) t' ∧ accessed s t v u t' ∧
    (∀ id v2, vpage (set_vm_mmu s u) id v2 = vpage s id v2) ∧
    vpage s (currentSpace s) v = Some pg ∧ length pg = 128%nat ∧
    ∀ bs, slice pg (addr mod PAGE_SIZE) size = Ok bs →
      ReadMem (vm_mmu s) addr size = Ok (inr (value_of size bs), u).
Proof.
  pose proof (mem_length _ _ _ Hi) as Hm.
  destruct (Translate_hit _ _ _ _ _ _ _ Hi Ha Hs Hv Hpa)
    as (k & te & m1 & Hk & Hval & Hvp & Hfr & Hmis & Etr & Hwf1 & Hmm & Epa & Hlru).
  pose proof (offset_bound addr size Ha Hs Hmis) as [Ho1 Ho2].
  exists m1, (<[k := touch te false]> t), (frame_at (mainMemory (vm_mmu s)) (physicalPage te)).
  assert (Hlen : length (frame_at (mainMemory (vm_mmu s)) (physicalPage te)) = 128%nat)
    by (unfold frame_at; rewrite length_take, length_drop; lia).
  split_and!; try done.
  - by apply (load_inv s t k te v m1).
  - split. by exists k, te, false.
  - intros id v2. by apply (load_inv s t k te v2 m1).
  - by eapply vpage_of_tlb.
  - intros bs Hsl. change PAGE_SIZE with 128 in *.
    assert (Hbs : slice (mainMemory (vm_mmu s)) pa size = Ok bs).
    { rewrite slice_ok in Hsl |- * by lia. rewrite <-Hsl. f_equal.
      apply list_eq. intros i. destruct (decide (i < Z.to_nat size)%nat).
      - rewrite !lookup_take_lt, !lookup_drop, frame_at_lookup by lia. f_equal. lia.
      - by rewrite !lookup_take_ge by lia. }
    unfold ReadMem, value_of. rewrite Etr. cbn [mbind result_bind]. rewrite Hmm.
    destruct Hs as [-> |[-> | ->]]; [|by cbn -[slice]; rewrite Hbs..]. rewrite !bool_decide_true by done.
    rewrite slice_ok in Hbs by lia. injection Hbs as <-.
    destruct (lookup_lt_is_Some_2 (mainMemory (vm_mmu s)) (Z.to_nat pa)) as [b Hb]; [lia|].
    rewrite (rd_ok _ _ b) by (done || lia). rewrite (drop_S _ _ _ Hb). done.
Qed.

(** C36: isolation.  A store of the running process to a mapped address changes,
    of all pages of all processes, exactly the page of the address, and in it
    exactly the bytes stored; the invariant is kept, with the page marked dirty
    so that an eviction will save it. *)
Theorem store_updates_page s t addr size value v pa (Hi : vm_inv None s t) (Ha : 0 ≤ addr)
  (Hs : size = 1 ∨ size = 2 ∨ size = 4) (Hv : addr / PAGE_SIZE = Z.of_nat v)
  (Hpa : translation t addr size true = inr pa) :
  ∃ u t' pg pg', WriteMem (vm_mmu s) addr size value = Ok (NO_EXCEPTION, u) ∧
    vm_inv None (set_vm_mmu s u) t' ∧
    vpage s (currentSpace s) v = Some pg ∧
    splice pg (addr mod PAGE_SIZE) (stored size value) = Ok pg' ∧
    vpage (set_vm_mmu s u) (currentSpace s) v = Some pg' ∧
    ∀ id v2, ¬ (id = currentSpace s ∧ v2 = v) → vpage (set_vm_mmu s u) id v2 = vpage s id v2.
Proof.
  destruct (store_ok s t addr size value v pa) as (u & t' & pg & pg' & ? & ? & _ & ?); try done. by exists u, t', pg, pg'.
Qed.

(** ** Saving the TLB *)
Definition all_invalid (t : list TranslationEntry) : Prop := Forall (λ te, valid te = false) t.

(** One iteration of [SaveState]. *)
Lemma save_step s t i te : vm_inv None s t → t !! i = Some te → valid te = true →
  ∃ s', (c ← rd (coreMap s) (physicalPage te);
         _ ← getPageTableEntry s (currentSpace s) c.2;
         let saved := with_valid te false in
         t ← wr t (Z.of_nat i) saved;
         set_page (set_vm_mmu s (set_tlb (vm_mmu s) t)) (currentSpace s) c.2 saved) = Ok s' ∧
    vm_inv None s' (<[i := with_valid te false]> t) ∧ currentSpace s' = currentSpace s ∧
    (∀ id v, vpage s' id v = vpage s id v) ∧ (∀ id, is_Some (sp_of s id) → is_Some (sp_of s' id)) ∧
    registers (machine s') = registers (machine s).
Proof.
  intros Hi Ht Hv. pose proof (tlb_frame _ _ _ _ _ Hi Ht Hv) as Hf.
  destruct (vi_tlb_pte _ _ _ Hi _ _ Ht Hv) as (v & e & Hvp & _ & He & Hpp & _).
  destruct (save_change _ _ _ _ _ _ Hi Ht Hv Hvp) as [e' Hc].
  pose proof (vi_pte _ _ _ Hi _ _ _ He) as (_ & _ & [E|(_ & _ & _ & Hco)]); [unfold INT_MAX in E; lia|].
  rewrite Hpp in Hco. rewrite (rd_ok _ _ _ (proj1 Hf) Hco). cbn [mbind result_bind snd].
  rewrite (getPageTableEntry_ok _ _ _ _ He). cbn [mbind result_bind].
  apply lookup_lt_Some in Ht as Hlt. rewrite wr_ok by lia. cbn [mbind result_bind]. rewrite Nat2Z.id.
  rewrite (set_page_ok _ _ _ e) by done.
  eexists. split; [done|].
  set (t' := <[i := _]> t) in *.
  replace (upd (set_vm_mmu s (set_tlb (vm_mmu s) t')) (currentSpace s) v (with_valid te false))
    with (set_vm_mmu (upd s (currentSpace s) v (with_valid te false)) (set_tlb (vm_mmu s) t'))
    by (unfold upd; rewrite sp_of_set_mmu; by destruct (sp_of s (currentSpace s))).
  split; [by eapply vm_inv_change|]. split; [|split; [intros; by eapply vpage_change|split]].
  - by apply (upd_fields s (currentSpace s) v).
  - intros id Hs. rewrite sp_of_set_mmu, sp_of_upd. case_decide as Eid; [|done].
    subst id. by apply fmap_is_Some.
  - cbn. by rewrite (proj1 (upd_fields s (currentSpace s) v _)).
Qed.

Lemma SaveState_ok s t : vm_inv None s t →
  ∃ s' t', SaveState s (currentSpace s) = Ok s' ∧ vm_inv None s' t' ∧ all_invalid t' ∧
    currentSpace s' = currentSpace s ∧ (∀ id v, vpage s' id v = vpage s id v) ∧
    (∀ id, is_Some (sp_of s id) → is_Some (sp_of s' id)) ∧
    registers (machine s') = registers (machine s).
Proof.
  intros Hi. unfold SaveState.
  set (P := λ (k : Z) (s' : VM), ∃ t', vm_inv None s' t' ∧ currentSpace s' = currentSpace s ∧
    (∀ id v, vpage s' id v = vpage s id v) ∧ (∀ id, is_Some (sp_of s id) → is_Some (sp_of s' id)) ∧
    registers (machine s') = registers (machine s) ∧
    ∀ j te, Z.of_nat j < k → t' !! j = Some te → valid te = false).
  edestruct (for_loop_ind P (span 0 TLB_SIZE) 0) as (s' & E & HP).
  3: { rewrite E. destruct HP as (t' & Hi' & Hc & Hv & Hsp & Hrg & Hn). exists s', t'. split_and!; try done.
       apply Forall_lookup. intros j te Hl. apply (Hn j te); [|done].
       apply lookup_lt_Some in Hl. rewrite (vi_tlb _ _ _ Hi') in Hl.
       change (0 + Z.of_nat (span 0 TLB_SIZE)) with 8. lia. }
  { exists t. split_and!; try done. lia. }
  intros k s1 Hk (t1 & Hi1 & Hc1 & Hv1 & Hs1 & Hg1 & Hn1). change (span 0 TLB_SIZE) with 8%nat in Hk.
  cbn beta. rewrite (get_tlb_ok _ _ _ Hi1). cbn [mbind result_bind].
  destruct (rd_in_range t1 k) as (te & Hrd & Hte); [rewrite (vi_tlb _ _ _ Hi1); lia|].
  rewrite Hrd. cbn [mbind result_bind]. destruct (valid te) eqn:Vt.
  - destruct (save_step s1 t1 _ te Hi1 Hte Vt) as (s2 & E2 & Hi2 & Hc2 & Hv2 & Hs2 & Hg2).
    rewrite Z2Nat.id, Hc1 in E2 by lia. exists s2. split; [exact E2|].
    eexists. split; [exact Hi2|]. split; [congruence|]. split; [intros; by rewrite Hv2|]. split; [auto|].
    split; [congruence|]. intros j tj Hj Hl. destruct (decide (j = Z.to_nat k)) as [->|].
    + rewrite list_lookup_insert_eq in Hl by (by eapply lookup_lt_Some). by injection Hl as <-.
    + rewrite list_lookup_insert_ne in Hl by done. apply (Hn1 j tj); [lia|done].
  - exists s1. split; [done|]. exists t1. split_and!; try done. intros j tj Hj Hl.
    destruct (decide (j = Z.to_nat k)) as [->|]; [congruence|]. apply (Hn1 j tj); [lia|done].
Qed.

Lemma RestoreState_ok s t : vm_inv None s t → all_invalid t → RestoreState s = Ok s.
Proof.
  intros Hi Hn. unfold RestoreState. rewrite (get_tlb_ok _ _ _ Hi). cbn [mbind result_bind].
  destruct (for_loop_ind (λ _ t', t' = t) (span 0 TLB_SIZE) 0
    (λ i t, e ← rd t i; wr t i (with_valid e false)) t) as (t' & E & ->); [done| |].
  - intros i t1 Hk ->. change (span 0 TLB_SIZE) with 8%nat in Hk.
    destruct (rd_in_range t i) as (te & Hrd & Hte); [rewrite (vi_tlb _ _ _ Hi); lia|].
    rewrite Hrd. cbn [mbind result_bind]. apply lookup_lt_Some in Hte as Hlt. rewrite wr_ok by lia.
    eexists. split; [done|]. apply list_insert_id.
    pose proof (proj1 (Forall_lookup _ _) Hn _ _ Hte) as Hv. cbn in Hv.
    rewrite Hte. f_equal. destruct te. cbn in *. by rewrite Hv.
  - rewrite E. cbn [mbind result_bind]. f_equal. apply set_tlb_id. apply (vi_mmu _ _ _ Hi).
Qed.

(** ** The end of a process *)

(** [p] is a frame of [sp], among the first [k] pages. *)
Definition frame_of (sp : AddressSpace) (k : Z) (p : Z) : Prop :=
  ∃ v e, Z.of_nat v < k ∧ pages sp !! v = Some e ∧ physicalPage e = p.

(** What the loop of the destructor has done after [k] pages. *)
Record released (s : VM) (sp : AddressSpace) (k : Z) (s' : VM) : Prop := {
  rel_state : ∃ b mem, s' = set_vm_map (set_vm_mmu s (set_memory (vm_mmu s) mem)) b;
  rel_map : Bitmap.wf (addressesBitMap s') ∧ numBits (addressesBitMap s') = 16;
  rel_mem : length (mainMemory (vm_mmu s')) = 2048%nat;
  rel_free p : 0 ≤ p < 16 → frame_of sp k p → ¬ in_use s' p;
  rel_kept p : 0 ≤ p < 16 → ¬ frame_of sp k p →
    (in_use s' p ↔ in_use s p) ∧
    frame_at (mainMemory (vm_mmu s')) p = frame_at (mainMemory (vm_mmu s)) p
}.

Lemma frame_of_step sp i e p : 0 ≤ i → pages sp !! Z.to_nat i = Some e →
  frame_of sp (i + 1) p ↔ frame_of sp i p ∨ p = physicalPage e.
Proof.
  intros Hi He. split.
  - intros (v & e' & Hv & Hl & Hp). destruct (decide (Z.of_nat v = i)) as [<-|].
    + rewrite Nat2Z.id in He. right. congruence.
    + left. exists v, e'. split_and!; [lia|done..].
  - intros [(v & e' & Hv & Hl & Hp)| ->].
    + exists v, e'. split_and!; [lia|done..].
    + exists (Z.to_nat i), e. split_and!; [lia|done..].
Qed.

Lemma release_one s sp i s1 p : released s sp i s1 → 0 ≤ i → 0 ≤ p < 16 →
  (∃ e, pages sp !! Z.to_nat i = Some e ∧ physicalPage e = p) →
  ∃ b mem, Bitmap.Clear (addressesBitMap s1) p = Ok b ∧
    splice (mainMemory (vm_mmu s1)) (u32 (p * PAGE_SIZE)) zero_page = Ok mem ∧
    released s sp (i + 1) (set_vm_map (set_vm_mmu s1 (set_memory (vm_mmu s1) mem)) b).
Proof.
  intros [Hst [Hw Hb] Hm Hfree Hkept] Hi Hp (e & He & Hpe).
  pose proof (frame_of_step sp i e) as Hstep. rewrite Hpe in Hstep.
  destruct (Clear_ok (addressesBitMap s1) p Hw) as (b & Eb & Hw' & Hb' & Hbit); [lia|].
  destruct (splice_in_frame (mainMemory (vm_mmu s1)) p 0 zero_page)
    as (mem & pg & Em & Hl & _ & _ & Hoth); [done|done|done|reflexivity|].
  rewrite frame_addr_u32 by done. rewrite Z.add_0_r in Em. exists b, mem. split_and!; [done..|].
  split; unfold in_use; cbn.
  - destruct Hst as (b0 & mem0 & ->). by exists b, mem.
  - split; [done|lia].
  - done.
  - intros q Hq. rewrite Hstep by done. rewrite Hbit by lia. case_decide; [done|].
    intros [Hf| ->]; [|done]. by apply Hfree.
  - intros q Hq. rewrite Hstep by done. intros Hn. rewrite Hbit, decide_False, Hoth by (try lia; tauto).
    apply Hkept; tauto.
Qed.

Lemma delete_released s t id sp : vm_inv None s t → sp_of s id = Some sp →
  ∃ s', delete_AddressSpace s sp = Ok s' ∧ released s sp (Z.of_nat (length (pages sp))) s'.
Proof.
  intros Hi Hs. unfold delete_AddressSpace.
  eapply (for_loop_ind (released s sp) (length (pages sp)) 0).
  - split; [|apply (vi_map _ _ _ Hi)|exact (mem_length _ _ _ Hi)| |done].
    + exists (addressesBitMap s), (mainMemory (vm_mmu s)). destruct s as [[? [] ?]]. done.
    + intros p _ (v & e & Hv & _). lia.
  - intros i s1 Hk Hr. destruct (rd_in_range (pages sp) i) as (e & Hrd & He); [lia|].
    rewrite Hrd. cbn [mbind result_bind].
    pose proof (vi_pte _ _ _ Hi id (Z.to_nat i) e (pte_of _ _ _ _ _ Hs He)) as (_ & _ & Hpp).
    case_bool_decide as Hout.
    + exists s1. split; [done|]. destruct Hr as [Hst Hm Hl Hfree Hkept].
      assert (Hstep : ∀ p, 0 ≤ p < 16 → frame_of sp (i + 1) p ↔ frame_of sp i p).
      { intros p Hp. rewrite (frame_of_step sp i e) by (done || lia).
        unfold INT_MAX in Hout. split; [|tauto]. intros [?| ->]; [done|lia]. }
      split; try done.
      * intros p Hp. rewrite Hstep by done. auto.
      * intros p Hp. rewrite Hstep by done. auto.
    + destruct Hpp as [|(Hp & _)]; [done|].
      destruct (release_one s sp i s1 (physicalPage e) Hr) as (b & mem & -> & Em & Hr'); [lia|done|by exists e|].
      cbn [mbind result_bind]. rewrite Em. cbn [mbind result_bind]. eauto.
Qed.

Section Exit.
Context (s : VM) (t : list TranslationEntry) (id : Z) (sp : AddressSpace) (s' : VM).
Context (Hi : vm_inv None s t) (Hs : sp_of s id = Some sp) (Hrun : id ≠ currentSpace s)
  (Hr : released s sp (numPages sp) s').

Lemma sp_of_dangling id2 :
  sp_of (dangling s' id) id2 = if decide (id2 = id) then None else sp_of s id2.
Proof.
  destruct (rel_state _ _ _ _ Hr) as (b & mem & ->). unfold sp_of. cbn. case_decide as E.
  - subst. by rewrite lookup_insert_eq.
  - by rewrite lookup_insert_ne.
Qed.

Lemma pte_dangling id2 v :
  pte (dangling s' id) id2 v = if decide (id2 = id) then None else pte s id2 v.
Proof. unfold pte. rewrite sp_of_dangling. by case_decide. Qed.

(** The frames of the other processes are kept. *)
Lemma exit_other id2 v e : id2 ≠ id → pte s id2 v = Some e → physicalPage e ≠ INT_MAX →
  0 ≤ physicalPage e < 16 ∧ ¬ frame_of sp (numPages sp) (physicalPage e).
Proof.
  intros Hne He Hp. destruct (vi_pte _ _ _ Hi _ _ _ He) as (_ & _ & [|(Hb & _ & _ & Hc)]); [done|].
  split; [done|]. intros (v' & e' & _ & He' & Hpp).
  destruct (vi_pte _ _ _ Hi id v' e' (pte_of _ _ _ _ _ Hs He')) as (_ & _ & [|(_ & _ & _ & Hc')]); congruence.
Qed.

Lemma frame_of_page v e : pages sp !! v = Some e → frame_of sp (numPages sp) (physicalPage e).
Proof.
  intros He. exists v, e. apply lookup_lt_Some in He as Hlt. unfold numPages. split_and!; [lia|done..].
Qed.

Lemma exit_vpage id2 v : id2 ≠ id → vpage (dangling s' id) id2 v = vpage s id2 v.
Proof.
  intros Hne. destruct (pte s id2 v) as [e|] eqn:He.
  - apply pte_inv in He as Hp. destruct Hp as (sp2 & Hs2 & Hl & _).
    rewrite (vpage_eq s id2 sp2 v e), (vpage_eq (dangling s' id) id2 sp2 v e) by
      (rewrite ?sp_of_dangling, ?decide_False; done).
    case_decide as Hout; [done|]. f_equal. destruct (exit_other _ _ _ Hne He Hout) as [Hb Hn].
    by apply (rel_kept _ _ _ _ Hr).
  - rewrite !vpage_None; [done..|]. by rewrite pte_dangling, decide_False.
Qed.

Lemma exit_inv : vm_inv None (dangling s' id) t.
Proof.
  destruct (rel_state _ _ _ _ Hr) as (b & mem & Es).
  assert (Hcur : currentSpace (dangling s' id) = currentSpace s) by (by rewrite Es).
  assert (Hcore : coreMap (dangling s' id) = coreMap s) by (by rewrite Es).
  assert (Hsp : ∀ id2 sp2, sp_of (dangling s' id) id2 = Some sp2 → id2 ≠ id ∧ sp_of s id2 = Some sp2).
  { intros id2 sp2. rewrite sp_of_dangling. by case_decide. }
  assert (Hpt : ∀ id2 v e, pte (dangling s' id) id2 v = Some e → id2 ≠ id ∧ pte s id2 v = Some e).
  { intros id2 v e. rewrite pte_dangling. by case_decide. }
  pose proof (vi_mmu _ _ _ Hi) as Hmmu.
  split; rewrite ?Hcur, ?Hcore.
  - pose proof (rel_mem _ _ _ _ Hr) as Hm. rewrite Es in *. cbn in Hm |- *.
    destruct Hmmu. split; cbn; try done. change MEMORY_SIZE with 2048. lia.
  - apply (vi_tlb _ _ _ Hi).
  - apply (rel_map _ _ _ _ Hr).
  - apply (vi_core _ _ _ Hi).
  - rewrite sp_of_dangling, decide_False by done. apply (vi_cur _ _ _ Hi).
  - intros id2 sp2 [_ H]%Hsp. by apply (vi_ids _ _ _ Hi).
  - intros id2 sp2 v [_ H]%Hsp. by apply (vi_image _ _ _ Hi) with id2.
  - intros id2 v e [Hne H]%Hpt. destruct (vi_pte _ _ _ Hi _ _ _ H) as (Hv & Hro & Hp).
    split_and!; [done..|]. destruct Hp as [|(Hb & Hu & _ & Hc)]; [by left|]. right. split_and!; try done; try lia.
    destruct (exit_other _ _ _ Hne H) as [_ Hn]; [unfold INT_MAX; lia|].
    by apply (rel_kept _ _ _ _ Hr _ Hb Hn).
  - intros p Hb Hu _.
    assert (Hn : ¬ frame_of sp (numPages sp) p).
    { intros Hf. by apply (rel_free _ _ _ _ Hr p Hb Hf). }
    assert (Hu0 : in_use s p) by (by apply (rel_kept _ _ _ _ Hr p Hb Hn)).
    destruct (vi_frame _ _ _ Hi p Hb Hu0) as (id2 & v & e & He & Hp); [done|].
    exists id2, v, e. split; [|done]. rewrite pte_dangling. case_decide as E; [|done]. subst id2.
    apply pte_inv in He as (sp2 & Hs2 & Hl & _). assert (sp2 = sp) as -> by congruence.
    destruct Hn. rewrite <-Hp. by eapply frame_of_page.
  - done.
  - intros i te Hl V. destruct (vi_tlb_pte _ _ _ Hi _ _ Hl V) as (v & e & ? & ? & He & ?).
    exists v, e. split_and!; try done; [|naive_solver..]. by rewrite pte_dangling, decide_False.
  - apply (vi_tlb_inj _ _ _ Hi).
  - intros id2 sp2 v e [Hne H]%Hsp Hl Hout Hd Hcl.
    rewrite (vi_clean _ _ _ Hi id2 sp2 v e H Hl Hout Hd).
    + destruct (exit_other id2 v e Hne (pte_of _ _ _ _ _ H Hl) Hout) as [Hb Hn].
      f_equal. symmetry. by apply (rel_kept _ _ _ _ Hr).
    + intros Hid. apply Hcl. by rewrite Hcur.
Qed.
End Exit.

(** C38: the end of a process.  Deleting the address space of a process that is
    not running frees exactly the frames of its pages and changes no page of
    another process; the invariant holds again although the table of processes
    keeps its dangling entry, so later page faults will never use it. *)
Theorem exit_releases_frames s t id sp (Hi : vm_inv None s t) (Hs : sp_of s id = Some sp)
  (Hrun : id ≠ currentSpace s) :
  ∃ s', delete_AddressSpace s sp = Ok s' ∧ vm_inv None (dangling s' id) t ∧
    (∀ p, 0 ≤ p < 16 → in_use s' p ↔ in_use s p ∧ ¬ frame_of sp (numPages sp) p) ∧
    ∀ id2 v, id2 ≠ id → vpage (dangling s' id) id2 v = vpage s id2 v.
Proof.
  destruct (delete_released s t id sp Hi Hs) as (s' & E & Hr). exists s'. split; [done|].
  change (Z.of_nat (length (pages sp))) with (numPages sp) in Hr.
  split; [by eapply exit_inv|]. split; [|intros; by eapply exit_vpage].
  intros p Hp. split.
  - intros Hu. assert (Hn : ¬ frame_of sp (numPages sp) p).
    { intros Hf. by apply (rel_free _ _ _ _ Hr p Hp Hf). }
    split; [|done]. by apply (rel_kept _ _ _ _ Hr p Hp Hn).
  - intros [Hu Hn]. by apply (rel_kept _ _ _ _ Hr p Hp Hn).
Qed.

(** ** Context switches *)
Lemma SaveUserState_ok m u : length (registers m) = 40%nat → length u = 40%nat →
  SaveUserState m u = Ok (registers m).
Proof.
  intros Hm Hu. unfold SaveUserState.
  destruct (for_loop_ind (λ i u', length u' = 40%nat ∧
      ∀ j, Z.of_nat j < i → u' !! j = registers m !! j) (span 0 NUM_TOTAL_REGS) 0
    (λ i u, v ← ReadRegister m i; wr u i v) u) as (u' & -> & Hl & Hj).
  - split; [done|]. intros. lia.
  - intros i u' Hi [Hl Hj]. change (span 0 NUM_TOTAL_REGS) with 40%nat in Hi.
    unfold ReadRegister. change NUM_TOTAL_REGS with 40. rewrite bool_decide_true by lia.
    unfold reg. destruct (rd_in_range (registers m) i) as (v & Hrd & Hv); [lia|].
    cbn [ASSERT mbind result_bind]. rewrite Hrd. cbn [mbind result_bind]. rewrite wr_ok by lia.
    eexists. split; [done|]. split; [by rewrite length_insert|].
    intros j Hlt. destruct (decide (j = Z.to_nat i)) as [->|].
    + rewrite list_lookup_insert_eq by lia. done.
    + rewrite list_lookup_insert_ne by done. apply Hj. lia.
  - f_equal. apply list_eq. intros j. destruct (decide (j < 40)%nat).
    + apply Hj. change (span 0 NUM_TOTAL_REGS) with 40%nat. lia.
    + rewrite !lookup_ge_None_2 by lia. done.
Qed.

(** Register 0 is never written. *)
Lemma RestoreUserState_ok m u : length (registers m) = 40%nat → length u = 40%nat →
  ∃ m', RestoreUserState m u = Ok m' ∧ mmu m' = mmu m ∧ length (registers m') = 40%nat ∧
    ∀ j, (0 < j)%nat → registers m' !! j = u !! j.
Proof.
  intros Hm Hu. unfold RestoreUserState.
  destruct (for_loop_ind (λ i m', mmu m' = mmu m ∧ length (registers m') = 40%nat ∧
      ∀ j, (0 < j)%nat → Z.of_nat j < i → registers m' !! j = u !! j) (span 0 NUM_TOTAL_REGS) 0
    (λ i m, v ← rd u i; WriteRegister m i v) m) as (m' & -> & Hmm & Hl & Hj).
  - split_and!; [done..|]. intros. lia.
  - intros i m' Hi (Hmm & Hl & Hj). change (span 0 NUM_TOTAL_REGS) with 40%nat in Hi.
    destruct (rd_in_range u i) as (v & Hrd & Hv); [lia|]. rewrite Hrd. cbn [mbind result_bind].
    unfold WriteRegister. change NUM_TOTAL_REGS with 40. rewrite (bool_decide_true (i < 40)) by lia.
    cbn [ASSERT mbind result_bind]. case_bool_decide as Hz.
    + unfold set_reg. rewrite wr_ok by lia. eexists. split; [done|]. cbn.
      split_and!; [done|by rewrite length_insert|]. intros j Hp Hlt.
      destruct (decide (j = Z.to_nat i)) as [->|].
      * by rewrite list_lookup_insert_eq by lia.
      * rewrite list_lookup_insert_ne by done. apply Hj; lia.
    + exists m'. split_and!; [done..|]. intros j Hp Hlt. apply Hj; lia.
  - exists m'. split_and!; [done..|]. intros j Hp. destruct (decide (j < 40)%nat).
    + apply Hj; [done|]. change (span 0 NUM_TOTAL_REGS) with 40%nat. lia.
    + rewrite !lookup_ge_None_2 by lia. done.
Qed.

(** The TLB is empty: any process can become the running one. *)
Lemma vm_inv_switch s t next n : vm_inv None s t → all_invalid t → is_Some (sp_of s next) →
  vm_inv None (mkVM (machine s) (addressesBitMap s) (coreMap s) (runningProcesses s) next n) t.
Proof.
  intros Hi Hn Hnext. unfold all_invalid in Hn. rewrite Forall_lookup in Hn. split; try apply Hi.
  - exact Hnext.
  - intros i te Hl V. by rewrite (Hn _ _ Hl) in V.
  - intros id sp v e Hs Hl Hr Hd _. eapply (vi_clean _ _ _ Hi); try done.
    intros _ i te Ht V. by rewrite (Hn _ _ Ht) in V.
Qed.

Lemma vm_inv_registers s t m : vm_inv None s t → mmu m = vm_mmu s →
  let s' := mkVM m (addressesBitMap s) (coreMap s) (runningProcesses s) (currentSpace s) (numFaults s) in
  vm_inv None s' t ∧ ∀ id v, vpage s' id v = vpage s id v.
Proof.
  intros Hi Hm s'. assert (E : vm_mmu s' = vm_mmu s) by exact Hm. split.
  - split; rewrite ?E; try apply Hi.
  - intros. unfold vpage. by rewrite E.
Qed.

(** The destruction of the thread that finished, by the next one. *)
Lemma destroy_ok s t finished : vm_inv None s t →
  (∀ id, finished = Some id → id ≠ currentSpace s ∧ is_Some (sp_of s id)) →
  ∃ s', (match finished with
       | Some id => sp ← space_of s id; s ← delete_AddressSpace s sp; Ok (dangling s id)
       | None => Ok s
       end) = Ok s' ∧ vm_inv None s' t ∧ currentSpace s' = currentSpace s ∧
    registers (machine s') = registers (machine s) ∧
    ∀ id v, finished ≠ Some id → vpage s' id v = vpage s id v.
Proof.
  intros Hi Hf. destruct finished as [id|]; [|by exists s].
  destruct (Hf id) as [Hne [sp Hs]]; [done|]. rewrite (space_of_ok _ _ _ Hs). cbn [mbind result_bind].
  destruct (delete_released s t id sp Hi Hs) as (s' & E & Hr). rewrite E. cbn [mbind result_bind].
  exists (dangling s' id). split; [done|]. split; [by eapply exit_inv|].
  destruct (rel_state _ _ _ _ Hr) as (b & mem & Es). split; [by rewrite Es|]. split; [by rewrite Es|].
  intros id2 v Hn. eapply exit_vpage; [done..|]. congruence.
Qed.

Lemma context_switch_ok s t old next finished (Hi : vm_inv None s t)
  (Hregs : length (registers (machine s)) = 40%nat) (Hold : length old = 40%nat)
  (Hnew : length (td_registers next) = 40%nat) (Hnext : is_Some (sp_of s (td_space next)))
  (Hf : ∀ id, finished = Some id → id ≠ td_space next ∧ is_Some (sp_of s id)) :
  ∃ s' t', Run s old next finished = Ok (registers (machine s), s') ∧ vm_inv None s' t' ∧
    all_invalid t' ∧ currentSpace s' = td_space next ∧
    (∀ r, (0 < r)%nat → registers (machine s') !! r = td_registers next !! r) ∧
    ∀ id v, finished ≠ Some id → vpage s' id v = vpage s id v.
Proof.
  destruct (SaveState_ok s t Hi) as (s1 & t1 & E & Hi1 & Hn & Hc & Hv & Hsp & Hrg). unfold Run.
  rewrite SaveUserState_ok by done. cbn [mbind result_bind]. rewrite E. cbn [mbind result_bind].
  pose proof (vm_inv_switch s1 t1 (td_space next) (td_faults next) Hi1 Hn (Hsp _ Hnext)) as Hi2.
  destruct (destroy_ok _ t1 finished Hi2) as (s3 & -> & Hi3 & Hc3 & Hr3 & Hv3).
  { intros id Ef. destruct (Hf id Ef) as [Hne Hs]. split; [done|]. exact (Hsp _ Hs). }
  cbn [mbind result_bind]. destruct (RestoreUserState_ok (machine s3) (td_registers next))
    as (m & -> & Hmm & Hl & Hj); [rewrite Hr3; cbn; congruence|done|]. cbn [mbind result_bind].
  destruct (vm_inv_registers s3 t1 m Hi3 Hmm) as [Hi4 Hv4].
  rewrite (RestoreState_ok _ _ Hi4 Hn). cbn [mbind result_bind].
  eexists _, t1. split; [done|]. split; [done|]. split; [done|]. split; [done|]. split; [exact Hj|].
  intros id v Hid. rewrite Hv4, Hv3 by done. rewrite <-Hv. done.
Qed.

(** C23: context switches.  [Run] from the running program to another one saves
    the registers and the bits of the TLB, leaves no entry of the old program in
    the TLB, restores the registers of the next program (all but register 0,
    which is constant), deletes the thread that finished, and keeps every page
    of every other process and the invariant. *)
Theorem context_switch_transparent s t old next finished (Hi : vm_inv None s t)
  (Hregs : length (registers (machine s)) = 40%nat) (Hold : length old = 40%nat)
  (Hnew : length (td_registers next) = 40%nat) (Hnext : is_Some (sp_of s (td_space next)))
  (Hf : ∀ id, finished = Some id → id ≠ td_space next ∧ is_Some (sp_of s id)) :
  ∃ s' t', Run s old next finished = Ok (registers (machine s), s') ∧ vm_inv None s' t' ∧
    all_invalid t' ∧ currentSpace s' = td_space next ∧
    (∀ r, (0 < r)%nat → registers (machine s') !! r = td_registers next !! r) ∧
    ∀ id v, finished ≠ Some id → vpage s' id v = vpage s id v.
Proof. by apply (context_switch_ok s t). Qed.

(** ** What a page holds when it is loaded for the first time *)
Record noff_ok (sp : AddressSpace) (exe : Executable) : Prop := {
  no_exe : new_Executable garbage (exeFile sp) = Ok exe;
  no_code : codeSize sp = AddressSpace.size (code (header exe));
  no_data : initDataSize sp = AddressSpace.size (initData (header exe));
  no_addr : dataVirtualAddr sp = codeSize sp;
  no_next : inFileAddr (initData (header exe)) = inFileAddr (code (header exe)) + codeSize sp;
  no_end : Z.of_nat (length (Bin.contents (exeFile sp)))
    = inFileAddr (initData (header exe)) + initDataSize sp;
  no_pos : 0 ≤ codeSize sp ∧ 0 ≤ initDataSize sp ∧ 0 ≤ inFileAddr (code (header exe));
  no_small : Z.of_nat (length (Bin.contents (exeFile sp))) < 2 ^ 31
}.

(** The program: code and initialised data, which follow each other in the file
    and in memory. *)
Definition program (sp : AddressSpace) (exe : Executable) : list Z :=
  drop (Z.to_nat (inFileAddr (code (header exe)))) (Bin.contents (exeFile sp)).

Lemma new_Executable_file g f exe : new_Executable g f = Ok exe → exe_file exe = f.
Proof. unfold new_Executable. intros H. invok. done. Qed.

Lemma pad_lookup bs i : (length bs ≤ 128)%nat →
  pad bs !! i = if decide (i < 128)%nat then Some (default 0 (bs !! i)) else None.
Proof.
  intros Hl. unfold pad. destruct (decide (i < length bs)%nat).
  - rewrite lookup_app_l, decide_True by lia.
    destruct (lookup_lt_is_Some_2 bs i) as [x ->]; [lia|]. done.
  - rewrite lookup_app_r, lookup_drop, zero_page_lookup by lia.
    replace (length bs + (i - length bs))%nat with i by lia. case_decide; [|done].
    by rewrite (lookup_ge_None_2 bs) by lia.
Qed.

(** Writing what is there already changes nothing. *)
Lemma splice_same (pg : list Z) off (bs : list Z) : length pg = 128%nat → 0 ≤ off → off + Z.of_nat (length bs) ≤ 128 →
  (∀ i, (i < length bs)%nat → pg !! (Z.to_nat off + i)%nat = bs !! i) → splice pg off bs = Ok pg.
Proof.
  intros Hl Ho Hb Hs. destruct (splice_ok pg off bs) as (l & -> & Hll & Hk); [lia..|]. f_equal.
  apply list_eq. intros i. rewrite Hk. case_decide; [|done].
  rewrite <-Hs by lia. f_equal. lia.
Qed.

Section Image.
Context (sp : AddressSpace) (exe : Executable) (H : noff_ok sp exe).
Let prog := program sp exe.

Lemma program_length : Z.of_nat (length prog) = codeSize sp + initDataSize sp.
Proof.
  unfold prog, program. rewrite length_drop. pose proof (no_end _ _ H). pose proof (no_next _ _ H).
  destruct (no_pos _ _ H) as (? & ? & ?). lia.
Qed.

Lemma read_program n o : 0 ≤ n → 0 ≤ o →
  take (Z.to_nat n) (drop (Z.to_nat (inFileAddr (code (header exe)) + o)) (Bin.contents (exeFile sp)))
  = take (Z.to_nat n) (drop (Z.to_nat o) prog).
Proof.
  intros. unfold prog, program. rewrite drop_drop. destruct (no_pos _ _ H) as (_ & _ & ?).
  do 2 f_equal. lia.
Qed.

Lemma ReadCodeBlock_ok n o : 0 < n → 0 ≤ o < codeSize sp →
  ReadCodeBlock exe n o = Ok (take (Z.to_nat n) (drop (Z.to_nat o) prog)).
Proof.
  intros Hn Ho. pose proof (no_code _ _ H). pose proof (no_end _ _ H). pose proof (no_next _ _ H).
  pose proof (no_small _ _ H). destruct (no_pos _ _ H) as (? & ? & ?).
  unfold ReadCodeBlock. rewrite (bool_decide_true (n ≠ 0)), bool_decide_true by lia.
  cbn [ASSERT mbind result_bind]. rewrite (new_Executable_file _ _ _ (no_exe _ _ H)).
  unfold Bin.ReadAt. rewrite bool_decide_true by lia. cbn [ASSERT mbind result_bind].
  rewrite u32_id by (unfold is_u32; lia). by rewrite read_program by lia.
Qed.

Lemma ReadDataBlock_ok n o : 0 < n → 0 ≤ o < initDataSize sp →
  ReadDataBlock exe n o = Ok (take (Z.to_nat n) (drop (Z.to_nat (codeSize sp + o)) prog)).
Proof.
  intros Hn Ho. pose proof (no_data _ _ H). pose proof (no_end _ _ H). pose proof (no_next _ _ H) as Hx.
  pose proof (no_small _ _ H). destruct (no_pos _ _ H) as (? & ? & ?).
  unfold ReadDataBlock. rewrite (bool_decide_true (n ≠ 0)), bool_decide_true by lia.
  cbn [ASSERT mbind result_bind]. rewrite (new_Executable_file _ _ _ (no_exe _ _ H)).
  unfold Bin.ReadAt. rewrite bool_decide_true by lia. cbn [ASSERT mbind result_bind].
  rewrite u32_id by (unfold is_u32; lia). rewrite Hx, <-Z.add_assoc. by rewrite read_program by lia.
Qed.

(** The page of the program at [va], filled up with zeros. *)
Let page (va : Z) : list Z := pad (take 128 (drop (Z.to_nat va) prog)).

Lemma page_length va : length (page va) = 128%nat.
Proof. unfold page. apply pad_length. rewrite length_take. lia. Qed.

Lemma page_lookup va i : (i < 128)%nat → page va !! i = Some (default 0 (prog !! (Z.to_nat va + i)%nat)).
Proof.
  intros Hi. unfold page. rewrite pad_lookup by (rewrite length_take; lia).
  rewrite decide_True by done. by rewrite lookup_take_drop by done.
Qed.

(** A part of the page read at its place. *)
Lemma splice_page va off n : 0 ≤ va → 0 ≤ off → 0 ≤ n → off + n ≤ 128 →
  va + off + n ≤ Z.of_nat (length prog) →
  splice (page va) off (take (Z.to_nat n) (drop (Z.to_nat (va + off)) prog)) = Ok (page va).
Proof.
  intros Hva Ho Hn Hle Hp.
  assert (Hl : length (take (Z.to_nat n) (drop (Z.to_nat (va + off)) prog)) = Z.to_nat n)
    by (rewrite length_take, length_drop; lia).
  apply splice_same; [apply page_length|lia|lia|]. intros i Hi. rewrite Hl in Hi.
  rewrite page_lookup, lookup_take_drop by lia.
  destruct (lookup_lt_is_Some_2 prog (Z.to_nat (va + off) + i)) as [x Hx]; [lia|].
  rewrite Hx. replace (Z.to_nat va + (Z.to_nat off + i))%nat with (Z.to_nat (va + off) + i)%nat by lia.
  by rewrite Hx.
Qed.

Lemma load_from_exe_ok v : Z.of_nat v * 128 < 2 ^ 31 → image sp v = Ok (page (Z.of_nat v * 128)).
Proof.
  intros Hv. unfold image, load_from_exe. rewrite (no_exe _ _ H). cbn [mbind result_bind].
  pose proof program_length as Hlen. pose proof (no_end _ _ H) as Hend. pose proof (no_next _ _ H) as Hnext.
  pose proof (no_small _ _ H) as Hsm. destruct (no_pos _ _ H) as (Hc & Hd & Hf).
  change PAGE_SIZE with 128. rewrite (u32_id (Z.of_nat v * 128)) by (unfold is_u32; lia).
  set (va := Z.of_nat v * 128) in *. rewrite (no_addr _ _ H).
  rewrite (u32_id (codeSize sp + initDataSize sp)) by (unfold is_u32; lia).
  assert (Hzero : codeSize sp + initDataSize sp ≤ va → page va = zero_page).
  { intros Hge. unfold page. rewrite drop_ge by lia. done. }
  destruct (decide (va < codeSize sp)) as [Hcode|Hcode].
  - rewrite (bool_decide_true (codeSize sp > 0)), (bool_decide_true (va < codeSize sp)) by lia. cbn [andb].
    rewrite (u32_id (codeSize sp - va)) by (unfold is_u32; lia).
    rewrite ReadCodeBlock_ok by lia. cbn [mbind result_bind]. change (Z.to_nat 128) with 128%nat.
    rewrite pad_splice by (rewrite length_take; lia). cbn [mbind result_bind]. fold (page va).
    set (n := if bool_decide (codeSize sp - va < 128) then codeSize sp - va else 128).
    assert (Hn : 0 < n ≤ 128 ∧ va + n ≤ codeSize sp ∧ (n ≠ 128 → va + n = codeSize sp)).
    { unfold n. case_bool_decide; lia. }
    clearbody n. rewrite (u32_id (va + n)) by (unfold is_u32; lia).
    destruct (bool_decide (initDataSize sp > 0) && bool_decide (va + n < codeSize sp + initDataSize sp)
              && bool_decide (n ≠ 128)) eqn:Eb; [|done].
    rewrite !andb_true_iff, !bool_decide_eq_true in Eb. destruct Eb as [[Hi1 Hi2] Hi3].
    rewrite (u32_id (_ - _)), (u32_id (128 - n)) by (unfold is_u32; lia).
    rewrite bool_decide_true by lia. rewrite ReadDataBlock_ok by (try case_bool_decide; lia).
    cbn [mbind result_bind]. rewrite Z.add_0_r.
    destruct Hn as (? & ? & Heq). rewrite <-(Heq Hi3). apply splice_page; try lia; case_bool_decide; lia.
  - rewrite (bool_decide_false (va < codeSize sp)), andb_false_r by lia. cbn [mbind result_bind].
    rewrite Z.add_0_r, (u32_id va) by (unfold is_u32; lia). rewrite (bool_decide_true (0 ≠ 128)), andb_true_r by lia.
    destruct (decide (va < codeSize sp + initDataSize sp)) as [Hin|Hout].
    + rewrite (bool_decide_true (initDataSize sp > 0)), (bool_decide_true (va < _)) by lia. cbn [andb].
      rewrite (bool_decide_false (0 ≠ 0)) by lia.
      rewrite (u32_id (codeSize sp + _ - va)), (u32_id (128 - 0)), (u32_id (va - codeSize sp)) by (unfold is_u32; lia).
      rewrite ReadDataBlock_ok by (try case_bool_decide; lia). cbn [mbind result_bind].
      replace (codeSize sp + (va - codeSize sp)) with va by lia.
      rewrite pad_splice by (rewrite length_take; case_bool_decide; lia). unfold page. f_equal. f_equal.
      case_bool_decide; [|done]. rewrite !take_ge by (rewrite length_drop; lia). done.
    + rewrite (bool_decide_false (va < _)), andb_false_r by lia. by rewrite Hzero by lia.
Qed.
End Image.

(** C37: demand loading.  For an executable whose code and initialised data
    follow each other in the file and from address 0 in memory, the page that
    is loaded for page number [v] holds the bytes of the program from address
    [v * PAGE_SIZE] on, and zeros behind its end: also in the page where code
    and data meet, and in pages of data, uninitialised data and stack. *)
Theorem demand_load_image sp exe v (H : noff_ok sp exe) (Hv : Z.of_nat v * 128 < 2 ^ 31) :
  ∃ pg, load_from_exe garbage sp (Z.of_nat v) zero_page = Ok pg ∧ length pg = 128%nat ∧
    ∀ i, (i < 128)%nat → pg !! i = Some (default 0 (program sp exe !! (v * 128 + i)%nat)).
Proof.
  eexists. split; [by apply (load_from_exe_ok sp exe H)|]. split; [apply page_length|].
  intros i Hi. rewrite page_lookup by done. do 3 f_equal. lia.
Qed.


(** ** The state before the first page fault *)
Lemma vm_inv_boot s t : mmu_wf (vm_mmu s) t → length t = 8%nat → all_invalid t →
  Bitmap.wf (addressesBitMap s) → numBits (addressesBitMap s) = 16 → (∀ p, ¬ in_use s p) →
  length (coreMap s) = 16%nat → is_Some (sp_of s (currentSpace s)) →
  (∀ id sp, sp_of s id = Some sp →
    addressSpaceId sp = id ∧ Z.of_nat (length (pages sp)) * 128 ≤ 2 ^ 32 ∧
    (∀ v, (v < length (pages sp))%nat → ∃ pg, image sp v = Ok pg ∧ length pg = 128%nat) ∧
    ∀ v e, pages sp !! v = Some e → e = mkTE (Z.of_nat v) INT_MAX false false false false) →
  vm_inv None s t.
Proof.
  intros Hm Hl Hn Hw Hb Hu Hc Hcur Hsp. unfold all_invalid in Hn. rewrite Forall_lookup in Hn.
  assert (Hpte : ∀ id v e, pte s id v = Some e → e = mkTE (Z.of_nat v) INT_MAX false false false false).
  { intros id v e (sp & Hs & He & _)%pte_inv. by eapply Hsp. }
  split; try done.
  - intros id sp Hs. by destruct (Hsp _ _ Hs) as (? & ? & _).
  - intros id sp v Hs. destruct (Hsp _ _ Hs) as (_ & _ & Hi & _). apply Hi.
  - intros id v e ->%Hpte. cbn. tauto.
  - intros p _ []%Hu.
  - intros i te Hi V. by rewrite (Hn _ _ Hi) in V.
  - intros i j te te' Hi _ V. by rewrite (Hn _ _ Hi) in V.
  - intros id sp v e Hs He Hr _ _. destruct (Hsp _ _ Hs) as (_ & _ & _ & Hp).
    by rewrite (Hp _ _ He) in Hr.
Qed.

(** A process that [new_AddressSpace] made. *)
Lemma new_AddressSpace_pages f id sw sp : new_AddressSpace garbage f id sw = Ok sp →
  addressSpaceId sp = id ∧
  ∀ v e, pages sp !! v = Some e → e = mkTE (Z.of_nat v) INT_MAX false false false false.
Proof.
  unfold new_AddressSpace. intros H. invok. split; [done|]. cbn. intros v e.
  rewrite list_lookup_fmap. intros (i & Hi & ->)%fmap_Some. apply lookup_seqZ in Hi as [-> _].
  done.
Qed.

End Paging.

(** ** A concrete process

    A program of 132 bytes of code and 4 bytes of initialised data, run by the
    processes 3 and 5 on a machine with nothing in memory; process 3 touches
    address 130. *)
Definition demo_garbage : list Z := replicate 40 0.
Definition demo_program : list Z := (λ i, i mod 251 + 1) <$> seqZ 0 136.
Definition demo_exe : Bin.BinFile :=
  Bin.mkBin (words_bytes [NOFF_MAGIC; 0; 40; 132; 132; 172; 4; 136; 0; 64] ++ demo_program) 0.
Definition demo_process (id : Z) : AddressSpace :=
  match new_AddressSpace demo_garbage demo_exe id (Some (Bin.mkBin [] 0)) with
  | Ok sp => sp
  | Err _ => mkSpace 0 0 0 (Bin.mkBin [] 0) 0 (Bin.mkBin [] 0) []
  end.
Definition demo_space : AddressSpace := demo_process 3.
Definition demo_invalid : list TranslationEntry := replicate 8 (mkTE 0 0 false false false false).
Definition demo_vm : VM :=
  mkVM (mkMachine (<[39%nat := 130]> (replicate 40 0))
          (mkMMU (replicate 2048 77) (Some demo_invalid) None 0 (replicate 16 0) 0 0) (λ _, true))
    (mkBitmap 16 [0]) (replicate 16 (0, 0)) {[3 := Some demo_space; 5 := Some (demo_process 5)]} 3 0.

Lemma demo_images : forallb (λ v, match image demo_garbage demo_space v with
    | Ok pg => Nat.eqb (length pg) 128
    | Err _ => false
    end) (seq 0 18) = true.
Proof. vm_compute. reflexivity. Qed.

Lemma demo_processes id sp : sp_of demo_vm id = Some sp → sp = demo_process id ∧ (id = 3 ∨ id = 5).
Proof.
  unfold sp_of. cbn [demo_vm runningProcesses].
  destruct (decide (id = 3)) as [->|]; [rewrite lookup_insert_eq; intros [= <-]; auto|].
  rewrite lookup_insert_ne by done.
  destruct (decide (id = 5)) as [->|]; [rewrite lookup_singleton_eq; intros [= <-]; auto|].
  by rewrite lookup_singleton_ne.
Qed.

Lemma demo_vm_inv : vm_inv demo_garbage None demo_vm demo_invalid.
Proof.
  apply vm_inv_boot; try reflexivity.
  - split; [reflexivity..| |reflexivity]. repeat constructor; vm_compute; congruence.
  - repeat constructor.
  - split; [vm_compute; done..|]. repeat constructor; vm_compute; congruence.
  - intros p. unfold in_use, Bitmap.bit. cbn [addressesBitMap demo_vm Bitmap.map].
    destruct (Z.to_nat (p / 32)) as [|[|]]; cbn; [by rewrite Z.testbit_0_l|done..].
  - eexists. vm_compute. reflexivity.
  - intros id sp H. apply demo_processes in H as [-> _].
    destruct (new_AddressSpace_pages demo_garbage demo_exe id (Some (Bin.mkBin [] 0)) (demo_process id)) as [Hid Hp];
      [reflexivity|].
    split; [done|]. split; [vm_compute; congruence|]. split; [|done].
    intros v Hv. pose proof demo_images as Hd. rewrite forallb_forall in Hd.
    specialize (Hd v). change (length (pages (demo_process id))) with 18%nat in Hv.
    rewrite in_seq in Hd. specialize (Hd ltac:(lia)).
    change (image demo_garbage (demo_process id) v) with (image demo_garbage demo_space v).
    destruct (image demo_garbage demo_space v) as [pg|]; [|done].
    exists pg. split; [done|]. by apply Nat.eqb_eq.
Qed.

Lemma demo_pages v : (v < 18)%nat → is_Some (pte demo_vm 3 v).
Proof. intros Hv. unfold pte. apply lookup_lt_is_Some_2. exact Hv. Qed.

(** The page with the end of the code, all of the data, and zeros. *)
Lemma page_fault_transparent_witness :
  ∃ s' t' p, TLBPageFaultHandler demo_garbage demo_vm = Ok s' ∧ vm_inv demo_garbage None s' t' ∧
    mapped t' 1 p ∧
    Some (frame_at (mainMemory (vm_mmu s')) p) = Some (drop 128 demo_program ++ replicate 120 0).
Proof.
  destruct (page_fault_transparent demo_garbage demo_vm demo_invalid 130 1 demo_vm_inv)
    as (s' & t' & p & E & Hi & _ & _ & Hm & Hp).
  - reflexivity.
  - reflexivity.
  - apply demo_pages. lia.
  - reflexivity.
  - exists s', t', p. split; [exact E|]. split; [exact Hi|]. split; [exact Hm|].
    rewrite <-Hp. vm_compute. reflexivity.
Defined.

(** The state after that page fault, with page 1 in frame 0. *)
Definition demo_loaded : VM :=
  match TLBPageFaultHandler demo_garbage demo_vm with Ok s => s | Err _ => demo_vm end.
Definition demo_loaded_tlb : list TranslationEntry :=
  mkTE 1 0 true false false false :: replicate 7 (mkTE 0 0 false false false false).

Lemma demo_loaded_inv : vm_inv demo_garbage None demo_loaded demo_loaded_tlb.
Proof.
  destruct (page_fault_ok demo_garbage demo_vm demo_invalid 130 1 demo_vm_inv)
    as (s' & t' & p & E & Hi & _).
  - reflexivity.
  - reflexivity.
  - apply demo_pages. lia.
  - reflexivity.
  - unfold demo_loaded. rewrite E. assert (t' = demo_loaded_tlb) as <-; [|done].
    pose proof (mw_tlb _ _ (vi_mmu _ _ _ _ Hi)) as Ht.
    assert (tlb (vm_mmu demo_loaded) = Some demo_loaded_tlb) as Hd by (vm_compute; reflexivity).
    unfold demo_loaded in Hd. rewrite E in Hd. congruence.
Qed.

Lemma store_updates_page_witness :
  ∃ u t', WriteMem (vm_mmu demo_loaded) 132 4 0x01020304 = Ok (NO_EXCEPTION, u) ∧
    vm_inv demo_garbage None (set_vm_mmu demo_loaded u) t' ∧
    vpage demo_garbage (set_vm_mmu demo_loaded u) 3 1
    = Some (take 4 (drop 128 demo_program) ++ [4; 3; 2; 1] ++ replicate 120 0).
Proof.
  destruct (store_updates_page demo_garbage demo_loaded demo_loaded_tlb 132 4 0x01020304 1 4 demo_loaded_inv)
    as (u & t' & pg & pg' & E & Hi & Hpg & Hs & Hp & _).
  - lia.
  - lia.
  - reflexivity.
  - reflexivity.
  - exists u, t'. split; [exact E|]. split; [exact Hi|].
    change (currentSpace demo_loaded) with 3 in Hpg, Hp. rewrite Hp.
    assert (Hd : vpage demo_garbage demo_loaded 3 1 = Some (drop 128 demo_program ++ replicate 120 0))
      by (vm_compute; reflexivity).
    rewrite Hd in Hpg. injection Hpg as <-. vm_compute in Hs. injection Hs as <-. reflexivity.
Defined.

(** Process 3 is switched out, process 5 runs. *)
Definition demo_next : thread_data := mkThreadData 5 0 (replicate 40 9).

Lemma context_switch_transparent_witness :
  ∃ s' t', Run demo_loaded (replicate 40 0) demo_next None = Ok (registers (machine demo_vm), s') ∧
    vm_inv demo_garbage None s' t' ∧ all_invalid t' ∧ ReadRegister (machine s') PC_REG = Ok 9.
Proof.
  destruct (context_switch_transparent demo_garbage demo_loaded demo_loaded_tlb (replicate 40 0) demo_next
    None demo_loaded_inv) as (s' & t' & E & Hi & Hn & _ & Hr & _).
  - reflexivity.
  - reflexivity.
  - reflexivity.
  - eexists. vm_compute. reflexivity.
  - intros id H. discriminate H.
  - exists s', t'. split; [exact E|]. split; [exact Hi|]. split; [exact Hn|].
    unfold ReadRegister, reg. change PC_REG with 34. cbn. apply rd_ok; [lia|]. apply (Hr 34%nat). lia.
Defined.

(** Process 5 runs, process 3 has one frame. *)
Definition demo_switched : VM :=
  match Run demo_loaded (replicate 40 0) demo_next None with Ok s => s.2 | Err _ => demo_vm end.
Definition demo_space_loaded : AddressSpace :=
  match sp_of demo_switched 3 with Some sp => sp | None => demo_space end.

Lemma demo_switched_inv : ∃ t, vm_inv demo_garbage None demo_switched t.
Proof.
  destruct (context_switch_ok demo_garbage demo_loaded demo_loaded_tlb (replicate 40 0) demo_next None
    demo_loaded_inv) as (s' & t' & E & Hi & _); [reflexivity..| |done|].
  - eexists. vm_compute. reflexivity.
  - exists t'. unfold demo_switched. by rewrite E.
Qed.

Lemma exit_releases_frames_witness :
  ∃ s', delete_AddressSpace demo_switched demo_space_loaded = Ok s' ∧
    in_use demo_switched 0 ∧ ¬ in_use s' 0.
Proof.
  destruct demo_switched_inv as [t Hi].
  destruct (exit_releases_frames demo_garbage demo_switched t 3 demo_space_loaded Hi)
    as (s' & E & _ & Hu & _).
  - vm_compute. reflexivity.
  - vm_compute. congruence.
  - exists s'. split; [exact E|]. split; [vm_compute; reflexivity|].
    rewrite Hu by lia. intros [_ Hn]. apply Hn. exists 1%nat. eexists.
    split; [vm_compute; reflexivity|]. split; vm_compute; reflexivity.
Defined.

Definition demo_executable : Executable :=
  mkExecutable demo_exe (mkNoff NOFF_MAGIC (mkSegment 0 40 132) (mkSegment 132 172 4) (mkSegment 136 0 64)).

Lemma demand_load_image_witness :
  ∃ pg, load_from_exe demo_garbage demo_space 1 zero_page = Ok pg ∧ pg !! 7%nat = Some 136.
Proof.
  destruct (demand_load_image demo_garbage demo_space demo_executable 1) as (pg & E & _ & Hp).
  - split; vm_compute; first [reflexivity | congruence | repeat split; congruence].
  - lia.
  - exists pg. split; [exact E|]. rewrite Hp by lia. reflexivity.
Defined.
