(* ===== verification/Interrupt.v ===== *)
(** * [machine/interrupt.cc] and [machine/timer.cc]: simulated time

    Interrupts that devices will cause are kept in a list sorted by time; time
    advances when interrupts are enabled, when a user instruction runs and when
    no thread is ready.  The list is the [List] of [LinkedList], used through its
    functional view.  A handler is the timer's, or one of a device; what a device's
    handler does is a parameter: it changes the state [K] of the kernel, schedules
    interrupts and may ask for a context switch. *)

From S2P Require Import Prelude LinkedList Mips MipsSpec.
From stdpp Require Import sorting.
From stdpp Require Import base option list gmap numbers tactics.
From stdpp Require Import list.
Open Scope Z_scope.

Inductive IntStatus := INT_OFF | INT_ON.
Inductive MachineStatus := IDLE_MODE | SYSTEM_MODE | USER_MODE.
Inductive IntType :=
| TIMER_INT | DISK_INT | CONSOLE_WRITE_INT | CONSOLE_READ_INT | NETWORK_SEND_INT | NETWORK_RECV_INT.

#[export] Instance IntStatus_eq_dec : EqDecision IntStatus.
Proof. solve_decision. Defined.
#[export] Instance MachineStatus_eq_dec : EqDecision MachineStatus.
Proof. solve_decision. Defined.
#[export] Instance IntType_eq_dec : EqDecision IntType.
Proof. solve_decision. Defined.

Definition UINT_MAX : Z := 4294967295.
Definition USER_TICK : Z := 1.
Definition SYSTEM_TICK : Z := 10.
Definition TIMER_TICKS : Z := 100.

(** The counters of [Statistics] that time uses ([unsigned long]). *)
Record Ticks := mkTicks {
  totalTicks : Z; idleTicks : Z; systemTicks : Z; userTicks : Z; tickResets : Z
}.

(** A handler with its argument: that of the timer, or of a device. *)
Inductive handler_of (D : Type) := TimerHandler | Device (d : D).
Arguments TimerHandler {D}.
Arguments Device {D} d.

Record PendingInterrupt (D : Type) := mkPending {
  handler : handler_of D; when : Z; type : IntType
}.
Arguments mkPending {D}.
Arguments handler {D}.
Arguments when {D}.
Arguments type {D}.

Record Interrupt (D : Type) := mkInterrupt {
  level : IntStatus;
  pending : list (Z * PendingInterrupt D);      (* sort key (an [int]) and item *)
  inHandler : bool;
  yieldOnReturn : bool;
  status : MachineStatus
}.
Arguments mkInterrupt {D}.
Arguments level {D}.
Arguments pending {D}.
Arguments inHandler {D}.
Arguments yieldOnReturn {D}.
Arguments status {D}.

(** What a handler does besides changing the kernel. *)
Inductive effect (D : Type) :=
| Schedules (h : handler_of D) (fromNow : Z) (t : IntType)
| Yields.
Arguments Schedules {D}.
Arguments Yields {D}.

Record Sim (D K : Type) := mkSim {
  interrupt : Interrupt D;
  stats : Ticks;
  machine : option Machine;           (* null before user programs run *)
  kernel : K
}.
Arguments mkSim {D K}.
Arguments interrupt {D K}.
Arguments stats {D K}.
Arguments machine {D K}.
Arguments kernel {D K}.

Section Setters.
Context {D K : Type}.
Definition set_int (s : Sim D K) (i : Interrupt D) : Sim D K := mkSim i (stats s) (machine s) (kernel s).
Definition set_stats (s : Sim D K) (t : Ticks) : Sim D K := mkSim (interrupt s) t (machine s) (kernel s).
Definition set_kernel (s : Sim D K) (k : K) : Sim D K := mkSim (interrupt s) (stats s) (machine s) k.
Definition set_level (s : Sim D K) (l : IntStatus) : Sim D K :=
  let i := interrupt s in
  set_int s (mkInterrupt l (pending i) (inHandler i) (yieldOnReturn i) (status i)).
Definition set_pending (s : Sim D K) (p : list (Z * PendingInterrupt D)) : Sim D K :=
  let i := interrupt s in
  set_int s (mkInterrupt (level i) p (inHandler i) (yieldOnReturn i) (status i)).
Definition set_inHandler (s : Sim D K) (b : bool) : Sim D K :=
  let i := interrupt s in
  set_int s (mkInterrupt (level i) (pending i) b (yieldOnReturn i) (status i)).
Definition set_yield (s : Sim D K) (b : bool) : Sim D K :=
  let i := interrupt s in
  set_int s (mkInterrupt (level i) (pending i) (inHandler i) b (status i)).
Definition SetStatus (s : Sim D K) (st : MachineStatus) : Sim D K :=
  let i := interrupt s in
  set_int s (mkInterrupt (level i) (pending i) (inHandler i) (yieldOnReturn i) st).
Definition now (s : Sim D K) : Z := totalTicks (stats s).
Definition queue (s : Sim D K) := pending (interrupt s).
End Setters.

(** The constructors. *)
Definition new_Interrupt {D} : Interrupt D := mkInterrupt INT_OFF [] false false SYSTEM_MODE.
Definition new_Statistics : Ticks := mkTicks 0 0 0 0 0.

Section Interrupts.
Context {D K : Type}.
(** The handlers of the devices, [SystemDep::Random], and [Thread::Yield]. *)
Context (device : D → K → K * list (effect D)) (Random : K → Z * K)
  (Yield : Sim D K → result (Sim D K)).
Abbreviation Sim := (Sim D K).

(** The interrupt list is sorted by [unsigned] times passed as [int]s. *)
Definition SortedInsert (p : list (Z * PendingInterrupt D)) (i : PendingInterrupt D) (w : Z) :=
  ListSpec.sorted_insert p i (s32 w).

Definition ChangeLevel (s : Sim) (nw : IntStatus) : Sim := set_level s nw.
Definition YieldOnReturn (s : Sim) : Sim := set_yield s true.
Definition GetLevel (s : Sim) : IntStatus := level (interrupt s).
Definition GetStatus (s : Sim) : MachineStatus := status (interrupt s).

Definition RestartTicks (s : Sim) : Sim :=
  let t := stats s in
  let p := foldl (λ p '(k, i),
             let newWhen := u32 (u32 k - totalTicks t) in
             SortedInsert p i newWhen) [] (queue s) in
  set_stats (set_pending s p)
    (mkTicks 0 (idleTicks t) (systemTicks t) (userTicks t) (u64 (tickResets t + 1))).

Definition Schedule (s : Sim) (h : handler_of D) (fromNow : Z) (t : IntType) : result Sim :=
  _ ← ASSERT (bool_decide (fromNow > 0));
  let s := if bool_decide (u64 (UINT_MAX - now s) < fromNow) then RestartTicks s else s in
  let w := u32 (now s + fromNow) in
  Ok (set_pending s (SortedInsert (queue s) (mkPending h w t) w)).

(** *** [machine/timer.cc] *)
Definition TimeOfNextInterrupt (randomize : bool) (k : K) : Z * K :=
  if randomize then let '(r, k) := Random k in (1 + u64 r mod (TIMER_TICKS * 2), k)
  else (TIMER_TICKS, k).

(** [Timer::TimerExpired], with [TimerInterruptHandler] of [threads/system.cc]. *)
Definition TimerInterruptHandler (s : Sim) : Sim :=
  if bool_decide (GetStatus s ≠ IDLE_MODE) then YieldOnReturn s else s.
Definition TimerExpired (randomize : bool) (s : Sim) : result Sim :=
  let '(n, k) := TimeOfNextInterrupt randomize (kernel s) in
  s ← Schedule (set_kernel s k) TimerHandler n TIMER_INT;
  Ok (TimerInterruptHandler s).

Definition run_effect (s : Sim) (e : effect D) : result Sim :=
  match e with
  | Schedules h n t => Schedule s h n t
  | Yields => Ok (YieldOnReturn s)
  end.
Fixpoint run_effects (s : Sim) (es : list (effect D)) : result Sim :=
  match es with
  | [] => Ok s
  | e :: es => s ← run_effect s e; run_effects s es
  end.

Context (randomize : bool).

Definition run_handler (s : Sim) (h : handler_of D) : result Sim :=
  match h with
  | TimerHandler => TimerExpired randomize s
  | Device d => let '(k, es) := device d (kernel s) in run_effects (set_kernel s k) es
  end.

(** [machine->DelayedLoad(0, 0)], when there is a machine. *)
Definition delayed_load (s : Sim) : result Sim :=
  match machine s with
  | Some m => m ← DelayedLoad m 0 0; Ok (mkSim (interrupt s) (stats s) (Some m) (kernel s))
  | None => Ok s
  end.

(** The part of [CheckIfDue] that calls the handler. *)
Definition fire (s : Sim) (i : PendingInterrupt D) (old : MachineStatus) : result Sim :=
  s ← delayed_load s;
  s ← run_handler (SetStatus (set_inHandler s true) SYSTEM_MODE) (handler i);
  Ok (set_inHandler (SetStatus s old) false).

Definition CheckIfDue (advanceClock : bool) (s : Sim) : result (bool * Sim) :=
  let old := GetStatus s in
  _ ← ASSERT (bool_decide (GetLevel s = INT_OFF));
  match queue s with
  | [] => Ok (false, s)
  | (k, toOccur) :: rest =>
      let w := u32 k in
      let t := stats s in
      if negb advanceClock && bool_decide (w > now s) then
        Ok (false, set_pending s (SortedInsert rest toOccur w))
      else
        let s := set_pending s rest in
        let s := if bool_decide (w > now s) then
                   set_stats s (mkTicks w (u64 (idleTicks t + (w - totalTicks t))) (systemTicks t)
                                  (userTicks t) (tickResets t))
                 else s in
        if bool_decide (old = IDLE_MODE) && bool_decide (type toOccur = TIMER_INT)
           && bool_decide (rest = []) then
          Ok (false, set_pending s (SortedInsert rest toOccur w))
        else
          s ← fire s toOccur old;
          Ok (true, s)
  end.

(** [while (CheckIfDue(false)) {}] *)
Fixpoint check_loop (fuel : nat) (s : Sim) : result Sim :=
  match fuel with
  | O => Err OutOfFuel
  | S fuel =>
      r ← CheckIfDue false s;
      let '(again, s) := r in
      if (again : bool) then check_loop fuel s else Ok s
  end.

Definition tick (s : Sim) : Sim :=
  let t := stats s in
  set_stats s
    (if bool_decide (GetStatus s = SYSTEM_MODE) then
       mkTicks (u64 (totalTicks t + SYSTEM_TICK)) (idleTicks t) (u64 (systemTicks t + SYSTEM_TICK))
         (userTicks t) (tickResets t)
     else
       mkTicks (u64 (totalTicks t + USER_TICK)) (idleTicks t) (systemTicks t)
         (u64 (userTicks t + USER_TICK)) (tickResets t)).

Definition OneTick (fuel : nat) (s : Sim) : result Sim :=
  let old := GetStatus s in
  let s := ChangeLevel (tick s) INT_OFF in
  s ← check_loop fuel s;
  let s := ChangeLevel s INT_ON in
  if yieldOnReturn (interrupt s) then
    s ← Yield (SetStatus (set_yield s false) SYSTEM_MODE);
    Ok (SetStatus s old)
  else Ok s.

Definition SetLevel (fuel : nat) (s : Sim) (nw : IntStatus) : result (IntStatus * Sim) :=
  let old := GetLevel s in
  _ ← ASSERT (bool_decide (nw = INT_OFF) || negb (inHandler (interrupt s)));
  let s := ChangeLevel s nw in
  s ← (if bool_decide (nw = INT_ON) && bool_decide (old = INT_OFF) then OneTick fuel s else Ok s);
  Ok (old, s).

Definition Enable (fuel : nat) (s : Sim) : result Sim := r ← SetLevel fuel s INT_ON; Ok r.2.

(** [Idle] returns, or halts the machine. *)
Inductive idle_outcome := Returns (s : Sim) | Halts (s : Sim).

Definition Idle (fuel : nat) (consoleRunning : bool) (s : Sim) : result idle_outcome :=
  let s := SetStatus s IDLE_MODE in
  if consoleRunning then Ok (Halts s)
  else
    r ← CheckIfDue true s;
    let '(fired, s) := r in
    if (fired : bool) then
      s ← check_loop fuel s;
      Ok (Returns (SetStatus (set_yield s false) SYSTEM_MODE))
    else Ok (Halts s).

(** [Timer::Timer]: the first interrupt of the timer. *)
Definition new_Timer (s : Sim) : result Sim :=
  let '(n, k) := TimeOfNextInterrupt randomize (kernel s) in
  Schedule (set_kernel s k) TimerHandler n TIMER_INT.

End Interrupts.

(** ** What interrupts do, without the queue

    At time [t] a handler changes the kernel, schedules interrupts with their
    times, and may ask for a context switch. *)
Section Spec.
Context {D K : Type} (device : D → K → K * list (effect D)) (Random : K → Z * K) (randomize : bool).

Definition at_time (t n : Z) (h : handler_of D) (ty : IntType) : Z * PendingInterrupt D :=
  (t + n, mkPending h (t + n) ty).
Definition scheduled (t : Z) (es : list (effect D)) : list (Z * PendingInterrupt D) :=
  omap (λ e, match e with Schedules h n ty => Some (at_time t n h ty) | Yields => None end) es.
Definition yields (es : list (effect D)) : bool :=
  existsb (λ e, match e with Yields => true | _ => false end) es.

Definition spec_handler (t : Z) (k : K) (h : handler_of D) : K * list (Z * PendingInterrupt D) * bool :=
  match h with
  | TimerHandler =>
      let '(n, k) := TimeOfNextInterrupt Random randomize k in
      (k, [at_time t n TimerHandler TIMER_INT], true)
  | Device d => let '(k, es) := device d k in (k, scheduled t es, yields es)
  end.

(** A sequence of interrupts that fire at the same time. *)
Fixpoint spec_run (t : Z) (k : K) (fired : list (Z * PendingInterrupt D))
  : K * list (Z * PendingInterrupt D) * bool :=
  match fired with
  | [] => (k, [], false)
  | i :: fired =>
      let '(k, new, y) := spec_handler t k (handler i.2) in
      let '(k, new', y') := spec_run t k fired in
      (k, new ++ new', y || y')
  end.
End Spec.

Section Proofs.
Context {D K : Type} (device : D → K → K * list (effect D)) (Random : K → Z * K)
  (randomize : bool).
(** Devices schedule their interrupts for the future, at most [M] ticks ahead. *)
Context (M : Z) (HM : TIMER_TICKS * 2 ≤ M)
  (Hdev : ∀ d k h n ty, Schedules h n ty ∈ (device d k).2 → 0 < n ≤ M).
Abbreviation Sim := (Sim D K).

(** Times that do not overflow an [int], and a sorted queue. *)
Record timed (s : Sim) : Prop := {
  ti_now : 0 ≤ now s ∧ now s + M < 2 ^ 31;
  ti_sorted : ListSpec.increasing (queue s);
  ti_keys : Forall (λ e, 0 ≤ e.1 < 2 ^ 31) (queue s)
}.

(** The queue at time [t]: what is due, in order, and then the rest. *)
Record split_at (t : Z) (p ds rest : list (Z * PendingInterrupt D)) : Prop := {
  sa_app : p = ds ++ rest;
  sa_due : Forall (λ e, e.1 ≤ t) ds;
  sa_later : Forall (λ e, t < e.1) rest;
  sa_sorted : ListSpec.increasing p;
  sa_keys : Forall (λ e, 0 ≤ e.1 < 2 ^ 31) p
}.

Lemma split_exists (s : Sim) t : ListSpec.increasing (queue s) → Forall (λ e, 0 ≤ e.1 < 2 ^ 31) (queue s) →
  split_at t (queue s) (filter (λ e, e.1 ≤ t) (queue s)) (filter (λ e, t < e.1) (queue s)).
Proof.
  intros Hs Hk. split; try done.
  - clear Hk. induction Hs as [|e p Hs IH Ha]; [done|].
    rewrite !filter_cons. destruct (decide (e.1 ≤ t)).
    + rewrite decide_False by lia. cbn. by rewrite <-IH.
    + rewrite decide_True by lia.
      assert (Hn : filter (λ e, e.1 ≤ t) p = []).
      { clear IH Hs. induction Ha as [|x p Hx Ha IH]; [done|]. rewrite filter_cons, decide_False by lia. done. }
      assert (Hall : filter (λ e, t < e.1) p = p).
      { clear IH Hs Hn. induction Ha as [|x p Hx Ha IH]; [done|]. rewrite filter_cons, decide_True, IH by lia. done. }
      by rewrite Hn, Hall.
  - apply Forall_forall. intros e [? _]%list_elem_of_filter. done.
  - apply Forall_forall. intros e [? _]%list_elem_of_filter. done.
Qed.

(** A new interrupt goes behind everything that is due. *)
Lemma split_insert t p ds rest i w : split_at t p ds rest → t < w < 2 ^ 31 → 0 ≤ t →
  ∃ rest', rest' ≡ₚ (w, i) :: rest ∧ split_at t (SortedInsert p i w) ds rest'.
Proof.
  intros [-> Hd Hl Hs Hk] Hw Ht. unfold SortedInsert. rewrite s32_id by (unfold is_s32; lia).
  exists (ListSpec.sorted_insert rest i w). split; [apply ListSpec.insert_by_perm|]. split.
  - clear Hs Hk. induction Hd as [|e ds He Hd IH]; [done|]. cbn. destruct e as [ke ie]. cbn in *.
    unfold ListSpec.sorted_insert in *. cbn. rewrite (proj2 (Z.ltb_ge w ke)) by lia. cbn. by rewrite IH.
  - done.
  - unfold ListSpec.sorted_insert. rewrite ListSpec.insert_by_perm. constructor; [cbn; lia|done].
  - by apply ListSpec.sorted_insert_increasing.
  - unfold ListSpec.sorted_insert. rewrite ListSpec.insert_by_perm. constructor; [cbn; lia|done].
Qed.

Lemma Schedule_ok (s : Sim) h n ty : 0 ≤ now s → 0 < n → now s + n < 2 ^ 31 →
  Schedule s h n ty = Ok (set_pending s (SortedInsert (queue s) (mkPending h (now s + n) ty) (now s + n))).
Proof.
  intros Ht Hn Hb. unfold Schedule. rewrite (bool_decide_true (n > 0)) by lia. cbn [ASSERT mbind result_bind].
  assert (E : u64 (UINT_MAX - now s) = UINT_MAX - now s).
  { unfold u64, UINT_MAX. apply Z.mod_small. lia. }
  rewrite E, bool_decide_false by (unfold UINT_MAX; lia). rewrite u32_id by (unfold is_u32; lia). done.
Qed.

(** What handlers leave alone. *)
Record same_cpu (s s' : Sim) : Prop := {
  sc_stats : stats s' = stats s;
  sc_machine : machine s' = machine s;
  sc_level : GetLevel s' = GetLevel s;
  sc_status : GetStatus s' = GetStatus s;
  sc_handler : inHandler (interrupt s') = inHandler (interrupt s)
}.

Lemma run_effects_ok es : ∀ (s : Sim) ds rest, 0 ≤ now s → now s + M < 2 ^ 31 →
  (∀ h n ty, Schedules h n ty ∈ es → 0 < n ≤ M) → split_at (now s) (queue s) ds rest →
  ∃ s' rest', run_effects s es = Ok s' ∧ same_cpu s s' ∧ kernel s' = kernel s ∧
    yieldOnReturn (interrupt s') = yieldOnReturn (interrupt s) || yields es ∧
    rest' ≡ₚ rest ++ scheduled (now s) es ∧ split_at (now s) (queue s') ds rest'.
Proof.
  induction es as [|e es IH]; intros s ds rest Ht Hb Hes Hsp.
  - exists s, rest. rewrite orb_false_r. cbn. split_and!; [done..|by rewrite app_nil_r|done].
  - cbn [run_effects]. destruct e as [h n ty|].
    + destruct (Hes h n ty) as [Hn Hm]; [by left|]. cbn [run_effect].
      rewrite Schedule_ok by lia. cbn [mbind result_bind].
      destruct (split_insert (now s) _ ds rest (mkPending h (now s + n) ty) (now s + n) Hsp) as (r1 & P1 & Hsp1);
        [lia|done|].
      destruct (IH (set_pending s (SortedInsert (queue s) (mkPending h (now s + n) ty) (now s + n))) ds r1)
        as (s' & r' & E & Hc & Hk & Hy & P & Hsp'); [done|done| |done|].
      { intros. apply (Hes h0 n0 ty0). by right. }
      exists s', r'. split; [done|]. split; [by destruct Hc; split|]. split; [done|]. split; [done|].
      split; [|done]. rewrite P, P1. cbn. unfold at_time. change (now (set_pending s _)) with (now s).
      by rewrite Permutation_middle.
    + cbn [run_effect mbind result_bind].
      destruct (IH (YieldOnReturn s) ds rest) as (s' & r' & E & Hc & Hk & Hy & P & Hsp'); [done|done| |done|].
      { intros. apply (Hes h n ty). by right. }
      exists s', r'. split; [done|]. split; [by destruct Hc; split|]. split; [done|]. split; [|done].
      rewrite Hy. cbn. by rewrite orb_true_r.
Qed.

Lemma TimeOfNextInterrupt_bound k : 0 < (TimeOfNextInterrupt Random randomize k).1 ≤ M.
Proof.
  unfold TimeOfNextInterrupt, TIMER_TICKS in *. destruct randomize; [|cbn; lia].
  destruct (Random k) as [r k']. cbn. pose proof (Z.mod_pos_bound (u64 r) (100 * 2)). lia.
Qed.

Lemma run_handler_ok (s : Sim) h ds rest : 0 ≤ now s → now s + M < 2 ^ 31 → GetStatus s = SYSTEM_MODE →
  split_at (now s) (queue s) ds rest →
  let '(k, new, y) := spec_handler device Random randomize (now s) (kernel s) h in
  ∃ s' rest', run_handler device Random randomize s h = Ok s' ∧ same_cpu s s' ∧ kernel s' = k ∧
    yieldOnReturn (interrupt s') = yieldOnReturn (interrupt s) || y ∧
    rest' ≡ₚ rest ++ new ∧ split_at (now s) (queue s') ds rest'.
Proof.
  intros Ht Hb Hst Hsp. destruct h as [|d]; cbn [spec_handler run_handler].
  - unfold TimerExpired. pose proof (TimeOfNextInterrupt_bound (kernel s)) as Hn.
    destruct (TimeOfNextInterrupt Random randomize (kernel s)) as [n k]. cbn in Hn.
    rewrite (Schedule_ok (set_kernel s k)) by (change (now (set_kernel s k)) with (now s); lia). cbn [mbind result_bind].
    unfold TimerInterruptHandler. rewrite bool_decide_true by (change (GetStatus s ≠ IDLE_MODE); congruence).
    destruct (split_insert (now s) _ ds rest (mkPending TimerHandler (now s + n) TIMER_INT) (now s + n) Hsp)
      as (r & P & Hsp'); [lia|done|].
    eexists _, r. split; [done|]. split; [done|]. split; [done|]. cbn. rewrite orb_true_r. split; [done|].
    split; [|exact Hsp']. rewrite P. unfold at_time. by rewrite Permutation_cons_append.
  - specialize (Hdev d (kernel s)). destruct (device d (kernel s)) as [k es]. cbn in Hdev.
    apply (run_effects_ok es (set_kernel s k) ds rest) in Hsp as (s' & r & E & [] & Hk & Hy & P & Hsp');
      [|done..].
    exists s', r. by split_and!.
Qed.

(** A property of the machine that the completion of a delayed load keeps. *)
Context (wf : Machine → Prop) (Hwf : ∀ m, wf m → ∃ m', DelayedLoad m 0 0 = Ok m' ∧ wf m').
Definition machine_all (s : Sim) : Prop := ∀ m, machine s = Some m → wf m.

Lemma delayed_load_ok (s : Sim) : machine_all s →
  ∃ m', delayed_load s = Ok (mkSim (interrupt s) (stats s) m' (kernel s)) ∧
    (∀ m, m' = Some m → wf m) ∧ (m' = None ↔ machine s = None).
Proof.
  unfold machine_all, delayed_load. destruct s as [i st [m|] k]; cbn; intros Hm.
  - destruct (Hwf m) as (m' & -> & Hm'); [by apply Hm|].
    cbn. exists (Some m'). split_and!; naive_solver.
  - exists None. split_and!; naive_solver.
Qed.

(** All that interrupts do to the machine: a delayed load is completed, perhaps
    more than once. *)
Definition loads (o o' : option Machine) : Prop :=
  match o, o' with
  | Some m, Some m' => rtc (λ m m', DelayedLoad m 0 0 = Ok m') m m'
  | None, None => True
  | _, _ => False
  end.

Lemma loads_refl o : loads o o.
Proof. destruct o; [apply rtc_refl|exact I]. Qed.

Lemma loads_trans o1 o2 o3 : loads o1 o2 → loads o2 o3 → loads o1 o3.
Proof. destruct o1, o2, o3; cbn; try done. intros; by etrans. Qed.

Lemma run_effects_machine es : ∀ (s s' : Sim), run_effects s es = Ok s' → machine s' = machine s.
Proof.
  induction es as [|e es IH]; intros s s'; cbn [run_effects]; [by intros [= <-]|].
  intros (s1 & E & ->%IH)%result_bind_ok. destruct e; cbn [run_effect] in E; [|by injection E as <-].
  unfold Schedule in E. apply result_bind_ok in E as (_ & _ & [= <-]). by case_bool_decide.
Qed.

Lemma fire_machine (s s' : Sim) i old : fire device Random randomize s i old = Ok s' → loads (machine s) (machine s').
Proof.
  unfold fire. intros (s1 & E1 & (s2 & E2 & [= <-])%result_bind_ok)%result_bind_ok.
  assert (machine s2 = machine s1) as Em.
  { revert E2. unfold run_handler, TimerExpired. destruct (handler i).
    - destruct (TimeOfNextInterrupt _ _ _). intros (s3 & E3 & [= <-])%result_bind_ok.
      unfold Schedule in E3. apply result_bind_ok in E3 as (_ & _ & [= <-]).
      unfold TimerInterruptHandler. by destruct (bool_decide _), (bool_decide _).
    - destruct (device d _). intros ->%run_effects_machine. done. }
  cbn. rewrite Em. unfold delayed_load in E1. destruct (machine s) as [m|] eqn:E; [|injection E1 as <-; by rewrite E].
  apply result_bind_ok in E1 as (m' & El & [= <-]). by apply rtc_once.
Qed.

Lemma CheckIfDue_machine adv (s s' : Sim) b : CheckIfDue device Random randomize adv s = Ok (b, s') →
  loads (machine s) (machine s').
Proof.
  unfold CheckIfDue. intros (_ & _ & E)%result_bind_ok.
  destruct (queue s) as [|[k i] rest]; [injection E as <- <-; apply loads_refl|].
  destruct (_ && _) in E; [injection E as <- <-; apply loads_refl|].
  destruct (_ && _) in E; [injection E as <- <-; by case_bool_decide; apply loads_refl|].
  apply result_bind_ok in E as (s1 & E%fire_machine & [= <- <-]). revert E. by case_bool_decide.
Qed.

Lemma check_loop_machine fuel : ∀ (s s' : Sim), check_loop device Random randomize fuel s = Ok s' →
  loads (machine s) (machine s').
Proof.
  induction fuel as [|fuel IH]; intros s s'; [done|]. cbn [check_loop].
  intros ([b s1] & E1%CheckIfDue_machine & E2)%result_bind_ok. destruct b; [|by injection E2 as <-].
  eapply loads_trans; [done|by apply IH].
Qed.

(** What firing leaves alone. *)
Record fired_cpu (s s' : Sim) : Prop := {
  fc_stats : stats s' = stats s;
  fc_machine : machine_all s';
  fc_level : GetLevel s' = GetLevel s;
  fc_status : GetStatus s' = GetStatus s;
  fc_handler : inHandler (interrupt s') = false
}.

Lemma fire_ok (s : Sim) i ds rest : 0 ≤ now s → now s + M < 2 ^ 31 → machine_all s →
  split_at (now s) (queue s) ds rest →
  let '(k, new, y) := spec_handler device Random randomize (now s) (kernel s) (handler i) in
  ∃ s' rest', fire device Random randomize s i (GetStatus s) = Ok s' ∧ fired_cpu s s' ∧ kernel s' = k ∧
    yieldOnReturn (interrupt s') = yieldOnReturn (interrupt s) || y ∧
    rest' ≡ₚ rest ++ new ∧ split_at (now s) (queue s') ds rest'.
Proof.
  intros Ht Hb Hm Hsp. destruct (delayed_load_ok s Hm) as (m' & E & Hm' & _).
  unfold fire. rewrite E. cbn [mbind result_bind].
  pose proof (run_handler_ok (SetStatus (set_inHandler (mkSim (interrupt s) (stats s) m' (kernel s)) true) SYSTEM_MODE)
    (handler i) ds rest Ht Hb eq_refl Hsp) as H.
  change (now (SetStatus _ _)) with (now s) in H.
  change (kernel (SetStatus _ _)) with (kernel s) in H.
  destruct (spec_handler _ _ _ (now s) (kernel s) (handler i)) as [[k new] y].
  destruct H as (s1 & r & -> & [] & Hk & Hy & P & Hsp'). cbn [mbind result_bind].
  eexists _, r. split; [done|]. split; [|by split_and!]. split; try done.
  intros m. cbn. rewrite sc_machine0. apply Hm'.
Qed.

(** The only interrupt left is one of the timer, and the machine is idle. *)
Definition lone_timer (s : Sim) (p : list (Z * PendingInterrupt D)) : Prop :=
  GetStatus s = IDLE_MODE ∧ ∃ i, p = [i] ∧ type i.2 = TIMER_INT.

Lemma split_later t p ds rest e : split_at t p ds rest → head p = Some e → t < e.1 → ds = [].
Proof.
  intros [-> Hd _ _ _] He Hlt. destruct ds as [|d ds]; [done|]. cbn in He. injection He as ->.
  apply Forall_inv in Hd. lia.
Qed.

Lemma split_tail t e p ds rest : split_at t (e :: p) (e :: ds) rest → split_at t p ds rest.
Proof.
  intros [E Hd Hl Hs Hk]. injection E as ->. apply Forall_inv_tail in Hd, Hk.
  split; try done. by apply StronglySorted_inv in Hs as [? _].
Qed.

(** The head is not due: it is put back, behind those of the same time. *)
Lemma CheckIfDue_later (s : Sim) rest : GetLevel s = INT_OFF → 0 ≤ now s →
  split_at (now s) (queue s) [] rest →
  ∃ s', CheckIfDue device Random randomize false s = Ok (false, s') ∧ stats s' = stats s ∧ kernel s' = kernel s ∧
    machine s' = machine s ∧ GetLevel s' = GetLevel s ∧ GetStatus s' = GetStatus s ∧
    inHandler (interrupt s') = inHandler (interrupt s) ∧
    yieldOnReturn (interrupt s') = yieldOnReturn (interrupt s) ∧
    queue s' ≡ₚ rest ∧ split_at (now s) (queue s') [] (queue s').
Proof.
  intros Hl Ht Hsp. unfold CheckIfDue. rewrite (bool_decide_true (GetLevel s = INT_OFF)) by done. cbn [ASSERT mbind result_bind].
  pose proof (sa_app _ _ _ _ Hsp) as E. destruct (queue s) as [|[k i] p] eqn:Eq; cbn in E; subst rest.
  - exists s. by rewrite Eq.
  - destruct (Forall_inv (sa_keys _ _ _ _ Hsp)) as [Hk0 Hk1].
    pose proof (Forall_inv (sa_later _ _ _ _ Hsp)) as Hlt. cbn in Hk0, Hk1, Hlt.
    rewrite u32_id by (unfold is_u32; lia). rewrite (bool_decide_true (k > now s)) by lia. cbn [negb andb].
    eexists. split; [done|]. do 7 (split; [done|]). unfold queue, set_pending. cbn [interrupt pending set_int].
    unfold SortedInsert. rewrite s32_id by (unfold is_s32; lia).
    assert (P : ListSpec.sorted_insert p i k ≡ₚ (k, i) :: p) by apply ListSpec.insert_by_perm.
    split; [exact P|]. destruct Hsp as [_ _ Hla Hs Hky]. split; try done.
    + by rewrite P.
    + apply ListSpec.sorted_insert_increasing. by apply StronglySorted_inv in Hs as [? _].
    + by rewrite P.
Qed.


(** The clock when the head of the queue is taken. *)
Definition advance (s : Sim) (w : Z) : Ticks :=
  let t := stats s in
  if bool_decide (w > now s) then
    mkTicks w (u64 (idleTicks t + (w - totalTicks t))) (systemTicks t) (userTicks t) (tickResets t)
  else t.

Lemma advance_now s w : totalTicks (advance s w) = Z.max (now s) w.
Proof. unfold advance, now. case_bool_decide; cbn; lia. Qed.

(** The head is due: it fires, unless it is the timer and there is nothing else
    to do. *)
Lemma CheckIfDue_fires adv (s : Sim) e p ds rest : GetLevel s = INT_OFF → queue s = e :: p →
  (adv = true ∨ e.1 ≤ now s) → let t := totalTicks (advance s e.1) in
  0 ≤ t → t + M < 2 ^ 31 → machine_all s → ¬ lone_timer s (e :: p) → split_at t (e :: p) (e :: ds) rest →
  let '(k, new, y) := spec_handler device Random randomize t (kernel s) (handler e.2) in
  ∃ s' rest', CheckIfDue device Random randomize adv s = Ok (true, s') ∧
    fired_cpu (set_stats s (advance s e.1)) s' ∧ kernel s' = k ∧
    yieldOnReturn (interrupt s') = yieldOnReturn (interrupt s) || y ∧
    rest' ≡ₚ rest ++ new ∧ split_at t (queue s') ds rest'.
Proof.
  intros Hl Hq Ha t Ht Hb Hm Hn Hsp. destruct e as [k i]. cbn [fst snd] in *.
  pose proof (sa_keys _ _ _ _ Hsp) as [Hk _]%Forall_cons. cbn [fst] in Hk.
  set (s1 := set_stats (set_pending s p) (advance s k)).
  assert (Hf := fire_ok s1 i ds rest Ht Hb Hm (split_tail _ _ _ _ _ Hsp)).
  change (now s1) with t in Hf. change (kernel s1) with (kernel s) in Hf.
  destruct (spec_handler _ _ _ t (kernel s) (handler i)) as [[k' new] y].
  destruct Hf as (s' & r & E & Hc & Hk' & Hy & P & Hsp'). exists s', r.
  split; [|split; [by destruct Hc; split|by split_and!]]. unfold CheckIfDue. rewrite (bool_decide_true (GetLevel s = INT_OFF)) by done.
  cbn [ASSERT mbind result_bind]. rewrite Hq. rewrite (u32_id k) by (unfold is_u32; lia).
  assert (negb adv && bool_decide (k > now s) = false) as ->.
  { destruct Ha as [->|Hle]; [done|]. rewrite (bool_decide_false (k > now s)) by lia. apply andb_false_r. }
  assert ((if bool_decide (k > now (set_pending s p)) then
             set_stats (set_pending s p) (mkTicks k (u64 (idleTicks (stats s) + (k - totalTicks (stats s))))
               (systemTicks (stats s)) (userTicks (stats s)) (tickResets (stats s)))
           else set_pending s p) = s1) as ->.
  { unfold s1, advance. change (now (set_pending s p)) with (now s). case_bool_decide; [done|].
    by destruct s as [[] ?]. }
  assert (bool_decide (GetStatus s = IDLE_MODE) && bool_decide (type i = TIMER_INT) && bool_decide (p = []) = false) as ->.
  { apply not_true_is_false. rewrite !andb_true_iff, !bool_decide_eq_true. intros [[? ?] ->]. apply Hn.
    split; [done|]. by exists (k, i). }
  change (GetStatus s1) with (GetStatus s) in E. rewrite E. done.
Qed.

Lemma CheckIfDue_lone adv (s : Sim) e : GetLevel s = INT_OFF → queue s = [e] → lone_timer s [e] →
  (adv = true ∨ e.1 ≤ now s) → 0 ≤ e.1 < 2 ^ 31 →
  CheckIfDue device Random randomize adv s = Ok (false, set_stats s (advance s e.1)).
Proof.
  intros Hl Hq (Hst & i & [= <-] & Hty) Ha Hk. destruct e as [k i]. cbn [fst snd] in *.
  unfold CheckIfDue. rewrite (bool_decide_true (GetLevel s = INT_OFF)) by done.
  cbn [ASSERT mbind result_bind]. rewrite Hq. rewrite (u32_id k) by (unfold is_u32; lia).
  assert (negb adv && bool_decide (k > now s) = false) as ->.
  { destruct Ha as [->|Hle]; [done|]. rewrite (bool_decide_false (k > now s)) by lia. apply andb_false_r. }
  rewrite (bool_decide_true (GetStatus s = IDLE_MODE)), (bool_decide_true (type i = TIMER_INT)) by done.
  cbn [andb bool_decide decide_rel]. rewrite bool_decide_true by done.
  unfold SortedInsert, advance. rewrite s32_id by (unfold is_s32; lia). cbn.
  destruct s as [[] ?]. unfold queue in Hq. cbn in Hq. subst. unfold set_pending, set_stats, now. cbn.
  by destruct (bool_decide _).
Qed.

(** [while (CheckIfDue(false)) {}] fires what is due, in order; an idle machine
    stops at the timer when that is all there is. *)
Lemma check_loop_ok fuel : ∀ (s : Sim) ds rest, (length ds < fuel)%nat → GetLevel s = INT_OFF →
  0 ≤ now s → now s + M < 2 ^ 31 → machine_all s → inHandler (interrupt s) = false →
  split_at (now s) (queue s) ds rest →
  ∃ fired left, ds = fired ++ left ∧ (left = [] ∨ lone_timer s left) ∧
  let '(k, new, y) := spec_run device Random randomize (now s) (kernel s) fired in
  ∃ s' rest', check_loop device Random randomize fuel s = Ok s' ∧ fired_cpu s s' ∧ kernel s' = k ∧
    yieldOnReturn (interrupt s') = yieldOnReturn (interrupt s) || y ∧
    rest' ≡ₚ rest ++ new ∧ split_at (now s) (queue s') left rest' ∧ (left = [] ∨ rest' = []).
Proof.
  induction fuel as [|fuel IH]; intros s ds rest Hf Hl Ht Hb Hm Hin Hsp; [lia|]. cbn [check_loop].
  destruct ds as [|e ds].
  - destruct (CheckIfDue_later s rest Hl Ht Hsp) as (s' & E & Hst & Hk & Hma & Hl' & Hs' & Hi' & Hy & P & Hsp').
    exists [], []. split; [done|]. split; [by left|]. cbn [spec_run]. rewrite E. cbn [mbind result_bind].
    exists s', (queue s'). split; [done|]. split; [|split; [done|]].
    { split; try done. - intros m. rewrite Hma. apply Hm. - by rewrite Hi'. }
    rewrite orb_false_r, app_nil_r. split; [done|]. split; [done|]. split; [done|by left].
  - pose proof (sa_app _ _ _ _ Hsp) as Hq. cbn in Hq. set (p := ds ++ rest) in *.
    pose proof (Forall_inv (sa_due _ _ _ _ Hsp)) as Hdue. cbn in Hdue.
    destruct (decide (GetStatus s = IDLE_MODE ∧ type e.2 = TIMER_INT ∧ p = [])) as [(Hid & Hty & Hp)|Hn].
    + assert (ds = []) as -> by (by destruct ds). assert (rest = []) as -> by (by destruct rest).
      exists [], [e]. split; [done|]. assert (Hlone : lone_timer s [e]) by (split; [done|by exists e]).
      split; [by right|]. cbn [spec_run]. rewrite Hp in Hq.
      pose proof (sa_keys _ _ _ _ Hsp) as Hky. rewrite Hq in Hky. apply Forall_inv in Hky.
      rewrite (CheckIfDue_lone false s e) by (done || by right). cbn [mbind result_bind].
      assert (advance s e.1 = stats s) as -> by (unfold advance; rewrite bool_decide_false by lia; done).
      assert (set_stats s (stats s) = s) as -> by (by destruct s).
      exists s, []. split; [done|]. split; [by split|]. split; [done|].
      rewrite orb_false_r. split; [done|]. split; [done|]. split; [done|by right].
    + assert (Hadv : advance s e.1 = stats s) by (unfold advance; rewrite bool_decide_false by lia; done).
      assert (Hf1 := CheckIfDue_fires false s e p ds rest Hl Hq (or_intror Hdue)).
      cbn zeta in Hf1. rewrite Hadv in Hf1. change (totalTicks (stats s)) with (now s) in Hf1.
      assert (set_stats s (stats s) = s) as Hss by (by destruct s). rewrite Hss in Hf1.
      rewrite Hq in Hsp. specialize (Hf1 Ht Hb Hm).
      assert (Hnl : ¬ lone_timer s (e :: p)).
      { intros (Hid & i & [= <- Hp] & Hty). by apply Hn. }
      specialize (Hf1 Hnl Hsp).
      destruct (spec_handler device Random randomize (now s) (kernel s) (handler e.2)) as [[k new] y] eqn:Eh.
      destruct Hf1 as (s1 & r1 & E & [Hst Hm1 Hl1 Hs1 Hi1] & Hk & Hy & P & Hsp1).
      assert (Hnow : now s1 = now s) by (unfold now; by rewrite Hst). rewrite <-Hnow in Hsp1.
      destruct (IH s1 ds r1) as (fired & left & Ed & Hleft & Hrun); [cbn in Hf; lia|congruence|lia|lia|done|done|done|].
      exists (e :: fired), left. split; [by rewrite Ed|].
      split. { destruct Hleft as [?|[? ?]]; [by left|right]. split; [congruence|done]. }
      cbn [spec_run]. rewrite Eh. rewrite Hnow, Hk in Hrun.
      destruct (spec_run device Random randomize (now s) k fired) as [[k' new'] y'].
      destruct Hrun as (s' & r' & E' & [Hst' Hm' Hl' Hs' Hi'] & Hk' & Hy' & P' & Hsp' & Hend).
      exists s', r'. rewrite E. cbn [mbind result_bind]. split; [done|].
      split; [split; [congruence|done|congruence|congruence|done]|]. split; [done|]. rewrite Hy', Hy, orb_assoc. split; [done|].
      split; [by rewrite P', P, app_assoc|]. by split.
Qed.


Lemma tick_now (s : Sim) : 0 ≤ now s → now s + SYSTEM_TICK < 2 ^ 31 →
  now s < now (tick s) ≤ now s + SYSTEM_TICK.
Proof.
  intros Ht Hb. unfold tick, SYSTEM_TICK, USER_TICK in *. unfold now in *. unfold u64.
  case_bool_decide; cbn; rewrite Z.mod_small; lia.
Qed.

Lemma tick_same (s : Sim) : interrupt (tick s) = interrupt s ∧ machine (tick s) = machine s ∧ kernel (tick s) = kernel s.
Proof. done. Qed.

(** See [OneTick_fires_due]. *)
Lemma OneTick_ok (Yield : Sim → result Sim) fuel (s : Sim) (Ht : 0 ≤ now s) (Hb : now s + SYSTEM_TICK + M < 2 ^ 31)
  (Hs : ListSpec.increasing (queue s)) (Hk : Forall (λ e, 0 ≤ e.1 < 2 ^ 31) (queue s))
  (Hidle : GetStatus s ≠ IDLE_MODE) (Hm : machine_all s) (Hin : inHandler (interrupt s) = false)
  (Hfuel : (length (queue s) < fuel)%nat) :
  let t := now (tick s) in
  let '(k, new, y) := spec_run device Random randomize t (kernel s) (filter (λ e, e.1 ≤ t) (queue s)) in
  ∃ s1, OneTick device Random Yield randomize fuel s =
      (if yieldOnReturn (interrupt s) || y then
         s2 ← Yield (SetStatus (set_yield s1 false) SYSTEM_MODE); Ok (SetStatus s2 (GetStatus s))
       else Ok s1) ∧
    kernel s1 = k ∧ now s1 = t ∧ GetLevel s1 = INT_ON ∧ GetStatus s1 = GetStatus s ∧ machine_all s1 ∧
    inHandler (interrupt s1) = false ∧
    queue s1 ≡ₚ filter (λ e, t < e.1) (queue s) ++ new ∧ ListSpec.increasing (queue s1) ∧
    Forall (λ e, t < e.1 < 2 ^ 31) (queue s1) ∧
    yieldOnReturn (interrupt s1) = yieldOnReturn (interrupt s) || y ∧ loads (machine s) (machine s1).
Proof.
  intros t. assert (HM2 : 0 < M) by (unfold TIMER_TICKS in HM; lia).
  pose proof (tick_now s Ht ltac:(lia)) as Htk. fold t in Htk.
  set (s0 := ChangeLevel (tick s) INT_OFF).
  pose proof (split_exists s t Hs Hk) as Hsp.
  destruct (check_loop_ok fuel s0 (filter (λ e, e.1 ≤ t) (queue s)) (filter (λ e, t < e.1) (queue s)))
    as (fired & left & Ed & Hleft & Hrun).
  { eapply Nat.le_lt_trans; [apply length_filter|done]. }
  { done. } { change (now s0) with t. lia. } { change (now s0) with t. lia. } { exact Hm. } { exact Hin. } { exact Hsp. }
  destruct Hleft as [->|[Hid _]]; [|by destruct Hidle]. rewrite app_nil_r in Ed. rewrite Ed.
  change (now s0) with t in Hrun. change (kernel s0) with (kernel s) in Hrun.
  destruct (spec_run device Random randomize t (kernel s) fired) as [[k new] y].
  destruct Hrun as (s' & rest' & E & [Hst Hm' Hl' Hs' Hi'] & Hk' & Hy & P & [Eq _ Hla Hso Hky] & _).
  exists (ChangeLevel s' INT_ON). unfold OneTick. fold s0. rewrite E. cbn [mbind result_bind].
  change (yieldOnReturn (interrupt (ChangeLevel s' INT_ON))) with (yieldOnReturn (interrupt s')).
  rewrite Hy. change (yieldOnReturn (interrupt s0)) with (yieldOnReturn (interrupt s)).
  split; [done|]. split; [done|]. split; [change (now s' = t); unfold now; by rewrite Hst|].
  split; [done|]. split; [exact Hs'|]. split; [exact Hm'|]. split; [exact Hi'|].
  change (queue (ChangeLevel s' INT_ON)) with (queue s'). rewrite Eq in Hso, Hky |- *. cbn [app] in *.
  split; [exact P|]. split; [done|]. split; [|split; [done|exact (check_loop_machine _ _ _ E)]].
  apply Forall_forall. intros e He.
  rewrite Forall_forall in Hla, Hky. specialize (Hla e He). specialize (Hky e He). lia.
Qed.

(** An idle machine has nothing to wait for. *)
Definition nothing_to_do (consoleRunning : bool) (s : Sim) : bool :=
  consoleRunning ||
  match queue s with
  | [] => true
  | [e] => bool_decide (type e.2 = TIMER_INT)
  | _ => false
  end.

(** See [Idle_progress]. *)
Lemma Idle_ok fuel consoleRunning (s : Sim) (Hl : GetLevel s = INT_OFF) (Ht : 0 ≤ now s)
  (Hb : now s + M < 2 ^ 31) (Hs : ListSpec.increasing (queue s))
  (Hk : Forall (λ e, 0 ≤ e.1 ∧ e.1 + M < 2 ^ 31) (queue s)) (Hm : machine_all s)
  (Hin : inHandler (interrupt s) = false) (Hfuel : (length (queue s) < fuel)%nat) :
  if nothing_to_do consoleRunning s then
    ∃ s', Idle device Random randomize fuel consoleRunning s = Ok (Halts s')
  else
    ∃ e p fired left, queue s = e :: p ∧ let t := Z.max (now s) e.1 in
    filter (λ e, e.1 ≤ t) (queue s) = e :: fired ++ left ∧
    let '(k, new, y) := spec_run device Random randomize t (kernel s) (e :: fired) in
    ∃ s', Idle device Random randomize fuel consoleRunning s = Ok (Returns s') ∧ kernel s' = k ∧ now s' = t ∧
      GetStatus s' = SYSTEM_MODE ∧ GetLevel s' = INT_OFF ∧ machine_all s' ∧
      inHandler (interrupt s') = false ∧ yieldOnReturn (interrupt s') = false ∧
      queue s' ≡ₚ left ++ filter (λ e, t < e.1) (queue s) ++ new ∧ ListSpec.increasing (queue s') ∧
      (Forall (λ e, t < e.1) (queue s') ∨ ∃ i, queue s' = [i] ∧ type i.2 = TIMER_INT).
Proof.
  assert (HM2 : 0 < M) by (unfold TIMER_TICKS in HM; lia).
  unfold Idle, nothing_to_do. destruct consoleRunning; [by eexists|]. cbn [orb].
  set (s0 := SetStatus s IDLE_MODE). change (queue s) with (queue s0) in *.
  destruct (queue s0) as [|e p] eqn:Hq.
  { exists s0. unfold CheckIfDue. rewrite (bool_decide_true (GetLevel s0 = INT_OFF)) by done.
    cbn [ASSERT mbind result_bind]. by rewrite Hq. }
  pose proof (Forall_inv Hk) as He. cbn beta in He.
  destruct (decide (p = [] ∧ type e.2 = TIMER_INT)) as [[-> Hty]|Hn].
  { rewrite bool_decide_true by done. rewrite (CheckIfDue_lone true s0 e) by (done || by left || lia || by split; [|exists e]).
    by eexists. }
  assert (match p with [] => bool_decide (type e.2 = TIMER_INT) | _ => false end = false) as ->.
  { destruct p; [|done]. apply bool_decide_false. naive_solver. }
  set (t := Z.max (now s) e.1). assert (Hadv : totalTicks (advance s0 e.1) = t) by apply advance_now.
  assert (Hky : Forall (λ e, 0 ≤ e.1 < 2 ^ 31) (queue s0)).
  { rewrite Hq. eapply Forall_impl; [exact Hk|]. cbn. intros. lia. }
  pose proof (split_exists s0 t) as Hsp. rewrite Hq in Hsp, Hky. specialize (Hsp Hs Hky).
  rewrite (filter_cons _ e), decide_True in Hsp by lia.
  assert (Hnl : ¬ lone_timer s0 (e :: p)) by (intros (_ & i & [= <- Hp] & Hty); by apply Hn).
  assert (Hf := CheckIfDue_fires true s0 e p (filter (λ e, e.1 ≤ t) p) (filter (λ e, t < e.1) (e :: p))
    Hl Hq (or_introl eq_refl)). cbn zeta in Hf. rewrite Hadv in Hf.
  specialize (Hf ltac:(lia) ltac:(lia) Hm Hnl Hsp). change (kernel s0) with (kernel s) in Hf.
  destruct (spec_handler device Random randomize t (kernel s) (handler e.2)) as [[k1 new1] y1] eqn:Eh.
  destruct Hf as (s1 & r1 & E1 & [Hst1 Hm1 Hl1 Hs1 Hi1] & Hk1 & _ & P1 & Hsp1).
  assert (Hnow : now s1 = t) by (unfold now; rewrite Hst1; exact Hadv).
  destruct (check_loop_ok fuel s1 (filter (λ e, e.1 ≤ t) p) r1)
    as (fired & left & Ed & Hleft & Hrun); [|rewrite Hl1; exact Hl|lia|lia|done|done|by rewrite Hnow|].
  { eapply Nat.le_lt_trans; [apply length_filter|]. cbn in Hfuel. lia. }
  exists e, p, fired, left. split; [done|]. cbn zeta. fold t. split; [rewrite (filter_cons _ e), decide_True, Ed by lia; done|].
  cbn [spec_run]. rewrite Eh. rewrite Hnow, Hk1 in Hrun.
  destruct (spec_run device Random randomize t k1 fired) as [[k new] y].
  destruct Hrun as (s2 & r2 & E2 & [Hst2 Hm2 Hl2 Hs2 Hi2] & Hk2 & _ & P2 & Hsp2 & Hend).
  exists (SetStatus (set_yield s2 false) SYSTEM_MODE). rewrite E1. cbn [mbind result_bind]. rewrite E2.
  cbn [mbind result_bind]. split; [done|]. split; [done|].
  split; [change (now s2 = t); unfold now; by rewrite Hst2|]. split; [done|].
  split; [change (GetLevel s2 = INT_OFF); rewrite Hl2, Hl1; exact Hl|]. split; [exact Hm2|]. split; [exact Hi2|]. split; [done|].
  change (queue (SetStatus (set_yield s2 false) SYSTEM_MODE)) with (queue s2).
  pose proof (sa_app _ _ _ _ Hsp2) as Eq2. split; [by rewrite Eq2, P2, P1, <-!app_assoc|].
  split; [apply Hsp2|]. destruct Hleft as [->|(_ & i & -> & Hty)].
  - left. rewrite Eq2. apply Hsp2.
  - right. destruct Hend as [|Hend]; [done|]. exists i. by rewrite Eq2, Hend.
Qed.

End Proofs.

Section Theorems.
Context {D K : Type} (device : D → K → K * list (effect D)) (Random : K → Z * K)
  (randomize : bool).
(** Devices schedule their interrupts for the future, at most [M] ticks ahead. *)
Context (M : Z) (HM : TIMER_TICKS * 2 ≤ M)
  (Hdev : ∀ d k h n ty, Schedules h n ty ∈ (device d k).2 → 0 < n ≤ M).
Abbreviation Sim := (Sim D K).
Definition machine_wf (s : Sim) : Prop := ∀ m, machine s = Some m → machine_ok m.

Lemma DelayedLoad_wf m : machine_ok m → ∃ m', DelayedLoad m 0 0 = Ok m' ∧ machine_ok m'.
Proof. intros [Hm _]. by apply DelayedLoad_ok. Qed.

(** C29: a tick of the clock terminates, and the interrupts that are due at the new
    time have fired exactly once each, in the order of the queue: the kernel is
    what their handlers make of it.  What handlers schedule and what was not due
    is in the queue, sorted, and nothing in it is due; a context switch follows
    exactly if it was asked for, with the machine in system mode. *)
Theorem OneTick_fires_due (Yield : Sim → result Sim) fuel (s : Sim) (Ht : 0 ≤ now s) (Hb : now s + SYSTEM_TICK + M < 2 ^ 31)
  (Hs : ListSpec.increasing (queue s)) (Hk : Forall (λ e, 0 ≤ e.1 < 2 ^ 31) (queue s))
  (Hidle : GetStatus s ≠ IDLE_MODE) (Hm : machine_wf s) (Hin : inHandler (interrupt s) = false)
  (Hfuel : (length (queue s) < fuel)%nat) :
  let t := now (tick s) in
  let '(k, new, y) := spec_run device Random randomize t (kernel s) (filter (λ e, e.1 ≤ t) (queue s)) in
  ∃ s1, OneTick device Random Yield randomize fuel s =
      (if yieldOnReturn (interrupt s) || y then
         s2 ← Yield (SetStatus (set_yield s1 false) SYSTEM_MODE); Ok (SetStatus s2 (GetStatus s))
       else Ok s1) ∧
    kernel s1 = k ∧ now s1 = t ∧ GetLevel s1 = INT_ON ∧ GetStatus s1 = GetStatus s ∧ machine_wf s1 ∧
    inHandler (interrupt s1) = false ∧
    queue s1 ≡ₚ filter (λ e, t < e.1) (queue s) ++ new ∧ ListSpec.increasing (queue s1) ∧
    Forall (λ e, t < e.1 < 2 ^ 31) (queue s1).
Proof.
  pose proof (OneTick_ok device Random randomize M HM Hdev machine_ok DelayedLoad_wf Yield fuel s
    Ht Hb Hs Hk Hidle Hm Hin Hfuel) as H. cbn zeta in *.
  destruct (spec_run _ _ _ _ _ _) as [[k new] y].
  destruct H as (s1 & ? & ? & ? & ? & ? & ? & ? & ? & ? & ? & _). by exists s1.
Qed.

(** C30: an idle machine makes progress.  [Idle] halts the machine exactly if the
    console runs, or no interrupt is pending but possibly one of the timer.
    Otherwise it terminates, with the clock moved to the time of the first
    pending interrupt (never back); that interrupt, and those that are due with
    it, have fired, in order; and then nothing is due, except for a timer that
    is all there is. *)
Theorem Idle_progress fuel consoleRunning (s : Sim) (Hl : GetLevel s = INT_OFF) (Ht : 0 ≤ now s)
  (Hb : now s + M < 2 ^ 31) (Hs : ListSpec.increasing (queue s))
  (Hk : Forall (λ e, 0 ≤ e.1 ∧ e.1 + M < 2 ^ 31) (queue s)) (Hm : machine_wf s)
  (Hin : inHandler (interrupt s) = false) (Hfuel : (length (queue s) < fuel)%nat) :
  if nothing_to_do consoleRunning s then
    ∃ s', Idle device Random randomize fuel consoleRunning s = Ok (Halts s')
  else
    ∃ e p fired left, queue s = e :: p ∧ let t := Z.max (now s) e.1 in
    filter (λ e, e.1 ≤ t) (queue s) = e :: fired ++ left ∧
    let '(k, new, y) := spec_run device Random randomize t (kernel s) (e :: fired) in
    ∃ s', Idle device Random randomize fuel consoleRunning s = Ok (Returns s') ∧ kernel s' = k ∧ now s' = t ∧
      GetStatus s' = SYSTEM_MODE ∧ GetLevel s' = INT_OFF ∧ machine_wf s' ∧
      inHandler (interrupt s') = false ∧ yieldOnReturn (interrupt s') = false ∧
      queue s' ≡ₚ left ++ filter (λ e, t < e.1) (queue s) ++ new ∧ ListSpec.increasing (queue s') ∧
      (Forall (λ e, t < e.1) (queue s') ∨ ∃ i, queue s' = [i] ∧ type i.2 = TIMER_INT).
Proof. by apply (Idle_ok device Random randomize M HM Hdev machine_ok DelayedLoad_wf). Qed.
End Theorems.

(** ** Times that do not fit an [int]

    The queue is sorted by [int]s.  A time from [2 ^ 31] on is a negative key and
    goes to the front of the queue. *)
Section Overflow.
Context {D K : Type} (device : D → K → K * list (effect D)) (Random : K → Z * K) (randomize : bool).

(** The head of the queue is in the future: nothing fires, whatever is behind. *)
Lemma CheckIfDue_blocked (s : Sim D K) k i rest : GetLevel s = INT_OFF → queue s = (k, i) :: rest →
  now s < u32 k → ∃ s', CheckIfDue device Random randomize false s = Ok (false, s') ∧ kernel s' = kernel s.
Proof.
  intros Hl Hq Hk. unfold CheckIfDue. rewrite (bool_decide_true (GetLevel s = INT_OFF)) by done.
  cbn [ASSERT mbind result_bind]. rewrite Hq, (bool_decide_true (u32 k > now s)) by lia. by eexists.
Qed.

(** Once an interrupt is scheduled across [2 ^ 31], those that are due before it
    no longer fire. *)
Theorem Schedule_blocks_due (s : Sim D K) h n ty : GetLevel s = INT_OFF → 0 ≤ now s < 2 ^ 31 →
  2 ^ 31 ≤ now s + n ≤ UINT_MAX → Forall (λ e, 0 ≤ e.1 ≤ now s) (queue s) →
  ∃ s1 s2, Schedule s h n ty = Ok s1 ∧
    CheckIfDue device Random randomize false s1 = Ok (false, s2) ∧ kernel s2 = kernel s.
Proof.
  intros Hl Ht Hn Hk. unfold UINT_MAX in Hn. unfold Schedule.
  rewrite (bool_decide_true (n > 0)) by lia. cbn [ASSERT mbind result_bind].
  assert (E : u64 (UINT_MAX - now s) = UINT_MAX - now s) by (unfold u64, UINT_MAX; apply Z.mod_small; lia).
  rewrite E, bool_decide_false by (unfold UINT_MAX; lia). rewrite u32_id by (unfold is_u32; lia).
  assert (Es : s32 (now s + n) = now s + n - 2 ^ 32).
  { unfold s32. rewrite (Z.mod_eq _ (2 ^ 32)) by lia.
    replace ((now s + n + 2 ^ 31) / 2 ^ 32) with 1 by (apply (Z.div_unique_pos _ _ _ (now s + n - 2 ^ 31)); lia). lia. }
  eexists. assert (Hi : SortedInsert (queue s) (mkPending h (now s + n) ty) (now s + n)
    = (now s + n - 2 ^ 32, mkPending h (now s + n) ty) :: queue s).
  { unfold SortedInsert, ListSpec.sorted_insert. rewrite Es. destruct (queue s) as [|[k i] q]; [done|].
    apply Forall_inv in Hk. cbn in Hk |- *. rewrite (proj2 (Z.ltb_lt _ k)) by lia. done. }
  destruct (CheckIfDue_blocked (set_pending s (SortedInsert (queue s) (mkPending h (now s + n) ty) (now s + n)))
    (now s + n - 2 ^ 32) (mkPending h (now s + n) ty) (queue s)) as (s2 & E2 & Hk2); [done|exact Hi| |].
  - change (now (set_pending s _)) with (now s). unfold u32.
    rewrite (Z.mod_eq _ (2 ^ 32)) by lia.
    replace ((now s + n - 2 ^ 32) / 2 ^ 32) with (-1) by (apply (Z.div_unique_pos _ _ _ (now s + n)); lia). lia.
  - exists s2. split; [done|]. by split.
Qed.

(** [RestartTicks] sends an interrupt that is overdue to the end of time, and to
    the front of the queue. *)
Theorem RestartTicks_overdue (s : Sim D K) k i : GetLevel s = INT_OFF → queue s = [(k, i)] →
  0 ≤ k < now s → now s < 2 ^ 31 →
  ∃ s2, CheckIfDue device Random randomize false (RestartTicks s) = Ok (false, s2) ∧ kernel s2 = kernel s.
Proof.
  intros Hl Hq Hk Ht.
  assert (Eu : u32 k = k) by (apply u32_id; unfold is_u32; lia).
  assert (Ew : u32 (k - now s) = k - now s + 2 ^ 32).
  { unfold u32. rewrite (Z.mod_eq _ (2 ^ 32)) by lia.
    replace ((k - now s) / 2 ^ 32) with (-1) by (apply (Z.div_unique_pos _ _ _ (k - now s + 2 ^ 32)); lia). lia. }
  change (kernel s) with (kernel (RestartTicks s)).
  eapply (CheckIfDue_blocked (RestartTicks s) (s32 (u32 (k - now s))) i []); [done| |].
  - unfold RestartTicks. rewrite Hq. cbn. by rewrite Eu.
  - change (now (RestartTicks s)) with 0. rewrite Ew. unfold u32, s32.
    rewrite Zminus_mod_idemp_l. rewrite (Z.mod_eq _ (2 ^ 32)) by lia.
    replace ((k - now s + 2 ^ 32 + 2 ^ 31 - 2 ^ 31) / 2 ^ 32) with 0
      by (apply (Z.div_unique_pos _ _ _ (k - now s + 2 ^ 32)); lia). lia.
Qed.
End Overflow.

(** ** A concrete machine

    The timer, and a disk whose handler writes a log and starts the next request;
    time 995, two disk interrupts and the timer at 1000, another one later. *)
Definition demo_device (d : Z) (log : list Z) : list Z * list (effect Z) :=
  (log ++ [d], [Schedules (Device (d + 1)) 500 DISK_INT]).
Definition demo_random (log : list Z) : Z * list Z := (7, log).
Definition demo_queue : list (Z * PendingInterrupt Z) :=
  [(998, mkPending (Device 1) 998 DISK_INT); (1000, mkPending TimerHandler 1000 TIMER_INT);
   (1005, mkPending (Device 2) 1005 DISK_INT); (1200, mkPending (Device 3) 1200 DISK_INT)].
Definition demo_sim (st : MachineStatus) (lv : IntStatus) : Sim Z (list Z) :=
  mkSim (mkInterrupt lv demo_queue false false st) (mkTicks 995 0 995 0 0) None [].

Lemma demo_device_bound d k h n ty : Schedules h n ty ∈ (demo_device d k).2 → 0 < n ≤ 500.
Proof. cbn. intros [= -> -> ->]%list_elem_of_singleton. lia. Qed.

Lemma demo_queue_sorted : ListSpec.increasing demo_queue.
Proof. unfold ListSpec.increasing, demo_queue. repeat constructor; cbn; lia. Qed.

Lemma OneTick_fires_due_witness :
  ∃ s1, OneTick demo_device demo_random Ok false 5 (demo_sim SYSTEM_MODE INT_ON)
    = Ok (SetStatus (SetStatus (set_yield s1 false) SYSTEM_MODE) SYSTEM_MODE) ∧
    kernel s1 = [1; 2] ∧ now s1 = 1005 ∧ Forall (λ e, 1005 < e.1 < 2 ^ 31) (queue s1).
Proof.
  pose proof (OneTick_fires_due demo_device demo_random false 500 ltac:(vm_compute; congruence) demo_device_bound Ok 5
    (demo_sim SYSTEM_MODE INT_ON)) as H.
  destruct H as (s1 & E & Hk & Ht & _ & _ & _ & _ & _ & _ & Hf).
  - vm_compute. congruence.
  - vm_compute. congruence.
  - exact demo_queue_sorted.
  - repeat constructor; cbn; lia.
  - discriminate.
  - intros m Hm. discriminate Hm.
  - reflexivity.
  - cbn. lia.
  - exists s1. split; [exact E|]. split; [exact Hk|]. split; [exact Ht|]. exact Hf.
Defined.

Lemma Idle_progress_witness :
  ∃ s', Idle demo_device demo_random false 5 false (demo_sim SYSTEM_MODE INT_OFF) = Ok (Returns s') ∧
    kernel s' = [1] ∧ now s' = 998.
Proof.
  pose proof (Idle_progress demo_device demo_random false 500 ltac:(vm_compute; congruence) demo_device_bound 5 false
    (demo_sim SYSTEM_MODE INT_OFF)) as H.
  destruct H as (e & p & fired & left & Hq & Hf & H).
  - reflexivity.
  - vm_compute. congruence.
  - vm_compute. reflexivity.
  - exact demo_queue_sorted.
  - repeat constructor; cbn; lia.
  - intros m Hm. discriminate Hm.
  - reflexivity.
  - cbn. lia.
  - injection Hq as <- <-. vm_compute in Hf. injection Hf as Hf. symmetry in Hf. apply app_eq_nil in Hf as [-> ->].
    destruct H as (s' & E & Hk & Ht & _). exists s'. split; [exact E|]. split; [exact Hk|exact Ht].
Defined.
