(* ===== verification/Threads.v ===== *)
(** * [threads/]: threads, scheduler and synchronization

    [thread.cc], [scheduler.cc], [semaphore.cc], [lock.cc], [condition.cc],
    [channel.cc] and [synch_list.hh], with [MULTILEVEL_PRIORITY_QUEUE].

    Objects live in maps by their address, so that threads, locks and conditions
    refer to each other as they do in the code; an address that is not in its
    map dangles.  Kernel code runs with interrupts disabled inside the methods
    of a semaphore and of the scheduler, and another thread can only run when
    interrupts are enabled again or when the thread sleeps.  So what a thread
    still has to do is a list of [frame]s, pieces of code between two such points:
    [exec_frame] runs one of them and may push the pieces of a method that it
    calls.  The list is the part of the stack of the thread that matters here.
    The loop of [P] and [Finish] run with interrupts disabled over several
    frames; between these frames the model admits more interleavings than the
    code.  The stack itself ([StackAllocate], [CheckOverflow]) and the registers of
    user programs ([AddressSpace.Run]) are not part of this state. *)

From S2P Require Import Prelude LinkedList.
From stdpp Require Import base option list gmap numbers tactics.
From stdpp Require Import list.
Open Scope Z_scope.

Inductive ThreadStatus := JUST_CREATED | RUNNING | READY | BLOCKED.
#[export] Instance ThreadStatus_eq_dec : EqDecision ThreadStatus.
Proof. solve_decision. Defined.

(** Identifiers are addresses: threads, semaphores, locks, conditions, channels,
    lists. *)
Inductive frame :=
| DoP (s : Z)                      (* the loop of [Semaphore::P] *)
| DoV (s : Z)
| DoAcquire (l : Z)
| SetOwner (l : Z)                 (* the last statement of [Acquire] *)
| DoRelease (l : Z)
| DoWait (c : Z)
| DoSignal (c : Z)
| DoBroadcast (c : Z)
| DoSend (ch : Z) (message : Z)
| SendAppend (ch : Z) (message : Z)
| SendHead (ch : Z)
| SendLoop (ch : Z) (msg : Z)
| DoReceive (ch : Z)
| ReceiveLoop (ch : Z)
| DoListAppend (sl : Z) (item : Z)
| ListAppend (sl : Z) (item : Z)
| DoListPop (sl : Z)
| ListPopLoop (sl : Z)
| DoYield
| DoJoin (t : Z)
| JoinYield
| DoFinish (st : Z)
| FinishSleep
| UserCode                         (* [StartProcess]: the user program of the thread *)
| Dead.                            (* after [Finish]: never runs again *)
#[export] Instance frame_eq_dec : EqDecision frame.
Proof. solve_decision. Defined.

Record Thread := mkThread {
  th_status : ThreadStatus;
  priority : Z;                    (* [size_t] *)
  joinable : bool;
  joinChannel : Z;
  spaceId : Z;
  started : bool;                  (* has it ever run, or does it start in [ThreadRoot]? *)
  code : list frame;
  received : Z;                    (* what [Receive] or [Pop] returned *)
  held : gset Z                    (* the locks between [Acquire] and [Release]; only for the proofs *)
}.

Record Semaphore := mkSem { value : Z; sem_queue : list Z }.
Record Lock := mkLock { lk_sem : Z; lockOwner : option Z; oldPriority : Z }.
Record Condition := mkCond { conditionLock : Z; cond_queue : list Z }.
Record Channel := mkChan { buzon : list Z; ch_lock : Z; forSenders : Z; forReceivers : Z }.
Record SynchList := mkSynchList { sl_list : list Z; sl_lock : Z; listEmpty : Z }.

Record Kernel := mkKernel {
  threads : gmap Z Thread;
  readyList : list (Z * Z);                 (* sort key and thread *)
  currentThread : Z;
  threadToBeDestroyed : option Z;
  sems : gmap Z Semaphore;
  locks : gmap Z Lock;
  conds : gmap Z Condition;
  chans : gmap Z Channel;
  lists : gmap Z SynchList
}.

(** ** Access to objects *)
Definition get {A} (m : gmap Z A) (p : Z) : result A :=
  match m !! p with Some x => Ok x | None => Err NullPointer end.

Definition set_threads (k : Kernel) (m : gmap Z Thread) : Kernel :=
  mkKernel m (readyList k) (currentThread k) (threadToBeDestroyed k) (sems k) (locks k) (conds k) (chans k) (lists k).
Definition set_ready (k : Kernel) (r : list (Z * Z)) : Kernel :=
  mkKernel (threads k) r (currentThread k) (threadToBeDestroyed k) (sems k) (locks k) (conds k) (chans k) (lists k).
Definition set_current (k : Kernel) (t : Z) : Kernel :=
  mkKernel (threads k) (readyList k) t (threadToBeDestroyed k) (sems k) (locks k) (conds k) (chans k) (lists k).
Definition set_destroyed (k : Kernel) (t : option Z) : Kernel :=
  mkKernel (threads k) (readyList k) (currentThread k) t (sems k) (locks k) (conds k) (chans k) (lists k).
Definition set_sems (k : Kernel) (m : gmap Z Semaphore) : Kernel :=
  mkKernel (threads k) (readyList k) (currentThread k) (threadToBeDestroyed k) m (locks k) (conds k) (chans k) (lists k).
Definition set_locks (k : Kernel) (m : gmap Z Lock) : Kernel :=
  mkKernel (threads k) (readyList k) (currentThread k) (threadToBeDestroyed k) (sems k) m (conds k) (chans k) (lists k).
Definition set_conds (k : Kernel) (m : gmap Z Condition) : Kernel :=
  mkKernel (threads k) (readyList k) (currentThread k) (threadToBeDestroyed k) (sems k) (locks k) m (chans k) (lists k).
Definition set_chans (k : Kernel) (m : gmap Z Channel) : Kernel :=
  mkKernel (threads k) (readyList k) (currentThread k) (threadToBeDestroyed k) (sems k) (locks k) (conds k) m (lists k).
Definition set_lists (k : Kernel) (m : gmap Z SynchList) : Kernel :=
  mkKernel (threads k) (readyList k) (currentThread k) (threadToBeDestroyed k) (sems k) (locks k) (conds k) (chans k) m.

(** Updates of a thread. *)
Definition with_status (th : Thread) (st : ThreadStatus) : Thread :=
  mkThread st (priority th) (joinable th) (joinChannel th) (spaceId th) (started th) (code th) (received th) (held th).
Definition with_priority (th : Thread) (p : Z) : Thread :=
  mkThread (th_status th) p (joinable th) (joinChannel th) (spaceId th) (started th) (code th) (received th) (held th).
Definition with_started (th : Thread) : Thread :=
  mkThread (th_status th) (priority th) (joinable th) (joinChannel th) (spaceId th) true (code th) (received th) (held th).
Definition with_code (th : Thread) (c : list frame) : Thread :=
  mkThread (th_status th) (priority th) (joinable th) (joinChannel th) (spaceId th) (started th) c (received th) (held th).
Definition with_received (th : Thread) (v : Z) : Thread :=
  mkThread (th_status th) (priority th) (joinable th) (joinChannel th) (spaceId th) (started th) (code th) v (held th).
Definition with_held (th : Thread) (ls : gset Z) : Thread :=
  mkThread (th_status th) (priority th) (joinable th) (joinChannel th) (spaceId th) (started th) (code th) (received th) ls.

(** [t->f()] for a method that updates one thread. *)
Definition update (k : Kernel) (t : Z) (f : Thread → Thread) : result Kernel :=
  th ← get (threads k) t;
  Ok (set_threads k (<[t := f th]> (threads k))).
Definition SetStatus (k : Kernel) (t : Z) (st : ThreadStatus) : result Kernel :=
  update k t (λ th, with_status th st).
Definition SetPriority (k : Kernel) (t p : Z) : result Kernel :=
  update k t (λ th, with_priority th p).
Definition GetPriority (k : Kernel) (t : Z) : result Z :=
  th ← get (threads k) t; Ok (priority th).
Definition set_code (k : Kernel) (t : Z) (c : list frame) : result Kernel :=
  update k t (λ th, with_code th c).

(** The constructor; [spaceId] is the index in [runningProcesses]. *)
Definition new_Thread (isJoinable : bool) (prio ch space : Z) : Thread :=
  mkThread JUST_CREATED prio isJoinable ch space false [] 0 ∅.

(** ** [scheduler.cc] *)
Definition ReadyToRun (k : Kernel) (t : Z) : result Kernel :=
  k ← SetStatus k t READY;
  p ← GetPriority k t;
  Ok (set_ready k (ListSpec.sorted_insert_inverted (readyList k) t (s32 p))).

Definition FindNextToRun (k : Kernel) : option Z * Kernel :=
  match readyList k with
  | [] => (None, k)
  | (_, t) :: r => (Some t, set_ready k r)
  end.

Definition ModifyPriority (k : Kernel) (t : Z) : result Kernel :=
  if ListSpec.has (readyList k) t then
    p ← GetPriority k t;
    Ok (set_ready k (ListSpec.sorted_insert_inverted (ListSpec.remove (readyList k) t) t (s32 p)))
  else Ok k.

(** The destructor of a thread; the address space is in [AddressSpace].  The lock
    and the conditions of the channel are only used through the channel and stay
    in their maps. *)
Definition delete_Thread (k : Kernel) (t : Z) : result Kernel :=
  _ ← ASSERT (bool_decide (t ≠ currentThread k));
  th ← get (threads k) t;
  let k := if joinable th then set_chans k (delete (joinChannel th) (chans k)) else k in
  Ok (set_threads k (delete t (threads k))).

(** [Run]: a thread that ran before continues behind its own call of [SWITCH]
    and deletes the thread that finished; a new one starts in [ThreadRoot]. *)
Definition Run (k : Kernel) (nextThread : Z) : result Kernel :=
  let k := set_current k nextThread in
  k ← SetStatus k nextThread RUNNING;
  th ← get (threads k) nextThread;
  if started th then
    match threadToBeDestroyed k with
    | Some d => k ← delete_Thread k d; Ok (set_destroyed k None)
    | None => Ok k
    end
  else update k nextThread with_started.

(** ** [thread.cc] *)
Definition Yield (k : Kernel) : result Kernel :=
  let '(nextThread, k) := FindNextToRun k in
  match nextThread with
  | Some t => k ← ReadyToRun k (currentThread k); Run k t
  | None => Ok k
  end.

(** The loop of [Sleep]: while no thread is ready the machine idles, and the
    sleeping thread stays the current one. *)
Definition dispatch (k : Kernel) : result Kernel :=
  let '(nextThread, k) := FindNextToRun k in
  match nextThread with
  | Some t => Run k t
  | None => Ok k
  end.
Definition Sleep (k : Kernel) : result Kernel :=
  k ← SetStatus k (currentThread k) BLOCKED; dispatch k.

Definition Fork (k : Kernel) (t : Z) (func : list frame) : result Kernel :=
  k ← set_code k t (func ++ [DoFinish 0]);
  ReadyToRun k t.

(** ** [semaphore.cc] *)
Definition INT_MAX : Z := 2147483647.
Definition INT_MIN : Z := -2147483648.

(** One iteration of the loop of [P] with the frame of the loop on the stack:
    the thread sleeps, or it takes the semaphore and goes on with [rest]. *)
Definition P (k : Kernel) (s : Z) (rest : list frame) : result Kernel :=
  sem ← get (sems k) s;
  if bool_decide (value sem = 0) then
    Sleep (set_sems k (<[s := mkSem (value sem) (sem_queue sem ++ [currentThread k])]> (sems k)))
  else if bool_decide (INT_MIN < value sem) then
    set_code (set_sems k (<[s := mkSem (value sem - 1) (sem_queue sem)]> (sems k))) (currentThread k) rest
  else Err Undefined.


Definition V (k : Kernel) (s : Z) : result Kernel :=
  sem ← get (sems k) s;
  k ← (match sem_queue sem with
       | t :: q => ReadyToRun (set_sems k (<[s := mkSem (value sem) q]> (sems k))) t
       | [] => Ok k
       end);
  sem ← get (sems k) s;
  if bool_decide (value sem < INT_MAX) then
    Ok (set_sems k (<[s := mkSem (value sem + 1) (sem_queue sem)]> (sems k)))
  else Err Undefined.

(** ** [lock.cc] *)
Definition IsHeldByCurrentThread (k : Kernel) (lk : Lock) : bool :=
  bool_decide (lockOwner lk = Some (currentThread k)).

(** [Acquire] up to [lock->P()]: the owner inherits the priority. *)
Definition Acquire_inherit (k : Kernel) (l : Z) : result Kernel :=
  lk ← get (locks k) l;
  _ ← ASSERT (negb (IsHeldByCurrentThread k lk));
  currentPriority ← GetPriority k (currentThread k);
  ownerPriority ← (match lockOwner lk with Some o => GetPriority k o | None => Ok currentPriority end);
  if bool_decide (ownerPriority < currentPriority) then
    match lockOwner lk with
    | Some o =>
        let k := set_locks k (<[l := mkLock (lk_sem lk) (Some o) ownerPriority]> (locks k)) in
        k ← SetPriority k o currentPriority;
        ModifyPriority k o
    | None => Err NullPointer
    end
  else Ok k.

(** [Release] up to [lock->V()]. *)
Definition Release_restore (k : Kernel) (l : Z) : result Kernel :=
  lk ← get (locks k) l;
  _ ← ASSERT (IsHeldByCurrentThread k lk);
  let k := set_locks k (<[l := mkLock (lk_sem lk) None (oldPriority lk)]> (locks k)) in
  p ← GetPriority k (currentThread k);
  if bool_decide (p ≠ oldPriority lk) then
    k ← SetPriority k (currentThread k) (oldPriority lk);
    ModifyPriority k (currentThread k)
  else Ok k.

(** ** Constructors, at fresh addresses *)
Definition new_Semaphore (k : Kernel) (initialValue : Z) : Z * Kernel :=
  let s := fresh (dom (sems k)) in
  (s, set_sems k (<[s := mkSem initialValue []]> (sems k))).
Definition new_Lock (k : Kernel) : Z * Kernel :=
  let '(s, k) := new_Semaphore k 1 in
  let l := fresh (dom (locks k)) in
  (l, set_locks k (<[l := mkLock s None 0]> (locks k))).
Definition new_Condition (k : Kernel) (l : Z) : Z * Kernel :=
  let c := fresh (dom (conds k)) in
  (c, set_conds k (<[c := mkCond l []]> (conds k))).
Definition new_Channel (k : Kernel) : Z * Kernel :=
  let '(l, k) := new_Lock k in
  let '(senders, k) := new_Condition k l in
  let '(receivers, k) := new_Condition k l in
  let ch := fresh (dom (chans k)) in
  (ch, set_chans k (<[ch := mkChan [] l senders receivers]> (chans k))).
Definition new_SynchList (k : Kernel) : Z * Kernel :=
  let '(l, k) := new_Lock k in
  let '(c, k) := new_Condition k l in
  let sl := fresh (dom (lists k)) in
  (sl, set_lists k (<[sl := mkSynchList [] l c]> (lists k))).

(** ** Methods as pieces of code of the current thread

    [rest] is the code after the method.  A method that calls methods of other
    objects pushes their pieces. *)
Definition go (k : Kernel) (me : Z) (fs rest : list frame) : result Kernel := set_code k me (fs ++ rest).

Definition Semaphore_V (k : Kernel) (s : Z) (rest : list frame) : result Kernel :=
  k ← go k (currentThread k) [] rest; V k s.

(** *** Locks *)
Definition Acquire (k : Kernel) (l : Z) (rest : list frame) : result Kernel :=
  let me := currentThread k in
  lk ← get (locks k) l;
  k ← Acquire_inherit k l;
  go k me [DoP (lk_sem lk); SetOwner l] rest.
Definition set_owner (k : Kernel) (l : Z) (rest : list frame) : result Kernel :=
  let me := currentThread k in
  lk ← get (locks k) l;
  let k := set_locks k (<[l := mkLock (lk_sem lk) (Some me) (oldPriority lk)]> (locks k)) in
  k ← update k me (λ th, with_held th ({[l]} ∪ held th));
  go k me [] rest.
Definition Release (k : Kernel) (l : Z) (rest : list frame) : result Kernel :=
  let me := currentThread k in
  lk ← get (locks k) l;
  k ← Release_restore k l;
  k ← update k me (λ th, with_held th (held th ∖ {[l]}));
  go k me [DoV (lk_sem lk)] rest.

(** *** Condition variables *)
Definition Wait (k : Kernel) (c : Z) (rest : list frame) : result Kernel :=
  let me := currentThread k in
  cd ← get (conds k) c;
  lk ← get (locks k) (conditionLock cd);
  _ ← ASSERT (IsHeldByCurrentThread k lk);
  let '(s, k) := new_Semaphore k 0 in
  let k := set_conds k (<[c := mkCond (conditionLock cd) (cond_queue cd ++ [s])]> (conds k)) in
  go k me [DoRelease (conditionLock cd); DoP s; DoAcquire (conditionLock cd)] rest.
Definition Signal (k : Kernel) (c : Z) (rest : list frame) : result Kernel :=
  let me := currentThread k in
  cd ← get (conds k) c;
  lk ← get (locks k) (conditionLock cd);
  _ ← ASSERT (IsHeldByCurrentThread k lk);
  match cond_queue cd with
  | [] => go k me [] rest
  | s :: _ => go k me [DoV s] rest
  end.
Definition Broadcast (k : Kernel) (c : Z) (rest : list frame) : result Kernel :=
  let me := currentThread k in
  cd ← get (conds k) c;
  match cond_queue cd with
  | [] => go k me [] rest
  | _ => go k me [DoSignal c; DoBroadcast c] rest
  end.

(** *** Channels: [Send] up to the append, the append, [Head], the loop *)
Definition Send (k : Kernel) (ch m : Z) (rest : list frame) : result Kernel :=
  c ← get (chans k) ch;
  go k (currentThread k) [DoAcquire (ch_lock c); SendAppend ch m; DoSignal (forReceivers c); SendHead ch] rest.
Definition Send_append (k : Kernel) (ch m : Z) (rest : list frame) : result Kernel :=
  c ← get (chans k) ch;
  let k' := set_chans k (<[ch := mkChan (buzon c ++ [m]) (ch_lock c) (forSenders c) (forReceivers c)]> (chans k)) in
  go k' (currentThread k) [] rest.
Definition Send_head (k : Kernel) (ch : Z) (rest : list frame) : result Kernel :=
  c ← get (chans k) ch;
  match buzon c with
  | [] => Err AssertFail
  | m :: _ => go k (currentThread k) [SendLoop ch m; DoRelease (ch_lock c)] rest
  end.
Definition Send_loop (k : Kernel) (ch msg : Z) (rest : list frame) : result Kernel :=
  let me := currentThread k in
  c ← get (chans k) ch;
  match buzon c with
  | m :: _ =>
      if bool_decide (msg = m) then go k me [DoWait (forSenders c); SendLoop ch msg] rest else go k me [] rest
  | [] => go k me [] rest
  end.
Definition Receive (k : Kernel) (ch : Z) (rest : list frame) : result Kernel :=
  c ← get (chans k) ch;
  go k (currentThread k) [DoAcquire (ch_lock c); ReceiveLoop ch] rest.
Definition Receive_loop (k : Kernel) (ch : Z) (rest : list frame) : result Kernel :=
  let me := currentThread k in
  c ← get (chans k) ch;
  match buzon c with
  | [] => go k me [DoWait (forReceivers c); ReceiveLoop ch] rest
  | m :: b =>
      let k := set_chans k (<[ch := mkChan b (ch_lock c) (forSenders c) (forReceivers c)]> (chans k)) in
      k ← update k me (λ th, with_received th m);
      go k me [DoSignal (forSenders c); DoRelease (ch_lock c)] rest
  end.

(** *** Synchronized lists *)
Definition SynchList_Append (k : Kernel) (sl x : Z) (rest : list frame) : result Kernel :=
  c ← get (lists k) sl;
  go k (currentThread k) [DoAcquire (sl_lock c); ListAppend sl x; DoSignal (listEmpty c); DoRelease (sl_lock c)] rest.
Definition list_append (k : Kernel) (sl x : Z) (rest : list frame) : result Kernel :=
  c ← get (lists k) sl;
  let k' := set_lists k (<[sl := mkSynchList (sl_list c ++ [x]) (sl_lock c) (listEmpty c)]> (lists k)) in
  go k' (currentThread k) [] rest.
Definition SynchList_Pop (k : Kernel) (sl : Z) (rest : list frame) : result Kernel :=
  c ← get (lists k) sl;
  go k (currentThread k) [DoAcquire (sl_lock c); ListPopLoop sl] rest.
Definition list_pop (k : Kernel) (sl : Z) (rest : list frame) : result Kernel :=
  let me := currentThread k in
  c ← get (lists k) sl;
  match sl_list c with
  | [] => go k me [DoWait (listEmpty c); ListPopLoop sl] rest
  | x :: b =>
      let k := set_lists k (<[sl := mkSynchList b (sl_lock c) (listEmpty c)]> (lists k)) in
      k ← update k me (λ th, with_received th x);
      go k me [DoRelease (sl_lock c)] rest
  end.

(** *** Threads *)
Definition Thread_Yield (k : Kernel) (rest : list frame) : result Kernel :=
  k ← go k (currentThread k) [] rest; Yield k.
Definition Join (k : Kernel) (t : Z) (rest : list frame) : result Kernel :=
  th ← get (threads k) t;
  _ ← ASSERT (joinable th);
  go k (currentThread k) [DoReceive (joinChannel th); JoinYield] rest.
Definition Join_yield (k : Kernel) (rest : list frame) : result Kernel :=
  let me := currentThread k in
  th ← get (threads k) me;
  k ← go k me [] rest;
  if bool_decide (spaceId th = 0) && negb (bool_decide (readyList k = [])) then Yield k else Ok k.
Definition Finish (k : Kernel) (st : Z) : result Kernel :=
  let me := currentThread k in
  th ← get (threads k) me;
  if joinable th then set_code k me [DoSend (joinChannel th) st; FinishSleep]
  else set_code k me [FinishSleep].
Definition Finish_sleep (k : Kernel) : result Kernel :=
  let me := currentThread k in
  k ← set_code k me [Dead];
  Sleep (set_destroyed k (Some me)).

Definition exec_frame (k : Kernel) (f : frame) (rest : list frame) : result Kernel :=
  match f with
  | DoP s => P k s rest
  | DoV s => Semaphore_V k s rest
  | DoAcquire l => Acquire k l rest
  | SetOwner l => set_owner k l rest
  | DoRelease l => Release k l rest
  | DoWait c => Wait k c rest
  | DoSignal c => Signal k c rest
  | DoBroadcast c => Broadcast k c rest
  | DoSend ch m => Send k ch m rest
  | SendAppend ch m => Send_append k ch m rest
  | SendHead ch => Send_head k ch rest
  | SendLoop ch msg => Send_loop k ch msg rest
  | DoReceive ch => Receive k ch rest
  | ReceiveLoop ch => Receive_loop k ch rest
  | DoListAppend sl x => SynchList_Append k sl x rest
  | ListAppend sl x => list_append k sl x rest
  | DoListPop sl => SynchList_Pop k sl rest
  | ListPopLoop sl => list_pop k sl rest
  | DoYield => Thread_Yield k rest
  | DoJoin t => Join k t rest
  | JoinYield => Join_yield k rest
  | DoFinish st => Finish k st
  | FinishSleep => Finish_sleep k
  | UserCode => Ok k
  | Dead => Err Undefined
  end.

(** Shows the body of the method of a frame. *)
Ltac unfold_frame H :=
  unfold exec_frame, Semaphore_V, Acquire, set_owner, Release, Wait, Signal, Broadcast, Send, Send_append, Send_head,
    Send_loop, Receive, Receive_loop, SynchList_Append, list_append, SynchList_Pop, list_pop, Thread_Yield, Join,
    Join_yield, Finish, Finish_sleep, go in H; cbv zeta in H.

(** The current thread takes a step, if it runs and has something to do. *)
Definition exec (k : Kernel) : result Kernel :=
  th ← get (threads k) (currentThread k);
  match code th with
  | f :: rest => exec_frame k f rest
  | [] => Ok k
  end.
