(* ===== verification/Scheduling.v ===== *)
(** * What holds in every interleaving of threads

    A step relation over the operations of [Threads]: the running thread goes on
    or calls an operation, the timer preempts it, an interrupt handler signals a
    semaphore, a thread is forked, an idle machine dispatches a thread that
    became ready.  The invariants [sched_inv] (scheduler and semaphores) and
    [lock_inv] (locks) hold in every state that is reachable. *)

From S2P Require Import Prelude LinkedList Threads.
From stdpp Require Import sorting relations.
From stdpp Require Import base option list gmap fin_maps numbers tactics.
From stdpp Require Import list.
Open Scope Z_scope.

(** ** Steps *)
Definition lock_sem (k : Kernel) (s : Z) : Prop :=
  ∃ l lk, locks k !! l = Some lk ∧ lk_sem lk = s.

(** What kernel code calls, on its own or for a user program; the semaphore of a lock is private to the lock. *)
Definition callable (k : Kernel) (f : frame) : Prop :=
  match f with
  | DoP s | DoV s => ¬ lock_sem k s
  | DoAcquire _ | DoRelease _ | DoWait _ | DoSignal _ | DoBroadcast _ | DoSend _ _ | DoReceive _
  | DoListAppend _ _ | DoListPop _ | DoYield | DoJoin _ | DoFinish _ | UserCode => True
  | _ => False
  end.

Definition running (k : Kernel) (th : Thread) : Prop :=
  threads k !! currentThread k = Some th ∧ th_status th = RUNNING.

Inductive step : Kernel → Kernel → Prop :=
| step_exec k th k' : running k th → exec k = Ok k' → step k k'
| step_call k th f k' : running k th → code th = [] ∨ head (code th) = Some UserCode → callable k f →
    set_code k (currentThread k) (f :: code th) = Ok k' → step k k'
| step_preempt k th k' : running k th → Yield k = Ok k' → step k k'
| step_interrupt k s k' : ¬ lock_sem k s → V k s = Ok k' → step k k'
| step_fork k th t isJoinable prio ch space func k' : running k th → threads k !! t = None →
    Forall (callable k) func →
    Fork (set_threads k (<[t := new_Thread isJoinable prio ch space]> (threads k))) t func = Ok k' →
    step k k'
| step_idle k th k' : threads k !! currentThread k = Some th → th_status th ≠ RUNNING →
    dispatch k = Ok k' → step k k'.

(** ** The scheduler and the semaphores *)

(** A thread that is in [P] and does not sleep there: it will look at the value. *)
Definition awake_in_P (s : Z) (th : Thread) : bool :=
  bool_decide (th_status th ≠ BLOCKED) && bool_decide (head (code th) = Some (DoP s)).
Definition awake (s : Z) (m : gmap Z Thread) : nat :=
  size (filter (λ p, awake_in_P s p.2 = true) m).

(** [o] is a thread that was taken from the ready list and does not run yet. *)
Record sched_inv (o : option Z) (k : Kernel) : Prop := {
  si_current : is_Some (threads k !! currentThread k);
  si_running t th : threads k !! t = Some th → th_status th = RUNNING → t = currentThread k;
  si_nodup : NoDup (readyList k).*2;
  si_ready key t : (key, t) ∈ readyList k ↔ o ≠ Some t ∧ ∃ th, threads k !! t = Some th ∧
    th_status th = READY ∧ key = s32 (priority th);
  si_flight t : o = Some t → ∃ th, threads k !! t = Some th ∧ th_status th = READY;
  si_order : ListSpec.decreasing (readyList k);
  si_queue s sem t : sems k !! s = Some sem → t ∈ sem_queue sem →
    ∃ th rest, threads k !! t = Some th ∧ th_status th = BLOCKED ∧ code th = DoP s :: rest;
  si_queue_nodup s sem : sems k !! s = Some sem → NoDup (sem_queue sem);
  si_blocked t th : threads k !! t = Some th → th_status th = BLOCKED →
    code th = [Dead] ∨ ∃ s rest sem, code th = DoP s :: rest ∧ sems k !! s = Some sem ∧ t ∈ sem_queue sem;
  si_dead t th : threads k !! t = Some th → Dead ∈ code th → th_status th = BLOCKED ∧ code th = [Dead];
  si_destroyed d : threadToBeDestroyed k = Some d →
    ∃ th, threads k !! d = Some th ∧ code th = [Dead];
  si_value s sem : sems k !! s = Some sem → 0 ≤ value sem;
  si_wakeup s sem : sems k !! s = Some sem →
    sem_queue sem = [] ∨ value sem ≤ Z.of_nat (awake s (threads k))
}.

(** ** Counting *)
Definition b2n (b : bool) : nat := if b then 1 else 0.

Lemma awake_insert_new s m t th : m !! t = None →
  awake s (<[t := th]> m) = (awake s m + b2n (awake_in_P s th))%nat.
Proof.
  intros Hn. unfold awake. destruct (awake_in_P s th) eqn:E; cbn.
  - rewrite map_filter_insert_True by done. rewrite map_size_insert_None; [lia|].
    apply map_lookup_filter_None. by left.
  - rewrite map_filter_insert_False by (cbn; congruence). rewrite delete_id by done. lia.
Qed.

Lemma awake_delete s m t th : m !! t = Some th →
  (awake s (delete t m) + b2n (awake_in_P s th))%nat = awake s m.
Proof.
  intros Hl. pose proof (awake_insert_new s (delete t m) t th (lookup_delete_eq m t)) as E.
  by rewrite insert_delete_id in E.
Qed.

Lemma awake_update s m t th th' : m !! t = Some th →
  (awake s (<[t := th']> m) + b2n (awake_in_P s th) = awake s m + b2n (awake_in_P s th'))%nat.
Proof.
  intros Hl. pose proof (awake_insert_new s (delete t m) t th' (lookup_delete_eq m t)) as E.
  rewrite insert_delete_eq in E. pose proof (awake_delete s m t th Hl). lia.
Qed.

(** Replacing a thread that is not in [P], or by one that is in the same [P], does
    not lower the number. *)
Lemma awake_mono s m t th th' : m !! t = Some th →
  (awake_in_P s th = true → awake_in_P s th' = true) → (awake s m ≤ awake s (<[t := th']> m))%nat.
Proof.
  intros Hl Hi. pose proof (awake_update s m t th th' Hl).
  destruct (awake_in_P s th), (awake_in_P s th'); cbn in *; lia.
Qed.

(** ** Scheduler operations keep the invariant *)
Lemma get_ok {A} (m : gmap Z A) p x : m !! p = Some x → get m p = Ok x.
Proof. unfold get. by intros ->. Qed.

Lemma get_inv {A} (m : gmap Z A) p x : get m p = Ok x → m !! p = Some x.
Proof. unfold get. destruct (m !! p); naive_solver. Qed.

Lemma update_ok k t f th : threads k !! t = Some th →
  update k t f = Ok (set_threads k (<[t := f th]> (threads k))).
Proof. intros H. unfold update. by rewrite (get_ok _ _ _ H). Qed.

Lemma update_inv k t f k' : update k t f = Ok k' →
  ∃ th, threads k !! t = Some th ∧ k' = set_threads k (<[t := f th]> (threads k)).
Proof. unfold update. intros (th & H%get_inv & [= <-])%result_bind_ok. eauto. Qed.

(** A thread that is not blocked sleeps on no semaphore. *)
Lemma not_in_queue o k s sem t th : sched_inv o k → sems k !! s = Some sem → threads k !! t = Some th →
  th_status th ≠ BLOCKED → t ∉ sem_queue sem.
Proof.
  intros Hi Hs Ht Hb Hin. destruct (si_queue _ _ Hi _ _ _ Hs Hin) as (th' & rest & Ht' & Hb' & _). congruence.
Qed.

(** A change of a thread that does not sleep, and keeps its status and priority. *)
Lemma change_thread o k t th th' : sched_inv o k → threads k !! t = Some th →
  th_status th ≠ BLOCKED → th_status th' = th_status th → priority th' = priority th →
  Dead ∉ code th' → (∀ s, awake_in_P s th = true → awake_in_P s th' = true) →
  sched_inv o (set_threads k (<[t := th']> (threads k))).
Proof.
  intros Hi Ht Hb Hs Hp Hd Hh. split; cbn; try apply Hi.
  - destruct (decide (currentThread k = t)) as [->|].
    + rewrite lookup_insert_eq. by eexists.
    + rewrite lookup_insert_ne by done. apply Hi.
  - intros t2 th2. rewrite lookup_insert_Some. intros [[<- <-]|[_ H]].
    + rewrite Hs. by apply (si_running _ _ Hi).
    + by apply (si_running _ _ Hi).
  - intros key t2. rewrite (si_ready _ _ Hi). apply and_iff_compat_l. split; intros (x & Hx & Hr & Hk).
    + destruct (decide (t2 = t)) as [->|].
      * exists th'. rewrite lookup_insert_eq. assert (x = th) as -> by congruence. split_and!; congruence.
      * exists x. by rewrite lookup_insert_ne.
    + apply lookup_insert_Some in Hx as [[<- <-]|[_ Hx]]; [exists th; split_and!; congruence|by exists x].
  - intros t2 Ho. destruct (si_flight _ _ Hi t2 Ho) as (x & Hx & Hr). destruct (decide (t2 = t)) as [->|].
    + exists th'. rewrite lookup_insert_eq. split; congruence.
    + exists x. by rewrite lookup_insert_ne.
  - intros s sem t2 Hsem Hin. destruct (si_queue _ _ Hi _ _ _ Hsem Hin) as (x & rest & Hx & Hb' & Hc).
    exists x, rest. rewrite lookup_insert_ne; [done|]. intros ->. congruence.
  - intros t2 th2. rewrite lookup_insert_Some. intros [[<- <-]|[_ H]]; [congruence|]. by apply (si_blocked _ _ Hi).
  - intros t2 th2. rewrite lookup_insert_Some. intros [[<- <-]|[_ H]] Hin; [done|]. by apply (si_dead _ _ Hi _ _ H).
  - intros d Hdd. destruct (si_destroyed _ _ Hi d Hdd) as (x & Hx & Hc). exists x.
    rewrite lookup_insert_ne; [done|]. intros ->. assert (x = th) as -> by congruence.
    destruct (si_dead _ _ Hi _ _ Hx); [rewrite Hc; by left|done].
  - intros s sem Hsem. destruct (si_wakeup _ _ Hi _ _ Hsem) as [|Hw]; [by left|right].
    pose proof (awake_mono s (threads k) t th th' Ht) as Hm. etrans; [exact Hw|]. apply inj_le, Hm, Hh.
Qed.

(** Changes of objects that the scheduler does not know. *)
Lemma sched_inv_same o k k' : threads k' = threads k → readyList k' = readyList k →
  currentThread k' = currentThread k → threadToBeDestroyed k' = threadToBeDestroyed k → sems k' = sems k →
  sched_inv o k → sched_inv o k'.
Proof. intros E1 E2 E3 E4 E5 []. split; rewrite ?E1, ?E2, ?E3, ?E4, ?E5; done. Qed.

Lemma FindNextToRun_inv k t r key : sched_inv None k → readyList k = (key, t) :: r →
  FindNextToRun k = (Some t, set_ready k r) ∧ sched_inv (Some t) (set_ready k r).
Proof.
  intros Hi Hr. unfold FindNextToRun. rewrite Hr. split; [done|].
  pose proof (si_nodup _ _ Hi) as Hn. rewrite Hr in Hn. cbn in Hn. apply NoDup_cons in Hn as [Hni Hn].
  assert (Ht : ∃ th, threads k !! t = Some th ∧ th_status th = READY ∧ key = s32 (priority th)).
  { apply (si_ready _ _ Hi). rewrite Hr. by left. }
  split; cbn; try apply Hi; try done.
  - intros key2 t2. pose proof (si_ready _ _ Hi key2 t2) as H. rewrite Hr, elem_of_cons in H. split.
    + intros Hin. split; [|by apply H; right]. intros [= ->]. apply Hni.
      apply list_elem_of_fmap. by exists (key2, t2).
    + intros [Hne Hx]. destruct H as [_ H]. destruct H as [[= -> ->]|]; [done|congruence|done].
  - intros t2 [= <-]. destruct Ht as (th & ? & ? & _). by exists th.
  - pose proof (si_order _ _ Hi) as Ho. rewrite Hr in Ho. by apply StronglySorted_inv in Ho as [? _].
Qed.

(** The status of a thread that is in no queue changes. *)
Lemma ready_insert (rl : list (Z * Z)) t key : ListSpec.decreasing rl → NoDup rl.*2 → t ∉ rl.*2 →
  ListSpec.decreasing (ListSpec.sorted_insert_inverted rl t key) ∧
  NoDup (ListSpec.sorted_insert_inverted rl t key).*2 ∧
  ∀ key2 t2, (key2, t2) ∈ ListSpec.sorted_insert_inverted rl t key ↔ (key2 = key ∧ t2 = t) ∨ (key2, t2) ∈ rl.
Proof.
  intros Hd Hn Hni. pose proof (ListSpec.insert_by_perm Z.gtb key t rl) as Hp. split_and!.
  - by apply ListSpec.sorted_insert_inverted_decreasing.
  - unfold ListSpec.sorted_insert_inverted. rewrite Hp. cbn. by apply NoDup_cons.
  - intros. unfold ListSpec.sorted_insert_inverted. rewrite Hp, elem_of_cons. naive_solver.
Qed.

(** What semaphores may look like after thread [t] became ready. *)
Record sems_after (k : Kernel) (t : Z) (th : Thread) (m : gmap Z Semaphore) : Prop := {
  sf_dom s : is_Some (m !! s) ↔ is_Some (sems k !! s);
  sf_out s sem : m !! s = Some sem → t ∉ sem_queue sem;
  sf_nodup s sem : m !! s = Some sem → NoDup (sem_queue sem);
  sf_value s sem : m !! s = Some sem → 0 ≤ value sem;
  sf_others s sem sem0 u : m !! s = Some sem → sems k !! s = Some sem0 → u ≠ t →
    u ∈ sem_queue sem ↔ u ∈ sem_queue sem0;
  sf_wakeup s sem : m !! s = Some sem → sem_queue sem = [] ∨
    value sem ≤ Z.of_nat (awake s (<[t := with_status th READY]> (threads k)))
}.

Definition woken (k : Kernel) (t : Z) (th : Thread) (m : gmap Z Semaphore) : Kernel :=
  set_ready (set_threads (set_sems k m) (<[t := with_status th READY]> (threads k)))
    (ListSpec.sorted_insert_inverted (readyList k) t (s32 (priority th))).

Lemma wake_inv o k t th m : sched_inv o k → threads k !! t = Some th → th_status th ≠ READY →
  Dead ∉ code th → o ≠ Some t → sems_after k t th m → sched_inv o (woken k t th m).
Proof.
  intros Hi Ht Hs Hd Hot Hm.
  assert (Hni : t ∉ (readyList k).*2).
  { intros ([key t'] & -> & Hin)%list_elem_of_fmap. apply (si_ready _ _ Hi) in Hin as (_ & x & Hx & Hr & _).
    cbn in Ht, Hx. congruence. }
  destruct (ready_insert (readyList k) t (s32 (priority th)) (si_order _ _ Hi) (si_nodup _ _ Hi) Hni) as (R1 & R2 & R3).
  assert (Hlk : ∀ t2 th2, t2 ≠ t → <[t := with_status th READY]> (threads k) !! t2 = Some th2 ↔ threads k !! t2 = Some th2).
  { intros. by rewrite lookup_insert_ne. }
  split; cbn; try done.
  - destruct (decide (currentThread k = t)) as [->|]; [rewrite lookup_insert_eq; by eexists|].
    rewrite lookup_insert_ne by done. apply Hi.
  - intros t2 th2. rewrite lookup_insert_Some. intros [[<- <-]|[_ H]]; [done|]. by apply (si_running _ _ Hi).
  - intros key t2. rewrite R3, (si_ready _ _ Hi). destruct (decide (t2 = t)) as [->|Hne].
    + split.
      * intros [[-> _]|(_ & x & Hx & Hr & _)]; [|congruence]. split; [done|]. exists (with_status th READY).
        by rewrite lookup_insert_eq.
      * intros (_ & x & Hx & _ & ->). rewrite lookup_insert_eq in Hx. injection Hx as <-. by left.
    + split.
      * intros [[_ ?]|(? & x & Hx & ?)]; [done|]. split; [done|]. exists x. by rewrite Hlk.
      * intros (? & x & Hx & ?). right. split; [done|]. exists x. by rewrite <-Hlk.
  - intros t2 Ho. destruct (si_flight _ _ Hi t2 Ho) as (x & Hx & Hr). exists x. split; [|done].
    apply Hlk; [|done]. intros ->. by destruct Hot.
  - intros s sem t2 Hsem Hin. assert (Hne : t2 ≠ t) by (intros ->; by apply (sf_out _ _ _ _ Hm _ _ Hsem)).
    destruct (sf_dom _ _ _ _ Hm s) as [Hdom _]. destruct Hdom as [sem0 Hsem0]; [by eexists|].
    rewrite (sf_others _ _ _ _ Hm s sem sem0 t2) in Hin by done.
    destruct (si_queue _ _ Hi _ _ _ Hsem0 Hin) as (x & rest & Hx & ?). exists x, rest. by rewrite Hlk.
  - apply (sf_nodup _ _ _ _ Hm).
  - intros t2 th2. rewrite lookup_insert_Some. intros [[<- <-]|[Hne H]]; [done|]. intros Hb.
    destruct (si_blocked _ _ Hi _ _ H Hb) as [|(s & rest & sem0 & Hc & Hsem0 & Hin)]; [by left|right].
    destruct (sf_dom _ _ _ _ Hm s) as [_ Hdom]. destruct Hdom as [sem Hsem]; [by eexists|].
    exists s, rest, sem. split_and!; [done..|]. by apply (sf_others _ _ _ _ Hm s sem sem0 t2).
  - intros t2 th2. rewrite lookup_insert_Some. intros [[<- <-]|[_ H]] Hin; [done|]. by apply (si_dead _ _ Hi _ _ H).
  - intros d Hdd. destruct (si_destroyed _ _ Hi d Hdd) as (x & Hx & Hc). exists x. rewrite Hlk; [done|].
    intros ->. apply Hd. assert (x = th) as -> by congruence. rewrite Hc. by left.
  - apply (sf_value _ _ _ _ Hm).
  - apply (sf_wakeup _ _ _ _ Hm).
Qed.

Lemma ReadyToRun_eq k t th : threads k !! t = Some th → ReadyToRun k t = Ok (woken k t th (sems k)).
Proof.
  intros Ht. unfold ReadyToRun, SetStatus. rewrite (update_ok _ _ _ _ Ht). cbn [mbind result_bind].
  unfold GetPriority. cbn [threads set_threads]. unfold get. rewrite lookup_insert_eq. cbn. by destruct k.
Qed.

(** A thread that does not sleep: the semaphores stay as they are. *)
Lemma sems_after_same o k t th : sched_inv o k → threads k !! t = Some th → th_status th ≠ BLOCKED →
  sems_after k t th (sems k).
Proof.
  intros Hi Ht Hb. split; try done.
  - intros s sem Hs. by eapply not_in_queue.
  - apply (si_queue_nodup _ _ Hi).
  - apply (si_value _ _ Hi).
  - intros s sem sem0 u Hs Hs0 _. by assert (sem = sem0) as -> by congruence.
  - intros s sem Hs. destruct (si_wakeup _ _ Hi _ _ Hs) as [|Hw]; [by left|right].
    etrans; [exact Hw|]. apply inj_le, (awake_mono s _ t th); [done|]. unfold awake_in_P. cbn.
    rewrite !andb_true_iff, !bool_decide_eq_true. naive_solver.
Qed.

(** *** Deleting a thread that finished *)
Lemma delete_Thread_eq k d k' : delete_Thread k d = Ok k' →
  d ≠ currentThread k ∧ ∃ th ch, threads k !! d = Some th ∧ k' = set_chans (set_threads k (delete d (threads k))) ch.
Proof.
  unfold delete_Thread. intros (? & HA & H)%result_bind_ok. apply result_bind_ok in H as (th & Ht%get_inv & H).
  unfold ASSERT in HA. case_bool_decide; [|done]. split; [done|]. injection H as <-. exists th.
  destruct (joinable th); [by eexists|]. exists (chans k). by destruct k.
Qed.

Lemma delete_inv o k d th : sched_inv o k → threads k !! d = Some th → code th = [Dead] → d ≠ currentThread k →
  threadToBeDestroyed k = Some d →
  sched_inv o (set_destroyed (set_threads k (delete d (threads k))) None).
Proof.
  intros Hi Ht Hc Hcur Hdd. destruct (si_dead _ _ Hi _ _ Ht) as [Hb _]; [rewrite Hc; by left|].
  split; cbn; try apply Hi; try done.
  - rewrite lookup_delete_ne by done. apply Hi.
  - intros t2 th2 [_ H]%lookup_delete_Some. by apply (si_running _ _ Hi).
  - intros key t2. rewrite (si_ready _ _ Hi). apply and_iff_compat_l. split; intros (x & Hx & Hr & Hk).
    + exists x. rewrite lookup_delete_ne; [done|]. intros <-. congruence.
    + apply lookup_delete_Some in Hx as [_ Hx]. by exists x.
  - intros t2 Ho. destruct (si_flight _ _ Hi t2 Ho) as (x & Hx & Hr). exists x.
    rewrite lookup_delete_ne; [done|]. intros <-. congruence.
  - intros s sem t2 Hsem Hin. destruct (si_queue _ _ Hi _ _ _ Hsem Hin) as (x & rest & Hx & Hb' & Hc').
    exists x, rest. rewrite lookup_delete_ne; [done|]. intros <-. congruence.
  - intros t2 th2 [_ H]%lookup_delete_Some. by apply (si_blocked _ _ Hi).
  - intros t2 th2 [_ H]%lookup_delete_Some. by apply (si_dead _ _ Hi t2 th2 H).
  - intros s sem Hsem. destruct (si_wakeup _ _ Hi _ _ Hsem) as [|Hw]; [by left|right].
    pose proof (awake_delete s (threads k) d th Ht) as Ha. unfold awake_in_P in Ha. rewrite Hc in Ha. cbn in Ha.
    rewrite (bool_decide_false (Some Dead = Some (DoP s))), andb_false_r in Ha by done. cbn in Ha. lia.
Qed.

(** *** [Run] *)
Lemma Run_inv k t k' : sched_inv (Some t) k → (∀ u th, threads k !! u = Some th → th_status th ≠ RUNNING) →
  Run k t = Ok k' → sched_inv None k' ∧ currentThread k' = t.
Proof.
  intros Hi Hnr HR. destruct (si_flight _ _ Hi t eq_refl) as (th & Ht & Hrd).
  unfold Run, SetStatus in HR. rewrite (update_ok _ _ _ th) in HR by done. cbn [mbind result_bind] in HR.
  set (k1 := set_threads (set_current k t) (<[t := with_status th RUNNING]> (threads (set_current k t)))) in *.
  assert (Hi1 : sched_inv None k1 ∧ threads k1 !! t = Some (with_status th RUNNING)).
  { assert (Ht1 : threads k1 !! t = Some (with_status th RUNNING)) by apply lookup_insert_eq.
    split; [|done]. unfold k1 in *. split; cbn in *; try apply Hi; try done.
    - intros u x [[<- _]|[_ H]]%lookup_insert_Some Hx; [done|]. by destruct (Hnr u x H).
    - intros key u. rewrite (si_ready _ _ Hi). split.
      + intros [Hne (x & Hx & ?)]. split; [done|]. exists x. rewrite lookup_insert_ne; [done|congruence].
      + intros [_ (x & Hx & Hr & Hk)]. destruct (decide (u = t)) as [->|Hne].
        * rewrite lookup_insert_eq in Hx. injection Hx as <-. done.
        * rewrite lookup_insert_ne in Hx by done. split; [congruence|]. by exists x.
    - intros s sem u Hsem Hin. destruct (si_queue _ _ Hi _ _ _ Hsem Hin) as (x & rest & Hx & Hb & Hc).
      exists x, rest. rewrite lookup_insert_ne; [done|]. intros <-. congruence.
    - intros u x [[<- <-]|[_ H]]%lookup_insert_Some; [done|]. by apply (si_blocked _ _ Hi).
    - intros u x [[<- <-]|[_ H]]%lookup_insert_Some Hin; [|by apply (si_dead _ _ Hi _ _ H)]. cbn in Hin.
      destruct (si_dead _ _ Hi _ _ Ht Hin). congruence.
    - intros d Hd. destruct (si_destroyed _ _ Hi d Hd) as (x & Hx & Hc). exists x.
      rewrite lookup_insert_ne; [done|]. intros <-. destruct (si_dead _ _ Hi _ _ Hx); [rewrite Hc; by left|congruence].
    - intros s sem Hsem. destruct (si_wakeup _ _ Hi _ _ Hsem) as [|Hw]; [by left|right].
      etrans; [exact Hw|]. apply inj_le, (awake_mono s _ t th); [done|]. unfold awake_in_P. cbn.
      rewrite !andb_true_iff, !bool_decide_eq_true. naive_solver. }
  destruct Hi1 as [Hi1 Ht1]. unfold get in HR. rewrite Ht1 in HR. cbn [mbind result_bind] in HR.
  cbn [started with_status] in HR. destruct (started th).
  - change (threadToBeDestroyed k1) with (threadToBeDestroyed k) in HR.
    destruct (threadToBeDestroyed k) as [d|] eqn:Hd; [|by injection HR as <-].
    apply result_bind_ok in HR as (k2 & HR & [= <-]). destruct (delete_Thread_eq _ _ _ HR) as (Hne & x & ch & Hx & ->).
    destruct (si_destroyed _ _ Hi1 d Hd) as (y & Hy & Hc). split; [|done].
    eapply sched_inv_same; [..|by eapply (delete_inv None k1 d y)]; done.
  - rewrite (update_ok _ _ _ _ Ht1) in HR. injection HR as <-. split; [|done].
    eapply change_thread; try done. cbn. intros Hin. destruct (si_dead _ _ Hi _ _ Ht Hin). congruence.
Qed.

(** ** What scheduling leaves alone: the code of the threads, the values of the
    semaphores, who owns which lock. *)
Record quiet (k k' : Kernel) : Prop := {
  qt_thread t th' : threads k' !! t = Some th' →
    ∃ th, threads k !! t = Some th ∧ code th' = code th ∧ held th' = held th;
  qt_gone t th : threads k !! t = Some th → threads k' !! t = None → code th = [Dead];
  qt_sems s : value <$> sems k' !! s = value <$> sems k !! s;
  qt_locks l : (λ lk, (lk_sem lk, lockOwner lk)) <$> locks k' !! l
    = (λ lk, (lk_sem lk, lockOwner lk)) <$> locks k !! l
}.

#[export] Instance quiet_refl : Reflexive quiet.
Proof. intros k. split; try done; [eauto|congruence]. Qed.

#[export] Instance quiet_trans : Transitive quiet.
Proof.
  intros k1 k2 k3 [A1 A2 A3 A4] [B1 B2 B3 B4]. split.
  - intros t th' (th2 & H2 & ? & ?)%B1. destruct (A1 _ _ H2) as (th & ? & ? & ?). exists th. split_and!; congruence.
  - intros t th Ht Hn. destruct (threads k2 !! t) as [th2|] eqn:E; [|by eapply A2].
    destruct (A1 _ _ E) as (x & Hx & Hc & _). rewrite (B2 _ _ E Hn) in Hc. congruence.
  - intros s. by rewrite B3.
  - intros l. by rewrite B4.
Qed.

(** Replacing a thread by one with the same code. *)
Lemma quiet_threads k k' t th th' : threads k !! t = Some th → threads k' = <[t := th']> (threads k) →
  code th' = code th → held th' = held th → (∀ s, value <$> sems k' !! s = value <$> sems k !! s) →
  locks k' = locks k → quiet k k'.
Proof.
  intros Ht Hk Hc Hh Hs Hl. split; rewrite ?Hk, ?Hl; try done.
  - intros u x [[<- <-]|[_ H]]%lookup_insert_Some; eauto.
  - intros u x Hx [Hu _]%lookup_insert_None. congruence.
Qed.

Lemma quiet_same k k' : threads k' = threads k → sems k' = sems k → locks k' = locks k → quiet k k'.
Proof. intros E1 E2 E3. split; rewrite ?E1, ?E2, ?E3; try done; [eauto|congruence]. Qed.

Lemma Run_quiet k t k' : sched_inv (Some t) k → Run k t = Ok k' → quiet k k'.
Proof.
  intros Hi HR. destruct (si_flight _ _ Hi t eq_refl) as (th & Ht & Hrd).
  unfold Run, SetStatus in HR. rewrite (update_ok _ _ _ th) in HR by done. cbn [mbind result_bind] in HR.
  set (k1 := set_threads (set_current k t) (<[t := with_status th RUNNING]> (threads (set_current k t)))) in *.
  assert (Hq1 : quiet k k1) by (by eapply quiet_threads). etrans; [exact Hq1|].
  assert (Ht1 : threads k1 !! t = Some (with_status th RUNNING)) by apply lookup_insert_eq.
  unfold get in HR. rewrite Ht1 in HR. cbn [mbind result_bind started with_status] in HR. destruct (started th).
  - change (threadToBeDestroyed k1) with (threadToBeDestroyed k) in HR.
    destruct (threadToBeDestroyed k) as [d|] eqn:Hd; [|by injection HR as <-].
    apply result_bind_ok in HR as (k2 & HR & [= <-]). destruct (delete_Thread_eq _ _ _ HR) as (Hne & z & ch & _ & ->).
    destruct (si_destroyed _ _ Hi d Hd) as (x & Hx & Hc). split; try done.
    + cbn. intros u y [_ Hy]%lookup_delete_Some. eauto.
    + intros u y Hy Hn. cbn in Hn. apply lookup_delete_None in Hn as [<-|Hn];
        [|change (threads k1 !! u = None) in Hn; congruence].
      change (currentThread k1) with t in Hne. unfold k1 in Hy. cbn in Hy. rewrite lookup_insert_ne in Hy by done.
      congruence.
  - rewrite (update_ok _ _ _ _ Ht1) in HR. injection HR as <-. by eapply quiet_threads.
Qed.

Lemma woken_quiet k t th m : threads k !! t = Some th → (∀ s, value <$> m !! s = value <$> sems k !! s) →
  quiet k (woken k t th m).
Proof. intros Ht Hm. by eapply quiet_threads. Qed.

Lemma running_alive o k th : sched_inv o k → running k th → Dead ∉ code th.
Proof. intros Hi [Ht Hr] Hin. destruct (si_dead _ _ Hi _ _ Ht Hin). congruence. Qed.

(** *** [dispatch] when no thread runs *)
Lemma dispatch_inv k k' : sched_inv None k → (∀ u th, threads k !! u = Some th → th_status th ≠ RUNNING) →
  dispatch k = Ok k' → sched_inv None k' ∧ quiet k k'.
Proof.
  intros Hi Hnr HD. unfold dispatch in HD. destruct (readyList k) as [|[key t] r] eqn:Er.
  - unfold FindNextToRun in HD. rewrite Er in HD. injection HD as <-. done.
  - destruct (FindNextToRun_inv k t r key Hi Er) as [E Hi1]. rewrite E in HD.
    split; [by apply (Run_inv _ _ _ Hi1 Hnr HD)|].
    etrans; [|by eapply Run_quiet]. by apply quiet_same.
Qed.

Lemma Yield_inv k th k' : sched_inv None k → running k th → Yield k = Ok k' → sched_inv None k' ∧ quiet k k'.
Proof.
  intros Hi Hrun HY. pose proof (running_alive _ _ _ Hi Hrun) as Hd. destruct Hrun as [Hc Hr].
  unfold Yield in HY. destruct (readyList k) as [|[key t] r] eqn:Er.
  - unfold FindNextToRun in HY. rewrite Er in HY. injection HY as <-. done.
  - destruct (FindNextToRun_inv k t r key Hi Er) as [E Hi1]. rewrite E in HY.
    change (currentThread (set_ready k r)) with (currentThread k) in HY.
    rewrite (ReadyToRun_eq _ _ th) in HY by done. cbn [mbind result_bind] in HY.
    destruct (si_flight _ _ Hi1 t eq_refl) as (x & Hx & Hxr). cbn in Hx.
    assert (Hi2 : sched_inv (Some t) (woken (set_ready k r) (currentThread k) th (sems (set_ready k r)))).
    { apply wake_inv; [done|done|congruence|done|congruence|].
      apply (sems_after_same _ _ _ _ Hi1); [done|congruence]. }
    split.
    + eapply (Run_inv _ _ _ Hi2); [|exact HY]. cbn. intros u y [[_ <-]|[Hne Hy]]%lookup_insert_Some; [done|].
      intros Hyr. apply Hne. symmetry. by apply (si_running _ _ Hi u y).
    + etrans; [|by eapply Run_quiet]. etrans; [|by apply woken_quiet]. by apply quiet_same.
Qed.

(** *** Blocking *)

(** The running thread blocks: on a semaphore with value 0, or at its end. *)
Lemma block_inv k th s sem rest : sched_inv None k → running k th → code th = DoP s :: rest →
  sems k !! s = Some sem → value sem = 0 →
  let k1 := set_threads (set_sems k (<[s := mkSem (value sem) (sem_queue sem ++ [currentThread k])]> (sems k)))
              (<[currentThread k := with_status th BLOCKED]> (threads k)) in
  sched_inv None k1 ∧ quiet k k1 ∧ ∀ u x, threads k1 !! u = Some x → th_status x ≠ RUNNING.
Proof.
  intros Hi [Hc Hr] Hcode Hs Hv k1. set (c := currentThread k) in *.
  assert (Hnr : ∀ u x, threads k1 !! u = Some x → th_status x ≠ RUNNING).
  { intros u x. cbn. intros [[_ <-]|[Hne Hx]]%lookup_insert_Some; [done|]. intros Hxr. apply Hne.
    symmetry. by apply (si_running _ _ Hi u x). }
  assert (Hcq : c ∉ sem_queue sem) by (eapply not_in_queue; [done..|congruence]).
  split; [|split; [|done]].
  - split; cbn; try apply Hi.
    + rewrite lookup_insert_eq. by eexists.
    + intros u x Hx Hxr. by destruct (Hnr u x Hx).
    + intros key u. rewrite (si_ready _ _ Hi). apply and_iff_compat_l. split; intros (x & Hx & Hxr & Hk).
      * exists x. rewrite lookup_insert_ne; [done|]. intros <-. congruence.
      * apply lookup_insert_Some in Hx as [[<- <-]|[_ Hx]]; [done|by exists x].
    + done.
    + intros s2 sem2 u [[<- <-]|[Hne Hs2]]%lookup_insert_Some Hin.
      * cbn in Hin. apply elem_of_app in Hin as [Hin| ->%list_elem_of_singleton].
        { destruct (si_queue _ _ Hi _ _ _ Hs Hin) as (x & r & Hx & ?). exists x, r.
          rewrite lookup_insert_ne; [done|]. intros <-. done. }
        exists (with_status th BLOCKED), rest. by rewrite lookup_insert_eq.
      * destruct (si_queue _ _ Hi _ _ _ Hs2 Hin) as (x & r & Hx & Hb & ?). exists x, r.
        rewrite lookup_insert_ne; [done|]. intros <-. congruence.
    + intros s2 sem2 [[<- <-]|[Hne Hs2]]%lookup_insert_Some; [|by apply (si_queue_nodup _ _ Hi s2)].
      cbn. apply NoDup_app. split_and!; [by apply (si_queue_nodup _ _ Hi s)| |apply NoDup_singleton].
      intros x Hx ->%list_elem_of_singleton. done.
    + intros u x [[<- <-]|[Hne Hx]]%lookup_insert_Some Hb.
      * right. exists s, rest. eexists. split; [done|]. split; [apply lookup_insert_eq|]. cbn.
        apply elem_of_app. right. by left.
      * destruct (si_blocked _ _ Hi _ _ Hx Hb) as [|(s2 & r & sem2 & Hcx & Hs2 & Hin)]; [by left|right].
        destruct (decide (s2 = s)) as [->|Hne2].
        { exists s, r. eexists. split; [done|]. split; [apply lookup_insert_eq|]. cbn.
          assert (sem2 = sem) as -> by congruence. apply elem_of_app. by left. }
        exists s2, r, sem2. by rewrite lookup_insert_ne.
    + intros u x [[<- <-]|[_ Hx]]%lookup_insert_Some Hin; [|by apply (si_dead _ _ Hi _ _ Hx)]. cbn in Hin.
      destruct (si_dead _ _ Hi _ _ Hc Hin). congruence.
    + intros d Hd. destruct (si_destroyed _ _ Hi d Hd) as (x & Hx & Hcx). exists x.
      rewrite lookup_insert_ne; [done|]. intros <-. congruence.
    + intros s2 sem2 [[<- <-]|[_ Hs2]]%lookup_insert_Some; [cbn; lia|by apply (si_value _ _ Hi s2)].
    + intros s2 sem2 [[<- <-]|[Hne Hs2]]%lookup_insert_Some; [right; cbn; lia|].
      destruct (si_wakeup _ _ Hi _ _ Hs2) as [|Hw]; [by left|right]. etrans; [exact Hw|].
      apply inj_le, (awake_mono s2 _ c th); [done|]. unfold awake_in_P at 1. rewrite Hcode. cbn.
      rewrite andb_true_iff, !bool_decide_eq_true. intros [_ [= ->]]. done.
  - eapply quiet_threads; try done. intros s2. cbn. destruct (decide (s2 = s)) as [->|].
    + by rewrite lookup_insert_eq, Hs.
    + by rewrite lookup_insert_ne.
Qed.

(** The running thread ends. *)
Lemma finish_inv k th : sched_inv None k → running k th → (∀ s, head (code th) ≠ Some (DoP s)) →
  let c := currentThread k in
  let k1 := set_destroyed (set_threads k (<[c := with_status (with_code th [Dead]) BLOCKED]> (threads k))) (Some c) in
  sched_inv None k1 ∧ ∀ u x, threads k1 !! u = Some x → th_status x ≠ RUNNING.
Proof.
  intros Hi [Hc Hr] Hh c k1. fold c in Hc.
  assert (Hnr : ∀ u x, threads k1 !! u = Some x → th_status x ≠ RUNNING).
  { intros u x. cbn. intros [[_ <-]|[Hne Hx]]%lookup_insert_Some; [done|]. intros Hxr. apply Hne.
    symmetry. by apply (si_running _ _ Hi u x). }
  split; [|done]. split; cbn; try apply Hi.
  - rewrite lookup_insert_eq. by eexists.
  - intros u x Hx Hxr. by destruct (Hnr u x Hx).
  - intros key u. rewrite (si_ready _ _ Hi). apply and_iff_compat_l. split; intros (x & Hx & Hxr & Hk).
    + exists x. rewrite lookup_insert_ne; [done|]. intros <-. congruence.
    + apply lookup_insert_Some in Hx as [[<- <-]|[_ Hx]]; [done|by exists x].
  - done.
  - intros s sem u Hs Hin. destruct (si_queue _ _ Hi _ _ _ Hs Hin) as (x & r & Hx & Hb & ?). exists x, r.
    rewrite lookup_insert_ne; [done|]. intros <-. congruence.
  - intros u x [[<- <-]|[Hne Hx]]%lookup_insert_Some Hb; [by left|]. by apply (si_blocked _ _ Hi).
  - intros u x [[<- <-]|[_ Hx]]%lookup_insert_Some Hin; [done|]. by apply (si_dead _ _ Hi _ _ Hx).
  - intros d [= <-]. eexists. split; [apply lookup_insert_eq|done].
  - intros s sem Hs. destruct (si_wakeup _ _ Hi _ _ Hs) as [|Hw]; [by left|right]. etrans; [exact Hw|].
    apply inj_le, (awake_mono s _ c th); [done|]. unfold awake_in_P at 1.
    rewrite andb_true_iff, !bool_decide_eq_true. intros [_ E]. by destruct (Hh s).
Qed.

(** *** Semaphores *)

(** The running thread takes a semaphore. *)
Lemma take_inv k th s sem rest : sched_inv None k → running k th → code th = DoP s :: rest →
  sems k !! s = Some sem → value sem ≠ 0 → Dead ∉ rest →
  sched_inv None (set_threads (set_sems k (<[s := mkSem (value sem - 1) (sem_queue sem)]> (sems k)))
    (<[currentThread k := with_code th rest]> (threads k))).
Proof.
  intros Hi [Hc Hr] Hcode Hs Hv Hd. set (c := currentThread k) in *.
  pose proof (si_value _ _ Hi _ _ Hs) as Hv0.
  assert (Hq : ∀ s2 sem2, <[s := mkSem (value sem - 1) (sem_queue sem)]> (sems k) !! s2 = Some sem2 →
    ∃ sem0, sems k !! s2 = Some sem0 ∧ sem_queue sem2 = sem_queue sem0).
  { intros s2 sem2 [[<- <-]|[_ H]]%lookup_insert_Some; eauto. }
  split; cbn; try apply Hi.
  - rewrite lookup_insert_eq. by eexists.
  - intros u x [[<- <-]|[_ Hx]]%lookup_insert_Some; [done|]. by apply (si_running _ _ Hi).
  - intros key u. rewrite (si_ready _ _ Hi). apply and_iff_compat_l. split; intros (x & Hx & Hxr & Hk).
    + exists x. rewrite lookup_insert_ne; [done|]. intros <-. congruence.
    + apply lookup_insert_Some in Hx as [[<- <-]|[_ Hx]]; [|by exists x]. cbn in Hxr. congruence.
  - done.
  - intros s2 sem2 u Hs2 Hin. destruct (Hq _ _ Hs2) as (sem0 & Hs0 & E). rewrite E in Hin.
    destruct (si_queue _ _ Hi _ _ _ Hs0 Hin) as (x & r & Hx & Hb & ?). exists x, r.
    rewrite lookup_insert_ne; [done|]. intros <-. congruence.
  - intros s2 sem2 Hs2. destruct (Hq _ _ Hs2) as (sem0 & Hs0 & ->). by apply (si_queue_nodup _ _ Hi s2).
  - intros u x [[<- <-]|[Hne Hx]]%lookup_insert_Some Hb; [cbn in Hb; congruence|].
    destruct (si_blocked _ _ Hi _ _ Hx Hb) as [|(s2 & r & sem2 & Hcx & Hs2 & Hin)]; [by left|right].
    destruct (decide (s2 = s)) as [->|Hne2].
    + exists s, r. eexists. split; [done|]. split; [apply lookup_insert_eq|]. cbn. congruence.
    + exists s2, r, sem2. by rewrite lookup_insert_ne.
  - intros u x [[<- <-]|[_ Hx]]%lookup_insert_Some Hin; [done|by apply (si_dead _ _ Hi _ _ Hx)].
  - intros d Hdd. destruct (si_destroyed _ _ Hi d Hdd) as (x & Hx & Hcx). exists x.
    rewrite lookup_insert_ne; [done|]. intros <-. congruence.
  - intros s2 sem2 [[<- <-]|[_ Hs2]]%lookup_insert_Some; [cbn; lia|by apply (si_value _ _ Hi s2)].
  - intros s2 sem2 Hs2. pose proof (awake_update s2 (threads k) c th (with_code th rest) Hc) as Ha.
    assert (Hth : awake_in_P s2 th = bool_decide (s2 = s)).
    { unfold awake_in_P. rewrite Hcode, Hr. cbn. rewrite (bool_decide_true (RUNNING ≠ BLOCKED)) by done. cbn.
      apply bool_decide_ext. naive_solver. }
    rewrite Hth in Ha. apply lookup_insert_Some in Hs2 as [[<- <-]|[Hne Hs2]]; cbn.
    + rewrite (bool_decide_true (s = s)) in Ha by done. cbn in Ha.
      destruct (si_wakeup _ _ Hi _ _ Hs) as [|Hw]; [by left|right]. lia.
    + rewrite (bool_decide_false (s2 = s)) in Ha by done. cbn in Ha.
      destruct (si_wakeup _ _ Hi _ _ Hs2) as [|Hw]; [by left|right]. lia.
Qed.

Lemma P_inv k th s rest k' : sched_inv None k → running k th → code th = DoP s :: rest → P k s rest = Ok k' →
  sched_inv None k' ∧ ∃ sem, sems k !! s = Some sem ∧
    (value sem = 0 ∧ quiet k k' ∨ 0 < value sem ∧
     k' = set_threads (set_sems k (<[s := mkSem (value sem - 1) (sem_queue sem)]> (sems k)))
            (<[currentThread k := with_code th rest]> (threads k))).
Proof.
  intros Hi Hrun Hcode HP. unfold P in HP. apply result_bind_ok in HP as (sem & Hs%get_inv & HP).
  pose proof (si_value _ _ Hi _ _ Hs) as Hv. case_bool_decide as Hz.
  - destruct (block_inv k th s sem rest Hi Hrun Hcode Hs Hz) as (Hi1 & Hq1 & Hn1).
    unfold Sleep, SetStatus in HP. rewrite (update_ok _ _ _ th) in HP by apply Hrun.
    cbn [mbind result_bind] in HP. destruct (dispatch_inv _ _ Hi1 Hn1 HP) as [Hi2 Hq2].
    split; [done|]. exists sem. split; [done|]. left. split; [done|]. by etrans.
  - rewrite bool_decide_true in HP by (unfold INT_MIN; lia).
    unfold set_code in HP. rewrite (update_ok _ _ _ th) in HP by apply Hrun. injection HP as <-.
    split; [|exists sem; split; [done|right; split; [lia|done]]].
    eapply (take_inv k th s sem rest); try done. intros Hin. eapply running_alive; [done..|].
    rewrite Hcode. by right.
Qed.

(** [V]: a waiting thread, if there is one, becomes ready, and the value grows. *)
Lemma V_inv o k s k' : sched_inv o k → V k s = Ok k' →
  sched_inv o k' ∧ ∃ sem q, sems k !! s = Some sem ∧ locks k' = locks k ∧
    sems k' = <[s := mkSem (value sem + 1) q]> (sems k) ∧
    (∀ t th', threads k' !! t = Some th' → ∃ th, threads k !! t = Some th ∧ code th' = code th ∧ held th' = held th) ∧
    (∀ t, is_Some (threads k !! t) → is_Some (threads k' !! t)).
Proof.
  intros Hi HV. unfold V in HV. apply result_bind_ok in HV as (sem & Hs%get_inv & HV).
  pose proof (si_value _ _ Hi _ _ Hs) as Hv. destruct (sem_queue sem) as [|t q] eqn:Eq.
  - cbn [mbind result_bind] in HV. rewrite (get_ok _ _ _ Hs) in HV. cbn [mbind result_bind] in HV.
    case_bool_decide; [|done]. injection HV as <-. split.
    + split; cbn; try apply Hi.
      * intros s2 sem2 u [[<- <-]|[_ Hs2]]%lookup_insert_Some; [cbn; rewrite Eq; by intros ?%elem_of_nil|].
        by apply (si_queue _ _ Hi).
      * intros s2 sem2 [[<- <-]|[_ Hs2]]%lookup_insert_Some; [cbn; rewrite Eq; constructor|].
        by apply (si_queue_nodup _ _ Hi s2).
      * intros u x Hx Hb. destruct (si_blocked _ _ Hi _ _ Hx Hb) as [|(s2 & r & sem2 & Hc & Hs2 & Hin)]; [by left|].
        right. exists s2, r. destruct (decide (s2 = s)) as [->|].
        { assert (sem2 = sem) as -> by congruence. rewrite Eq in Hin. by apply elem_of_nil in Hin. }
        exists sem2. by rewrite lookup_insert_ne.
      * intros s2 sem2 [[<- <-]|[_ Hs2]]%lookup_insert_Some; [cbn; lia|by apply (si_value _ _ Hi s2)].
      * intros s2 sem2 [[<- <-]|[_ Hs2]]%lookup_insert_Some; [by left|by apply (si_wakeup _ _ Hi s2)].
    + exists sem, (sem_queue sem). split_and!; try done. eauto.
  - assert (Hin : t ∈ sem_queue sem) by (rewrite Eq; by left).
    destruct (si_queue _ _ Hi _ _ _ Hs Hin) as (th & rest & Ht & Hb & Hcode).
    pose proof (si_queue_nodup _ _ Hi _ _ Hs) as Hn. rewrite Eq in Hn. apply NoDup_cons in Hn as [Hnq Hn].
    rewrite (ReadyToRun_eq _ _ th) in HV by done. cbn [mbind result_bind] in HV.
    unfold get in HV. cbn [sems woken set_ready set_threads set_sems] in HV. rewrite lookup_insert_eq in HV.
    cbn [mbind result_bind value sem_queue] in HV. case_bool_decide; [|done]. injection HV as <-.
    rewrite insert_insert_eq. set (m := <[s := mkSem (value sem + 1) q]> (sems k)).
    assert (Hm : sems_after k t th m).
    { split; unfold m.
      - intros s2. destruct (decide (s2 = s)) as [->|].
        + rewrite lookup_insert_eq, Hs. split; by eexists.
        + by rewrite lookup_insert_ne.
      - intros s2 sem2 [[<- <-]|[Hne Hs2]]%lookup_insert_Some; [done|]. intros Hin2.
        destruct (si_queue _ _ Hi _ _ _ Hs2 Hin2) as (x & r & Hx & _ & Hcx). congruence.
      - intros s2 sem2 [[<- <-]|[Hne Hs2]]%lookup_insert_Some; [done|by apply (si_queue_nodup _ _ Hi s2)].
      - intros s2 sem2 [[<- <-]|[Hne Hs2]]%lookup_insert_Some; [cbn; lia|by apply (si_value _ _ Hi s2)].
      - intros s2 sem2 sem0 u [[<- <-]|[Hne Hs2]]%lookup_insert_Some Hs0 Hu.
        + assert (sem0 = sem) as -> by congruence. rewrite Eq. cbn. rewrite elem_of_cons. naive_solver.
        + by assert (sem2 = sem0) as -> by congruence.
      - intros s2 sem2 Hs2. pose proof (awake_update s2 (threads k) t th (with_status th READY) Ht) as Ha.
        assert (E1 : awake_in_P s2 th = false).
        { unfold awake_in_P. rewrite Hb. by rewrite (bool_decide_false (BLOCKED ≠ BLOCKED)) by naive_solver. }
        assert (E2 : awake_in_P s2 (with_status th READY) = bool_decide (s2 = s)).
        { unfold awake_in_P. cbn. rewrite Hcode. cbn. apply bool_decide_ext. naive_solver. }
        rewrite E1, E2 in Ha. apply lookup_insert_Some in Hs2 as [[<- <-]|[Hne Hs2]]; cbn.
        + rewrite (bool_decide_true (s = s)) in Ha by done. cbn in Ha.
          destruct (si_wakeup _ _ Hi _ _ Hs) as [Hw|Hw]; [congruence|right; lia].
        + rewrite (bool_decide_false (s2 = s)) in Ha by done. cbn in Ha.
          destruct (si_wakeup _ _ Hi _ _ Hs2) as [|Hw]; [by left|right]. lia. }
    assert (Hal : Dead ∉ code th). { intros Hd. destruct (si_dead _ _ Hi _ _ Ht Hd). congruence. }
    assert (Hot : o ≠ Some t). { intros ->. destruct (si_flight _ _ Hi t eq_refl) as (x & ? & ?). congruence. }
    split; [by apply (wake_inv o k t th m); [|done|congruence|..]|].
    exists sem, q. split_and!; try done.
    + cbn. intros u x [[<- <-]|[_ Hx]]%lookup_insert_Some; eauto.
    + cbn. intros u Hu. destruct (decide (u = t)) as [->|]; [rewrite lookup_insert_eq; by eexists|].
      by rewrite lookup_insert_ne.
Qed.

(** *** Priorities *)
Lemma remove_sublist (rl : list (Z * Z)) t : sublist (ListSpec.remove rl t) rl.
Proof.
  induction rl as [|[key u] rl IH]; cbn; [constructor|]. case_decide; [|by constructor].
  apply sublist_cons. reflexivity.
Qed.

Lemma remove_elem (rl : list (Z * Z)) t key u : NoDup rl.*2 →
  (key, u) ∈ ListSpec.remove rl t ↔ (key, u) ∈ rl ∧ u ≠ t.
Proof.
  induction rl as [|[key1 u1] rl IH]; cbn; intros Hn.
  - split; [by intros ?%elem_of_nil|by intros [?%elem_of_nil _]].
  - apply NoDup_cons in Hn as [Hni Hn]. case_decide as E.
    + subst u1. rewrite elem_of_cons. split.
      * intros Hin. split; [by right|]. intros ->. apply Hni. apply list_elem_of_fmap. by exists (key, t).
      * intros [[[= -> ->]|Hin] Hne]; [done|done].
    + rewrite !elem_of_cons, IH by done. naive_solver.
Qed.

Lemma ready_remove (rl : list (Z * Z)) t : ListSpec.decreasing rl → NoDup rl.*2 →
  ListSpec.decreasing (ListSpec.remove rl t) ∧ NoDup (ListSpec.remove rl t).*2 ∧ t ∉ (ListSpec.remove rl t).*2.
Proof.
  intros Hd Hn. pose proof (remove_sublist rl t) as Hsub. split_and!.
  - unfold ListSpec.decreasing in *. clear Hn. induction Hsub as [|x l1 l2 Hs IH|x l1 l2 Hs IH].
    + constructor.
    + apply StronglySorted_inv in Hd as [Hd Ha]. constructor; [auto|].
      apply Forall_forall. intros y Hy. rewrite Forall_forall in Ha. apply Ha. by eapply elem_of_sublist.
    + apply StronglySorted_inv in Hd as [Hd _]. auto.
  - eapply sublist_NoDup; [exact Hn|]. by apply fmap_sublist.
  - intros ([key u] & -> & Hin)%list_elem_of_fmap. apply remove_elem in Hin as [_ Hne]; done.
Qed.

Lemma reprioritize_inv k t p k1 k2 : sched_inv None k → SetPriority k t p = Ok k1 → ModifyPriority k1 t = Ok k2 →
  sched_inv None k2 ∧ quiet k k2 ∧ currentThread k2 = currentThread k ∧ sems k2 = sems k ∧ locks k2 = locks k ∧
    ∃ th, threads k !! t = Some th ∧ threads k2 = <[t := with_priority th p]> (threads k).
Proof.
  intros Hi (th & Ht & ->)%update_inv HM.
  set (m := <[t := with_priority th p]> (threads k)) in *.
  assert (Hlk : ∀ u x, m !! u = Some x → ∃ x0, threads k !! u = Some x0 ∧ th_status x = th_status x0 ∧
    code x = code x0 ∧ (u ≠ t → x = x0)).
  { intros u x [[<- <-]|[Hne Hx]]%lookup_insert_Some; [by exists th|by exists x]. }
  assert (Hlk2 : ∀ u x0, threads k !! u = Some x0 → ∃ x, m !! u = Some x ∧ th_status x = th_status x0 ∧
    code x = code x0 ∧ (u ≠ t → x = x0)).
  { intros u x0 Hx. unfold m. destruct (decide (u = t)) as [->|Hne].
    - rewrite lookup_insert_eq. eexists. split; [done|]. assert (x0 = th) as -> by congruence. done.
    - rewrite lookup_insert_ne by done. by exists x0. }
  assert (HG : ∀ rl, ListSpec.decreasing rl → NoDup rl.*2 →
    (∀ key u, (key, u) ∈ rl ↔ ∃ x, m !! u = Some x ∧ th_status x = READY ∧ key = s32 (priority x)) →
    sched_inv None (set_ready (set_threads k m) rl)).
  { intros rl Hrd Hrn Hrl. split; cbn; try apply Hi; try done.
    - destruct (si_current _ _ Hi) as [x0 Hx0]. destruct (Hlk2 _ _ Hx0) as (x & ? & _). by exists x.
    - intros u x (x0 & Hx0 & Es & _)%Hlk Hr. rewrite Es in Hr. by apply (si_running _ _ Hi u x0).
    - intros key u. rewrite Hrl. naive_solver.
    - intros s sem u Hs Hin. destruct (si_queue _ _ Hi _ _ _ Hs Hin) as (x0 & r & Hx0 & Hb & Hc).
      destruct (Hlk2 _ _ Hx0) as (x & Hx & Es & Ec & _). exists x, r. split_and!; congruence.
    - intros u x (x0 & Hx0 & Es & Ec & _)%Hlk Hb. rewrite Es in Hb. rewrite Ec. by apply (si_blocked _ _ Hi).
    - intros u x (x0 & Hx0 & Es & Ec & _)%Hlk Hd. rewrite Es, Ec in *. by apply (si_dead _ _ Hi u x0).
    - intros d Hd. destruct (si_destroyed _ _ Hi d Hd) as (x0 & Hx0 & Hc).
      destruct (Hlk2 _ _ Hx0) as (x & Hx & _ & Ec & _). exists x. split; congruence.
    - intros s sem Hs. destruct (si_wakeup _ _ Hi _ _ Hs) as [|Hw]; [by left|right]. etrans; [exact Hw|].
      by apply inj_le, (awake_mono s _ t th). }
  assert (Hq : ∀ rl, quiet k (set_ready (set_threads k m) rl)).
  { intros rl. by eapply (quiet_threads k _ t th (with_priority th p)). }
  assert (Hr0 : ∀ key u, (key, u) ∈ readyList k ↔ ∃ x, threads k !! u = Some x ∧ th_status x = READY ∧ key = s32 (priority x)).
  { intros key u. rewrite (si_ready _ _ Hi). naive_solver. }
  unfold ModifyPriority in HM. cbn [readyList set_threads] in HM.
  destruct (ListSpec.has (readyList k) t) eqn:Eh.
  - unfold GetPriority, get in HM. cbn [threads set_threads] in HM.
    rewrite (lookup_insert_eq (threads k) t (with_priority th p) : m !! t = _) in HM. cbn [mbind result_bind priority with_priority] in HM. injection HM as <-.
    destruct (ready_remove (readyList k) t (si_order _ _ Hi) (si_nodup _ _ Hi)) as (D1 & D2 & D3).
    destruct (ready_insert _ t (s32 p) D1 D2 D3) as (E1 & E2 & E3).
    split; [|split; [apply Hq|by split_and!; [..|exists th]]]. apply HG; [done|done|].
    intros key u. rewrite E3, remove_elem, Hr0 by apply (si_nodup _ _ Hi).
    apply ListSpec.has_true in Eh as [key0 Hin%Hr0]. destruct Hin as (x & Hx & Hxr & _).
    assert (x = th) as -> by congruence. unfold m. destruct (decide (u = t)) as [->|Hne].
    + rewrite lookup_insert_eq. naive_solver.
    + rewrite lookup_insert_ne by done. naive_solver.
  - injection HM as <-. assert (Hnr : th_status th ≠ READY).
    { intros Hr. assert (ListSpec.has (readyList k) t = true); [|congruence].
      apply ListSpec.has_true. exists (s32 (priority th)). apply Hr0. by exists th. }
    replace (set_threads k m) with (set_ready (set_threads k m) (readyList k)) by (by destruct k).
    split; [|split; [apply Hq|by split_and!; [..|exists th]]].
    apply HG; [apply Hi|apply Hi|]. intros key u. rewrite Hr0. unfold m. destruct (decide (u = t)) as [->|Hne].
    + rewrite lookup_insert_eq. split.
      * intros (x & Hx & Hxr & _). congruence.
      * intros (x & [= <-] & Hxr & _). done.
    + by rewrite lookup_insert_ne.
Qed.

(** *** A new thread *)
Lemma fork_inv k t isJoinable prio ch space func k' : sched_inv None k → threads k !! t = None → Dead ∉ func →
  Fork (set_threads k (<[t := new_Thread isJoinable prio ch space]> (threads k))) t func = Ok k' →
  sched_inv None k' ∧ sems k' = sems k ∧ locks k' = locks k ∧ currentThread k' = currentThread k ∧
    ∃ th, threads k' = <[t := th]> (threads k) ∧ code th = func ++ [DoFinish 0] ∧ held th = ∅.
Proof.
  intros Hi Hn Hd HF. unfold Fork, set_code in HF.
  rewrite (update_ok _ _ _ (new_Thread isJoinable prio ch space)) in HF by apply lookup_insert_eq.
  cbn [mbind result_bind threads set_threads] in HF. rewrite insert_insert_eq in HF.
  set (th := with_code (new_Thread isJoinable prio ch space) (func ++ [DoFinish 0])) in *.
  set (k1 := set_threads _ (<[t := th]> (threads k))) in *.
  assert (Ht1 : threads k1 !! t = Some th) by apply lookup_insert_eq.
  rewrite (ReadyToRun_eq _ _ _ Ht1) in HF. injection HF as <-.
  assert (Hdt : Dead ∉ code th).
  { cbn. rewrite elem_of_app. intros [?|H%list_elem_of_singleton]; [done|discriminate H]. }
  assert (Hi1 : sched_inv None k1).
  { split; cbn; try apply Hi.
    - rewrite lookup_insert_ne; [apply Hi|]. destruct (si_current _ _ Hi). congruence.
    - intros u x [[<- <-]|[_ Hx]]%lookup_insert_Some; [done|by apply (si_running _ _ Hi)].
    - intros key u. rewrite (si_ready _ _ Hi). apply and_iff_compat_l. split; intros (x & Hx & Hxr & Hk).
      + exists x. rewrite lookup_insert_ne; [done|congruence].
      + apply lookup_insert_Some in Hx as [[<- <-]|[_ Hx]]; [done|by exists x].
    - done.
    - intros s sem u Hs Hin. destruct (si_queue _ _ Hi _ _ _ Hs Hin) as (x & r & Hx & ?). exists x, r.
      rewrite lookup_insert_ne; [done|congruence].
    - intros u x [[<- <-]|[_ Hx]]%lookup_insert_Some; [done|by apply (si_blocked _ _ Hi)].
    - intros u x [[<- <-]|[_ Hx]]%lookup_insert_Some; [done|by apply (si_dead _ _ Hi u x Hx)].
    - intros d Hdd. destruct (si_destroyed _ _ Hi d Hdd) as (x & Hx & ?). exists x.
      rewrite lookup_insert_ne; [done|congruence].
    - intros s sem Hs. destruct (si_wakeup _ _ Hi _ _ Hs) as [|Hw]; [by left|right].
      rewrite awake_insert_new by done. lia. }
  split; [|split_and!; try done].
  - apply wake_inv; try done. by apply (sems_after_same None k1).
  - exists (with_status th READY). split_and!; try done. cbn. by rewrite insert_insert_eq.
Qed.
