(* ===== verification/Locking.v ===== *)
(** * Locks, condition variables and every reachable state

    The mutual exclusion of [lock.cc] and the discipline under which kernel code
    uses the semaphores of locks ([lock_inv]), the semaphores of condition
    variables ([cond_inv]), and the induction over the step relation of
    [Scheduling]: the invariants hold in every state that is reachable from a
    state with idle objects and one running thread. *)

From S2P Require Import Prelude LinkedList Threads Scheduling.
From stdpp Require Import sorting relations.
From stdpp Require Import base option list gmap fin_maps numbers tactics.
From stdpp Require Import list.
Open Scope Z_scope.

(** ** Locks *)
Definition plain (k : Kernel) (f : frame) : Prop :=
  match f with
  | SetOwner _ => False
  | DoP s | DoV s => ¬ lock_sem k s
  | _ => True
  end.

(** The code of a thread uses the semaphore of a lock only inside [Acquire] and
    at the end of [Release]. *)
Inductive code_ok (k : Kernel) : list frame → Prop :=
| co_plain c : Forall (plain k) c → code_ok k c
| co_owner l c : Forall (plain k) c → code_ok k (SetOwner l :: c)
| co_acquire l lk c : locks k !! l = Some lk → Forall (plain k) c →
    code_ok k (DoP (lk_sem lk) :: SetOwner l :: c)
| co_release l lk c : locks k !! l = Some lk → Forall (plain k) c → code_ok k (DoV (lk_sem lk) :: c).

(** From the moment a thread has passed the semaphore until it signals it. *)
Definition holds (k : Kernel) (l : Z) (lk : Lock) (t : Z) : Prop :=
  lockOwner lk = Some t ∨ ∃ th, threads k !! t = Some th ∧
    (head (code th) = Some (SetOwner l) ∨ head (code th) = Some (DoV (lk_sem lk))).

(** The semaphore of a lock is 1 if no thread holds the lock, and 0 if exactly one
    does. *)
Definition lock_ok (k : Kernel) (l : Z) (lk : Lock) : Prop :=
  (∃ sem, sems k !! lk_sem lk = Some sem ∧
    (value sem = 1 ∧ (∀ t, ¬ holds k l lk t) ∨ value sem = 0 ∧ ∃ t, ∀ u, holds k l lk u ↔ u = t)) ∧
  (∀ t th, threads k !! t = Some th → head (code th) = Some (DoV (lk_sem lk)) → lockOwner lk = None).

Record lock_inv (k : Kernel) : Prop := {
  li_code t th : threads k !! t = Some th → code_ok k (code th);
  li_lock l lk : locks k !! l = Some lk → lock_ok k l lk;
  li_inj l1 l2 lk1 lk2 : locks k !! l1 = Some lk1 → locks k !! l2 = Some lk2 →
    lk_sem lk1 = lk_sem lk2 → l1 = l2;
  li_held t th l : threads k !! t = Some th → l ∈ held th →
    ∃ lk, locks k !! l = Some lk ∧ lockOwner lk = Some t
}.

(** The locks are the same, up to owners and priorities. *)
Definition same_locks (k k' : Kernel) : Prop := ∀ l, lk_sem <$> locks k' !! l = lk_sem <$> locks k !! l.

Lemma same_locks_inv k k' l lk' : same_locks k k' → locks k' !! l = Some lk' →
  ∃ lk, locks k !! l = Some lk ∧ lk_sem lk' = lk_sem lk.
Proof.
  intros Hl H. specialize (Hl l). rewrite H in Hl. cbn in Hl.
  destruct (locks k !! l) as [lk|]; [|done]. exists lk. naive_solver.
Qed.

Lemma same_locks_sym k k' : same_locks k k' → same_locks k' k.
Proof. intros H l. by rewrite H. Qed.

Lemma lock_sem_same k k' s : same_locks k k' → lock_sem k' s ↔ lock_sem k s.
Proof.
  assert (H : ∀ k k', same_locks k k' → lock_sem k' s → lock_sem k s).
  { intros k1 k2 Hl (l & lk' & Hl' & <-). destruct (same_locks_inv _ _ _ _ Hl Hl') as (lk & ? & ->). by exists l, lk. }
  split; [by apply H|]. apply H. by apply same_locks_sym.
Qed.

Lemma plain_same k k' f : same_locks k k' → plain k f → plain k' f.
Proof. intros Hl. destruct f; cbn; try done; by rewrite (lock_sem_same k k'). Qed.

Lemma code_ok_same k k' c : same_locks k k' → code_ok k c → code_ok k' c.
Proof.
  intros Hl Hc. assert (HF : ∀ c, Forall (plain k) c → Forall (plain k') c).
  { intros c0 H0. eapply Forall_impl; [exact H0|]. intros f. by apply plain_same. }
  destruct Hc as [c Hc|l c Hc|l lk c Hlk Hc|l lk c Hlk Hc].
  - apply co_plain; auto.
  - apply co_owner; auto.
  - destruct (same_locks_inv _ _ _ _ (same_locks_sym _ _ Hl) Hlk) as (lk' & Hlk' & ->). apply co_acquire; auto.
  - destruct (same_locks_inv _ _ _ _ (same_locks_sym _ _ Hl) Hlk) as (lk' & Hlk' & ->). apply (co_release _ l); auto.
Qed.

(** Behind a frame that is not about locks there is only plain code. *)
Lemma code_ok_plain k f rest : code_ok k (f :: rest) → plain k f → Forall (plain k) rest.
Proof.
  intros Hc Hf. inversion Hc as [c HF|l c HF|l lk c Hlk HF|l lk c Hlk HF]; subst.
  - by apply Forall_cons in HF as [_ ?].
  - done.
  - destruct Hf. by exists l, lk.
  - destruct Hf. by exists l, lk.
Qed.

(** All threads but [me] keep their code. *)
Record codes (k k' : Kernel) (me : Z) (th' : Thread) : Prop := {
  cd_me : threads k' !! me = Some th';
  cd_old u x' : u ≠ me → threads k' !! u = Some x' →
    ∃ x, threads k !! u = Some x ∧ code x' = code x ∧ held x' = held x;
  cd_gone u x : u ≠ me → threads k !! u = Some x → threads k' !! u = None → code x = [Dead]
}.

Lemma head_same k k' me th' u f : codes k k' me th' → u ≠ me → f ≠ Dead →
  (∃ x, threads k' !! u = Some x ∧ head (code x) = Some f) ↔ ∃ x, threads k !! u = Some x ∧ head (code x) = Some f.
Proof.
  intros Hc Hu Hf. split.
  - intros (x' & Hx' & Hh). destruct (cd_old _ _ _ _ Hc _ _ Hu Hx') as (x & Hx & Ec & _). exists x. by rewrite <-Ec.
  - intros (x & Hx & Hh). destruct (threads k' !! u) as [x'|] eqn:E.
    + destruct (cd_old _ _ _ _ Hc _ _ Hu E) as (y & Hy & Ec & _). exists x'. split; [done|]. congruence.
    + rewrite (cd_gone _ _ _ _ Hc _ _ Hu Hx E) in Hh. cbn in Hh. congruence.
Qed.

Lemma holds_other k k' me th' l lk lk' u : codes k k' me th' → u ≠ me → lk_sem lk' = lk_sem lk →
  (lockOwner lk' = Some u ↔ lockOwner lk = Some u) → holds k' l lk' u ↔ holds k l lk u.
Proof.
  intros Hc Hu Hs Ho. unfold holds. rewrite Hs, Ho.
  pose proof (head_same _ _ _ _ u (SetOwner l) Hc Hu ltac:(done)).
  pose proof (head_same _ _ _ _ u (DoV (lk_sem lk)) Hc Hu ltac:(done)). naive_solver.
Qed.

(** A lock that the step is not about. *)
Lemma lock_ok_other k k' me th th' l lk lk' : codes k k' me th' → threads k !! me = Some th →
  lk_sem lk' = lk_sem lk → lockOwner lk' = lockOwner lk →
  (head (code th') = Some (SetOwner l) ↔ head (code th) = Some (SetOwner l)) →
  (head (code th') = Some (DoV (lk_sem lk)) ↔ head (code th) = Some (DoV (lk_sem lk))) →
  (value <$> sems k' !! lk_sem lk) = (value <$> sems k !! lk_sem lk) →
  lock_ok k l lk → lock_ok k' l lk'.
Proof.
  intros Hc Hme Hs Ho H1 H2 Hv [(sem & Hsem & Hd) Hsig].
  assert (Hh : ∀ u, holds k' l lk' u ↔ holds k l lk u).
  { intros u. destruct (decide (u = me)) as [->|Hne].
    - unfold holds. rewrite Hs, Ho, (cd_me _ _ _ _ Hc), Hme. naive_solver.
    - eapply holds_other; try done. by rewrite Ho. }
  split.
  - rewrite Hs. rewrite Hsem in Hv. destruct (sems k' !! lk_sem lk) as [sem'|]; [|done]. injection Hv as Hv.
    exists sem'. split; [done|]. rewrite Hv. destruct Hd as [[? Hd]|[? (t & Ht)]]; [left|right].
    + split; [done|]. intros t. by rewrite Hh.
    + split; [done|]. exists t. intros u. by rewrite Hh.
  - rewrite Hs, Ho. intros u x' Hx' Hh'. destruct (decide (u = me)) as [->|Hne].
    + rewrite (cd_me _ _ _ _ Hc) in Hx'. injection Hx' as <-. apply (Hsig me th Hme). by apply H2.
    + destruct (cd_old _ _ _ _ Hc _ _ Hne Hx') as (x & Hx & Ec & _). apply (Hsig u x Hx). congruence.
Qed.

Lemma lock_inv_step k k' me th th' : lock_inv k → codes k k' me th' → threads k !! me = Some th →
  same_locks k k' → code_ok k (code th') →
  (∀ l lk', locks k' !! l = Some lk' → lock_ok k' l lk') →
  (∀ l, l ∈ held th' → ∃ lk', locks k' !! l = Some lk' ∧ lockOwner lk' = Some me) →
  (∀ l lk u, locks k !! l = Some lk → lockOwner lk = Some u → u ≠ me →
    ∃ lk', locks k' !! l = Some lk' ∧ lockOwner lk' = Some u) → lock_inv k'.
Proof.
  intros Hi Hc Hme Hl Hcode Hok Hheld Hown. split; [|done| |].
  - intros u x' Hx'. apply (code_ok_same k); [done|]. destruct (decide (u = me)) as [->|Hne].
    + by rewrite (cd_me _ _ _ _ Hc) in Hx'; injection Hx' as <-.
    + destruct (cd_old _ _ _ _ Hc _ _ Hne Hx') as (x & Hx & -> & _). by apply (li_code _ Hi u).
  - intros l1 l2 lk1 lk2 H1 H2 E. destruct (same_locks_inv _ _ _ _ Hl H1) as (a & Ha & E1).
    destruct (same_locks_inv _ _ _ _ Hl H2) as (b & Hb & E2). apply (li_inj _ Hi _ _ _ _ Ha Hb). congruence.
  - intros u x' l Hx' Hin. destruct (decide (u = me)) as [->|Hne].
    + rewrite (cd_me _ _ _ _ Hc) in Hx'. injection Hx' as <-. by apply Hheld.
    + destruct (cd_old _ _ _ _ Hc _ _ Hne Hx') as (x & Hx & _ & E). rewrite E in Hin.
      destruct (li_held _ Hi _ _ _ Hx Hin) as (lk & Hlk & Ho). by eapply Hown.
Qed.

Lemma quiet_locks k k' l lk' : quiet k k' → locks k' !! l = Some lk' →
  ∃ lk, locks k !! l = Some lk ∧ lk_sem lk' = lk_sem lk ∧ lockOwner lk' = lockOwner lk.
Proof.
  intros Hq Hl. pose proof (qt_locks _ _ Hq l) as E. rewrite Hl in E. cbn in E.
  destruct (locks k !! l) as [lk|]; [|done]. exists lk. naive_solver.
Qed.

Lemma quiet_same_locks k k' : quiet k k' → same_locks k k'.
Proof.
  intros Hq l. pose proof (qt_locks _ _ Hq l) as E.
  destruct (locks k' !! l), (locks k !! l); cbn in *; congruence.
Qed.

Lemma lock_inv_quiet k k' : quiet k k' → lock_inv k → lock_inv k'.
Proof.
  intros Hq Hi. pose proof (quiet_same_locks _ _ Hq) as Hl.
  assert (Hhd : ∀ u f, f ≠ Dead → (∃ x, threads k' !! u = Some x ∧ head (code x) = Some f) ↔
                                   ∃ x, threads k !! u = Some x ∧ head (code x) = Some f).
  { intros u f Hf. split.
    - intros (x' & Hx' & Hh). destruct (qt_thread _ _ Hq _ _ Hx') as (x & Hx & Ec & _). exists x. by rewrite <-Ec.
    - intros (x & Hx & Hh). destruct (threads k' !! u) as [x'|] eqn:E.
      + destruct (qt_thread _ _ Hq _ _ E) as (y & Hy & Ec & _). exists x'. split; [done|congruence].
      + rewrite (qt_gone _ _ Hq _ _ Hx E) in Hh. cbn in Hh. congruence. }
  split.
  - intros u x' Hx'. apply (code_ok_same k); [done|]. destruct (qt_thread _ _ Hq _ _ Hx') as (x & Hx & -> & _).
    by apply (li_code _ Hi u).
  - intros l lk' Hlk'. destruct (quiet_locks _ _ _ _ Hq Hlk') as (lk & Hlk & Es & Eo).
    destruct (li_lock _ Hi _ _ Hlk) as [(sem & Hsem & Hd) Hsig].
    assert (Hh : ∀ u, holds k' l lk' u ↔ holds k l lk u).
    { intros u. unfold holds. rewrite Es, Eo. pose proof (Hhd u (SetOwner l) ltac:(done)).
      pose proof (Hhd u (DoV (lk_sem lk)) ltac:(done)). naive_solver. }
    split.
    + rewrite Es. pose proof (qt_sems _ _ Hq (lk_sem lk)) as Hv. rewrite Hsem in Hv.
      destruct (sems k' !! lk_sem lk) as [sem'|]; [|done]. injection Hv as Hv. exists sem'. split; [done|].
      rewrite Hv. destruct Hd as [[? Hd]|[? (t & Ht)]]; [left|right].
      * split; [done|]. intros t. by rewrite Hh.
      * split; [done|]. exists t. intros u. by rewrite Hh.
    + rewrite Es, Eo. intros u x' Hx' Hh'. destruct (qt_thread _ _ Hq _ _ Hx') as (x & Hx & Ec & _).
      apply (Hsig u x Hx). congruence.
  - intros l1 l2 lk1 lk2 H1 H2 E. destruct (quiet_locks _ _ _ _ Hq H1) as (a & Ha & E1 & _).
    destruct (quiet_locks _ _ _ _ Hq H2) as (b & Hb & E2 & _). apply (li_inj _ Hi _ _ _ _ Ha Hb). congruence.
  - intros u x' l Hx' Hin. destruct (qt_thread _ _ Hq _ _ Hx') as (x & Hx & _ & E). rewrite E in Hin.
    destruct (li_held _ Hi _ _ _ Hx Hin) as (lk & Hlk & Ho).
    destruct (same_locks_inv _ _ _ _ (same_locks_sym _ _ Hl) Hlk) as (lk' & Hlk' & _).
    exists lk'. split; [done|]. destruct (quiet_locks _ _ _ _ Hq Hlk') as (lk0 & ? & _ & E0). congruence.
Qed.

(** ** Steps of the running thread *)
Lemma codes_set k k' me th' : threads k' = <[me := th']> (threads k) → codes k k' me th'.
Proof.
  intros E. split; rewrite E.
  - apply lookup_insert_eq.
  - intros u x' Hu Hx. rewrite lookup_insert_ne in Hx by done. eauto.
  - intros u x Hu Hx Hn. rewrite lookup_insert_ne in Hn by done. congruence.
Qed.

(** Code that is not inside [Acquire] or at the end of [Release]. *)
Definition plain_head (k : Kernel) (c : list frame) : Prop :=
  (∀ l, head c ≠ Some (SetOwner l)) ∧ (∀ l lk, locks k !! l = Some lk → head c ≠ Some (DoV (lk_sem lk))).

Lemma plain_head_ok k c : Forall (plain k) c → plain_head k c.
Proof.
  intros Hc. destruct Hc as [|f c Hf Hc]; [done|]. split.
  - intros l [= ->]. done.
  - intros l lk Hlk [= ->]. apply Hf. by exists l, lk.
Qed.

(** The code of the running thread, which is not in [P], is replaced. *)
Lemma set_code_inv k th c k' : sched_inv None k → lock_inv k → running k th →
  (∀ s, head (code th) ≠ Some (DoP s)) → plain_head k (code th) → Dead ∉ c → code_ok k c → plain_head k c →
  set_code k (currentThread k) c = Ok k' →
  sched_inv None k' ∧ lock_inv k' ∧ running k' (with_code th c).
Proof.
  intros Hi Hl [Hc Hr] Hp [Hh1 Hh2] Hd Hok [Hn1 Hn2] HS.
  unfold set_code in HS. rewrite (update_ok _ _ _ _ Hc) in HS. injection HS as <-. split; [|split].
  - eapply change_thread; try done.
    + congruence.
    + intros s. unfold awake_in_P. rewrite !andb_true_iff, !bool_decide_eq_true. intros [_ E]. by destruct (Hp s).
  - apply (lock_inv_step k _ (currentThread k) th (with_code th c)); try done; [by apply codes_set|..].
    + intros l lk Hlk. apply (lock_ok_other k _ (currentThread k) th (with_code th c) l lk lk); try done; [by apply codes_set| | |].
      * cbn. split; [by intros ?%Hn1|by intros ?%Hh1].
      * cbn. split; [by intros ?%(Hn2 l)|by intros ?%(Hh2 l)].
      * by apply (li_lock _ Hl).
    + intros l Hin. by apply (li_held _ Hl _ _ _ Hc).
    + intros l lk u Hlk Ho _. by exists lk.
  - split; [cbn; apply lookup_insert_eq|done].
Qed.

(** A frame that is not the loop of [P] is replaced by plain ones, or by the
    beginning of [Acquire]. *)
Lemma push_inv k th f rest c k' : sched_inv None k → lock_inv k → running k th → code th = f :: rest →
  plain k f → (∀ s, f ≠ DoP s) → Dead ∉ c → code_ok k c → plain_head k c →
  set_code k (currentThread k) c = Ok k' →
  sched_inv None k' ∧ lock_inv k' ∧ running k' (with_code th c).
Proof.
  intros Hi Hl Hrun Hcode Hf Hp Hd Hok Hn HS. apply (set_code_inv k); try done; rewrite Hcode.
  - intros s [= ->]. by destruct (Hp s).
  - split; [intros l [= ->]; done|]. intros l lk Hlk [= ->]. apply Hf. by exists l, lk.
Qed.

Lemma go_inv k th f rest fs k' : sched_inv None k → lock_inv k → running k th → code th = f :: rest →
  plain k f → (∀ s, f ≠ DoP s) → Dead ∉ fs → Forall (plain k) fs →
  set_code k (currentThread k) (fs ++ rest) = Ok k' →
  sched_inv None k' ∧ lock_inv k' ∧ running k' (with_code th (fs ++ rest)).
Proof.
  intros Hi Hl Hrun Hcode Hf Hp Hd Hfs HS.
  assert (Hall : Forall (plain k) (fs ++ rest)).
  { apply Forall_app. split; [done|]. eapply code_ok_plain; [|exact Hf]. rewrite <-Hcode.
    apply (li_code _ Hl _ _ (proj1 Hrun)). }
  pose proof (plain_head_ok _ _ Hall). pose proof (running_alive _ _ _ Hi Hrun) as Hal. rewrite Hcode in Hal.
  eapply push_inv; try done; [|by apply co_plain]. rewrite elem_of_app. intros [?|?]; [done|]. apply Hal. by right.
Qed.

(** *** [P] *)
Lemma P_lock_inv k th s rest k' : sched_inv None k → lock_inv k → running k th → code th = DoP s :: rest →
  P k s rest = Ok k' → lock_inv k'.
Proof.
  intros Hi Hl Hrun Hcode HP. destruct (P_inv _ _ _ _ _ Hi Hrun Hcode HP) as (_ & sem & Hs & [[_ Hq]|[Hv ->]]);
    [by eapply lock_inv_quiet|].
  destruct Hrun as [Hc Hr]. set (me := currentThread k) in *.
  set (k' := set_threads _ _). assert (Hcd : codes k k' me (with_code th rest)) by (by apply codes_set).
  pose proof (li_code _ Hl _ _ Hc) as Hok. rewrite Hcode in Hok.
  assert (Hother : ∀ l lk, locks k !! l = Some lk → lk_sem lk ≠ s →
    (head rest = Some (SetOwner l) → False) → (head rest = Some (DoV (lk_sem lk)) → False) → lock_ok k' l lk).
  { intros l lk Hlk Hne H1 H2. apply (lock_ok_other k k' me th (with_code th rest) l lk lk); try done.
    - cbn. rewrite Hcode. split; [by intros ?%H1|done].
    - cbn. rewrite Hcode. split; [by intros ?%H2|done].
    - cbn. by rewrite lookup_insert_ne.
    - by apply (li_lock _ Hl). }
  apply (lock_inv_step k k' me th (with_code th rest)); try done.
  - cbn. inversion Hok as [c HF|l c HF E|l lk c Hlk HF E|l lk c Hlk HF E]; subst.
    + apply co_plain. by apply Forall_cons in HF as [_ ?].
    + by apply co_owner.
  - cbn. intros l lk Hlk. inversion Hok as [c HF|l0 c HF E|l0 lk0 c Hlk0 HF E|l0 lk0 c Hlk0 HF E]; subst.
    + apply Forall_cons in HF as [Hns HF]. destruct (plain_head_ok _ _ HF) as [H1 H2].
      apply Hother; [done| |by intros ?%H1|by intros ?%(H2 l)]. intros <-. apply Hns. by exists l, lk.
    + destruct (decide (l = l0)) as [->|Hne].
      * assert (lk0 = lk) as -> by congruence. destruct (li_lock _ Hl _ _ Hlk) as [(sem' & Hs' & Hd) Hsig].
        assert (sem' = sem) as -> by congruence. destruct Hd as [[Hv1 Hnone]|[Hv0 _]]; [|lia].
        split.
        -- eexists. split; [cbn; apply lookup_insert_eq|]. right. cbn. split; [lia|]. exists me. intros u.
           destruct (decide (u = me)) as [->|Hu].
           ++ split; [done|]. intros _. right. eexists. split; [apply (cd_me _ _ _ _ Hcd)|]. by left.
           ++ rewrite (holds_other k k' me _ l0 lk lk u Hcd Hu) by done. split; [by intros ?%Hnone|done].
        -- intros u x' Hx' Hh. destruct (decide (u = me)) as [->|Hu].
           ++ rewrite (cd_me _ _ _ _ Hcd) in Hx'. injection Hx' as <-. done.
           ++ destruct (cd_old _ _ _ _ Hcd _ _ Hu Hx') as (x & Hx & Ec & _). apply (Hsig u x Hx). congruence.
      * apply Hother; [done| |by intros [= ->]|done]. intros E. apply Hne. by apply (li_inj _ Hl _ _ _ _ Hlk Hlk0).
  - cbn. intros l Hin. by apply (li_held _ Hl _ _ _ Hc).
  - intros l lk u Hlk Ho _. by exists lk.
Qed.

(** *** The end of [Acquire] *)
Lemma SetOwner_inv k th l lk rest th1 : sched_inv None k → lock_inv k → running k th → code th = SetOwner l :: rest →
  locks k !! l = Some lk → th1 = with_code (with_held th ({[l]} ∪ held th)) rest →
  let k' := set_threads (set_locks k (<[l := mkLock (lk_sem lk) (Some (currentThread k)) (oldPriority lk)]> (locks k)))
              (<[currentThread k := th1]> (threads k)) in
  sched_inv None k' ∧ lock_inv k'.
Proof.
  intros Hi Hl Hrun Hcode Hlk Eth k'. pose proof (running_alive _ _ _ Hi Hrun) as Hal. destruct Hrun as [Hc Hr].
  set (me := currentThread k) in *. rewrite Hcode in Hal.
  assert (Hrest : Forall (plain k) rest).
  { pose proof (li_code _ Hl _ _ Hc) as Hok. rewrite Hcode in Hok. inversion Hok as [c HF|l0 c HF| |]; subst; [|done].
    by apply Forall_cons in HF as [[] _]. }
  destruct (plain_head_ok _ _ Hrest) as [H1 H2].
  assert (Hcd : codes k k' me th1) by (by apply codes_set).
  assert (Hsl : same_locks k k').
  { intros l2. cbn. destruct (decide (l2 = l)) as [->|]; [by rewrite lookup_insert_eq, Hlk|by rewrite lookup_insert_ne]. }
  destruct (li_lock _ Hl _ _ Hlk) as [(sem & Hs & Hd) Hsig].
  assert (Hme : holds k l lk me) by (right; exists th; split; [done|left; by rewrite Hcode]).
  destruct Hd as [[_ Hn]|[Hv (t & Ht)]]; [by destruct (Hn me)|].
  assert (t = me) as -> by (symmetry; by apply Ht). split.
  - assert (Hi1 : sched_inv None (set_threads k (<[me := th1]> (threads k)))).
    { eapply change_thread; subst th1; try done; [congruence|cbn; intros ?; apply Hal; by right|].
      intros s. unfold awake_in_P. rewrite Hcode. cbn. rewrite !andb_true_iff, !bool_decide_eq_true. by intros [_ ?]. }
    by apply (sched_inv_same None _ k') in Hi1.
  - apply (lock_inv_step k k' me th th1); try done.
    + subst th1. by apply co_plain.
    + intros l2 lk2 Hlk2. cbn in Hlk2. apply lookup_insert_Some in Hlk2 as [[<- <-]|[Hne Hlk2]].
      * split.
        -- exists sem. split; [done|]. right. split; [done|]. exists me. intros u. destruct (decide (u = me)) as [->|Hu].
           ++ split; [done|]. intros _. by left.
           ++ split; [|done]. intros [[= ->]|Hh]; [done|]. apply Ht. right.
              destruct Hh as (x' & Hx' & Hh). destruct (cd_old _ _ _ _ Hcd _ _ Hu Hx') as (x & Hx & Ec & _).
              exists x. by rewrite <-Ec.
        -- intros u x' Hx' Hh. cbn in Hh. destruct (decide (u = me)) as [->|Hu].
           ++ rewrite (cd_me _ _ _ _ Hcd) in Hx'. injection Hx' as <-. subst th1. cbn in Hh. by destruct (H2 l lk Hlk).
           ++ destruct (cd_old _ _ _ _ Hcd _ _ Hu Hx') as (x & Hx & Ec & _). destruct Hu.
              apply Ht. right. exists x. split; [done|]. right. congruence.
      * apply (lock_ok_other k k' me th th1 l2 lk2 lk2); try done.
        -- subst th1. cbn. rewrite Hcode. split; [by intros ?%H1|intros [= ->]; done].
        -- subst th1. cbn. rewrite Hcode. split; [by intros ?%(H2 l2)|done].
        -- by apply (li_lock _ Hl).
    + subst th1. cbn. intros l2 [->%elem_of_singleton|Hin]%elem_of_union.
      * rewrite lookup_insert_eq. by eexists.
      * destruct (li_held _ Hl _ _ _ Hc Hin) as (lk2 & Hlk2 & Ho). destruct (decide (l2 = l)) as [->|].
        -- rewrite lookup_insert_eq. by eexists.
        -- exists lk2. by rewrite lookup_insert_ne.
    + intros l2 lk2 u Hlk2 Ho Hu. cbn. destruct (decide (l2 = l)) as [->|].
      * assert (lk2 = lk) as -> by congruence. destruct Hu. apply Ht. by left.
      * exists lk2. by rewrite lookup_insert_ne.
Qed.

(** *** [Release] up to the signal *)
Lemma Release_inv k th l lk rest th1 oldp : lock_inv k → running k th → code th = DoRelease l :: rest →
  locks k !! l = Some lk → lockOwner lk = Some (currentThread k) →
  code th1 = DoV (lk_sem lk) :: rest → held th1 = held th ∖ {[l]} →
  ∀ k', threads k' = <[currentThread k := th1]> (threads k) → sems k' = sems k →
    locks k' = <[l := mkLock (lk_sem lk) None oldp]> (locks k) → lock_inv k'.
Proof.
  intros Hl [Hc Hr] Hcode Hlk Ho Ec1 Eh1 k' Et Es El. set (me := currentThread k) in *.
  assert (Hrest : Forall (plain k) rest).
  { apply (code_ok_plain k (DoRelease l)); [|done]. rewrite <-Hcode. apply (li_code _ Hl _ _ Hc). }
  assert (Hcd : codes k k' me th1) by (by apply codes_set).
  assert (Hsl : same_locks k k').
  { intros l2. rewrite El. destruct (decide (l2 = l)) as [->|]; [by rewrite lookup_insert_eq, Hlk|by rewrite lookup_insert_ne]. }
  destruct (li_lock _ Hl _ _ Hlk) as [(sem & Hs & Hd) Hsig].
  assert (Hme : holds k l lk me) by (by left).
  destruct Hd as [[_ Hn]|[Hv (t & Ht)]]; [by destruct (Hn me)|].
  assert (t = me) as -> by (symmetry; by apply Ht).
  apply (lock_inv_step k k' me th th1); try done.
  - rewrite Ec1. by apply (co_release _ l).
  - intros l2 lk2. rewrite El. intros [[<- <-]|[Hne Hlk2]]%lookup_insert_Some.
    + split; [|done]. exists sem. rewrite Es. split; [done|]. right. split; [done|]. exists me.
      intros u. destruct (decide (u = me)) as [->|Hu].
      * split; [done|]. intros _. right. exists th1. split; [apply (cd_me _ _ _ _ Hcd)|]. right. by rewrite Ec1.
      * split; [|done]. intros [[=]|(x' & Hx' & Hh)]. apply Ht. right.
        destruct (cd_old _ _ _ _ Hcd _ _ Hu Hx') as (x & Hx & Ec & _). exists x. by rewrite <-Ec.
    + apply (lock_ok_other k k' me th th1 l2 lk2 lk2); try done.
      * rewrite Ec1, Hcode. by cbn.
      * rewrite Ec1, Hcode. cbn. split; [|done]. intros [= E]. destruct Hne. by apply (li_inj _ Hl _ _ _ _ Hlk Hlk2).
      * by rewrite Es.
      * by apply (li_lock _ Hl).
  - rewrite Eh1, El. intros l2 [Hin Hnl]%elem_of_difference. destruct (li_held _ Hl _ _ _ Hc Hin) as (lk2 & Hlk2 & Ho2).
    exists lk2. rewrite lookup_insert_ne; [done|]. intros <-. apply Hnl. by apply elem_of_singleton.
  - intros l2 lk2 u Hlk2 Ho2 Hu. rewrite El. exists lk2. rewrite lookup_insert_ne; [done|]. intros <-. congruence.
Qed.

(** *** [V] *)
Lemma V_codes o k s k' me th : sched_inv o k → V k s = Ok k' → threads k !! me = Some th →
  ∃ sem q th', sems k !! s = Some sem ∧ sems k' = <[s := mkSem (value sem + 1) q]> (sems k) ∧ locks k' = locks k ∧
    code th' = code th ∧ held th' = held th ∧ codes k k' me th'.
Proof.
  intros Hi HV Hme. destruct (V_inv _ _ _ _ Hi HV) as (_ & sem & q & Hs & El & Es & Ht & Hx).
  destruct (Hx me) as [th' Hth']; [by eexists|]. destruct (Ht _ _ Hth') as (x & Hx0 & Ec & Eh).
  assert (x = th) as -> by congruence. exists sem, q, th'. split_and!; try done. split; [done|eauto|].
  intros u y _ Hy Hn. destruct (Hx u) as [? Hy2]; [by eexists|]. congruence.
Qed.

(** A semaphore that belongs to no lock. *)
Lemma V_lock_inv k s k' : sched_inv None k → lock_inv k → ¬ lock_sem k s → V k s = Ok k' → lock_inv k'.
Proof.
  intros Hi Hl Hns HV. destruct (si_current _ _ Hi) as [th Hc]. set (me := currentThread k) in *.
  destruct (V_codes _ _ _ _ _ _ Hi HV Hc) as (sem & q & th' & Hs & Es & El & Ec & Eh & Hcd).
  apply (lock_inv_step k k' me th th'); try done.
  - intros l. by rewrite El.
  - rewrite Ec. by apply (li_code _ Hl me).
  - intros l lk. rewrite El. intros Hlk. apply (lock_ok_other k k' me th th' l lk lk); try done.
    + by rewrite Ec.
    + by rewrite Ec.
    + rewrite Es, lookup_insert_ne; [done|]. intros ->. apply Hns. by exists l, lk.
    + by apply (li_lock _ Hl).
  - rewrite Eh, El. intros l. by apply (li_held _ Hl).
  - intros l lk u Hlk Ho _. rewrite El. by exists lk.
Qed.

(** The running thread signals, and goes on with [rest]. *)
Lemma signal_inv k th s rest k1 k' : sched_inv None k → lock_inv k → running k th → code th = DoV s :: rest →
  set_code k (currentThread k) rest = Ok k1 → V k1 s = Ok k' → sched_inv None k' ∧ lock_inv k'.
Proof.
  intros Hi Hl Hrun Hcode HS HV. pose proof (running_alive _ _ _ Hi Hrun) as Hal. rewrite Hcode in Hal.
  destruct Hrun as [Hc Hr]. set (me := currentThread k) in *.
  unfold set_code in HS. rewrite (update_ok _ _ _ _ Hc) in HS. injection HS as <-.
  set (k1 := set_threads _ _) in *. set (th1 := with_code th rest).
  assert (Ht1 : threads k1 !! me = Some th1) by apply lookup_insert_eq.
  assert (Hi1 : sched_inv None k1).
  { eapply change_thread; try done; [congruence|cbn; intros ?; apply Hal; by right|].
    intros s2. unfold awake_in_P. rewrite Hcode. cbn. rewrite !andb_true_iff, !bool_decide_eq_true. by intros [_ ?]. }
  split; [by apply (V_inv _ _ _ _ Hi1 HV)|].
  destruct (V_codes _ _ _ _ _ _ Hi1 HV Ht1) as (sem & q & th' & Hs & Es & El & Ec & Eh & Hcd1). cbn in Hs, Es, El, Ec, Eh.
  assert (Hcd : codes k k' me th').
  { split; [apply Hcd1|..].
    - intros u x' Hu Hx'. destruct (cd_old _ _ _ _ Hcd1 _ _ Hu Hx') as (x & Hx & ?). exists x.
      unfold k1 in Hx. cbn in Hx. by rewrite lookup_insert_ne in Hx.
    - intros u x Hu Hx. apply (cd_gone _ _ _ _ Hcd1 u x Hu). unfold k1. cbn. by rewrite lookup_insert_ne. }
  assert (Hrest : Forall (plain k) rest).
  { pose proof (li_code _ Hl _ _ Hc) as Hok. rewrite Hcode in Hok.
    inversion Hok as [c HF| | |l0 lk0 c Hlk0 HF]; subst; [by apply Forall_cons in HF as [_ ?]|done]. }
  destruct (plain_head_ok _ _ Hrest) as [H1 H2].
  apply (lock_inv_step k k' me th th'); try done.
  - intros l. by rewrite El.
  - rewrite Ec. by apply co_plain.
  - intros l lk. rewrite El. intros Hlk. destruct (decide (lk_sem lk = s)) as [Hls|Hls].
    + destruct (li_lock _ Hl _ _ Hlk) as [(sem0 & Hs0 & Hd) Hsig].
      assert (Ho : lockOwner lk = None) by (apply (Hsig me th Hc); rewrite Hcode; cbn; congruence).
      assert (sem0 = sem) as -> by congruence.
      assert (Hme : holds k l lk me). { right. exists th. split; [done|]. right. rewrite Hcode. cbn. congruence. }
      destruct Hd as [[_ Hn]|[Hv (t & Ht)]]; [by destruct (Hn me)|]. split; [|done].
      exists (mkSem (value sem + 1) q). rewrite Es, Hls, lookup_insert_eq. split; [done|]. left. cbn. split; [lia|].
      intros u Hh. destruct (decide (u = me)) as [->|Hu].
      * destruct Hh as [Hh|(x & Hx & Hh)]; [congruence|]. rewrite (cd_me _ _ _ _ Hcd) in Hx. injection Hx as <-.
        rewrite Ec in Hh. destruct Hh as [?%H1|?%(H2 l)]; done.
      * apply (holds_other k k' me th' l lk lk u Hcd Hu) in Hh; [|done..]. destruct Hu.
        rewrite (proj1 (Ht u) Hh). symmetry. by apply Ht.
    + apply (lock_ok_other k k' me th th' l lk lk); try done.
      * rewrite Ec, Hcode. cbn. split; [by intros ?%H1|done].
      * rewrite Ec, Hcode. cbn. split; [by intros ?%(H2 l)|congruence].
      * by rewrite Es, lookup_insert_ne.
      * by apply (li_lock _ Hl).
  - rewrite Eh, El. intros l. by apply (li_held _ Hl).
  - intros l lk u Hlk Ho _. rewrite El. by exists lk.
Qed.

(** *** The beginning of [Acquire] *)
Lemma Acquire_inherit_inv k th l k' : sched_inv None k → running k th → Acquire_inherit k l = Ok k' →
  sched_inv None k' ∧ quiet k k' ∧ running k' th ∧ currentThread k' = currentThread k.
Proof.
  intros Hi Hrun HA. unfold Acquire_inherit in HA.
  apply result_bind_ok in HA as (lk & Hlk%get_inv & HA). apply result_bind_ok in HA as ([] & Hheld & HA).
  apply result_bind_ok in HA as (p & _ & HA). apply result_bind_ok in HA as (op & _ & HA).
  case_bool_decide; [|by injection HA as <-]. destruct (lockOwner lk) as [o|] eqn:Eo; [|done].
  apply result_bind_ok in HA as (k1 & HP & HM).
  assert (Ho : o ≠ currentThread k).
  { intros ->. unfold ASSERT, IsHeldByCurrentThread in Hheld. by rewrite Eo, bool_decide_true in Hheld. }
  set (k0 := set_locks k _) in *.
  assert (Hi0 : sched_inv None k0) by (by apply (sched_inv_same None k)).
  destruct (reprioritize_inv _ _ _ _ _ Hi0 HP HM) as (Hi2 & Hq & Hcur & _ & _ & x & Hx & Et).
  split_and!; [done| | |done].
  - etrans; [|exact Hq]. split; try done; [eauto|unfold k0; cbn; congruence|]. intros l2. cbn.
    destruct (decide (l2 = l)) as [->|]; [by rewrite lookup_insert_eq, Hlk; cbn; rewrite Eo|by rewrite lookup_insert_ne].
  - destruct Hrun as [Hc Hr]. split; [|done]. rewrite Hcur, Et. cbn. by rewrite lookup_insert_ne.
Qed.

(** *** A new semaphore *)
Lemma lock_inv_sems k k' : threads k' = threads k → locks k' = locks k →
  (∀ s, lock_sem k s → sems k' !! s = sems k !! s) → lock_inv k → lock_inv k'.
Proof.
  intros Et El Es Hl.
  assert (Hsl : same_locks k k') by (intros l; by rewrite El).
  split.
  - intros t th. rewrite Et. intros Ht. apply (code_ok_same k); [done|]. by apply (li_code _ Hl t).
  - intros l lk. rewrite El. intros Hlk. unfold lock_ok, holds. rewrite Et, Es by (by exists l, lk).
    by apply (li_lock _ Hl).
  - rewrite El. apply Hl.
  - rewrite Et, El. apply Hl.
Qed.

Lemma lock_sem_exists k s : lock_inv k → lock_sem k s → is_Some (sems k !! s).
Proof. intros Hl (l & lk & Hlk & <-). destruct (li_lock _ Hl _ _ Hlk) as [(sem & -> & _) _]. by eexists. Qed.

Lemma new_Semaphore_inv k s k' : sched_inv None k → lock_inv k → new_Semaphore k 0 = (s, k') →
  sched_inv None k' ∧ lock_inv k' ∧ ¬ lock_sem k' s ∧ threads k' = threads k ∧ currentThread k' = currentThread k ∧
    locks k' = locks k ∧ conds k' = conds k.
Proof.
  intros Hi Hl [= <- <-]. set (s := fresh (dom (sems k))).
  assert (Hs : sems k !! s = None) by apply not_elem_of_dom, is_fresh.
  assert (Hne : ¬ lock_sem k s). { intros [x Hx]%lock_sem_exists; [congruence|done]. }
  split_and!; try done.
  - assert (Hold : ∀ s2 sem, <[s := mkSem 0 []]> (sems k) !! s2 = Some sem →
      (value sem = 0 ∧ sem_queue sem = []) ∨ sems k !! s2 = Some sem).
    { intros s2 sem [[<- <-]|[_ ?]]%lookup_insert_Some; [by left|by right]. }
    split; cbn; try apply Hi.
    + intros s2 sem t [[_ Hq]|Hs2]%Hold Hin; [rewrite Hq in Hin; by apply elem_of_nil in Hin|by apply (si_queue _ _ Hi _ _ _ Hs2)].
    + intros s2 sem [[_ ->]|Hs2]%Hold; [constructor|by apply (si_queue_nodup _ _ Hi s2)].
    + intros t th Ht Hb. destruct (si_blocked _ _ Hi _ _ Ht Hb) as [|(s2 & r & sem & Hc & Hs2 & Hin)]; [by left|].
      right. exists s2, r, sem. rewrite lookup_insert_ne by congruence. done.
    + intros s2 sem [[-> _]|Hs2]%Hold; [done|by apply (si_value _ _ Hi s2)].
    + intros s2 sem [[_ ->]|Hs2]%Hold; [by left|by apply (si_wakeup _ _ Hi s2)].
  - apply (lock_inv_sems k); try done. intros s2 Hs2. cbn. rewrite lookup_insert_ne; [done|]. by intros <-.
Qed.

(** ** Condition variables *)

(** The semaphores on which threads wait belong to no lock. *)
Definition cond_inv (k : Kernel) : Prop :=
  ∀ c cd s, conds k !! c = Some cd → s ∈ cond_queue cd → ¬ lock_sem k s.

(** What only [Condition::Wait] changes. *)
Record static (k k' : Kernel) : Prop := { st_conds : conds k' = conds k; st_locks : same_locks k k' }.

#[export] Instance static_refl : Reflexive static.
Proof. by split. Qed.

#[export] Instance static_trans : Transitive static.
Proof. intros k1 k2 k3 [A1 A2] [B1 B2]. split; [congruence|]. intros l. by rewrite B2. Qed.

Lemma static_same k k' : conds k' = conds k → locks k' = locks k → static k k'.
Proof. intros E1 E2. split; [done|]. intros l. by rewrite E2. Qed.

Lemma static_cond_inv k k' : static k k' → cond_inv k → cond_inv k'.
Proof. intros [E Hl] Hc c cd s. rewrite E, (lock_sem_same k k') by done. apply Hc. Qed.

Lemma static_lock k k' l lk o p : locks k !! l = Some lk →
  static k k' → static k (set_locks k' (<[l := mkLock (lk_sem lk) o p]> (locks k'))).
Proof.
  intros Hlk [E Hl]. split; [done|]. intros l2. cbn. destruct (decide (l2 = l)) as [->|].
  - by rewrite lookup_insert_eq, Hlk.
  - by rewrite lookup_insert_ne.
Qed.

(** Splits a computation that returned into the results of its parts. *)
Ltac split_ok :=
  repeat match goal with
  | H : mbind _ _ = Ok _ |- _ =>
      let x := fresh "x" in let E := fresh "E" in apply result_bind_ok in H as (x & E & H)
  | H : Ok _ = Ok _ |- _ => injection H as <-
  | H : Err _ = Ok _ |- _ => discriminate H
  | H : (if ?b then _ else _) = Ok _ |- _ => destruct b
  | H : match ?x with _ => _ end = Ok _ |- _ => destruct x as []
  | H : (let '(_, _) := ?x in _) = Ok _ |- _ => destruct x as []
  end.

Lemma update_static k t f k' : update k t f = Ok k' → static k k'.
Proof. intros (? & _ & ->)%update_inv. by apply static_same. Qed.

Lemma ReadyToRun_static k t k' : ReadyToRun k t = Ok k' → static k k'.
Proof. unfold ReadyToRun. intros H. split_ok. etrans; [by eapply update_static|]. by apply static_same. Qed.

Lemma Run_static k t k' : Run k t = Ok k' → static k k'.
Proof.
  unfold Run, SetStatus. intros H.
  apply result_bind_ok in H as (k1 & (th & _ & ->)%update_inv & H). apply result_bind_ok in H as (x & _ & H).
  destruct (started x).
  - destruct (threadToBeDestroyed _); [|injection H as <-; by apply static_same].
    apply result_bind_ok in H as (k2 & (_ & ? & ch & _ & ->)%delete_Thread_eq & H). injection H as <-.
    by apply static_same.
  - apply update_inv in H as (y & _ & ->). by apply static_same.
Qed.

Lemma dispatch_static k k' : dispatch k = Ok k' → static k k'.
Proof.
  unfold dispatch, FindNextToRun. destruct (readyList k) as [|[? t] r]; intros H; [by split_ok|].
  apply Run_static in H. etrans; [|exact H]. by apply static_same.
Qed.

Lemma Yield_static k k' : Yield k = Ok k' → static k k'.
Proof.
  unfold Yield, FindNextToRun. destruct (readyList k) as [|[? t] r]; intros H; [by split_ok|].
  apply result_bind_ok in H as (k1 & H1%ReadyToRun_static & H2%Run_static).
  etrans; [|exact H2]. etrans; [|exact H1]. by apply static_same.
Qed.

Lemma Sleep_static k k' : Sleep k = Ok k' → static k k'.
Proof.
  unfold Sleep. intros (k1 & H1%update_static & H2%dispatch_static)%result_bind_ok. by etrans.
Qed.

Lemma P_static k s rest k' : P k s rest = Ok k' → static k k'.
Proof.
  unfold P. intros (sem & _ & H)%result_bind_ok. repeat case_bool_decide; [| |done].
  - apply Sleep_static in H. etrans; [|exact H]. by apply static_same.
  - apply update_static in H. etrans; [|exact H]. by apply static_same.
Qed.

Lemma V_static k s k' : V k s = Ok k' → static k k'.
Proof.
  unfold V. intros (sem & _ & H)%result_bind_ok. apply result_bind_ok in H as (k1 & H1 & H2).
  assert (static k k1).
  { destruct (sem_queue sem); [by injection H1 as <-|]. apply ReadyToRun_static in H1.
    etrans; [|exact H1]. by apply static_same. }
  clear H1. split_ok. etrans; [done|]. by apply static_same.
Qed.

Lemma ModifyPriority_static k t k' : ModifyPriority k t = Ok k' → static k k'.
Proof. unfold ModifyPriority. intros H. split_ok; [by apply static_same|done]. Qed.

Lemma Acquire_static k l k' : Acquire_inherit k l = Ok k' → static k k'.
Proof.
  unfold Acquire_inherit. intros (lk & Hlk%get_inv & H)%result_bind_ok.
  apply result_bind_ok in H as (? & _ & H). apply result_bind_ok in H as (p & _ & H).
  apply result_bind_ok in H as (op & _ & H). case_bool_decide; [|by injection H as <-].
  destruct (lockOwner lk) as [o|]; [|done]. apply result_bind_ok in H as (k1 & H1%update_static & H2%ModifyPriority_static).
  etrans; [|exact H2]. etrans; [|exact H1]. by eapply static_lock.
Qed.

Lemma Release_static k l k' : Release_restore k l = Ok k' → static k k'.
Proof.
  unfold Release_restore. intros (lk & Hlk%get_inv & H)%result_bind_ok.
  apply result_bind_ok in H as (? & _ & H). apply result_bind_ok in H as (p & _ & H).
  case_bool_decide; [|injection H as <-; by eapply static_lock].
  apply result_bind_ok in H as (k1 & H1%update_static & H2%ModifyPriority_static).
  etrans; [|exact H2]. etrans; [|exact H1]. by eapply static_lock.
Qed.
(** Goes back from the result of a computation to its beginning. *)
Ltac to_static H :=
  first [apply update_static in H | apply Yield_static in H | apply Sleep_static in H | apply P_static in H
        | apply V_static in H | apply Acquire_static in H | apply Release_static in H].
Ltac static_back :=
  repeat match goal with
  | H : _ = Ok ?b |- static _ ?b => to_static H; etrans; [|exact H]; clear H
  end.

Lemma exec_static k f rest k' : (∀ c, f ≠ DoWait c) → exec_frame k f rest = Ok k' → static k k'.
Proof.
  intros Hw H. destruct f; unfold_frame H; unfold set_code in H; try (by destruct (Hw c));
    split_ok; static_back; try (by apply static_same); try done.
  match goal with E : get _ _ = Ok _ |- _ => apply get_inv in E; by eapply static_lock end.
  match goal with E : update _ _ _ = Ok _ |- _ => apply update_static in E; etrans; [exact E|by apply static_same] end.
Qed.

Lemma wait_conds k c rest k' : lock_inv k → exec_frame k (DoWait c) rest = Ok k' → cond_inv k → cond_inv k'.
Proof.
  intros Hl H Hc. unfold_frame H. apply result_bind_ok in H as (cd & Hcd%get_inv & H).
  apply result_bind_ok in H as (lk & _ & H). apply result_bind_ok in H as (? & _ & H).
  destruct (new_Semaphore k 0) as [s k1] eqn:EN. apply update_inv in H as (th & _ & ->).
  unfold new_Semaphore in EN. injection EN as <- <-. clear x.
  assert (Hns : ¬ lock_sem k (fresh (dom (sems k)))).
  { intros [y Hy]%lock_sem_exists; [|done]. by apply (is_fresh (dom (sems k))), elem_of_dom. }
  intros c2 cd2 s2. cbn [conds set_conds set_threads set_sems]. intros [[<- <-]|[_ Hcd2]]%lookup_insert_Some; cbn [cond_queue]; [|intros Hin; exact (Hc _ _ _ Hcd2 Hin)].
  intros [Hin| ->%list_elem_of_singleton]%elem_of_app; [exact (Hc _ _ _ Hcd Hin)|done].
Qed.

(** ** The pieces of code of the running thread *)
Definition inv (k : Kernel) : Prop := sched_inv None k ∧ lock_inv k.

Ltac no_dead := repeat (apply not_elem_of_cons; split; [discriminate|]); apply not_elem_of_nil.

(** Changes that neither the scheduler nor the locks see. *)
Lemma same_inv k k' : threads k' = threads k → readyList k' = readyList k →
  currentThread k' = currentThread k → threadToBeDestroyed k' = threadToBeDestroyed k → sems k' = sems k →
  locks k' = locks k → inv k → inv k'.
Proof.
  intros E1 E2 E3 E4 E5 E6 [Hi Hl]. split; [by apply (sched_inv_same None k)|].
  apply (lock_inv_quiet k); [by apply quiet_same|done].
Qed.

(** The running thread records a result. *)
Lemma receive_inv k th m k' : inv k → running k th → update k (currentThread k) (λ th, with_received th m) = Ok k' →
  inv k' ∧ running k' (with_received th m) ∧ currentThread k' = currentThread k ∧ locks k' = locks k.
Proof.
  intros [Hi Hl] Hrun HU. pose proof (running_alive _ _ _ Hi Hrun) as Hal. destruct Hrun as [Hc Hr].
  rewrite (update_ok _ _ _ _ Hc) in HU. injection HU as <-. split_and!; try done.
  - split.
    + by eapply change_thread; try done; [congruence].
    + eapply lock_inv_quiet; [|exact Hl]. by eapply quiet_threads.
  - split; [cbn; apply lookup_insert_eq|done].
Qed.

Lemma acquire_step k th l rest k' : inv k → running k th → code th = DoAcquire l :: rest →
  exec_frame k (DoAcquire l) rest = Ok k' → inv k'.
Proof.
  intros [Hi Hl] Hrun Hcode H. unfold_frame H. apply result_bind_ok in H as (lk & Hlk%get_inv & H).
  apply result_bind_ok in H as (k1 & HA & H).
  destruct (Acquire_inherit_inv _ _ _ _ Hi Hrun HA) as (Hi1 & Hq & Hrun1 & Ec). rewrite <-Ec in H.
  pose proof (lock_inv_quiet _ _ Hq Hl) as Hl1.
  destruct (same_locks_inv _ _ _ _ (same_locks_sym _ _ (quiet_same_locks _ _ Hq)) Hlk) as (lk1 & Hlk1 & Es).
  assert (Hrest : Forall (plain k1) rest).
  { apply (code_ok_plain k1 (DoAcquire l)); [|done]. rewrite <-Hcode. apply (li_code _ Hl1 _ _ (proj1 Hrun1)). }
  pose proof (running_alive _ _ _ Hi1 Hrun1) as Hal. rewrite Hcode in Hal.
  destruct (push_inv k1 th (DoAcquire l) rest ([DoP (lk_sem lk); SetOwner l] ++ rest) k' Hi1 Hl1 Hrun1 Hcode)
    as (? & ? & _); try done.
  - cbn. rewrite !elem_of_cons. intros [?|[?|?]]; try done. apply Hal. by right.
  - cbn. rewrite Es. by apply co_acquire.
Qed.

Lemma release_step k th l rest k' : inv k → running k th → code th = DoRelease l :: rest →
  exec_frame k (DoRelease l) rest = Ok k' → inv k'.
Proof.
  intros [Hi Hl] Hrun Hcode H. unfold_frame H. apply result_bind_ok in H as (lk & Hlk%get_inv & H).
  apply result_bind_ok in H as (k1 & HR & H). apply result_bind_ok in H as (k2 & HU & HS).
  unfold Release_restore in HR. rewrite (get_ok _ _ _ Hlk) in HR. cbn [mbind result_bind] in HR.
  apply result_bind_ok in HR as ([] & Hheld & HR). apply result_bind_ok in HR as (p & _ & HR).
  assert (Ho : lockOwner lk = Some (currentThread k)).
  { unfold ASSERT, IsHeldByCurrentThread in Hheld. clear HR. by case_bool_decide. }
  set (k0 := set_locks k _) in *.
  assert (Hi0 : sched_inv None k0) by (by apply (sched_inv_same None k)).
  assert (H1 : sched_inv None k1 ∧ currentThread k1 = currentThread k ∧ sems k1 = sems k ∧ locks k1 = locks k0 ∧
    ∃ th1, threads k1 = <[currentThread k := th1]> (threads k) ∧ th_status th1 = th_status th ∧
      code th1 = code th ∧ held th1 = held th).
  { destruct Hrun as [Hc Hr]. case_bool_decide.
    - apply result_bind_ok in HR as (kp & HP & HM).
      assert (Ek : currentThread kp = currentThread k0) by (by apply update_inv in HP as (? & _ & ->)). rewrite Ek in HM.
      destruct (reprioritize_inv _ _ _ _ _ Hi0 HP HM) as (? & _ & ? & ? & ? & x & Hx & Et).
      split_and!; try done. eexists. split; [exact Et|]. change (threads k !! currentThread k = Some x) in Hx.
      by assert (x = th) as -> by congruence.
    - injection HR as <-. split_and!; try done. exists th. by rewrite insert_id. }
  destruct H1 as (Hi1 & Ec1 & Es1 & El1 & th1 & Et1 & Est1 & Eco1 & Eh1).
  pose proof (running_alive _ _ _ Hi Hrun) as Hal. rewrite Hcode in Hal.
  assert (Ht1 : threads k1 !! currentThread k = Some th1) by (rewrite Et1; apply lookup_insert_eq).
  rewrite (update_ok _ _ _ _ Ht1) in HU. injection HU as <-. unfold set_code in HS.
  erewrite update_ok in HS by apply lookup_insert_eq. injection HS as <-. cbn [threads set_threads].
  rewrite insert_insert_eq. split.
  - apply (change_thread None k1 _ th1); try done.
    + rewrite Est1. destruct Hrun. congruence.
    + cbn. rewrite elem_of_cons. intros [?|?]; [done|]. apply Hal. by right.
    + intros s. unfold awake_in_P. rewrite Eco1, Hcode. cbn. rewrite !andb_true_iff, !bool_decide_eq_true.
      by intros [_ ?].
  - eapply (Release_inv k th l lk rest (with_code (with_held th1 (held th1 ∖ {[l]})) (DoV (lk_sem lk) :: rest)) (oldPriority lk)); try done; [cbn; by rewrite Eh1|].
    cbn. by rewrite Et1, insert_insert_eq.
Qed.

Lemma finish_step k th rest k' : inv k → running k th → code th = FinishSleep :: rest →
  exec_frame k FinishSleep rest = Ok k' → inv k'.
Proof.
  intros [Hi Hl] Hrun Hcode H. unfold_frame H. unfold set_code, Sleep, SetStatus in H.
  rewrite (update_ok _ _ _ th) in H by apply Hrun. cbn [mbind result_bind] in H.
  erewrite update_ok in H by apply lookup_insert_eq. cbn [mbind result_bind] in H.
  cbn [threads set_threads set_destroyed currentThread] in H. rewrite insert_insert_eq in H.
  destruct (finish_inv k th Hi Hrun) as [Hi1 Hn1]; [by rewrite Hcode|].
  set (k1 := set_destroyed _ _) in Hi1, Hn1.
  destruct (dispatch_inv k1 k' Hi1 Hn1 H) as [Hi2 Hq]. split; [done|]. apply (lock_inv_quiet _ _ Hq).
  destruct Hrun as [Hc Hr]. set (me := currentThread k) in *.
  apply (lock_inv_step k k1 me th (with_status (with_code th [Dead]) BLOCKED)); try done.
  - by apply codes_set.
  - apply co_plain. by repeat constructor.
  - intros l lk Hlk. apply (lock_ok_other k k1 me th (with_status (with_code th [Dead]) BLOCKED) l lk lk); try done.
    + by apply codes_set.
    + cbn. by rewrite Hcode.
    + cbn. by rewrite Hcode.
    + by apply (li_lock _ Hl).
  - intros l Hin. by apply (li_held _ Hl _ _ _ Hc).
  - intros l lk u Hlk Ho _. by exists lk.
Qed.

(** Frames that only push other frames: methods of objects that call others. *)
Lemma push_step k th f rest k0 fs k' : inv k → running k th → code th = f :: rest →
  plain k f → (∀ s, f ≠ DoP s) → threads k0 = threads k → readyList k0 = readyList k →
  currentThread k0 = currentThread k → threadToBeDestroyed k0 = threadToBeDestroyed k → sems k0 = sems k →
  locks k0 = locks k → Dead ∉ fs → Forall (plain k0) fs →
  set_code k0 (currentThread k) (fs ++ rest) = Ok k' → inv k'.
Proof.
  intros Hk Hrun Hcode Hf Hp E1 E2 E3 E4 E5 E6 Hd Hfs HS.
  destruct (same_inv k k0) as [Hi0 Hl0]; try done. rewrite <-E3 in HS.
  destruct (go_inv k0 th f rest fs k') as (? & ? & _); try done.
  - split; [rewrite E1, E3|]; apply Hrun.
  - eapply plain_same; [|exact Hf]. intros l. by rewrite E6.
Qed.

Lemma wait_step k th c rest k' : inv k → running k th → code th = DoWait c :: rest →
  exec_frame k (DoWait c) rest = Ok k' → inv k'.
Proof.
  intros [Hi Hl] Hrun Hcode H. unfold_frame H. apply result_bind_ok in H as (cd & _ & H).
  apply result_bind_ok in H as (lk & _ & H). apply result_bind_ok in H as (x & _ & H).
  destruct (new_Semaphore k 0) as [s k1] eqn:EN.
  destruct (new_Semaphore_inv _ _ _ Hi Hl EN) as (Hi1 & Hl1 & Hns & Et & Ec & _ & _). rewrite <-Ec in H.
  refine (push_step k1 th (DoWait c) rest _ _ k' _ _ _ _ _ _ _ _ _ _ _ _ _ H); try done.
  - split; [rewrite Et, Ec|]; apply Hrun.
  - no_dead.
  - repeat constructor. exact Hns.
Qed.

(** A message or an item is taken, then the rest of the method runs. *)
Lemma take_step k th f rest k0 m k1 fs k' : inv k → running k th → code th = f :: rest →
  plain k f → (∀ s, f ≠ DoP s) → threads k0 = threads k → readyList k0 = readyList k →
  currentThread k0 = currentThread k → threadToBeDestroyed k0 = threadToBeDestroyed k → sems k0 = sems k →
  locks k0 = locks k → Dead ∉ fs → (∀ k, Forall (plain k) fs) →
  update k0 (currentThread k) (λ th, with_received th m) = Ok k1 →
  set_code k1 (currentThread k) (fs ++ rest) = Ok k' → inv k'.
Proof.
  intros Hk Hrun Hcode Hf Hp E1 E2 E3 E4 E5 E6 Hd Hfs HU HS.
  pose proof (same_inv k k0 E1 E2 E3 E4 E5 E6 Hk) as Hk0. rewrite <-E3 in HU.
  assert (Hrun0 : running k0 th) by (split; [rewrite E1, E3|]; apply Hrun).
  destruct (receive_inv _ _ _ _ Hk0 Hrun0 HU) as (Hk1 & Hrun1 & Ec & El).
  rewrite <-E3, <-Ec in HS. eapply (push_step k1 _ f rest k1 fs); try done.
  eapply plain_same; [|exact Hf]. intros l. by rewrite El, E6.
Qed.

Lemma signal_step k th c rest k' : inv k → cond_inv k → running k th → code th = DoSignal c :: rest →
  exec_frame k (DoSignal c) rest = Ok k' → inv k'.
Proof.
  intros Hk Hcv Hrun Hcode H. unfold_frame H. apply result_bind_ok in H as (cd & Hcd%get_inv & H).
  apply result_bind_ok in H as (lk & _ & H). apply result_bind_ok in H as (x & _ & H).
  destruct (cond_queue cd) as [|s q] eqn:Eq.
  - refine (push_step k th (DoSignal c) rest _ [] k' Hk Hrun Hcode _ _ _ _ _ _ _ _ _ _ H); try done. no_dead.
  - refine (push_step k th (DoSignal c) rest _ [DoV s] k' Hk Hrun Hcode _ _ _ _ _ _ _ _ _ _ H); try done; [no_dead|].
    repeat constructor. apply (Hcv _ _ _ Hcd). rewrite Eq. by left.
Qed.

(** Methods that go on with [rest], and may then lose the processor. *)
Lemma yield_step k th f rest k1 k' : inv k → running k th → code th = f :: rest → plain k f → (∀ s, f ≠ DoP s) →
  set_code k (currentThread k) rest = Ok k1 → Yield k1 = Ok k' ∨ k' = k1 → inv k'.
Proof.
  intros [Hi Hl] Hrun Hcode Hf Hp HS HY.
  destruct (go_inv k th f rest [] k1 Hi Hl Hrun Hcode Hf Hp) as (Hi1 & Hl1 & Hrun1); try done; [no_dead|].
  destruct HY as [HY| ->]; [|done]. destruct (Yield_inv _ _ _ Hi1 Hrun1 HY) as [Hi2 Hq].
  split; [done|]. by eapply lock_inv_quiet.
Qed.

Lemma finish_call k th st rest k' : inv k → running k th → code th = DoFinish st :: rest →
  exec_frame k (DoFinish st) rest = Ok k' → inv k'.
Proof.
  intros [Hi Hl] Hrun Hcode H. unfold_frame H. apply result_bind_ok in H as (x & _ & H).
  assert (HG : ∀ c, Dead ∉ c → Forall (plain k) c → set_code k (currentThread k) c = Ok k' → inv k').
  { intros c Hd Hc HS. destruct (push_inv k th (DoFinish st) rest c k' Hi Hl Hrun Hcode) as (? & ? & _); try done.
    - by apply co_plain.
    - by apply plain_head_ok. }
  destruct (joinable x); eapply HG; try exact H; try no_dead; by repeat constructor.
Qed.

Ltac push_frames k th Hk Hrun Hcode :=
  match goal with
  | H : set_code _ _ (?fs ++ _) = Ok ?k' |- _ =>
      refine (push_step k th _ _ _ fs k' Hk Hrun Hcode _ _ _ _ _ _ _ _ _ _ H); try done;
        first [no_dead|by repeat constructor]
  end.

Lemma exec_frame_inv k th f rest k' : inv k → cond_inv k → running k th → code th = f :: rest →
  exec_frame k f rest = Ok k' → inv k'.
Proof.
  intros Hk Hcv Hrun Hcode H. pose proof Hk as [Hi Hl].
  destruct f; first [exact (acquire_step _ _ _ _ _ Hk Hrun Hcode H)|exact (release_step _ _ _ _ _ Hk Hrun Hcode H)
    |exact (wait_step _ _ _ _ _ Hk Hrun Hcode H)|exact (signal_step _ _ _ _ _ Hk Hcv Hrun Hcode H)
    |exact (finish_call _ _ _ _ _ Hk Hrun Hcode H)|exact (finish_step _ _ _ _ Hk Hrun Hcode H)
    |done|unfold_frame H];
    try (apply result_bind_ok in H as (ob & Hob & H); push_frames k th Hk Hrun Hcode).
  - (* DoP *) split; [by apply (P_inv _ _ _ _ _ Hi Hrun Hcode H)|by apply (P_lock_inv k th s rest)].
  - (* DoV *) apply result_bind_ok in H as (k1 & HS & HV). by apply (signal_inv k th s rest k1).
  - (* SetOwner *) apply result_bind_ok in H as (lk & Hlk%get_inv & H).
    apply result_bind_ok in H as (k1 & HU & HS). rewrite (update_ok _ _ _ th) in HU by apply Hrun. injection HU as <-.
    unfold set_code in HS. erewrite update_ok in HS by apply lookup_insert_eq. injection HS as <-.
    cbn [threads set_threads set_locks]. rewrite insert_insert_eq.
    by apply (SetOwner_inv k th l lk rest).
  - (* DoBroadcast *) apply result_bind_ok in H as (cd & _ & H).
    destruct (cond_queue cd); push_frames k th Hk Hrun Hcode.
  - (* SendHead *) apply result_bind_ok in H as (ch0 & _ & H). destruct (buzon ch0); [done|].
    push_frames k th Hk Hrun Hcode.
  - (* SendLoop *) apply result_bind_ok in H as (ch0 & _ & H). destruct (buzon ch0); [|case_bool_decide];
      push_frames k th Hk Hrun Hcode.
  - (* ReceiveLoop *) apply result_bind_ok in H as (ch0 & _ & H). destruct (buzon ch0); [push_frames k th Hk Hrun Hcode|].
    apply result_bind_ok in H as (k1 & HU & HS).
    refine (take_step k th _ rest _ _ k1 _ k' Hk Hrun Hcode _ _ _ _ _ _ _ _ _ _ HU HS); try done; [no_dead|by repeat constructor].
  - (* ListPopLoop *) apply result_bind_ok in H as (l0 & _ & H). destruct (sl_list l0); [push_frames k th Hk Hrun Hcode|].
    apply result_bind_ok in H as (k1 & HU & HS).
    refine (take_step k th _ rest _ _ k1 _ k' Hk Hrun Hcode _ _ _ _ _ _ _ _ _ _ HU HS); try done; [no_dead|by repeat constructor].
  - (* DoYield *) apply result_bind_ok in H as (k1 & HS & HY). eapply (yield_step k th); try done. by left.
  - (* DoJoin *) apply result_bind_ok in H as (t0 & _ & H). apply result_bind_ok in H as (x & _ & H).
    push_frames k th Hk Hrun Hcode.
  - (* JoinYield *) apply result_bind_ok in H as (t0 & _ & H). apply result_bind_ok in H as (k1 & HS & HY).
    eapply (yield_step k th); try done. destruct (_ && _); [by left|right; by injection HY].
  - (* UserCode *) by injection H as <-.
Qed.

Lemma exec_inv k th k' : inv k → cond_inv k → running k th → exec k = Ok k' → inv k' ∧ cond_inv k'.
Proof.
  intros Hk Hcv Hrun H. unfold exec in H. rewrite (get_ok _ _ th) in H by apply Hrun. cbn [mbind result_bind] in H.
  destruct (code th) as [|f rest] eqn:Hcode; [by injection H as <-|].
  split; [by eapply exec_frame_inv|].
  assert (Hw : (∃ c, f = DoWait c) ∨ ∀ c, f ≠ DoWait c) by (destruct f; eauto).
  destruct Hw as [[c ->]|Hw]; [by eapply wait_conds; [apply Hk|..]|].
  eapply static_cond_inv; [|exact Hcv]. by eapply exec_static.
Qed.

(** ** Every step *)
Lemma callable_plain k f : callable k f → plain k f ∧ f ≠ Dead.
Proof. destruct f; by cbn. Qed.

Lemma callables_plain k c : Forall (callable k) c → Forall (plain k) c ∧ Dead ∉ c.
Proof.
  intros Hc. rewrite Forall_forall in Hc. split.
  - apply Forall_forall. intros f Hf. by apply callable_plain, Hc.
  - intros Hd. by apply Hc in Hd.
Qed.

Lemma Fork_static k t func k' : Fork k t func = Ok k' → static k k'.
Proof. intros (k1 & H1%update_static & H2%ReadyToRun_static)%result_bind_ok. by etrans. Qed.

(** A thread that did not exist and holds nothing. *)
Lemma lock_inv_new k k' t th : lock_inv k → threads k !! t = None → threads k' = <[t := th]> (threads k) →
  sems k' = sems k → locks k' = locks k → Forall (plain k) (code th) → held th = ∅ → lock_inv k'.
Proof.
  intros Hl Hn Et Es El Hp Hh. destruct (plain_head_ok _ _ Hp) as [H1 H2].
  assert (Hsl : same_locks k k') by (intros l; by rewrite El).
  assert (Hhd : ∀ u f, (head (code th) = Some f → False) →
    (∃ x, threads k' !! u = Some x ∧ head (code x) = Some f) ↔ ∃ x, threads k !! u = Some x ∧ head (code x) = Some f).
  { intros u f Hf. rewrite Et. destruct (decide (u = t)) as [->|]; [|by rewrite lookup_insert_ne].
    rewrite lookup_insert_eq. split; [by intros (x & [= <-] & ?%Hf)|intros (x & Hx & _); congruence]. }
  split.
  - intros u x. rewrite Et. intros [[<- <-]|[_ Hx]]%lookup_insert_Some; apply (code_ok_same k); try done.
    + by apply co_plain.
    + by apply (li_code _ Hl u).
  - intros l lk. rewrite El. intros Hlk. destruct (li_lock _ Hl _ _ Hlk) as [(sem & Hs & Hd) Hsig].
    assert (Hho : ∀ u, holds k' l lk u ↔ holds k l lk u).
    { intros u. pose proof (Hhd u (SetOwner l) (H1 l)). pose proof (Hhd u (DoV (lk_sem lk)) (H2 l lk Hlk)).
      unfold holds. naive_solver. }
    split.
    + exists sem. rewrite Es. split; [done|]. destruct Hd as [[? Hd]|[? (u & Hd)]]; [left|right].
      * split; [done|]. intros u. by rewrite Hho.
      * split; [done|]. exists u. intros v. by rewrite Hho.
    + intros u x. rewrite Et. intros [[<- <-]|[_ Hx]]%lookup_insert_Some Hx2; [by destruct (H2 l lk)|by apply (Hsig u x)].
  - rewrite El. apply Hl.
  - intros u x l. rewrite Et, El. intros [[<- <-]|[_ Hx]]%lookup_insert_Some; [rewrite Hh; set_solver|].
    by apply (li_held _ Hl).
Qed.

Lemma no_runner k th : sched_inv None k → threads k !! currentThread k = Some th → th_status th ≠ RUNNING →
  ∀ u x, threads k !! u = Some x → th_status x ≠ RUNNING.
Proof. intros Hi Hc Hn u x Hx Hr. pose proof (si_running _ _ Hi u x Hx Hr) as ->. congruence. Qed.

Lemma step_inv k k' : step k k' → inv k → cond_inv k → inv k' ∧ cond_inv k'.
Proof.
  intros Hstep Hk Hcv. pose proof Hk as [Hi Hl].
  destruct Hstep as [k th k' Hrun H|k th f k' Hrun Hcode Hf H|k th k' Hrun H|k s k' Hns H
    |k th t j p ch sp func k' Hrun Hn Hf H|k th k' Hc Hr H].
  - by eapply exec_inv.
  - destruct (callables_plain k [f]) as [Hp Hd]; [by repeat constructor|]. apply Forall_cons in Hp as [Hp _].
    assert (Hhd : plain_head k (code th) ∧ ∀ s, head (code th) ≠ Some (DoP s)).
    { unfold plain_head. destruct Hcode as [->|Hcode]; [done|]. by rewrite Hcode. }
    assert (Hpl : Forall (plain k) (code th)).
    { pose proof (li_code _ Hl _ _ (proj1 Hrun)) as Hok. destruct Hcode as [->|Hcode]; [done|].
      destruct (code th) as [|g c]; [done|]. injection Hcode as ->. constructor; [done|]. by apply (code_ok_plain k UserCode). }
    assert (Hd' : Dead ∉ f :: code th).
    { rewrite elem_of_cons. intros [E|Hin]; [apply Hd; rewrite E; by left|]. by apply (running_alive _ _ _ Hi Hrun). }
    split.
    + destruct (set_code_inv k th (f :: code th) k' Hi Hl Hrun) as (? & ? & _); try done; try apply Hhd.
      * apply co_plain. by constructor.
      * apply plain_head_ok. by constructor.
    + eapply static_cond_inv; [by eapply update_static|done].
  - destruct (Yield_inv _ _ _ Hi Hrun H) as [Hi2 Hq]. split; [split; [done|by eapply lock_inv_quiet]|].
    eapply static_cond_inv; [by eapply Yield_static|done].
  - split; [split; [by apply (V_inv _ _ _ _ Hi H)|by eapply V_lock_inv]|].
    eapply static_cond_inv; [by eapply V_static|done].
  - destruct (callables_plain _ _ Hf) as [Hp Hd].
    destruct (fork_inv _ _ _ _ _ _ _ _ Hi Hn Hd H) as (Hi2 & Es & El & _ & x & Et & Ec & Eh). split.
    + split; [done|]. eapply lock_inv_new; try done. rewrite Ec. apply Forall_app. split; [done|by repeat constructor].
    + eapply static_cond_inv; [|exact Hcv]. eapply Fork_static in H. etrans; [|exact H]. by apply static_same.
  - destruct (dispatch_inv _ _ Hi (no_runner _ _ Hi Hc Hr) H) as [Hi2 Hq].
    split; [split; [done|by eapply lock_inv_quiet]|]. eapply static_cond_inv; [by eapply dispatch_static|done].
Qed.

(** The state in which the kernel starts: the main thread runs, nobody waits and
    no lock is held. *)
Record initial (k : Kernel) : Prop := {
  in_threads : ∃ th, threads k = {[ currentThread k := th ]} ∧ th_status th = RUNNING ∧ code th = [] ∧ held th = ∅;
  in_ready : readyList k = [];
  in_destroyed : threadToBeDestroyed k = None;
  in_sems s sem : sems k !! s = Some sem → 0 ≤ value sem ∧ sem_queue sem = [];
  in_locks l lk : locks k !! l = Some lk → lockOwner lk = None ∧ ∃ sem, sems k !! lk_sem lk = Some sem ∧ value sem = 1;
  in_inj l1 l2 lk1 lk2 : locks k !! l1 = Some lk1 → locks k !! l2 = Some lk2 → lk_sem lk1 = lk_sem lk2 → l1 = l2;
  in_conds c cd : conds k !! c = Some cd → cond_queue cd = []
}.

(** Objects that are made before threads run. *)
Lemma new_Semaphore_initial k v : 0 ≤ v → initial k → initial (new_Semaphore k v).2.
Proof.
  intros Hv [Ht Er Ed Hs Hl Hj Hc]. split; try done; cbn.
  - intros s sem [[<- <-]|[_ H]]%lookup_insert_Some; [done|by apply (Hs s)].
  - intros l lk Hlk. destruct (Hl _ _ Hlk) as [? (sem & Hsem & ?)]. split; [done|]. exists sem.
    rewrite lookup_insert_ne; [done|]. intros E. apply (is_fresh (dom (sems k))). rewrite E. by apply elem_of_dom.
Qed.

Lemma new_Lock_initial k : initial k → initial (new_Lock k).2.
Proof.
  intros Hk. pose proof (new_Semaphore_initial k 1 ltac:(lia) Hk) as H1. unfold new_Lock.
  assert (Hsem : sems (new_Semaphore k 1).2 !! (new_Semaphore k 1).1 = Some (mkSem 1 [])) by apply lookup_insert_eq.
  assert (Hnew : ∀ l lk, locks k !! l = Some lk → lk_sem lk ≠ (new_Semaphore k 1).1).
  { intros l lk Hlk E. destruct (in_locks _ Hk _ _ Hlk) as [_ (sem & Hs & _)].
    apply (is_fresh (dom (sems k))), elem_of_dom. change (is_Some (sems k !! (new_Semaphore k 1).1)). rewrite <-E. by eexists. }
  destruct (new_Semaphore k 1) as [s k1] eqn:EN. cbn in Hsem, Hnew, H1.
  assert (El : locks k1 = locks k) by (by injection EN as <- <-).
  destruct H1 as [Ht Er Ed Hs Hl Hj Hc]. split; try done; cbn.
  - intros l lk [[<- <-]|[_ H]]%lookup_insert_Some; [|by apply (Hl l)]. split; [done|]. by exists (mkSem 1 []).
  - intros l1 l2 lk1 lk2. rewrite El. intros [[<- <-]|[_ H1]]%lookup_insert_Some [[<- <-]|[_ H2]]%lookup_insert_Some; cbn.
    + done.
    + intros E. by destruct (Hnew _ _ H2).
    + intros E. by destruct (Hnew _ _ H1).
    + rewrite El in Hj. by apply Hj.
Qed.

Lemma new_Condition_initial k l : initial k → initial (new_Condition k l).2.
Proof. intros []. split; try done; cbn. intros c cd [[_ <-]|[_ H]]%lookup_insert_Some; [done|eauto]. Qed.

Lemma new_Channel_initial k : initial k → initial (new_Channel k).2.
Proof.
  intros Hk. unfold new_Channel. pose proof (new_Lock_initial k Hk) as H1. destruct (new_Lock k) as [l k1]. cbn in H1.
  pose proof (new_Condition_initial k1 l H1) as H2. destruct (new_Condition k1 l) as [c1 k2]. cbn in H2.
  pose proof (new_Condition_initial k2 l H2) as H3. destruct (new_Condition k2 l) as [c2 k3]. cbn in H3.
  destruct H3. by split.
Qed.

Lemma new_SynchList_initial k : initial k → initial (new_SynchList k).2.
Proof.
  intros Hk. unfold new_SynchList. pose proof (new_Lock_initial k Hk) as H1. destruct (new_Lock k) as [l k1]. cbn in H1.
  pose proof (new_Condition_initial k1 l H1) as H2. destruct (new_Condition k1 l) as [c1 k2]. cbn in H2.
  destruct H2. by split.
Qed.

Definition reachable (k : Kernel) : Prop := ∃ k0, initial k0 ∧ rtc step k0 k.

Lemma initial_inv k : initial k → inv k ∧ cond_inv k.
Proof.
  intros [(th & Et & Hr & Hc & Hh) Er Ed Hs Hl Hj Hcv].
  assert (Hth : ∀ t x, threads k !! t = Some x → t = currentThread k ∧ x = th).
  { intros t x. rewrite Et. by intros [<- <-]%lookup_singleton_Some. }
  assert (Hq : ∀ s sem (t : Z), sems k !! s = Some sem → t ∉ sem_queue sem).
  { intros s sem t Hsem. destruct (Hs _ _ Hsem) as [_ ->]. apply not_elem_of_nil. }
  split; [split|].
  - split.
    + rewrite Et, lookup_singleton_eq. by eexists.
    + intros t x Hx _. by destruct (Hth _ _ Hx).
    + rewrite Er. constructor.
    + intros key t. rewrite Er, elem_of_nil. split; [done|]. intros (_ & x & Hx & Hxr & _).
      destruct (Hth _ _ Hx) as [_ ->]. congruence.
    + done.
    + rewrite Er. constructor.
    + intros s sem t Hsem Hin. by destruct (Hq _ _ t Hsem).
    + intros s sem Hsem. destruct (Hs _ _ Hsem) as [_ ->]. constructor.
    + intros t x Hx. destruct (Hth _ _ Hx) as [_ ->]. congruence.
    + intros t x Hx. destruct (Hth _ _ Hx) as [_ ->]. rewrite Hc. by intros ?%elem_of_nil.
    + intros d. by rewrite Ed.
    + intros s sem Hsem. by apply (Hs s).
    + intros s sem Hsem. left. by apply (Hs s).
  - split.
    + intros t x Hx. destruct (Hth _ _ Hx) as [_ ->]. rewrite Hc. by apply co_plain.
    + intros l lk Hlk. destruct (Hl _ _ Hlk) as [Ho (sem & Hsem & Hv)]. split; [|done].
      exists sem. split; [done|]. left. split; [done|]. intros t [?|(x & Hx & Hxc)]; [congruence|].
      destruct (Hth _ _ Hx) as [_ ->]. rewrite Hc in Hxc. naive_solver.
    + done.
    + intros t x l Hx. destruct (Hth _ _ Hx) as [_ ->]. rewrite Hh. set_solver.
  - intros c cd s Hcd. rewrite (Hcv _ _ Hcd). by intros ?%elem_of_nil.
Qed.

Lemma reachable_inv k : reachable k → inv k ∧ cond_inv k.
Proof.
  intros (k0 & H0%initial_inv & Hs). induction Hs as [|k1 k2 k3 H12 _ IH]; [done|].
  apply IH. destruct H0. by apply (step_inv k1).
Qed.

(** ** Runs of a kernel

    A schedule as data: what happens in each step. *)
Inductive action := AExec | ACall (f : frame) | APreempt | AFork (t : Z) (prio : Z) (func : list frame) | AIdle.

Definition public (f : frame) : bool :=
  match f with
  | DoAcquire _ | DoRelease _ | DoWait _ | DoSignal _ | DoBroadcast _ | DoSend _ _ | DoReceive _
  | DoListAppend _ _ | DoListPop _ | DoYield | DoJoin _ | DoFinish _ => true
  | _ => false
  end.

Definition act (k : Kernel) (a : action) : result Kernel :=
  th ← get (threads k) (currentThread k);
  let runs := bool_decide (th_status th = RUNNING) in
  match a with
  | AExec => _ ← ASSERT runs; exec k
  | ACall f => _ ← ASSERT (runs && bool_decide (code th = []) && public f); set_code k (currentThread k) (f :: code th)
  | APreempt => _ ← ASSERT runs; Yield k
  | AFork t prio func =>
      _ ← ASSERT (runs && bool_decide (threads k !! t = None) && forallb public func);
      Fork (set_threads k (<[t := new_Thread false prio 0 0]> (threads k))) t func
  | AIdle => _ ← ASSERT (negb runs); dispatch k
  end.
Fixpoint acts (k : Kernel) (l : list action) : result Kernel :=
  match l with [] => Ok k | a :: l => k ← act k a; acts k l end.

Lemma public_callable k f : public f = true → callable k f.
Proof. by destruct f. Qed.

Lemma act_step k a k' : act k a = Ok k' → step k k'.
Proof.
  unfold act. intros (th & Ht%get_inv & H)%result_bind_ok.
  destruct a as [|f| |t prio func|]; apply result_bind_ok in H as ([] & HA & H); unfold ASSERT in HA.
  - case_bool_decide; [|done]. by apply (step_exec k th).
  - destruct (public f) eqn:Ep; [|by rewrite andb_false_r in HA]. repeat case_bool_decide; try done.
    eapply (step_call k th f); try done; [by left|by apply public_callable].
  - case_bool_decide; [|done]. by apply (step_preempt k th).
  - destruct (forallb public func) eqn:Ep; [|by rewrite andb_false_r in HA]. repeat case_bool_decide; try done.
    apply (step_fork k th t false prio 0 0 func k'); try done. apply Forall_forall. intros f Hf.
    apply public_callable. rewrite forallb_forall in Ep. apply Ep. by apply list_elem_of_In.
  - case_bool_decide; [done|]. by apply (step_idle k th).
Qed.

Lemma acts_steps l k k' : acts k l = Ok k' → rtc step k k'.
Proof.
  revert k. induction l as [|a l IH]; cbn; intros k H; [by injection H as <-|].
  apply result_bind_ok in H as (k1 & H1%act_step & H2%IH). by eapply rtc_l.
Qed.

(** A kernel with a lock (20, its semaphore is 10) and a condition (30). *)
Definition kernel0 : Kernel :=
  mkKernel {[ 1 := with_started (with_status (new_Thread false 0 0 0) RUNNING) ]} [] 1 None
    {[ 10 := mkSem 1 []; 11 := mkSem 0 [] ]} {[ 20 := mkLock 10 None 0 ]} {[ 30 := mkCond 20 [] ]} ∅ ∅.

Lemma kernel0_initial : initial kernel0.
Proof.
  split; cbn; try done.
  - by eexists.
  - intros s sem [[<- <-]|[_ [<- <-]%lookup_singleton_Some]]%lookup_insert_Some; done.
  - intros l lk [<- <-]%lookup_singleton_Some. split; [done|]. by eexists.
  - by intros l1 l2 lk1 lk2 [<- <-]%lookup_singleton_Some [<- <-]%lookup_singleton_Some.
  - by intros c cd [<- <-]%lookup_singleton_Some.
Qed.

Definition ends (k : Kernel) (l : list action) : bool := match acts k l with Ok _ => true | Err _ => false end.
Definition after (l : list action) : Kernel :=
  match acts kernel0 l with Ok k => k | Err _ => kernel0 end.

Lemma after_reachable l : ends kernel0 l = true → reachable (after l).
Proof.
  unfold after, ends. intros H. exists kernel0. split; [apply kernel0_initial|].
  destruct (acts kernel0 l) eqn:E; [by eapply acts_steps|done].
Qed.

(** The main thread holds the lock, thread 2 (with a higher priority) sleeps on it. *)
Definition contended : list action :=
  [ACall (DoAcquire 20); AExec; AExec; AExec; AFork 2 5 [DoAcquire 20]; APreempt; AExec; AExec].
(** Then the main thread releases it. *)
Definition handed_over : list action := contended ++ [ACall (DoRelease 20); AExec; AExec].
(** Two threads sleep on the lock when it is released. *)
Definition two_waiters : list action :=
  [ACall (DoAcquire 20); AExec; AExec; AExec; AFork 2 5 [DoAcquire 20]; APreempt; AExec; AExec;
   AFork 3 5 [DoAcquire 20]; APreempt; AExec; AExec; ACall (DoRelease 20); AExec; AExec].

(** ** The scheduler *)

(** C21: In every reachable state of the kernel at most the current thread runs;
    the ready list holds exactly the READY threads, each once, under the key of
    its present priority (also after priority inheritance), and in decreasing
    order of priority; a BLOCKED thread has finished or is in the queue of the
    semaphore in whose [P] it is; and all threads in such a queue are BLOCKED. *)
Theorem reachable_scheduler k : reachable k →
  (∀ t th, threads k !! t = Some th → th_status th = RUNNING → t = currentThread k) ∧
  NoDup (readyList k).*2 ∧ ListSpec.decreasing (readyList k) ∧
  (∀ key t, (key, t) ∈ readyList k ↔ ∃ th, threads k !! t = Some th ∧ th_status th = READY ∧ key = s32 (priority th)) ∧
  (∀ t th, threads k !! t = Some th → th_status th = BLOCKED →
    code th = [Dead] ∨ ∃ s rest sem, code th = DoP s :: rest ∧ sems k !! s = Some sem ∧ t ∈ sem_queue sem) ∧
  (∀ s sem t, sems k !! s = Some sem → t ∈ sem_queue sem →
    ∃ th rest, threads k !! t = Some th ∧ th_status th = BLOCKED ∧ code th = DoP s :: rest).
Proof.
  intros [[Hi _] _]%reachable_inv. split_and!; [apply (si_running _ _ Hi)|apply (si_nodup _ _ Hi)|apply (si_order _ _ Hi)| |
    apply (si_blocked _ _ Hi)|apply (si_queue _ _ Hi)].
  intros key t. rewrite (si_ready _ _ Hi). naive_solver.
Qed.

Lemma reachable_scheduler_witness :
  (5, 2) ∈ readyList (after handed_over) ↔
  ∃ th, threads (after handed_over) !! 2 = Some th ∧ th_status th = READY ∧ 5 = s32 (priority th).
Proof.
  destruct (reachable_scheduler (after handed_over)) as (_ & _ & _ & H & _); [|exact (H 5 2)].
  apply after_reachable. vm_compute. reflexivity.
Defined.

Lemma awake_some s m : (0 < awake s m)%nat → ∃ t th, m !! t = Some th ∧ awake_in_P s th = true.
Proof.
  intros Hs. destruct (map_choose (filter (λ p : Z * Thread, awake_in_P s p.2 = true) m)) as (t & th & Ht).
  - intros E. unfold awake in Hs. rewrite E, map_size_empty in Hs. lia.
  - apply map_lookup_filter_Some in Ht as [? ?]. by exists t, th.
Qed.

(** C22: No wakeup is lost.  In every reachable state, when threads sleep on a
    semaphore although its value is positive, a thread that is not asleep is
    still inside the loop of [P] of this semaphore and will look at the value. *)
Theorem no_lost_wakeup k s sem : reachable k → sems k !! s = Some sem → 0 < value sem → sem_queue sem ≠ [] →
  ∃ t th, threads k !! t = Some th ∧ th_status th ≠ BLOCKED ∧ head (code th) = Some (DoP s).
Proof.
  intros [[Hi _] _]%reachable_inv Hs Hv Hq. destruct (si_wakeup _ _ Hi _ _ Hs) as [?|Hw]; [done|].
  destruct (awake_some s (threads k)) as (t & th & Ht & Ha); [lia|]. exists t, th.
  unfold awake_in_P in Ha. rewrite andb_true_iff, !bool_decide_eq_true in Ha. naive_solver.
Qed.

Lemma no_lost_wakeup_witness : ∃ t th,
  threads (after two_waiters) !! t = Some th ∧ th_status th ≠ BLOCKED ∧ head (code th) = Some (DoP 10).
Proof.
  apply (no_lost_wakeup (after two_waiters) 10 (mkSem 1 [3])).
  - apply after_reachable. vm_compute. reflexivity.
  - vm_compute. reflexivity.
  - reflexivity.
  - discriminate.
Defined.

(** ** Mutual exclusion *)

(** C5: In every reachable state at most one thread is between the return of
    [Acquire] and its call of [Release] on a lock; it is the recorded owner, and
    the semaphore of the lock is 0 as long as it stays there. *)
Theorem mutual_exclusion k l t1 th1 t2 th2 : reachable k →
  threads k !! t1 = Some th1 → l ∈ held th1 → threads k !! t2 = Some th2 → l ∈ held th2 →
  t1 = t2 ∧ ∃ lk sem, locks k !! l = Some lk ∧ lockOwner lk = Some t1 ∧ sems k !! lk_sem lk = Some sem ∧ value sem = 0.
Proof.
  intros [[_ Hl] _]%reachable_inv H1 Hh1 H2 Hh2.
  destruct (li_held _ Hl _ _ _ H1 Hh1) as (lk & Hlk & Ho1). destruct (li_held _ Hl _ _ _ H2 Hh2) as (lk2 & Hlk2 & Ho2).
  split; [congruence|]. destruct (li_lock _ Hl _ _ Hlk) as [(sem & Hs & Hd) _]. exists lk, sem. split_and!; try done.
  destruct Hd as [[_ Hn]|[? _]]; [|done]. destruct (Hn t1). by left.
Qed.

Lemma mutual_exclusion_witness : ∃ lk sem, locks (after contended) !! 20 = Some lk ∧ lockOwner lk = Some 1 ∧
  sems (after contended) !! lk_sem lk = Some sem ∧ value sem = 0.
Proof.
  destruct (threads (after contended) !! 1) as [th|] eqn:Ht; [|vm_compute in Ht; discriminate Ht].
  assert (Hin : 20 ∈ held th).
  { vm_compute in Ht. injection Ht as <-. apply (bool_decide_unpack _). vm_compute. exact I. }
  apply (mutual_exclusion (after contended) 20 1 th 1 th); try assumption.
  apply after_reachable. vm_compute. reflexivity.
Defined.
