(* ===== verification/Conditions.v ===== *)
(** * Condition variables, channels and priorities at work

    What the operations of [condition.cc], [channel.cc] and [lock.cc] do over
    whole executions: the queue of a condition never shrinks, so a [Signal] always
    signals the first thread that ever waited and a [Broadcast] never returns; a
    channel can carry one exchange that has to wait; [Release] gives a thread
    the priority that an earlier owner of the lock had. *)

From S2P Require Import Prelude LinkedList Threads Scheduling Locking.
From stdpp Require Import relations.
From stdpp Require Import base option list gmap fin_maps numbers tactics.
From stdpp Require Import list.
Open Scope Z_scope.

(** ** The queue of a condition *)
Definition queue_of (k : Kernel) (c : Z) : list Z :=
  match conds k !! c with Some cd => cond_queue cd | None => [] end.

Lemma static_queue k k' c : static k k' → queue_of k' c = queue_of k c.
Proof. intros [E _]. unfold queue_of. by rewrite E. Qed.

Lemma exec_queue k f rest k' c : exec_frame k f rest = Ok k' → queue_of k c `prefix_of` queue_of k' c.
Proof.
  intros H. assert (Hw : (∃ c0, f = DoWait c0) ∨ ∀ c0, f ≠ DoWait c0) by (destruct f; eauto).
  destruct Hw as [[c0 ->]|Hw]; [|by rewrite (static_queue k k') by (by eapply exec_static)].
  unfold_frame H. apply result_bind_ok in H as (cd & Hcd%get_inv & H).
  apply result_bind_ok in H as (lk & _ & H). apply result_bind_ok in H as (x & _ & H).
  destruct (new_Semaphore k 0) as [s k1] eqn:EN. apply update_inv in H as (th & _ & ->). injection EN as <- <-.
  unfold queue_of. cbn. destruct (decide (c = c0)) as [->|].
  - rewrite lookup_insert_eq, Hcd. cbn. by apply prefix_app_r.
  - by rewrite lookup_insert_ne.
Qed.

Lemma step_queue k k' c : step k k' → queue_of k c `prefix_of` queue_of k' c.
Proof.
  assert (HG : ∀ k k', static k k' → queue_of k c `prefix_of` queue_of k' c).
  { intros k1 k2 H. by rewrite (static_queue k1 k2). }
  destruct 1 as [k th k' [Hrun _] H|k th f k' Hrun Hcode Hf H|k th k' Hrun H|k s k' Hns H
    |k th t j p ch sp func k' Hrun Hn Hf H|k th k' Hc Hr H].
  - unfold exec in H. rewrite (get_ok _ _ _ Hrun) in H. cbn [mbind result_bind] in H.
    destruct (code th); [by injection H as <-|by eapply exec_queue].
  - by eapply HG, update_static.
  - by eapply HG, Yield_static.
  - by eapply HG, V_static.
  - apply Fork_static in H. apply HG. etrans; [|exact H]. by apply static_same.
  - by eapply HG, dispatch_static.
Qed.

Lemma steps_queue k k' c : rtc step k k' → queue_of k c `prefix_of` queue_of k' c.
Proof. induction 1 as [|k1 k2 k3 H _ IH]; [done|]. etrans; [by apply step_queue|done]. Qed.

(** ** The code of a thread that does not run *)

(** [u] keeps its code, unless it is about to be deleted. *)
Definition keeps (u : Z) (k k' : Kernel) : Prop :=
  threadToBeDestroyed k ≠ Some u → threadToBeDestroyed k' ≠ Some u ∧
    ∀ x, threads k !! u = Some x → ∃ x', threads k' !! u = Some x' ∧ code x' = code x.

#[export] Instance keeps_refl u : Reflexive (keeps u).
Proof. intros k Hd. split; eauto. Qed.

#[export] Instance keeps_trans u : Transitive (keeps u).
Proof.
  intros k1 k2 k3 A B Hd. destruct (A Hd) as [Hd2 A2]. destruct (B Hd2) as [Hd3 B2]. split; [done|].
  intros x (x2 & H2 & E2)%A2. destruct (B2 _ H2) as (x3 & ? & ?). exists x3. split; congruence.
Qed.

Lemma keeps_same u k k' : threads k' = threads k → threadToBeDestroyed k' = threadToBeDestroyed k → keeps u k k'.
Proof. intros E1 E2 Hd. rewrite E1, E2. eauto. Qed.

(** A method that leaves the code alone, or is about another thread. *)
Lemma update_keeps u k t f k' : (t = u → ∀ th, code (f th) = code th) → update k t f = Ok k' → keeps u k k'.
Proof.
  intros Hf (th & Ht & ->)%update_inv Hd. split; [done|]. intros x Hx. cbn.
  destruct (decide (t = u)) as [->|]; [rewrite lookup_insert_eq|rewrite lookup_insert_ne by done; eauto].
  assert (x = th) as -> by congruence. eauto.
Qed.

Lemma set_code_keeps u k t c k' : t ≠ u → set_code k t c = Ok k' → keeps u k k'.
Proof. intros Hne. by apply update_keeps. Qed.

Lemma ReadyToRun_keeps u k t k' : ReadyToRun k t = Ok k' → keeps u k k'.
Proof.
  intros (k1 & H1 & H)%result_bind_ok. apply result_bind_ok in H as (p & _ & H). injection H as <-.
  apply (update_keeps u) in H1; [|done]. etrans; [exact H1|by apply keeps_same].
Qed.

Lemma Run_keeps u k t k' : Run k t = Ok k' → keeps u k k'.
Proof.
  intros (k1 & H1 & H)%result_bind_ok. apply (update_keeps u) in H1; [|done].
  etrans; [by apply (keeps_same u k (set_current k t))|]. etrans; [exact H1|].
  apply result_bind_ok in H as (x & _ & H). destruct (started x); [|by apply (update_keeps u) in H].
  destruct (threadToBeDestroyed k1) as [d|] eqn:Ed; [|by injection H as <-].
  apply result_bind_ok in H as (k2 & H2 & H). injection H as <-.
  apply delete_Thread_eq in H2 as (_ & ? & ch & _ & ->). intros Hd. split; [done|].
  intros y Hy. cbn. exists y. rewrite lookup_delete_ne; [done|congruence].
Qed.

Lemma dispatch_keeps u k k' : dispatch k = Ok k' → keeps u k k'.
Proof.
  unfold dispatch, FindNextToRun. destruct (readyList k) as [|[? t] r]; intros H; [by injection H as <-|].
  apply (Run_keeps u) in H. etrans; [|exact H]. by apply keeps_same.
Qed.

Lemma Yield_keeps u k k' : Yield k = Ok k' → keeps u k k'.
Proof.
  unfold Yield, FindNextToRun. destruct (readyList k) as [|[? t] r]; intros H; [by injection H as <-|].
  apply result_bind_ok in H as (k1 & H1%(ReadyToRun_keeps u) & H2%(Run_keeps u)).
  etrans; [|exact H2]. etrans; [|exact H1]. by apply keeps_same.
Qed.

Lemma Sleep_keeps u k k' : Sleep k = Ok k' → keeps u k k'.
Proof.
  intros (k1 & H1 & H2%(dispatch_keeps u))%result_bind_ok. apply (update_keeps u) in H1; [|done]. by etrans.
Qed.

Lemma P_keeps u k s rest k' : currentThread k ≠ u → P k s rest = Ok k' → keeps u k k'.
Proof.
  intros Hne (sem & _ & H)%result_bind_ok. repeat case_bool_decide; [| |done].
  - apply (Sleep_keeps u) in H. etrans; [|exact H]. by apply keeps_same.
  - apply (set_code_keeps u) in H; [|done]. etrans; [|exact H]. by apply keeps_same.
Qed.

Lemma V_keeps u k s k' : V k s = Ok k' → keeps u k k'.
Proof.
  intros (sem & _ & H)%result_bind_ok. apply result_bind_ok in H as (k1 & H1 & H).
  apply result_bind_ok in H as (sem1 & _ & H). case_bool_decide; [|done]. injection H as <-.
  etrans; [|by apply (keeps_same u k1)]. destruct (sem_queue sem); [by injection H1 as <-|].
  apply (ReadyToRun_keeps u) in H1. etrans; [|exact H1]. by apply keeps_same.
Qed.

Lemma ModifyPriority_keeps u k t k' : ModifyPriority k t = Ok k' → keeps u k k'.
Proof. unfold ModifyPriority. intros H. split_ok; [by apply keeps_same|done]. Qed.

Lemma Acquire_keeps u k l k' : Acquire_inherit k l = Ok k' → keeps u k k'.
Proof.
  intros (lk & _ & H)%result_bind_ok. apply result_bind_ok in H as (? & _ & H).
  apply result_bind_ok in H as (p & _ & H). apply result_bind_ok in H as (op & _ & H).
  case_bool_decide; [|by injection H as <-]. destruct (lockOwner lk) as [o|]; [|done].
  apply result_bind_ok in H as (k1 & H1 & H2%(ModifyPriority_keeps u)). apply (update_keeps u) in H1; [|done].
  etrans; [|exact H2]. etrans; [|exact H1]. by apply keeps_same.
Qed.

Lemma Release_keeps u k l k' : Release_restore k l = Ok k' → keeps u k k'.
Proof.
  intros (lk & _ & H)%result_bind_ok. apply result_bind_ok in H as (? & _ & H).
  apply result_bind_ok in H as (p & _ & H). case_bool_decide; [|injection H as <-; by apply keeps_same].
  apply result_bind_ok in H as (k1 & H1 & H2%(ModifyPriority_keeps u)). apply (update_keeps u) in H1; [|done].
  etrans; [|exact H2]. etrans; [|exact H1]. by apply keeps_same.
Qed.

Ltac keeps_back u Hne :=
  repeat match goal with
  | H : _ = Ok ?b |- keeps u _ ?b =>
      first [apply (set_code_keeps u) in H; [|exact Hne]
            |apply (update_keeps u) in H; [|first [done|by intros E; destruct (Hne E)]]
            |apply (Yield_keeps u) in H|apply (Sleep_keeps u) in H|apply (P_keeps u) in H; [|exact Hne]
            |apply (V_keeps u) in H|apply (Acquire_keeps u) in H|apply (Release_keeps u) in H];
      etrans; [|exact H]; clear H
  end.

(** A piece of code of another thread. *)
Lemma exec_keeps u k f rest k' : currentThread k ≠ u → exec_frame k f rest = Ok k' → keeps u k k'.
Proof.
  intros Hne H. destruct f; unfold_frame H; unfold new_Semaphore in H; split_ok; keeps_back u Hne; try (by apply keeps_same); try done.
  apply (set_code_keeps u) in E; [|done]. etrans; [exact E|]. intros Hd. split; [|eauto].
  cbn. congruence.
Qed.

(** The three states of a thread in the loop of [Broadcast]. *)
Definition broadcasting (k : Kernel) (t c : Z) (rest : list frame) : Prop :=
  ∃ th, threads k !! t = Some th ∧
    (code th = DoBroadcast c :: rest ∨ code th = DoSignal c :: DoBroadcast c :: rest ∨
     ∃ s, code th = DoV s :: DoBroadcast c :: rest).

Lemma keeps_broadcasting k k' t c rest : sched_inv None k → keeps t k k' → broadcasting k t c rest → broadcasting k' t c rest.
Proof.
  intros Hi Hkp (th & Ht & Hc). destruct Hkp as [_ Hkp].
  - intros (x & Hx & Hd)%(si_destroyed _ _ Hi). assert (x = th) as -> by congruence. rewrite Hd in Hc. naive_solver.
  - destruct (Hkp _ Ht) as (th' & Ht' & E). exists th'. split; [done|]. by rewrite E.
Qed.

(** The thread itself runs. *)
Lemma exec_broadcasting k k' c rest : sched_inv None k → queue_of k c ≠ [] →
  broadcasting k (currentThread k) c rest → exec k = Ok k' → broadcasting k' (currentThread k) c rest.
Proof.
  intros Hi Hq (th & Ht & Hc) H. unfold exec in H. rewrite (get_ok _ _ _ Ht) in H. cbn [mbind result_bind] in H.
  assert (Hset : ∀ k0 cd k', threads k0 = threads k → set_code k0 (currentThread k) cd = Ok k' →
    threads k' !! currentThread k = Some (with_code th cd)).
  { intros k0 cd k1 E (x & Hx & ->)%update_inv. rewrite E in Hx. assert (x = th) as -> by congruence.
    cbn. by rewrite E, lookup_insert_eq. }
  destruct Hc as [Hc|[Hc|[s Hc]]]; rewrite Hc in H; unfold_frame H.
  - apply result_bind_ok in H as (cd & Hcd%get_inv & H). unfold queue_of in Hq. rewrite Hcd in Hq.
    destruct (cond_queue cd) as [|s q]; [done|]. apply Hset in H; [|done]. eexists. split; [exact H|]. right. by left.
  - apply result_bind_ok in H as (cd & Hcd%get_inv & H). apply result_bind_ok in H as (lk & _ & H).
    apply result_bind_ok in H as (? & _ & H). unfold queue_of in Hq. rewrite Hcd in Hq.
    destruct (cond_queue cd) as [|s q]; [done|]. apply Hset in H; [|done]. eexists. split; [exact H|].
    right. right. by exists s.
  - apply result_bind_ok in H as (k1 & HS & HV). pose proof (Hset k _ _ eq_refl HS) as Ht1.
    apply (V_keeps (currentThread k)) in HV. destruct HV as [_ HV].
    + apply update_inv in HS as (x & _ & ->). cbn. intros (y & Hy & Hd)%(si_destroyed _ _ Hi).
      assert (y = th) as -> by congruence. congruence.
    + destruct (HV _ Ht1) as (x & Hx & E). exists x. split; [done|]. left. by rewrite E.
Qed.

Lemma step_broadcasting k k' t c rest : step k k' → sched_inv None k → queue_of k c ≠ [] →
  broadcasting k t c rest → broadcasting k' t c rest.
Proof.
  intros Hstep Hi Hq Hb.
  assert (Hne : ∀ th, threads k !! t = Some th → ¬ (code th = [] ∨ head (code th) = Some UserCode)).
  { destruct Hb as (x & Hx & Hc). intros th Ht E. assert (x = th) as -> by congruence.
    by destruct Hc as [Hc|[Hc|[s Hc]]]; rewrite Hc in E; destruct E. }
  destruct Hstep as [k th k' [Hrun Hr] H|k th f k' [Hrun Hr] Hcode Hf H|k th k' Hrun H|k s k' Hns H
    |k th u j p ch sp func k' Hrun Hn Hf H|k th k' Hc Hr H].
  - destruct (decide (currentThread k = t)) as [<-|Hct]; [by eapply exec_broadcasting|].
    eapply keeps_broadcasting; [done| |done]. unfold exec in H. rewrite (get_ok _ _ _ Hrun) in H.
    cbn [mbind result_bind] in H. destruct (code th); [by injection H as <-|by eapply exec_keeps].
  - eapply keeps_broadcasting; [done|eapply set_code_keeps; [|exact H]|done]. intros E. rewrite E in Hrun.
    by apply Hne in Hrun.
  - eapply keeps_broadcasting; [done|by eapply Yield_keeps|done].
  - eapply keeps_broadcasting; [done|by eapply V_keeps|done].
  - assert (Hut : u ≠ t) by (intros ->; destruct Hb as (? & ? & _); congruence).
    eapply keeps_broadcasting; [done| |done]. apply result_bind_ok in H as (k1 & H1 & H2%(ReadyToRun_keeps t)).
    apply (set_code_keeps t) in H1; [|done]. etrans; [|exact H2]. etrans; [|exact H1].
    intros Hd. split; [done|]. cbn. intros x Hx. exists x. by rewrite lookup_insert_ne.
  - eapply keeps_broadcasting; [done|by eapply dispatch_keeps|done].
Qed.

(** A [Broadcast] on a condition on which a thread has waited never returns:
    whatever the threads and interrupts do, the caller is still in the loop. *)
Theorem Broadcast_never_returns k k' t c rest : reachable k → rtc step k k' → queue_of k c ≠ [] →
  broadcasting k t c rest → broadcasting k' t c rest.
Proof.
  intros Hk%reachable_inv Hs. revert Hk. induction Hs as [|k1 k2 k3 H12 _ IH]; [done|]. intros [Hk Hcv] Hq Hb.
  apply IH.
  - by apply (step_inv k1).
  - intros E. pose proof (step_queue _ _ c H12) as Hp. rewrite E in Hp. apply Hq. by apply prefix_nil_inv in Hp.
  - eapply step_broadcasting; try done. apply Hk.
Qed.

(** [Signal] signals the first thread that ever waited, however often it is called. *)
Theorem Signal_same_waiter k k' c s q rest k2 : rtc step k k' → queue_of k c = s :: q →
  exec_frame k' (DoSignal c) rest = Ok k2 →
  ∃ th, threads k2 !! currentThread k' = Some th ∧ code th = DoV s :: rest.
Proof.
  intros Hs%(steps_queue _ _ c) Hq H. rewrite Hq in Hs. destruct Hs as [q2 Hq2]. unfold queue_of in Hq2.
  unfold_frame H. apply result_bind_ok in H as (cd & Hcd%get_inv & H). rewrite Hcd in Hq2.
  apply result_bind_ok in H as (lk & _ & H). apply result_bind_ok in H as (? & _ & H). rewrite Hq2 in H.
  cbn [app] in H. apply update_inv in H as (th & Ht & ->). exists (with_code th (DoV s :: rest)).
  split; [cbn; apply lookup_insert_eq|done].
Qed.

(** ** A channel *)

(** A channel (40) with its lock (20, semaphore 10) and conditions 30 and 31. *)
Definition channel0 : Kernel :=
  mkKernel {[ 1 := with_started (with_status (new_Thread false 0 0 0) RUNNING) ]} [] 1 None
    {[ 10 := mkSem 1 [] ]} {[ 20 := mkLock 10 None 0 ]} {[ 30 := mkCond 20 []; 31 := mkCond 20 [] ]}
    {[ 40 := mkChan [] 20 30 31 ]} ∅.

(** The main thread sends two messages to a thread that receives two. *)
Definition two_messages : list action :=
  [AFork 2 0 [DoReceive 40; DoReceive 40]; ACall (DoSend 40 7)] ++ replicate 37 AExec ++
  [ACall (DoSend 40 8)] ++ replicate 24 AExec.

(** Both messages arrive, and the second [Send] sleeps for ever: the signal of
    [Receive] went to the semaphore of the first one, and no thread is left. *)
Theorem Channel_second_send_stuck : ∃ k sender receiver, acts channel0 two_messages = Ok k ∧ readyList k = [] ∧
  threads k = {[ 1 := sender; 2 := receiver ]} ∧ received receiver = 8 ∧ code receiver = [Dead] ∧
  th_status sender = BLOCKED ∧ code sender = [DoP 13; DoAcquire 20; SendLoop 40 8; DoRelease 20].
Proof.
  destruct (acts channel0 two_messages) as [k|e] eqn:E; [|vm_compute in E; discriminate E].
  vm_compute in E. injection E as <-. do 3 eexists. split_and!; reflexivity.
Qed.

(** ** Priorities *)

(** [Release] gives the running thread the priority that the lock recorded, also
    when the thread had not inherited any. *)
Theorem Release_sets_priority k l lk th k' : sched_inv None k → running k th → locks k !! l = Some lk →
  Release_restore k l = Ok k' → ∃ th', threads k' !! currentThread k = Some th' ∧ priority th' = oldPriority lk.
Proof.
  intros Hi Hrun Hlk H. unfold Release_restore in H. rewrite (get_ok _ _ _ Hlk) in H. cbn [mbind result_bind] in H.
  apply result_bind_ok in H as (? & _ & H). apply result_bind_ok in H as (p & Hp & H).
  set (k0 := set_locks k _) in *. assert (Hi0 : sched_inv None k0) by (by apply (sched_inv_same None k)).
  case_bool_decide as Hne.
  - apply result_bind_ok in H as (k1 & HP & HM).
    assert (Ek : currentThread k1 = currentThread k0) by (by apply update_inv in HP as (? & _ & ->)). rewrite Ek in HM.
    destruct (reprioritize_inv _ _ _ _ _ Hi0 HP HM) as (_ & _ & _ & _ & _ & y & _ & Et).
    exists (with_priority y (oldPriority lk)). split; [rewrite Et; apply lookup_insert_eq|done].
  - injection H as <-. unfold GetPriority in Hp. rewrite (get_ok _ _ th) in Hp by apply Hrun.
    injection Hp as <-. exists th. split; [apply Hrun|]. destruct (decide (priority th = oldPriority lk)); [done|].
    by destruct Hne.
Qed.
