(* ===== verification/Transfer.v ===== *)
(** * [userprog/transfer.cc] and [userprog/args.cc]: memory of user programs

    The kernel reads and writes the memory of the running process one access at
    a time, through the MMU.  An access may fault; then the page-fault handler
    brings the page in and the access is tried again ([NUMBER_OF_TRIES]).  On top
    of this: buffers, strings, and the arguments of a new program.  Characters
    are integers in [0, 256). *)

From S2P Require Import Prelude Bitmap Disk ReadWrite Mmu Mips AddressSpace Paging.
From stdpp Require Import base option list gmap numbers tactics.
From stdpp Require Import list.
Open Scope Z_scope.

Definition NUMBER_OF_TRIES : nat := 3.
Definition LSDIR_OUTPUT : Z := 200.
Definition MAX_ARG_COUNT : Z := 32.
Definition MAX_ARG_LENGTH : Z := 128.

(** A conversion to [unsigned char]. *)
Definition u8 (v : Z) : Z := v mod 256.

Section Transfer.
(** The memory in which the page-fault handler creates [Executable] objects. *)
Context (garbage : list Z).

Definition set_machine (s : VM) (m : Machine) : VM :=
  mkVM m (addressesBitMap s) (coreMap s) (runningProcesses s) (currentSpace s) (numFaults s).

(** [DefaultHandler] stops the kernel. *)
Definition DefaultHandler (s : VM) : result VM := _ ← ReadRegister (machine s) 2; Err AssertFail.

(** ** Accesses *)

(** [RaiseException] for an access that failed, with its handler. *)
Definition raise_fault (s : VM) (et : ExceptionType) (addr : Z) : result VM :=
  o ← RaiseException (machine s) et (u32 addr);
  match o with
  | Raised PAGE_FAULT_EXCEPTION m => TLBPageFaultHandler garbage (set_machine s m)
  | Raised _ m => DefaultHandler (set_machine s m)
  | Completed _ => Err Undefined
  end.

Definition Machine_ReadMem (s : VM) (addr size : Z) : result (option Z * VM) :=
  r ← ReadMem (vm_mmu s) (u32 addr) size;
  let s := set_vm_mmu s r.2 in
  match r.1 with
  | inl e => s ← raise_fault s e addr; Ok (None, s)
  | inr v => Ok (Some v, s)
  end.

Definition Machine_WriteMem (s : VM) (addr size v : Z) : result (bool * VM) :=
  r ← WriteMem (vm_mmu s) (u32 addr) size v;
  let s := set_vm_mmu s r.2 in
  if decide (r.1 = NO_EXCEPTION) then Ok (true, s)
  else s ← raise_fault s r.1 addr; Ok (false, s).

(** At most [n] tries; [temp] is the variable that receives the value. *)
Fixpoint try_read (n : nat) (s : VM) (addr size temp : Z) : result (bool * Z * VM) :=
  match n with
  | O => Ok (false, temp, s)
  | S n =>
      r ← Machine_ReadMem s addr size;
      match r with
      | (Some v, s) => Ok (true, v, s)
      | (None, s) => try_read n s addr size temp
      end
  end.
Fixpoint try_write (n : nat) (s : VM) (addr size v : Z) : result (bool * VM) :=
  match n with
  | O => Ok (false, s)
  | S n =>
      r ← Machine_WriteMem s addr size v;
      match r with
      | (true, s) => Ok (true, s)
      | (false, s) => try_write n s addr size v
      end
  end.

(** [userAddress++] after a success. *)
Definition next_address (ok : bool) (addr : Z) : result Z :=
  if ok then (if bool_decide (addr < 2147483647) then Ok (addr + 1) else Err Undefined) else Ok addr.

(** ** [transfer.cc] *)

(** [n] iterations of the loop of [ReadBufferFromUser]. *)
Fixpoint read_buffer (n : nat) (s : VM) (addr temp : Z) : result (list Z * VM) :=
  match n with
  | O => Ok ([], s)
  | S n =>
      r ← try_read NUMBER_OF_TRIES s addr 1 temp;
      let '(ok, temp, s) := r in
      addr ← next_address ok addr;
      r ← read_buffer n s addr temp;
      Ok (u8 temp :: r.1, r.2)
  end.

(** The characters stored at [outBuffer]; [uninit] is the value of [temp]. *)
Definition ReadBufferFromUser (s : VM) (userAddress byteCount uninit : Z) : result (list Z * VM) :=
  _ ← ASSERT (bool_decide (userAddress ≠ 0));
  _ ← ASSERT (bool_decide (byteCount > 0) && bool_decide (byteCount <= LSDIR_OUTPUT));
  r ← read_buffer (Z.to_nat byteCount) s userAddress uninit;
  Ok (r.1 ++ [0], r.2).

(** The loop of [ReadStringFromUser], with at most [n] more characters. *)
Fixpoint read_string (n : nat) (s : VM) (addr uninit : Z) : result (list Z * VM) :=
  match n with
  | O => Ok ([], s)
  | S n =>
      r ← try_read NUMBER_OF_TRIES s addr 1 uninit;
      let '(ok, temp, s) := r in
      addr ← next_address ok addr;
      if bool_decide (u8 temp = 0) then Ok ([0], s)
      else r ← read_string n s addr uninit; Ok (u8 temp :: r.1, r.2)
  end.

Definition ReadStringFromUser (s : VM) (userAddress maxByteCount uninit : Z) : result (bool * list Z * VM) :=
  _ ← ASSERT (bool_decide (userAddress ≠ 0));
  _ ← ASSERT (bool_decide (maxByteCount ≠ 0));
  r ← read_string (Z.to_nat maxByteCount) s userAddress uninit;
  Ok (bool_decide (last r.1 = Some 0), r.1, r.2).

(** The loop of [WriteBufferToUser]; [*(int * ) buffer] reads past the character,
    of which only the low byte is stored. *)
Fixpoint write_buffer (n : nat) (s : VM) (buffer : list Z) (addr : Z) : result VM :=
  match n with
  | O => Ok s
  | S n =>
      match buffer with
      | [] => Err OutOfBounds
      | c :: buffer =>
          r ← try_write NUMBER_OF_TRIES s addr 1 c;
          let '(ok, s) := r in
          addr ← next_address ok addr;
          if bool_decide (c = 0) then Ok s else write_buffer n s buffer addr
      end
  end.

Definition WriteBufferToUser (s : VM) (buffer : list Z) (userAddress byteCount : Z) : result VM :=
  _ ← ASSERT (bool_decide (userAddress ≠ 0));
  _ ← ASSERT (bool_decide (byteCount > 0) && bool_decide (byteCount <= LSDIR_OUTPUT));
  write_buffer (Z.to_nat byteCount) s buffer userAddress.

(** The loop of [WriteStringToUser], on the characters up to the final null. *)
Fixpoint write_string (s : VM) (str : list Z) (addr : Z) : result VM :=
  match str with
  | [] => Err OutOfBounds
  | c :: str =>
      r ← try_write NUMBER_OF_TRIES s addr 1 c;
      let '(ok, s) := r in
      addr ← next_address ok addr;
      if bool_decide (c = 0) then Ok s else write_string s str addr
  end.

Definition WriteStringToUser (s : VM) (str : list Z) (userAddress : Z) : result VM :=
  _ ← ASSERT (bool_decide (userAddress ≠ 0));
  write_string s str userAddress.

(** ** [args.cc] *)

(** The loop of [CountArgsToSave]; [n] is [MAX_ARG_COUNT - c]. *)
Fixpoint count_args (n : nat) (c : Z) (s : VM) (address val : Z) : result (Z * Z * VM) :=
  match n with
  | O => Ok (c, val, s)
  | S n =>
      r ← try_read (S NUMBER_OF_TRIES) s (u32 (u32 address + 4 * c)) 4 val;
      let '(_, val, s) := r in
      if bool_decide (val ≠ 0) then count_args n (c + 1) s address val else Ok (c + 1, val, s)
  end.

Definition CountArgsToSave (s : VM) (address uninit : Z) : result (option Z * VM) :=
  _ ← ASSERT (bool_decide (address ≠ 0));
  r ← count_args (Z.to_nat MAX_ARG_COUNT) 0 s address uninit;
  let '(c, val, s) := r in
  if bool_decide (c = MAX_ARG_COUNT) && bool_decide (val ≠ 0) then Ok (None, s) else Ok (Some (c - 1), s).

(** The loop of [SaveArgs]. *)
Fixpoint save_args (n : nat) (i : Z) (s : VM) (address uninit : Z) : result (list (list Z) * VM) :=
  match n with
  | O => Ok ([], s)
  | S n =>
      r ← try_read (S NUMBER_OF_TRIES) s (u32 (u32 address + i * 4)) 4 uninit;
      let '(_, strAddr, s) := r in
      r ← ReadStringFromUser s strAddr MAX_ARG_LENGTH uninit;
      let '(_, str, s) := r in
      r ← save_args n (i + 1) s address uninit;
      Ok (str :: r.1, r.2)
  end.

(** The array of strings, without its final null; or null. *)
Definition SaveArgs (s : VM) (address uninit : Z) : result (option (list (list Z)) * VM) :=
  _ ← ASSERT (bool_decide (address ≠ 0));
  r ← CountArgsToSave s address uninit;
  match r with
  | (None, s) => Ok (None, s)
  | (Some count, s) =>
      r ← save_args (Z.to_nat count) 0 s address uninit;
      Ok (Some r.1, r.2)
  end.

(** The first loop of [WriteArgs]: the strings, from [sp] down; [argsAddress] is
    the list of their addresses.  [args] are strings with their final null, so
    [strlen] is one less than their length. *)
Fixpoint write_strings (args : list (list Z)) (s : VM) (sp : Z) : result (list Z * Z * VM) :=
  match args with
  | [] => Ok ([], sp, s)
  | a :: args =>
      let sp := s32 (sp - Z.of_nat (length a)) in
      s ← WriteStringToUser s a sp;
      r ← write_strings args s sp;
      let '(addrs, sp', s) := r in
      Ok (sp :: addrs, sp', s)
  end.

(** The second loop: the array [argv]. *)
Fixpoint write_argv (addrs : list Z) (i : Z) (s : VM) (sp : Z) : result VM :=
  match addrs with
  | [] => Ok s
  | a :: addrs =>
      r ← try_write (S NUMBER_OF_TRIES) s (u32 (u32 sp + 4 * i)) 4 a;
      write_argv addrs (i + 1) r.2 sp
  end.

Definition WriteArgs (s : VM) (args : list (list Z)) : result (Z * VM) :=
  sp ← ReadRegister (machine s) STACK_REG;
  let c := Z.of_nat (length args) in
  r ← write_strings (take (Z.to_nat MAX_ARG_COUNT) args) s sp;
  let '(addrs, sp, s) := r in
  _ ← ASSERT (bool_decide (c < MAX_ARG_COUNT));
  let sp := sp - Z.rem sp 4 in
  let sp := s32 (u32 sp - (c * 4 + 4)) in
  s ← write_argv addrs 0 s sp;
  r ← try_write (S NUMBER_OF_TRIES) s (u32 (u32 sp + 4 * c)) 4 0;
  m ← WriteRegister (machine r.2) STACK_REG sp;
  Ok (c, set_machine r.2 m).
End Transfer.
