(* ===== verification/UserMemory.v ===== *)
(** * The kernel's view of user memory

    The virtual memory of the running process as a map from addresses to bytes
    ([vmem]).  A read or a write of the kernel succeeds after at most one page
    fault and has exactly its effect on this map, wherever pages are; so
    buffers and strings are copied faithfully, and the arguments that a program
    passes to another arrive. *)

From S2P Require Import Prelude Bitmap Disk ReadWrite Mmu Mips AddressSpace Paging Transfer.
From stdpp Require Import base option list gmap numbers tactics.
From stdpp Require Import list.
Open Scope Z_scope.

(** ** The page-fault handler keeps the registers and the process *)
(** The processes that have an address space. *)
Definition live (s : VM) : gset Z := dom (omap id (runningProcesses s)).

Lemma live_spec s id : id ∈ live s ↔ is_Some (sp_of s id).
Proof. unfold live, sp_of. rewrite elem_of_dom, lookup_omap. by destruct (runningProcesses s !! id) as [[]|]. Qed.

Lemma live_set s id sp sp' : space_of s id = Ok sp → live (set_vm_space s id sp') = live s.
Proof.
  unfold space_of. intros H. apply set_eq. intros x. rewrite !live_spec. unfold sp_of. cbn.
  destruct (decide (x = id)) as [->|]; [|by rewrite lookup_insert_ne].
  rewrite lookup_insert_eq. destruct (runningProcesses s !! id) as [[]|]; done.
Qed.

Definition cpu (s : VM) : list Z * (ExceptionType → bool) * Z * gset Z :=
  (registers (machine s), handlers (machine s), currentSpace s, live s).

Lemma cpu_set_space s id sp sp' : space_of s id = Ok sp → cpu (set_vm_space s id sp') = cpu s.
Proof. intros H. unfold cpu. by rewrite (live_set s id sp sp' H). Qed.

Lemma cpu_set_mmu s u : cpu (set_vm_mmu s u) = cpu s.
Proof. done. Qed.

Lemma set_page_cpu s id v e s' : set_page s id v e = Ok s' → cpu s' = cpu s.
Proof. unfold set_page. intros (sp & Es & (pt & _ & [= <-])%result_bind_ok)%result_bind_ok. by apply (cpu_set_space s id sp). Qed.

Section UserMemory.
Context (garbage : list Z).

Lemma LoadPage_cpu s id a p s' : LoadPage garbage s id a p = Ok s' → cpu s' = cpu s.
Proof. unfold LoadPage. intros. invok. done. Qed.

Lemma EvacuatePage_cpu s f s' : EvacuatePage s = Ok (f, s') → cpu s' = cpu s.
Proof.
  unfold EvacuatePage, save_victim. intros (r & _ & H)%result_bind_ok. destruct r as [victim u].
  apply result_bind_ok in H as (c & _ & H). destruct c as [cs cp].
  case_bool_decide; [|by injection H as <- <-].
  apply result_bind_ok in H as (e & _ & H). apply result_bind_ok in H as (t & _ & H).
  apply result_bind_ok in H as (r & _ & H). destruct r as [t' e']. apply result_bind_ok in H as (s1 & H1 & H).
  injection H as <- <-. apply result_bind_ok in H1 as (s2 & H2 & H1). rewrite (set_page_cpu _ _ _ _ _ H1).
  destruct (dirty e'); [|by injection H2 as <-]. apply result_bind_ok in H2 as (sp & Es & H2). invok.
  exact (cpu_set_space _ cs sp _ Es).
Qed.

Lemma find_frame_cpu s f s' : find_frame s = Ok (f, s') → cpu s' = cpu s.
Proof.
  unfold find_frame. intros (r & _ & H)%result_bind_ok. destruct r as [pf b]. case_bool_decide; [|by injection H as <- <-].
  apply result_bind_ok in H as (r & H1 & H). destruct r as [fr s1]. apply EvacuatePage_cpu in H1.
  apply result_bind_ok in H as (? & _ & H). injection H as <- <-. done.
Qed.

Lemma install_entry_cpu s id v s' : install_entry s id v = Ok s' → cpu s' = cpu s.
Proof.
  unfold install_entry. intros (t & _ & H)%result_bind_ok. apply result_bind_ok in H as (old & _ & H).
  apply result_bind_ok in H as (s1 & H1 & H). assert (E : cpu s1 = cpu s).
  { destruct (valid old); [|by injection H1 as <-]. apply result_bind_ok in H1 as (t' & _ & H1).
    by rewrite (set_page_cpu _ _ _ _ _ H1). }
  clear H1. invok. done.
Qed.

Lemma load_missing_cpu s id a v s' : load_missing garbage s id a v = Ok s' → cpu s' = cpu s.
Proof.
  unfold load_missing. intros (r & H1 & H)%result_bind_ok. destruct r as [f s1].
  apply result_bind_ok in H as (e & _ & H). apply result_bind_ok in H as (s2 & H2 & H).
  apply result_bind_ok in H as (c & _ & H). apply result_bind_ok in H as (e' & _ & H).
  rewrite (LoadPage_cpu _ _ _ _ _ H), cpu_set_mmu, (set_page_cpu _ _ _ _ _ H2). by eapply find_frame_cpu.
Qed.

Lemma TLBPageFaultHandler_cpu s s' : TLBPageFaultHandler garbage s = Ok s' → cpu s' = cpu s.
Proof.
  unfold TLBPageFaultHandler. intros (a & _ & H)%result_bind_ok. apply result_bind_ok in H as (e & _ & H).
  apply result_bind_ok in H as (s1 & H1 & H). apply result_bind_ok in H as (s2 & H2 & H).
  rewrite (install_entry_cpu _ _ _ _ H), <-(set_page_cpu _ _ _ _ _ H1).
  case_bool_decide; [by eapply load_missing_cpu|by injection H2 as <-].
Qed.

(** ** Well-formed states and what they show *)
Record user_ok (s : VM) : Prop := {
  uo_inv : ∃ t, vm_inv garbage None s t;
  uo_regs : length (registers (machine s)) = 40%nat;
  uo_load : ∃ r, reg (machine s) LOAD_REG = Ok r ∧ 0 ≤ r < 32;
  uo_fault : handlers (machine s) PAGE_FAULT_EXCEPTION = true
}.

(** The byte at a virtual address of the running process. *)
Definition vmem (s : VM) (a : Z) : option Z :=
  if bool_decide (0 ≤ a) then
    pg ← vpage garbage s (currentSpace s) (Z.to_nat (a / 128)); pg !! Z.to_nat (a mod 128)
  else None.

(** Nothing of any process changed. *)
Record same_memory (s s' : VM) : Prop := {
  sm_cur : currentSpace s' = currentSpace s;
  sm_page id v : vpage garbage s' id v = vpage garbage s id v
}.

#[export] Instance same_memory_refl : Reflexive same_memory.
Proof. by split. Qed.

#[export] Instance same_memory_trans : Transitive same_memory.
Proof. intros s1 s2 s3 [C1 P1] [C2 P2]. split; [congruence|]. intros. by rewrite P2. Qed.

Lemma same_vmem s s' a : same_memory s s' → vmem s' a = vmem s a.
Proof. intros [C P]. unfold vmem. by rewrite C, P. Qed.

(** ** One access *)
Lemma set_reg_eq (m : Machine) r v : 0 ≤ r → (Z.to_nat r < length (registers m))%nat →
  set_reg m r v = Ok (mkMachine (<[Z.to_nat r := v]> (registers m)) (mmu m) (handlers m)).
Proof. intros ? ?. unfold set_reg. by rewrite wr_ok by lia. Qed.

Lemma reg_set (m : Machine) r v q : (Z.to_nat r < length (registers m))%nat → 0 ≤ q → 0 ≤ r →
  reg (mkMachine (<[Z.to_nat r := v]> (registers m)) (mmu m) (handlers m)) q = if decide (q = r) then Ok v else reg m q.
Proof.
  intros Hr Hq H0. unfold reg. cbn [registers]. case_decide as E.
  - subst. apply rd_ok; [done|]. by apply list_lookup_insert_eq.
  - unfold rd. case_bool_decide; [|done]. by rewrite list_lookup_insert_ne by lia.
Qed.

(** The effect of an assignment to a register. *)
Lemma set_reg_effect (m : Machine) r v : length (registers m) = 40%nat → 0 ≤ r < 40 →
  ∃ m', set_reg m r v = Ok m' ∧ length (registers m') = 40%nat ∧ mmu m' = mmu m ∧ handlers m' = handlers m ∧
    ∀ q, 0 ≤ q → reg m' q = if decide (q = r) then Ok v else reg m q.
Proof.
  intros Hl Hr. rewrite set_reg_eq by lia. eexists. split; [done|]. cbn [registers mmu handlers].
  split_and!; [by rewrite length_insert|done|done|]. intros q Hq. apply reg_set; lia.
Qed.

Lemma raise_state s et a : user_ok s → handlers (machine s) et = true → 0 ≤ a < 2 ^ 32 →
  ∃ m, RaiseException (machine s) et (u32 a) = Ok (Raised et m) ∧ mmu m = vm_mmu s ∧
    ReadRegister m BAD_VADDR_REG = Ok (s32 a) ∧ length (registers m) = 40%nat ∧
    reg m LOAD_REG = Ok 0 ∧ handlers m = handlers (machine s).
Proof.
  intros [_ Hr (lr & Hlr & Hl) _] Hh Ha. unfold vm_mmu. set (m0 := machine s) in *.
  unfold RaiseException, ASSERT. rewrite Hh. cbn [mbind result_bind]. rewrite (u32_id a) by (unfold is_u32; lia).
  destruct (set_reg_effect m0 BAD_VADDR_REG (s32 a) Hr) as (m1 & -> & Hr1 & Hu1 & Hh1 & Q1); [done|].
  cbn [mbind result_bind]. unfold DelayedLoad. rewrite (Q1 LOAD_REG), (decide_False (P:=LOAD_REG = BAD_VADDR_REG)), Hlr by done. cbn [mbind result_bind].
  destruct (rd_in_range (registers m1) LOAD_VALUE_REG) as (lv & E2 & _); [rewrite Hr1; vm_compute; split; congruence|].
  unfold reg at 1. rewrite E2. cbn [mbind result_bind].
  destruct (set_reg_effect m1 lr lv Hr1) as (m2 & -> & Hr2 & Hu2 & Hh2 & Q2); [lia|]. cbn [mbind result_bind].
  destruct (set_reg_effect m2 LOAD_REG 0 Hr2) as (m3 & -> & Hr3 & Hu3 & Hh3 & Q3); [done|]. cbn [mbind result_bind].
  destruct (set_reg_effect m3 LOAD_VALUE_REG 0 Hr3) as (m4 & -> & Hr4 & Hu4 & Hh4 & Q4); [done|]. cbn [mbind result_bind].
  destruct (set_reg_effect m4 0 0 Hr4) as (m5 & -> & Hr5 & Hu5 & Hh5 & Q5); [done|]. cbn [mbind result_bind].
  exists m5. split_and!; [done|congruence| |done| |congruence].
  - unfold ReadRegister, ASSERT. rewrite bool_decide_true by done. cbn [mbind result_bind].
    rewrite Q5, decide_False, Q4, decide_False, Q3, decide_False, Q2, decide_False, Q1, decide_True by done || (unfold BAD_VADDR_REG; lia).
    done.
  - by rewrite Q5, decide_False, Q4, decide_False, Q3, decide_True by done.
Qed.

(** A TLB miss counts a reference and changes nothing else. *)
Lemma miss_ok s t a size writing : vm_inv garbage None s t → misaligned a size = false →
  tlb_find 0 t (a / PAGE_SIZE) = None →
  ∃ u, Translate (vm_mmu s) a size writing = Ok (inl PAGE_FAULT_EXCEPTION, u) ∧
    vm_inv garbage None (set_vm_mmu s u) t ∧
    lru_of u = (u32 (references_done (vm_mmu s) + 1), last_use_counter (vm_mmu s)) ∧
    ∀ id v, vpage garbage (set_vm_mmu s u) id v = vpage garbage s id v.
Proof.
  intros Hi Hm Hf. pose proof (vi_mmu _ _ _ _ Hi) as [Hmem Htlb Hpt Hfr Hcnt].
  unfold Translate, RetrievePageEntry, ASSERT. rewrite Htlb, Hpt, bool_decide_false, bool_decide_true by done.
  cbn [xorb mbind result_bind]. rewrite Hm, Hf. cbn [mbind result_bind]. eexists. split; [done|].
  set (u := mkMMU _ _ _ _ _ _ _). split; [|done].
  assert (Hu : mmu_wf u t) by (by split). by destruct Hi; split.
Qed.

(** After the fault the page is mapped. *)
Lemma fault_ok s t a v : user_ok s → vm_inv garbage None s t → 0 ≤ a < 2 ^ 32 →
  a / PAGE_SIZE = Z.of_nat v → is_Some (pte s (currentSpace s) v) → tlb_find 0 t (Z.of_nat v) = None →
  ∃ s' t' p, raise_fault garbage s PAGE_FAULT_EXCEPTION a = Ok s' ∧ user_ok s' ∧ vm_inv garbage None s' t' ∧
    same_memory s s' ∧ mapped t' v p.
Proof.
  intros Hu Hi Ha Hv Hp Hf. unfold raise_fault.
  destruct (raise_state s PAGE_FAULT_EXCEPTION a Hu (uo_fault _ Hu) Ha) as (m & -> & Hm & Hb & Hl & Hlr & Hh).
  cbn [mbind result_bind]. destruct (vm_inv_registers _ _ _ _ Hi Hm) as [Hi1 Hv1].
  change (mkVM m _ _ _ _ _) with (set_machine s m) in Hi1, Hv1.
  destruct (page_fault_ok _ (set_machine s m) t (s32 a) v Hi1) as (s' & t' & p & E & Hi' & Hc & Hv' & Hmap & _); try done.
  { by rewrite u32_s32, u32_id by (unfold is_u32; lia). }
  exists s', t', p. apply TLBPageFaultHandler_cpu in E as Ec. unfold cpu in Ec. injection Ec as Er Eh Es _.
  split_and!; try done; split.
  - by exists t'.
  - by rewrite Er.
  - exists 0. split; [|lia]. unfold reg in *. by rewrite Er.
  - rewrite Eh. cbn. rewrite Hh. apply Hu.
  - done.
  - intros id w. by rewrite Hv', Hv1.
Qed.

(** A byte that can be seen is in a page of the process. *)
Lemma vmem_page s a b : vmem s a = Some b → ∃ pg v, 0 ≤ a ∧ a / PAGE_SIZE = Z.of_nat v ∧
  vpage garbage s (currentSpace s) v = Some pg ∧ pg !! Z.to_nat (a mod PAGE_SIZE) = Some b ∧
  is_Some (pte s (currentSpace s) v).
Proof.
  unfold vmem. case_bool_decide as Ha; [|done]. intros (pg & Hpg & Hb)%bind_Some.
  exists pg, (Z.to_nat (a / 128)). change PAGE_SIZE with 128. split_and!; try done; [by rewrite Z2Nat.id by (apply Z.div_pos; lia)|].
  destruct (pte s (currentSpace s) (Z.to_nat (a / 128))) as [e|] eqn:E; [by eexists|].
  rewrite vpage_None in Hpg by done. done.
Qed.

Lemma user_ok_mmu s u t : user_ok s → vm_inv garbage None (set_vm_mmu s u) t → user_ok (set_vm_mmu s u).
Proof. intros [_ Hr Hl Hf] Hi. split; try done. by exists t. Qed.

(** Hit or miss. *)
Lemma tlb_cases s t a v size writing : vm_inv garbage None s t → misaligned a size = false →
  a / PAGE_SIZE = Z.of_nat v →
  tlb_find 0 t (Z.of_nat v) = None ∨ ∃ p, translation t a size writing = inr p.
Proof.
  intros Hi Hm Hv. destruct (tlb_find 0 t (Z.of_nat v)) as [[j te]|] eqn:Ef; [right|by left].
  pose proof (tlb_find_spec _ _ _ _ _ Ef) as (Hj & Hl & Hval & Hp).
  destruct (vi_tlb_pte _ _ _ _ Hi _ _ Hl Hval) as (_ & _ & _ & Hro & _).
  unfold translation, tlb_entry. rewrite Hm, Hv, Ef. cbn. rewrite Hro. by eexists.
Qed.

(** ** Reading *)
Lemma value_of_stored size w : size = 1 ∨ size = 2 ∨ size = 4 → value_of size (stored size w) = loaded size w.
Proof.
  intros [-> | [-> | ->]]; [done|..].
  - change (le_word (le_bytes 2 (Z.land w 65535)) = Z.land w 65535). rewrite le_word_bytes; [done|].
    change 65535 with (Z.ones 16). change (256 ^ Z.of_nat 2) with (2 ^ 16). apply land_ones_range. lia.
  - change (s32 (le_word (le_bytes 4 (u32 w))) = s32 w). rewrite le_word_bytes; [apply s32_u32|].
    apply u32_range.
Qed.

Lemma read_hit s t a v size pa : user_ok s → vm_inv garbage None s t → 0 ≤ a < 2 ^ 32 → size = 1 ∨ size = 4 →
  a / PAGE_SIZE = Z.of_nat v → translation t a size false = inr pa →
  ∃ s', user_ok s' ∧ same_memory s s' ∧
    (∀ b, size = 1 → vmem s a = Some b → Machine_ReadMem garbage s a size = Ok (Some (sext8 b), s')) ∧
    (∀ pg w, vpage garbage s (currentSpace s) v = Some pg → slice pg (a mod PAGE_SIZE) size = Ok (stored size w) →
      Machine_ReadMem garbage s a size = Ok (Some (loaded size w), s')).
Proof.
  intros Hu Hi Ha Hs Hv Hpa.
  destruct (load_ok _ s t a size v pa Hi) as (u & t' & pg & Hi' & _ & Hvp & Hpg & Hlen & Hrd); [lia|tauto|done|done|].
  exists (set_vm_mmu s u). split_and!.
  - by eapply user_ok_mmu.
  - by split.
  - intros b Es (pg' & v' & _ & Hv' & Hpg' & Hb & _)%vmem_page. assert (v' = v) as -> by lia.
    assert (pg' = pg) as -> by congruence. unfold Machine_ReadMem. rewrite (u32_id a) by (unfold is_u32; lia).
    rewrite (Hrd [b]); [by subst size|]. subst size. apply lookup_lt_Some in Hb as Hlt.
    change PAGE_SIZE with 128 in *. pose proof (Z.mod_pos_bound a 128 ltac:(done)).
    rewrite slice_ok by lia. by rewrite (drop_S _ _ _ Hb).
  - intros pg' w Hpg' Hsl. assert (pg' = pg) as -> by congruence.
    unfold Machine_ReadMem. rewrite (u32_id a) by (unfold is_u32; lia). rewrite (Hrd _ Hsl), value_of_stored by tauto. done.
Qed.

Lemma read_miss s t a v size : user_ok s → vm_inv garbage None s t → 0 ≤ a < 2 ^ 32 → misaligned a size = false →
  a / PAGE_SIZE = Z.of_nat v → is_Some (pte s (currentSpace s) v) → tlb_find 0 t (Z.of_nat v) = None →
  ∃ s' t' p, Machine_ReadMem garbage s a size = Ok (None, s') ∧ user_ok s' ∧ vm_inv garbage None s' t' ∧
    same_memory s s' ∧ mapped t' v p.
Proof.
  intros Hu Hi Ha Hm Hv Hp Hf. unfold Machine_ReadMem. rewrite (u32_id a) by (unfold is_u32; lia).
  destruct (miss_ok s t a size false Hi Hm) as (u & Et & Hi1 & _ & Hv1); [by rewrite Hv|].
  unfold ReadMem. rewrite Et. cbn [mbind result_bind fst snd].
  destruct (fault_ok (set_vm_mmu s u) t a v) as (s' & t' & p & -> & Hu' & Hi' & Hsm & Hmap); try done.
  { by eapply user_ok_mmu. }
  exists s', t', p. split_and!; try done. etrans; [|exact Hsm]. by split.
Qed.

(** Two tries are enough for a byte and for an aligned word. *)
Lemma try_read_1 n s a b temp : user_ok s → vmem s a = Some b → a < 2 ^ 32 →
  ∃ s', try_read garbage (S (S n)) s a 1 temp = Ok (true, sext8 b, s') ∧ user_ok s' ∧ same_memory s s'.
Proof.
  intros Hu Hb Ha. destruct (uo_inv _ Hu) as [t Hi]. pose proof Hb as (pg & v & H0 & Hv & _ & _ & Hp)%vmem_page.
  cbn [try_read]. destruct (tlb_cases s t a v 1 false Hi) as [Hf|[pa Hpa]]; [done|done| |].
  - destruct (read_miss s t a v 1 Hu Hi) as (s1 & t1 & p & -> & Hu1 & Hi1 & Hsm1 & Hmap); try done.
    cbn [mbind result_bind].
    destruct (read_hit s1 t1 a v 1 (p * PAGE_SIZE + a mod PAGE_SIZE) Hu1 Hi1) as (s2 & Hu2 & Hsm2 & H2 & _); [done|by left|done|by apply Hmap|].
    rewrite (H2 b); [|done|by rewrite (same_vmem s s1)]. exists s2. split_and!; try done. by etrans.
  - destruct (read_hit s t a v 1 pa Hu Hi) as (s2 & Hu2 & Hsm2 & H2 & _); [done|by left|done|done|].
    rewrite (H2 b) by done. by exists s2.
Qed.

(** The four bytes at an aligned address. *)
Definition vword (s : VM) (a w : Z) : Prop := ∀ i : nat, (i < 4)%nat → vmem s (a + Z.of_nat i) = le_bytes 4 (u32 w) !! i.

Lemma vword_page s a w v pg : vword s a w → 0 ≤ a → a mod 4 = 0 → a / PAGE_SIZE = Z.of_nat v →
  vpage garbage s (currentSpace s) v = Some pg → slice pg (a mod PAGE_SIZE) 4 = Ok (stored 4 w).
Proof.
  intros Hw H0 H4 Hv Hpg. change PAGE_SIZE with 128 in *.
  assert (Hi : ∀ i : nat, (i < 4)%nat → pg !! (Z.to_nat (a mod 128) + i)%nat = le_bytes 4 (u32 w) !! i).
  { intros i Hi. rewrite <-Hw by done. unfold vmem. rewrite bool_decide_true by lia.
    replace ((a + Z.of_nat i) / 128) with (a / 128) by (Z.div_mod_to_equations; lia). rewrite Hv, Nat2Z.id, Hpg.
    cbn [mbind option_bind]. f_equal. Z.div_mod_to_equations; lia. }
  assert (Hl : (Z.to_nat (a mod 128) + 3 < length pg)%nat).
  { apply lookup_lt_is_Some. rewrite (Hi 3%nat) by lia. by eexists. }
  rewrite slice_ok by (Z.div_mod_to_equations; lia). f_equal. unfold stored. rewrite !bool_decide_false by done.
  apply list_eq. intros i. destruct (decide (i < 4)%nat).
  - rewrite lookup_take_lt, lookup_drop by lia. by apply Hi.
  - rewrite lookup_take_ge by lia. symmetry. apply lookup_ge_None. rewrite le_bytes_length. lia.
Qed.

Lemma try_read_4 n s a w temp : user_ok s → vword s a w → 0 ≤ a < 2 ^ 32 → a mod 4 = 0 →
  ∃ s', try_read garbage (S (S n)) s a 4 temp = Ok (true, s32 w, s') ∧ user_ok s' ∧ same_memory s s'.
Proof.
  intros Hu Hw Ha H4. destruct (uo_inv _ Hu) as [t Hi].
  assert (Hb : ∃ b, vmem s a = Some b). { pose proof (Hw 0%nat ltac:(lia)) as H. rewrite Z.add_0_r in H. rewrite H. by eexists. }
  destruct Hb as (b & (pg & v & H0 & Hv & Hpg & _ & Hp)%vmem_page).
  assert (Hm : misaligned a 4 = false).
  { unfold misaligned. rewrite land_3, H4. done. }
  assert (Hld : loaded 4 w = s32 w) by done.
  cbn [try_read]. destruct (tlb_cases s t a v 4 false Hi) as [Hf|[pa Hpa]]; [done|done| |].
  - destruct (read_miss s t a v 4 Hu Hi) as (s1 & t1 & p & -> & Hu1 & Hi1 & Hsm1 & Hmap); try done.
    cbn [mbind result_bind].
    destruct (read_hit s1 t1 a v 4 (p * PAGE_SIZE + a mod PAGE_SIZE) Hu1 Hi1) as (s2 & Hu2 & Hsm2 & _ & H2); [done|by right|done|by apply Hmap|].
    rewrite (H2 pg w), Hld.
    + exists s2. split_and!; try done. by etrans.
    + by rewrite (sm_cur _ _ Hsm1), (sm_page _ _ Hsm1).
    + by eapply vword_page.
  - destruct (read_hit s t a v 4 pa Hu Hi) as (s2 & Hu2 & Hsm2 & _ & H2); [done|by right|done|done|].
    rewrite (H2 pg w), Hld; [by exists s2|done|by eapply vword_page].
Qed.

(** ** Writing *)

(** The bytes [bs] were written at [a], and nothing else changed. *)
Record wrote (s s' : VM) (a : Z) (bs : list Z) : Prop := {
  wo_cur : currentSpace s' = currentSpace s;
  wo_mem x : vmem s' x = if decide (a ≤ x < a + Z.of_nat (length bs)) then bs !! Z.to_nat (x - a) else vmem s x;
  wo_other id v : id ≠ currentSpace s → vpage garbage s' id v = vpage garbage s id v
}.

Lemma same_wrote s1 s2 s3 a bs : same_memory s1 s2 → wrote s2 s3 a bs → wrote s1 s3 a bs.
Proof.
  intros Hs [C M O]. pose proof Hs as [C1 P1]. split.
  - congruence.
  - intros x. by rewrite M, (same_vmem s1 s2).
  - intros id v Hid. rewrite O by congruence. apply P1.
Qed.

Lemma wrote_app s1 s2 s3 a c bs : wrote s1 s2 a [c] → wrote s2 s3 (a + 1) bs → wrote s1 s3 a (c :: bs).
Proof.
  intros [C1 M1 O1] [C2 M2 O2]. split.
  - congruence.
  - intros x. rewrite M2, M1. cbn [length]. repeat case_decide; try lia; [|by replace (x - a) with 0 by lia|done].
    replace (Z.to_nat (x - a)) with (S (Z.to_nat (x - (a + 1)))) by lia. done.
  - intros id v Hid. rewrite O2, O1 by congruence. done.
Qed.

Lemma wrote_keeps s s' a bs x : wrote s s' a bs → is_Some (vmem s x) → is_Some (vmem s' x).
Proof.
  intros Hw Hx. rewrite (wo_mem _ _ _ _ Hw). case_decide; [|done]. apply lookup_lt_is_Some. lia.
Qed.

Lemma store_wrote s t a v size w pa : vm_inv garbage None s t → 0 ≤ a →
  size = 1 ∨ size = 2 ∨ size = 4 → a / PAGE_SIZE = Z.of_nat v → translation t a size true = inr pa →
  ∃ u t', WriteMem (vm_mmu s) a size w = Ok (NO_EXCEPTION, u) ∧ vm_inv garbage None (set_vm_mmu s u) t' ∧
    accessed s t v u t' ∧ wrote s (set_vm_mmu s u) a (stored size w).
Proof.
  intros Hi Ha Hs Hv Hpa.
  destruct (store_ok _ s t a size w v pa Hi) as (u & t' & pg & pg' & E & Hi' & Hac & Hpg & Hsp & Hpg' & Hoth); [done..|].
  exists u, t'. split_and!; [done..|].
  assert (Hlen : Z.of_nat (length (stored size w)) = size) by (apply stored_length; tauto).
  assert (Hin : 0 ≤ a mod PAGE_SIZE ∧ a mod PAGE_SIZE + size ≤ Z.of_nat (length pg)).
  { unfold splice in Hsp. case_bool_decide; [|done]. lia. }
  destruct (splice_ok pg (a mod PAGE_SIZE) (stored size w)) as (pg2 & Hsp2 & _ & Hlk); [lia|lia|].
  assert (pg2 = pg') as -> by congruence.
  assert (Hmis : misaligned a size = false) by (unfold translation in Hpa; by destruct (misaligned a size)).
  pose proof (offset_bound a size ltac:(lia) ltac:(tauto) Hmis) as [_ Ho].
  change PAGE_SIZE with 128 in *. split; [done| |].
  - intros x. unfold vmem. change (currentSpace (set_vm_mmu s u)) with (currentSpace s).
    destruct (decide (0 ≤ x ∧ x / 128 = a / 128)) as [[Hx0 Hxv]|Hx].
    + rewrite (bool_decide_true (0 ≤ x)) by done. rewrite Hxv, Hv, Nat2Z.id, Hpg', Hpg. cbn [mbind option_bind].
      rewrite Hlk. repeat case_decide; try (Z.div_mod_to_equations; lia); [|done].
      f_equal. Z.div_mod_to_equations; lia.
    + rewrite decide_False by (Z.div_mod_to_equations; lia).
      case_bool_decide; [|done]. rewrite Hoth; [done|]. intros [_ E2]. apply Hx. split; [done|]. Z.div_mod_to_equations; lia.
  - intros id v2 Hid. apply Hoth. by intros [? _].
Qed.

Lemma write_hit s t a v size w pa : user_ok s → vm_inv garbage None s t → 0 ≤ a < 2 ^ 32 → size = 1 ∨ size = 4 →
  a / PAGE_SIZE = Z.of_nat v → translation t a size true = inr pa →
  ∃ s', Machine_WriteMem garbage s a size w = Ok (true, s') ∧ user_ok s' ∧ wrote s s' a (stored size w).
Proof.
  intros Hu Hi Ha Hs Hv Hpa.
  destruct (store_wrote s t a v size w pa Hi) as (u & t' & E & Hi' & _ & Hw); [lia|tauto|done|done|].
  unfold Machine_WriteMem. rewrite (u32_id a), E by (unfold is_u32; lia). cbn [mbind result_bind fst snd].
  rewrite decide_True by done. exists (set_vm_mmu s u). split_and!; [done|by eapply user_ok_mmu|done].
Qed.

Lemma write_miss s t a v size w : user_ok s → vm_inv garbage None s t → 0 ≤ a < 2 ^ 32 → misaligned a size = false →
  a / PAGE_SIZE = Z.of_nat v → is_Some (pte s (currentSpace s) v) → tlb_find 0 t (Z.of_nat v) = None →
  ∃ s' t' p, Machine_WriteMem garbage s a size w = Ok (false, s') ∧ user_ok s' ∧ vm_inv garbage None s' t' ∧
    same_memory s s' ∧ mapped t' v p.
Proof.
  intros Hu Hi Ha Hm Hv Hp Hf. unfold Machine_WriteMem. rewrite (u32_id a) by (unfold is_u32; lia).
  destruct (miss_ok s t a size true Hi Hm) as (u & Et & Hi1 & _ & Hv1); [by rewrite Hv|].
  unfold WriteMem. rewrite Et. cbn [mbind result_bind fst snd]. rewrite decide_False by done.
  destruct (fault_ok (set_vm_mmu s u) t a v) as (s' & t' & p & -> & Hu' & Hi' & Hsm & Hmap); try done.
  { by eapply user_ok_mmu. }
  exists s', t', p. split_and!; try done. etrans; [|exact Hsm]. by split.
Qed.

Lemma try_write_ok n s a size w : user_ok s → is_Some (vmem s a) → a < 2 ^ 32 → size = 1 ∨ size = 4 →
  misaligned a size = false →
  ∃ s', try_write garbage (S (S n)) s a size w = Ok (true, s') ∧ user_ok s' ∧ wrote s s' a (stored size w).
Proof.
  intros Hu [b Hb] Ha Hs Hm. destruct (uo_inv _ Hu) as [t Hi]. apply vmem_page in Hb as (pg & v & H0 & Hv & _ & _ & Hp).
  cbn [try_write]. destruct (tlb_cases s t a v size true Hi) as [Hf|[pa Hpa]]; [done|done| |].
  - destruct (write_miss s t a v size w Hu Hi) as (s1 & t1 & p & -> & Hu1 & Hi1 & Hsm1 & Hmap); try done.
    cbn [mbind result_bind].
    destruct (write_hit s1 t1 a v size w (p * PAGE_SIZE + a mod PAGE_SIZE) Hu1 Hi1) as (s2 & -> & Hu2 & Hw);
      [done|done|done|by apply Hmap|].
    exists s2. split_and!; try done. by eapply same_wrote.
  - destruct (write_hit s t a v size w pa Hu Hi) as (s2 & -> & Hu2 & Hw); [done..|]. by exists s2.
Qed.

Lemma try_write_1 n s a c : user_ok s → is_Some (vmem s a) → a < 2 ^ 32 →
  ∃ s', try_write garbage (S (S n)) s a 1 c = Ok (true, s') ∧ user_ok s' ∧ wrote s s' a [u8 c].
Proof.
  intros Hu Hb Ha. destruct (try_write_ok n s a 1 c Hu Hb Ha) as (s' & E & Hu' & Hw); [by left|done|].
  exists s'. split_and!; try done. unfold u8. change 256 with (2 ^ 8). rewrite <-Z.land_ones by done. exact Hw.
Qed.

Lemma try_write_4 n s a w : user_ok s → is_Some (vmem s a) → a < 2 ^ 32 → a mod 4 = 0 →
  ∃ s', try_write garbage (S (S n)) s a 4 w = Ok (true, s') ∧ user_ok s' ∧ wrote s s' a (le_bytes 4 (u32 w)).
Proof.
  intros Hu Hb Ha H4. apply (try_write_ok n s a 4 w); try done; [by right|]. unfold misaligned. by rewrite land_3, H4.
Qed.

(** ** Buffers and strings *)

(** The bytes [bs] are in memory at [a]. *)
Definition at_mem (s : VM) (a : Z) (bs : list Z) : Prop :=
  ∀ i : nat, (i < length bs)%nat → vmem s (a + Z.of_nat i) = bs !! i.

Lemma at_mem_same s s' a bs : same_memory s s' → at_mem s a bs → at_mem s' a bs.
Proof. intros Hs H i Hi. by rewrite (same_vmem s s'), H. Qed.

Lemma at_mem_cons s a b bs : at_mem s a (b :: bs) → vmem s a = Some b ∧ at_mem s (a + 1) bs.
Proof.
  intros H. split.
  - pose proof (H 0%nat ltac:(cbn; lia)) as E. by rewrite Z.add_0_r in E.
  - intros i Hi. pose proof (H (S i) ltac:(cbn; lia)) as E. cbn [lookup list_lookup] in E.
    replace (a + 1 + Z.of_nat i) with (a + Z.of_nat (S i)) by lia. exact E.
Qed.

Lemma u8_sext8 b : u8 (sext8 b) = u8 b.
Proof. unfold u8, sext8. case_bool_decide; [done|]. Z.div_mod_to_equations; lia. Qed.

Lemma next_address_ok a : a < 2147483647 → next_address true a = Ok (a + 1).
Proof. intros. unfold next_address. by rewrite bool_decide_true. Qed.

Lemma read_buffer_ok bs s a temp : user_ok s → at_mem s a bs → a + Z.of_nat (length bs) ≤ 2147483647 →
  ∃ s', read_buffer garbage (length bs) s a temp = Ok (u8 <$> bs, s') ∧ user_ok s' ∧ same_memory s s'.
Proof.
  revert s a temp. induction bs as [|b bs IH]; intros s a temp Hu Hm Ha; [by exists s|].
  apply at_mem_cons in Hm as [Hb Hm]. cbn [length read_buffer] in *.
  destruct (try_read_1 1 s a b temp Hu Hb) as (s1 & E1 & Hu1 & Hs1); [lia|].
  change NUMBER_OF_TRIES with 3%nat. rewrite E1. cbn [mbind result_bind]. rewrite next_address_ok by lia.
  cbn [mbind result_bind].
  destruct (IH s1 (a + 1) (sext8 b) Hu1) as (s2 & -> & Hu2 & Hs2); [by eapply at_mem_same|lia|].
  cbn [mbind result_bind fst snd]. exists s2. rewrite u8_sext8. split_and!; try done. by etrans.
Qed.

(** The characters up to the first null, with it. *)
Fixpoint c_prefix (cs : list Z) : list Z :=
  match cs with
  | [] => []
  | c :: cs => if bool_decide (c = 0) then [0] else c :: c_prefix cs
  end.

Lemma c_prefix_length cs : (length (c_prefix cs) ≤ length cs)%nat.
Proof. induction cs as [|c cs IH]; cbn; [lia|]. case_bool_decide; cbn; lia. Qed.

Lemma c_prefix_last cs : last (c_prefix cs) = Some 0 ↔ 0 ∈ cs.
Proof.
  induction cs as [|c cs IH]; cbn [c_prefix]; [by rewrite elem_of_nil|]. rewrite elem_of_cons. case_bool_decide as E.
  - subst. split; [by left|done].
  - destruct cs as [|c2 cs]; [cbn; rewrite elem_of_nil; naive_solver|]. rewrite <-IH. cbn [c_prefix].
    case_bool_decide; cbn; naive_solver.
Qed.

(** A string with its final null. *)
Definition c_string (str : list Z) : Prop := ∃ cs, str = cs ++ [0] ∧ Forall (λ c, 0 < c < 256) cs.

Lemma c_string_prefix str : c_string str → c_prefix str = str.
Proof.
  intros (cs & -> & H). induction H as [|c cs Hc _ IH]; [done|]. cbn. rewrite bool_decide_false by lia. by rewrite IH.
Qed.

Lemma c_string_u8 str : c_string str → u8 <$> str = str.
Proof.
  intros (cs & -> & H). induction H as [|c cs Hc _ IH]; [done|]. cbn. rewrite IH. f_equal. apply Z.mod_small. lia.
Qed.

Lemma read_string_ok bs n s a uninit : user_ok s → at_mem s a bs → (length bs ≤ n)%nat →
  length bs = n ∨ 0 ∈ u8 <$> bs → a + Z.of_nat (length bs) ≤ 2147483647 →
  ∃ s', read_string garbage n s a uninit = Ok (c_prefix (u8 <$> bs), s') ∧ user_ok s' ∧ same_memory s s'.
Proof.
  revert n s a. induction bs as [|b bs IH]; intros n s a Hu Hm Hn Ht Ha.
  { destruct Ht as [<-|[]%elem_of_nil]. by exists s. }
  destruct n as [|n]; [cbn in Hn; lia|].
  apply at_mem_cons in Hm as [Hb Hm]. cbn [length read_string] in *.
  destruct (try_read_1 1 s a b uninit Hu Hb) as (s1 & E1 & Hu1 & Hs1); [lia|].
  change NUMBER_OF_TRIES with 3%nat. rewrite E1. cbn [mbind result_bind]. rewrite next_address_ok by lia.
  cbn [mbind result_bind]. rewrite u8_sext8. cbn [fmap list_fmap c_prefix] in *. case_bool_decide as Hz; [by exists s1|].
  destruct (IH n s1 (a + 1) Hu1) as (s2 & -> & Hu2 & Hs2); [by eapply at_mem_same|lia| |lia|].
  { destruct Ht as [?|[?|?]%elem_of_cons]; [left; lia|done|by right]. }
  cbn [mbind result_bind fst snd]. exists s2. split_and!; try done. by etrans.
Qed.

Lemma ReadString_ok bs s a n uninit : user_ok s → at_mem s a bs → 0 < a → 0 < n → Z.of_nat (length bs) ≤ n →
  Z.of_nat (length bs) = n ∨ 0 ∈ u8 <$> bs → a + Z.of_nat (length bs) ≤ 2147483647 →
  ∃ s', ReadStringFromUser garbage s a n uninit = Ok (bool_decide (0 ∈ u8 <$> bs), c_prefix (u8 <$> bs), s') ∧
    user_ok s' ∧ same_memory s s'.
Proof.
  intros Hu Hm Ha Hn Hl Ht Hr. unfold ReadStringFromUser. rewrite !bool_decide_true by lia.
  cbn [ASSERT mbind result_bind].
  destruct (read_string_ok bs (Z.to_nat n) s a uninit Hu Hm) as (s' & -> & Hu' & Hs'); [lia| |done|].
  { destruct Ht; [left; lia|by right]. }
  cbn [mbind result_bind fst snd]. exists s'. split; [|done]. do 3 f_equal.
  apply bool_decide_ext, c_prefix_last.
Qed.

Lemma write_buffer_ok buf n s a : user_ok s → (n ≤ length buf)%nat → Forall is_byte buf →
  (∀ x, a ≤ x < a + Z.of_nat (length (c_prefix (take n buf))) → is_Some (vmem s x)) →
  a + Z.of_nat (length buf) ≤ 2147483647 →
  ∃ s', write_buffer garbage n s buf a = Ok s' ∧ user_ok s' ∧ wrote s s' a (c_prefix (take n buf)).
Proof.
  revert buf s a. induction n as [|n IH]; intros buf s a Hu Hn Hb Hx Ha.
  { exists s. split_and!; try done. split; [done| |done]. intros x. by rewrite decide_False by (change (length (c_prefix (take 0 buf))) with 0%nat; lia). }
  destruct buf as [|c buf]; [cbn in Hn; lia|]. cbn [write_buffer take c_prefix length] in *.
  apply Forall_cons in Hb as [Hc Hb].
  assert (Hv : is_Some (vmem s a)) by (apply Hx; case_bool_decide; cbn [length]; lia).
  destruct (try_write_1 1 s a c Hu Hv) as (s1 & E1 & Hu1 & Hw1); [lia|].
  change NUMBER_OF_TRIES with 3%nat. rewrite E1. cbn [mbind result_bind]. rewrite next_address_ok by lia.
  cbn [mbind result_bind]. unfold is_byte in Hc. unfold u8 in Hw1. rewrite Z.mod_small in Hw1 by lia.
  case_bool_decide as Hz; [subst c; by exists s1|].
  destruct (IH buf s1 (a + 1) Hu1) as (s2 & -> & Hu2 & Hw2); [lia|done| |lia|].
  { intros x Hxx. eapply wrote_keeps; [exact Hw1|]. apply Hx. cbn [length]. lia. }
  exists s2. split_and!; try done. by eapply wrote_app.
Qed.

Lemma write_string_ok cs s a : user_ok s → Forall (λ c, 0 < c < 256) cs →
  (∀ x, a ≤ x ≤ a + Z.of_nat (length cs) → is_Some (vmem s x)) → a + Z.of_nat (length cs) < 2147483647 →
  ∃ s', write_string garbage s (cs ++ [0]) a = Ok s' ∧ user_ok s' ∧ wrote s s' a (cs ++ [0]).
Proof.
  revert s a. induction cs as [|c cs IH]; intros s a Hu Hc Hx Ha; cbn [app write_string length] in *.
  - destruct (try_write_1 1 s a 0 Hu) as (s1 & E1 & Hu1 & Hw1); [apply Hx; lia|lia|].
    change NUMBER_OF_TRIES with 3%nat. rewrite E1. cbn [mbind result_bind]. rewrite next_address_ok by lia.
    by exists s1.
  - apply Forall_cons in Hc as [Hc Hcs]. destruct (try_write_1 1 s a c Hu) as (s1 & E1 & Hu1 & Hw1); [apply Hx; lia|lia|].
    change NUMBER_OF_TRIES with 3%nat. rewrite E1. cbn [mbind result_bind]. rewrite next_address_ok by lia.
    cbn [mbind result_bind]. rewrite bool_decide_false by lia. unfold u8 in Hw1. rewrite Z.mod_small in Hw1 by lia.
    destruct (IH s1 (a + 1) Hu1 Hcs) as (s2 & -> & Hu2 & Hw2); [|lia|].
    { intros x Hxx. eapply wrote_keeps; [exact Hw1|]. apply Hx. lia. }
    exists s2. split_and!; try done. by eapply wrote_app.
Qed.

(** ** The arguments of a program *)

(** Only addresses in [lo, hi) of the running process may have changed. *)
Record changed (s s' : VM) (lo hi : Z) : Prop := {
  ch_cur : currentSpace s' = currentSpace s;
  ch_mem x : ¬ (lo ≤ x < hi) → vmem s' x = vmem s x;
  ch_dom x : is_Some (vmem s x) → is_Some (vmem s' x);
  ch_other id v : id ≠ currentSpace s → vpage garbage s' id v = vpage garbage s id v
}.

Lemma changed_refl s lo hi : changed s s lo hi.
Proof. by split. Qed.

Lemma wrote_changed s s' a bs lo hi : wrote s s' a bs → lo ≤ a → a + Z.of_nat (length bs) ≤ hi → changed s s' lo hi.
Proof.
  intros Hw Hl Hh. split; [apply Hw| |by intros; eapply wrote_keeps|apply Hw].
  intros x Hx. by rewrite (wo_mem _ _ _ _ Hw), decide_False by lia.
Qed.

Lemma changed_trans s1 s2 s3 lo hi lo1 hi1 lo2 hi2 : changed s1 s2 lo1 hi1 → changed s2 s3 lo2 hi2 →
  lo ≤ lo1 → lo ≤ lo2 → hi1 ≤ hi → hi2 ≤ hi → changed s1 s3 lo hi.
Proof.
  intros [C1 M1 D1 O1] [C2 M2 D2 O2] ? ? ? ?. split; [congruence| |auto|].
  - intros x Hx. rewrite M2, M1 by lia. done.
  - intros id v Hid. rewrite O2, O1 by congruence. done.
Qed.

Lemma changed_same s0 s1 s2 s3 lo hi : same_memory s0 s1 → changed s1 s2 lo hi → same_memory s2 s3 → changed s0 s3 lo hi.
Proof.
  intros H1 [C M D O] H2. pose proof H1 as [C1 P1]. pose proof H2 as [C2 P2]. split.
  - congruence.
  - intros x Hx. by rewrite (same_vmem s2 s3), M, (same_vmem s0 s1).
  - intros x Hx. rewrite (same_vmem s2 s3) by done. apply D. by rewrite (same_vmem s0 s1).
  - intros id v Hid. rewrite P2, O, P1 by congruence. done.
Qed.

Lemma at_mem_changed s s' lo hi a bs : changed s s' lo hi → a + Z.of_nat (length bs) ≤ lo ∨ hi ≤ a →
  at_mem s a bs → at_mem s' a bs.
Proof. intros Hc Hd Hm i Hi. rewrite (ch_mem _ _ _ _ Hc) by lia. by apply Hm. Qed.

Lemma wrote_at_mem s s' a bs : wrote s s' a bs → at_mem s' a bs.
Proof.
  intros Hw i Hi. rewrite (wo_mem _ _ _ _ Hw), decide_True by lia. f_equal. lia.
Qed.

Lemma wrote_vword s s' a w : wrote s s' a (le_bytes 4 (u32 w)) → vword s' a w.
Proof. intros Hw%wrote_at_mem i Hi. apply Hw. by rewrite le_bytes_length. Qed.

Lemma vword_changed s s' lo hi a w : changed s s' lo hi → a + 4 ≤ lo ∨ hi ≤ a → vword s a w → vword s' a w.
Proof. intros Hc Hd Hm i Hi. rewrite (ch_mem _ _ _ _ Hc) by lia. by apply Hm. Qed.

Lemma vword_same s s' a w : same_memory s s' → vword s a w → vword s' a w.
Proof. intros Hs H i Hi. by rewrite (same_vmem s s'), H. Qed.

(** The space that strings need. *)
Definition total (args : list (list Z)) : Z := Z.of_nat (length (mjoin args)).

Lemma total_cons a args : total (a :: args) = Z.of_nat (length a) + total args.
Proof. unfold total. change (mjoin (a :: args)) with (a ++ mjoin args). rewrite length_app. lia. Qed.

Lemma total_pos args : 0 ≤ total args.
Proof. unfold total. lia. Qed.

(** Where the strings of [args] are, in [lo, hi). *)
Definition strings_at (s : VM) (lo hi : Z) : list Z → list (list Z) → Prop :=
  Forall2 (λ a str, at_mem s a str ∧ lo ≤ a ∧ a + Z.of_nat (length str) ≤ hi).

Lemma write_strings_ok args s sp : user_ok s → Forall c_string args → 0 < sp - total args → sp < 2147483647 →
  (∀ x, sp - total args ≤ x < sp → is_Some (vmem s x)) →
  ∃ addrs s', write_strings garbage args s sp = Ok (addrs, sp - total args, s') ∧ user_ok s' ∧
    changed s s' (sp - total args) sp ∧ strings_at s' (sp - total args) sp addrs args.
Proof.
  revert s sp. induction args as [|str args IH]; intros s sp Hu Hc Hlo Hhi Hx.
  { exists [], s. change (total []) with 0. rewrite Z.sub_0_r. split_and!; [done|done|apply changed_refl|constructor]. }
  apply Forall_cons in Hc as [Hstr Hc]. rewrite total_cons in *. pose proof (total_pos args) as Ht.
  pose proof Hstr as (cs & Ecs & Hcs). cbn [write_strings].
  rewrite s32_id by (unfold is_s32; lia). set (a := sp - Z.of_nat (length str)).
  assert (Hl : Z.of_nat (length str) = Z.of_nat (length cs) + 1) by (rewrite Ecs, length_app; cbn; lia).
  unfold WriteStringToUser. rewrite bool_decide_true by (unfold a; lia). cbn [ASSERT mbind result_bind].
  destruct (write_string_ok cs s a Hu Hcs) as (s1 & E1 & Hu1 & Hw1); [intros x Hxx; apply Hx; unfold a in *; lia|unfold a; lia|].
  rewrite <-Ecs in E1, Hw1. rewrite E1. cbn [mbind result_bind].
  destruct (IH s1 a Hu1 Hc) as (addrs & s2 & E2 & Hu2 & Hch & Hst); [unfold a; lia|unfold a; lia| |].
  { intros x Hxx. eapply wrote_keeps; [exact Hw1|]. apply Hx. unfold a in *. lia. }
  rewrite E2. cbn [mbind result_bind]. exists (a :: addrs), s2.
  replace (a - total args) with (sp - (Z.of_nat (length str) + total args)) in * by (unfold a; lia).
  split; [done|]. split; [done|]. split.
  - eapply changed_trans; [eapply (wrote_changed _ _ _ _ a sp); [exact Hw1|..]|exact Hch|..]; unfold a; lia.
  - constructor.
    + split; [|unfold a; lia]. eapply at_mem_changed; [exact Hch|right; lia|]. by eapply wrote_at_mem.
    + eapply Forall2_impl; [exact Hst|]. cbn. intros x y (? & ? & ?). split_and!; [done|lia|unfold a in *; lia].
Qed.

(** The array of addresses. *)
Lemma write_argv_ok addrs i s sp : user_ok s → 0 ≤ i → 0 < sp → sp mod 4 = 0 →
  sp + 4 * (i + Z.of_nat (length addrs)) < 2147483647 →
  (∀ x, sp ≤ x < sp + 4 * (i + Z.of_nat (length addrs)) → is_Some (vmem s x)) →
  ∃ s', write_argv garbage addrs i s sp = Ok s' ∧ user_ok s' ∧
    changed s s' (sp + 4 * i) (sp + 4 * (i + Z.of_nat (length addrs))) ∧
    ∀ j a, addrs !! j = Some a → vword s' (sp + 4 * (i + Z.of_nat j)) a.
Proof.
  revert i s. induction addrs as [|a addrs IH]; intros i s Hu Hi Hsp Hal Hb Hx; cbn [write_argv length] in *.
  { exists s. split_and!; [done|done|apply changed_refl|]. intros j a. by rewrite lookup_nil. }
  rewrite (u32_id sp), u32_id by (unfold is_u32; lia).
  destruct (try_write_4 2 s (sp + 4 * i) a Hu) as (s1 & E1 & Hu1 & Hw1); [apply Hx; lia|lia|Z.div_mod_to_equations; lia|].
  change (S NUMBER_OF_TRIES) with 4%nat. rewrite E1. cbn [mbind result_bind snd].
  destruct (IH (i + 1) s1 Hu1) as (s2 & E2 & Hu2 & Hch & Hwd); [lia|done|done|lia| |].
  { intros x Hxx. eapply wrote_keeps; [exact Hw1|]. apply Hx. lia. }
  exists s2. split; [done|]. split; [done|]. split.
  - eapply changed_trans; [eapply (wrote_changed _ _ _ _ (sp + 4 * i) (sp + 4 * i + 4)); [exact Hw1|lia|rewrite le_bytes_length; lia]|exact Hch|lia..].
  - intros [|j] b; cbn.
    + intros [= <-]. rewrite Z.add_0_r. eapply vword_changed; [exact Hch|left; lia|]. by eapply wrote_vword.
    + intros Hj. apply Hwd in Hj. replace (i + Z.of_nat (S j)) with (i + 1 + Z.of_nat j) by lia. done.
Qed.

(** *** Reading the array back *)
Lemma count_args_ok addrs n c s sp val : user_ok s → 0 ≤ c → 0 < sp → sp mod 4 = 0 →
  Forall (λ a, 0 < a < 2147483647) addrs → (length addrs < n)%nat →
  sp + 4 * (c + Z.of_nat (length addrs)) < 2147483647 →
  (∀ j a, addrs !! j = Some a → vword s (sp + 4 * (c + Z.of_nat j)) a) →
  vword s (sp + 4 * (c + Z.of_nat (length addrs))) 0 →
  ∃ s', count_args garbage n c s sp val = Ok (c + Z.of_nat (length addrs) + 1, 0, s') ∧ user_ok s' ∧ same_memory s s'.
Proof.
  revert n c s val. induction addrs as [|a addrs IH]; intros n c s val Hu Hc Hsp Hal Ha Hn Hb Hw Hz;
    (destruct n as [|n]; [cbn in Hn; lia|]); cbn [count_args length] in *.
  - rewrite (u32_id sp), u32_id by (unfold is_u32; lia). rewrite Z.add_0_r in *.
    destruct (try_read_4 2 s (sp + 4 * c) 0 val Hu Hz) as (s1 & E1 & Hu1 & Hs1); [lia|Z.div_mod_to_equations; lia|].
    change (S NUMBER_OF_TRIES) with 4%nat. rewrite E1. cbn [mbind result_bind].
    rewrite bool_decide_false by (change (s32 0) with 0; lia). by exists s1.
  - apply Forall_cons in Ha as [Ha Has]. rewrite (u32_id sp), u32_id by (unfold is_u32; lia).
    pose proof (Hw 0%nat a eq_refl) as H0. rewrite Z.add_0_r in H0.
    destruct (try_read_4 2 s (sp + 4 * c) a val Hu H0) as (s1 & E1 & Hu1 & Hs1); [lia|Z.div_mod_to_equations; lia|].
    change (S NUMBER_OF_TRIES) with 4%nat. rewrite E1. cbn [mbind result_bind]. rewrite s32_id by (unfold is_s32; lia).
    rewrite bool_decide_true by lia.
    destruct (IH n (c + 1) s1 a Hu1) as (s2 & E2 & Hu2 & Hs2); [lia|done|done|done|lia|lia| | |].
    + intros j b Hj. eapply vword_same; [exact Hs1|]. replace (c + 1 + Z.of_nat j) with (c + Z.of_nat (S j)) by lia.
      by apply Hw.
    + eapply vword_same; [exact Hs1|]. replace (c + 1 + Z.of_nat (length addrs)) with (c + Z.of_nat (S (length addrs))) by lia. done.
    + exists s2. split; [rewrite E2; do 3 f_equal; lia|]. split; [done|by etrans].
Qed.

Lemma save_args_ok addrs args i s sp lo hi uninit : user_ok s → 0 ≤ i → 0 < sp → sp mod 4 = 0 → 0 < lo → hi < 2147483647 →
  strings_at s lo hi addrs args → Forall c_string args → Forall (λ str, Z.of_nat (length str) ≤ MAX_ARG_LENGTH) args →
  sp + 4 * (i + Z.of_nat (length addrs)) < 2147483647 →
  (∀ j a, addrs !! j = Some a → vword s (sp + 4 * (i + Z.of_nat j)) a) →
  ∃ s', save_args garbage (length args) i s sp uninit = Ok (args, s') ∧ user_ok s' ∧ same_memory s s'.
Proof.
  intros Hu Hi Hsp Hal Hlo Hhi Hst Hc Hl Hb Hw. revert i s Hu Hi Hst Hb Hw.
  revert addrs. induction args as [|str args IH]; intros addrs i s Hu Hi Hst Hb Hw.
  { by exists s. }
  destruct addrs as [|a addrs]; [by inversion Hst|]. apply Forall2_cons in Hst as [(Hm & Ha1 & Ha2) Hst].
  apply Forall_cons in Hc as [Hstr Hc]. apply Forall_cons in Hl as [Hlen Hl]. cbn [save_args length] in *.
  rewrite (u32_id sp), u32_id by (unfold is_u32; lia). rewrite (Z.mul_comm i 4).
  pose proof (Hw 0%nat a eq_refl) as H0. rewrite Z.add_0_r in H0.
  destruct (try_read_4 2 s (sp + 4 * i) a uninit Hu H0) as (s1 & E1 & Hu1 & Hs1); [lia|Z.div_mod_to_equations; lia|].
  change (S NUMBER_OF_TRIES) with 4%nat. rewrite E1. cbn [mbind result_bind]. rewrite s32_id by (unfold is_s32; lia).
  destruct (ReadString_ok str s1 a MAX_ARG_LENGTH uninit Hu1) as (s2 & E2 & Hu2 & Hs2);
    [by eapply at_mem_same|lia|done|done| |lia|].
  { right. rewrite c_string_u8 by done. destruct Hstr as (cs & -> & _). apply elem_of_app. right. by left. }
  rewrite E2, c_string_u8, c_string_prefix by done. cbn [mbind result_bind].
  destruct (IH Hc Hl addrs (i + 1) s2 Hu2) as (s3 & E3 & Hu3 & Hs3); [lia| |lia| |].
  - eapply Forall2_impl; [exact Hst|]. cbn. intros x y (? & ? & ?). split_and!; try done.
    apply (at_mem_same s s2); [by transitivity s1|done].
  - intros j b Hj. apply (vword_same s s2); [by transitivity s1|]. replace (i + 1 + Z.of_nat j) with (i + Z.of_nat (S j)) by lia. by apply Hw.
  - rewrite E3. cbn [mbind result_bind fst snd]. exists s3. split; [done|]. split; [done|]. transitivity s1; [done|]. by transitivity s2.
Qed.

(** The stack pointer after [WriteArgs]. *)
Definition args_sp (sp : Z) (args : list (list Z)) : Z :=
  let top := sp - total args in
  top - top mod 4 - (4 * Z.of_nat (length args) + 4).

Lemma WriteArgs_ok s args sp : user_ok s → reg (machine s) STACK_REG = Ok sp →
  Forall c_string args → Z.of_nat (length args) < MAX_ARG_COUNT →
  0 < args_sp sp args → sp < 2147483647 → (∀ x, args_sp sp args ≤ x < sp → is_Some (vmem s x)) →
  ∃ addrs s', WriteArgs garbage s args = Ok (Z.of_nat (length args), s') ∧ user_ok s' ∧
    reg (machine s') STACK_REG = Ok (args_sp sp args) ∧ changed s s' (args_sp sp args) sp ∧
    strings_at s' (sp - total args) sp addrs args ∧
    (∀ j a, addrs !! j = Some a → vword s' (args_sp sp args + 4 * Z.of_nat j) a) ∧
    vword s' (args_sp sp args + 4 * Z.of_nat (length args)) 0.
Proof.
  intros Hu Hsp Hc Hn Hlo Hhi Hx. unfold args_sp in *. set (top := sp - total args) in *.
  set (n := Z.of_nat (length args)) in *. set (base := top - top mod 4 - (4 * n + 4)) in *.
  pose proof (total_pos args) as Ht. pose proof (Z.mod_pos_bound top 4 ltac:(lia)) as Hm.
  assert (Hn0 : 0 ≤ n) by (unfold n; lia).
  unfold WriteArgs, ReadRegister. rewrite (bool_decide_true (STACK_REG < NUM_TOTAL_REGS)) by done. cbn [ASSERT mbind result_bind]. rewrite Hsp.
  cbn [mbind result_bind]. rewrite take_ge by (unfold MAX_ARG_COUNT in *; lia).
  destruct (write_strings_ok args s sp Hu Hc) as (addrs & s1 & E1 & Hu1 & Hch1 & Hst); [unfold base, top in *; lia|done| |].
  { intros x Hxx. apply Hx. unfold base, top in *. lia. }
  rewrite E1. cbn [mbind result_bind]. fold top. rewrite bool_decide_true by done. cbn [ASSERT mbind result_bind].
  rewrite Z.rem_mod_nonneg by (unfold base in *; lia). rewrite (u32_id (top - top mod 4)) by (unfold is_u32; unfold base, top in *; lia).
  replace (Z.of_nat (length args) * 4 + 4) with (4 * n + 4) by (unfold n; lia). fold base.
  rewrite (s32_id base) by (unfold is_s32; unfold base, top in *; lia).
  assert (Hla : Z.of_nat (length addrs) = n) by (unfold n; by rewrite (Forall2_length _ _ _ Hst)).
  assert (Hal : base mod 4 = 0) by (unfold base; Z.div_mod_to_equations; lia).
  destruct (write_argv_ok addrs 0 s1 base Hu1) as (s2 & E2 & Hu2 & Hch2 & Hw); [lia|lia|done| | |].
  { unfold base, top in *. lia. }
  { intros x Hxx. apply (ch_dom _ _ _ _ Hch1), Hx. unfold base, top in *. lia. }
  rewrite E2. cbn [mbind result_bind]. rewrite !(u32_id base), (u32_id (base + 4 * _)) by (unfold is_u32; unfold base, top in *; lia).
  destruct (try_write_4 2 s2 (base + 4 * n) 0 Hu2) as (s3 & E3 & Hu3 & Hw3).
  { apply (ch_dom _ _ _ _ Hch2), (ch_dom _ _ _ _ Hch1), Hx. unfold base, top in *. lia. }
  { unfold base, top in *. lia. }
  { Z.div_mod_to_equations; lia. }
  change (S NUMBER_OF_TRIES) with 4%nat. fold n. rewrite E3. cbn [mbind result_bind snd].
  unfold WriteRegister. rewrite !bool_decide_true by done. cbn [ASSERT mbind result_bind].
  destruct (set_reg_effect (machine s3) STACK_REG base (uo_regs _ Hu3)) as (m & -> & Hr & Hmm & Hh & Hq); [done|].
  cbn [mbind result_bind]. exists addrs, (set_machine s3 m).
  destruct Hu3 as [[t Hi3] Hr3 (lr & Hlr & Hl3) Hf3].
  destruct (vm_inv_registers _ s3 t m Hi3 Hmm) as [Hi4 Hv4].
  change (mkVM m _ _ _ _ _) with (set_machine s3 m) in Hi4, Hv4.
  assert (Hsm : same_memory s3 (set_machine s3 m)) by (by split).
  assert (Hch3 : changed s2 (set_machine s3 m) (base + 4 * n) (base + 4 * n + 4)).
  { assert (H23 : changed s2 s3 (base + 4 * n) (base + 4 * n + 4))
      by (eapply wrote_changed; [exact Hw3|lia|rewrite le_bytes_length; lia]).
    eapply (changed_trans _ s3 _ _ _ _ _ (base + 4 * n) (base + 4 * n + 4)); [exact H23| |lia..].
    split; [done| | |]; intros; [by rewrite (same_vmem s3)|by rewrite (same_vmem s3)|apply Hsm]. }
  split; [done|]. split_and!.
  - split; [by exists t|done| |cbn; by rewrite Hh]. exists lr. cbn. rewrite Hq by done. by rewrite decide_False.
  - cbn. rewrite Hq by done. by rewrite decide_True.
  - eapply changed_trans; [exact Hch1|eapply (changed_trans s1 s2 _ base (base + 4 * n + 4)); [exact Hch2|exact Hch3|lia..]|..];
      unfold base, top in *; lia.
  - eapply Forall2_impl; [exact Hst|]. cbn. intros x y (? & ? & ?). split_and!; try done.
    eapply at_mem_changed; [exact Hch3|right; unfold base, top in *; lia|].
    eapply at_mem_changed; [exact Hch2|right; unfold base, top in *; lia|done].
  - intros j a Hj. pose proof (lookup_lt_Some _ _ _ Hj). eapply vword_changed; [exact Hch3|left; lia|]. by apply (Hw j).
  - eapply vword_same; [exact Hsm|]. by eapply wrote_vword.
Qed.

Lemma SaveArgs_ok s addrs args sp lo hi uninit : user_ok s → 0 < sp → sp mod 4 = 0 → 0 < lo → hi < 2147483647 →
  strings_at s lo hi addrs args → Forall c_string args → Forall (λ str, Z.of_nat (length str) ≤ MAX_ARG_LENGTH) args →
  Z.of_nat (length args) < MAX_ARG_COUNT → sp + 4 * Z.of_nat (length args) < 2147483647 →
  (∀ j a, addrs !! j = Some a → vword s (sp + 4 * Z.of_nat j) a) →
  vword s (sp + 4 * Z.of_nat (length args)) 0 →
  ∃ s', SaveArgs garbage s sp uninit = Ok (Some args, s') ∧ user_ok s' ∧ same_memory s s'.
Proof.
  intros Hu Hsp Hal Hlo Hhi Hst Hc Hl Hn Hb Hw Hz. unfold MAX_ARG_COUNT in *.
  assert (Hla : length addrs = length args) by (by eapply Forall2_length).
  unfold SaveArgs, CountArgsToSave. rewrite bool_decide_true by lia. cbn [ASSERT mbind result_bind].
  destruct (count_args_ok addrs (Z.to_nat 32) 0 s sp uninit Hu) as (s1 & E1 & Hu1 & Hs1); [lia|done|done| |lia|lia|done|by rewrite Hla|].
  { apply Forall_lookup. intros j a Hj. destruct (Forall2_lookup_l _ _ _ _ _ Hst Hj) as (str & _ & _ & ? & ?). lia. }
  unfold MAX_ARG_COUNT. rewrite E1. cbn [mbind result_bind]. rewrite (bool_decide_false (0 ≠ 0)), andb_false_r by lia.
  cbn [mbind result_bind]. replace (0 + Z.of_nat (length addrs) + 1 - 1) with (Z.of_nat (length args)) by lia.
  rewrite Nat2Z.id.
  destruct (save_args_ok addrs args 0 s1 sp lo hi uninit Hu1) as (s2 & E2 & Hu2 & Hs2); try done; [|lia| |].
  - eapply Forall2_impl; [exact Hst|]. cbn. intros x y (? & ? & ?). split_and!; try done. by eapply at_mem_same.
  - intros j a Hj. eapply vword_same; [exact Hs1|]. by apply Hw.
  - rewrite E2. cbn [mbind result_bind fst snd]. exists s2. split; [done|]. split; [done|by transitivity s1].
Qed.

Lemma WriteBuffer_ok s a n buf : user_ok s → Forall is_byte buf → 0 < a → 0 < n ≤ LSDIR_OUTPUT →
  n ≤ Z.of_nat (length buf) →
  (∀ x, a ≤ x < a + Z.of_nat (length (c_prefix (take (Z.to_nat n) buf))) → is_Some (vmem s x)) →
  a + Z.of_nat (length buf) ≤ 2147483647 →
  ∃ s', WriteBufferToUser garbage s buf a n = Ok s' ∧ user_ok s' ∧ wrote s s' a (c_prefix (take (Z.to_nat n) buf)).
Proof.
  intros Hu Hb Ha Hn Hl Hx Hr. unfold WriteBufferToUser. rewrite (bool_decide_true (a ≠ 0)), (bool_decide_true (n > 0)),
    (bool_decide_true (n <= LSDIR_OUTPUT)) by lia. cbn [ASSERT andb mbind result_bind].
  apply write_buffer_ok; try done. lia.
Qed.

Lemma wrote_same s1 s2 s3 a bs : wrote s1 s2 a bs → same_memory s2 s3 → wrote s1 s3 a bs.
Proof.
  intros [C M O] Hs. pose proof Hs as [C1 P1]. split.
  - congruence.
  - intros x. by rewrite (same_vmem s2 s3), M.
  - intros id v Hid. rewrite P1. by apply O.
Qed.

(** ** What is proved *)

(** The kernel reads strings of user programs as they are.  [bs] are the
    bytes of the running process at the address, up to a null or up to the
    maximal length.  [ReadStringFromUser] returns whether they contain a null,
    and the characters up to it, whether or not the pages are in memory when
    it is called; no page of any process changes. *)
Theorem ReadStringFromUser_correct s a n bs uninit (Hu : user_ok s) (Hm : at_mem s a bs) (Ha : 0 < a) (Hn : 0 < n)
  (Hl : Z.of_nat (length bs) ≤ n) (Ht : Z.of_nat (length bs) = n ∨ 0 ∈ u8 <$> bs)
  (Hr : a + Z.of_nat (length bs) ≤ 2147483647) :
  ∃ s', ReadStringFromUser garbage s a n uninit = Ok (bool_decide (0 ∈ u8 <$> bs), c_prefix (u8 <$> bs), s') ∧
    user_ok s' ∧ same_memory s s'.
Proof. by apply ReadString_ok. Qed.

(** A buffer that the kernel hands to a user program is written up to its
    first null: exactly these bytes of the running process change, and no page
    of another process, whether or not the pages are in memory. *)
Theorem WriteBufferToUser_exact s a n buf (Hu : user_ok s) (Hb : Forall is_byte buf) (Ha : 0 < a)
  (Hn : 0 < n ≤ LSDIR_OUTPUT) (Hl : n ≤ Z.of_nat (length buf))
  (Hx : ∀ x, a ≤ x < a + Z.of_nat (length (c_prefix (take (Z.to_nat n) buf))) → is_Some (vmem s x))
  (Hr : a + Z.of_nat (length buf) ≤ 2147483647) :
  ∃ s', WriteBufferToUser garbage s buf a n = Ok s' ∧ user_ok s' ∧ wrote s s' a (c_prefix (take (Z.to_nat n) buf)).
Proof. by apply WriteBuffer_ok. Qed.

(** C35: the arguments of a program arrive.  [WriteArgs] puts the strings and the
    array [argv] below the stack pointer of the new process, aligned, and
    changes nothing else of any process; reading the array back as a program
    does that passes its own arguments on ([SaveArgs]) gives the same strings. *)
Theorem args_roundtrip s args sp uninit (Hu : user_ok s) (Hsp : reg (machine s) STACK_REG = Ok sp)
  (Hc : Forall c_string args) (Hl : Forall (λ str, Z.of_nat (length str) ≤ MAX_ARG_LENGTH) args)
  (Hn : Z.of_nat (length args) < MAX_ARG_COUNT) (Hlo : 0 < args_sp sp args) (Hhi : sp < 2147483647)
  (Hx : ∀ x, args_sp sp args ≤ x < sp → is_Some (vmem s x)) :
  ∃ s1 s2, WriteArgs garbage s args = Ok (Z.of_nat (length args), s1) ∧
    reg (machine s1) STACK_REG = Ok (args_sp sp args) ∧ args_sp sp args mod 4 = 0 ∧
    changed s s1 (args_sp sp args) sp ∧
    SaveArgs garbage s1 (args_sp sp args) uninit = Ok (Some args, s2) ∧ same_memory s1 s2.
Proof.
  destruct (WriteArgs_ok s args sp) as (addrs & s1 & E1 & Hu1 & Hr1 & Hch & Hst & Hw & Hz); try done.
  assert (Hal : args_sp sp args mod 4 = 0) by (unfold args_sp; Z.div_mod_to_equations; lia).
  assert (Hlow : args_sp sp args + 4 * Z.of_nat (length args) < sp - total args).
  { unfold args_sp. pose proof (Z.mod_pos_bound (sp - total args) 4). lia. }
  pose proof (total_pos args).
  destruct (SaveArgs_ok s1 addrs args (args_sp sp args) (sp - total args) sp uninit) as (s2 & E2 & _ & Hs2); try done; [lia|lia|].
  by exists s1, s2.
Qed.

(** Bytes for [Write]: all of them, nulls included. *)
Theorem ReadBufferFromUser_correct s a bs uninit : user_ok s → at_mem s a bs → 0 < a →
  0 < Z.of_nat (length bs) ≤ LSDIR_OUTPUT → a + Z.of_nat (length bs) ≤ 2147483647 →
  ∃ s', ReadBufferFromUser garbage s a (Z.of_nat (length bs)) uninit = Ok ((u8 <$> bs) ++ [0], s') ∧
    user_ok s' ∧ same_memory s s'.
Proof.
  intros Hu Hm Ha Hn Hr. unfold ReadBufferFromUser. rewrite (bool_decide_true (a ≠ 0)),
    (bool_decide_true (Z.of_nat (length bs) > 0)), (bool_decide_true (Z.of_nat (length bs) <= LSDIR_OUTPUT)) by lia.
  cbn [ASSERT andb mbind result_bind]. rewrite Nat2Z.id.
  destruct (read_buffer_ok bs s a uninit Hu Hm Hr) as (s' & -> & ? & ?). by exists s'.
Qed.
End UserMemory.

(** ** Witnesses *)
Definition demo_user : VM :=
  set_machine demo_vm (mkMachine (<[29%nat := 2288]> (replicate 40 0)) (vm_mmu demo_vm) (λ _, true)).

Lemma demo_user_ok : user_ok demo_garbage demo_user.
Proof.
  split; [|done| |done].
  - exists demo_invalid. apply (vm_inv_registers demo_garbage demo_vm demo_invalid); [apply demo_vm_inv|done].
  - by exists 0.
Qed.

(** Decides whether all addresses from [a] on can be seen. *)
Definition visible (s : VM) (a : Z) (n : nat) : bool :=
  forallb (λ x, match vmem demo_garbage s x with Some _ => true | None => false end) (seqZ a (Z.of_nat n)).

Lemma visible_spec s a n x : visible s a n = true → a ≤ x < a + Z.of_nat n → is_Some (vmem demo_garbage s x).
Proof.
  unfold visible. rewrite forallb_forall. intros H Hx. specialize (H x). destruct (vmem demo_garbage s x); [by eexists|].
  discriminate H. apply list_elem_of_In, elem_of_seqZ. lia.
Qed.

Definition mem_is (s : VM) (a : Z) (bs : list Z) : bool :=
  bool_decide (imap (λ i _, vmem demo_garbage s (a + Z.of_nat i)) bs = Some <$> bs).

Lemma mem_is_spec s a bs : mem_is s a bs = true → at_mem demo_garbage s a bs.
Proof.
  unfold mem_is. rewrite bool_decide_eq_true. intros H i Hi. apply lookup_lt_is_Some in Hi as [b Hb].
  assert (E : imap (λ i _, vmem demo_garbage s (a + Z.of_nat i)) bs !! i = (Some <$> bs) !! i) by (by rewrite H).
  rewrite list_lookup_imap, list_lookup_fmap, Hb in E. rewrite Hb. cbn [fmap option_fmap option_map] in E. by injection E as ->.
Qed.

Lemma ReadStringFromUser_correct_witness : ∃ s',
  ReadStringFromUser demo_garbage demo_user 130 20 99 = Ok (true, [131; 132; 133; 134; 135; 136; 0], s') ∧
  user_ok demo_garbage s' ∧ same_memory demo_garbage demo_user s'.
Proof.
  apply (ReadStringFromUser_correct demo_garbage demo_user 130 20 [131; 132; 133; 134; 135; 136; 0] 99).
  - exact demo_user_ok.
  - apply mem_is_spec. vm_compute. reflexivity.
  - reflexivity.
  - reflexivity.
  - cbn. lia.
  - right. apply (bool_decide_unpack _). vm_compute. exact I.
  - cbn. lia.
Defined.

Lemma WriteBufferToUser_exact_witness : ∃ s',
  WriteBufferToUser demo_garbage demo_user [104; 105; 0; 7] 2000 4 = Ok s' ∧ user_ok demo_garbage s' ∧
  wrote demo_garbage demo_user s' 2000 [104; 105; 0].
Proof.
  apply (WriteBufferToUser_exact demo_garbage demo_user 2000 4 [104; 105; 0; 7]).
  - exact demo_user_ok.
  - do 4 (constructor; [unfold is_byte; lia|]). constructor.
  - reflexivity.
  - unfold LSDIR_OUTPUT. lia.
  - cbn. lia.
  - intros x Hx. apply (visible_spec _ 2000 3); [vm_compute; reflexivity|]. exact Hx.
  - cbn. lia.
Defined.

Definition demo_args : list (list Z) := [[108; 115; 0]; [97; 0]].

Lemma args_roundtrip_witness : ∃ s1 s2, WriteArgs demo_garbage demo_user demo_args = Ok (2, s1) ∧
  reg (machine s1) STACK_REG = Ok 2268 ∧ args_sp 2288 demo_args mod 4 = 0 ∧
  changed demo_garbage demo_user s1 2268 2288 ∧
  SaveArgs demo_garbage s1 2268 99 = Ok (Some demo_args, s2) ∧ same_memory demo_garbage s1 s2.
Proof.
  apply (args_roundtrip demo_garbage demo_user demo_args 2288 99).
  - exact demo_user_ok.
  - reflexivity.
  - constructor; [exists [108; 115]|constructor; [exists [97]|constructor]]; (split; [reflexivity|]; repeat (constructor; [lia|]); constructor).
  - do 2 (constructor; [unfold MAX_ARG_LENGTH; cbn; lia|]). constructor.
  - reflexivity.
  - reflexivity.
  - reflexivity.
  - intros x Hx. apply (visible_spec _ 2268 20); [vm_compute; reflexivity|]. exact Hx.
Defined.
