(* ===== verification/Simulation.v ===== *)
(** * The processor over two memories

    The simulator of [machine/mips_sim.cc] is generic in the memory it runs on
    ([Mips.Memory]).  Here two memories are related, such as the paged memory
    of the machine and the flat memory a program sees: if every access either
    agrees or is a page fault of the first memory, then every instruction either
    agrees or raises that page fault before it has changed anything. *)

From S2P Require Import Prelude Bitmap Disk Mmu Mips.
From stdpp Require Import base option list gmap numbers tactics.
From stdpp Require Import list.
Open Scope Z_scope.

(** [x] follows [y]: it succeeds when [y] does, with a related result. *)
Definition follows {A B} (R : A → B → Prop) (x : result A) (y : result B) : Prop :=
  ∀ b, y = Ok b → ∃ a, x = Ok a ∧ R a b.

Lemma follows_ok {A B} (R : A → B → Prop) a b : R a b → follows R (Ok a) (Ok b).
Proof. intros H b' [= <-]. by exists a. Qed.

Lemma follows_err {A B} (R : A → B → Prop) x e : follows R x (Err e).
Proof. by intros b. Qed.

Lemma follows_eq {A} (x y : result A) : x = y → follows (=) x y.
Proof. intros -> b ->. by exists b. Qed.

Lemma follows_bind {A B C D} (R : A → B → Prop) (S : C → D → Prop) x y (k : A → result C) (l : B → result D) :
  follows R x y → (∀ a b, R a b → follows S (k a) (l b)) → follows S (x ≫= k) (y ≫= l).
Proof.
  intros Hx Hk d (b & Hb & Hd)%result_bind_ok. destruct (Hx b Hb) as (a & -> & Hab). by apply (Hk a b).
Qed.

Lemma follows_if {A B} (R : A → B → Prop) (c : bool) x x' y y' :
  follows R x y → follows R x' y' → follows R (if c then x else x') (if c then y else y').
Proof. by destruct c. Qed.

Section Simulation.
Context {M N : Type} `{HM : Memory M} `{HN : Memory N}.

(** The same processor state over related memories. *)
Record same_cpu (R : M → N → Prop) (m : MachineOf M) (f : MachineOf N) : Prop := {
  sc_regs : registers m = registers f;
  sc_handlers : handlers m = handlers f;
  sc_mem : R (mmu m) (mmu f)
}.

Definition same_outcome (R : M → N → Prop) (o : outcomeOf M) (o' : outcomeOf N) : Prop :=
  match o, o' with
  | Completed m, Completed f => same_cpu R m f
  | Raised e m, Raised e' f => e = e' ∧ same_cpu R m f
  | _, _ => False
  end.

Lemma same_cpu_weaken (R S : M → N → Prop) m f : (∀ u w, R u w → S u w) → same_cpu R m f → same_cpu S m f.
Proof. intros HRS [? ? ?]. split; auto. Qed.

Lemma same_cpu_mmu (R S : M → N → Prop) m f u w : same_cpu R m f → S u w →
  same_cpu S (set_mmu m u) (set_mmu f w).
Proof. by intros [? ? _] ?. Qed.

Section Registers.
Context (R : M → N → Prop).

Lemma reg_follows m f r : same_cpu R m f → follows (=) (reg m r) (reg f r).
Proof. intros H. apply follows_eq. unfold reg. by rewrite (sc_regs _ _ _ H). Qed.

Lemma set_reg_follows m f r v : same_cpu R m f → follows (same_cpu R) (set_reg m r v) (set_reg f r v).
Proof.
  intros [Hr Hh Hm]. unfold set_reg. rewrite Hr. destruct (wr _ _ _); [|apply follows_err].
  by apply follows_ok.
Qed.

(** The next read or assignment of both processors. *)
Ltac step_reg :=
  match goal with
  | |- follows _ (reg _ _ ≫= _) (reg _ _ ≫= _) =>
      eapply follows_bind; [by apply reg_follows|intros ? ? <-]
  | |- follows _ (set_reg _ _ _ ≫= _) (set_reg _ _ _ ≫= _) =>
      eapply follows_bind; [by apply set_reg_follows|intros ? ? ?]
  | |- follows _ (set_reg _ _ _) (set_reg _ _ _) => by apply set_reg_follows
  | |- follows _ (Ok _) (Ok _) => by apply follows_ok
  end.

Lemma DelayedLoad_follows m f r v : same_cpu R m f → follows (same_cpu R) (DelayedLoad m r v) (DelayedLoad f r v).
Proof. intros H. unfold DelayedLoad. repeat step_reg. Qed.

Lemma finish_follows m f r v pc : same_cpu R m f → follows (same_outcome R) (finish m r v pc) (finish f r v pc).
Proof.
  intros H. unfold finish. eapply follows_bind; [by apply DelayedLoad_follows|intros ? ? ?].
  repeat step_reg.
Qed.

Lemma raise_follows m f et a : same_cpu R m f →
  follows (same_outcome R) (RaiseException m et a) (RaiseException f et a).
Proof.
  intros H. unfold RaiseException. rewrite (sc_handlers _ _ _ H).
  eapply follows_bind; [by apply follows_eq|intros ? ? _]. step_reg.
  eapply follows_bind; [by apply DelayedLoad_follows|intros ? ? ?]. by apply follows_ok.
Qed.

Lemma set_and_finish_follows m f r v pc : same_cpu R m f →
  follows (same_outcome R) (set_and_finish m r v pc) (set_and_finish f r v pc).
Proof. intros H. unfold set_and_finish. step_reg. by apply finish_follows. Qed.

Lemma branch_follows m f b i pc : same_cpu R m f →
  follows (same_outcome R) (branch m b i pc) (branch f b i pc).
Proof. intros H. unfold branch. step_reg. by apply finish_follows. Qed.

Lemma link_follows m f r : same_cpu R m f → follows (same_cpu R) (link m r) (link f r).
Proof. intros H. unfold link. repeat step_reg. Qed.

Lemma load_base_follows m f r : same_cpu R m f → follows (=) (load_base m r) (load_base f r).
Proof.
  intros H. unfold load_base. step_reg. destruct (bool_decide _); by apply reg_follows.
Qed.
End Registers.

(** ** One data access *)
(** [first] relates the memories before the access, [read] after a read, [last]
    at the end.  An access to an address whose page is [absent] is a page fault,
    which leaves the first memory [faulted]. *)
Context (first read last : M → N → Prop) (absent : Z → Prop) (faulted : Z → M → Prop).
Hypothesis first_last : ∀ u w, first u w → last u w.
Hypothesis read_last : ∀ u w, read u w → last u w.
Hypothesis read_sim : ∀ u w a size r w', size = 1 ∨ size = 2 ∨ size = 4 → 0 ≤ a < 2 ^ 32 →
  first u w → mem_read w a size = Ok (r, w') →
  (∃ u', mem_read u a size = Ok (r, u') ∧ read u' w' ∧ ((∃ v, r = inr v) → ¬ absent a)) ∨
  (∃ u', mem_read u a size = Ok (inl PAGE_FAULT_EXCEPTION, u') ∧ faulted a u').
Hypothesis write_sim : ∀ u w a size v e w', size = 1 ∨ size = 2 ∨ size = 4 → 0 ≤ a < 2 ^ 32 →
  first u w → mem_write w a size v = Ok (e, w') →
  (∃ u', mem_write u a size v = Ok (e, u') ∧ last u' w') ∨
  (∃ u', mem_write u a size v = Ok (PAGE_FAULT_EXCEPTION, u') ∧ faulted a u').
Hypothesis rewrite_sim : ∀ u w a size v e w', size = 1 ∨ size = 2 ∨ size = 4 → 0 ≤ a < 2 ^ 32 →
  read u w → ¬ absent a → mem_write w a size v = Ok (e, w') →
  ∃ u', mem_write u a size v = Ok (e, u') ∧ last u' w'.

Definition agrees_or_faults (m : MachineOf M) (a : Z) (x : result (outcomeOf M)) (y : result (outcomeOf N)) : Prop :=
  ∀ o', y = Ok o' → (∃ o, x = Ok o ∧ same_outcome last o o') ∨
    (∃ u, faulted a u ∧ x = RaiseException (set_mmu m u) PAGE_FAULT_EXCEPTION a).

Lemma follows_agrees m a x y : follows (same_outcome last) x y → agrees_or_faults m a x y.
Proof. intros H o' E. left. by apply H. Qed.

Lemma with_ReadMem_agrees m f a size k l : size = 1 ∨ size = 2 ∨ size = 4 → same_cpu first m f →
  (∀ v m' f', ¬ absent (u32 a) → same_cpu read m' f' → registers m' = registers m →
    follows (same_outcome last) (k v m') (l v f')) →
  agrees_or_faults m (u32 a) (with_ReadMem m a size k) (with_ReadMem f a size l).
Proof.
  intros Hs Hm Hk o'. unfold with_ReadMem. intros ([r w'] & Er & E)%result_bind_ok. cbn [fst snd] in E.
  destruct (read_sim _ _ _ _ _ _ Hs (u32_range a) (sc_mem _ _ _ Hm) Er) as [(u' & -> & Hu & Hr)|(u' & -> & Hu)];
    cbn [mbind result_bind]; [left|right; by exists u'].
  pose proof (same_cpu_mmu _ read _ _ _ _ Hm Hu) as Hm'. destruct r as [e|v].
  - apply (raise_follows last _ (set_mmu f w') e (u32 a)); [|exact E]. by apply (same_cpu_weaken read).
  - eapply Hk; [by apply Hr; eexists|exact Hm'|done|exact E].
Qed.

Lemma with_WriteMem_agrees m f a size v k l : size = 1 ∨ size = 2 ∨ size = 4 → same_cpu first m f →
  (∀ m' f', same_cpu last m' f' → follows (same_outcome last) (k m') (l f')) →
  agrees_or_faults m (u32 a) (with_WriteMem m a size v k) (with_WriteMem f a size v l).
Proof.
  intros Hs Hm Hk o'. unfold with_WriteMem. intros ([r w'] & Er & E)%result_bind_ok. cbn [fst snd] in E.
  destruct (write_sim _ _ _ _ _ _ _ Hs (u32_range a) (sc_mem _ _ _ Hm) Er) as [(u' & -> & Hu)|(u' & -> & Hu)];
    cbn [mbind result_bind]; [left|right; by exists u'].
  pose proof (same_cpu_mmu _ last _ _ _ _ Hm Hu) as Hm'. case_decide.
  - by eapply Hk.
  - by eapply raise_follows.
Qed.

Lemma with_WriteMem_follows m f a size v k l : size = 1 ∨ size = 2 ∨ size = 4 → same_cpu read m f →
  ¬ absent (u32 a) → (∀ m' f', same_cpu last m' f' → follows (same_outcome last) (k m') (l f')) →
  follows (same_outcome last) (with_WriteMem m a size v k) (with_WriteMem f a size v l).
Proof.
  intros Hs Hm Ha Hk o'. unfold with_WriteMem. intros ([r w'] & Er & E)%result_bind_ok. cbn [fst snd] in E.
  destruct (rewrite_sim _ _ _ _ _ _ _ Hs (u32_range a) (sc_mem _ _ _ Hm) Ha Er) as (u' & -> & Hu).
  cbn [mbind result_bind]. pose proof (same_cpu_mmu _ last _ _ _ _ Hm Hu) as Hm'. case_decide.
  - by eapply Hk.
  - by eapply raise_follows.
Qed.

(** ** Every instruction *)
(** The address of the data of a load or a store. *)
Definition data_address (m : MachineOf M) (i : Instruction) : Z :=
  match reg m (rs i) with Ok a => u32 (s32 (a + extra i)) | Err _ => 0 end.

Lemma agrees_reg m a x f r (k : Z → result (outcomeOf M)) l : same_cpu first m f → x = (reg m r ≫= k) →
  (∀ v, reg m r = Ok v → agrees_or_faults m a (k v) (l v)) → agrees_or_faults m a x (reg f r ≫= l).
Proof.
  intros Hm -> Hk o' (v & Ev & E)%result_bind_ok.
  assert (Ev' : reg m r = Ok v) by (unfold reg in *; by rewrite (sc_regs _ _ _ Hm)).
  rewrite Ev'. cbn [mbind result_bind]. by apply (Hk v).
Qed.
Lemma data_address_eq m i a : reg m (rs i) = Ok a → data_address m i = u32 (s32 (a + extra i)).
Proof. unfold data_address. by intros ->. Qed.

Lemma agrees_assert m a (b : bool) x y : agrees_or_faults m a x y →
  agrees_or_faults m a (_ ← ASSERT b; x) (_ ← ASSERT b; y).
Proof. by destruct b. Qed.

Lemma agrees_if m a (b : bool) x x' y y' : agrees_or_faults m a x y → agrees_or_faults m a x' y' →
  agrees_or_faults m a (if b then x else x') (if b then y else y').
Proof. by destruct b. Qed.

(** The rest of an instruction, on registers. *)
Ltac step_follows :=
  match goal with
  | |- follows _ (reg _ _ ≫= _) (reg _ _ ≫= _) =>
      eapply follows_bind; [by eapply reg_follows|intros ? ? <-]
  | |- follows _ (set_reg _ _ _ ≫= _) (set_reg _ _ _ ≫= _) =>
      eapply follows_bind; [by apply set_reg_follows|intros ? ? ?]
  | |- follows _ (link _ _ ≫= _) (link _ _ ≫= _) =>
      eapply follows_bind; [by apply link_follows|intros ? ? ?]
  | |- follows _ (load_base _ _ ≫= _) (load_base _ _ ≫= _) =>
      eapply follows_bind; [by eapply load_base_follows|intros ? ? <-]
  | |- follows _ (let '(_, _) := ?x in _) _ => destruct x
  | |- follows _ (finish _ _ _ _) _ => by apply finish_follows
  | |- follows _ (set_and_finish _ _ _ _) _ => by apply set_and_finish_follows
  | |- follows _ (branch _ _ _ _) _ => by apply branch_follows
  | |- follows _ (RaiseException _ _ _) _ => by apply raise_follows
  | |- follows _ (if ?b then _ else _) _ => destruct b
  | |- follows _ _ (Err _) => apply follows_err
  end.

Lemma ExecInstruction_agrees m f i : same_cpu first m f →
  agrees_or_faults m (data_address m i) (ExecInstruction m i) (ExecInstruction f i).
Proof.
  intros Hm. assert (Hl : same_cpu last m f) by (by apply (same_cpu_weaken first)).
  unfold ExecInstruction. eapply agrees_reg; [done|done|]. intros npc _. cbn zeta.
  destruct (opCode i);
    try (apply follows_agrees; repeat step_follows; fail);
    (eapply agrees_reg; [done|done|]; intros a Ha; rewrite (data_address_eq _ _ _ Ha)).
  all: try apply agrees_assert.
  all: try (apply agrees_if; [apply follows_agrees; by apply raise_follows|]).
  all: try (apply with_ReadMem_agrees; [lia|done|]; intros v m' f' Hab Hm' _;
    pose proof (same_cpu_weaken _ last _ _ read_last Hm'); try (repeat step_follows; fail)).
  all: try (eapply agrees_reg; [done|done|]; intros v _; apply with_WriteMem_agrees; [lia|done|];
    intros; repeat step_follows; fail).
  all: eapply follows_bind; [by eapply reg_follows|intros ? ? <-];
    apply with_WriteMem_follows; [lia|done|done|intros; repeat step_follows].
Qed.
End Simulation.

(** ** The registers of the processor *)
(** There are 40 registers, and the pending load is for one of the first 32. *)
Definition cpu_ok (rg : list Z) : Prop := length rg = 40%nat ∧ ∃ r, rg !! 37%nat = Some r ∧ 0 ≤ r < 32.

Definition outcome_machine {M} (o : outcomeOf M) : MachineOf M :=
  match o with Completed m | Raised _ m => m end.

Section Registers.
Context {M : Type} `{HM : Memory M} (h : ExceptionType → bool).

Definition cpu_inv (m : MachineOf M) : Prop := cpu_ok (registers m) ∧ handlers m = h.

Definition keeps_cpu (x : result (outcomeOf M)) : Prop :=
  ∀ o, x = Ok o → cpu_inv (outcome_machine o).

Lemma keeps_bind {A} (x : result A) k : (∀ v, keeps_cpu (k v)) → keeps_cpu (x ≫= k).
Proof. intros H o (v & _ & E)%result_bind_ok. by apply (H v). Qed.

Lemma set_reg_cpu (m m' : MachineOf M) r v : cpu_inv m → 0 ≤ r → (r = 37 → 0 ≤ v < 32) →
  set_reg m r v = Ok m' → cpu_inv m'.
Proof.
  intros [[Hl (q & Hq & Hb)] Hh] H0 Hr E. unfold set_reg in E. apply result_bind_ok in E as (rg & Ew & [= <-]).
  apply wr_inv in Ew as [Hlt ->]. split; [|done]. split; cbn [registers]; [by rewrite length_insert|].
  destruct (decide (r = 37)) as [->|].
  - exists v. split; [apply list_lookup_insert_eq; lia|auto].
  - exists q. rewrite list_lookup_insert_ne by lia. done.
Qed.

Lemma keeps_set (m : MachineOf M) r v k : cpu_inv m → 0 ≤ r → (r = 37 → 0 ≤ v < 32) →
  (∀ m', cpu_inv m' → keeps_cpu (k m')) → keeps_cpu (set_reg m r v ≫= k).
Proof. intros Hm H0 Hr Hk o (m' & E & Ho)%result_bind_ok. eapply Hk; [by eapply set_reg_cpu|done]. Qed.

Lemma DelayedLoad_cpu (m m' : MachineOf M) r v : cpu_inv m → 0 ≤ r < 32 →
  DelayedLoad m r v = Ok m' → cpu_inv m'.
Proof.
  intros Hm Hr E. unfold DelayedLoad in E. apply result_bind_ok in E as (lr & Elr & E).
  apply result_bind_ok in E as (lv & _ & E). apply result_bind_ok in E as (m1 & E1 & E).
  apply result_bind_ok in E as (m2 & E2 & E). apply result_bind_ok in E as (m3 & E3 & E).
  assert (Hlr : 0 ≤ lr < 32).
  { destruct Hm as [[_ (q & Hq & Hb)] _]. apply rd_inv in Elr as [_ Elr]. change (Z.to_nat LOAD_REG) with 37%nat in Elr.
    congruence. }
  unfold LOAD_REG, LOAD_VALUE_REG in *.
  pose proof (set_reg_cpu m m1 lr lv Hm ltac:(lia) ltac:(lia) E1) as H1.
  pose proof (set_reg_cpu m1 m2 37 r H1 ltac:(lia) ltac:(lia) E2) as H2.
  pose proof (set_reg_cpu m2 m3 38 v H2 ltac:(lia) ltac:(lia) E3) as H3.
  exact (set_reg_cpu m3 m' 0 0 H3 ltac:(lia) ltac:(lia) E).
Qed.

Lemma keeps_finish (m : MachineOf M) r v pc : cpu_inv m → 0 ≤ r < 32 → keeps_cpu (finish m r v pc).
Proof.
  intros Hm Hr o (m1 & E1 & E)%result_bind_ok. revert o E.
  pose proof (DelayedLoad_cpu _ _ _ _ Hm Hr E1) as Hm1. change (keeps_cpu (x ← reg m1 PC_REG;
    m ← set_reg m1 PREV_PC_REG x; y ← reg m NEXT_PC_REG; m ← set_reg m PC_REG y; m ← set_reg m NEXT_PC_REG pc; Ok (Completed m))).
  apply keeps_bind. intros x. apply keeps_set; [done..|]. intros m2 H2. apply keeps_bind. intros y.
  do 2 (apply keeps_set; [done..|]; intros ? ?). by intros o [= <-].
Qed.

Lemma keeps_raise (m : MachineOf M) et a : cpu_inv m → keeps_cpu (RaiseException m et a).
Proof.
  intros Hm. unfold RaiseException. apply keeps_bind. intros _. apply keeps_set; [done..|]. intros m1 H1 o E.
  apply result_bind_ok in E as (m2 & E & [= <-]). by eapply DelayedLoad_cpu in E.
Qed.

Lemma keeps_read (m : MachineOf M) a size k : cpu_inv m →
  (∀ v m, cpu_inv m → keeps_cpu (k v m)) → keeps_cpu (with_ReadMem m a size k).
Proof.
  intros Hm Hk. unfold with_ReadMem. apply keeps_bind. intros [[e|v] u]; [by apply keeps_raise|by apply Hk].
Qed.

Lemma keeps_write (m : MachineOf M) a size v k : cpu_inv m →
  (∀ m, cpu_inv m → keeps_cpu (k m)) → keeps_cpu (with_WriteMem m a size v k).
Proof.
  intros Hm Hk. unfold with_WriteMem. apply keeps_bind. intros [e u]. cbn zeta.
  case_decide; [by apply Hk|by apply keeps_raise].
Qed.

Lemma keeps_link (m : MachineOf M) r k : cpu_inv m → 0 ≤ r < 32 →
  (∀ m, cpu_inv m → keeps_cpu (k m)) → keeps_cpu (link m r ≫= k).
Proof.
  intros Hm Hr Hk o (m' & E & Ho)%result_bind_ok. unfold link in E. apply result_bind_ok in E as (x & _ & E).
  eapply Hk; [|done]. eapply set_reg_cpu; [done| | |exact E]; lia.
Qed.

Ltac step_cpu :=
  match goal with
  | |- keeps_cpu (with_ReadMem _ _ _ _) => apply keeps_read; [done|]; intros ? ? ?
  | |- keeps_cpu (with_WriteMem _ _ _ _ _) => apply keeps_write; [done|]; intros ? ?
  | |- keeps_cpu (finish _ _ _ _) => apply keeps_finish; [done|lia]
  | |- keeps_cpu (RaiseException _ _ _) => by apply keeps_raise
  | |- keeps_cpu (set_and_finish _ _ _ _) => unfold set_and_finish
  | |- keeps_cpu (branch _ _ _ _) => unfold branch
  | |- keeps_cpu (let '(_, _) := ?x in _) => destruct x
  | |- keeps_cpu (if ?b then _ else _) => destruct b
  | |- keeps_cpu (set_reg _ _ _ ≫= _) => apply keeps_set; [done|unfold HI_REG, LO_REG; lia|unfold HI_REG, LO_REG; lia|]; intros ? ?
  | |- keeps_cpu (link _ _ ≫= _) => apply keeps_link; [done|unfold RET_ADDR_REG; lia|]; intros ? ?
  | |- keeps_cpu (_ ≫= _) => apply keeps_bind; intros ?
  | |- keeps_cpu (Err _) => by intros ?
  end.

Lemma ExecInstruction_cpu (m : MachineOf M) i : instr_ok i → cpu_inv m → keeps_cpu (ExecInstruction m i).
Proof.
  intros [_ Hrs Hrt Hrd _ _] Hm. unfold NUM_GP_REGS in *. unfold ExecInstruction. apply keeps_bind. intros npc. cbn zeta.
  destruct (opCode i); repeat step_cpu.
Qed.
End Registers.
