(* ===== verification/Execution.v ===== *)
(** * The execution of user programs under demand paging

    The instructions of [Machine::Run] of [machine/mips_sim.cc] with the page-fault
    handler that [SetExceptionHandlers] of [userprog/exception.cc] installs,
    between two interrupts; [Timesharing] has the whole loop, with
    [interrupt->OneTick()].  The reference is the same processor over a flat
    memory, the map from addresses to bytes that the program sees: an attempt
    at an instruction does what it does there or handles a page fault, and an
    instruction makes progress after at most three page faults. *)

From S2P Require Import Prelude Bitmap Disk ReadWrite Mmu Mips MipsSpec Simulation AddressSpace Paging Transfer UserMemory.
From stdpp Require Import base option list gmap numbers tactics.
From stdpp Require Import list.
Open Scope Z_scope.

(** What became of the instruction: it was executed, its page fault was
    handled, or another exception was raised, at whose handler the program is. *)
Inductive stepped :=
| Done (s : VM)
| Faulted (s : VM)
| Trapped (et : ExceptionType) (s : VM).

Section Execution.
Context (garbage : list Z).

(** The first part of an iteration of [Run], up to [interrupt->OneTick()]: fetch,
    execute, and the handler if that is the one of page faults. *)
Definition fetch_execute (s : VM) : result stepped :=
  o ← processor_step (machine s);
  match o with
  | Completed m => Ok (Done (set_machine s m))
  | Raised PAGE_FAULT_EXCEPTION m =>
      s ← TLBPageFaultHandler garbage (set_machine s m); Ok (Faulted s)
  | Raised et m => Ok (Trapped et (set_machine s m))
  end.

(** Attempts at an instruction until it is executed or traps, with at most [n]
    page faults and no interrupt in between.  This is not code: [Timesharing] has
    the iterations of [Run], and needs it for the number of page faults of an
    instruction. *)
Fixpoint attempts (n : nat) (s : VM) : result stepped :=
  r ← fetch_execute s;
  match r, n with
  | Faulted s, S n => attempts n s
  | r, _ => Ok r
  end.

End Execution.

(** ** Flat memory *)
Definition Flat := Z → option Z.

Definition flat_bytes (F : Flat) (a : Z) (n : nat) : option (list Z) :=
  mapM (λ i, F (a + Z.of_nat i)) (seq 0 n).

Definition flat_read (F : Flat) (a size : Z) : result ((ExceptionType + Z) * Flat) :=
  if misaligned a size then Ok (inl ADDRESS_ERROR_EXCEPTION, F)
  else match flat_bytes F a (Z.to_nat size) with
       | Some bs => Ok (inr (value_of size bs), F)
       | None => Err OutOfBounds
       end.

Definition flat_write (F : Flat) (a size v : Z) : result (ExceptionType * Flat) :=
  if misaligned a size then Ok (ADDRESS_ERROR_EXCEPTION, F)
  else match flat_bytes F a (Z.to_nat size) with
       | Some _ => Ok (NO_EXCEPTION,
           λ x, if decide (a ≤ x < a + size) then stored size v !! Z.to_nat (x - a) else F x)
       | None => Err OutOfBounds
       end.

#[export] Instance Flat_memory : Memory Flat := { mem_read := flat_read; mem_write := flat_write }.

Lemma flat_bytes_lookup F a n bs : flat_bytes F a n = Some bs →
  length bs = n ∧ ∀ i, (i < n)%nat → F (a + Z.of_nat i) = bs !! i.
Proof.
  unfold flat_bytes. intros H%mapM_Some. split; [apply Forall2_length in H; by rewrite length_seq in H|].
  intros i Hi. destruct (Forall2_lookup_l _ _ _ i i H) as (b & Hb & E); [by rewrite lookup_seq_lt|]. by rewrite Hb.
Qed.

(** ** The flat machine has no page faults *)
Definition clean {M} (x : result (outcomeOf M)) : Prop :=
  ∀ o, x = Ok o → match o with Raised PAGE_FAULT_EXCEPTION _ => False | _ => True end.

Lemma clean_bind {M A} (x : result A) (k : A → result (outcomeOf M)) : (∀ v, clean (k v)) → clean (x ≫= k).
Proof. intros H o (v & _ & E)%result_bind_ok. by apply (H v). Qed.

Lemma clean_raise {M} (m : MachineOf M) et a : et ≠ PAGE_FAULT_EXCEPTION → clean (RaiseException m et a).
Proof. intros Hne. unfold RaiseException. do 3 (apply clean_bind; intros ?). intros o [= <-]. by destruct et. Qed.

Lemma clean_finish {M} (m : MachineOf M) r v pc : clean (finish m r v pc).
Proof. unfold finish. repeat (apply clean_bind; intros ?). by intros o [= <-]. Qed.

Lemma clean_read (m : MachineOf Flat) a size k : (∀ v m, clean (k v m)) → clean (with_ReadMem m a size k).
Proof.
  intros Hk o. unfold with_ReadMem. intros ([r u] & Er & E)%result_bind_ok. cbn in Er. unfold flat_read in Er.
  revert E. destruct (misaligned _ _); [injection Er as <- <-; by apply clean_raise|].
  destruct (flat_bytes _ _ _); [injection Er as <- <-; apply Hk|done].
Qed.

Lemma clean_write (m : MachineOf Flat) a size v k : (∀ m, clean (k m)) → clean (with_WriteMem m a size v k).
Proof.
  intros Hk o. unfold with_WriteMem. intros ([r u] & Er & E)%result_bind_ok. cbn in Er. unfold flat_write in Er.
  revert E. destruct (misaligned _ _); [injection Er as <- <-; by apply clean_raise|].
  destruct (flat_bytes _ _ _); [injection Er as <- <-; apply Hk|done].
Qed.

Ltac step_clean :=
  match goal with
  | |- clean (with_ReadMem _ _ _ _) => apply clean_read; intros ? ?
  | |- clean (with_WriteMem _ _ _ _ _) => apply clean_write; intros ?
  | |- clean (finish _ _ _ _) => apply clean_finish
  | |- clean (RaiseException _ _ _) => by apply clean_raise
  | |- clean (set_and_finish _ _ _ _) => unfold set_and_finish
  | |- clean (branch _ _ _ _) => unfold branch
  | |- clean (let '(_, _) := ?x in _) => destruct x
  | |- clean (if ?b then _ else _) => destruct b
  | |- clean (_ ≫= _) => apply clean_bind; intros ?
  | |- clean (Err _) => by intros ?
  end.

Lemma flat_clean (f : MachineOf Flat) : clean (processor_step f).
Proof.
  unfold processor_step, FetchInstruction. intros o (r & Er & E)%result_bind_ok.
  apply result_bind_ok in Er as (pc & _ & Er). apply result_bind_ok in Er as ([r' F] & Em & Er). cbn in Em.
  unfold flat_read in Em. destruct (misaligned _ _).
  { injection Em as <- <-. apply result_bind_ok in Er as (o' & Eo & [= <-]). injection E as <-.
    exact (clean_raise _ ADDRESS_ERROR_EXCEPTION _ ltac:(done) _ Eo). }
  destruct (flat_bytes _ _ _); [|done]. injection Em as <- <-. apply result_bind_ok in Er as (i & _ & [= <-]).
  revert o E. unfold ExecInstruction. apply clean_bind. intros npc. cbn zeta.
  destruct (opCode i); repeat step_clean.
Qed.

(** ** Registers *)
(** The registers after an exception: the delayed load is completed. *)
Definition settle (b : Z) (rg : list Z) : list Z :=
  let rg := <[39%nat := s32 b]> rg in
  let lr := Z.to_nat (default 0 (rg !! 37%nat)) in
  let lv := default 0 (rg !! 38%nat) in
  <[0%nat := 0]> (<[38%nat := 0]> (<[37%nat := 0]> (<[lr := lv]> rg))).

Lemma settle_length b rg : length (settle b rg) = length rg.
Proof. unfold settle. by rewrite !length_insert. Qed.

Lemma settle_lookup b rg k : cpu_ok rg → ∃ r v, rg !! 37%nat = Some r ∧ rg !! 38%nat = Some v ∧ 0 ≤ r < 32 ∧
  settle b rg !! k = if decide (k = 0%nat ∨ k = 37%nat ∨ k = 38%nat) then Some 0
                     else if decide (k = Z.to_nat r) then Some v
                     else if decide (k = 39%nat) then Some (s32 b) else rg !! k.
Proof.
  intros (Hl & r & Er & Hr). destruct (lookup_lt_is_Some_2 rg 38%nat) as [v Ev]; [lia|].
  exists r, v. split_and!; try done; [lia..|]. unfold settle.
  rewrite !(list_lookup_insert_ne rg 39%nat) by done. rewrite Er, Ev. cbn [from_option id].
  rewrite !list_lookup_insert, !length_insert, Hl. repeat case_decide; try done; lia || (f_equal; lia).
Qed.

Lemma settle_ok b rg : cpu_ok rg → cpu_ok (settle b rg).
Proof.
  intros Hc. split; [rewrite settle_length; apply Hc|]. exists 0. split; [|lia].
  destruct (settle_lookup b rg 37%nat Hc) as (r & v & _ & _ & _ & ->). by rewrite decide_True by auto.
Qed.

Lemma settle_pc b rg : cpu_ok rg → settle b rg !! 34%nat = rg !! 34%nat.
Proof.
  intros Hc. destruct (settle_lookup b rg 34%nat Hc) as (r & v & _ & _ & Hr & ->). by rewrite !decide_False by lia.
Qed.

Lemma settle_same b b' rg k : cpu_ok rg → k ≠ 39%nat → settle b rg !! k = settle b' rg !! k.
Proof.
  intros Hc Hk. destruct (settle_lookup b rg k Hc) as (r & v & Er & Ev & _ & ->).
  destruct (settle_lookup b' rg k Hc) as (r' & v' & Er' & Ev' & _ & ->).
  assert (r' = r) as -> by congruence. assert (v' = v) as -> by congruence.
  repeat case_decide; done.
Qed.

(** A second exception finds no delayed load. *)
Lemma settle_settle b b' rg : cpu_ok rg → settle b' (settle b rg) = settle b' rg.
Proof.
  intros Hc. pose proof (settle_ok b rg Hc) as Hc'. apply list_eq. intros k.
  destruct (settle_lookup b' (settle b rg) k Hc') as (r' & v' & Er' & Ev' & Hr' & ->).
  destruct (settle_lookup b' rg k Hc) as (r & v & Er & Ev & Hr & ->).
  destruct (settle_lookup b rg 37%nat Hc) as (? & ? & _ & _ & _ & E37). rewrite decide_True in E37 by auto.
  destruct (settle_lookup b rg k Hc) as (r2 & v2 & Er2 & Ev2 & _ & Ek).
  assert (r' = 0) as -> by congruence. assert (r2 = r) as -> by congruence. assert (v2 = v) as -> by congruence.
  change (Z.to_nat 0) with 0%nat. rewrite Ek. repeat case_decide; try done; naive_solver lia.
Qed.

Lemma raise_settles {M} (m : MachineOf M) et b : cpu_ok (registers m) → handlers m et = true →
  RaiseException m et b = Ok (Raised et (mkMachine (settle b (registers m)) (mmu m) (handlers m))).
Proof.
  intros (Hl & r & Er & Hr) Hh. destruct m as [rg u h]. cbn [registers mmu handlers] in *.
  destruct (lookup_lt_is_Some_2 rg 38%nat) as [v Ev]; [lia|].
  unfold RaiseException, DelayedLoad, set_reg, reg, settle. cbn [registers mmu handlers]. rewrite Hh.
  cbn [ASSERT mbind result_bind]. rewrite wr_ok by (rewrite Hl; done). cbn [mbind result_bind registers mmu handlers].
  change (Z.to_nat BAD_VADDR_REG) with 39%nat. rewrite !(list_lookup_insert_ne rg 39%nat) by done.
  rewrite Er, Ev. cbn [from_option id].
  rewrite (rd_ok _ LOAD_REG r), (rd_ok _ LOAD_VALUE_REG v) by (done || by rewrite list_lookup_insert_ne).
  cbn [mbind result_bind registers mmu handlers].
  do 4 (rewrite wr_ok by (rewrite !length_insert, Hl; lia || done); cbn [mbind result_bind registers mmu handlers]).
  done.
Qed.

(** ** The TLB as slots *)
(** The page and the frame of a slot. *)
Definition slot_of (e : TranslationEntry) : option (Z * Z) :=
  if valid e then Some (virtualPage e, physicalPage e) else None.
Definition slots (t : list TranslationEntry) : list (option (Z * Z)) := slot_of <$> t.

(** The page is in the TLB. *)
Definition has (t : list TranslationEntry) (v : Z) : Prop := tlb_find 0 t v ≠ None.

Lemma tlb_find_slots i t v : tlb_find i t v = None ↔ ∀ p, Some (v, p) ∉ slots t.
Proof.
  revert i. induction t as [|e t IH]; intros i; cbn.
  { split; [|done]. intros _ p. by apply not_elem_of_nil. }
  unfold slot_of at 1. destruct (valid e) eqn:Ve; cbn [andb].
  - case_bool_decide as E; cbn [andb].
    + split; [done|]. intros H. exfalso. apply (H (physicalPage e)). rewrite <-E. apply list_elem_of_here.
    + rewrite IH. split; intros H p; [|intros Hp; apply (H p); by apply list_elem_of_further].
      rewrite not_elem_of_cons. split; [congruence|apply H].
  - rewrite IH. split; intros H p; [|intros Hp; apply (H p); by apply list_elem_of_further].
    rewrite not_elem_of_cons. split; [done|apply H].
Qed.

Lemma has_slots t t' v : slots t = slots t' → has t v → has t' v.
Proof. unfold has. rewrite !tlb_find_slots. by intros ->. Qed.

Lemma has_slot t k v p : slots t !! k = Some (Some (v, p)) → has t v.
Proof. unfold has. rewrite tlb_find_slots. intros H Hn. apply (Hn p). by eapply list_elem_of_lookup_2. Qed.

Lemma slots_lookup t k e : t !! k = Some e → valid e = true → slots t !! k = Some (Some (virtualPage e, physicalPage e)).
Proof. intros H V. unfold slots. rewrite list_lookup_fmap, H. cbn. unfold slot_of. by rewrite V. Qed.

Lemma slots_entry t k v p : slots t !! k = Some (Some (v, p)) →
  ∃ e, t !! k = Some e ∧ valid e = true ∧ virtualPage e = v ∧ physicalPage e = p.
Proof.
  unfold slots. rewrite list_lookup_fmap. destruct (t !! k) as [e|]; [|done]. cbn. unfold slot_of.
  destruct (valid e) eqn:V; [|done]. intros [= <- <-]. by exists e.
Qed.

Lemma slots_touch t k e w : t !! k = Some e → slots (<[k := touch e w]> t) = slots t.
Proof.
  intros H. unfold slots. rewrite list_fmap_insert. apply list_insert_id.
  rewrite list_lookup_fmap, H. done.
Qed.

(** ** The ages of the frames *)
(** No age is newer than the clock, which [n] more references do not wrap. *)
Record ages_ok (n : Z) (l : Z * list Z) : Prop := {
  ag_clock : 0 ≤ l.1;
  ag_wrap : l.1 + n < UINT_MAX;
  ag_ages : Forall (λ c, c ≤ l.1) l.2
}.

Lemma ages_weaken n m l : m ≤ n → ages_ok n l → ages_ok m l.
Proof. intros ? []. split; try done. lia. Qed.

Lemma ages_clock n l : 0 ≤ n → ages_ok (n + 1) l → u32 (l.1 + 1) = l.1 + 1.
Proof. intros ? []. unfold UINT_MAX in *. apply u32_id. unfold is_u32. lia. Qed.

Lemma ages_tick n l : 0 ≤ n → ages_ok (n + 1) l → ages_ok n (u32 (l.1 + 1), l.2).
Proof.
  intros Hn Hl. rewrite (ages_clock n) by done. destruct Hl as [? ? Ha]. split; cbn; [lia|lia|].
  eapply Forall_impl; [exact Ha|]. cbn. lia.
Qed.

Lemma ages_use n l p : 0 ≤ n → ages_ok (n + 1) l → ages_ok n (lru_use l.1 l.2 p).
Proof.
  intros Hn Hl. unfold lru_use. pose proof (ages_tick n l Hn Hl) as [? ? Ha]. cbn in *.
  split; cbn; [lia|lia|]. apply Forall_insert; [done|lia].
Qed.

(** The frame used last is not the oldest one. *)
Lemma used_not_least n l p : 0 ≤ n → ages_ok (n + 1) l → length l.2 = 16%nat → 0 ≤ p < 16 →
  ¬ least (lru_use l.1 l.2 p).2 p.
Proof.
  intros Hn Hl Hlen Hp H. pose proof (ages_clock n l Hn Hl) as Hc. destruct Hl as [? Hw Ha].
  set (q := if decide (p = 0) then 1 else 0).
  assert (Hq : 0 ≤ q < 16 ∧ q ≠ p) by (unfold q; case_decide; lia). destruct Hq as [Hq Hne].
  destruct (lookup_lt_is_Some_2 l.2 (Z.to_nat q)) as [z Hz]; [lia|].
  rewrite Forall_lookup in Ha. pose proof (Ha _ _ Hz). unfold lru_use in H. cbn [snd] in H. rewrite Hc in H.
  assert (l.1 + 1 ≤ z); [|lia]. apply (H q); [|done|rewrite list_lookup_insert_ne by lia; done|lia].
  apply list_lookup_insert_eq. lia.
Qed.

Section Simulation.
Context (garbage : list Z).
Abbreviation inv s t := (vm_inv garbage None s t).
Abbreviation vmem := (vmem garbage).
Abbreviation vpage := (vpage garbage).

(** The program sees the memory [F]. *)
Definition shows (s : VM) (F : Flat) : Prop := ∀ a, vmem s a = F a.

(** The access faulted: nothing but the clock changed. *)
Record missed (s : VM) (t : list TranslationEntry) (a : Z) (u : MMU) : Prop := {
  ms_miss : tlb_find 0 t (a / PAGE_SIZE) = None;
  ms_page : is_Some (pte s (currentSpace s) (Z.to_nat (a / PAGE_SIZE)));
  ms_inv : inv (set_vm_mmu s u) t;
  ms_lru : lru_of u = (u32 (references_done (vm_mmu s) + 1), last_use_counter (vm_mmu s));
  ms_pages id v : vpage (set_vm_mmu s u) id v = vpage s id v
}.

(** The access was translated. *)
Record hit (s : VM) (t : list TranslationEntry) (a : Z) (u : MMU) (t' : list TranslationEntry) : Prop := {
  ht_page : ∃ v, a / PAGE_SIZE = Z.of_nat v ∧ accessed s t v u t';
  ht_inv : inv (set_vm_mmu s u) t';
  ht_other id v : id ≠ currentSpace s → vpage (set_vm_mmu s u) id v = vpage s id v
}.

Lemma shows_bytes s F a n bs : shows s F → flat_bytes F a n = Some bs → at_mem garbage s a bs.
Proof. intros Hs [Hl Hb]%flat_bytes_lookup i Hi. rewrite Hs. apply Hb. lia. Qed.

Lemma shows_page s F a n bs : shows s F → flat_bytes F a (S n) = Some bs →
  ∃ v pg, 0 ≤ a ∧ a / PAGE_SIZE = Z.of_nat v ∧ vpage s (currentSpace s) v = Some pg ∧
    is_Some (pte s (currentSpace s) v).
Proof.
  intros Hs Hb. pose proof (shows_bytes _ _ _ _ _ Hs Hb) as Hm. apply flat_bytes_lookup in Hb as [Hl _].
  destruct bs as [|b bs]; [done|]. apply at_mem_cons in Hm as [(pg & v & ? & ? & ? & _ & ?)%vmem_page _].
  by exists v, pg.
Qed.

(** The bytes of an access are in one page. *)
Lemma shows_slice s a size v pg bs : size = 1 ∨ size = 2 ∨ size = 4 → misaligned a size = false → 0 ≤ a →
  at_mem garbage s a bs → Z.of_nat (length bs) = size → a / PAGE_SIZE = Z.of_nat v →
  vpage s (currentSpace s) v = Some pg → slice pg (a mod PAGE_SIZE) size = Ok bs.
Proof.
  intros Hsz Hal H0 Hm Hl Hv Hpg. pose proof (offset_bound a size H0 Hsz Hal) as [_ Ho]. change PAGE_SIZE with 128 in *.
  assert (Hi : ∀ i : nat, (i < length bs)%nat → pg !! (Z.to_nat (a mod 128) + i)%nat = bs !! i).
  { intros i Hi. rewrite <-Hm by done. unfold UserMemory.vmem. rewrite bool_decide_true by lia.
    replace ((a + Z.of_nat i) / 128) with (a / 128) by (Z.div_mod_to_equations; lia). rewrite Hv, Nat2Z.id, Hpg.
    cbn [mbind option_bind]. f_equal. Z.div_mod_to_equations; lia. }
  assert (Hlen : (Z.to_nat (a mod 128) + (length bs - 1) < length pg)%nat).
  { apply lookup_lt_is_Some. rewrite (Hi (length bs - 1)%nat) by lia. apply lookup_lt_is_Some. lia. }
  rewrite slice_ok by (Z.div_mod_to_equations; lia). f_equal. apply list_eq. intros i.
  destruct (decide (i < length bs)%nat).
  - rewrite lookup_take_lt, lookup_drop by lia. by apply Hi.
  - rewrite lookup_take_ge by lia. symmetry. apply lookup_ge_None. lia.
Qed.

Lemma misses s t a size writing v : inv s t → misaligned a size = false → a / PAGE_SIZE = Z.of_nat v →
  is_Some (pte s (currentSpace s) v) → tlb_find 0 t (Z.of_nat v) = None →
  ∃ u, Translate (vm_mmu s) a size writing = Ok (inl PAGE_FAULT_EXCEPTION, u) ∧ missed s t a u.
Proof.
  intros Hi Hm Hv Hp Hf. rewrite <-Hv in Hf. destruct (miss_ok garbage s t a size writing Hi Hm Hf) as (u & E & ? & ? & ?).
  exists u. split; [done|]. split; try done. by rewrite Hv, Nat2Z.id.
Qed.

Lemma misaligned_Translate s t a size writing : inv s t → misaligned a size = true →
  Translate (vm_mmu s) a size writing = Ok (inl ADDRESS_ERROR_EXCEPTION, vm_mmu s).
Proof.
  intros Hi Hm. pose proof (vi_mmu _ _ _ _ Hi) as [_ Htlb Hpt _ _].
  unfold Translate, ASSERT. rewrite Htlb, Hpt, bool_decide_false, bool_decide_true by done.
  cbn [xorb mbind result_bind]. by rewrite Hm.
Qed.

Lemma read_access s t F a size r F' : inv s t → shows s F → size = 1 ∨ size = 2 ∨ size = 4 →
  flat_read F a size = Ok (r, F') →
  F' = F ∧
  ((misaligned a size = true ∧ r = inl ADDRESS_ERROR_EXCEPTION ∧ ReadMem (vm_mmu s) a size = Ok (r, vm_mmu s)) ∨
   (∃ u t' v, r = inr v ∧ ReadMem (vm_mmu s) a size = Ok (r, u) ∧ hit s t a u t' ∧ shows (set_vm_mmu s u) F ∧
      ∀ id v, vpage (set_vm_mmu s u) id v = vpage s id v) ∨
   (∃ u, ReadMem (vm_mmu s) a size = Ok (inl PAGE_FAULT_EXCEPTION, u) ∧ missed s t a u)).
Proof.
  intros Hi Hs Hsz. unfold flat_read. destruct (misaligned a size) eqn:Hm.
  { intros [= <- <-]. split; [done|]. left. unfold ReadMem. by rewrite (misaligned_Translate s t). }
  destruct (flat_bytes F a (Z.to_nat size)) as [bs|] eqn:Hb; [|done]. intros [= <- <-]. split; [done|]. right.
  replace (Z.to_nat size) with (S (Z.to_nat (size - 1))) in Hb by lia.
  destruct (shows_page _ _ _ _ _ Hs Hb) as (v & pg & H0 & Hv & Hpg & Hp).
  destruct (tlb_cases garbage s t a v size false Hi Hm Hv) as [Hf|[pa Hpa]]; [right|left].
  - destruct (misses s t a size false v) as (u & E & Hms); try done. exists u. split; [|done].
    unfold ReadMem. by rewrite E.
  - destruct (load_ok _ s t a size v pa Hi H0 Hsz Hv Hpa) as (u & t' & pg' & Hi' & Hac & Hvp & Hpg' & _ & Hr).
    assert (pg' = pg) as -> by congruence. apply flat_bytes_lookup in Hb as Hl. destruct Hl as [Hl _].
    exists u, t', (value_of size bs). split_and!; [done|..].
    + apply Hr. eapply shows_slice; try done; [by eapply shows_bytes|lia].
    + split; [by exists v|done|by intros].
    + intros x. rewrite <-Hs. apply same_vmem. by split.
    + done.
Qed.

Lemma write_access s t F a size w e F' : inv s t → shows s F → size = 1 ∨ size = 2 ∨ size = 4 →
  flat_write F a size w = Ok (e, F') →
  (misaligned a size = true ∧ e = ADDRESS_ERROR_EXCEPTION ∧ F' = F ∧ WriteMem (vm_mmu s) a size w = Ok (e, vm_mmu s)) ∨
  (∃ u t', WriteMem (vm_mmu s) a size w = Ok (e, u) ∧ hit s t a u t' ∧ shows (set_vm_mmu s u) F') ∨
  (∃ u, WriteMem (vm_mmu s) a size w = Ok (PAGE_FAULT_EXCEPTION, u) ∧ missed s t a u).
Proof.
  intros Hi Hs Hsz. unfold flat_write. destruct (misaligned a size) eqn:Hm.
  { intros [= <- <-]. left. unfold WriteMem. by rewrite (misaligned_Translate s t). }
  destruct (flat_bytes F a (Z.to_nat size)) as [bs|] eqn:Hb; [|done]. intros [= <- <-]. right.
  replace (Z.to_nat size) with (S (Z.to_nat (size - 1))) in Hb by lia.
  destruct (shows_page _ _ _ _ _ Hs Hb) as (v & pg & H0 & Hv & Hpg & Hp).
  destruct (tlb_cases garbage s t a v size true Hi Hm Hv) as [Hf|[pa Hpa]]; [right|left].
  - destruct (misses s t a size true v) as (u & E & Hms); try done. exists u. split; [|done].
    unfold WriteMem. by rewrite E.
  - destruct (store_wrote garbage s t a v size w pa Hi H0 Hsz Hv Hpa) as (u & t' & E & Hi' & Hac & [Hc Hmem Hoth]).
    exists u, t'. split_and!; [done|split; [by exists v|done|by intros; apply Hoth]|].
    intros x. rewrite Hmem, stored_length by done. by case_decide.
Qed.

(** What the accesses of an instruction keep, with [n] references left. *)
Record within (n : Z) (s : VM) (t : list TranslationEntry) (u : MMU) (F : Flat) : Prop := {
  wn_inv : ∃ t', inv (set_vm_mmu s u) t' ∧ slots t' = slots t;
  wn_shows : shows (set_vm_mmu s u) F;
  wn_other id v : id ≠ currentSpace s → vpage (set_vm_mmu s u) id v = vpage s id v;
  wn_ages : ages_ok n (lru_of u)
}.

Lemma within_refl n s t F : inv s t → shows s F → ages_ok n (lru s) → within n s t (vm_mmu s) F.
Proof.
  intros Hi Hs Ha. assert (E : set_vm_mmu s (vm_mmu s) = s) by (by destruct s as [[]]).
  split; rewrite ?E; try done. by exists t.
Qed.

Lemma within_weaken n m s t u F : m ≤ n → within n s t u F → within m s t u F.
Proof. intros ? []. split; try done. by eapply ages_weaken. Qed.

Lemma hit_within n s t a u t' F : 0 ≤ n → ages_ok (n + 1) (lru s) → hit s t a u t' →
  shows (set_vm_mmu s u) F → within n s t u F ∧ has t (a / PAGE_SIZE).
Proof.
  intros Hn Ha [(v & Hv & [(k & te & w & Hk & Vk & Pk & -> & Hl)]) Hi Ho] Hs.
  split; [split; try done|].
  - eexists. split; [done|]. by eapply slots_touch.
  - rewrite Hl. by apply (ages_use n (lru s)).
  - rewrite Hv, <-Pk. eapply has_slot. by apply slots_lookup.
Qed.

Lemma within_step m s t t1 u w G : slots t1 = slots t →
  (∀ id v, id ≠ currentSpace s → vpage (set_vm_mmu s u) id v = vpage s id v) →
  within m (set_vm_mmu s u) t1 w G → within m s t w G.
Proof.
  intros Ht Ho [(t2 & Hi2 & Ht2) Hs2 Ho2 Ha2]. split; try done.
  - exists t2. split; [done|congruence].
  - intros id v Hid. rewrite <-Ho by done. by apply Ho2.
Qed.

(** The machine over the memory [F] that the program sees. *)
Definition flat_machine (s : VM) (F : Flat) : MachineOf Flat :=
  mkMachine (registers (machine s)) F (handlers (machine s)).

Lemma exec_paged n s t F i : inv s t → shows s F → 0 ≤ n → ages_ok (n + 1 + 1) (lru s) →
  let a := data_address (machine s) i in
  ∀ o', ExecInstruction (flat_machine s F) i = Ok o' →
  (∃ o, ExecInstruction (machine s) i = Ok o ∧ same_outcome (within n s t) o o') ∨
  (∃ u, missed s t a u ∧ ExecInstruction (machine s) i = RaiseException (set_mmu (machine s) u) PAGE_FAULT_EXCEPTION a).
Proof.
  intros Hi Hs Hn Ha a o'.
  assert (Hw : within (n + 1 + 1) s t (vm_mmu s) F) by (by apply within_refl).
  eapply (ExecInstruction_agrees (λ u w, u = vm_mmu s ∧ w = F) (λ u w, within (n + 1) s t u w) (within n s t)
    (λ a, ¬ has t (a / PAGE_SIZE)) (λ a u, missed s t a u)).
  - intros u w [-> ->]. eapply within_weaken; [|done]. lia.
  - intros u w H. eapply within_weaken; [|done]. lia.
  - intros u w x size r w' Hsz Hx [-> ->] E.
    destruct (read_access s t F x size r w' Hi Hs Hsz E) as [-> [(_ & -> & E')|[(u' & t' & vv & _ & E' & Hh & Hs' & _)|(u' & E' & Hm)]]].
    + left. exists (vm_mmu s). split; [done|]. split; [|by intros [? ?]]. eapply within_weaken; [|done]. lia.
    + left. exists u'. split; [done|]. destruct (hit_within (n + 1) s t x u' t' F) as [? ?]; try done; [lia|].
      split; [done|]. naive_solver.
    + right. by exists u'.
  - intros u w x size v e w' Hsz Hx [-> ->] E.
    destruct (write_access s t F x size v e w' Hi Hs Hsz E) as [(_ & -> & -> & E')|[(u' & t' & E' & Hh & Hs')|(u' & E' & Hm)]].
    + left. exists (vm_mmu s). split; [done|]. eapply within_weaken; [|done]. lia.
    + left. exists u'. split; [done|]. destruct (hit_within n s t x u' t' w') as [? ?]; try done.
      eapply ages_weaken; [|done]. lia.
    + right. by exists u'.
  - intros u w x size v e w' Hsz Hx Hwi Hab E. destruct Hwi as [(t1 & Hi1 & Ht1) Hs1 Ho1 Ha1].
    destruct (write_access _ t1 w x size v e w' Hi1 Hs1 Hsz E) as [(_ & -> & -> & E')|[(u' & t' & E' & Hh & Hs')|(u' & E' & Hm)]].
    + exists u. split; [done|]. split; try done; [by exists t1|]. eapply ages_weaken; [|done]. lia.
    + exists u'. split; [done|]. eapply within_step; [done|done|].
      by eapply (hit_within n (set_vm_mmu s u) t1).
    + exfalso. apply Hab. intros Hht. eapply (has_slots t t1) in Hht; [|done]. by apply Hht, Hm.
  - by split.
Qed.

(** ** A page fault of a program *)
Lemma user_cpu s : user_ok garbage s → cpu_ok (registers (machine s)).
Proof.
  intros [_ Hl (r & Hr & Hb) _]. split; [done|]. exists r. split; [|done].
  unfold reg in Hr. by apply rd_inv in Hr as [_ Hr].
Qed.

Lemma cpu_user s t rg h : inv s t → cpu_ok rg → h PAGE_FAULT_EXCEPTION = true →
  registers (machine s) = rg → handlers (machine s) = h → user_ok garbage s.
Proof.
  intros Hi [Hl (r & Hr & Hb)] Hh Er Eh. split.
  - by exists t.
  - by rewrite Er.
  - exists r. split; [|done]. unfold reg. rewrite Er. by apply rd_ok.
  - by rewrite Eh.
Qed.

(** The state [s'] after the handler of a fault at address [a] in [s]: the page is
    in the TLB, in the slot whose turn it was; frame [x] was evacuated, if any. *)
Record after_fault (n : Z) (s : VM) (t : list TranslationEntry) (a : Z) (x : option Z) (s' : VM) (t' : list TranslationEntry) : Prop := {
  af_user : user_ok garbage s';
  af_inv : inv s' t';
  af_same : same_memory garbage s s';
  af_regs : registers (machine s') = settle a (registers (machine s));
  af_handlers : handlers (machine s') = handlers (machine s);
  af_slot : slot s' = ((slot s + 1) mod 8)%nat;
  af_ages : ages_ok n (lru s');
  af_entry : ∃ p, slots t' !! slot s = Some (Some (a / PAGE_SIZE, p));
  af_in q : resident s (currentSpace s) (Z.to_nat (a / PAGE_SIZE)) q → x = None;
  af_res id v q : resident s id v q → x ≠ Some q → resident s' id v q;
  af_tlb i v q : i ≠ slot s → slots t !! i = Some (Some (v, q)) → x ≠ Some q → slots t' !! i = Some (Some (v, q))
}.

Lemma slot_next s s' : numFaults s' = u32 (numFaults s + 1) → slot s' = ((slot s + 1) mod 8)%nat.
Proof.
  intros E. unfold slot. rewrite E. change TLB_SIZE with 8. apply Nat2Z.inj.
  rewrite Nat2Z.inj_mod, Nat2Z.inj_add.
  rewrite !Z2Nat.id by (apply Z.mod_pos_bound; lia). unfold u32. change (2 ^ 32) with 4294967296.
  change (Z.of_nat 8) with 8. change (Z.of_nat 1) with 1. Z.div_mod_to_equations. lia.
Qed.

Lemma fault_handled n s t a u : user_ok garbage s → missed s t a u → 0 ≤ a < 2 ^ 32 → 0 ≤ n →
  ages_ok (n + 1 + 1) (lru s) →
  let m := mkMachine (settle a (registers (machine s))) u (handlers (machine s)) in
  ∃ s' t' x, TLBPageFaultHandler garbage (set_machine s m) = Ok s' ∧ after_fault n s t a x s' t' ∧
    ∀ p, x = Some p → least (last_use_counter (vm_mmu s)) p.
Proof.
  intros Hu [Hmiss Hpg Hi Hlru Hpages] Ha Hn Hages m. pose proof (user_cpu _ Hu) as Hc.
  set (s1 := set_vm_mmu s u) in *.
  destruct (vm_inv_registers garbage s1 t m Hi) as [Hi1 Hv1]; [done|].
  change (mkVM m _ _ _ _ _) with (set_machine s m) in Hi1, Hv1.
  set (v := Z.to_nat (a / PAGE_SIZE)) in *. change PAGE_SIZE with 128 in *.
  assert (Hv : a / 128 = Z.of_nat v) by (unfold v; rewrite Z2Nat.id; [done|Z.div_mod_to_equations; lia]).
  pose proof (settle_ok a _ Hc) as Hc'.
  destruct (page_fault_full garbage (set_machine s m) t (s32 a) v Hi1)
    as (s' & t' & e & E & Hi' & Ec & En & Hp' & Hk & Vk & Pk & Hx).
  { unfold ReadRegister, reg. rewrite bool_decide_true by done. cbn [ASSERT mbind result_bind].
    destruct (settle_lookup a (registers (machine s)) 39%nat Hc) as (r & w & _ & _ & Hr & E39).
    apply rd_ok; [done|]. change (registers (machine (set_machine s m))) with (settle a (registers (machine s))).
    change (Z.to_nat BAD_VADDR_REG) with 39%nat. rewrite E39, !decide_False, decide_True by lia. done. }
  { by rewrite u32_s32, u32_id by (unfold is_u32; lia). }
  { exact Hpg. }
  { by rewrite <-Hv. }
  assert (Hl1 : lru (set_machine s m) = (u32 (references_done (vm_mmu s) + 1), last_use_counter (vm_mmu s))) by exact Hlru.
  pose proof (ages_tick (n + 1) (lru s) ltac:(lia) Hages) as Hages1.
  assert (Hages2 : ages_ok (n + 1) (lru (set_machine s m))) by (rewrite Hl1; exact Hages1).
  destruct Hx as (x & Hd).
  { pose proof (ag_wrap _ _ Hages2). pose proof (ag_clock _ _ Hages2). cbn [lru lru_of fst] in *. unfold UINT_MAX in *. lia. }
  apply TLBPageFaultHandler_cpu in E as Ecpu. unfold cpu in Ecpu. injection Ecpu as Er Eh Es El.
  exists s', t', x. split; [done|]. split; [|intros p Hp; pose proof (hd_least _ _ _ _ _ _ Hd p Hp) as Hle; injection Hl1 as _ <-; done].
  split; try done.
  - eapply cpu_user; try done. apply Hu.
  - split; [done|]. intros id w. by rewrite Hp', Hv1, Hpages.
  - by apply slot_next.
  - destruct (hd_lru _ _ _ _ _ _ Hd) as [->|(p & _ & ->)]; [by eapply ages_weaken, Hages2; lia|].
    by apply (ages_use n (lru (set_machine s m))).
  - exists (physicalPage e). change PAGE_SIZE with 128. rewrite Hv, <-Pk. by apply slots_lookup.
  - intros q Hq. by apply (hd_in _ _ _ _ _ _ Hd q).
  - intros id w q Hq Hne. by apply (hd_res _ _ _ _ _ _ Hd).
  - intros i w q Hne Hsl Hxq. apply slots_entry in Hsl as (te & Hte & Vte & <- & <-).
    apply slots_lookup; [|done]. by apply (hd_tlb _ _ _ _ _ _ Hd).
Qed.

(** ** One attempt at an instruction *)
Lemma processor_step_cpu {M} `{Memory M} (m : MachineOf M) h : cpu_inv h m → keeps_cpu h (processor_step m).
Proof.
  intros Hm o. unfold processor_step, FetchInstruction. intros (r & Er & E)%result_bind_ok.
  apply result_bind_ok in Er as (pc & _ & Er). apply result_bind_ok in Er as ([[e|raw] u] & _ & Er).
  - apply result_bind_ok in Er as (o' & Eo & [= <-]). injection E as <-. by eapply keeps_raise in Eo.
  - apply result_bind_ok in Er as (i & Ei & [= <-]).
    destruct (Decode_ok (u32 raw)) as (i' & Ei' & Hi); [apply u32_range|]. assert (i' = i) as -> by congruence.
    by eapply ExecInstruction_cpu in E.
Qed.

(** The state [s'] is the flat machine [f] with its memory in pages; the other
    processes are as in [s]. *)
Record reaches (n : Z) (s s' : VM) (f : MachineOf Flat) : Prop := {
  rc_regs : registers (machine s') = registers f;
  rc_handlers : handlers (machine s') = handlers f;
  rc_user : user_ok garbage s';
  rc_shows : shows s' (mmu f);
  rc_cur : currentSpace s' = currentSpace s;
  rc_other id v : id ≠ currentSpace s → vpage s' id v = vpage s id v;
  rc_ages : ages_ok n (lru s')
}.

Definition agrees (n : Z) (s : VM) (x : stepped) (o : outcomeOf Flat) : Prop :=
  match x, o with
  | Done s', Completed f => reaches n s s' f
  | Trapped e s', Raised e' f => e = e' ∧ reaches n s s' f
  | _, _ => False
  end.

Lemma within_reaches n s t m f : within n s t (mmu m) (mmu f) → registers m = registers f →
  handlers m = handlers f → handlers f PAGE_FAULT_EXCEPTION = true → cpu_ok (registers f) →
  reaches n s (set_machine s m) f.
Proof.
  intros [(t' & Hi & _) Hs Ho Ha] Er Eh Hf Hc.
  destruct (vm_inv_registers garbage (set_vm_mmu s (mmu m)) t' m Hi eq_refl) as [Hi' Hv'].
  change (mkVM m _ _ _ _ _) with (set_machine s m) in Hi', Hv'. split; try done.
  - by apply (cpu_user _ t' (registers f) (handlers f)).
Qed.

Lemma same_agrees n s t F o o' : user_ok garbage s → processor_step (flat_machine s F) = Ok o' →
  processor_step (machine s) = Ok o → same_outcome (within n s t) o o' →
  ∃ x, fetch_execute garbage s = Ok x ∧ agrees n s x o'.
Proof.
  intros Hu Ef Ep Hs. pose proof (user_cpu _ Hu) as Hc.
  assert (Hf : cpu_inv (handlers (machine s)) (flat_machine s F)) by done.
  destruct (processor_step_cpu _ _ Hf _ Ef) as [Hc1 Hh1]. pose proof (uo_fault _ _ Hu) as Hh. rewrite <-Hh1 in Hh.
  pose proof (flat_clean _ _ Ef) as Hcl. unfold fetch_execute. rewrite Ep. cbn [mbind result_bind].
  destruct o as [m|e m], o' as [f|e' f]; cbn in Hs, Hc1, Hh; try done.
  - destruct Hs as [? ? ?]. eexists. split; [done|]. by apply (within_reaches n s t).
  - destruct Hs as [-> [? ? ?]]. assert (Hr : reaches n s (set_machine s m) f) by (by apply (within_reaches n s t)).
    destruct e'; try done; by eexists.
Qed.

(** The page of an address. *)
Abbreviation page a := (a / PAGE_SIZE).

Lemma user_fault s m et a s' : processor_step (machine s) = RaiseException m et a → et = PAGE_FAULT_EXCEPTION →
  cpu_ok (registers m) → handlers m et = true →
  TLBPageFaultHandler garbage (set_machine s (mkMachine (settle a (registers m)) (mmu m) (handlers m))) = Ok s' →
  fetch_execute garbage s = Ok (Faulted s').
Proof.
  intros E -> Hc Hh Eh. unfold fetch_execute. rewrite E, raise_settles by done. cbn [mbind result_bind]. by rewrite Eh.
Qed.

(** The fetch: the instruction over both memories, or a page fault. *)
Lemma fetch_paged n s t F pc o' : user_ok garbage s → inv s t → shows s F → 0 ≤ n → ages_ok (n + 1 + 1) (lru s) →
  registers (machine s) !! 34%nat = Some pc → processor_step (flat_machine s F) = Ok o' →
  (∃ x, fetch_execute garbage s = Ok x ∧ agrees n s x o') ∨
  (¬ has t (page (u32 pc)) ∧ ∃ s' t' x, fetch_execute garbage s = Ok (Faulted s') ∧ after_fault n s t (u32 pc) x s' t') ∨
  (∃ i u t', instr_ok i ∧ FetchInstruction (flat_machine s F) = Ok (inr (i, flat_machine s F)) ∧
     FetchInstruction (machine s) = Ok (inr (i, set_mmu (machine s) u)) ∧
     hit s t (u32 pc) u t' ∧ shows (set_vm_mmu s u) F ∧
     ∀ id v, vpage (set_vm_mmu s u) id v = vpage s id v).
Proof.
  intros Hu Hi Hs Hn Ha Hpc Ef. pose proof (user_cpu _ Hu) as Hc.
  assert (Epc : ∀ (M : Type) (m : MachineOf M), registers m = registers (machine s) → reg m PC_REG = Ok pc).
  { intros M m Em. unfold reg. rewrite Em. by apply rd_ok. }
  unfold processor_step in Ef. apply result_bind_ok in Ef as (r & Er & Ef). pose proof Er as Er0.
  unfold FetchInstruction in Er. rewrite Epc in Er by done. cbn [mbind result_bind] in Er.
  apply result_bind_ok in Er as ([v F'] & Em & Er).
  destruct (read_access s t F (u32 pc) 4 v F' Hi Hs) as [-> [(_ & -> & Em')|[(u & t' & raw & -> & Em' & Hh & Hs' & Hv')|(u & Em' & Hms)]]];
    [lia|exact Em|..].
  - left. apply result_bind_ok in Er as (o & Eo & [= <-]). injection Ef as ->.
    pose proof (raise_follows (within n s t) (set_mmu (machine s) (vm_mmu s)) (set_mmu (flat_machine s F) F)
      ADDRESS_ERROR_EXCEPTION (u32 pc)) as Hr.
    destruct (Hr ltac:(split; [done|done|]; apply within_refl; [done|done|eapply ages_weaken; [|done]; lia]) _ Eo)
      as (o1 & Eo1 & Ho1).
    apply (same_agrees n s t F o1 o'); try done.
    + unfold processor_step. rewrite Er0. done.
    + unfold processor_step, FetchInstruction. rewrite Epc by done. cbn [mbind result_bind mem_read MMU_memory].
      change (mmu (machine s)) with (vm_mmu s). rewrite Em'. cbn [mbind result_bind]. by rewrite Eo1.
  - right. right.
    apply result_bind_ok in Er as (i & Ei & [= <-]).
    destruct (Decode_ok (u32 raw)) as (i' & Ei' & Hok); [apply u32_range|]. assert (i' = i) as -> by congruence.
    exists i, u, t'. split_and!; try done. unfold FetchInstruction. rewrite Epc by done. cbn [mbind result_bind mem_read MMU_memory].
    change (mmu (machine s)) with (vm_mmu s). rewrite Em'. cbn [mbind result_bind]. by rewrite Ei.
  - right. left. pose proof (ms_miss _ _ _ _ Hms) as Hmiss. split; [by intros H|].
    destruct (fault_handled n s t (u32 pc) u) as (s' & t' & x & E & Haf & _); try done; [apply u32_range|].
    exists s', t', x. split; [|done]. eapply (user_fault _ (set_mmu (machine s) u)); try done; [|apply Hu].
    unfold processor_step, FetchInstruction. rewrite Epc by done. cbn [mbind result_bind mem_read MMU_memory].
    change (mmu (machine s)) with (vm_mmu s). rewrite Em'. cbn [mbind result_bind].
    rewrite raise_settles; [done|done|apply Hu].
Qed.

Lemma after_fault_step n s t u t1 a x s' t' : slots t1 = slots t →
  (∀ id v, vpage (set_vm_mmu s u) id v = vpage s id v) →
  after_fault n (set_vm_mmu s u) t1 a x s' t' → after_fault n s t a x s' t'.
Proof.
  intros Ht Hv []. split; try done.
  - by etrans; [|exact af_same0].
  - intros i v q Hi Hs. rewrite <-Ht in Hs. by apply af_tlb0.
Qed.

Lemma tlb_resident s t k te v : inv s t → t !! k = Some te → valid te = true → virtualPage te = Z.of_nat v →
  resident s (currentSpace s) v (physicalPage te).
Proof.
  intros Hi Hk Vk Pk. pose proof (tlb_frame _ _ _ _ _ _ Hi Hk Vk). split; [unfold INT_MAX; lia|].
  destruct (vi_tlb_pte _ _ _ _ Hi _ _ Hk Vk) as (v' & e & Hp & _ & He & Hpp & _).
  assert (v' = v) as -> by lia. rewrite He. cbn. by rewrite Hpp.
Qed.

Lemma data_address_range {M} (m : MachineOf M) i : 0 ≤ data_address m i < 2 ^ 32.
Proof. unfold data_address. destruct (reg m (rs i)); [apply u32_range|lia]. Qed.

(** One iteration of [Run]: the instruction over the flat memory, or a page fault
    of its fetch, or a page fault of its data, which does not evacuate the page
    of the instruction. *)
Lemma fetch_execute_cases n s t F pc o' : user_ok garbage s → inv s t → shows s F → 0 ≤ n → ages_ok (n + 1 + 1 + 1) (lru s) →
  registers (machine s) !! 34%nat = Some pc → processor_step (flat_machine s F) = Ok o' →
  (∃ x, fetch_execute garbage s = Ok x ∧ agrees n s x o') ∨
  (¬ has t (page (u32 pc)) ∧ ∃ s' t' x, fetch_execute garbage s = Ok (Faulted s') ∧ after_fault n s t (u32 pc) x s' t') ∨
  (∃ i s' t' x k p, instr_ok i ∧ FetchInstruction (flat_machine s F) = Ok (inr (i, flat_machine s F)) ∧
     fetch_execute garbage s = Ok (Faulted s') ∧ ¬ has t (page (data_address (machine s) i)) ∧
     after_fault n s t (data_address (machine s) i) x s' t' ∧
     slots t !! k = Some (Some (page (u32 pc), p)) ∧ x ≠ Some p ∧
     resident s (currentSpace s) (Z.to_nat (page (u32 pc))) p).
Proof.
  intros Hu Hi Hs Hn Ha Hpc Ef.
  destruct (fetch_paged n s t F pc o' Hu Hi Hs Hn) as [?|[?|(i & u & t1 & Hok & Eff & Efp & Hh & Hs1 & Hpages)]];
    [eapply ages_weaken; [|done]; lia|done|done|by left|by (right; left)|].
  pose proof (hit_within (n + 1 + 1) s t (u32 pc) u t1 F ltac:(lia) Ha Hh Hs1) as [[_ _ Hother Ha1] _].
  destruct Hh as [(v & Hv & [(k & te & w & Hk & Vk & Pk & -> & Hl)]) Hi1 _].
  set (t1 := <[k := touch te w]> t) in *. set (s1 := set_vm_mmu s u) in *.
  assert (Ht1 : slots t1 = slots t) by (by apply slots_touch).
  unfold processor_step in Ef. rewrite Eff in Ef. cbn [mbind result_bind] in Ef.
  change (flat_machine s F) with (flat_machine s1 F) in Ef.
  destruct (exec_paged n s1 t1 F i Hi1 Hs1 Hn Ha1 o' Ef) as [(o & Eo & Ho)|(u2 & Hms & Eo)].
  - left. apply (same_agrees n s t F o o'); try done.
    + unfold processor_step. by rewrite Eff.
    + unfold processor_step. by rewrite Efp.
    + assert (HW : ∀ u' w', within n s1 t1 u' w' → within n s t u' w') by (intros; by eapply within_step).
      destruct o, o'; cbn in *; try done; [by eapply same_cpu_weaken|].
      destruct Ho. split; [done|]. by eapply same_cpu_weaken.
  - right. right. assert (Hu1 : user_ok garbage s1) by (by eapply user_ok_mmu).
    destruct (fault_handled n s1 t1 (data_address (machine s1) i) u2 Hu1 Hms) as (s' & t' & x & E & Haf & Hx);
      [apply data_address_range|done|done|].
    exists i, s', t', x, k, (physicalPage te). change (data_address (machine s1) i) with (data_address (machine s) i) in *.
    assert (Hlen : length (last_use_counter (vm_mmu s)) = 16%nat).
    { pose proof (mw_counters _ _ (vi_mmu _ _ _ _ Hi)) as Hcn. change NUM_PHYS_PAGES with 16 in Hcn. lia. }
    split_and!; try done.
    + eapply (user_fault s (set_mmu (machine s1) u2) PAGE_FAULT_EXCEPTION); try done; [|by eapply user_cpu|apply Hu].
      unfold processor_step. rewrite Efp. cbn [mbind result_bind]. exact Eo.
    + intros Hhas. eapply (has_slots t t1) in Hhas; [|done]. apply Hhas. apply (ms_miss _ _ _ _ Hms).
    + by eapply after_fault_step.
    + rewrite Hv, <-Pk. by apply slots_lookup.
    + intros Ex. apply (used_not_least (n + 1 + 1) (lru s) (physicalPage te)); [lia|done|done|exact (tlb_frame garbage _ _ _ _ _ Hi Hk Vk)|].
      change (lru_use (lru s).1 (lru s).2) with (lru_use (references_done (vm_mmu s)) (last_use_counter (vm_mmu s))).
      rewrite <-Hl. by apply Hx.
    + rewrite Hv, Nat2Z.id. by eapply tlb_resident.
Qed.

(** ** An instruction makes progress *)
(** The flat machine after an exception: a delayed load has been completed. *)
Definition settled (b : Z) (f : MachineOf Flat) : MachineOf Flat :=
  mkMachine (settle b (registers f)) (mmu f) (handlers f).

Lemma slots_inj s t j k v p q : inv s t → slots t !! j = Some (Some (v, p)) → slots t !! k = Some (Some (v, q)) →
  k = j.
Proof.
  intros Hi (e & He & Ve & Pe & _)%slots_entry (e' & He' & Ve' & Pe' & _)%slots_entry.
  apply (vi_tlb_inj _ _ _ _ Hi k j e' e); try done. congruence.
Qed.

Lemma slot_bound s : (slot s < 8)%nat.
Proof. unfold slot. pose proof (Z.mod_pos_bound (numFaults s) TLB_SIZE ltac:(done)). change TLB_SIZE with 8 in *. lia. Qed.

Lemma slot_changes n s t a x s' t' : after_fault n s t a x s' t' → slot s ≠ slot s'.
Proof. intros H. rewrite (af_slot _ _ _ _ _ _ _ H). pose proof (slot_bound s).
  destruct (decide (slot s = 7%nat)) as [->|]; [done|]. rewrite Nat.mod_small; lia.
Qed.

(** The fetch depends on the program counter and the memory. *)
Lemma fetch_flat (f f' : MachineOf Flat) i : registers f !! 34%nat = registers f' !! 34%nat → mmu f = mmu f' →
  FetchInstruction f = Ok (inr (i, f)) → FetchInstruction f' = Ok (inr (i, f')).
Proof.
  intros Hpc Hm. unfold FetchInstruction.
  assert (Er : reg f' PC_REG = reg f PC_REG).
  { unfold reg, rd. change (Z.to_nat PC_REG) with 34%nat. by rewrite Hpc. }
  rewrite Er, <-Hm. destruct (reg f PC_REG) as [pc|]; [|done]. cbn [mbind result_bind].
  destruct (mem_read (mmu f) (u32 pc) 4) as [[[e|raw] u]|] eqn:Em; [| |done]; cbn [mbind result_bind].
  { intros (o & _ & [=])%result_bind_ok. }
  intros (i' & -> & [= -> Ef])%result_bind_ok. cbn [mbind result_bind]. do 3 f_equal.
  destruct f, f'; unfold set_mmu in *; cbn in *. congruence.
Qed.

Section Progress.
Context (s0 : VM) (F : Flat) (pc : Z) (n : Z).
Hypothesis Hc0 : cpu_ok (registers (machine s0)).
Hypothesis Hpc0 : registers (machine s0) !! 34%nat = Some pc.
Hypothesis Hn : 0 ≤ n.
Let f0 := flat_machine s0 F.
Hypothesis Hflat : ∀ b, ∃ o', processor_step (settled b f0) = Ok o'.

(** A state after a page fault of the instruction, with [k] more to come. *)
Record later (k : Z) (s : VM) (t : list TranslationEntry) : Prop := {
  lt_user : user_ok garbage s;
  lt_inv : inv s t;
  lt_same : same_memory garbage s0 s;
  lt_shows : shows s F;
  lt_regs : ∃ b, flat_machine s F = settled b f0;
  lt_ages : ages_ok (n + 3 * k + 3) (lru s)
}.

Definition finishes (k : nat) (s : VM) : Prop :=
  ∃ x b o', attempts garbage k s = Ok x ∧ processor_step (settled b f0) = Ok o' ∧ agrees n s x o'.

Lemma run_agrees m k s x o' : fetch_execute garbage s = Ok x → agrees m s x o' → attempts garbage k s = Ok x.
Proof. intros E Ha. destruct k; cbn [attempts]; rewrite E; cbn [mbind result_bind]; by destruct x. Qed.

Lemma agrees_weaken m k s x o' : m ≤ k → agrees k s x o' → agrees m s x o'.
Proof.
  intros Hm. assert (Hr : ∀ s' f, reaches k s s' f → reaches m s s' f)
    by (intros s' f []; split; try done; by eapply ages_weaken).
  destruct x, o'; cbn; try done; [apply Hr|]. intros [? ?]. split; auto.
Qed.

Lemma agrees_same m s s' x o' : same_memory garbage s s' → agrees m s' x o' → agrees m s x o'.
Proof.
  intros [Ec Ep]. assert (Hr : ∀ s2 f, reaches m s' s2 f → reaches m s s2 f).
  { intros s2 f []. split; try done; [congruence|]. intros id v Hid. rewrite rc_other0 by congruence. apply Ep. }
  destruct x, o'; cbn; try done; [apply Hr|]. intros [? ?]. split; auto.
Qed.

Lemma finishes_fault k s s' : same_memory garbage s s' → fetch_execute garbage s = Ok (Faulted s') →
  finishes k s' → finishes (S k) s.
Proof.
  intros Hs E (x' & b & o' & Er & Ep & Ha). exists x', b, o'. split_and!; [|done|by eapply agrees_same].
  cbn [attempts]. by rewrite E.
Qed.

Lemma finishes_more k s : finishes k s → finishes (S k) s.
Proof.
  intros (x & b & o' & E & Ep & Ha). exists x, b, o'. split_and!; try done.
  assert (Hx : ∀ s', x ≠ Faulted s') by (intros s' ->; by destruct o'). clear Ep Ha.
  revert s E. induction k as [|k IH]; intros s E; cbn [attempts] in *;
    destruct (fetch_execute garbage s) as [[s1|s1|]|]; cbn [mbind result_bind] in *; try done.
  - injection E as <-. by destruct (Hx s1).
  - by apply IH.
Qed.

Let w := page (u32 pc).
(** The instruction and the address of its data, once delayed loads are done. *)
Definition fetched (i : Instruction) : Prop :=
  instr_ok i ∧ FetchInstruction (settled 0 f0) = Ok (inr (i, settled 0 f0)).
Definition data (i : Instruction) : Z := data_address (settled 0 f0) i.

Lemma settled_settled b b' : settled b' (settled b f0) = settled b' f0.
Proof. unfold settled. cbn. by rewrite settle_settle. Qed.

Lemma fault_later k s t b a x s' t' : same_memory garbage s0 s → flat_machine s F = settled b f0 ∨ flat_machine s F = f0 →
  shows s F → after_fault (n + 3 * k) s t a x s' t' → later (k - 1) s' t'.
Proof.
  intros Hs Hr Hsh []. split; try done.
  - by etrans.
  - intros y. rewrite <-Hsh. by apply same_vmem.
  - exists a. unfold flat_machine. rewrite af_regs0, af_handlers0.
    change (settled a (flat_machine s F) = settled a f0). destruct Hr as [-> | ->]; [apply settled_settled|done].
  - by replace (n + 3 * (k - 1) + 3) with (n + 3 * k) by lia.
Qed.

Lemma data_eq {M} (m : MachineOf M) b i : instr_ok i → registers m = settle b (registers f0) → data_address m i = data i.
Proof.
  intros Hi Er. unfold data, data_address, reg, rd. rewrite Er. cbn [registers settled].
  pose proof (io_rs i Hi). unfold NUM_GP_REGS in *.
  by rewrite (settle_same b 0) by (done || lia).
Qed.

Lemma later_cases k s t : later k s t → 0 ≤ k →
  (∀ j, finishes j s) ∨
  (¬ has t w ∧ ∃ s' t' x, fetch_execute garbage s = Ok (Faulted s') ∧
     after_fault (n + 3 * k) s t (u32 pc) x s' t' ∧ later (k - 1) s' t') ∨
  (∃ i s' t' x j p, fetched i ∧ fetch_execute garbage s = Ok (Faulted s') ∧ ¬ has t (page (data i)) ∧
     after_fault (n + 3 * k) s t (data i) x s' t' ∧ later (k - 1) s' t' ∧
     slots t !! j = Some (Some (w, p)) ∧ x ≠ Some p ∧ resident s (currentSpace s) (Z.to_nat w) p).
Proof.
  intros [Hu Hi Hs Hsh (b & Hb) Ha] Hk. destruct (Hflat b) as (o' & Eo).
  assert (Er : registers (machine s) = settle b (registers f0)) by (change (registers (flat_machine s F) = registers (settled b f0)); by rewrite Hb).
  assert (Hpc : registers (machine s) !! 34%nat = Some pc) by (by rewrite Er, settle_pc).
  destruct (fetch_execute_cases (n + 3 * k) s t F pc o' Hu Hi Hsh)
    as [(x & E & Hag)|[(Hw & s' & t' & x & E & Haf)|(i & s' & t' & x & j & p & Hok & Ef & E & Hd & Haf & Hsl & Hx & Hr)]];
    [lia|eapply ages_weaken; [|done]; lia|done|by rewrite Hb|left|right; left|right; right].
  - intros j. exists x, b, o'. split_and!; [by eapply run_agrees|done|].
    eapply agrees_weaken; [|done]. lia.
  - split; [done|]. exists s', t', x. split_and!; try done. eapply fault_later; [done|by left|done|done].
  - rewrite (data_eq _ b) in Hd, Haf by done. exists i, s', t', x, j, p. split_and!; try done.
    + split; [done|]. eapply fetch_flat; [| |exact Ef]; [|done]. rewrite Hb. cbn. by rewrite !settle_pc.
    + eapply fault_later; [done|by left|done|done].
Qed.

Lemma fetched_inj i i' : fetched i → fetched i' → i = i'.
Proof. intros [_ E] [_ E']. congruence. Qed.

(** Instruction and data are in the TLB. *)
Lemma both_finish s t i : later 0 s t → has t w → fetched i → has t (page (data i)) → finishes 0 s.
Proof.
  intros Hl Hw Hf Hd. destruct (later_cases 0 s t Hl) as [H|[(H & _)|(i' & ? & ? & ? & ? & ? & Hf' & _ & H & _)]]; try done.
  by rewrite (fetched_inj i i') in Hd.
Qed.

(** The instruction is in the TLB and not next to be replaced. *)
Lemma fetch_finishes s t j p : later 1 s t → slots t !! j = Some (Some (w, p)) → j ≠ slot s → finishes 1 s.
Proof.
  intros Hl Hj Hne. pose proof (lt_inv _ _ _ Hl) as Hi.
  destruct (later_cases 1 s t Hl) as [H|[(H & _)|(i & s' & t' & x & k & q & Hf & E & Hd & Haf & Hl' & Hk & Hx & Hr)]];
    [done|apply H|exfalso; apply H; by eapply has_slot|].
  assert (k = j) as -> by (exact (slots_inj s t j k w p q Hi Hj Hk)). destruct (af_entry _ _ _ _ _ _ _ Haf) as (p' & Hp').
  eapply finishes_fault; [apply (af_same _ _ _ _ _ _ _ Haf)|exact E|]. apply (both_finish s' t' i Hl'); [|done|].
  - eapply has_slot. by apply (af_tlb _ _ _ _ _ _ _ Haf).
  - by eapply has_slot.
Qed.

(** The data is in the TLB and not next to be replaced, the instruction in
    memory. *)
Lemma data_finishes s t i j q p : later 1 s t → fetched i → slots t !! j = Some (Some (page (data i), q)) →
  j ≠ slot s → resident s (currentSpace s) (Z.to_nat w) p → finishes 1 s.
Proof.
  intros Hl Hf Hj Hne Hr.
  destruct (later_cases 1 s t Hl) as [H|[(H & s' & t' & x & E & Haf & Hl')|(i' & ? & ? & ? & ? & ? & Hf' & _ & H & _)]];
    [done|apply H| |exfalso; apply H; rewrite (fetched_inj i' i) by done; by eapply has_slot].
  destruct (af_entry _ _ _ _ _ _ _ Haf) as (p' & Hp').
  eapply finishes_fault; [apply (af_same _ _ _ _ _ _ _ Haf)|exact E|]. apply (both_finish s' t' i Hl'); [|done|].
  - by eapply has_slot.
  - eapply has_slot. apply (af_tlb _ _ _ _ _ _ _ Haf); [done|exact Hj|]. by rewrite (af_in _ _ _ _ _ _ _ Haf p).
Qed.

(** The instruction is in memory. *)
Lemma memory_finishes s t p : later 2 s t → resident s (currentSpace s) (Z.to_nat w) p → finishes 2 s.
Proof.
  intros Hl Hr. destruct (later_cases 2 s t Hl)
    as [H|[(H & s' & t' & x & E & Haf & Hl')|(i & s' & t' & x & k & q & Hf & E & Hd & Haf & Hl' & Hk & Hx & Hr')]];
    [done|apply H|..]; (eapply finishes_fault; [apply (af_same _ _ _ _ _ _ _ Haf)|exact E|]);
    destruct (af_entry _ _ _ _ _ _ _ Haf) as (p' & Hp'); pose proof (slot_changes _ _ _ _ _ _ _ Haf) as Hne.
  - by apply (fetch_finishes s' t' (slot s) p').
  - eapply (data_finishes s' t' i (slot s) p' q); try done.
    rewrite (sm_cur _ _ _ (af_same _ _ _ _ _ _ _ Haf)). by apply (af_res _ _ _ _ _ _ _ Haf).
Qed.

Lemma start_finishes t : user_ok garbage s0 → inv s0 t → shows s0 F → ages_ok (n + 12) (lru s0) →
  (∃ o, processor_step f0 = Ok o) →
  ∃ x f o, attempts garbage 3 s0 = Ok x ∧ (f = f0 ∨ ∃ b, f = settled b f0) ∧
    processor_step f = Ok o ∧ agrees n s0 x o.
Proof.
  intros Hu Hi Hs Ha [o Ho].
  assert (Hrest : finishes 3 s0 → ∃ x f o, attempts garbage 3 s0 = Ok x ∧ (f = f0 ∨ ∃ b, f = settled b f0) ∧
    processor_step f = Ok o ∧ agrees n s0 x o).
  { intros (x & b & o' & E & Ep & Hag). exists x, (settled b f0), o'. split_and!; try done. right. by exists b. }
  destruct (fetch_execute_cases (n + 9) s0 t F pc o Hu Hi Hs)
    as [(x & E & Hag)|[(Hw & s' & t' & x & E & Haf)|(i & s' & t' & x & j & p & Hok & Ef & E & Hd & Haf & Hsl & Hx & Hr)]];
    [lia|eapply ages_weaken; [|done]; lia|done|done|..].
  - exists x, f0, o. split_and!; [by eapply run_agrees|by left|done|]. eapply agrees_weaken; [|done]. lia.
  - apply Hrest. pose proof (slot_changes _ _ _ _ _ _ _ Haf) as Hne.
    destruct (af_entry _ _ _ _ _ _ _ Haf) as (p & Hp).
    eapply finishes_fault; [apply (af_same _ _ _ _ _ _ _ Haf)|exact E|].
    assert (Hl : later 2 s' t') by (apply (fault_later 3 s0 t 0 (u32 pc) x); try done; by right).
    apply finishes_more, (fetch_finishes s' t' (slot s0) p); try done.
    destruct Hl. split; try done. eapply ages_weaken; [|done]. lia.
  - apply Hrest. eapply finishes_fault; [apply (af_same _ _ _ _ _ _ _ Haf)|exact E|].
    eapply (memory_finishes s' t' p).
    + eapply (fault_later 3 s0 t 0); try done. by right.
    + rewrite (sm_cur _ _ _ (af_same _ _ _ _ _ _ _ Haf)). by apply (af_res _ _ _ _ _ _ _ Haf).
Qed.
End Progress.

(** An instruction over the paged memory does what it does over the flat memory:
    see [Timesharing.instruction_refines]. *)
Lemma instruction_ok n s F : user_ok garbage s → shows s F → 0 ≤ n → ages_ok (n + 12) (lru s) →
  (∃ o, processor_step (flat_machine s F) = Ok o) →
  (∀ b, ∃ o, processor_step (settled b (flat_machine s F)) = Ok o) →
  ∃ x f o, attempts garbage 3 s = Ok x ∧ (f = flat_machine s F ∨ ∃ b, f = settled b (flat_machine s F)) ∧
    processor_step f = Ok o ∧ agrees n s x o.
Proof.
  intros Hu Hs Hn Ha H0 H1. pose proof (user_cpu _ Hu) as Hc. destruct (uo_inv _ _ Hu) as [t Hi].
  destruct (lookup_lt_is_Some_2 (registers (machine s)) 34%nat) as [pc Hpc]; [destruct Hc; lia|].
  by apply (start_finishes s F pc n Hc Hpc Hn H1 t).
Qed.

End Simulation.
