(* ===== verification/Timesharing.v ===== *)
(** * Time sharing: [Machine::Run] with [interrupt->OneTick()]

    The whole loop of [Run] of [machine/mips_sim.cc] for the threads that run user
    programs: an attempt at an instruction ([Execution]), then a tick of the clock
    ([Interrupt]), which fires the interrupts that are due; the one of the timer
    makes the thread yield, and [Scheduler::Run] switches the processor from one
    program to the next ([Threads] for the scheduler, [AddressSpace] for the
    registers and the TLB).  The reference is a set of processors, one for each
    program, each over a flat memory of its own. *)

From S2P Require Import Prelude LinkedList Bitmap Disk ReadWrite Mmu Mips MipsSpec Simulation AddressSpace Paging Transfer UserMemory Execution.
From S2P Require Interrupt Threads.
From stdpp Require Import base option list gmap numbers tactics.
From stdpp Require Import list.
Open Scope Z_scope.

Abbreviation now := Interrupt.now.
Abbreviation queue := Interrupt.queue.
Abbreviation currentThread := Threads.currentThread.
Abbreviation ready k := ((Threads.readyList k).*2).

(** ** The state

    The kernel: the threads, the registers of the user programs that do not run
    ([userRegisters], with the process and the fault counter of the thread), the
    virtual memory, and the state of the devices.  The machine itself is in the
    state of [Interrupt]. *)
Record Kern (DS : Type) := mkKern {
  kern : Threads.Kernel;
  users : gmap Z thread_data;
  mem : VM;
  devices : DS
}.
Arguments mkKern {DS}.
Arguments kern {DS}.
Arguments users {DS}.
Arguments mem {DS}.
Arguments devices {DS}.

Section Timesharing.
(** The devices other than the timer: the handler of an interrupt changes the
    state of the device and schedules interrupts of devices.  No handler wakes a
    thread here: threads that wait for a device are not part of this model. *)
Context {D DS : Type} (device : D → DS → DS * list (D * Z * Interrupt.IntType)).
Context (garbage : list Z).
Abbreviation Sim := (Interrupt.Sim D (Kern DS)).

Definition set_kern (k : Kern DS) (t : Threads.Kernel) : Kern DS := mkKern t (users k) (mem k) (devices k).
Definition set_mem (k : Kern DS) (v : VM) : Kern DS := mkKern (kern k) (users k) v (devices k).
Definition set_devices (k : Kern DS) (x : DS) : Kern DS := mkKern (kern k) (users k) (mem k) x.
Definition set_users (k : Kern DS) (u : gmap Z thread_data) : Kern DS := mkKern (kern k) u (mem k) (devices k).

Definition on_device (d : D) (k : Kern DS) : Kern DS * list (Interrupt.effect D) :=
  let '(x, es) := device d (devices k) in
  (set_devices k x, (λ '(d, n, ty), Interrupt.Schedules (Interrupt.Device d) n ty) <$> es).

(** Without the option [-rs], the timer does not use [SystemDep::Random]. *)
Definition no_random (k : Kern DS) : Z * Kern DS := (0, k).

(** The virtual memory with the machine. *)
Definition with_machine (k : Kern DS) (m : Machine) : VM := set_machine (mem k) m.
Definition running (s : Sim) : result VM :=
  match Interrupt.machine s with
  | Some m => Ok (with_machine (Interrupt.kernel s) m)
  | None => Err NullPointer
  end.
Definition set_running (s : Sim) (v : VM) : Sim :=
  Interrupt.mkSim (Interrupt.interrupt s) (Interrupt.stats s) (Some (machine v)) (set_mem (Interrupt.kernel s) v).
Definition upd_kern (s : Sim) (t : Threads.Kernel) : Sim :=
  Interrupt.set_kernel s (set_kern (Interrupt.kernel s) t).

(** ** [Scheduler::Run], from a user program to another that was switched out

    A thread that never ran would start in [ThreadRoot] instead: there is none
    in the states of the theorems. *)
Definition Run (s : Sim) (next : Z) : result Sim :=
  v ← running s;
  let k := Interrupt.kernel s in
  let me := currentThread (kern k) in
  old ← Threads.get (users k) me;
  new ← Threads.get (users k) next;
  finished ← (match Threads.threadToBeDestroyed (kern k) with
              | Some d => th ← Threads.get (Threads.threads (kern k)) d; Ok (Some (Threads.spaceId th))
              | None => Ok None
              end);
  t ← Threads.Run (kern k) next;
  r ← AddressSpace.Run v (td_registers old) new finished;
  let '(saved, v') := r in
  let k := set_users (set_kern k t) (<[me := mkThreadData (td_space old) (numFaults v) saved]> (users k)) in
  Ok (set_running (Interrupt.set_kernel s k) v').

(** The fuel of the loop over the interrupts that are due. *)
Definition fuel (s : Sim) : nat := S (length (queue s)).

(** [Thread::Yield].  Interrupts that are due when it enables them again may make
    the thread yield again; [depth] bounds the nesting.  The thread that goes on
    after [Run] is another one, at the same place of its own [Yield]: every ready
    thread of the theorems was preempted there, in user mode and with interrupts
    enabled, so its [oldLevel], and the status that its [OneTick] restores, are
    those of the thread that was switched out. *)
Fixpoint Yield (depth : nat) (s : Sim) : result Sim :=
  match depth with
  | O => Err OutOfFuel
  | S depth =>
      r ← Interrupt.SetLevel on_device no_random (Yield depth) false (fuel s) s Interrupt.INT_OFF;
      let '(oldLevel, s) := r in
      let '(nextThread, t) := Threads.FindNextToRun (kern (Interrupt.kernel s)) in
      let s := upd_kern s t in
      s ← (match nextThread with
           | Some next =>
               t ← Threads.ReadyToRun t (currentThread t);
               Run (upd_kern s t) next
           | None => Ok s
           end);
      r ← Interrupt.SetLevel on_device no_random (Yield depth) false (fuel s) s oldLevel;
      Ok r.2
  end.

Definition OneTick (s : Sim) : result Sim :=
  Interrupt.OneTick on_device no_random (Yield 1) false (fuel s) s.

(** ** [Machine::Run]

    One iteration: the next state, or the program is at the handler of an
    exception other than a page fault. *)
Inductive iterated :=
| Next (s : Sim)
| AtHandler (et : ExceptionType) (s : Sim).

Definition iteration (s : Sim) : result iterated :=
  v ← running s;
  x ← fetch_execute garbage v;
  match x with
  | Done v | Faulted v => s ← OneTick (set_running s v); Ok (Next s)
  | Trapped et v => Ok (AtHandler et (Interrupt.SetStatus (set_running s v) Interrupt.SYSTEM_MODE))
  end.

(** The first [n] iterations, or up to such a handler. *)
Fixpoint iterations (n : nat) (s : Sim) : result iterated :=
  match n with
  | O => Ok (Next s)
  | S n =>
      r ← iteration s;
      match r with Next s => iterations n s | r => Ok r end
  end.

Definition Machine_Run (n : nat) (s : Sim) : result iterated :=
  iterations n (Interrupt.SetStatus s Interrupt.USER_MODE).

Lemma running_set (s : Sim) v : running (set_running s v) = Ok v.
Proof. unfold running, with_machine. cbn. by destruct v. Qed.

Lemma iterations_add n m (s s' : Sim) : iterations n s = Ok (Next s') → iterations (n + m) s = iterations m s'.
Proof.
  revert s. induction n as [|n IH]; intros s; cbn [iterations Nat.add]; [by intros [= ->]|].
  destruct (iteration s) as [[s1|]|]; try done. apply IH.
Qed.
End Timesharing.

(** ** The completion of a delayed load *)
Definition load (rg : list Z) : list Z :=
  let lr := Z.to_nat (default 0 (rg !! 37%nat)) in
  let lv := default 0 (rg !! 38%nat) in
  <[0%nat := 0]> (<[38%nat := 0]> (<[37%nat := 0]> (<[lr := lv]> rg))).

Lemma settle_load b rg : settle b rg = load (<[39%nat := s32 b]> rg).
Proof. done. Qed.

Lemma load_lookup rg k : cpu_ok rg → ∃ r v, rg !! 37%nat = Some r ∧ rg !! 38%nat = Some v ∧ 0 ≤ r < 32 ∧
  load rg !! k = if decide (k = 0%nat ∨ k = 37%nat ∨ k = 38%nat) then Some 0
                 else if decide (k = Z.to_nat r) then Some v else rg !! k.
Proof.
  intros (Hl & r & Er & Hr). destruct (lookup_lt_is_Some_2 rg 38%nat) as [v Ev]; [lia|].
  exists r, v. split_and!; try done; [lia..|]. unfold load. rewrite Er, Ev. cbn [from_option id].
  rewrite !list_lookup_insert, !length_insert, Hl. repeat case_decide; try done; lia || (f_equal; lia).
Qed.

Lemma load_cpu_ok rg : cpu_ok rg → cpu_ok (load rg).
Proof.
  intros Hc. split; [unfold load; rewrite !length_insert; apply Hc|]. exists 0. split; [|lia].
  destruct (load_lookup rg 37%nat Hc) as (r & v & _ & _ & _ & ->). by rewrite decide_True by auto.
Qed.

Lemma load_zero rg : cpu_ok rg → load rg !! 0%nat = Some 0.
Proof. intros Hc. destruct (load_lookup rg 0%nat Hc) as (r & v & _ & _ & _ & ->). by rewrite decide_True by auto. Qed.

Lemma load_load rg : cpu_ok rg → load (load rg) = load rg.
Proof.
  intros Hc. apply list_eq. intros k. destruct (load_lookup _ k (load_cpu_ok rg Hc)) as (r & v & Er & Ev & _ & ->).
  destruct (load_lookup rg 37%nat Hc) as (? & ? & _ & _ & _ & E37). rewrite decide_True in E37 by auto.
  assert (r = 0) as -> by congruence. case_decide as Hk; [|case_decide; [lia|done]].
  destruct (load_lookup rg k Hc) as (r' & v' & _ & _ & _ & ->). by rewrite decide_True by done.
Qed.

Lemma cpu_ok_bad rg x : cpu_ok rg → cpu_ok (<[39%nat := x]> rg).
Proof.
  intros (Hl & r & Er & Hr). split; [by rewrite length_insert|]. exists r. by rewrite list_lookup_insert_ne.
Qed.

Lemma settle_of_load b rg : cpu_ok rg → settle b (load rg) = settle b rg.
Proof.
  intros Hc. pose proof (load_cpu_ok rg Hc) as Hc'. apply list_eq. intros k.
  destruct (settle_lookup b _ k Hc') as (r & v & Er & Ev & Hr & ->). destruct (settle_lookup b rg k Hc) as (r' & v' & Er' & Ev' & Hr' & ->).
  destruct (load_lookup rg 37%nat Hc) as (? & ? & _ & _ & _ & E37). rewrite decide_True in E37 by auto.
  destruct (load_lookup rg k Hc) as (r2 & v2 & Er2 & Ev2 & _ & Ek).
  assert (r = 0) as -> by congruence. assert (r2 = r') as -> by congruence. assert (v2 = v') as -> by congruence.
  change (Z.to_nat 0) with 0%nat. rewrite Ek. repeat case_decide; try done; lia.
Qed.

Definition load_machine {M} (m : MachineOf M) : MachineOf M := mkMachine (load (registers m)) (mmu m) (handlers m).

Lemma DelayedLoad_load {M} (m : MachineOf M) : cpu_ok (registers m) → DelayedLoad m 0 0 = Ok (load_machine m).
Proof.
  intros (Hl & r & Er & Hr). destruct m as [rg u h]. cbn [registers] in *.
  destruct (lookup_lt_is_Some_2 rg 38%nat) as [v Ev]; [lia|].
  unfold DelayedLoad, set_reg, reg, load_machine, load. cbn [registers mmu handlers]. rewrite Er, Ev. cbn [from_option id].
  rewrite (rd_ok _ LOAD_REG r), (rd_ok _ LOAD_VALUE_REG v) by done.
  cbn [mbind result_bind registers mmu handlers].
  do 4 (rewrite wr_ok by (rewrite ?length_insert, Hl; lia || done); cbn [mbind result_bind registers mmu handlers]).
  done.
Qed.

(** After any number of interrupts: a delayed load was completed, or none. *)
Definition loaded {M} (m m' : MachineOf M) : Prop := m' = m ∨ m' = load_machine m.

Lemma loaded_cpu {M} (m m' : MachineOf M) : loaded m m' → cpu_ok (registers m) → cpu_ok (registers m').
Proof. intros [->| ->] Hc; [done|by apply load_cpu_ok]. Qed.

Lemma loaded_trans {M} (m1 m2 m3 : MachineOf M) : cpu_ok (registers m1) → loaded m1 m2 → loaded m2 m3 → loaded m1 m3.
Proof.
  intros Hc [->| ->]; [done|]. intros [->| ->]; right; [done|]. unfold load_machine. cbn. by rewrite load_load.
Qed.

Lemma loads_loaded m o : cpu_ok (registers m) → Interrupt.loads (Some m) o → ∃ m', o = Some m' ∧ loaded m m'.
Proof.
  intros Hc. destruct o as [m'|]; [|done]. cbn. intros Hr. exists m'. split; [done|]. revert Hc.
  induction Hr as [m|m1 m2 m3 Hs Hr IH]; intros Hc; [by left|].
  rewrite (DelayedLoad_load m1 Hc) in Hs. injection Hs as <-.
  eapply loaded_trans; [done|by right|]. apply IH. by apply load_cpu_ok.
Qed.

(** ** The reference: isolated processors over flat memories

    A processor may complete a delayed load before it executes the next
    instruction: it does when an interrupt or a page fault comes in between. *)
Definition early (f g : MachineOf Flat) : Prop := loaded f g ∨ ∃ b, g = settled b f.

Lemma early_refl f : early f f.
Proof. by left; left. Qed.

Lemma early_cpu f g : early f g → cpu_ok (registers f) → cpu_ok (registers g).
Proof. intros [Hl|[b ->]] Hc; [by eapply loaded_cpu|by apply settle_ok]. Qed.

Lemma settle_zero b rg : cpu_ok rg → settle b rg !! 0%nat = Some 0.
Proof. intros Hc. rewrite settle_load. by apply load_zero, cpu_ok_bad. Qed.

Lemma early_zero f g : early f g → cpu_ok (registers f) → registers f !! 0%nat = Some 0 → registers g !! 0%nat = Some 0.
Proof. intros [[->| ->]|[b ->]] Hc H0; [done|by apply load_zero|by apply settle_zero]. Qed.

Lemma early_loaded f g h : cpu_ok (registers f) → early f g → loaded g h → early f h.
Proof.
  intros Hc [Hl|[b ->]] Hh; [left; by eapply loaded_trans|right; exists b].
  destruct Hh as [->| ->]; [done|]. unfold load_machine, settled. cbn.
  by rewrite settle_load, load_load by (by apply cpu_ok_bad).
Qed.

Lemma early_settled f g b : cpu_ok (registers f) → early f g → early f (settled b g).
Proof.
  intros Hc [[->| ->]|[b' ->]]; right; exists b; unfold settled, load_machine; cbn.
  - done.
  - by rewrite settle_of_load.
  - by rewrite settle_settle.
Qed.

Lemma early_trans f g h : cpu_ok (registers f) → early f g → early g h → early f h.
Proof. intros Hc Hg [Hl|[b ->]]; [by eapply early_loaded|by apply early_settled]. Qed.

(** [n] instructions of the processors in any order. *)
Inductive flat_system : nat → gmap Z (MachineOf Flat) → gmap Z (MachineOf Flat) → Prop :=
| flat_done fs : flat_system 0 fs fs
| flat_early t f g n fs fs' : fs !! t = Some f → early f g → flat_system n (<[t := g]> fs) fs' → flat_system n fs fs'
| flat_exec t f f' n fs fs' : fs !! t = Some f → processor_step f = Ok (Completed f') →
    flat_system n (<[t := f']> fs) fs' → flat_system (S n) fs fs'.

(** [n] instructions of the program do not trap and stay in its memory. *)
Fixpoint safe (n : nat) (f : MachineOf Flat) : Prop :=
  match n with
  | O => True
  | S n => ∀ g, early f g → ∃ f', processor_step g = Ok (Completed f') ∧ safe n f'
  end.

Lemma safe_pred n f : safe (S n) f → safe n f.
Proof.
  revert f. induction n as [|n IH]; intros f Hs; [done|]. intros g Hg. destruct (Hs g Hg) as (f' & E & Hf).
  exists f'. split; [done|by apply IH].
Qed.

Lemma safe_early n f g : cpu_ok (registers f) → early f g → safe n f → safe n g.
Proof. intros Hc Hg. destruct n as [|n]; [done|]. intros Hs h Hh. apply Hs. by eapply early_trans. Qed.

Lemma system_trans n m fs1 fs2 fs3 : flat_system n fs1 fs2 → flat_system m fs2 fs3 → flat_system (n + m) fs1 fs3.
Proof. intros H Hm. induction H; [done|by eapply flat_early; auto|by eapply flat_exec; auto]. Qed.

(** One processor of a system, by itself. *)
Inductive flat_run : nat → MachineOf Flat → MachineOf Flat → Prop :=
| run_done f g : early f g → flat_run 0 f g
| run_exec n f g f' h : early f g → processor_step g = Ok (Completed f') → flat_run n f' h → flat_run (S n) f h.

Lemma flat_step_cpu f f' : cpu_ok (registers f) → processor_step f = Ok (Completed f') → cpu_ok (registers f').
Proof. intros Hc E. by apply (processor_step_cpu f (handlers f) (conj Hc eq_refl)) in E as [? _]. Qed.

Lemma run_early n f g h : cpu_ok (registers f) → early f g → flat_run n g h → flat_run n f h.
Proof.
  intros Hc He Hr. destruct Hr as [g h Hg|n g g' f' h Hg E Hr].
  - constructor. by eapply early_trans.
  - econstructor; [by eapply early_trans|done|done].
Qed.

(** What every processor does in a system: it runs by itself. *)
Lemma system_runs n fs fs' t f : flat_system n fs fs' → fs !! t = Some f → cpu_ok (registers f) →
  ∃ i f', (i ≤ n)%nat ∧ fs' !! t = Some f' ∧ flat_run i f f'.
Proof.
  intros Hs. revert f. induction Hs as [fs|t' g g' n fs fs' Hg He Hs IH|t' g g' n fs fs' Hg E Hs IH]; intros f Hf Hc.
  - exists 0%nat, f. split_and!; [lia|done|]. constructor. apply early_refl.
  - destruct (decide (t' = t)) as [->|Hne].
    + assert (g = f) as -> by congruence.
      destruct (IH g') as (i & f' & Hi & Hf' & Hr); [by rewrite lookup_insert_eq|by eapply early_cpu|].
      exists i, f'. split_and!; [done..|]. by eapply run_early.
    + apply IH; [by rewrite lookup_insert_ne|done].
  - destruct (decide (t' = t)) as [->|Hne].
    + assert (g = f) as -> by congruence.
      destruct (IH g') as (i & f' & Hi & Hf' & Hr); [by rewrite lookup_insert_eq|by eapply flat_step_cpu|].
      exists (S i), f'. split_and!; [lia|done|]. econstructor; [apply early_refl|done|done].
    + destruct (IH f) as (i & f' & Hi & Hf' & Hr); [by rewrite lookup_insert_ne|done|].
      exists i, f'. split_and!; [lia|done..].
Qed.

(** ** Register 0 is zero after an instruction, and no load is pending after an
    exception *)
Definition no_load (rg : list Z) : Prop := rg !! 0%nat = Some 0 ∧ rg !! 37%nat = Some 0 ∧ rg !! 38%nat = Some 0.
Definition zeroed {M} (x : result (outcomeOf M)) : Prop :=
  ∀ o, x = Ok o → match o with Completed m => registers m !! 0%nat = Some 0 | Raised _ m => no_load (registers m) end.

Lemma load_id rg : no_load rg → load rg = rg.
Proof.
  intros (H0 & H37 & H38). unfold load. rewrite H37, H38. cbn [from_option id]. change (Z.to_nat 0) with 0%nat.
  rewrite (list_insert_id rg 0%nat), (list_insert_id rg 37%nat), (list_insert_id rg 38%nat) by done.
  by apply list_insert_id.
Qed.

Lemma zeroed_bind {M A} (x : result A) (k : A → result (outcomeOf M)) : (∀ v, zeroed (k v)) → zeroed (x ≫= k).
Proof. intros H o (v & _ & E)%result_bind_ok. by apply (H v). Qed.

Lemma set_reg_lookup {M} (m m' : MachineOf M) r v k : set_reg m r v = Ok m' →
  registers m' !! k = if decide (k = Z.to_nat r) then Some v else registers m !! k.
Proof.
  unfold set_reg. intros (rg & (Hr & ->)%wr_inv & [= <-])%result_bind_ok. cbn.
  case_decide; [subst; apply list_lookup_insert_eq; lia|by rewrite list_lookup_insert_ne].
Qed.

Lemma DelayedLoad_zero {M} (m m' : MachineOf M) r v : DelayedLoad m r v = Ok m' →
  registers m' !! 0%nat = Some 0 ∧ registers m' !! 37%nat = Some r ∧ registers m' !! 38%nat = Some v.
Proof.
  unfold DelayedLoad. intros (? & _ & E)%result_bind_ok. apply result_bind_ok in E as (? & _ & E).
  apply result_bind_ok in E as (m1 & _ & E).
  apply result_bind_ok in E as (m2 & E2 & E). apply result_bind_ok in E as (m3 & E3 & E4).
  by rewrite !(set_reg_lookup _ _ _ _ _ E4), !(set_reg_lookup _ _ _ _ _ E3), !(set_reg_lookup _ _ _ _ _ E2).
Qed.

Lemma zeroed_raise {M} (m : MachineOf M) et a : zeroed (RaiseException m et a).
Proof.
  unfold RaiseException. do 2 (apply zeroed_bind; intros ?). intros o (m' & E & [= <-])%result_bind_ok.
  by apply DelayedLoad_zero in E.
Qed.

Lemma zeroed_finish {M} (m : MachineOf M) r v pc : zeroed (finish m r v pc).
Proof.
  unfold finish. intros o (m0 & (H0 & _ & _)%DelayedLoad_zero & E)%result_bind_ok.
  apply result_bind_ok in E as (pc0 & _ & E). apply result_bind_ok in E as (m1 & E1 & E).
  apply result_bind_ok in E as (n0 & _ & E). apply result_bind_ok in E as (m2 & E2 & E).
  apply result_bind_ok in E as (m3 & E3 & [= <-]).
  by rewrite (set_reg_lookup _ _ _ _ _ E3), (set_reg_lookup _ _ _ _ _ E2), (set_reg_lookup _ _ _ _ _ E1).
Qed.

Lemma zeroed_read {M} `{Memory M} (m : MachineOf M) a size k : (∀ v m, zeroed (k v m)) → zeroed (with_ReadMem m a size k).
Proof.
  intros Hk m'. unfold with_ReadMem. intros ([r u] & _ & E)%result_bind_ok.
  revert E. destruct r; [apply zeroed_raise|apply Hk].
Qed.

Lemma zeroed_write {M} `{Memory M} (m : MachineOf M) a size v k : (∀ m, zeroed (k m)) → zeroed (with_WriteMem m a size v k).
Proof.
  intros Hk m'. unfold with_WriteMem. intros ([r u] & _ & E)%result_bind_ok.
  revert E. case_decide; [apply Hk|apply zeroed_raise].
Qed.

Ltac step_zeroed :=
  match goal with
  | |- zeroed (with_ReadMem _ _ _ _) => apply zeroed_read; intros ? ?
  | |- zeroed (with_WriteMem _ _ _ _ _) => apply zeroed_write; intros ?
  | |- zeroed (finish _ _ _ _) => apply zeroed_finish
  | |- zeroed (RaiseException _ _ _) => apply zeroed_raise
  | |- zeroed (set_and_finish _ _ _ _) => unfold set_and_finish
  | |- zeroed (branch _ _ _ _) => unfold branch
  | |- zeroed (let '(_, _) := ?x in _) => destruct x
  | |- zeroed (if ?b then _ else _) => destruct b
  | |- zeroed (_ ≫= _) => apply zeroed_bind; intros ?
  | |- zeroed (Err _) => by intros ?
  end.

Lemma step_zeroed {M} `{Memory M} (m : MachineOf M) : zeroed (processor_step m).
Proof.
  unfold processor_step. intros o' (r & Er & E)%result_bind_ok. revert o' E. destruct r as [o|[i m1]].
  - intros o' [= <-]. unfold FetchInstruction in Er. apply result_bind_ok in Er as (pc & _ & Er).
    apply result_bind_ok in Er as ([[e|raw] u] & _ & Er); apply result_bind_ok in Er as (o1 & Eo & Er); [|done].
    injection Er as ->. by apply zeroed_raise in Eo.
  - change (zeroed (ExecInstruction m1 i)). unfold ExecInstruction. apply zeroed_bind. intros npc. cbn zeta.
    destruct (opCode i); repeat step_zeroed.
Qed.

(** ** Ticks *)
Section Ticks.
Context {D DS : Type} (device : D → DS → DS * list (D * Z * Interrupt.IntType)).
(** Devices schedule their interrupts for the future, at most [M] ticks ahead. *)
Context (M : Z) (HM : Interrupt.TIMER_TICKS * 2 ≤ M)
  (Hdev : ∀ d x d' n ty, (d', n, ty) ∈ (device d x).2 → 0 < n ≤ M).
Abbreviation Sim := (Interrupt.Sim D (Kern DS)).
Abbreviation Queue := (list (Z * Interrupt.PendingInterrupt D)).

Definition is_timer (h : Interrupt.handler_of D) : bool :=
  match h with Interrupt.TimerHandler => true | _ => false end.
(** The times of the pending interrupts of the timer. *)
Definition timers (q : Queue) : list Z := (filter (λ e, is_timer (Interrupt.handler e.2) = true) q).*1.

Lemma timers_app p q : timers (p ++ q) = timers p ++ timers q.
Proof. unfold timers. by rewrite filter_app, fmap_app. Qed.

#[local] Instance timers_perm : Proper ((≡ₚ) ==> (≡ₚ)) timers.
Proof. intros p q H. unfold timers. by rewrite H. Qed.

Lemma on_device_bound d k h n ty : Interrupt.Schedules h n ty ∈ (on_device device d k).2 → 0 < n ≤ M.
Proof.
  unfold on_device. specialize (Hdev d (devices k)). destruct (device d (devices k)) as [x es]. cbn in *.
  intros ([[d' n'] ty'] & [= -> -> ->] & Hin)%list_elem_of_fmap. by eapply Hdev.
Qed.

(** A handler of a device changes only the state of the devices. *)
Lemma spec_handler_world t (k : Kern DS) h :
  let '(k', new, y) := Interrupt.spec_handler (on_device device) no_random false t k h in
  (∃ x, k' = set_devices k x) ∧ y = is_timer h ∧ timers new = if is_timer h then [t + 100] else [].
Proof.
  destruct h as [|d]; cbn.
  - split; [exists (devices k); by destruct k|]. by split.
  - unfold on_device. destruct (device d (devices k)) as [x es]. split; [by exists x|].
    induction es as [|[[d' n] ty] es [IH1 IH2]]; [done|]. by split.
Qed.

Lemma spec_run_world t fired : ∀ k : Kern DS,
  let '(k', new, y) := Interrupt.spec_run (on_device device) no_random false t k fired in
  (∃ x, k' = set_devices k x) ∧ y = bool_decide (timers fired ≠ []) ∧ timers new = (λ _, t + 100) <$> timers fired.
Proof.
  induction fired as [|[w i] fired IH]; intros k; cbn [Interrupt.spec_run].
  { split; [exists (devices k); by destruct k|]. by rewrite bool_decide_false by auto. }
  pose proof (spec_handler_world t k (Interrupt.handler i)) as H. cbn [snd].
  destruct (Interrupt.spec_handler _ _ _ t k (Interrupt.handler i)) as [[k1 new] y].
  destruct H as ((x & ->) & -> & Hn). specialize (IH (set_devices k x)).
  destruct (Interrupt.spec_run _ _ _ t (set_devices k x) fired) as [[k2 new'] y'].
  destruct IH as ((x' & ->) & -> & Hn'). split; [by exists x'|]. unfold timers in *. rewrite filter_app, fmap_app, Hn, Hn'.
  rewrite filter_cons. cbn [snd]. destruct (is_timer (Interrupt.handler i)); cbn; [|done].
  by rewrite bool_decide_true.
Qed.

(** The clock between two instructions: the next interrupt of the timer is at
    time [T], and nothing is due. *)
Record clock (st : Interrupt.MachineStatus) (T : Z) (s : Sim) : Prop := {
  ck_now : 0 ≤ now s;
  ck_sorted : ListSpec.increasing (queue s);
  ck_keys : Forall (λ e, now s < e.1 < 2 ^ 31) (queue s);
  ck_level : Interrupt.GetLevel s = Interrupt.INT_ON;
  ck_status : Interrupt.GetStatus s = st;
  ck_handler : Interrupt.inHandler (Interrupt.interrupt s) = false;
  ck_yield : Interrupt.yieldOnReturn (Interrupt.interrupt s) = false;
  ck_timer : timers (queue s) = [T];
  ck_next : T ≤ now s + 100
}.

Lemma timer_later st T s : clock st T s → now s < T.
Proof.
  intros H. pose proof (ck_timer _ _ _ H) as Ht. pose proof (ck_keys _ _ _ H) as Hk.
  assert (Hin : T ∈ timers (queue s)) by (rewrite Ht; by left).
  unfold timers in Hin. apply list_elem_of_fmap in Hin as (e & -> & [_ He]%list_elem_of_filter).
  rewrite Forall_forall in Hk. by apply Hk.
Qed.

Lemma timers_split (q : Queue) t :
  timers q ≡ₚ timers (filter (λ e, e.1 ≤ t) q) ++ timers (filter (λ e, t < e.1) q).
Proof.
  induction q as [|e q IH]; [done|]. rewrite !(filter_cons _ e). unfold timers in *.
  destruct (decide (e.1 ≤ t)); [rewrite (decide_False (P := t < e.1)) by lia|rewrite (decide_True (P := t < e.1)) by lia];
    rewrite !(filter_cons _ e); case_decide; rewrite ?fmap_cons, IH; [done..|by rewrite Permutation_middle|done].
Qed.

Lemma timers_bound (q : Queue) (P : Z → Prop) `{!∀ z, Decision (P z)} :
  Forall P (timers (filter (λ e, P e.1) q)).
Proof.
  unfold timers. apply Forall_forall. intros z (e & -> & [_ [? _]%list_elem_of_filter]%list_elem_of_filter)%list_elem_of_fmap.
  done.
Qed.

(** One timer is due, or is not. *)
Lemma timer_cases (q : Queue) T t : timers q = [T] →
  timers (filter (λ e, e.1 ≤ t) q) = (if decide (T ≤ t) then [T] else []) ∧
  timers (filter (λ e, t < e.1) q) = (if decide (T ≤ t) then [] else [T]).
Proof.
  intros E. pose proof (timers_split q t) as P. rewrite E in P. symmetry in P. apply Permutation_singleton_r in P.
  pose proof (timers_bound q (λ z, z ≤ t)) as Hd. pose proof (timers_bound q (λ z, t < z)) as Hl. cbn beta in Hd, Hl.
  destruct (timers (filter (λ e, e.1 ≤ t) q)) as [|a p]; cbn in P.
  - rewrite P in *. apply Forall_inv in Hl. by rewrite !decide_False by lia.
  - injection P as -> [-> ->]%app_eq_nil. apply Forall_inv in Hd. by rewrite !decide_True by lia.
Qed.

Definition ticks_of (st : Interrupt.MachineStatus) : Z :=
  match st with Interrupt.SYSTEM_MODE => 10 | _ => 1 end.

(** What a tick does to the state: the handlers of devices, delayed loads. *)
Record ticked (s s1 : Sim) : Prop := {
  tk_kernel : ∃ x, Interrupt.kernel s1 = set_devices (Interrupt.kernel s) x;
  tk_machine : Interrupt.loads (Interrupt.machine s) (Interrupt.machine s1)
}.

Lemma OneTick_world Y st T (s : Sim) : clock st T s → st ≠ Interrupt.IDLE_MODE →
  (∀ m, Interrupt.machine s = Some m → cpu_ok (registers m)) → now s + 10 + M < 2 ^ 31 →
  ∃ t s1, t = now s + ticks_of st ∧
    Interrupt.OneTick (on_device device) no_random Y false (fuel s) s =
      (if decide (T ≤ t) then
         s2 ← Y (Interrupt.SetStatus (Interrupt.set_yield s1 false) Interrupt.SYSTEM_MODE); Ok (Interrupt.SetStatus s2 st)
       else Ok s1) ∧
    now s1 = t ∧ ticked s s1 ∧
    clock st (if decide (T ≤ t) then t + 100 else T) (Interrupt.set_yield s1 false) ∧
    (t < T → Interrupt.set_yield s1 false = s1).
Proof.
  intros Hck Hst Hm Hb. pose proof Hck as [Hn Hso Hk Hl Hs Hi Hy Ht HT]. set (t := now (Interrupt.tick s)).
  assert (HM2 : 0 < M) by (unfold Interrupt.TIMER_TICKS in HM; lia).
  assert (Et : t = now s + ticks_of st).
  { unfold t, Interrupt.tick. rewrite Hs. unfold bool_decide, now, Interrupt.now, u64, Interrupt.SYSTEM_TICK, Interrupt.USER_TICK in *.
    case_decide as Est; [rewrite Est|]; destruct st; cbn; rewrite Z.mod_small; try lia; done. }
  pose proof (Interrupt.OneTick_ok (on_device device) no_random false M HM on_device_bound (λ m, cpu_ok (registers m)))
    as H.
  specialize (H (λ m Hc, ex_intro _ (load_machine m) (conj (DelayedLoad_load m Hc) (load_cpu_ok _ Hc))) Y (fuel s) s Hn).
  unfold Interrupt.SYSTEM_TICK in H. specialize (H Hb Hso).
  cbn zeta in H. fold t in H.
  pose proof (spec_run_world t (filter (λ e, e.1 ≤ t) (queue s)) (Interrupt.kernel s)) as Hw.
  destruct (Interrupt.spec_run _ _ _ _ _ _) as [[k new] y].
  destruct Hw as ((x & ->) & -> & Hnew). destruct (timer_cases (queue s) T t Ht) as [E1 E2]. rewrite E1 in *.
  destruct H as (s1 & E & Hk1 & Hn1 & Hl1 & Hs1 & _ & Hi1 & P & Hso1 & Hf & Hy1 & Hlo).
  { eapply Forall_impl; [exact Hk|]. cbn. lia. } { by rewrite Hs. } { exact Hm. } { done. } { unfold fuel. lia. }
  rewrite Hy, Hs in *. exists t, s1. split; [done|].
  assert (Ey : Interrupt.yieldOnReturn (Interrupt.interrupt s1) = bool_decide (T ≤ t)).
  { rewrite Hy1. cbn. apply bool_decide_ext. case_decide; split; try done; lia. }
  split_and!; try done.
  - rewrite E, <-Hy1, Ey. by case_bool_decide; case_decide.
  - split; [by exists x|done].
  - split; cbn; try done; try lia.
    + change (0 ≤ now s1). rewrite Hn1. destruct st; cbn in *; lia.
    + change (Forall (λ e, now s1 < e.1 < 2 ^ 31) (queue s1)). by rewrite Hn1.
    + change (timers (queue s1) = [if decide (T ≤ t) then t + 100 else T]). apply Permutation_singleton_r.
      rewrite P, timers_app, E2, Hnew. by case_decide.
    + change ((if decide (T ≤ t) then t + 100 else T) ≤ now s1 + 100). rewrite Hn1. destruct st; cbn in *; case_decide; lia.
  - intros Hlt. destruct s1 as [[] ? ? ?]. cbn in Ey |- *. rewrite bool_decide_false in Ey by lia. by rewrite Ey.
Qed.
End Ticks.

(** ** Context switches keep the handlers, the ages of the frames and the processes *)
Definition kept (v : VM) : (ExceptionType → bool) * (Z * list Z) * gset Z * option Z :=
  (handlers (machine v), lru v, live v, registers (machine v) !! 0%nat).

Lemma set_page_kept s id v e s' : set_page s id v e = Ok s' → kept s' = kept s.
Proof.
  unfold set_page. intros (sp & Es & (pt & _ & [= <-])%result_bind_ok)%result_bind_ok.
  unfold kept. by rewrite (live_set s id sp _ Es).
Qed.

Lemma SaveState_kept s id s' : SaveState s id = Ok s' → kept s' = kept s.
Proof.
  apply (for_loop_keeps (λ s', kept s' = kept s)); [|done]. intros i s1 s2 <- (t & _ & E)%result_bind_ok.
  apply result_bind_ok in E as (e & _ & E). destruct (valid e); [|by injection E as <-].
  apply result_bind_ok in E as (c & _ & E). apply result_bind_ok in E as (? & _ & E). cbn zeta in E.
  apply result_bind_ok in E as (t' & _ & E). by apply set_page_kept in E.
Qed.

Lemma RestoreUserState_kept m u m' : RestoreUserState m u = Ok m' →
  (mmu m', handlers m', registers m' !! 0%nat) = (mmu m, handlers m, registers m !! 0%nat).
Proof.
  apply (for_loop_keeps (λ m', (mmu m', handlers m', registers m' !! 0%nat) = (mmu m, handlers m, registers m !! 0%nat))); [|done].
  intros i m1 m2 <- (v & _ & E)%result_bind_ok. unfold WriteRegister in E. apply result_bind_ok in E as (_ & _ & E).
  case_bool_decide; [|by injection E as <-]. unfold set_reg in E. apply result_bind_ok in E as (rg & [Hi ->]%wr_inv & [= <-]).
  cbn. by rewrite list_lookup_insert_ne by lia.
Qed.

Lemma RestoreState_kept s s' : RestoreState s = Ok s' → kept s' = kept s.
Proof. unfold RestoreState. by intros (t & _ & (t' & _ & [= <-])%result_bind_ok)%result_bind_ok. Qed.

Lemma Run_kept s old next saved s' : AddressSpace.Run s old next None = Ok (saved, s') → kept s' = kept s.
Proof.
  unfold AddressSpace.Run. intros (u & _ & E)%result_bind_ok. apply result_bind_ok in E as (s1 & <-%SaveState_kept & E).
  cbn zeta in E. apply result_bind_ok in E as (s2 & [= <-] & E). apply result_bind_ok in E as (m & Em%RestoreUserState_kept & E).
  apply result_bind_ok in E as (s3 & Er%RestoreState_kept & [= _ <-]). rewrite Er. cbn in Em. injection Em as Em Eh E0.
  unfold kept, lru, vm_mmu. cbn. by rewrite Em, Eh, E0.
Qed.

(** ** Programs and their processors *)
Section World.
Context {DS : Type} (garbage : list Z).
Abbreviation vpage := (vpage garbage).
Abbreviation Kern := (Kern DS).

(** The memory of a process. *)
Definition pmem (v : VM) (id a : Z) : option Z :=
  if bool_decide (0 ≤ a) then
    pg ← vpage v id (Z.to_nat (a / 128)); pg !! Z.to_nat (a mod 128)
  else None.

(** The process [id] with the registers [rg] is the processor [f]. *)
Record sees (v : VM) (id : Z) (rg : list Z) (f : MachineOf Flat) : Prop := {
  se_regs : registers f = rg;
  se_handlers : handlers f = handlers (machine v);
  se_mem a : pmem v id a = mmu f a;
  se_cpu : cpu_ok rg;
  se_zero : rg !! 0%nat = Some 0;
  se_live : id ∈ live v
}.

Lemma sees_pages v v' id rg f : (∀ p, vpage v' id p = vpage v id p) → handlers (machine v') = handlers (machine v) →
  live v' = live v → sees v id rg f → sees v' id rg f.
Proof.
  intros Hp Hh Hl []. split; [done|congruence| |done|done|by rewrite Hl].
  intros a. rewrite <-se_mem0. unfold pmem. by rewrite Hp.
Qed.

(** The threads that run user programs: the current one and the ready ones. *)
Definition procs (k : Kern) : list Z := currentThread (kern k) :: ready (kern k).

(** The thread [t] runs the program of the processor [f]. *)
Record proc (k : Kern) (m : Machine) (t : Z) (td : thread_data) (f : MachineOf Flat) : Prop := {
  pr_user : users k !! t = Some td;
  pr_thread : ∃ th, Threads.threads (kern k) !! t = Some th ∧ Threads.started th = true;
  pr_regs : length (td_registers td) = 40%nat;
  pr_space : t = currentThread (kern k) → td_space td = currentSpace (with_machine k m);
  pr_sees : sees (with_machine k m) (td_space td)
    (if decide (t = currentThread (kern k)) then registers m else td_registers td) f
}.

(** The kernel [k] with the machine [m] runs the processors [fs], the clock of the
    replacement policy does not wrap within the next [B] references. *)
Record world (B : Z) (k : Kern) (m : Machine) (fs : gmap Z (MachineOf Flat)) : Prop := {
  wd_user : user_ok garbage (with_machine k m);
  wd_ages : ages_ok B (lru (with_machine k m));
  wd_nodup : NoDup (procs k);
  wd_dom t : t ∈ procs k ↔ is_Some (fs !! t);
  wd_proc t f : fs !! t = Some f → ∃ td, proc k m t td f;
  wd_space t t' td td' : t ∈ procs k → t' ∈ procs k → users k !! t = Some td → users k !! t' = Some td' →
    td_space td = td_space td' → t = t';
  wd_destroyed : Threads.threadToBeDestroyed (kern k) = None
}.

Lemma world_weaken B B' k m fs : B' ≤ B → world B k m fs → world B' k m fs.
Proof. intros ? []. split; try done. by eapply ages_weaken. Qed.

Lemma world_devices B k m fs x : world B k m fs → world B (set_devices k x) m fs.
Proof.
  intros [Hu Ha Hn Hd Hp Hs Ht]. split; try done. intros t f Hf. destruct (Hp t f Hf) as (td & []). by exists td.
Qed.

Lemma world_current B k m fs : world B k m fs → ∃ f td, fs !! currentThread (kern k) = Some f ∧
  proc k m (currentThread (kern k)) td f ∧ td_space td = currentSpace (with_machine k m) ∧
  sees (with_machine k m) (currentSpace (with_machine k m)) (registers m) f.
Proof.
  intros Hw. destruct (proj1 (wd_dom _ _ _ _ Hw (currentThread (kern k)))) as [f Hf]; [by left|].
  destruct (wd_proc _ _ _ _ Hw _ _ Hf) as (td & Hp). exists f, td. pose proof Hp as [_ _ _ Hs Hse].
  specialize (Hs eq_refl). rewrite decide_True, Hs in Hse by done. by split_and!.
Qed.

(** The current program went on: from [k] and [m] to [v], with processor [f]. *)
Lemma world_step B k m fs v f : world B k m fs → user_ok garbage v → ages_ok B (lru v) →
  currentSpace v = currentSpace (with_machine k m) → live v = live (with_machine k m) →
  handlers (machine v) = handlers m → (∀ id p, id ≠ currentSpace v → vpage v id p = vpage (with_machine k m) id p) →
  sees v (currentSpace v) (registers (machine v)) f →
  world B (set_mem k v) (machine v) (<[currentThread (kern k) := f]> fs).
Proof.
  intros Hw Hu Ha Hc Hl Hh Hv Hse.
  assert (Ev : with_machine (set_mem k v) (machine v) = v) by (unfold with_machine; cbn; by destruct v).
  destruct (world_current _ _ _ _ Hw) as (f0 & td0 & Hf0 & [Hu0 Hth0 Hr0 _ _] & Hc0 & _).
  destruct Hw as [_ _ Hn Hd Hp Hs Ht]. split; rewrite ?Ev; try done.
  - intros t. rewrite Hd. destruct (decide (t = currentThread (kern k))) as [->|].
    + rewrite lookup_insert_eq, Hf0. split; by eexists.
    + by rewrite lookup_insert_ne.
  - intros t f'. destruct (decide (t = currentThread (kern k))) as [->|Hne].
    + rewrite lookup_insert_eq. intros [= <-]. exists td0. split; rewrite ?Ev; try done; cbn; [congruence|].
      rewrite decide_True by done. by rewrite Hc0, <-Hc.
    + rewrite lookup_insert_ne by done. intros Hf'. destruct (Hp t f' Hf') as (td & [Hut Htt Hrt _ Hset]).
      exists td. split; rewrite ?Ev; try done. cbn. rewrite decide_False in Hset |- * by done.
      apply (sees_pages (with_machine k m)); [|done|done|exact Hset]. intros p. apply Hv. rewrite Hc, <-Hc0. intros E. apply Hne.
      apply (Hs t (currentThread (kern k)) td td0); try done; [apply Hd; by eexists|by left].
Qed.

Lemma user_ok_loaded v m' : user_ok garbage v → loaded (machine v) m' → user_ok garbage (set_machine v m') ∧
  ∀ id p, vpage (set_machine v m') id p = vpage v id p.
Proof.
  intros Hu Hl. pose proof (user_cpu _ _ Hu) as Hc. destruct Hu as [[t Hi] Hr Hlo Hf].
  assert (Em : mmu m' = mmu (machine v) ∧ handlers m' = handlers (machine v)) by (by destruct Hl as [->| ->]).
  destruct Em as [Em Eh]. destruct (vm_inv_registers garbage v t m' Hi Em) as [Hi' Hv'].
  change (mkVM m' _ _ _ _ _) with (set_machine v m') in Hi', Hv'. split; [|exact Hv'].
  eapply (cpu_user garbage (set_machine v m') t (registers m') (handlers m')); try done; [by eapply loaded_cpu|by rewrite Eh].
Qed.

(** Interrupts that do not switch the processor. *)
Lemma world_loaded B k m fs m' : world B k m fs → loaded m m' → ∃ f f', fs !! currentThread (kern k) = Some f ∧
  loaded f f' ∧ registers f' = registers m' ∧ (m' = m → f' = f) ∧ world B k m' (<[currentThread (kern k) := f']> fs).
Proof.
  intros Hw Hl. destruct (world_current _ _ _ _ Hw) as (f & td & Hf & _ & _ & Hse).
  destruct (user_ok_loaded _ m' (wd_user _ _ _ _ Hw) Hl) as [Hu' Hp'].
  change (set_machine (with_machine k m) m') with (with_machine k m') in *.
  assert (Em : mmu m' = mmu m ∧ handlers m' = handlers m) by (by destruct Hl as [->| ->]). destruct Em as [Em Eh].
  set (f' := mkMachine (registers m') (mmu f) (handlers f)).
  assert (Hk : set_mem k (with_machine k m') = mkKern (kern k) (users k) (with_machine k m') (devices k)) by done.
  exists f, f'. split_and!; [done| |done|intros ->; destruct f; unfold f'; cbn; f_equal; symmetry; apply (se_regs _ _ _ _ Hse)|].
  { destruct Hl as [->| ->]; [left|right]; unfold f', load_machine; cbn; rewrite <-(se_regs _ _ _ _ Hse); [by destruct f|done]. }
  assert (Hw' : world B (set_mem k (with_machine k m')) (machine (with_machine k m')) (<[currentThread (kern k) := f']> fs)).
  { apply (world_step B k m fs); try done.
    - unfold lru, vm_mmu. cbn. rewrite Em. apply (wd_ages _ _ _ _ Hw).
    - change (currentSpace (with_machine k m')) with (currentSpace (with_machine k m)).
      destruct Hse as [Er Ehh Hm Hc H0 Hlv]. split; cbn; try done.
      + by rewrite Ehh.
      + intros a. rewrite <-Hm. unfold pmem. by rewrite Hp'.
      + by eapply loaded_cpu.
      + destruct Hl as [->| ->]; [done|]. cbn. apply load_zero. done. }
  destruct Hw' as [? ? ? ? Hp ? ?]. split; try done. intros t f1 Hf1. destruct (Hp t f1 Hf1) as (td1 & []). by exists td1.
Qed.

(** *** [Scheduler::Run] *)
Lemma run_user_ok v old new t : vm_inv garbage None v t → length (registers (machine v)) = 40%nat →
  registers (machine v) !! 0%nat = Some 0 → handlers (machine v) PAGE_FAULT_EXCEPTION = true → length old = 40%nat →
  cpu_ok (td_registers new) → td_registers new !! 0%nat = Some 0 → td_space new ∈ live v →
  ∃ v', AddressSpace.Run v old new None = Ok (registers (machine v), v') ∧ user_ok garbage v' ∧
    currentSpace v' = td_space new ∧ registers (machine v') = td_registers new ∧ kept v' = kept v ∧
    ∀ id p, vpage v' id p = vpage v id p.
Proof.
  intros Hi Hr H0 Hh Ho Hn Hn0 Hl. apply live_spec in Hl.
  destruct (context_switch_ok garbage v t old new None Hi Hr Ho) as (v' & t' & E & Hi' & _ & Hc & Hg & Hv); [apply Hn|done|done|].
  pose proof (Run_kept _ _ _ _ _ E) as Hk.
  assert (Er : registers (machine v') = td_registers new).
  { apply list_eq. intros i. destruct i as [|i]; [|apply Hg; lia]. apply (f_equal snd) in Hk. cbn in Hk. congruence. }
  exists v'. split_and!; try done; [|intros; by apply Hv].
  assert (Eh : handlers (machine v') = handlers (machine v)) by exact (f_equal (λ x, x.1.1.1) Hk).
  eapply (cpu_user garbage v' t' (td_registers new) (handlers (machine v))); try done.
Qed.

Lemma thread_update_ok k t th f : Threads.threads k !! t = Some th →
  Threads.update k t f = Ok (Threads.set_threads k (<[t := f th]> (Threads.threads k))).
Proof. unfold Threads.update, Threads.get. by intros ->. Qed.

(** The scheduler: the current thread becomes ready, [next] the current one. *)
Lemma scheduler_ok (k : Threads.Kernel) key next r thc thn :
  Threads.readyList k = (key, next) :: r → next ≠ currentThread k →
  Threads.threads k !! currentThread k = Some thc → Threads.threads k !! next = Some thn →
  Threads.started thn = true → Threads.threadToBeDestroyed k = None →
  ∃ k1 k2, Threads.FindNextToRun k = (Some next, Threads.set_ready k r) ∧
    Threads.ReadyToRun (Threads.set_ready k r) (currentThread k) = Ok k1 ∧ Threads.Run k1 next = Ok k2 ∧
    currentThread k1 = currentThread k ∧ currentThread k2 = next ∧ ready k2 ≡ₚ currentThread k :: r.*2 ∧
    Threads.threadToBeDestroyed k1 = None ∧ Threads.threadToBeDestroyed k2 = None ∧
    ∀ t th, Threads.threads k !! t = Some th → ∃ th', Threads.threads k2 !! t = Some th' ∧ Threads.started th' = Threads.started th.
Proof.
  intros Er Hne Hc Hn Hst Hd. unfold Threads.FindNextToRun. rewrite Er.
  unfold Threads.ReadyToRun, Threads.SetStatus. rewrite (thread_update_ok _ _ thc) by done. cbn [mbind result_bind].
  unfold Threads.GetPriority, Threads.get. cbn [Threads.threads Threads.set_threads].
  rewrite lookup_insert_eq. cbn [mbind result_bind].
  match goal with |- ∃ _ _, _ ∧ Ok ?x = _ ∧ _ => set (k1 := x); exists k1 end. assert (Hn1 : Threads.threads k1 !! next = Some thn) by (cbn; by rewrite lookup_insert_ne).
  unfold Threads.Run, Threads.SetStatus.
  rewrite (thread_update_ok (Threads.set_current k1 next) next thn) by done. cbn [mbind result_bind].
  unfold Threads.get. cbn [Threads.threads Threads.set_threads]. rewrite lookup_insert_eq. cbn [mbind result_bind].
  cbn [Threads.started Threads.with_status]. rewrite Hst. cbn [Threads.threadToBeDestroyed Threads.set_threads Threads.set_current].
  assert (Threads.threadToBeDestroyed k1 = None) as -> by done.
  eexists. do 5 (split; [done|]). split; [cbn; unfold ListSpec.sorted_insert_inverted; by rewrite ListSpec.insert_by_perm|].
  do 2 (split; [done|]). intros t th Ht. unfold k1. cbn.
  destruct (decide (t = next)) as [->|]; [rewrite lookup_insert_eq; eexists; split; [done|]; cbn; congruence|].
  rewrite lookup_insert_ne by done. destruct (decide (t = currentThread k)) as [->|].
  - rewrite lookup_insert_eq. eexists. split; [done|]. cbn. congruence.
  - rewrite lookup_insert_ne by done. by exists th.
Qed.

(** The same threads run the same processes, and the pages of every other process
    are as they were. *)
Record others (k : Kern) (m : Machine) (k' : Kern) (m' : Machine) : Prop := {
  ot_procs : procs k' ≡ₚ procs k;
  ot_users t td : users k !! t = Some td → ∃ td', users k' !! t = Some td' ∧ td_space td' = td_space td;
  ot_pages id p : (∀ t td, t ∈ procs k → users k !! t = Some td → td_space td ≠ id) →
    vpage (with_machine k' m') id p = vpage (with_machine k m) id p
}.

Lemma others_refl k m : others k m k m.
Proof. split; try done. intros t td Ht. by exists td. Qed.

Lemma others_trans k1 m1 k2 m2 k3 m3 : (∀ t, t ∈ procs k1 → is_Some (users k1 !! t)) →
  others k1 m1 k2 m2 → others k2 m2 k3 m3 → others k1 m1 k3 m3.
Proof.
  intros Hd [P1 U1 V1] [P2 U2 V2]. split; [by rewrite P2| |].
  - intros t td (td2 & H2 & E2)%U1. destruct (U2 t td2 H2) as (td3 & H3 & E3). exists td3. split; [done|congruence].
  - intros id p Hid. rewrite V2; [by apply V1|]. intros t td2 Ht H2. rewrite P1 in Ht. destruct (Hd t Ht) as [td Htd].
    destruct (U1 t td Htd) as (td2' & H2' & E). assert (td2' = td2) as -> by congruence. rewrite E. by apply (Hid t).
Qed.

Lemma world_users B k m fs t : world B k m fs → t ∈ procs k → is_Some (users k !! t).
Proof.
  intros Hw Ht. destruct (proj1 (wd_dom _ _ _ _ Hw t) Ht) as [f Hf]. destruct (wd_proc _ _ _ _ Hw t f Hf) as (td & []).
  by eexists.
Qed.

(** What a context switch keeps. *)
Record moved (B : Z) (fs : gmap Z (MachineOf Flat)) (k : Kern) (m : Machine) (k' : Kern) (m' : Machine) : Prop := {
  mv_world : world B k' m' fs;
  mv_others : others k m k' m'
}.

Lemma world_switch B k m fs key next r : world B k m fs → Threads.readyList (kern k) = (key, next) :: r →
  ∃ old new k1 k2 v', users k !! currentThread (kern k) = Some old ∧ users k !! next = Some new ∧
    Threads.FindNextToRun (kern k) = (Some next, Threads.set_ready (kern k) r) ∧
    Threads.ReadyToRun (Threads.set_ready (kern k) r) (currentThread (kern k)) = Ok k1 ∧ Threads.Run k1 next = Ok k2 ∧
    currentThread k1 = currentThread (kern k) ∧ Threads.threadToBeDestroyed k1 = None ∧
    AddressSpace.Run (with_machine k m) (td_registers old) new None = Ok (registers m, v') ∧
    let u := <[currentThread (kern k) := mkThreadData (td_space old) (numFaults (with_machine k m)) (registers m)]> (users k) in
    ∀ x, moved B fs k m (mkKern k2 u v' x) (machine v').
Proof.
  intros Hw Er. pose proof Hw as [Hu Ha Hn Hd Hp Hs Ht].
  destruct (world_current _ _ _ _ Hw) as (fc & old & Hfc & [Hold (thc & Hthc & _) Hor _ _] & Hoc & Hse).
  assert (Hin : next ∈ procs k) by (unfold procs; rewrite Er; right; by left).
  assert (Hne : next ≠ currentThread (kern k)).
  { intros ->. unfold procs in Hn. rewrite Er in Hn. apply NoDup_cons in Hn as [Hn _]. apply Hn. by left. }
  destruct (proj1 (Hd next) Hin) as [fn Hfn]. destruct (Hp next fn Hfn) as (new & [Hnew (thn & Hthn & Hst) Hnr _ Hsn]).
  rewrite decide_False in Hsn by done.
  destruct (scheduler_ok (kern k) key next r thc thn Er Hne Hthc Hthn Hst Ht)
    as (k1 & k2 & E1 & E2 & E3 & Hc1 & Hc2 & Hr2 & Hd1 & Hd2 & Hth2).
  destruct (uo_inv _ _ Hu) as [t Hi].
  destruct (run_user_ok (with_machine k m) (td_registers old) new t Hi) as (v' & Ev & Hu' & Hcv & Hrv & Hkv & Hpv); try done.
  { apply Hu. } { apply (se_zero _ _ _ _ Hse). } { apply Hu. }
  { apply (se_cpu _ _ _ _ Hsn). } { apply (se_zero _ _ _ _ Hsn). } { apply (se_live _ _ _ _ Hsn). }
  exists old, new, k1, k2, v'. do 8 (split; [done|]). intros u x.
  assert (Hpr : procs (mkKern k2 u v' x) ≡ₚ procs k).
  { unfold procs. cbn. rewrite Hc2, Hr2, Er. by apply Permutation_swap. }
  assert (Evm : with_machine (mkKern k2 u v' x) (machine v') = v') by (unfold with_machine; cbn; by destruct v').
  assert (Hsv : ∀ id rg f, sees (with_machine k m) id rg f → sees v' id rg f).
  { intros id rg f. apply sees_pages; [done| |]; [exact (f_equal (λ x, x.1.1.1) Hkv)|exact (f_equal (λ x, x.1.2) Hkv)]. }
  assert (Huu : ∀ t td, u !! t = Some td → ∃ td0, users k !! t = Some td0 ∧ td_space td0 = td_space td).
  { intros t1 td. unfold u. destruct (decide (t1 = currentThread (kern k))) as [->|].
    - rewrite lookup_insert_eq. intros [= <-]. by exists old.
    - rewrite lookup_insert_ne by done. intros. by exists td. }
  split; [|split; [exact Hpr| |rewrite Evm; intros; apply Hpv]].
  2: { intros t1 td Htd. cbn. unfold u. destruct (decide (t1 = currentThread (kern k))) as [->|].
    - rewrite lookup_insert_eq. eexists. split; [done|]. cbn. congruence.
    - rewrite lookup_insert_ne by done. by exists td. }
  split; rewrite ?Evm; try done.
  - change (lru v') with (kept v').1.1.2. rewrite Hkv. exact Ha.
  - by rewrite Hpr.
  - intros t1. by rewrite Hpr.
  - intros t1 f Hf. destruct (Hp t1 f Hf) as (td & [Htd (th & Hth & Hsth) Htr _ Hts]).
    destruct (Hth2 _ _ Hth) as (th' & Hth' & Hst'). assert (Hst1 : Threads.started th' = true) by congruence.
    destruct (decide (t1 = currentThread (kern k))) as [->|Hn1].
    + eexists. split; rewrite ?Evm; cbn; [unfold u; by rewrite lookup_insert_eq|by exists th'|apply Hu|by rewrite Hc2|].
      rewrite Hc2, decide_False by done. assert (td = old) as -> by congruence. by apply Hsv.
    + exists td. split; rewrite ?Evm; cbn; [unfold u; by rewrite lookup_insert_ne|by exists th'|done| |].
      * rewrite Hc2. intros ->. congruence.
      * rewrite Hc2. apply Hsv. case_decide; [|done]. subst t1. rewrite Hrv. congruence.
  - intros t1 t2 td1 td2. rewrite !Hpr. cbn. intros H1 H2 (a & Ha1 & <-)%Huu (b & Hb1 & <-)%Huu. by apply (Hs t1 t2 a b).
Qed.
End World.

(** *** [Yield] and [OneTick] *)
Section Iterations.
Context {D DS : Type} (device : D → DS → DS * list (D * Z * Interrupt.IntType)) (garbage : list Z).
Context (M : Z) (HM : Interrupt.TIMER_TICKS * 2 ≤ M)
  (Hdev : ∀ d x d' n ty, (d', n, ty) ∈ (device d x).2 → 0 < n ≤ M).
Abbreviation Sim := (Interrupt.Sim D (Kern DS)).
Abbreviation world := (world (DS := DS) garbage).
Abbreviation vpage := (vpage garbage).

(** The state runs the processors [fs], within [B] references; the next
    interrupt of the timer is at [T]. *)
Record runs (st : Interrupt.MachineStatus) (T B : Z) (s : Sim) (fs : gmap Z (MachineOf Flat)) : Prop := {
  rn_clock : clock st T s;
  rn_world : ∃ m, Interrupt.machine s = Some m ∧ world B (Interrupt.kernel s) m fs
}.

(** The same for states. *)
Definition sim_others (s s' : Sim) : Prop := ∀ m, Interrupt.machine s = Some m →
  ∃ m', Interrupt.machine s' = Some m' ∧ others garbage (Interrupt.kernel s) m (Interrupt.kernel s') m'.

(** After the interrupts of a tick. *)
Lemma ticked_world B (s s1 : Sim) m fs : Interrupt.machine s = Some m → world B (Interrupt.kernel s) m fs → ticked s s1 →
  ∃ m' f f', Interrupt.machine s1 = Some m' ∧ fs !! currentThread (kern (Interrupt.kernel s)) = Some f ∧ loaded f f' ∧
    loaded m m' ∧ (m' = m → f' = f) ∧
    world B (Interrupt.kernel s1) m' (<[currentThread (kern (Interrupt.kernel s)) := f']> fs) ∧
    others garbage (Interrupt.kernel s) m (Interrupt.kernel s1) m'.
Proof.
  intros Em Hw [[x Ek] Hl]. rewrite Em in Hl. destruct (world_current _ _ _ _ _ Hw) as (? & ? & _ & _ & _ & Hse).
  apply loads_loaded in Hl as (m' & Em' & Hl); [|apply (se_cpu _ _ _ _ _ Hse)].
  destruct (world_loaded garbage B _ m fs m' Hw Hl) as (f & f' & Hf & Hff & _ & Hid & Hw').
  exists m', f, f'. rewrite Ek. split_and!; try done; [by apply world_devices|].
  split; [done|intros t td ?; by exists td|]. intros id p _.
  by apply (user_ok_loaded garbage _ m' (wd_user _ _ _ _ _ Hw) Hl).
Qed.

Lemma system_loaded fs t f f' : fs !! t = Some f → loaded f f' → flat_system 0 fs (<[t := f']> fs).
Proof. intros Hf Hl. eapply flat_early; [done|by left|]. constructor. Qed.

Lemma SetLevel_off Y n (s : Sim) : Interrupt.SetLevel (on_device device) no_random Y false n s Interrupt.INT_OFF =
  Ok (Interrupt.GetLevel s, Interrupt.ChangeLevel s Interrupt.INT_OFF).
Proof. unfold Interrupt.SetLevel. rewrite (bool_decide_true (Interrupt.INT_OFF = Interrupt.INT_OFF)) by done. done. Qed.

Lemma SetLevel_on Y n (s : Sim) : Interrupt.GetLevel s = Interrupt.INT_OFF → Interrupt.inHandler (Interrupt.interrupt s) = false →
  Interrupt.SetLevel (on_device device) no_random Y false n s Interrupt.INT_ON =
    (s ← Interrupt.OneTick (on_device device) no_random Y false n (Interrupt.ChangeLevel s Interrupt.INT_ON); Ok (Interrupt.INT_OFF, s)).
Proof.
  intros Hl Hh. unfold Interrupt.SetLevel. rewrite Hl, Hh, orb_true_r. cbn [ASSERT mbind result_bind negb].
  by rewrite !bool_decide_true.
Qed.

(** What is between the two calls of [SetLevel] in [Yield]. *)
Lemma dispatch_ok B (s : Sim) m fs : Interrupt.machine s = Some m → world B (Interrupt.kernel s) m fs →
  ∃ k' m', (let '(nextThread, t) := Threads.FindNextToRun (kern (Interrupt.kernel s)) in
      let s := upd_kern s t in
      match nextThread with
      | Some next => t ← Threads.ReadyToRun t (currentThread t); Run (upd_kern s t) next
      | None => Ok s
      end) = Ok (Interrupt.mkSim (Interrupt.interrupt s) (Interrupt.stats s) (Some m') k') ∧
    moved garbage B fs (Interrupt.kernel s) m k' m'.
Proof.
  intros Em Hw. destruct s as [i st mo k]. cbn in *. subst mo.
  destruct (Threads.readyList (kern k)) as [|[key next] r] eqn:Er.
  - unfold Threads.FindNextToRun. rewrite Er. exists k, m. split; [by destruct k|]. split; [done|apply others_refl].
  - destruct (world_switch garbage B k m fs key next r Hw Er)
      as (old & new & k1 & k2 & v' & Eo & En & E1 & E2 & E3 & Ec & Ed & Ev & Hm).
    rewrite E1. change (currentThread (Threads.set_ready (kern k) r)) with (currentThread (kern k)).
    rewrite E2. cbn [mbind result_bind]. unfold Run, running. cbn.
    unfold Threads.get. rewrite Ec, Eo, En. cbn [mbind result_bind]. rewrite Ed. cbn [mbind result_bind]. rewrite E3.
    cbn [mbind result_bind]. unfold with_machine in *. cbn. rewrite Ev. cbn [mbind result_bind].
    do 2 eexists. split; [done|]. apply Hm.
Qed.

Lemma clock_level st T (s : Sim) l : clock st T s → clock st T (Interrupt.ChangeLevel (Interrupt.ChangeLevel s l) Interrupt.INT_ON).
Proof. by intros []. Qed.

Lemma Yield_ok T B (s : Sim) fs : runs Interrupt.SYSTEM_MODE T B s fs → now s + 10 < T → now s + 10 + M < 2 ^ 31 →
  ∃ s' fs', Yield device 1 s = Ok s' ∧ runs Interrupt.SYSTEM_MODE T B s' fs' ∧ now s' = now s + 10 ∧
    flat_system 0 fs fs' ∧ sim_others s s'.
Proof.
  intros [Hck (m & Em & Hw)] HT Hb. cbn [Yield]. rewrite SetLevel_off. cbn [mbind result_bind]. rewrite (ck_level _ _ _ Hck).
  set (s1 := Interrupt.ChangeLevel s Interrupt.INT_OFF).
  destruct (dispatch_ok B s1 m fs Em Hw) as (k2 & m2 & E2 & [Hw2 Ho2]).
  destruct (Threads.FindNextToRun _) as [nextThread t]. cbn zeta in E2 |- *. rewrite E2. cbn [mbind result_bind].
  set (s2 := Interrupt.mkSim _ _ _ k2).
  rewrite SetLevel_on by (done || apply Hck). change (fuel s2) with (fuel (Interrupt.ChangeLevel s2 Interrupt.INT_ON)).
  set (s3 := Interrupt.ChangeLevel s2 Interrupt.INT_ON).
  assert (Hck3 : clock Interrupt.SYSTEM_MODE T s3) by (by destruct Hck).
  assert (Hc2 : cpu_ok (registers m2)).
  { destruct (world_current _ _ _ _ _ Hw2) as (? & ? & _ & _ & _ & Hse). apply Hse. }
  destruct (OneTick_world device M HM Hdev (Yield device 0) _ T s3 Hck3) as (t' & s4 & Et & E4 & Hn4 & Htk & Hck4 & Hy4);
    [done|by intros ? [= <-]|exact Hb|]. cbn in Et. change (now s3) with (now s) in Et.
  rewrite decide_False in E4 by lia. rewrite decide_False in Hck4 by lia. rewrite Hy4 in Hck4 by lia.
  destruct (ticked_world B s3 s4 m2 fs eq_refl Hw2 Htk) as (m4 & f & f' & Em4 & Hf & Hff & _ & _ & Hw4 & Ho4).
  exists s4, (<[currentThread (kern (Interrupt.kernel s3)) := f']> fs).
  cbn [Yield] in E4. rewrite E4. cbn [mbind result_bind]. split; [done|]. split; [split; [exact Hck4|by exists m4]|].
  split; [lia|]. split; [by eapply system_loaded|]. intros m0 Em0. assert (m0 = m) as -> by congruence. exists m4.
  split; [done|]. eapply others_trans; [|exact Ho2|exact Ho4]. intros t0. by eapply world_users.
Qed.

Lemma sim_others_trans B (s1 s2 s3 : Sim) m fs : Interrupt.machine s1 = Some m → world B (Interrupt.kernel s1) m fs →
  sim_others s1 s2 → sim_others s2 s3 → sim_others s1 s3.
Proof.
  intros Em Hw H1 H2 m0 Em0. assert (m0 = m) as -> by congruence. destruct (H1 m Em) as (m2 & E2 & O2).
  destruct (H2 m2 E2) as (m3 & E3 & O3). exists m3. split; [done|]. eapply others_trans; [|done|done].
  intros t. by eapply world_users.
Qed.

(** A tick between two instructions: the timer is not due and the processor goes
    on with the same program; or the thread yields. *)
Lemma tick_ok T B (s : Sim) fs : runs Interrupt.USER_MODE T B s fs → now s + 11 + M < 2 ^ 31 →
  ∃ s' fs', OneTick device s = Ok s' ∧ flat_system 0 fs fs' ∧ sim_others s s' ∧
    if decide (now s + 1 < T) then
      runs Interrupt.USER_MODE T B s' fs' ∧ now s' = now s + 1 ∧
      ∃ m m', Interrupt.machine s = Some m ∧ Interrupt.machine s' = Some m' ∧ loaded m m' ∧
        with_machine (Interrupt.kernel s') m' = set_machine (with_machine (Interrupt.kernel s) m) m' ∧
        kern (Interrupt.kernel s') = kern (Interrupt.kernel s) ∧ (m' = m → fs' = fs)
    else runs Interrupt.USER_MODE (now s + 101) B s' fs' ∧ now s' = now s + 11.
Proof.
  intros [Hck (m & Em & Hw)] Hb. unfold OneTick.
  assert (Hc : cpu_ok (registers m)).
  { destruct (world_current _ _ _ _ _ Hw) as (? & ? & _ & _ & _ & Hse). apply Hse. }
  destruct (OneTick_world device M HM Hdev (Yield device 1) _ T s Hck) as (t & s1 & Et & E1 & Hn1 & Htk & Hck1 & Hy1);
    [done|intros ? Em1; by assert (m0 = m) as -> by congruence|lia|]. cbn in Et.
  destruct (ticked_world B s s1 m fs Em Hw Htk) as (m1 & f & f' & Em1 & Hf & Hff & Hmm & Hid & Hw1 & Ho1).
  set (fs1 := <[currentThread (kern (Interrupt.kernel s)) := f']> fs) in *.
  assert (Hsys : flat_system 0 fs fs1) by (by eapply system_loaded).
  assert (Hsim : sim_others s s1).
  { intros m0 Em0. assert (m0 = m) as -> by congruence. by exists m1. }
  destruct (decide (now s + 1 < T)) as [Hlt|Hge].
  - rewrite decide_False in E1 by lia. rewrite decide_False in Hck1 by lia. rewrite Hy1 in Hck1 by lia. exists s1, fs1. split_and!; try done.
    + split; [done|by exists m1].
    + lia.
    + destruct Htk as [[x Ek] _]. exists m, m1. rewrite Ek. split_and!; try done.
      intros Emm. unfold fs1. rewrite (Hid Emm). by apply insert_id.
  - rewrite decide_True in E1 by lia. rewrite decide_True in Hck1 by lia.
    set (s2 := Interrupt.SetStatus (Interrupt.set_yield s1 false) Interrupt.SYSTEM_MODE) in *.
    assert (Hr2 : runs Interrupt.SYSTEM_MODE (t + 100) B s2 fs1).
    { split; [by destruct Hck1|by exists m1]. }
    change (now s1) with (now s2) in Hn1.
    destruct (Yield_ok _ _ _ _ Hr2) as (s3 & fs3 & E3 & [Hck3 Hw3] & Hn3 & Hsys3 & Ho3); [lia|lia|].
    exists (Interrupt.SetStatus s3 Interrupt.USER_MODE), fs3. rewrite E1, E3. cbn [mbind result_bind].
    split; [done|]. split; [exact (system_trans 0 0 _ _ _ Hsys Hsys3)|]. split; [exact (sim_others_trans B s s1 s3 m fs Em Hw Hsim Ho3)|].
    split; [|change (now s3 = now s + 11); lia]. split; [|done]. replace (now s + 101) with (t + 100) by lia. by destruct Hck3.
Qed.

(** *** An attempt at an instruction *)
Lemma fetch_execute_live v x : fetch_execute garbage v = Ok x →
  live (match x with Done v' | Faulted v' | Trapped _ v' => v' end) = live v.
Proof.
  unfold fetch_execute. intros (o & _ & E)%result_bind_ok. destruct o as [m|et m]; [by injection E as <-|].
  destruct et; try (by injection E as <-). apply result_bind_ok in E as (v' & Ev%TLBPageFaultHandler_cpu & [= <-]).
  exact (f_equal snd Ev).
Qed.

Lemma sees_flat v id (m : Machine) f : sees garbage v id (registers m) f → registers (machine v) = registers m → flat_machine v (mmu f) = f.
Proof. intros [Er Eh _ _ _ _] Em. destruct f. unfold flat_machine. cbn in *. congruence. Qed.

Lemma others_step k m v' : currentSpace v' = currentSpace (with_machine k m) →
  (∃ td, users k !! currentThread (kern k) = Some td ∧ td_space td = currentSpace (with_machine k m)) →
  (∀ id p, id ≠ currentSpace v' → vpage v' id p = vpage (with_machine k m) id p) →
  others garbage k m (set_mem (DS := DS) k v') (machine v').
Proof.
  intros Hc (td & Htd & Es) Hp. split; [done|intros t td' ?; by exists td'|]. intros id p Hid.
  assert (Ev : with_machine (set_mem k v') (machine v') = v') by (unfold with_machine; cbn; by destruct v').
  rewrite Ev. apply Hp. rewrite Hc, <-Es. intros ->. by apply (Hid (currentThread (kern k)) td); [left|..].
Qed.

Definition stepped_vm (x : stepped) : VM := match x with Done v | Faulted v | Trapped _ v => v end.

(** The current program went on in an attempt. *)
Lemma world_attempt B k m fs x g : world (B + 3) k m fs → fetch_execute garbage (with_machine k m) = Ok x →
  let v := with_machine k m in let v' := stepped_vm x in
  user_ok garbage v' → ages_ok B (lru v') → currentSpace v' = currentSpace v → handlers (machine v') = handlers m →
  (∀ id p, id ≠ currentSpace v → vpage v' id p = vpage v id p) → registers (machine v') = registers g →
  handlers g = handlers m → (∀ a, vmem garbage v' a = mmu g a) → cpu_ok (registers g) → registers g !! 0%nat = Some 0 →
  world B (set_mem k v') (machine v') (<[currentThread (kern k) := g]> fs) ∧ others garbage k m (set_mem k v') (machine v').
Proof.
  intros Hw E v v' Hu Ha Hc Hh Ho Er Eh Em Hcg H0g. pose proof (fetch_execute_live v x E) as Hl.
  change (match x with Done v' | Faulted v' | Trapped _ v' => v' end) with v' in Hl.
  destruct (world_current _ _ _ _ _ Hw) as (f & td & _ & [Htd _ _ _ _] & Hts & Hse).
  assert (Ho' : ∀ id p, id ≠ currentSpace v' → vpage v' id p = vpage v id p) by (intros id p; rewrite Hc; apply Ho).
  split; [|by apply others_step; [|by exists td|]].
  apply (world_step garbage B k m fs); try done; [by eapply world_weaken; [|exact Hw]; lia|].
  rewrite Er. split; try done; [by rewrite Hh|]. rewrite Hc, Hl. apply (se_live _ _ _ _ _ Hse).
Qed.

(** A page fault. *)
Lemma world_fault B k m fs f v' t t' a x : world (B + 3) k m fs → fs !! currentThread (kern k) = Some f →
  fetch_execute garbage (with_machine k m) = Ok (Faulted v') → after_fault garbage B (with_machine k m) t a x v' t' →
  world B (set_mem k v') (machine v') (<[currentThread (kern k) := settled a f]> fs) ∧
  others garbage k m (set_mem k v') (machine v') ∧ load_machine (machine v') = machine v'.
Proof.
  intros Hw Hf E []. destruct (world_current _ _ _ _ _ Hw) as (f0 & td & Hf0 & _ & _ & Hse).
  assert (f0 = f) as -> by congruence. pose proof (se_cpu _ _ _ _ _ Hse) as Hc.
  pose proof (se_regs _ _ _ _ _ Hse) as Hfr. change (registers (machine (with_machine k m))) with (registers m) in af_regs.
  destruct (world_attempt B k m fs (Faulted v') (settled a f) Hw E) as [? ?]; cbn; rewrite ?Hfr; try done.
  - apply af_same.
  - intros id p _. apply af_same.
  - apply (se_handlers _ _ _ _ _ Hse).
  - intros y. rewrite (same_vmem garbage (with_machine k m) v') by done. exact (se_mem _ _ _ _ _ Hse y).
  - by apply settle_ok.
  - by apply settle_zero.
  - split_and!; [done..|]. unfold load_machine. rewrite af_regs, settle_load, load_load by (by apply cpu_ok_bad).
    rewrite <-settle_load, <-af_regs. by destruct (machine v').
Qed.

Lemma attempt_ok B k m fs f f' : 0 ≤ B → world (B + 3) k m fs → fs !! currentThread (kern k) = Some f →
  processor_step f = Ok (Completed f') →
  ∃ x v g, fetch_execute garbage (with_machine k m) = Ok x ∧
    world B (set_mem k v) (machine v) (<[currentThread (kern k) := g]> fs) ∧
    others garbage k m (set_mem k v) (machine v) ∧
    ((x = Done v ∧ g = f') ∨ (x = Faulted v ∧ load_machine (machine v) = machine v ∧ ∃ b, g = settled b f)).
Proof.
  intros HB Hw Hf Ef. destruct (world_current _ _ _ _ _ Hw) as (f0 & td & Hf0 & _ & _ & Hse).
  assert (f0 = f) as -> by congruence. set (v := with_machine k m) in *.
  pose proof (sees_flat v _ m f Hse eq_refl) as Eflat. pose proof (wd_user _ _ _ _ _ Hw) as Hu.
  destruct (uo_inv _ _ Hu) as [t Hi]. pose proof (se_cpu _ _ _ _ _ Hse) as Hc.
  destruct (lookup_lt_is_Some_2 (registers m) 34%nat) as [pc Hpc]; [destruct Hc; lia|].
  pose proof (se_handlers _ _ _ _ _ Hse : handlers f = handlers m) as Hfh. pose proof (se_regs _ _ _ _ _ Hse) as Hfr.
  destruct (fetch_execute_cases garbage B v t (mmu f) pc (Completed f') Hu Hi)
    as [(x & E & Hag)|[(_ & v' & t' & x & E & Haf)|(i & v' & t' & x & j & p & _ & _ & E & _ & Haf & _)]]; try done.
  - intros a. exact (se_mem _ _ _ _ _ Hse a).
  - replace (B + 1 + 1 + 1) with (B + 3) by lia. apply (wd_ages _ _ _ _ _ Hw).
  - by rewrite Eflat.
  - destruct x as [v'|v'|]; cbn in Hag; try done. destruct Hag as [Er Eh Hu' Hs' Ec' Ho' Ha'].
    assert (Hcf : cpu_ok (registers f)) by (by rewrite Hfr).
    destruct (processor_step_cpu f (handlers m) (conj Hcf Hfh) _ Ef) as [Hc' Hh']. cbn in Hh'.
    destruct (world_attempt B k m fs (Done v') f' Hw E) as [? ?]; try done; [cbn; congruence|exact (step_zeroed f _ Ef)|].
    exists (Done v'), v', f'. split_and!; try done. by left.
  - destruct (world_fault B k m fs f v' t t' _ x Hw Hf E Haf) as (? & ? & ?).
    exists (Faulted v'), v', (settled (u32 pc) f). split_and!; try done. right. split_and!; [done..|by eexists].
  - destruct (world_fault B k m fs f v' t t' _ x Hw Hf E Haf) as (? & ? & ?).
    exists (Faulted v'), v', (settled (data_address (machine v) i) f). split_and!; try done. right. split_and!; [done..|by eexists].
Qed.

(** The instruction finishes after at most [j] page faults, if no thread yields. *)
Definition tries (j : nat) (v : VM) : Prop := ∃ v', attempts garbage j v = Ok (Done v').

Lemma tries_fault j v v' : tries j v → fetch_execute garbage v = Ok (Faulted v') → ∃ j', j = S j' ∧ tries j' v'.
Proof.
  intros (v1 & E) Ef. destruct j as [|j]; cbn [attempts] in E; rewrite Ef in E; [done|].
  cbn in E. exists j. split; [done|by exists v1].
Qed.

Lemma tries_start B k m fs f n : 12 ≤ B → world B k m fs → fs !! currentThread (kern k) = Some f → safe (S n) f →
  tries 3 (with_machine k m).
Proof.
  intros HB Hw Hf Hs. destruct (world_current _ _ _ _ _ Hw) as (f0 & td & Hf0 & _ & _ & Hse).
  assert (f0 = f) as -> by congruence. set (v := with_machine k m) in *. pose proof (sees_flat v _ m f Hse eq_refl) as Eflat.
  destruct (instruction_ok garbage 0 v (mmu f)) as (x & g & o & E & Hg & Eg & Hag).
  - apply Hw.
  - intros a. exact (se_mem _ _ _ _ _ Hse a).
  - done.
  - eapply ages_weaken; [|apply (wd_ages _ _ _ _ _ Hw)]. lia.
  - rewrite Eflat. destruct (Hs f (early_refl f)) as (f' & ? & _). by eexists.
  - intros b. rewrite Eflat. destruct (Hs (settled b f)) as (f' & ? & _); [right; by exists b|by eexists].
  - assert (He : early f g) by (rewrite Eflat in Hg; destruct Hg as [->|[b ->]]; [apply early_refl|right; by exists b]).
    destruct (Hs g He) as (f' & Eg' & _). assert (o = Completed f') as -> by congruence.
    destruct x as [v'|v'|]; cbn in Hag; try done. by exists v'.
Qed.

Lemma clock_running st T (s : Sim) v : clock st T s → clock st T (set_running s v).
Proof. by intros []. Qed.

(** *** The attempts at an instruction, while the timer is not due *)
Lemma fault_machine v v' : fetch_execute garbage v = Ok (Faulted v') → cpu_ok (registers (machine v)) →
  cpu_ok (registers (machine v')) ∧ load_machine (machine v') = machine v'.
Proof.
  unfold fetch_execute. intros (o & Eo & E)%result_bind_ok Hc. destruct o as [m|et m]; [done|].
  pose proof (processor_step_cpu (machine v) _ (conj Hc eq_refl) _ Eo) as [Hcm _].
  pose proof (step_zeroed (machine v) _ Eo) as Hz. cbn in Hcm, Hz.
  assert (Er : registers (machine v') = registers m).
  { destruct et; try done. apply result_bind_ok in E as (v1 & Ev%TLBPageFaultHandler_cpu & [= <-]).
    exact (f_equal (λ x, x.1.1.1) Ev). }
  rewrite Er. split; [done|]. unfold load_machine. rewrite Er, load_id by done. rewrite <-Er. by destruct (machine v').
Qed.

Lemma attempts_iterations j : ∀ T (s : Sim) v x, clock Interrupt.USER_MODE T s → running s = Ok v →
  cpu_ok (registers (machine v)) → attempts garbage j v = Ok x → (∀ v', x ≠ Faulted v') →
  now s + Z.of_nat j < T → now s + Z.of_nat j + 10 + M < 2 ^ 31 →
  ∃ i s1 v1, (i ≤ j)%nat ∧ iterations device garbage i s = Ok (Next s1) ∧ now s1 = now s + Z.of_nat i ∧
    clock Interrupt.USER_MODE T s1 ∧ running s1 = Ok v1 ∧ fetch_execute garbage v1 = Ok x.
Proof.
  induction j as [|j IH]; intros T s v x Hck Hv Hc E Hx HT Hb; cbn [attempts] in E;
    apply result_bind_ok in E as (y & Ey & E).
  1: { exists 0%nat, s, v. rewrite Ey. assert (y = x) as -> by (destruct y; congruence). split_and!; try done; lia. }
  destruct y as [v'|v'|et v'];
    [exists 0%nat, s, v; rewrite Ey, E; split_and!; try done; lia| |exists 0%nat, s, v; rewrite Ey, E; split_and!; try done; lia].
  destruct (fault_machine v v' Ey Hc) as [Hc' Hl].
  destruct (OneTick_world device M HM Hdev (Yield device 1) _ T (set_running s v') (clock_running _ _ _ v' Hck))
    as (t & s1 & Et & E1 & Hn1 & [[d Ek] Htk] & Hck1 & Hy1);
    [done|by intros ? [= <-]|change (now (set_running s v')) with (now s); lia|].
  change (now (set_running s v')) with (now s) in Et. cbn in Et.
  rewrite decide_False in E1 by lia. rewrite decide_False in Hck1 by lia. rewrite Hy1 in Hck1 by lia.
  apply (loads_loaded (machine v')) in Htk as (m1 & Em1 & Hm1); [|done].
  assert (m1 = machine v') as -> by (by destruct Hm1 as [->| ->]).
  assert (Hv1 : running s1 = Ok v').
  { unfold running. rewrite Em1, Ek. unfold with_machine. cbn. by destruct v'. }
  destruct (IH T s1 v' x Hck1 Hv1 Hc' E Hx) as (i & s2 & v2 & Hi & E2 & Hn2 & Hck2 & Hv2 & Ex); [lia|lia|].
  exists (S i), s2, v2. split; [lia|]. split; [|split_and!; try done; lia].
  cbn [iterations]. unfold iteration. rewrite Hv. cbn [mbind result_bind]. rewrite Ey. cbn [mbind result_bind].
  unfold OneTick. rewrite E1. cbn [mbind result_bind]. exact E2.
Qed.

(** *** Many iterations *)
(** Every processor can execute [n] instructions. *)
Definition all_safe (n : nat) (fs : gmap Z (MachineOf Flat)) : Prop :=
  ∀ t f, fs !! t = Some f → cpu_ok (registers f) ∧ safe n f.

Lemma all_safe_insert n fs t f : all_safe n fs → cpu_ok (registers f) → safe n f → all_safe n (<[t := f]> fs).
Proof.
  intros Hs Hc Hf t' f'. destruct (decide (t' = t)) as [->|]; [by rewrite lookup_insert_eq; intros [= <-]|].
  rewrite lookup_insert_ne by done. apply Hs.
Qed.

Lemma all_safe_system n fs fs' : flat_system 0 fs fs' → all_safe n fs → all_safe n fs'.
Proof.
  remember 0%nat as c eqn:Ec. induction 1 as [|t f g c fs fs' Hf He _ IH|]; [done| |done]. intros Hs. apply (IH Ec).
  destruct (Hs t f Hf) as [Hc Hsf]. apply all_safe_insert; [done|by eapply early_cpu|by eapply safe_early].
Qed.

Lemma all_safe_pred n fs : all_safe (S n) fs → all_safe n fs.
Proof. intros Hs t f Hf. destruct (Hs t f Hf). split; [done|by apply safe_pred]. Qed.

(** The page faults that the current instruction may still have, when [n] more
    iterations follow. *)
Definition progress (n j : nat) (s : Sim) : Prop :=
  n = 0%nat ∨ ∃ m, Interrupt.machine s = Some m ∧ tries j (with_machine (Interrupt.kernel s) m).

Lemma progress_start n st T B (s : Sim) fs : runs st T B s fs → 12 * Z.of_nat n ≤ B → all_safe n fs → progress n 3 s.
Proof.
  intros [_ (m & Em & Hw)] HB Hs. destruct n as [|n]; [by left|]. right. exists m. split; [done|].
  destruct (world_current _ _ _ _ _ Hw) as (f & td & Hf & _). apply (tries_start B (Interrupt.kernel s) m fs f n); try done; [lia|].
  by eapply Hs.
Qed.

(** One iteration: an instruction of the current program, or a page fault; then
    a tick. *)
Lemma iteration_ok T n j (s : Sim) fs : runs Interrupt.USER_MODE T (12 * Z.of_nat (S n)) s fs → all_safe (S n) fs →
  progress (S n) j s → now s + 11 + M < 2 ^ 31 →
  ∃ s' fs' c j', iteration device garbage s = Ok (Next s') ∧ flat_system c fs fs' ∧ all_safe n fs' ∧ sim_others s s' ∧
    progress n j' s' ∧ runs Interrupt.USER_MODE (if decide (now s + 1 < T) then T else now s + 101) (12 * Z.of_nat n) s' fs' ∧
    now s' = (if decide (now s + 1 < T) then now s + 1 else now s + 11) ∧ (c ≤ 1)%nat ∧
    (1 + j' ≤ 4 * c + (if decide (now s + 1 < T)%Z then 0 else 3) + j)%nat.
Proof.
  intros Hr Hs Hj Hb. pose proof Hr as [Hck (m & Em & Hw)]. destruct Hj as [|(m0 & Em0 & Ht)]; [done|].
  assert (m0 = m) as -> by congruence. destruct (world_current _ _ _ _ _ Hw) as (f & td & Hf & _).
  destruct (Hs _ _ Hf) as [Hcf Hsf]. destruct (Hsf f (early_refl f)) as (f' & Ef & Hsf').
  destruct (attempt_ok (12 * Z.of_nat n) (Interrupt.kernel s) m fs f f') as (x & v & g & E & Hw1 & Ho1 & Hx);
    [lia|by eapply world_weaken; [|exact Hw]; lia|done|done|].
  set (s1 := set_running s v). set (fs1 := <[currentThread (kern (Interrupt.kernel s)) := g]> fs) in *.
  assert (Hr1 : runs Interrupt.USER_MODE T (12 * Z.of_nat n) s1 fs1) by (split; [by apply clock_running|by exists (machine v)]).
  assert (Hs1 : all_safe n fs1).
  { apply all_safe_insert; [by apply all_safe_pred| |]; destruct Hx as [[_ ->]|(_ & _ & b & ->)].
    - by eapply flat_step_cpu.
    - by apply settle_ok.
    - done.
    - apply (safe_early n f); [done|right; by exists b|by apply safe_pred]. }
  assert (Hsys1 : ∃ c, (c ≤ 1)%nat ∧ flat_system c fs fs1 ∧ (c = 1%nat ∨ x = Faulted v ∧ c = 0%nat ∧ load_machine (machine v) = machine v)).
  { destruct Hx as [[_ ->]|(-> & Hl & b & ->)].
    - exists 1%nat. split; [lia|]. split; [eapply flat_exec; [done|done|constructor]|by left].
    - exists 0%nat. split; [lia|]. split; [|by right]. eapply flat_early; [done|right; by exists b|constructor]. }
  destruct Hsys1 as (c & Hc & Hsys1 & Hcx).
  destruct (tick_ok T _ s1 fs1 Hr1 Hb) as (s2 & fs2 & E2 & Hsys2 & Ho2 & Hcase). change (now s1) with (now s) in Hcase.
  assert (Hs2 : all_safe n fs2) by (by eapply all_safe_system).
  assert (Eit : iteration device garbage s = Ok (Next s2)).
  { unfold iteration, running. rewrite Em. cbn [mbind result_bind]. rewrite E. cbn [mbind result_bind].
    destruct Hx as [[-> _]|(-> & _)]; cbv iota; fold s1; by rewrite E2. }
  assert (Hsys : flat_system c fs fs2) by (rewrite <-(Nat.add_0_r c); by eapply system_trans).
  assert (Hoo : sim_others s s2).
  { eapply (sim_others_trans _ s s1 s2); [done|done| |done]. intros m1 Em1. assert (m1 = m) as -> by congruence. by exists (machine v). }
  assert (Hr2 : ∃ T', runs Interrupt.USER_MODE T' (12 * Z.of_nat n) s2 fs2) by (destruct (decide _); eexists; apply Hcase).
  assert (H3 : progress n 3 s2) by (destruct Hr2 as [T' Hr2]; by eapply progress_start).
  exists s2, fs2, c. destruct (decide (now s + 1 < T)) as [Hlt|Hge].
  - destruct Hcase as (Hrr & Hn & m1 & m2 & Em1 & Em2 & Hl & Hv2 & _ & _). injection Em1 as <-.
    destruct Hcx as [->|(-> & -> & Hid)]; [exists 3%nat; split_and!; try done; lia|].
    destruct (tries_fault j _ v Ht E) as (j' & -> & Hj'). exists j'. split_and!; try done; try lia.
    right. exists m2. split; [done|]. rewrite Hv2.
    assert (m2 = machine v) as -> by (by destruct Hl as [->| ->]).
    unfold with_machine. cbn. by destruct v.
  - destruct Hcase as [Hrr Hn]. exists 3%nat. split_and!; try done.
    destruct Hcx as [->|(-> & -> & _)]; [lia|]. destruct (tries_fault j _ v Ht E) as (j' & -> & _). lia.
Qed.

Lemma iterations_ok n : ∀ T j (s : Sim) fs, runs Interrupt.USER_MODE T (12 * Z.of_nat n) s fs → all_safe n fs →
  progress n j s → now s + 11 * Z.of_nat n + M < 2 ^ 31 →
  ∃ s' fs' T' c p, iterations device garbage n s = Ok (Next s') ∧ flat_system c fs fs' ∧
    runs Interrupt.USER_MODE T' 0 s' fs' ∧ sim_others s s' ∧ now s' = now s + Z.of_nat n + 10 * Z.of_nat p ∧
    (c ≤ n)%nat ∧ (n ≤ 4 * c + 3 * p + j)%nat ∧ 90 * Z.of_nat p ≤ Z.of_nat n + 100 - (T - now s).
Proof.
  induction n as [|n IH]; intros T j s fs Hr Hs Hj Hb.
  - exists s, fs, T, 0%nat, 0%nat. split_and!; try done; try lia; [constructor| |].
    + intros m Em. exists m. split; [done|apply others_refl].
    + pose proof (ck_next _ _ _ (rn_clock _ _ _ _ _ Hr)). lia.
  - destruct (iteration_ok T n j s fs Hr Hs Hj) as (s1 & fs1 & c1 & j1 & E1 & Hsys1 & Hs1 & Ho1 & Hj1 & Hr1 & Hn1 & Hc1 & Hp1); [lia|].
    destruct (IH _ j1 s1 fs1 Hr1 Hs1 Hj1) as (s2 & fs2 & T2 & c2 & p2 & E2 & Hsys2 & Hr2 & Ho2 & Hn2 & Hc2 & Hp2 & Hq2).
    { rewrite Hn1. case_decide; lia. }
    pose proof (timer_later _ _ _ (rn_clock _ _ _ _ _ Hr)) as HT.
    exists s2, fs2, T2, (c1 + c2)%nat, (p2 + if decide (now s + 1 < T)%Z then 0 else 1)%nat.
    split; [cbn [iterations]; by rewrite E1|]. split; [by eapply system_trans|]. split; [done|].
    destruct Hr as [_ (m & Em & Hw)]. split; [by eapply (sim_others_trans _ s s1 s2)|].
    rewrite Hn2. clear IH. case_decide; rewrite Hn1 in *; split_and!; lia.
Qed.

(** ** Theorems *)
(** C2: time sharing and demand paging refine isolated flat memories.  Let a user
    program run, and let every ready thread be a user program that was
    preempted; let each of these programs see a flat memory, in which its next
    [n] instructions stay and do not trap, with delayed loads completed early
    or not.  Then [n] iterations of [Run], each with its tick of the clock, do not
    fail, whatever pages are in memory, on disk or in the TLB, and whatever
    interrupts fire and programs are preempted: they take the programs to a
    state in which each sees what its processor sees after some instructions
    of its own over its own flat memory, with a delayed load completed early
    where an interrupt or a page fault came in between.  [c] instructions are
    executed in all and [p] threads yield, with [n <= 4 * c + 3 * p + 3] and at
    least 90 iterations between two yields, so the programs make progress; the
    pages of every other process are as they were.

    The bounds: the clock stays below [2 ^ 31], the counter of references of the
    replacement policy below [UINT_MAX] (12 references for each iteration), the
    timer is not random, and no interrupt wakes a thread. *)
Theorem program_refines n T (s : Sim) fs (Hr : runs Interrupt.USER_MODE T (12 * Z.of_nat n) s fs) (Hs : all_safe n fs)
  (Hb : now s + 11 * Z.of_nat n + M < 2 ^ 31) :
  ∃ s' fs' T' c p, iterations device garbage n s = Ok (Next s') ∧ flat_system c fs fs' ∧
    runs Interrupt.USER_MODE T' 0 s' fs' ∧ sim_others s s' ∧
    (∀ t f, fs !! t = Some f → ∃ i f', (i ≤ c)%nat ∧ fs' !! t = Some f' ∧ flat_run i f f') ∧
    now s' = now s + Z.of_nat n + 10 * Z.of_nat p ∧ (c ≤ n ≤ 4 * c + 3 * p + 3)%nat ∧
    90 * Z.of_nat p ≤ Z.of_nat n + 99.
Proof.
  assert (H3 : progress n 3 s) by (by eapply progress_start).
  destruct (iterations_ok n T 3 s fs Hr Hs H3 Hb) as (s' & fs' & T' & c & p & E & Hsys & Hr' & Ho & Hn & Hc & Hp & Hq).
  pose proof (timer_later _ _ _ (rn_clock _ _ _ _ _ Hr)) as HT.
  exists s', fs', T', c, p. split_and!; try done; try lia.
  intros t f Hf. destruct (Hs t f Hf) as [Hcf _]. by eapply system_runs.
Qed.

(** C3: an instruction over paged memory.  Let the program see the memory [F], let
    the instruction at its program counter stay inside it, and let the
    interrupt of the timer not be due within the next three ticks.  Then the
    instruction is executed, or traps, after at most three iterations of [Run],
    each a page fault that is handled and a tick, whatever pages are in memory,
    on disk or in the TLB, and whatever other interrupts fire: it never loops on
    faults, because the frame of the instruction is not the least recently used
    one when its data is loaded.  The registers, the memory that the program sees
    and the exception are those of the same processor over the flat memory [F],
    from the same registers or, after a fault, from those with a delayed load
    completed (and the bad address set); no page of another process changes.
    [n] is the number of further references before the clock of the replacement
    policy would wrap. *)
Theorem instruction_refines n T (s : Sim) v F (Hck : clock Interrupt.USER_MODE T s) (Hv : running s = Ok v)
  (HT : now s + 3 < T) (Hb : now s + 13 + M < 2 ^ 31)
  (Hu : user_ok garbage v) (Hs : shows garbage v F) (Hn : 0 ≤ n) (Ha : ages_ok (n + 12) (lru v))
  (H0 : ∃ o, processor_step (flat_machine v F) = Ok o)
  (H1 : ∀ b, ∃ o, processor_step (settled b (flat_machine v F)) = Ok o) :
  ∃ i s1 v1 x f o, (i ≤ 3)%nat ∧ iterations device garbage i s = Ok (Next s1) ∧ now s1 = now s + Z.of_nat i ∧
    running s1 = Ok v1 ∧ fetch_execute garbage v1 = Ok x ∧
    (f = flat_machine v F ∨ ∃ b, f = settled b (flat_machine v F)) ∧ processor_step f = Ok o ∧ agrees garbage n v x o.
Proof.
  destruct (instruction_ok garbage n v F Hu Hs Hn Ha H0 H1) as (x & f & o & E & Hf & Eo & Hag).
  destruct (attempts_iterations 3 T s v x Hck Hv) as (i & s1 & v1 & Hi & Ei & Hn1 & _ & Hv1 & Ex); try done; try lia.
  - by eapply user_cpu.
  - intros v' ->. by destruct o.
  - exists i, s1, v1, x, f, o. by split_and!.
Qed.
End Iterations.

(** ** A run

    Thread 1 runs process 3: at 132 its program has LWL of the word at address 0, a
    page away, and then instructions that do nothing.  Thread 2 runs process 5, in
    the latter, and is ready.  The timer is due after the first iteration. *)
Definition demo_registers (pc : Z) : list Z := <[4%nat := 31099]> (<[34%nat := pc]> (<[35%nat := pc + 4]> (replicate 40 0))).
Definition demo_machine : Machine := mkMachine (demo_registers 132) (vm_mmu demo_vm) (λ _, true).
Definition demo_run : VM := set_machine demo_vm demo_machine.

Definition demo_thread (st : Threads.ThreadStatus) (id : Z) : Threads.Thread :=
  Threads.mkThread st 0 true 0 id true [Threads.UserCode] 0 ∅.
Definition demo_kernel : Threads.Kernel :=
  Threads.mkKernel {[1 := demo_thread Threads.RUNNING 3; 2 := demo_thread Threads.READY 5]} [(0, 2)] 1 None ∅ ∅ ∅ ∅ ∅.
Definition demo_kern : Kern unit :=
  mkKern demo_kernel
    {[1 := mkThreadData 3 0 (replicate 40 0); 2 := mkThreadData 5 0 (demo_registers 140)]} demo_run tt.
Definition demo_device (d u : unit) : unit * list (unit * Z * Interrupt.IntType) := (tt, []).
(** At time 100, with the timer at time [T]. *)
Definition demo_state (T : Z) : Interrupt.Sim unit (Kern unit) :=
  Interrupt.mkSim
    (Interrupt.mkInterrupt Interrupt.INT_ON [(T, Interrupt.mkPending Interrupt.TimerHandler T Interrupt.TIMER_INT)]
       false false Interrupt.USER_MODE)
    (Interrupt.mkTicks 100 0 0 100 0) (Some demo_machine) demo_kern.
Definition demo_flat (id : Z) (rg : list Z) : MachineOf Flat := mkMachine rg (pmem demo_garbage demo_run id) (λ _, true).
Definition demo_flats : gmap Z (MachineOf Flat) :=
  {[1 := demo_flat 3 (demo_registers 132); 2 := demo_flat 5 (demo_registers 140)]}.

Lemma demo_run_ok : user_ok demo_garbage demo_run.
Proof.
  split; [|done| |done].
  - exists demo_invalid. apply (vm_inv_registers demo_garbage demo_vm demo_invalid demo_machine demo_vm_inv). reflexivity.
  - exists 0. split; [done|lia].
Qed.

Lemma demo_run_ages n : n ≤ 1000 → ages_ok n (lru demo_run).
Proof. intros. split; [done|cbn; unfold UINT_MAX; lia|]. repeat constructor; done. Qed.

Lemma demo_clock T : 100 < T ≤ 200 → clock Interrupt.USER_MODE T (demo_state T).
Proof.
  intros HT. split; try done; cbn; try lia.
  - repeat constructor.
  - constructor; [|constructor]. change (100 < T < 2 ^ 31). lia.
Qed.

Lemma demo_map_cases {A} (P : Z → A → Prop) (a b : A) : P 1 a → P 2 b →
  ∀ t x, ({[1 := a; 2 := b]} : gmap Z A) !! t = Some x → P t x.
Proof.
  intros Ha Hb t x. destruct (decide (t = 1)) as [->|]; [rewrite lookup_insert_eq; by intros [= <-]|].
  rewrite lookup_insert_ne by done. destruct (decide (t = 2)) as [->|]; [rewrite lookup_singleton_eq; by intros [= <-]|].
  by rewrite lookup_singleton_ne.
Qed.

Lemma demo_registers_ok pc : cpu_ok (demo_registers pc) ∧ demo_registers pc !! 0%nat = Some 0.
Proof. split; [split; [done|]; exists 0; split; [done|lia]|done]. Qed.

Lemma demo_world B : B ≤ 1000 → world demo_garbage B demo_kern demo_machine demo_flats.
Proof.
  intros HB. split; try done.
  - exact demo_run_ok.
  - by apply demo_run_ages.
  - apply (bool_decide_unpack (NoDup [1; 2])). reflexivity.
  - intros t. change (t ∈ [1; 2] ↔ is_Some (demo_flats !! t)). rewrite !elem_of_cons, elem_of_nil. split.
    + intros [->|[->|[]]]; by eexists.
    + intros [f Hf]. revert t f Hf. apply (demo_map_cases (λ t _, t = 1 ∨ t = 2 ∨ False)); auto.
  - apply demo_map_cases.
    + exists (mkThreadData 3 0 (replicate 40 0)). split; try done; [by eexists|].
      destruct (demo_registers_ok 132). by split.
    + exists (mkThreadData 5 0 (demo_registers 140)). split; try done; [by eexists|].
      destruct (demo_registers_ok 140). by split.
  - intros t t' td td' Hin Hin'. change (t ∈ [1; 2]) in Hin. change (t' ∈ [1; 2]) in Hin'.
    apply elem_of_cons in Hin as [->|[->|[]%elem_of_nil]%elem_of_cons];
      apply elem_of_cons in Hin' as [->|[->|[]%elem_of_nil]%elem_of_cons];
      vm_compute; by intros [= <-] [= <-].
Qed.

(** All that the next instruction does, whatever was completed early. *)
Definition completes (r : result (outcomeOf Flat)) (k : MachineOf Flat → bool) : bool :=
  match r with Ok (Completed f) => k f | _ => false end.

Lemma completes_true r k : completes r k = true → ∃ f, r = Ok (Completed f) ∧ k f = true.
Proof. destruct r as [[f|]|]; cbn; try done. intros. by exists f. Qed.

Lemma early_cases (P : MachineOf Flat → Prop) f : P f → P (load_machine f) → (∀ b, P (settled b f)) → ∀ g, early f g → P g.
Proof. intros Hf Hl Hs g [[->| ->]|[b ->]]; auto. Qed.

Definition demo_once (f : MachineOf Flat) : Prop := completes (processor_step f) (λ _, true) = true.
Definition demo_twice (f : MachineOf Flat) : Prop :=
  completes (processor_step f) (λ f1, completes (processor_step f1) (λ _, true)) = true ∧
  completes (processor_step f) (λ f1, completes (processor_step (load_machine f1)) (λ _, true)) = true ∧
  ∀ b, completes (processor_step f) (λ f1, completes (processor_step (settled b f1)) (λ _, true)) = true.

Lemma demo_twice_safe f : demo_twice f → ∃ f1, processor_step f = Ok (Completed f1) ∧ safe 1 f1.
Proof.
  intros (Hf & Hl & Hs). apply completes_true in Hf as (f1 & E & Hf). rewrite E in Hl, Hs. exists f1. split; [done|].
  intros g Hg. assert (H : demo_once g) by (revert g Hg; by apply early_cases).
  apply completes_true in H as (f2 & ? & _). by exists f2.
Qed.

Lemma demo_flats_safe : all_safe 2 demo_flats.
Proof.
  refine (demo_map_cases (λ _ f, cpu_ok (registers f) ∧ safe 2 f) _ _ _ _); (split; [apply demo_registers_ok|]); intros g Hg; apply demo_twice_safe; revert g Hg;
    apply early_cases; [..|intros b| | |intros b]; (split_and!; [| |intros c]; vm_compute; reflexivity).
Qed.

(** The first instruction has a page fault, then thread 1 is preempted. *)
Lemma program_refines_witness : ∃ s' fs' c p, iterations demo_device demo_garbage 2 (demo_state 101) = Ok (Next s') ∧
  flat_system c demo_flats fs' ∧ (c ≤ 2 ≤ 4 * c + 3 * p + 3)%nat.
Proof.
  destruct (program_refines demo_device demo_garbage 200 ltac:(vm_compute; congruence)
    ltac:(intros d x d' n ty H; destruct (not_elem_of_nil _ H)) 2 101 (demo_state 101) demo_flats)
    as (s' & fs' & T' & c & p & E & Hsys & _ & _ & _ & _ & Hc & _).
  - split; [by apply demo_clock|]. exists demo_machine. split; [reflexivity|]. apply demo_world. lia.
  - exact demo_flats_safe.
  - vm_compute. reflexivity.
  - exists s', fs', c, p. split; [exact E|]. split; [exact Hsys|exact Hc].
Defined.

Example demo_preempted : match iteration demo_device demo_garbage (demo_state 101) with
  | Ok (Next s) => (currentThread (kern (Interrupt.kernel s)), now s, fst <$> queue s) = (2, 111, [201])
  | _ => False
  end.
Proof. vm_compute. reflexivity. Qed.

(** Two page faults, then the load. *)
Lemma instruction_refines_witness : ∃ i s1 v1 x f o, (i ≤ 3)%nat ∧
  iterations demo_device demo_garbage i (demo_state 200) = Ok (Next s1) ∧ running s1 = Ok v1 ∧
  fetch_execute demo_garbage v1 = Ok x ∧ processor_step f = Ok o ∧ agrees demo_garbage 0 demo_run x o.
Proof.
  destruct (instruction_refines demo_device demo_garbage 200 ltac:(vm_compute; congruence)
    ltac:(intros d x d' n ty H; destruct (not_elem_of_nil _ H)) 0 200 (demo_state 200) demo_run (vmem demo_garbage demo_run))
    as (i & s1 & v1 & x & f & o & Hi & E & _ & Hv1 & Ex & _ & Eo & Hag).
  - apply demo_clock. lia.
  - reflexivity.
  - vm_compute. reflexivity.
  - vm_compute. reflexivity.
  - exact demo_run_ok.
  - exact (λ a, eq_refl).
  - lia.
  - apply demo_run_ages. lia.
  - destruct (completes_true _ _ (eq_refl : demo_once (demo_flat 3 (demo_registers 132)))) as (f & E & _). by eexists.
  - intros b. destruct (completes_true _ _ (eq_refl : demo_once (settled b (demo_flat 3 (demo_registers 132))))) as (f & E & _).
    by eexists.
  - exists i, s1, v1, x, f, o. split; [exact Hi|]. split; [exact E|]. split; [exact Hv1|]. split; [exact Ex|].
    split; [exact Eo|exact Hag].
Defined.
