(* ===== verification/Console.v ===== *)
(** * [machine/console.cc] and [machine/synch_console.cc]: the console

    The device has a buffer of one character in each direction.  It polls the
    keyboard with an interrupt that reschedules itself, and signals with another
    interrupt that a character was displayed.  [SynchConsole] lets threads wait
    for these interrupts.  Characters are integers in [0, 256); the host's [read]
    and [write] are lists of characters.  As in [Disk], a step relation has every
    interleaving of threads and interrupts. *)

From S2P Require Import Prelude.
From stdpp Require Import base option list numbers tactics relations.
From stdpp Require Import list.
Open Scope Z_scope.

(** ** The device *)

(** [EOF], which is -1, as a [char]. *)
Definition EOF : Z := 255.

Record Console := mkConsole {
  incoming : Z;
  putBusy : bool;
  keyboard : list Z;         (* typed and not yet read from the host *)
  display : list Z;
  numCharsRead : Z;
  numCharsWritten : Z;
  readPolls : nat;           (* scheduled interrupts: [ConsoleReadPoll] *)
  writeDones : nat           (* and [ConsoleWriteDone] *)
}.

Definition new_Console : Console := mkConsole EOF false [] [] 0 0 1 0.

(** [SystemDep::PollFile] and [SystemDep::Read] on a terminal. *)
Definition PollFile (c : Console) : bool := negb (bool_decide (keyboard c = [])).
Definition host_Read (c : Console) : result (Z * list Z) :=
  match keyboard c with ch :: rest => Ok (ch, rest) | [] => Err AssertFail end.

(** Returns whether [readHandler] is called. *)
Definition CheckCharAvail (c : Console) : result (bool * Console) :=
  let c := mkConsole (incoming c) (putBusy c) (keyboard c) (display c) (numCharsRead c)
             (numCharsWritten c) (S (readPolls c)) (writeDones c) in
  if bool_decide (incoming c ≠ EOF) || negb (PollFile c) then Ok (false, c)
  else
    r ← host_Read c;
    Ok (true, mkConsole r.1 (putBusy c) r.2 (display c) (numCharsRead c + 1) (numCharsWritten c)
                (readPolls c) (writeDones c)).

(** [writeHandler] is always called. *)
Definition WriteDone (c : Console) : Console :=
  mkConsole (incoming c) false (keyboard c) (display c) (numCharsRead c) (numCharsWritten c + 1)
    (readPolls c) (writeDones c).

Definition GetChar (c : Console) : Z * Console :=
  (incoming c, mkConsole EOF (putBusy c) (keyboard c) (display c) (numCharsRead c)
     (numCharsWritten c) (readPolls c) (writeDones c)).

Definition PutChar (c : Console) (ch : Z) : result Console :=
  _ ← ASSERT (negb (putBusy c));
  Ok (mkConsole (incoming c) true (keyboard c) (display c ++ [ch]) (numCharsRead c)
        (numCharsWritten c) (readPolls c) (S (writeDones c))).

(** An interrupt is taken from the queue. *)
Definition take_poll (c : Console) : Console :=
  mkConsole (incoming c) (putBusy c) (keyboard c) (display c) (numCharsRead c) (numCharsWritten c)
    (pred (readPolls c)) (writeDones c).
Definition take_done (c : Console) : Console :=
  mkConsole (incoming c) (putBusy c) (keyboard c) (display c) (numCharsRead c) (numCharsWritten c)
    (readPolls c) (pred (writeDones c)).

(** ** The synchronous console *)

(** Where a thread is in [ReadConsole] or [WriteConsole]. *)
Inductive phase :=
| Outside
| ReadLock                    (* [lockRead->Acquire()] *)
| ReadWait                    (* [readAvail->P()] *)
| ReadGet                     (* [console->GetChar()] *)
| ReadUnlock (character : Z)  (* [lockRead->Release()] and [return] *)
| WriteLock (ch : Z)          (* [lockWrite->Acquire()] *)
| WritePut (ch : Z)           (* [console->PutChar(ch)] *)
| WriteWait                   (* [writeDone->P()] *)
| WriteUnlock.                (* [lockWrite->Release()] *)

Record SynchConsole := mkSynchConsole {
  console : Console;
  readAvail : Z;              (* the values of the semaphores *)
  writeDone : Z;
  lockRead : option nat;      (* the owners of the locks *)
  lockWrite : option nat;
  at_phase : nat → phase;
  typed : list Z;             (* all that was typed and all that was read, *)
  got : list Z                (* only for the proofs *)
}.

Definition new_SynchConsole : SynchConsole :=
  mkSynchConsole new_Console 0 0 None None (λ _, Outside) [] [].

Definition ReadAvailSynch (x : SynchConsole) : SynchConsole :=
  mkSynchConsole (console x) (readAvail x + 1) (writeDone x) (lockRead x) (lockWrite x) (at_phase x) (typed x) (got x).
Definition WriteDoneSynch (x : SynchConsole) : SynchConsole :=
  mkSynchConsole (console x) (readAvail x) (writeDone x + 1) (lockRead x) (lockWrite x) (at_phase x) (typed x) (got x).
Definition set_console (x : SynchConsole) (c : Console) : SynchConsole :=
  mkSynchConsole c (readAvail x) (writeDone x) (lockRead x) (lockWrite x) (at_phase x) (typed x) (got x).
Definition goto (x : SynchConsole) (t : nat) (p : phase) : SynchConsole :=
  mkSynchConsole (console x) (readAvail x) (writeDone x) (lockRead x) (lockWrite x)
    (λ u, if decide (u = t) then p else at_phase x u) (typed x) (got x).

(** The next statement of the thread; [None]: it waits. *)
Definition ReadConsole (x : SynchConsole) (t : nat) : result (option SynchConsole) :=
  match at_phase x t with
  | ReadLock =>
      match lockRead x with
      | None => Ok (Some (goto (mkSynchConsole (console x) (readAvail x) (writeDone x) (Some t) (lockWrite x)
                                  (at_phase x) (typed x) (got x)) t ReadWait))
      | Some _ => Ok None
      end
  | ReadWait =>
      if bool_decide (readAvail x = 0) then Ok None
      else Ok (Some (goto (mkSynchConsole (console x) (readAvail x - 1) (writeDone x) (lockRead x) (lockWrite x)
                             (at_phase x) (typed x) (got x)) t ReadGet))
  | ReadGet =>
      let '(character, c) := GetChar (console x) in
      Ok (Some (goto (mkSynchConsole c (readAvail x) (writeDone x) (lockRead x) (lockWrite x)
                        (at_phase x) (typed x) (got x ++ [character])) t (ReadUnlock character)))
  | ReadUnlock _ =>
      Ok (Some (goto (mkSynchConsole (console x) (readAvail x) (writeDone x) None (lockWrite x)
                        (at_phase x) (typed x) (got x)) t Outside))
  | _ => Ok None
  end.

Definition WriteConsole (x : SynchConsole) (t : nat) : result (option SynchConsole) :=
  match at_phase x t with
  | WriteLock ch =>
      match lockWrite x with
      | None => Ok (Some (goto (mkSynchConsole (console x) (readAvail x) (writeDone x) (lockRead x) (Some t)
                                  (at_phase x) (typed x) (got x)) t (WritePut ch)))
      | Some _ => Ok None
      end
  | WritePut ch => c ← PutChar (console x) ch; Ok (Some (goto (set_console x c) t WriteWait))
  | WriteWait =>
      if bool_decide (writeDone x = 0) then Ok None
      else Ok (Some (goto (mkSynchConsole (console x) (readAvail x) (writeDone x - 1) (lockRead x) (lockWrite x)
                             (at_phase x) (typed x) (got x)) t WriteUnlock))
  | WriteUnlock =>
      Ok (Some (goto (mkSynchConsole (console x) (readAvail x) (writeDone x) (lockRead x) None
                        (at_phase x) (typed x) (got x)) t Outside))
  | _ => Ok None
  end.

(** The handlers of the two interrupts. *)
Definition poll_interrupt (x : SynchConsole) : result SynchConsole :=
  r ← CheckCharAvail (take_poll (console x));
  let '(called, c) := r in
  Ok (if called : bool then ReadAvailSynch (set_console x c) else set_console x c).
Definition done_interrupt (x : SynchConsole) : SynchConsole :=
  WriteDoneSynch (set_console x (WriteDone (take_done (console x)))).

(** Characters arrive from the keyboard. *)
Definition type_keys (x : SynchConsole) (chars : list Z) : SynchConsole :=
  let c := console x in
  mkSynchConsole (mkConsole (incoming c) (putBusy c) (keyboard c ++ chars) (display c) (numCharsRead c)
                    (numCharsWritten c) (readPolls c) (writeDones c))
    (readAvail x) (writeDone x) (lockRead x) (lockWrite x) (at_phase x) (typed x ++ chars) (got x).

Inductive device_step : SynchConsole → SynchConsole → Prop :=
| step_poll x y : (0 < readPolls (console x))%nat → poll_interrupt x = Ok y → device_step x y
| step_done x : (0 < writeDones (console x))%nat → device_step x (done_interrupt x).

Inductive console_step : SynchConsole → SynchConsole → Prop :=
| step_device x y : device_step x y → console_step x y
| step_type x chars : console_step x (type_keys x chars)
| step_call_read x (t : nat) : at_phase x t = Outside → console_step x (goto x t ReadLock)
| step_call_write x (t : nat) ch : at_phase x t = Outside → console_step x (goto x t (WriteLock ch))
| step_read x t y : ReadConsole x t = Ok (Some y) → console_step x y
| step_write x t y : WriteConsole x t = Ok (Some y) → console_step x y.

Definition reading (p : phase) : bool :=
  match p with ReadWait | ReadGet | ReadUnlock _ => true | _ => false end.
Definition writing (p : phase) : bool :=
  match p with WritePut _ | WriteWait | WriteUnlock => true | _ => false end.

(** ** Invariant *)

(** The character that was read and not yet taken. *)
Definition buffered (c : Console) : list Z := if decide (incoming c = EOF) then [] else [incoming c].

(** Is some thread about to take the character? *)
Definition taking (x : SynchConsole) : Prop := ∃ t, at_phase x t = ReadGet.

Record read_inv (x : SynchConsole) : Prop := {
  ri_lock t : reading (at_phase x t) = true ↔ lockRead x = Some t;
  ri_avail : EOF ∉ typed x →
    readAvail x = 0 ∧ (buffered (console x) = [] ∧ ¬ taking x ∨ buffered (console x) ≠ [] ∧ taking x) ∨
    readAvail x = 1 ∧ buffered (console x) ≠ [] ∧ ¬ taking x;
  ri_polls : readPolls (console x) = 1%nat;
  ri_order : EOF ∉ typed x → typed x = got x ++ buffered (console x) ++ keyboard (console x);
  ri_got t c : at_phase x t = ReadUnlock c → last (got x) = Some c
}.

Record write_inv (x : SynchConsole) : Prop := {
  wi_lock t : writing (at_phase x t) = true ↔ lockWrite x = Some t;
  wi_busy : if putBusy (console x) then (∃ t, at_phase x t = WriteWait) ∧ writeDones (console x) = 1%nat ∧ writeDone x = 0
    else writeDones (console x) = 0%nat ∧
      (writeDone x = 0 ∧ (∀ t, at_phase x t ≠ WriteWait) ∨ writeDone x = 1 ∧ ∃ t, at_phase x t = WriteWait)
}.

Lemma goto_eq x t p : at_phase (goto x t p) t = p.
Proof. cbn. by rewrite decide_True. Qed.
Lemma goto_ne x t p u : u ≠ t → at_phase (goto x t p) u = at_phase x u.
Proof. intros. cbn. by rewrite decide_False. Qed.

Lemma new_SynchConsole_inv : read_inv new_SynchConsole ∧ write_inv new_SynchConsole.
Proof.
  split; split; cbn; try done.
  - intros _. left. split; [done|]. left. split; [done|]. by intros [t Ht].
  - split; [done|]. by left.
Qed.

(** A thread that is not on this side of the console moves to a phase that is
    not, either. *)
Lemma read_inv_frame x y t : read_inv x → reading (at_phase x t) = false → reading (at_phase y t) = false →
  (∀ u, u ≠ t → at_phase y u = at_phase x u) → lockRead y = lockRead x → readAvail y = readAvail x →
  typed y = typed x → got y = got x → buffered (console y) = buffered (console x) →
  keyboard (console y) = keyboard (console x) → readPolls (console y) = readPolls (console x) → read_inv y.
Proof.
  intros [Hl Ha Hp Ho Hg] Hx Hy Hu El Ea Et Eg Eb Ek Ep.
  assert (Hph : ∀ u p, reading p = true → at_phase y u = p ↔ at_phase x u = p).
  { intros u p Hr. destruct (decide (u = t)) as [->|]; [|by rewrite Hu].
    split; intros E; rewrite E in *; congruence. }
  assert (Htk : taking y ↔ taking x) by (unfold taking; by setoid_rewrite (λ u, Hph u ReadGet eq_refl)).
  split.
  - intros u. rewrite El, <-Hl. destruct (decide (u = t)) as [->|]; [|by rewrite Hu]. by rewrite Hx, Hy.
  - by rewrite Et, Ea, Eb, Htk.
  - by rewrite Ep.
  - by rewrite Et, Eg, Eb, Ek.
  - intros u c. rewrite (Hph u (ReadUnlock c) eq_refl), Eg. apply Hg.
Qed.

Lemma write_inv_frame x y t : write_inv x → writing (at_phase x t) = false → writing (at_phase y t) = false →
  (∀ u, u ≠ t → at_phase y u = at_phase x u) → lockWrite y = lockWrite x → writeDone y = writeDone x →
  putBusy (console y) = putBusy (console x) → writeDones (console y) = writeDones (console x) → write_inv y.
Proof.
  intros [Hl Hb] Hx Hy Hu El Ew Eb Ed.
  assert (Hph : ∀ u, at_phase y u = WriteWait ↔ at_phase x u = WriteWait).
  { intros u. destruct (decide (u = t)) as [->|]; [|by rewrite Hu].
    split; intros E; rewrite E in *; cbn in *; congruence. }
  split.
  - intros u. rewrite El, <-Hl. destruct (decide (u = t)) as [->|]; [|by rewrite Hu]. by rewrite Hx, Hy.
  - rewrite Eb, Ed, Ew. destruct (putBusy (console x)); by setoid_rewrite Hph.
Qed.

(** *** Interrupts and the keyboard *)
Lemma poll_ok x : read_inv x → ∃ y, poll_interrupt x = Ok y ∧ read_inv y ∧ (write_inv x → write_inv y) ∧
  typed y = typed x ∧ (∀ u, at_phase y u = at_phase x u) ∧ lockRead y = lockRead x ∧
  (buffered (console x) ++ keyboard (console x) ≠ [] → EOF ∉ typed x → ¬ taking x → readAvail y = 1).
Proof.
  intros [Hl Ha Hp Ho Hg]. unfold poll_interrupt, CheckCharAvail, PollFile, host_Read.
  cbn [incoming keyboard take_poll readPolls]. rewrite Hp. cbn [pred].
  destruct (bool_decide (incoming (console x) ≠ EOF) || negb (negb (bool_decide (keyboard (console x) = [])))) eqn:Eb.
  - eexists. cbn [mbind result_bind]. split; [done|]. cbn. split_and!; try done; [by intros []|].
    intros Hne Hu Ht. destruct (Ha Hu) as [[_ [[Hb _]|[_ ?]]]|[? _]]; [|done|done]. exfalso.
    rewrite Hb in Hne. unfold buffered in Hb. apply orb_true_iff in Eb as [Eb|Eb].
    + apply bool_decide_eq_true in Eb. case_decide; [done|done].
    + rewrite negb_involutive in Eb. apply bool_decide_eq_true in Eb. by rewrite Eb in Hne.
  - apply orb_false_iff in Eb as [E1 E2]. rewrite negb_involutive in E2.
    apply bool_decide_eq_false in E1. apply dec_stable in E1. apply bool_decide_eq_false in E2.
    destruct (keyboard (console x)) as [|ch kb] eqn:Ek; [done|].
    eexists. cbn [mbind result_bind]. split; [done|]. cbn.
    assert (Hb0 : buffered (console x) = []) by (unfold buffered; by rewrite decide_True).
    assert (H1 : EOF ∉ typed x → readAvail x = 0 ∧ ¬ taking x).
    { intros Hu. by destruct (Ha Hu) as [[? [[_ ?]|[? _]]]|(_ & ? & _)]. }
    assert (H2 : EOF ∉ typed x → ch ≠ EOF).
    { intros Hu ->. pose proof (Ho Hu) as E. apply Hu. rewrite E. set_solver. }
    split_and!; try done; [|by intros []|].
    + split; cbn; try done.
      * intros Hu. destruct (H1 Hu) as [-> Ht]. right. split; [done|]. split; [|done].
        unfold buffered. cbn. by rewrite decide_False by auto.
      * intros Hu. rewrite (Ho Hu) at 1. rewrite Hb0. unfold buffered. cbn. by rewrite decide_False by auto.
    + intros _ Hu _. destruct (H1 Hu) as [-> _]. done.
Qed.

Lemma done_ok x : write_inv x → (0 < writeDones (console x))%nat →
  write_inv (done_interrupt x) ∧ (read_inv x → read_inv (done_interrupt x)) ∧ writeDone (done_interrupt x) = 1.
Proof.
  intros [Hl Hb] Hd. destruct (putBusy (console x)).
  - destruct Hb as (Hw & Hn & H0). split_and!; [|by intros []|cbn; by rewrite H0].
    split; [done|]. cbn. rewrite Hn, H0. split; [done|]. by right.
  - destruct Hb as [Hb _]. lia.
Qed.

Lemma type_ok x chars : read_inv x → read_inv (type_keys x chars).
Proof.
  intros [Hl Ha Hp Ho Hg]. split; cbn; try done.
  - intros Hu. apply Ha. set_solver.
  - intros Hu. rewrite Ho by set_solver. by rewrite <-!app_assoc.
Qed.

(** *** Statements of threads *)

(** A step on one side of the console does not matter to the other side. *)
Lemma write_goto x x' t p : write_inv x → writing (at_phase x t) = false → writing p = false →
  at_phase x' = at_phase x → lockWrite x' = lockWrite x → writeDone x' = writeDone x →
  putBusy (console x') = putBusy (console x) → writeDones (console x') = writeDones (console x) →
  write_inv (goto x' t p).
Proof.
  intros HW Hx Hp E1 E2 E3 E4 E5. apply (write_inv_frame x _ t); try done; [by rewrite goto_eq|].
  intros u Hu. by rewrite goto_ne, E1.
Qed.

Lemma read_goto x x' t p : read_inv x → reading (at_phase x t) = false → reading p = false →
  at_phase x' = at_phase x → lockRead x' = lockRead x → readAvail x' = readAvail x → typed x' = typed x →
  got x' = got x → buffered (console x') = buffered (console x) → keyboard (console x') = keyboard (console x) →
  readPolls (console x') = readPolls (console x) → read_inv (goto x' t p).
Proof.
  intros HR Hx Hp E1 E2 E3 E4 E5 E6 E7 E8. apply (read_inv_frame x _ t); try done; [by rewrite goto_eq|].
  intros u Hu. by rewrite goto_ne, E1.
Qed.

Lemma lock_goto (f : phase → bool) (ph : nat → phase) t p o o' : (∀ u, f (ph u) = true ↔ o = Some u) →
  (o = Some t ∨ o = None) → o' = (if f p then Some t else None) →
  ∀ u, f (if decide (u = t) then p else ph u) = true ↔ o' = Some u.
Proof.
  intros Hl Ht -> u. pose proof (Hl u). pose proof (Hl t). case_decide; [subst; by destruct (f p)|].
  destruct (f p); naive_solver.
Qed.

Lemma taking_goto x x' t p : at_phase x' = at_phase x → at_phase x t ≠ ReadGet → p ≠ ReadGet →
  taking (goto x' t p) ↔ taking x.
Proof.
  intros E Hx Hp. unfold taking. cbn. rewrite E.
  split; intros [u Hu]; exists u; revert Hu; case_decide; subst; congruence.
Qed.

Lemma ReadConsole_inv x t y : read_inv x → write_inv x → ReadConsole x t = Ok (Some y) →
  read_inv y ∧ write_inv y ∧ typed y = typed x.
Proof.
  intros [Hl Ha Hp Ho Hg] HW H. unfold ReadConsole in H. pose proof (Hl t) as Hlt.
  destruct (at_phase x t) as [| | | |c| | | |] eqn:Ep; try done.
  - destruct (lockRead x) as [o|] eqn:El; [done|]. injection H as <-.
    split_and!; [|by apply (write_goto x); rewrite ?Ep|done]. split; try done.
    + by apply (lock_goto reading _ t _ None); [| right|].
    + rewrite (taking_goto x) by (done || by rewrite Ep). exact Ha.
    + intros u c. cbn. case_decide; [done|apply Hg].
  - case_bool_decide as Ev; [done|]. injection H as <-.
    split_and!; [|by apply (write_goto x); rewrite ?Ep|done]. split; try done.
    + apply (lock_goto reading _ t _ (lockRead x)); [done|left; by apply Hlt|by apply Hlt].
    + intros Hu. destruct (Ha Hu) as [[? _]|(Ev1 & Hb & _)]; [done|]. left. cbn. rewrite Ev1. split; [done|]. right.
      split; [done|]. exists t. apply goto_eq.
    + intros u c. cbn. case_decide; [done|apply Hg].
  - injection H as <-. assert (Ht : taking x) by by exists t. assert (El : lockRead x = Some t) by by apply Hlt.
    split_and!; [|by apply (write_goto x); rewrite ?Ep|done]. split; try done.
    + by apply (lock_goto reading _ t _ (lockRead x)); [|left|].
    + intros Hu. destruct (Ha Hu) as [[Ev _]|(_ & _ & ?)]; [|done]. left. split; [done|]. left.
      split; [done|]. intros [u Hu']. revert Hu'. cbn. case_decide as E; [done|]. intros Hu'.
      assert (lockRead x = Some u) by (apply Hl; by rewrite Hu'). congruence.
    + intros Hu. destruct (Ha Hu) as [[_ [[_ ?]|[Hb _]]]|(_ & _ & ?)]; [done| |done]. cbn in *.
      rewrite (Ho Hu) at 1. rewrite <-app_assoc. f_equal. unfold buffered in *. cbn. by case_decide.
    + intros u c. cbn. case_decide as E; [intros [= <-]; apply last_snoc|]. intros Hu.
      assert (lockRead x = Some u) by (apply Hl; by rewrite Hu). congruence.
  - injection H as <-.
    split_and!; [|by apply (write_goto x); rewrite ?Ep|done]. split; try done.
    + by apply (lock_goto reading _ t _ (lockRead x)); [|left; apply Hlt|].
    + rewrite (taking_goto x) by (done || by rewrite Ep). exact Ha.
    + intros u c'. cbn. case_decide; [done|apply Hg].
Qed.

(** [PutChar] does not fail, and the other statements never do. *)
Lemma WriteConsole_inv x t : read_inv x → write_inv x →
  WriteConsole x t = Ok None ∨
  ∃ y, WriteConsole x t = Ok (Some y) ∧ read_inv y ∧ write_inv y ∧ typed y = typed x.
Proof.
  intros HR [Hl Hb]. unfold WriteConsole. pose proof (Hl t) as Hlt.
  assert (Hmine : ∀ u, lockWrite x = Some t → at_phase x u = WriteWait → u = t).
  { intros u E Hu. assert (lockWrite x = Some u) by (apply Hl; by rewrite Hu). congruence. }
  destruct (at_phase x t) as [| | | |c|ch|ch| |] eqn:Ep; try by left.
  - destruct (lockWrite x) as [o|] eqn:El; [by left|]. right. eexists. split; [done|].
    split_and!; [by apply (read_goto x); rewrite ?Ep| |done]. split; [by apply (lock_goto writing _ t _ None); [|right|]|]. cbn.
    destruct (putBusy (console x)).
    + destruct Hb as [[u Hu] _]. assert (None = Some u) by (apply Hl; by rewrite Hu). done.
    + destruct Hb as [? [[? Hn]|[? [u Hu]]]].
      * split; [done|]. left. split; [done|]. intros u. case_decide; [done|apply Hn].
      * assert (None = Some u) by (apply Hl; by rewrite Hu). done.
  - right. assert (El : lockWrite x = Some t) by by apply Hlt. unfold PutChar.
    assert (Hn : putBusy (console x) = false ∧ writeDones (console x) = O ∧ writeDone x = 0).
    { destruct (putBusy (console x)).
      - destruct Hb as [[u Hu] _]. pose proof (Hmine u El Hu). congruence.
      - destruct Hb as [? [[? _]|[_ [u Hu]]]]; [done|]. pose proof (Hmine u El Hu). congruence. }
    destruct Hn as (-> & Hd & H0). cbn [negb ASSERT mbind result_bind]. eexists. split; [done|].
    split_and!; [by apply (read_goto x); rewrite ?Ep| |done]. split; [by apply (lock_goto writing _ t _ (lockWrite x)); [|left|]|]. cbn.
    split_and!; [exists t; by rewrite decide_True|by rewrite Hd|done].
  - case_bool_decide as Ev; [by left|]. right. assert (El : lockWrite x = Some t) by by apply Hlt.
    eexists. split; [done|]. split_and!; [by apply (read_goto x); rewrite ?Ep| |done].
    split; [by apply (lock_goto writing _ t _ (lockWrite x)); [|left|]|]. cbn. destruct (putBusy (console x)).
    + by destruct Hb as (_ & _ & ?).
    + destruct Hb as [? [[? _]|[-> _]]]; [done|]. split; [done|]. left. split; [done|]. intros u.
      case_decide; [done|]. intros Hu. by pose proof (Hmine u El Hu).
  - right. assert (El : lockWrite x = Some t) by by apply Hlt. eexists. split; [done|].
    split_and!; [by apply (read_goto x); rewrite ?Ep| |done]. split; [by apply (lock_goto writing _ t _ (lockWrite x)); [|left|]|]. cbn.
    destruct (putBusy (console x)).
    + destruct Hb as [[u Hu] _]. pose proof (Hmine u El Hu). congruence.
    + destruct Hb as [? [[? Hn]|[? [u Hu]]]].
      * split; [done|]. left. split; [done|]. intros u. case_decide; [done|apply Hn].
      * pose proof (Hmine u El Hu). congruence.
Qed.

Lemma ReadConsole_total x t : ∃ o, ReadConsole x t = Ok o.
Proof. unfold ReadConsole, GetChar. destruct (at_phase x t); eauto; [destruct (lockRead x)|case_bool_decide]; eauto. Qed.

Definition console_inv (x : SynchConsole) : Prop := read_inv x ∧ write_inv x.

Lemma console_step_inv x y : console_inv x → console_step x y → console_inv y.
Proof.
  intros [HR HW] H. destruct H as [x y H|x cs|x t Ht|x t ch Ht|x t y H|x t y H].
  - destruct H as [x y Hp H|x Hd].
    + destruct (poll_ok x HR) as (y' & E & ? & Hw & _). rewrite E in H. injection H as ->. split; [done|by apply Hw].
    + destruct (done_ok x HW Hd) as (? & Hr & _). split; [by apply Hr|done].
  - split; [by apply type_ok|by destruct HW].
  - split; [apply (read_goto x)|apply (write_goto x)]; by rewrite ?Ht.
  - split; [apply (read_goto x)|apply (write_goto x)]; by rewrite ?Ht.
  - by destruct (ReadConsole_inv x t y HR HW H) as (? & ? & _).
  - destruct (WriteConsole_inv x t HR HW) as [E|(y' & E & ? & ? & _)]; rewrite E in H; [done|].
    by injection H as <-.
Qed.

Definition console_reachable (x : SynchConsole) : Prop := rtc console_step new_SynchConsole x.

Lemma console_reachable_inv x : console_reachable x → console_inv x.
Proof.
  unfold console_reachable. apply (rtc_ind_r console_inv); [apply new_SynchConsole_inv|].
  intros y z _ Hs Hi. by eapply console_step_inv.
Qed.

(** ** Theorems *)

(** C27: The console keeps the order of characters and loses none.  In every
    reachable state, whatever threads call and however interrupts interleave,
    no assertion fails ([PutChar] is never called on a busy display, the host is
    only read when a character is there), at most one thread reads and at most
    one writes; and, if the character 255 was never typed, the characters that
    threads took, the one in the buffer and those on the keyboard are those that
    were typed, in this order, and [ReadConsole] returns the last one taken. *)
Theorem console_in_order x (Hx : console_reachable x) :
  (∀ t, (∃ o, ReadConsole x t = Ok o) ∧ ∃ o, WriteConsole x t = Ok o) ∧ (∃ y, poll_interrupt x = Ok y) ∧
  (∀ t u, reading (at_phase x t) = true → reading (at_phase x u) = true → t = u) ∧
  (∀ t u, writing (at_phase x t) = true → writing (at_phase x u) = true → t = u) ∧
  (∀ t c, at_phase x t = ReadUnlock c → last (got x) = Some c) ∧
  (EOF ∉ typed x → typed x = got x ++ buffered (console x) ++ keyboard (console x)).
Proof.
  destruct (console_reachable_inv x Hx) as [HR HW]. split_and!.
  - intros t. split; [apply ReadConsole_total|].
    destruct (WriteConsole_inv x t HR HW) as [?|(y & ? & _)]; eauto.
  - destruct (poll_ok x HR) as (y & ? & _). by exists y.
  - intros t u ?%(ri_lock x HR) ?%(ri_lock x HR). congruence.
  - intros t u ?%(wi_lock x HW) ?%(wi_lock x HW). congruence.
  - apply (ri_got x HR).
  - apply (ri_order x HR).
Qed.

(** C28: Nobody waits for ever at the console while the device works.  In every
    reachable state interrupts alone bring the thread that waits for a character
    to where it can go on, if one was typed that nobody took; and the thread
    that waits for its character to be displayed. *)
Theorem console_progress x t (Hx : console_reachable x) :
  (at_phase x t = ReadWait → EOF ∉ typed x → got x ≠ typed x →
    ∃ y z, rtc device_step x y ∧ ReadConsole y t = Ok (Some z) ∧ at_phase z t = ReadGet) ∧
  (at_phase x t = WriteWait →
    ∃ y z, rtc device_step x y ∧ WriteConsole y t = Ok (Some z) ∧ at_phase z t = WriteUnlock).
Proof.
  destruct (console_reachable_inv x Hx) as [HR HW]. split.
  - intros Ht Hu Hg. assert (Hl : lockRead x = Some t) by (apply (ri_lock x HR); by rewrite Ht).
    assert (Hnt : ¬ taking x).
    { intros [u Hu']. assert (lockRead x = Some u) by (apply (ri_lock x HR); by rewrite Hu'). congruence. }
    destruct (poll_ok x HR) as (y & E & HRy & _ & _ & Hph & _ & Hav). exists y. eexists. split; [|split].
    + apply rtc_once, step_poll; [rewrite (ri_polls x HR); lia|done].
    + unfold ReadConsole. rewrite Hph, Ht, Hav, bool_decide_false by (done || by intros E2; apply Hg;
        rewrite (ri_order x HR Hu), E2, app_nil_r). done.
    + apply goto_eq.
  - intros Ht. destruct (wi_lock x HW t) as [Hl _]. pose proof (wi_busy x HW) as Hb.
    destruct (putBusy (console x)).
    + destruct Hb as (_ & Hd & _). destruct (done_ok x HW) as (_ & _ & H1); [lia|].
      exists (done_interrupt x). eexists. split; [|split].
      * apply rtc_once, step_done. lia.
      * unfold WriteConsole. change (at_phase (done_interrupt x) t) with (at_phase x t). rewrite Ht, H1. done.
      * apply goto_eq.
    + destruct Hb as [_ [[_ Hn]|[H1 _]]]; [by destruct (Hn t)|]. exists x. eexists. split; [done|].
      unfold WriteConsole. rewrite Ht, H1. split; [done|apply goto_eq].
Qed.

(** ** Runs *)

(** Execution of given steps, for examples. *)
Inductive move := MType (chars : list Z) | MPoll | MDone | MRead (t : nat) | MCallRead (t : nat) | MCallWrite (t : nat) (ch : Z) | MWrite (t : nat).
Definition is_outside (p : phase) : bool := match p with Outside => true | _ => false end.
Definition move_step (x : SynchConsole) (m : move) : option SynchConsole :=
  match m with
  | MType chars => Some (type_keys x chars)
  | MPoll => if bool_decide (0 < readPolls (console x))%nat
             then match poll_interrupt x with Ok y => Some y | Err _ => None end else None
  | MDone => if bool_decide (0 < writeDones (console x))%nat then Some (done_interrupt x) else None
  | MCallRead t => if is_outside (at_phase x t) then Some (goto x t ReadLock) else None
  | MCallWrite t ch => if is_outside (at_phase x t) then Some (goto x t (WriteLock ch)) else None
  | MRead t => match ReadConsole x t with Ok o => o | Err _ => None end
  | MWrite t => match WriteConsole x t with Ok o => o | Err _ => None end
  end.
Fixpoint moves (x : SynchConsole) (l : list move) : option SynchConsole :=
  match l with [] => Some x | m :: l => match move_step x m with Some y => moves y l | None => None end end.

Lemma move_step_ok x m y : move_step x m = Some y → console_step x y.
Proof.
  destruct m as [cs| | |t|t|t ch|t]; cbn; intros H.
  - injection H as <-. apply step_type.
  - case_bool_decide; [|done]. destruct (poll_interrupt x) eqn:E; [|done]. injection H as <-. by apply step_device, step_poll.
  - case_bool_decide; [|done]. injection H as <-. by apply step_device, step_done.
  - destruct (ReadConsole x t) eqn:E; [|done]. subst. by eapply step_read.
  - destruct (at_phase x t) eqn:E; try done. injection H as <-. by apply step_call_read.
  - destruct (at_phase x t) eqn:E; try done. injection H as <-. by apply step_call_write.
  - destruct (WriteConsole x t) eqn:E; [|done]. subst. by eapply step_write.
Qed.

Lemma moves_reachable l y : moves new_SynchConsole l = Some y → console_reachable y.
Proof.
  unfold console_reachable. generalize new_SynchConsole as x. induction l as [|m l IH]; cbn; intros x H; [by injection H as <-|].
  destruct (move_step x m) as [x1|] eqn:E; [|done]. apply move_step_ok in E. eapply rtc_l; [exact E|by apply IH].
Qed.

(** "hi" is typed; thread 1 takes the 'h' and writes it while thread 2 waits. *)
Definition demo_moves : list move :=
  [MType [104; 105]; MCallRead 1; MRead 1; MCallRead 2; MPoll; MRead 1; MRead 1; MRead 1; MRead 2;
   MCallWrite 1 104; MWrite 1; MWrite 1].
Definition demo_console : SynchConsole :=
  match moves new_SynchConsole demo_moves with Some x => x | None => new_SynchConsole end.
Lemma demo_console_reachable : console_reachable demo_console.
Proof.
  unfold demo_console. destruct (moves new_SynchConsole demo_moves) as [x|] eqn:E; [by eapply moves_reachable|].
  assert (H : match moves new_SynchConsole demo_moves with Some _ => true | None => false end = true) by (vm_compute; reflexivity).
  by rewrite E in H.
Qed.

Lemma console_in_order_witness : typed demo_console = [104] ++ [] ++ [105] ∧ display (console demo_console) = [104].
Proof.
  split; [|vm_compute; reflexivity].
  refine (proj2 (proj2 (proj2 (proj2 (proj2 (console_in_order demo_console demo_console_reachable))))) _).
  apply (bool_decide_unpack _). vm_compute. exact I.
Defined.

Lemma console_progress_witness :
  (∃ y z, rtc device_step demo_console y ∧ ReadConsole y 2 = Ok (Some z) ∧ at_phase z 2%nat = ReadGet) ∧
  (∃ y z, rtc device_step demo_console y ∧ WriteConsole y 1 = Ok (Some z) ∧ at_phase z 1%nat = WriteUnlock).
Proof.
  split.
  - apply (proj1 (console_progress demo_console 2 demo_console_reachable)); [vm_compute; reflexivity| |vm_compute; discriminate].
    apply (bool_decide_unpack _). vm_compute. exact I.
  - apply (proj2 (console_progress demo_console 1 demo_console_reachable)). vm_compute. reflexivity.
Defined.

(** The character 255 is taken for an empty buffer: the next poll reads over it,
    and two signals are given for one character. *)
Definition eof_moves : list move :=
  [MType [255; 97]; MPoll; MPoll; MCallRead 1; MRead 1; MRead 1; MRead 1; MRead 1; MCallRead 1; MRead 1; MRead 1; MRead 1].
Example character_255_lost : got <$> moves new_SynchConsole eof_moves = Some [97; 255].
Proof. vm_compute. reflexivity. Qed.
