(* ===== verification/Network.v ===== *)
(** * [machine/network.cc]: the network device

    A machine has a socket, here the queue of the datagrams that wait in it.  The
    device buffers one packet, polls the socket with an interrupt that
    reschedules itself, and signals with another interrupt that a packet was
    sent.  A packet is [MAX_WIRE_SIZE] bytes: its header, the payload, padding.
    Sockets of the host are reliable and keep the order of packets; [Send] itself
    drops packets, with a random number of the host ([random]).  [chanceToWork] is
    a rational number. *)

From Stdlib Require Import QArith.
From S2P Require Import Prelude.
From stdpp Require Import base option list numbers tactics.
From stdpp Require Import list.
Open Scope Z_scope.

(** ** Packets *)

Record PacketHeader := mkPacketHeader { packet_to : Z; packet_from : Z; packet_length : Z }.

Definition PACKET_HEADER_SIZE : Z := 12.
Definition MAX_WIRE_SIZE : Z := 64.
Definition MAX_PACKET_SIZE : Z := MAX_WIRE_SIZE - PACKET_HEADER_SIZE.

(** A record of two [int]s and an [unsigned] as bytes, and back. *)
Definition header_bytes (a b len : Z) : list Z := words_bytes [u32 a; u32 b; u32 len].
Definition header_words (bs : list Z) : Z * Z * Z :=
  match bytes_words 3 bs with [a; b; len] => (s32 a, s32 b, len) | _ => (0, 0, 0) end.

Definition packet_bytes (h : PacketHeader) : list Z := header_bytes (packet_to h) (packet_from h) (packet_length h).
Definition packet_of_bytes (bs : list Z) : PacketHeader :=
  let '(a, b, len) := header_words bs in mkPacketHeader a b len.

Lemma three_words_length a b len : length (header_bytes a b len) = 12%nat.
Proof. unfold header_bytes. by rewrite words_bytes_length. Qed.

Lemma header_words_bytes a b len rest : is_s32 a → is_s32 b → is_u32 len →
  header_words (header_bytes a b len ++ rest) = (a, b, len).
Proof.
  intros Ha Hb Hl. unfold header_words, header_bytes.
  pose proof (bytes_words_app [u32 a; u32 b; u32 len] rest) as E. cbn [length] in E.
  rewrite E by (repeat constructor; apply u32_range).
  by rewrite !s32_u32, !s32_id, (u32_id len).
Qed.

(** ** The device *)

Record Network := mkNetwork {
  ident : Z;
  chanceToWork : Q;
  sock : list (list Z);      (* the packets that wait in the socket *)
  sendBusy : bool;
  inHdr : PacketHeader;
  inbox : list Z;
  numPacketsRecvd : Z;
  numPacketsSent : Z;
  recvPolls : nat;           (* scheduled interrupts: [NetworkReadPoll] *)
  sendDones : nat            (* and [NetworkSendDone] *)
}.

Definition clamp (reliability : Q) : Q :=
  if negb (Qle_bool 0 reliability) then 0%Q else if negb (Qle_bool reliability 1) then 1%Q else reliability.

(** [h] and [garbage] are the uninitialised header and buffer. *)
Definition new_Network (addr : Z) (reliability : Q) (h : PacketHeader) (garbage : list Z) : Network :=
  mkNetwork addr (clamp reliability) [] false (mkPacketHeader (packet_to h) (packet_from h) 0) garbage 0 0 1 0.

(** Returns whether [readHandler] is called. *)
Definition CheckPktAvail (n : Network) : result (bool * Network) :=
  let n := mkNetwork (ident n) (chanceToWork n) (sock n) (sendBusy n) (inHdr n) (inbox n)
             (numPacketsRecvd n) (numPacketsSent n) (S (recvPolls n)) (sendDones n) in
  if bool_decide (packet_length (inHdr n) ≠ 0) then Ok (false, n)
  else
    match sock n with
    | [] => Ok (false, n)
    | buffer :: rest =>
        _ ← ASSERT (bool_decide (Z.of_nat (length buffer) = MAX_WIRE_SIZE));
        let hdr := packet_of_bytes buffer in
        _ ← ASSERT (bool_decide (packet_to hdr = ident n ∧ packet_length hdr ≤ MAX_PACKET_SIZE));
        payload ← slice buffer PACKET_HEADER_SIZE (packet_length hdr);
        b ← splice (inbox n) 0 payload;
        Ok (true, mkNetwork (ident n) (chanceToWork n) rest (sendBusy n) hdr b
                    (numPacketsRecvd n + 1) (numPacketsSent n) (recvPolls n) (sendDones n))
    end.

(** [writeHandler] is always called. *)
Definition SendDone (n : Network) : Network :=
  mkNetwork (ident n) (chanceToWork n) (sock n) false (inHdr n) (inbox n)
    (numPacketsRecvd n) (numPacketsSent n + 1) (recvPolls n) (sendDones n).

Definition lost (n : Network) (random : Z) : bool :=
  Qle_bool (chanceToWork n * 100) (inject_Z (random mod 100)).

(** The packet on the wire, if it is not lost; [garbage] is the new buffer. *)
Definition Send (n : Network) (hdr : PacketHeader) (data : list Z) (random : Z) (garbage : list Z)
    : result (option (list Z) * Network) :=
  _ ← ASSERT (negb (sendBusy n) && bool_decide (packet_length hdr > 0 ∧ packet_length hdr ≤ MAX_PACKET_SIZE ∧
                                                packet_from hdr = ident n));
  let n := mkNetwork (ident n) (chanceToWork n) (sock n) (sendBusy n) (inHdr n) (inbox n)
             (numPacketsRecvd n) (numPacketsSent n) (recvPolls n) (S (sendDones n)) in
  if lost n random then Ok (None, n)
  else
    buffer ← splice garbage 0 (packet_bytes hdr);
    payload ← slice data 0 (packet_length hdr);
    buffer ← splice buffer PACKET_HEADER_SIZE payload;
    Ok (Some buffer, n).

(** The header and the buffer of the caller. *)
Definition Receive (n : Network) (data : list Z) : result (PacketHeader * list Z * Network) :=
  let hdr := inHdr n in
  let n := mkNetwork (ident n) (chanceToWork n) (sock n) (sendBusy n)
             (mkPacketHeader (packet_to hdr) (packet_from hdr) 0) (inbox n)
             (numPacketsRecvd n) (numPacketsSent n) (recvPolls n) (sendDones n) in
  if bool_decide (packet_length hdr ≠ 0) then
    payload ← slice (inbox n) 0 (packet_length hdr);
    data ← splice data 0 payload;
    Ok (hdr, data, n)
  else Ok (hdr, data, n).

(** An interrupt is taken from the queue; a packet arrives in the socket. *)
Definition take_poll (n : Network) : Network :=
  mkNetwork (ident n) (chanceToWork n) (sock n) (sendBusy n) (inHdr n) (inbox n)
    (numPacketsRecvd n) (numPacketsSent n) (pred (recvPolls n)) (sendDones n).
Definition take_done (n : Network) : Network :=
  mkNetwork (ident n) (chanceToWork n) (sock n) (sendBusy n) (inHdr n) (inbox n)
    (numPacketsRecvd n) (numPacketsSent n) (recvPolls n) (pred (sendDones n)).
Definition arrive (n : Network) (packet : list Z) : Network :=
  mkNetwork (ident n) (chanceToWork n) (sock n ++ [packet]) (sendBusy n) (inHdr n) (inbox n)
    (numPacketsRecvd n) (numPacketsSent n) (recvPolls n) (sendDones n).

(** ** Buffers *)

(** Overwriting the first bytes of a buffer. *)
Lemma splice_0 {A} (l bs : list A) : (length bs ≤ length l)%nat → splice l 0 bs = Ok (bs ++ drop (length bs) l).
Proof. intros. unfold splice. by rewrite bool_decide_true by lia. Qed.

Lemma slice_0 {A} (l : list A) n : 0 ≤ n ≤ Z.of_nat (length l) → slice l 0 n = Ok (take (Z.to_nat n) l).
Proof. intros. unfold slice. by rewrite bool_decide_true by lia. Qed.

(** A copy of the first [n] bytes of a buffer has these bytes in front. *)
Lemma copy_front {A} (src dst : list A) n : 0 ≤ n ≤ Z.of_nat (length src) → (length src ≤ length dst)%nat →
  ∃ dst', (payload ← slice src 0 n; splice dst 0 payload) = Ok dst' ∧ length dst' = length dst ∧
    take (Z.to_nat n) dst' = take (Z.to_nat n) src.
Proof.
  intros Hn Hl. rewrite slice_0 by lia. cbn [mbind result_bind].
  rewrite splice_0 by (rewrite length_take; lia). eexists. split; [done|].
  rewrite length_app, length_drop, length_take. split; [lia|].
  rewrite take_app_le by (rewrite length_take; lia). by rewrite take_take, Nat.min_id.
Qed.

(** The device loses nothing at reliability 1, and everything at 0. *)
Lemma lost_reliable n random : chanceToWork n = 1%Q → lost n random = false.
Proof.
  intros E. unfold lost. rewrite E. apply not_true_iff_false. rewrite Qle_bool_iff. unfold Qle. cbn.
  pose proof (Z.mod_pos_bound random 100). lia.
Qed.

(** What [Send] puts on the wire, read back as [CheckPktAvail] reads it. *)
Lemma Send_ok n hdr data random garbage : sendBusy n = false → 0 < packet_length hdr ≤ MAX_PACKET_SIZE →
  packet_from hdr = ident n → is_s32 (packet_to hdr) → is_s32 (packet_from hdr) →
  (Z.to_nat MAX_PACKET_SIZE ≤ length data)%nat → length garbage = Z.to_nat MAX_WIRE_SIZE →
  Send n hdr data random garbage =
    Ok (if lost n random then None
        else Some (packet_bytes hdr ++ take (Z.to_nat (packet_length hdr)) data ++
                   drop (12 + Z.to_nat (packet_length hdr)) garbage),
        mkNetwork (ident n) (chanceToWork n) (sock n) false (inHdr n) (inbox n)
          (numPacketsRecvd n) (numPacketsSent n) (recvPolls n) (S (sendDones n))).
Proof.
  intros Hb Hl Hf Ht Hs Hd Hg. unfold Send. rewrite Hb, bool_decide_true by (split_and!; lia).
  cbn [negb andb ASSERT mbind result_bind]. change (lost (mkNetwork _ _ _ _ _ _ _ _ _ _) random) with (lost n random).
  change MAX_PACKET_SIZE with 52 in *. change MAX_WIRE_SIZE with 64 in *. change PACKET_HEADER_SIZE with 12.
  destruct (lost n random); [done|].
  assert (length (packet_bytes hdr) = 12%nat) as Hp by apply three_words_length.
  rewrite splice_0, slice_0 by lia. cbn [mbind result_bind]. unfold splice.
  rewrite bool_decide_true by (rewrite length_app, length_drop, length_take; lia). cbn [mbind result_bind].
  rewrite Hp, take_app_length', drop_app_ge, drop_drop, length_take by lia.
  replace (12 + _)%nat with (12 + Z.to_nat (packet_length hdr))%nat by lia. done.
Qed.

Lemma packet_of_bytes_ok hdr rest : is_s32 (packet_to hdr) → is_s32 (packet_from hdr) → is_u32 (packet_length hdr) →
  packet_of_bytes (packet_bytes hdr ++ rest) = hdr.
Proof. intros. unfold packet_of_bytes, packet_bytes. rewrite header_words_bytes by done. by destruct hdr. Qed.
