(* ===== verification/PostOffice.v ===== *)
(** * [network/post.cc]: the post office

    Mailboxes on several machines, over the device of [Network].  A thread that
    sends holds [sendLock] until the device signals that the packet is gone; the
    postal worker, a thread of its own, takes packets from the device and puts
    them into mailboxes, where threads wait for them.  As in [Console], a step
    relation has every interleaving of the threads, workers and interrupts of all
    machines.  A mailbox is the list of its messages: the synchronized list below
    it is that of [Threads].  [uninit] is the uninitialised memory of new
    buffers. *)

From Stdlib Require Import QArith.
From S2P Require Import Prelude Network.
From stdpp Require Import base option list gmap numbers tactics relations.
From stdpp Require Import list.
Open Scope Z_scope.

(** ** Messages *)

Record MailHeader := mkMailHeader { mail_to : Z; mail_from : Z; mail_length : Z }.

Definition MAIL_HEADER_SIZE : Z := 12.
Definition MAX_MAIL_SIZE : Z := MAX_PACKET_SIZE - MAIL_HEADER_SIZE.

Definition mail_bytes (m : MailHeader) : list Z := header_bytes (mail_to m) (mail_from m) (mail_length m).
Definition mail_of_bytes (bs : list Z) : MailHeader :=
  let '(a, b, len) := header_words bs in mkMailHeader a b len.

Record Mail := mkMail { pktHdr : PacketHeader; mailHdr : MailHeader; mail_data : list Z }.

Section PostOffice.
Context (uninit : Z → list Z).

Definition new_Mail (pktH : PacketHeader) (mailH : MailHeader) (msgData : list Z) : result Mail :=
  _ ← ASSERT (bool_decide (mail_length mailH ≤ MAX_MAIL_SIZE));
  bs ← slice msgData 0 (mail_length mailH);
  data ← splice (uninit MAX_MAIL_SIZE) 0 bs;
  Ok (mkMail pktH mailH data).

(** ** Mailboxes *)

Definition Put (box : list Mail) (pktHdr : PacketHeader) (mailHdr : MailHeader) (data : list Z) : result (list Mail) :=
  mail ← new_Mail pktHdr mailHdr data;
  Ok (box ++ [mail]).

(** What the caller gets, and the rest; [None]: it waits. *)
Definition Get (box : list Mail) : result (option (PacketHeader * MailHeader * list Z * list Mail)) :=
  match box with
  | [] => Ok None
  | mail :: rest =>
      bs ← slice (mail_data mail) 0 (mail_length (mailHdr mail));
      Ok (Some (pktHdr mail, mailHdr mail, bs, rest))
  end.

(** ** The post office of a machine *)

(** Where a thread is in [Send] or [Receive], and what it has in its variables. *)
Inductive phase :=
| Outside
| SendLock (p : PacketHeader) (buffer : list Z)   (* [sendLock->Acquire()] *)
| SendNet (p : PacketHeader) (buffer : list Z)    (* [network->Send(pktHdr, buffer)] *)
| SendWait                                        (* [messageSent->P()] *)
| SendUnlock                                      (* [sendLock->Release()] *)
| BoxGet (box : Z)                                (* [boxes[box].Get(...)] *)
| BoxGot (p : PacketHeader) (m : MailHeader) (data : list Z).

(** Where the postal worker is in [PostalDelivery]. *)
Inductive worker_phase :=
| WorkWait                                        (* [messageAvailable->P()] *)
| WorkReceive                                     (* [network->Receive(buffer)] and the checks *)
| WorkPut (p : PacketHeader) (m : MailHeader).    (* [boxes[mailHdr.to].Put(...)] *)

(** A message as it is seen by the threads. *)
Definition message : Type := PacketHeader * MailHeader * list Z.

Record PostOffice := mkPostOffice {
  network : Network;
  netAddr : Z;
  numBoxes : Z;
  boxes : list (list Mail);
  messageAvailable : Z;        (* the values of the semaphores *)
  messageSent : Z;
  sendLock : option nat;       (* the owner of the lock *)
  worker : worker_phase;
  work_buffer : list Z;
  at_phase : nat → phase;
  arrived : list message;      (* all that reached the socket, all that was put into *)
  delivered : list message;    (* the boxes and all that was taken from each box, *)
  taken : Z → list message     (* only for the proofs *)
}.

Definition new_PostOffice (addr : Z) (reliability : Q) (nBoxes : Z) : result PostOffice :=
  _ ← ASSERT (bool_decide (nBoxes > 0));
  Ok (mkPostOffice (new_Network addr reliability (packet_of_bytes (uninit PACKET_HEADER_SIZE)) (uninit MAX_PACKET_SIZE))
        addr nBoxes (replicate (Z.to_nat nBoxes) []) 0 0 None WorkWait (uninit MAX_PACKET_SIZE) (λ _, Outside) [] [] (λ _, [])).

Definition set_network (o : PostOffice) (n : Network) : PostOffice :=
  mkPostOffice n (netAddr o) (numBoxes o) (boxes o) (messageAvailable o) (messageSent o) (sendLock o) (worker o)
    (work_buffer o) (at_phase o) (arrived o) (delivered o) (taken o).
Definition set_sems (o : PostOffice) (available sent : Z) : PostOffice :=
  mkPostOffice (network o) (netAddr o) (numBoxes o) (boxes o) available sent (sendLock o) (worker o)
    (work_buffer o) (at_phase o) (arrived o) (delivered o) (taken o).
Definition set_lock (o : PostOffice) (owner : option nat) : PostOffice :=
  mkPostOffice (network o) (netAddr o) (numBoxes o) (boxes o) (messageAvailable o) (messageSent o) owner (worker o)
    (work_buffer o) (at_phase o) (arrived o) (delivered o) (taken o).
Definition set_work (o : PostOffice) (w : worker_phase) (buffer : list Z) : PostOffice :=
  mkPostOffice (network o) (netAddr o) (numBoxes o) (boxes o) (messageAvailable o) (messageSent o) (sendLock o) w
    buffer (at_phase o) (arrived o) (delivered o) (taken o).
Definition set_boxes (o : PostOffice) (bs : list (list Mail)) : PostOffice :=
  mkPostOffice (network o) (netAddr o) (numBoxes o) bs (messageAvailable o) (messageSent o) (sendLock o) (worker o)
    (work_buffer o) (at_phase o) (arrived o) (delivered o) (taken o).
Definition set_history (o : PostOffice) (a d : list message) (k : Z → list message) : PostOffice :=
  mkPostOffice (network o) (netAddr o) (numBoxes o) (boxes o) (messageAvailable o) (messageSent o) (sendLock o) (worker o)
    (work_buffer o) (at_phase o) a d k.
Definition goto (o : PostOffice) (t : nat) (p : phase) : PostOffice :=
  mkPostOffice (network o) (netAddr o) (numBoxes o) (boxes o) (messageAvailable o) (messageSent o) (sendLock o) (worker o)
    (work_buffer o) (λ u, if decide (u = t) then p else at_phase o u) (arrived o) (delivered o) (taken o).

Definition IncomingPacket (o : PostOffice) : PostOffice := set_sems o (messageAvailable o + 1) (messageSent o).
Definition PacketSent (o : PostOffice) : PostOffice := set_sems o (messageAvailable o) (messageSent o + 1).

(** The message in a header and a buffer with a mail header in front. *)
Definition message_of (p : PacketHeader) (buffer : list Z) : message :=
  let m := mail_of_bytes buffer in
  (p, m, take (Z.to_nat (mail_length m)) (drop (Z.to_nat MAIL_HEADER_SIZE) buffer)).

(** The next statement of the postal worker; [None]: it waits. *)
Definition PostalDelivery (o : PostOffice) : result (option PostOffice) :=
  match worker o with
  | WorkWait =>
      if bool_decide (messageAvailable o = 0) then Ok None
      else Ok (Some (set_work (set_sems o (messageAvailable o - 1) (messageSent o)) WorkReceive (work_buffer o)))
  | WorkReceive =>
      r ← Network.Receive (network o) (work_buffer o);
      let '(p, buffer, n) := r in
      let m := mail_of_bytes buffer in
      _ ← ASSERT (bool_decide (0 ≤ mail_to m ∧ mail_to m < numBoxes o));
      _ ← ASSERT (bool_decide (mail_length m ≤ MAX_MAIL_SIZE));
      Ok (Some (set_work (set_network o n) (WorkPut p m) buffer))
  | WorkPut p m =>
      box ← rd (boxes o) (mail_to m);
      box ← Put box p m (drop (Z.to_nat MAIL_HEADER_SIZE) (work_buffer o));
      bs ← wr (boxes o) (mail_to m) box;
      Ok (Some (set_history (set_work (set_boxes o bs) WorkWait (work_buffer o))
                  (arrived o) (delivered o ++ [message_of p (work_buffer o)]) (taken o)))
  end.

(** [Send] up to [sendLock->Acquire()]: the packet header and the buffer. *)
Definition Send_prepare (o : PostOffice) (pktHdr : PacketHeader) (mailHdr : MailHeader) (data : list Z)
    : result (PacketHeader * list Z) :=
  _ ← ASSERT (bool_decide (mail_length mailHdr ≤ MAX_MAIL_SIZE));
  _ ← ASSERT (bool_decide (0 ≤ mail_to mailHdr ∧ mail_to mailHdr < numBoxes o));
  let p := mkPacketHeader (packet_to pktHdr) (netAddr o) (u32 (mail_length mailHdr + MAIL_HEADER_SIZE)) in
  buffer ← splice (uninit MAX_PACKET_SIZE) 0 (mail_bytes mailHdr);
  bs ← slice data 0 (mail_length mailHdr);
  buffer ← splice buffer MAIL_HEADER_SIZE bs;
  Ok (p, buffer).

(** The next statement of a thread in [Send]; also the packet that goes on the
    wire, with its destination. *)
Definition Send (o : PostOffice) (t : nat) (random : Z) : result (option (PostOffice * option (Z * list Z))) :=
  match at_phase o t with
  | SendLock p buffer =>
      match sendLock o with
      | None => Ok (Some (goto (set_lock o (Some t)) t (SendNet p buffer), None))
      | Some _ => Ok None
      end
  | SendNet p buffer =>
      r ← Network.Send (network o) p buffer random (uninit MAX_WIRE_SIZE);
      let '(wire, n) := r in
      Ok (Some (goto (set_network o n) t SendWait, option_map (pair (packet_to p)) wire))
  | SendWait =>
      if bool_decide (messageSent o = 0) then Ok None
      else Ok (Some (goto (set_sems o (messageAvailable o) (messageSent o - 1)) t SendUnlock, None))
  | SendUnlock => Ok (Some (goto (set_lock o None) t Outside, None))
  | _ => Ok None
  end.

Definition Receive_begin (o : PostOffice) (box : Z) : result unit :=
  ASSERT (bool_decide (box >= 0 ∧ box < numBoxes o)).

(** The next statement of a thread in [Receive]. *)
Definition Receive (o : PostOffice) (t : nat) : result (option PostOffice) :=
  match at_phase o t with
  | BoxGet box =>
      b ← rd (boxes o) box;
      r ← Get b;
      match r with
      | None => Ok None
      | Some (p, m, data, rest) =>
          bs ← wr (boxes o) box rest;
          Ok (Some (set_history (goto (set_boxes o bs) t (BoxGot p m data)) (arrived o) (delivered o)
                      (λ b, if decide (b = box) then taken o b ++ [(p, m, data)] else taken o b)))
      end
  | BoxGot p m data =>
      _ ← ASSERT (bool_decide (mail_length m ≤ MAX_MAIL_SIZE));
      Ok (Some (goto o t Outside))
  | _ => Ok None
  end.

(** The handlers of the two interrupts. *)
Definition ReadAvail (o : PostOffice) : result PostOffice :=
  r ← CheckPktAvail (take_poll (network o));
  let '(called, n) := r in
  Ok (if called : bool then IncomingPacket (set_network o n) else set_network o n).
Definition WriteDone (o : PostOffice) : PostOffice :=
  PacketSent (set_network o (SendDone (take_done (network o)))).

(** ** All machines *)

Abbreviation world := (gmap Z PostOffice).

(** [SystemDep::SendToSocket]: the packet goes to the socket of a machine. *)
Definition SendToSocket (w : world) (to : Z) (packet : list Z) : result world :=
  match w !! to with
  | Some o => Ok (<[to := set_history (set_network o (arrive (network o) packet))
                     (arrived o ++ [message_of (packet_of_bytes packet) (drop (Z.to_nat PACKET_HEADER_SIZE) packet)])
                     (delivered o) (taken o)]> w)
  | None => Err AssertFail
  end.

Definition send_step (w : world) (a : Z) (o : PostOffice) (t : nat) (random : Z) : result (option world) :=
  r ← Send o t random;
  match r with
  | None => Ok None
  | Some (o, None) => Ok (Some (<[a := o]> w))
  | Some (o, Some (to, packet)) => w' ← SendToSocket (<[a := o]> w) to packet; Ok (Some w')
  end.

(** Interrupts and the postal worker of a machine. *)
Inductive office_step : PostOffice → PostOffice → Prop :=
| office_poll o o' : (0 < recvPolls (network o))%nat → ReadAvail o = Ok o' → office_step o o'
| office_done o : (0 < sendDones (network o))%nat → office_step o (WriteDone o)
| office_worker o o' : PostalDelivery o = Ok (Some o') → office_step o o'.

(** What a caller of [Send] has to provide: the length is that of the data, the
    box exists, and so does the machine (or the host's [sendto] fails). *)
Definition valid_send (w : world) (o : PostOffice) (pktHdr : PacketHeader) (mailHdr : MailHeader) (data : list Z) : Prop :=
  is_Some (w !! packet_to pktHdr) ∧ 0 ≤ mail_to mailHdr < numBoxes o ∧ is_s32 (mail_from mailHdr) ∧
  0 ≤ mail_length mailHdr ≤ MAX_MAIL_SIZE ∧ mail_length mailHdr ≤ Z.of_nat (length data).

Inductive world_step : world → world → Prop :=
| step_office w a o o' : w !! a = Some o → office_step o o' → world_step w (<[a := o']> w)
| step_call_send w a o t pktHdr mailHdr data r : w !! a = Some o → at_phase o t = Outside →
    valid_send w o pktHdr mailHdr data → Send_prepare o pktHdr mailHdr data = Ok r →
    world_step w (<[a := goto o t (SendLock r.1 r.2)]> w)
| step_call_receive w a o t box : w !! a = Some o → at_phase o t = Outside → Receive_begin o box = Ok tt →
    world_step w (<[a := goto o t (BoxGet box)]> w)
| step_send w a o t random w' : w !! a = Some o → send_step w a o t random = Ok (Some w') → world_step w w'
| step_receive w a o t o' : w !! a = Some o → Receive o t = Ok (Some o') → world_step w (<[a := o']> w).

Arguments mail_of_bytes : simpl never.
Arguments packet_of_bytes : simpl never.

(** ** Invariant *)

Context (A : gset Z) (NB : Z).
Hypothesis A_words : ∀ a, a ∈ A → is_s32 a.
Hypothesis NB_int : 0 < NB < 2 ^ 31.
Hypothesis uninit_length : ∀ n, 0 ≤ n → length (uninit n) = Z.to_nat n.

(** A message that can be delivered to a machine. *)
Record good (a : Z) (x : message) : Prop := {
  gd_to : packet_to x.1.1 = a;
  gd_from : is_s32 (packet_from x.1.1);
  gd_length : packet_length x.1.1 = mail_length x.1.2 + MAIL_HEADER_SIZE;
  gd_data : Z.of_nat (length x.2) = mail_length x.1.2;
  gd_max : 0 ≤ mail_length x.1.2 ≤ MAX_MAIL_SIZE;
  gd_box : 0 ≤ mail_to x.1.2 < NB
}.

Definition wire_message (packet : list Z) : message :=
  message_of (packet_of_bytes packet) (drop (Z.to_nat PACKET_HEADER_SIZE) packet).
Definition wire_ok (a : Z) (packet : list Z) : Prop :=
  length packet = Z.to_nat MAX_WIRE_SIZE ∧ good a (wire_message packet).

(** The messages on their way to the boxes, the first one first. *)
Definition in_device (n : Network) : list message :=
  if decide (packet_length (inHdr n) = 0) then [] else [message_of (inHdr n) (inbox n)].
Definition in_worker (o : PostOffice) : list message :=
  match worker o with WorkPut p _ => [message_of p (work_buffer o)] | _ => [] end.
Definition transit (o : PostOffice) : list message :=
  in_worker o ++ in_device (network o) ++ map wire_message (sock (network o)).

Definition mail_message (mail : Mail) : message :=
  (pktHdr mail, mailHdr mail, take (Z.to_nat (mail_length (mailHdr mail))) (mail_data mail)).
Definition mail_ok (mail : Mail) : Prop :=
  Z.of_nat (length (mail_data mail)) = MAX_MAIL_SIZE ∧ 0 ≤ mail_length (mailHdr mail) ≤ MAX_MAIL_SIZE.
Definition for_box (b : Z) (l : list message) : list message := filter (λ x : message, mail_to x.1.2 = b) l.
Arguments for_box : simpl never.

Record recv_inv (a : Z) (o : PostOffice) : Prop := {
  rv_boxes : length (boxes o) = Z.to_nat NB;
  rv_polls : recvPolls (network o) = 1%nat;
  rv_avail : messageAvailable o = 0 ∧ (in_device (network o) = [] ∧ worker o ≠ WorkReceive ∨
                                       in_device (network o) ≠ [] ∧ worker o = WorkReceive) ∨
    messageAvailable o = 1 ∧ in_device (network o) ≠ [] ∧ worker o ≠ WorkReceive;
  rv_wire : Forall (wire_ok a) (sock (network o));
  rv_device : Forall (good a) (in_device (network o));
  rv_work p m : worker o = WorkPut p m → m = mail_of_bytes (work_buffer o) ∧ good a (message_of p (work_buffer o));
  rv_inbox : Z.of_nat (length (inbox (network o))) = MAX_PACKET_SIZE;
  rv_buffer : Z.of_nat (length (work_buffer o)) = MAX_PACKET_SIZE;
  rv_order : arrived o = delivered o ++ transit o;
  rv_mail b box : 0 ≤ b → boxes o !! Z.to_nat b = Some box →
    Forall mail_ok box ∧ for_box b (delivered o) = taken o b ++ map mail_message box
}.

Definition sending (p : phase) : bool :=
  match p with SendNet _ _ | SendWait | SendUnlock => true | _ => false end.

(** The packets of senders are complete, and boxes are in range. *)
Definition phase_ok (a : Z) (p : phase) : Prop :=
  match p with
  | SendLock h b | SendNet h b => Z.of_nat (length b) = MAX_PACKET_SIZE ∧ packet_from h = a ∧ packet_to h ∈ A ∧
      good (packet_to h) (message_of h b)
  | BoxGet box => 0 ≤ box < NB
  | BoxGot _ m _ => mail_length m ≤ MAX_MAIL_SIZE
  | _ => True
  end.

Record send_inv (a : Z) (o : PostOffice) : Prop := {
  sn_lock t : sending (at_phase o t) = true ↔ sendLock o = Some t;
  sn_busy : sendBusy (network o) = false;
  sn_done : (sendDones (network o) = 0%nat ∧ messageSent o = 0 ∧ ∀ t, at_phase o t ≠ SendWait) ∨
    (sendDones (network o) = 1%nat ∧ messageSent o = 0 ∨ sendDones (network o) = 0%nat ∧ messageSent o = 1) ∧
    ∃ t, at_phase o t = SendWait;
  sn_phase t : phase_ok a (at_phase o t)
}.

Record office_inv (a : Z) (o : PostOffice) : Prop := {
  of_addr : netAddr o = a;
  of_ident : ident (network o) = a;
  of_boxes : numBoxes o = NB;
  of_recv : recv_inv a o;
  of_send : send_inv a o
}.

(** *** Messages *)

Lemma take_message p b b' : packet_length p = mail_length (mail_of_bytes b) + MAIL_HEADER_SIZE →
  0 ≤ mail_length (mail_of_bytes b) → take (Z.to_nat (packet_length p)) b' = take (Z.to_nat (packet_length p)) b →
  message_of p b' = message_of p b.
Proof.
  intros Hp Hl E. unfold message_of. change (Z.to_nat MAIL_HEADER_SIZE) with 12%nat. change MAIL_HEADER_SIZE with 12 in Hp.
  assert (take 12 b' = take 12 b) as E12.
  { rewrite <-(Nat.min_l 12 (Z.to_nat (packet_length p))), <-!take_take by lia. by rewrite E. }
  assert (mail_of_bytes b' = mail_of_bytes b) as ->.
  { unfold mail_of_bytes, header_words. by rewrite <-(bytes_words_take 3 b'), <-(bytes_words_take 3 b); change (4 * 3)%nat with 12%nat; rewrite E12. }
  f_equal. replace (Z.to_nat (packet_length p)) with (12 + Z.to_nat (mail_length (mail_of_bytes b)))%nat in E by lia.
  apply (f_equal (drop 12)) in E. rewrite !skipn_firstn_comm in E. by rewrite Nat.add_comm, Nat.add_sub in E.
Qed.

Lemma good_facts a p b : good a (message_of p b) →
  packet_to p = a ∧ packet_length p = mail_length (mail_of_bytes b) + 12 ∧
  0 ≤ mail_length (mail_of_bytes b) ≤ 40 ∧ 0 ≤ mail_to (mail_of_bytes b) < NB.
Proof. intros Hg. split_and!; apply Hg. Qed.

(** A message survives the copy of its packet. *)
Lemma copy_message a p src dst : good a (message_of p src) → Z.of_nat (length src) = MAX_PACKET_SIZE →
  Z.of_nat (length dst) = MAX_PACKET_SIZE →
  ∃ dst', (payload ← slice src 0 (packet_length p); splice dst 0 payload) = Ok dst' ∧
    Z.of_nat (length dst') = MAX_PACKET_SIZE ∧ message_of p dst' = message_of p src.
Proof.
  intros Hg Hs Hd. destruct (good_facts _ _ _ Hg) as (_ & Hl & Hm & _). change MAX_PACKET_SIZE with 52 in *.
  destruct (copy_front src dst (packet_length p)) as (dst' & E & Hl' & Ht); [lia|lia|].
  exists dst'. split; [exact E|]. split; [lia|]. apply take_message; [exact Hl|apply Hm|exact Ht].
Qed.

Lemma good_device a n : Forall (good a) (in_device n) → packet_length (inHdr n) ≠ 0 → good a (message_of (inHdr n) (inbox n)).
Proof. unfold in_device. intros H Hn. rewrite decide_False in H by done. by inversion H. Qed.

Lemma good_nonzero a p b : good a (message_of p b) → packet_length p ≠ 0.
Proof. intros Hg. destruct (good_facts _ _ _ Hg) as (_ & ? & ? & _). lia. Qed.

(** *** Interrupts *)

(** The parts of a post office that [send_inv] is about. *)
Definition send_part (o : PostOffice) : bool * nat * Z * option nat * (nat → phase) :=
  (sendBusy (network o), sendDones (network o), messageSent o, sendLock o, at_phase o).

Lemma send_inv_same a o o' : send_inv a o → send_part o' = send_part o → send_inv a o'.
Proof. intros [Hl Hb Hd Hp] E. injection E as E1 E2 E3 E4 E5. split; by rewrite ?E1, ?E2, ?E3, ?E4, ?E5. Qed.

(** What a step of the machine itself keeps. *)
Record same_office (o o' : PostOffice) : Prop := {
  so_addr : netAddr o' = netAddr o;
  so_ident : ident (network o') = ident (network o);
  so_boxes : numBoxes o' = numBoxes o;
  so_arrived : arrived o' = arrived o
}.

Lemma office_inv_intro a o o' : office_inv a o → same_office o o' → recv_inv a o' → send_inv a o' → office_inv a o'.
Proof. intros [H1 H2 H3 _ _] [E1 E2 E3 _] Hr Hs. split; congruence. Qed.

Lemma read_ok a o : office_inv a o → ∃ o', ReadAvail o = Ok o' ∧ same_office o o' ∧ office_inv a o' ∧ worker o' = worker o ∧
  (worker o = WorkWait → transit o ≠ [] → messageAvailable o' = 1).
Proof.
  intros Ho. pose proof (of_recv _ _ Ho) as [Hb Hp Ha Hw Hd Hk Hi Hu Hor Hm]. pose proof (of_ident _ _ Ho) as Hid.
  unfold ReadAvail, CheckPktAvail. cbn [inHdr sock recvPolls ident inbox take_poll]. rewrite Hp. cbn [pred].
  case_bool_decide as En.
  - eexists. split; [done|]. split; [done|]. cbn. split_and!; [|done|].
    + apply (office_inv_intro a o); [done|done|done|apply (send_inv_same a o); [apply Ho|done]].
    + intros Hwk _. rewrite Hwk in Ha. unfold in_device in Ha. rewrite decide_False in Ha by done.
      by destruct Ha as [[_ [[? _]|[_ ?]]]|[? _]].
  - assert (Hno : in_device (network o) = []) by (unfold in_device; by rewrite decide_True).
    destruct (sock (network o)) as [|pkt rest] eqn:Es.
    + eexists. split; [done|]. split; [done|]. cbn. split_and!; [|done|].
      * apply (office_inv_intro a o); [done|done| |apply (send_inv_same a o); [apply Ho|done]].
        split; cbn; try done. rewrite Hor. unfold transit. cbn. by rewrite Es.
      * intros Hwk. unfold transit, in_worker. by rewrite Hwk, Hno, Es.
    + apply Forall_cons in Hw as [[Hl Hg] Hw]. destruct (good_facts _ _ _ Hg) as (Hto & Hlen & Hmax & _).
      change MAX_WIRE_SIZE with 64 in *.
      rewrite (bool_decide_true (_ = 64)), (bool_decide_true (_ ∧ _)) by (rewrite ?Hid; change MAX_PACKET_SIZE with 52; lia).
      cbn [ASSERT mbind result_bind].
      replace (slice pkt PACKET_HEADER_SIZE _) with (slice (drop (Z.to_nat PACKET_HEADER_SIZE) pkt) 0 (packet_length (packet_of_bytes pkt))).
      2: { change PACKET_HEADER_SIZE with 12. unfold slice. rewrite !bool_decide_true by (rewrite ?length_drop; lia). done. }
      destruct (copy_message a (packet_of_bytes pkt) (drop (Z.to_nat PACKET_HEADER_SIZE) pkt) (inbox (network o)) Hg) as (b' & Eb & Hl' & Em).
      { rewrite length_drop. change PACKET_HEADER_SIZE with 12. change MAX_PACKET_SIZE with 52. lia. }
      { done. }
      match type of Eb with (?m ≫= ?k) = _ => destruct m as [pl|] eqn:Epl; [cbn [mbind result_bind] in Eb|done] end.
      cbn [mbind result_bind]. rewrite Eb. cbn [mbind result_bind].
      assert (Hdev : in_device (mkNetwork (ident (network o)) (chanceToWork (network o)) rest (sendBusy (network o)) (packet_of_bytes pkt) b'
        (numPacketsRecvd (network o) + 1) (numPacketsSent (network o)) 1 (sendDones (network o))) = [wire_message pkt]).
      { unfold in_device. cbn [inHdr inbox]. by rewrite decide_False, Em by (by eapply good_nonzero). }
      assert (Hav : messageAvailable o = 0 ∧ worker o ≠ WorkReceive).
      { destruct Ha as [[? [[_ ?]|[? _]]]|(_ & ? & _)]; done. }
      eexists. split; [done|]. split; [done|]. split_and!; [|done|].
      * apply (office_inv_intro a o); [done|done| |apply (send_inv_same a o); [apply Ho|done]].
        split; cbn -[in_device]; try done.
        -- right. rewrite Hdev. destruct Hav as [-> ?]. done.
        -- rewrite Hdev. by constructor.
        -- rewrite Hor. unfold transit, in_worker. cbn -[in_device]. by rewrite Hdev, Hno, Es.
      * intros _ _. cbn. lia.
Qed.

Lemma sent_ok a o : office_inv a o → (0 < sendDones (network o))%nat →
  same_office o (WriteDone o) ∧ office_inv a (WriteDone o) ∧ messageSent (WriteDone o) = 1.
Proof.
  intros Ho Hd. destruct (of_send _ _ Ho) as [Hl Hb [[? _]|[[[Hn Hs]|[? _]] Hw]] Hp]; [lia| |lia].
  split; [done|]. split; [|cbn; by rewrite Hs].
  apply (office_inv_intro a o); [done|done| |].
  - destruct (of_recv _ _ Ho) as [? ? Ha ? ? ? ? ? ? ?]. by split.
  - split; try done. cbn. rewrite Hn, Hs. right. split; [by right|done].
Qed.

(** *** The postal worker *)

Lemma wait_ok a o : office_inv a o → worker o = WorkWait →
  (messageAvailable o = 0 ∧ PostalDelivery o = Ok None) ∨
  (messageAvailable o = 1 ∧ ∃ o', PostalDelivery o = Ok (Some o') ∧ same_office o o' ∧ office_inv a o' ∧
    worker o' = WorkReceive ∧ delivered o' = delivered o).
Proof.
  intros Ho Hwk. unfold PostalDelivery. rewrite Hwk. pose proof (of_recv _ _ Ho) as [Hb Hp Ha Hw Hd Hk Hi Hu Hor Hm].
  destruct Ha as [[-> _]|(Ea & Hne & _)]; [by left|right]. rewrite Ea, bool_decide_false by done. split; [done|].
  eexists. split; [done|]. split; [done|]. split; [|done].
  apply (office_inv_intro a o); [done|done| |apply (send_inv_same a o); [apply Ho|done]].
  split; cbn; try done.
  - left. split; [lia|]. right. done.
  - rewrite Hor. unfold transit, in_worker. by rewrite Hwk.
Qed.

Lemma receive_ok a o : office_inv a o → worker o = WorkReceive →
  ∃ o', PostalDelivery o = Ok (Some o') ∧ same_office o o' ∧ office_inv a o' ∧
    (∃ p m, worker o' = WorkPut p m) ∧ delivered o' = delivered o.
Proof.
  intros Ho Hwk. unfold PostalDelivery, Network.Receive. rewrite Hwk. pose proof (of_recv _ _ Ho) as [Hb Hp Ha Hw Hd Hk Hi Hu Hor Hm].
  assert (Hav : messageAvailable o = 0 ∧ in_device (network o) ≠ []) by (rewrite Hwk in Ha; naive_solver).
  destruct Hav as [Hav Hne]. assert (En : packet_length (inHdr (network o)) ≠ 0).
  { intros E. unfold in_device in Hne. by rewrite decide_True in Hne. }
  pose proof (good_device _ _ Hd En) as Hg. destruct (good_facts _ _ _ Hg) as (_ & _ & Hmax & Hto).
  rewrite bool_decide_true by done. cbn [inbox].
  destruct (copy_message a (inHdr (network o)) (inbox (network o)) (work_buffer o) Hg Hi Hu) as (b' & Eb & Hl' & Em).
  match type of Eb with (?m ≫= ?k) = _ => destruct m as [pl|] eqn:Epl; [cbn [mbind result_bind] in Eb|done] end.
  cbn [mbind result_bind]. rewrite Eb. cbn [mbind result_bind].
  assert (Emb : mail_of_bytes b' = mail_of_bytes (inbox (network o))) by exact (f_equal (λ x : message, x.1.2) Em).
  rewrite Emb, (of_boxes _ _ Ho), !bool_decide_true by (change MAX_MAIL_SIZE with 40; lia). cbn [ASSERT mbind result_bind].
  eexists. split; [done|]. split; [done|]. split; [|by eauto].
  apply (office_inv_intro a o); [done|done| |apply (send_inv_same a o); [apply Ho|done]].
  split; cbn; try done.
  - left. split; [done|]. by left.
  - intros p m [= <- <-]. by rewrite Em.
  - rewrite Hor. unfold transit, in_worker. cbn. rewrite Hwk, Em. unfold in_device at 1. by rewrite decide_False.
Qed.

Lemma for_box_app b l x : for_box b (l ++ [x]) = for_box b l ++ (if decide (mail_to x.1.2 = b) then [x] else []).
Proof. unfold for_box. by rewrite filter_app. Qed.

Lemma put_ok a o p m : office_inv a o → worker o = WorkPut p m →
  ∃ o', PostalDelivery o = Ok (Some o') ∧ same_office o o' ∧ office_inv a o' ∧ worker o' = WorkWait ∧
    delivered o' = delivered o ++ [message_of p (work_buffer o)].
Proof.
  intros Ho Hwk. unfold PostalDelivery, Put, new_Mail. rewrite Hwk. pose proof (of_recv _ _ Ho) as [Hb Hp Ha Hw Hd Hk Hi Hu Hor Hm].
  destruct (Hk _ _ Hwk) as [Em Hg]. destruct (good_facts _ _ _ Hg) as (_ & _ & Hmax & Hto).
  destruct (rd_in_range (boxes o) (mail_to m)) as (box & Er & Hbox); [rewrite Em, Hb; lia|]. rewrite Er. cbn [mbind result_bind].
  rewrite bool_decide_true by (rewrite Em; change MAX_MAIL_SIZE with 40; lia). cbn [ASSERT mbind result_bind].
  destruct (copy_front (drop (Z.to_nat MAIL_HEADER_SIZE) (work_buffer o)) (uninit MAX_MAIL_SIZE) (mail_length m)) as (d & Ed & Hld & Htd).
  { rewrite length_drop, Em. change MAX_PACKET_SIZE with 52 in Hu. change MAIL_HEADER_SIZE with 12. lia. }
  { rewrite length_drop, uninit_length by done. change MAX_PACKET_SIZE with 52 in Hu. change MAIL_HEADER_SIZE with 12.
    change MAX_MAIL_SIZE with 40. lia. }
  match type of Ed with (?x ≫= ?k) = _ => destruct x as [pl|] eqn:Epl; [cbn [mbind result_bind] in Ed|done] end.
  cbn [mbind result_bind]. rewrite Ed. cbn [mbind result_bind].
  rewrite wr_ok by (rewrite Em, Hb; lia). cbn [mbind result_bind].
  eexists. split; [done|]. split; [done|]. split; [|done].
  apply (office_inv_intro a o); [done|done| |apply (send_inv_same a o); [apply Ho|done]].
  split; cbn; try done.
  - by rewrite length_insert.
  - rewrite Hwk in Ha. naive_solver.
  - rewrite Hor. unfold transit, in_worker. cbn. by rewrite Hwk, <-app_assoc.
  - intros b box' Hb0 Hbx. rewrite for_box_app. cbn [fst snd message_of].
    destruct (decide (b = mail_to m)) as [->|Hne].
    + rewrite list_lookup_insert_eq in Hbx by (rewrite Em, Hb; lia). injection Hbx as <-.
      destruct (Hm _ _ Hb0 Hbox) as [Hok Hf]. split.
      * apply Forall_app. split; [done|]. constructor; [|done]. split; cbn; rewrite ?Em.
        -- rewrite Hld, uninit_length by done. done.
        -- change MAX_MAIL_SIZE with 40. lia.
      * rewrite decide_True, Hf, map_app, <-app_assoc by congruence. do 2 f_equal. cbn. f_equal.
        unfold mail_message. cbn [pktHdr mailHdr mail_data]. unfold message_of. by rewrite <-Em, Htd.
    + assert (0 ≤ mail_to m) by (rewrite Em; lia). rewrite list_lookup_insert_ne in Hbx by lia. destruct (Hm _ _ Hb0 Hbx) as [? Hf]. split; [done|].
      by rewrite decide_False, app_nil_r by congruence.
Qed.

(** *** Threads *)

(** The parts of a post office that [recv_inv] is about, but for the history. *)
Definition recv_part (o : PostOffice) : nat * PacketHeader * list Z * list (list Z) * list (list Mail) * Z * worker_phase * list Z :=
  (recvPolls (network o), inHdr (network o), inbox (network o), sock (network o), boxes o, messageAvailable o, worker o, work_buffer o).

Lemma recv_inv_same a o o' : recv_inv a o → recv_part o' = recv_part o →
  arrived o' = arrived o → delivered o' = delivered o → taken o' = taken o → recv_inv a o'.
Proof.
  intros [Hb Hp Ha Hw Hd Hk Hi Hu Hor Hm] E E6 E7 E8. injection E as E0 E1 E2 E3 E4 E5 E9 E10.
  assert (in_device (network o') = in_device (network o)) as Ed by (unfold in_device; by rewrite E1, E2).
  assert (transit o' = transit o) as Et by (unfold transit, in_worker; by rewrite Ed, E3, E9, E10).
  split; rewrite ?Et, ?Ed, ?E0, ?E2, ?E3, ?E4, ?E5, ?E6, ?E7, ?E8, ?E9, ?E10; done.
Qed.

(** A thread that does not wait for the device goes to a phase where it does not, either. *)
Lemma send_goto a o o' t p : send_inv a o → at_phase o t ≠ SendWait → p ≠ SendWait → phase_ok a p →
  sendBusy (network o') = false → sendDones (network o') = sendDones (network o) → messageSent o' = messageSent o →
  at_phase o' = at_phase o →
  (sending p = sending (at_phase o t) ∧ sendLock o' = sendLock o ∨
   (sendLock o = Some t ∨ sendLock o = None) ∧ sendLock o' = if sending p then Some t else None) →
  send_inv a (goto o' t p).
Proof.
  intros [Hl Hb Hd Hp] Hx Hp' Hok E1 E2 E3 E4 HL. pose proof (Hl t) as Hlt.
  split; cbn; rewrite ?E1, ?E2, ?E3, ?E4; try done.
  - intros u. pose proof (Hl u) as Hu. case_decide; [subst|].
    + destruct HL as [[-> ->]|[_ ->]]; [done|]. by destruct (sending p).
    + destruct HL as [[_ ->]|[HL ->]]; [done|].
      assert (sending (at_phase o u) = true → False).
      { intros E. apply Hu in E. destruct HL; congruence. }
      split; intros E; [done|]. destruct (sending p); congruence.
  - assert (Hph : ∀ u, (if decide (u = t) then p else at_phase o u) = SendWait ↔ at_phase o u = SendWait).
    { intros u. case_decide; [subst|]; naive_solver. }
    destruct Hd as [(? & ? & Hn)|[? [u Hu]]]; [left|right].
    + split_and!; [done..|]. intros u Hu. apply (Hn u). by apply Hph.
    + split; [done|]. exists u. by apply Hph.
  - intros u. case_decide; [by subst|apply Hp].
Qed.

Lemma Send_prepare_ok o p m d : netAddr o ∈ A → packet_to p ∈ A → 0 ≤ mail_to m < NB → numBoxes o = NB →
  is_s32 (mail_from m) → 0 ≤ mail_length m ≤ MAX_MAIL_SIZE → mail_length m ≤ Z.of_nat (length d) →
  ∃ b, Send_prepare o p m d = Ok (mkPacketHeader (packet_to p) (netAddr o) (mail_length m + MAIL_HEADER_SIZE), b) ∧
    Z.of_nat (length b) = MAX_PACKET_SIZE ∧
    message_of (mkPacketHeader (packet_to p) (netAddr o) (mail_length m + MAIL_HEADER_SIZE)) b
      = (mkPacketHeader (packet_to p) (netAddr o) (mail_length m + MAIL_HEADER_SIZE), m, take (Z.to_nat (mail_length m)) d) ∧
    good (packet_to p) (message_of (mkPacketHeader (packet_to p) (netAddr o) (mail_length m + MAIL_HEADER_SIZE)) b).
Proof.
  intros Ha Hto Hbox HNB Hf Hl Hd. unfold Send_prepare. rewrite HNB, !bool_decide_true by lia. cbn [ASSERT mbind result_bind].
  change MAX_MAIL_SIZE with 40 in *. change MAIL_HEADER_SIZE with 12. change MAX_PACKET_SIZE with 52.
  assert (length (mail_bytes m) = 12%nat) as Hmb by apply three_words_length.
  pose proof (uninit_length 52 ltac:(lia)) as Hu.
  rewrite u32_id, splice_0, slice_0 by (unfold is_u32; lia). cbn [mbind result_bind]. unfold splice.
  rewrite bool_decide_true by (rewrite length_app, length_drop, length_take; lia). cbn [mbind result_bind].
  rewrite take_app_length' by lia. eexists. split; [done|].
  assert (∀ rest, mail_of_bytes (mail_bytes m ++ rest) = m) as Em.
  { intros rest. unfold mail_of_bytes, mail_bytes. rewrite header_words_bytes by (unfold is_s32, is_u32 in *; lia). by destruct m. }
  match goal with |- _ ∧ ?E ∧ _ => assert E as HE end.
  { unfold message_of. rewrite Em. f_equal. change (Z.to_nat MAIL_HEADER_SIZE) with 12%nat.
    rewrite drop_app_length' by lia. apply take_app_length'. rewrite length_take. lia. }
  split_and!; [|done|].
  - rewrite !length_app, !length_drop, !length_app, length_drop, length_take. lia.
  - rewrite HE. split; cbn; try done; [by apply A_words|rewrite length_take; lia].
Qed.

(** Putting a packet on the wire: what the other side reads. *)
Lemma wire_message_ok a p b rest : good a (message_of p b) → is_s32 a → Z.of_nat (length b) = MAX_PACKET_SIZE →
  wire_message (packet_bytes p ++ take (Z.to_nat (packet_length p)) b ++ rest) = message_of p b.
Proof.
  intros Hg Ha Hb. destruct (good_facts _ _ _ Hg) as (Hto & Hl & Hm & _). pose proof (gd_from _ _ Hg) as Hf. cbn in Hf.
  change MAX_PACKET_SIZE with 52 in Hb.
  unfold wire_message. rewrite packet_of_bytes_ok by (unfold is_u32; rewrite ?Hto; done || lia).
  change (Z.to_nat PACKET_HEADER_SIZE) with 12%nat. rewrite drop_app_length' by (unfold packet_bytes; by rewrite three_words_length).
  apply take_message; [done|lia|]. rewrite take_app_length' by (rewrite length_take; lia). done.
Qed.

Lemma office_goto a o o' t p : office_inv a o → same_office o o' → recv_part o' = recv_part o → delivered o' = delivered o →
  taken o' = taken o → send_inv a (goto o' t p) → office_inv a (goto o' t p).
Proof.
  intros Ho Hs Hr Ed Et Hse. apply (office_inv_intro a o); [done|by destruct Hs| |done].
  apply (recv_inv_same a o); [apply Ho|done|apply Hs|done|done].
Qed.

Lemma Send_step_ok a o t random : office_inv a o →
  Send o t random = Ok None ∨
  ∃ o' out, Send o t random = Ok (Some (o', out)) ∧ same_office o o' ∧ office_inv a o' ∧
    ∀ to packet, out = Some (to, packet) → to ∈ A ∧ wire_ok to packet ∧
      ∃ p b, at_phase o t = SendNet p b ∧ wire_message packet = message_of p b.
Proof.
  intros Ho. pose proof (of_send _ _ Ho) as Hse. pose proof Hse as [Hl Hb Hd Hp]. pose proof (Hl t) as Hlt. pose proof (Hp t) as Hpt.
  unfold Send. destruct (at_phase o t) as [|p b|p b| | |box|p m d] eqn:Ep; try by left.
  - destruct (sendLock o) as [u|] eqn:El; [by left|right]. do 2 eexists. split; [done|]. split; [done|]. split; [|done].
    apply (office_goto a o); try done.
    apply (send_goto a o); try done; [by rewrite Ep|]. right. split; [by right|done].
  - right. destruct Hpt as (Hbl & Hfr & Hto & Hg). destruct (good_facts _ _ _ Hg) as (_ & Hlen & Hmax & _).
    change MAX_PACKET_SIZE with 52 in Hbl.
    assert (El : sendLock o = Some t) by by apply Hlt.
    rewrite Network.Send_ok; [|done|change MAX_PACKET_SIZE with 52; lia|by rewrite (of_ident _ _ Ho)|by apply A_words|
      by apply (gd_from _ _ Hg)|change MAX_PACKET_SIZE with 52; lia|by apply uninit_length].
    cbn [mbind result_bind].
    do 2 eexists. split; [done|]. split; [done|]. split.
    + apply (office_goto a o); try done. split; cbn; try done.
      * intros u. case_decide; [by subst|apply Hl].
      * right. destruct Hd as [(-> & -> & Hn)|[_ [u Hu]]].
        -- split; [by left|]. exists t. by rewrite decide_True.
        -- assert (sendLock o = Some u) by (apply Hl; by rewrite Hu). congruence.
      * intros u. case_decide; [done|apply Hp].
    + intros to packet E. destruct (lost (network o) random); [done|]. cbn [option_map] in E.
      assert (to = packet_to p) as -> by congruence.
      assert (Hpk : packet = packet_bytes p ++ take (Z.to_nat (packet_length p)) b ++ drop (12 + Z.to_nat (packet_length p)) (uninit MAX_WIRE_SIZE))
        by congruence. clear E. rewrite Hpk.
      assert (E : ∀ rest, wire_message (packet_bytes p ++ take (Z.to_nat (packet_length p)) b ++ rest) = message_of p b)
        by (intros rest; apply (wire_message_ok (packet_to p)); [done|by apply A_words|done]).
      split; [done|]. split; [split; [|by rewrite E]|by exists p, b].
      rewrite !length_app, length_drop, length_take, uninit_length by done. change (length (packet_bytes p)) with (length (header_bytes (packet_to p) (packet_from p) (packet_length p))).
      rewrite three_words_length. change MAX_WIRE_SIZE with 64. lia.
  - case_bool_decide as Em; [by left|right]. do 2 eexists. split; [done|]. split; [done|]. split; [|done].
    assert (El : sendLock o = Some t) by by apply Hlt.
    apply (office_goto a o); try done. split; cbn; try done.
    + intros u. case_decide; [by subst|apply Hl].
    + left. destruct Hd as [(_ & ? & _)|[[[_ ?]|[-> ->]] _]]; [done|done|]. split_and!; [done|done|].
      intros u. case_decide as Hu; [done|]. intros E. assert (sendLock o = Some u) by (apply Hl; by rewrite E). congruence.
    + intros u. case_decide; [done|apply Hp].
  - right. do 2 eexists. split; [done|]. split; [done|]. split; [|done].
    apply (office_goto a o); try done. apply (send_goto a o); try done; [by rewrite Ep|]. right. split; [left; by apply Hlt|done].
Qed.

Lemma Receive_step_ok a o t : office_inv a o →
  Receive o t = Ok None ∨ ∃ o', Receive o t = Ok (Some o') ∧ same_office o o' ∧ office_inv a o'.
Proof.
  intros Ho. pose proof (of_send _ _ Ho) as Hse. pose proof (sn_phase _ _ Hse t) as Hpt.
  pose proof (of_recv _ _ Ho) as [Hb Hp Ha Hw Hd Hk Hi Hu Hor Hm].
  unfold Receive. destruct (at_phase o t) as [|p b|p b| | |box|p m d] eqn:Ep; try by left.
  - cbn in Hpt. destruct (rd_in_range (boxes o) box) as (bx & Er & Hbx); [lia|]. rewrite Er. cbn [mbind result_bind].
    destruct (Hm _ _ (proj1 Hpt) Hbx) as [Hok Hf]. unfold Get. destruct bx as [|mail rest]; [by left|right].
    apply Forall_cons in Hok as [[Hml Hmx] Hok].
    rewrite slice_0 by lia. cbn [mbind result_bind]. rewrite wr_ok by lia. cbn [mbind result_bind].
    eexists. split; [done|]. split; [done|].
    apply (office_inv_intro a o); [done|done| |].
    + split; cbn; try done.
      * by rewrite length_insert.
      * intros b bx Hb0 Hbx'. destruct (decide (b = box)) as [->|Hne].
        -- rewrite list_lookup_insert_eq in Hbx' by lia. injection Hbx' as <-. split; [done|].
           by rewrite Hf, <-app_assoc.
        -- rewrite list_lookup_insert_ne in Hbx' by lia. by apply Hm.
    + apply (send_inv_same a (goto o t (BoxGot (pktHdr mail) (mailHdr mail) (take (Z.to_nat (mail_length (mailHdr mail))) (mail_data mail))))); [|done].
      apply (send_goto a o); try done; [by rewrite Ep|cbn; lia|apply Hse|left; by rewrite Ep].
  - cbn in Hpt. right. rewrite bool_decide_true by done. cbn [ASSERT mbind result_bind]. eexists. split; [done|]. split; [done|].
    apply (office_goto a o); try done. apply (send_goto a o); try done; [by rewrite Ep|apply Hse|left; by rewrite Ep].
Qed.

Lemma arrive_ok a o packet : office_inv a o → wire_ok a packet →
  office_inv a (set_history (set_network o (arrive (network o) packet)) (arrived o ++ [wire_message packet]) (delivered o) (taken o)).
Proof.
  intros [H1 H2 H3 [Hb Hp Ha Hw Hd Hk Hi Hu Hor Hm] Hse] Hok. split; cbn; try done; [|by apply (send_inv_same a o)].
  split; cbn; try done.
  - apply Forall_app. split; [done|by constructor].
  - rewrite Hor. unfold transit, in_worker. cbn. by rewrite map_app, !app_assoc.
Qed.

(** *** All machines *)

Definition world_inv (w : world) : Prop := dom w = A ∧ ∀ a o, w !! a = Some o → office_inv a o.

(** The machines after their boot. *)
Definition boot_world (w : world) : Prop :=
  dom w = A ∧ ∀ a o, w !! a = Some o → ∃ reliability, new_PostOffice a reliability NB = Ok o.
Definition world_reachable (w : world) : Prop := ∃ w0, boot_world w0 ∧ rtc world_step w0 w.

Lemma new_PostOffice_inv a r o : new_PostOffice a r NB = Ok o → office_inv a o.
Proof.
  unfold new_PostOffice. rewrite bool_decide_true by lia. cbn [ASSERT mbind result_bind]. intros [= <-].
  split; try done; split; cbn; try done.
  - by rewrite length_replicate.
  - left. split; [done|]. by left.
  - rewrite uninit_length by done. done.
  - rewrite uninit_length by done. done.
  - intros b box Hb Hbox. by apply lookup_replicate in Hbox as [-> _].
  - left. done.
Qed.

Lemma world_inv_insert w a o o' : world_inv w → w !! a = Some o → office_inv a o' → world_inv (<[a := o']> w).
Proof.
  intros [Hd Hw] Ha Ho. split.
  - rewrite dom_insert_L, Hd. apply elem_of_dom_2 in Ha. set_solver.
  - intros b x Hb. apply lookup_insert_Some in Hb as [[<- <-]|[_ Hb]]; [done|by apply Hw].
Qed.

Lemma office_step_inv a o o' : office_inv a o → office_step o o' → same_office o o' ∧ office_inv a o'.
Proof.
  intros Ho H. destruct H as [o o' _ H|o Hd|o o' H].
  - destruct (read_ok a o Ho) as (x & E & Hs & Hx & _). rewrite E in H. by injection H as <-.
  - by destruct (sent_ok a o Ho Hd) as (? & ? & _).
  - destruct (worker o) as [| |p m] eqn:Ew.
    + destruct (wait_ok a o Ho Ew) as [[_ E]|[_ (x & E & Hs & Hx & _)]]; rewrite E in H; [done|by injection H as <-].
    + destruct (receive_ok a o Ho Ew) as (x & E & Hs & Hx & _). rewrite E in H. by injection H as <-.
    + destruct (put_ok a o p m Ho Ew) as (x & E & Hs & Hx & _). rewrite E in H. by injection H as <-.
Qed.

Lemma send_step_ok w a o t random : world_inv w → w !! a = Some o →
  ∃ r, send_step w a o t random = Ok r ∧ ∀ w', r = Some w' → world_inv w'.
Proof.
  intros Hw Ha. unfold send_step.
  destruct (Send_step_ok a o t random (proj2 Hw _ _ Ha)) as [E|(o' & out & E & Hs & Ho' & Hout)]; rewrite E; cbn [mbind result_bind].
  - exists None. done.
  - pose proof (world_inv_insert _ _ _ _ Hw Ha Ho') as Hw'.
    destruct out as [[to packet]|]; [|eexists; split; [done|by intros ? [= <-]]].
    destruct (Hout _ _ eq_refl) as (Hto & Hok & _). unfold SendToSocket.
    rewrite <-(proj1 Hw'), elem_of_dom in Hto. destruct Hto as [x Hx]. rewrite Hx. cbn [mbind result_bind].
    eexists. split; [done|]. intros w' [= <-]. apply (world_inv_insert _ _ x); [done|done|].
    apply arrive_ok; [by apply Hw'|done].
Qed.

Lemma valid_send_ok w a o p m d : world_inv w → w !! a = Some o → valid_send w o p m d →
  ∃ r, Send_prepare o p m d = Ok r ∧
    message_of r.1 r.2 = (mkPacketHeader (packet_to p) a (mail_length m + MAIL_HEADER_SIZE), m, take (Z.to_nat (mail_length m)) d) ∧
    phase_ok a (SendLock r.1 r.2).
Proof.
  intros [Hd Hw] Ha ([x Hx] & Hto & Hf & Hl & Hlen). pose proof (Hw _ _ Ha) as Ho.
  assert (a ∈ A) by (rewrite <-Hd; by eapply elem_of_dom_2). assert (packet_to p ∈ A) by (rewrite <-Hd; by eapply elem_of_dom_2).
  rewrite (of_boxes _ _ Ho) in Hto.
  destruct (Send_prepare_ok o p m d) as (b & E & Hb & Hm & Hg); try done; [by rewrite (of_addr _ _ Ho)|apply (of_boxes _ _ Ho)|].
  rewrite (of_addr _ _ Ho) in *. eexists. split; [exact E|]. by split.
Qed.

Lemma world_step_inv w w' : world_inv w → world_step w w' → world_inv w'.
Proof.
  intros Hw H. destruct H as [w a o o' Ha H|w a o t p m d r Ha Ht Hv H|w a o t box Ha Ht H|w a o t random w' Ha H|w a o t o' Ha H].
  - apply (world_inv_insert _ _ o); [done|done|]. by eapply office_step_inv, H; apply Hw.
  - pose proof (proj2 Hw _ _ Ha) as Ho. destruct (valid_send_ok _ _ _ _ _ _ Hw Ha Hv) as (r' & E & _ & Hok).
    rewrite E in H. injection H as <-. apply (world_inv_insert _ _ o); [done|done|]. apply (office_goto a o); try done.
    apply (send_goto a o); try done; [apply Ho|by rewrite Ht|apply Ho|left; by rewrite Ht].
  - pose proof (proj2 Hw _ _ Ha) as Ho. unfold Receive_begin in H. rewrite (of_boxes _ _ Ho) in H. invok.
    apply bool_decide_eq_true in Heqb. apply (world_inv_insert _ _ o); [done|done|]. apply (office_goto a o); try done.
    apply (send_goto a o); try done; [apply Ho|by rewrite Ht|cbn; lia|apply Ho|left; by rewrite Ht].
  - destruct (send_step_ok _ _ _ t random Hw Ha) as (r & E & Hr). rewrite E in H. apply Hr. congruence.
  - destruct (Receive_step_ok a o t (proj2 Hw _ _ Ha)) as [E|(x & E & _ & Hx)]; rewrite E in H; [done|]. injection H as <-.
    by apply (world_inv_insert _ _ o).
Qed.

Lemma world_reachable_inv w : world_reachable w → world_inv w.
Proof.
  intros (w0 & [Hd H0] & Hr). revert Hr. apply (rtc_ind_r world_inv).
  - split; [done|]. intros a o Ha. destruct (H0 _ _ Ha) as [r Hr]. by eapply new_PostOffice_inv.
  - intros y z _ Hs Hi. by eapply world_step_inv.
Qed.

(** ** Theorems *)

(** C19: The network delivers messages in order and undamaged.  In every reachable
    state of any number of machines, for every interleaving of their threads,
    postal workers and interrupts: no assertion fails anywhere; a valid message of
    a thread becomes a packet that is read back as this message, with the address of the
    sender, whatever the uninitialised buffers hold; at most one thread of a
    machine uses the device; and the messages for a mailbox that reached the
    machine are, in this order, those taken from the box, those in the box, and those
    on their way to it. *)
Theorem messages_in_order w a o (Hw : world_reachable w) (Ha : w !! a = Some o) :
  ((∃ o', ReadAvail o = Ok o') ∧ (∃ r, PostalDelivery o = Ok r) ∧ (∀ t random, ∃ r, send_step w a o t random = Ok r) ∧
   (∀ t, ∃ r, Receive o t = Ok r)) ∧
  (∀ p m d, valid_send w o p m d → ∃ r, Send_prepare o p m d = Ok r ∧ message_of r.1 r.2
     = (mkPacketHeader (packet_to p) a (mail_length m + MAIL_HEADER_SIZE), m, take (Z.to_nat (mail_length m)) d)) ∧
  (∀ t random o' to packet, Send o t random = Ok (Some (o', Some (to, packet))) →
     ∃ p b, at_phase o t = SendNet p b ∧ wire_message packet = message_of p b) ∧
  (∀ t u, sending (at_phase o t) = true → sending (at_phase o u) = true → t = u) ∧
  (∀ b, 0 ≤ b < NB → ∃ box, boxes o !! Z.to_nat b = Some box ∧
     for_box b (arrived o) = taken o b ++ map mail_message box ++ for_box b (transit o)).
Proof.
  pose proof (world_reachable_inv w Hw) as Hi. pose proof (proj2 Hi _ _ Ha) as Ho. split_and!.
  - destruct (read_ok a o Ho) as (x & ? & _). by exists x.
  - destruct (worker o) as [| |p m] eqn:Ew.
    + destruct (wait_ok a o Ho Ew) as [[_ E]|[_ (x & E & _)]]; eauto.
    + destruct (receive_ok a o Ho Ew) as (x & E & _). eauto.
    + destruct (put_ok a o p m Ho Ew) as (x & E & _). eauto.
  - intros t random. destruct (send_step_ok w a o t random Hi Ha) as (r & ? & _). eauto.
  - intros t. destruct (Receive_step_ok a o t Ho) as [E|(x & E & _)]; eauto.
  - intros p m d Hv. destruct (valid_send_ok _ _ _ _ _ _ Hi Ha Hv) as (r & ? & ? & _). eauto.
  - intros t random o' to packet E. destruct (Send_step_ok a o t random Ho) as [E2|(x & out & E2 & _ & _ & Hout)]; [congruence|].
    apply (Hout to). congruence.
  - intros t u Ht Hu. apply (sn_lock _ _ (of_send _ _ Ho)) in Ht, Hu. congruence.
  - intros b Hb. pose proof (of_recv _ _ Ho) as Hr. destruct (lookup_lt_is_Some_2 (boxes o) (Z.to_nat b)) as [box Hbox].
    { rewrite (rv_boxes _ _ Hr). lia. }
    exists box. split; [done|]. rewrite (rv_order _ _ Hr). unfold for_box. rewrite filter_app.
    fold (for_box b (delivered o)). rewrite (proj2 (rv_mail _ _ Hr b box (proj1 Hb) Hbox)). by rewrite <-app_assoc.
Qed.

(** One more message reaches its box. *)
Lemma deliver_one a o : office_inv a o → transit o ≠ [] → ∃ o' x, rtc office_step o o' ∧ same_office o o' ∧ office_inv a o' ∧
  delivered o' = delivered o ++ [x].
Proof.
  intros Ho Hne.
  assert (Hput : ∀ p m o1, office_inv a o1 → worker o1 = WorkPut p m → ∃ o' x, rtc office_step o1 o' ∧ same_office o1 o' ∧
    office_inv a o' ∧ delivered o' = delivered o1 ++ [x]).
  { intros p m o1 H1 Hwk. destruct (put_ok a o1 p m H1 Hwk) as (o' & E & Hs & Ho' & _ & Ed).
    exists o'. eexists. split; [by apply rtc_once, office_worker|]. done. }
  assert (Hrec : ∀ o1, office_inv a o1 → worker o1 = WorkReceive → ∃ o' x, rtc office_step o1 o' ∧ same_office o1 o' ∧
    office_inv a o' ∧ delivered o' = delivered o1 ++ [x]).
  { intros o1 H1 Hwk. destruct (receive_ok a o1 H1 Hwk) as (o2 & E & [? ? ? ?] & H2 & (p & m & Hw2) & Ed).
    destruct (Hput _ _ _ H2 Hw2) as (o' & x & Hr & [? ? ? ?] & Ho' & Ed'). exists o', x. rewrite <-Ed. split_and!; [|split; congruence|done|done].
    eapply rtc_l; [by apply office_worker|done]. }
  destruct (worker o) as [| |p m] eqn:Ew; [|by apply Hrec|by eapply Hput].
  destruct (read_ok a o Ho) as (o1 & E1 & [? ? ? ?] & H1 & Hw1 & Hav). specialize (Hav Ew Hne).
  assert (delivered o1 = delivered o) as Ed1.
  { unfold ReadAvail in E1. destruct (CheckPktAvail _) as [[[] n]|]; [..|done]; by injection E1 as <-. }
  destruct (wait_ok a o1 H1 ltac:(congruence)) as [[? _]|[_ (o2 & E2 & [? ? ? ?] & H2 & Hw2 & Ed2)]]; [lia|].
  destruct (Hrec _ H2 Hw2) as (o' & x & Hr & [? ? ? ?] & Ho' & Ed'). exists o', x.
  rewrite <-Ed1, <-Ed2. split_and!; [|split; congruence|done|done].
  eapply rtc_l; [apply office_poll; [|exact E1]; rewrite (rv_polls _ _ (of_recv _ _ Ho)); lia|].
  eapply rtc_l; [by apply office_worker|done].
Qed.

Lemma deliver_all a o : office_inv a o → ∃ o', rtc office_step o o' ∧ same_office o o' ∧ office_inv a o' ∧ transit o' = [].
Proof.
  remember (length (transit o)) as n eqn:Hn. revert o Hn. induction n as [|n IH]; intros o Hn Ho.
  - exists o. destruct (transit o) eqn:E; [done|discriminate].
  - destruct (deliver_one a o Ho) as (o1 & x & Hr & [? ? ? Hs] & Ho1 & Ed); [by intros E; rewrite E in Hn|].
    pose proof (rv_order _ _ (of_recv _ _ Ho)) as E1. pose proof (rv_order _ _ (of_recv _ _ Ho1)) as E2.
    rewrite Hs, E1, Ed, <-app_assoc in E2. apply app_inv_head in E2.
    destruct (IH o1) as (o2 & Hr2 & [? ? ? ?] & Ho2 & Et); [rewrite E2 in Hn; cbn in Hn; lia|done|].
    exists o2. split_and!; [by etrans|split; congruence|done|done].
Qed.

(** C20: Mail arrives.  From every reachable state the interrupts and the postal
    worker of a machine alone bring every message that reached it into its box,
    and let the thread that waits for the device go on. *)
Theorem mail_delivery w a o (Hw : world_reachable w) (Ha : w !! a = Some o) :
  (∃ o', rtc office_step o o' ∧ world_reachable (<[a := o']> w) ∧ arrived o' = arrived o ∧ transit o' = [] ∧
     ∀ b, 0 ≤ b < NB → ∃ box, boxes o' !! Z.to_nat b = Some box ∧ for_box b (arrived o) = taken o' b ++ map mail_message box) ∧
  (∀ t random, at_phase o t = SendWait → ∃ o' o'', rtc office_step o o' ∧ Send o' t random = Ok (Some (o'', None)) ∧
     at_phase o'' t = SendUnlock).
Proof.
  pose proof (world_reachable_inv w Hw) as Hi. pose proof (proj2 Hi _ _ Ha) as Ho. split.
  - destruct (deliver_all a o Ho) as (o' & Hr & Hs & Ho' & Ht). exists o'. split_and!; [done| |apply Hs|done|].
    + destruct Hw as (w0 & H0 & Hr0). exists w0. split; [done|]. etrans; [exact Hr0|]. clear -Hr Ha.
      revert w Ha. induction Hr as [o|o o1 o2 H1 _ IH]; intros w Ha; [by rewrite insert_id|].
      eapply rtc_l; [by apply (step_office w a o o1)|]. rewrite <-(insert_insert_eq w a o2 o1). apply IH. by apply lookup_insert_eq.
    + intros b Hb. pose proof (of_recv _ _ Ho') as Hrv. destruct (lookup_lt_is_Some_2 (boxes o') (Z.to_nat b)) as [box Hbox].
      { rewrite (rv_boxes _ _ Hrv). lia. }
      exists box. split; [done|]. rewrite <-(so_arrived _ _ Hs), (rv_order _ _ Hrv), Ht, app_nil_r.
      by apply (rv_mail _ _ Hrv b box (proj1 Hb)).
  - intros t random Hph. destruct (of_send _ _ Ho) as [Hl Hb Hd Hp].
    assert (∃ o', rtc office_step o o' ∧ messageSent o' = 1 ∧ at_phase o' = at_phase o) as (o' & Hr & Hms & Hp').
    { destruct Hd as [(_ & _ & Hn)|[[[Hd Hms]|[_ Hms]] _]]; [by destruct (Hn t)| |by exists o].
      destruct (sent_ok a o Ho) as (_ & _ & Hm); [lia|]. exists (WriteDone o).
      split; [by apply rtc_once, office_done; lia|done]. }
    exists o'. eexists. split; [done|]. unfold Send. rewrite Hp', Hph, bool_decide_false by lia. split; [done|].
    cbn. by rewrite decide_True.
Qed.

End PostOffice.

(** ** Runs *)

Section Runs.
Context (uninit : Z → list Z).

#[export] Instance valid_send_dec w o p m d : Decision (valid_send w o p m d).
Proof. unfold valid_send. apply _. Defined.

(** Execution of given steps, for examples. *)
Inductive move :=
| MPoll (a : Z) | MDone (a : Z) | MWorker (a : Z)
| MCallSend (a : Z) (t : nat) (p : PacketHeader) (m : MailHeader) (d : list Z) | MSend (a : Z) (t : nat) (random : Z)
| MCallReceive (a : Z) (t : nat) (box : Z) | MReceive (a : Z) (t : nat).

Definition is_outside (p : phase) : bool := match p with Outside => true | _ => false end.
Definition to_option {B} (r : result B) : option B := match r with Ok x => Some x | Err _ => None end.

Definition move_step (w : gmap Z PostOffice) (m : move) : option (gmap Z PostOffice) :=
  match m with
  | MPoll a => o ← w !! a; _ ← guard (0 < recvPolls (network o))%nat; o' ← to_option (ReadAvail o); Some (<[a := o']> w)
  | MDone a => o ← w !! a; _ ← guard (0 < sendDones (network o))%nat; Some (<[a := WriteDone o]> w)
  | MWorker a => o ← w !! a; r ← to_option (PostalDelivery uninit o); o' ← r; Some (<[a := o']> w)
  | MCallSend a t p m d => o ← w !! a; _ ← guard (is_outside (at_phase o t) = true); _ ← guard (valid_send w o p m d);
      r ← to_option (Send_prepare uninit o p m d); Some (<[a := goto o t (SendLock r.1 r.2)]> w)
  | MSend a t random => o ← w !! a; r ← to_option (send_step uninit w a o t random); r
  | MCallReceive a t box => o ← w !! a; _ ← guard (is_outside (at_phase o t) = true); _ ← to_option (Receive_begin o box);
      Some (<[a := goto o t (BoxGet box)]> w)
  | MReceive a t => o ← w !! a; r ← to_option (Receive o t); o' ← r; Some (<[a := o']> w)
  end.
Definition moves (w : gmap Z PostOffice) (l : list move) : option (gmap Z PostOffice) :=
  foldl (λ w m, w ← w; move_step w m) (Some w) l.

Lemma to_option_Some {B} (r : result B) x : to_option r = Some x → r = Ok x.
Proof. destruct r; [by intros [= ->]|done]. Qed.

Lemma is_outside_true p : is_outside p = true → p = Outside.
Proof. by destruct p. Qed.

Lemma move_world_step w m w' : move_step w m = Some w' → world_step uninit w w'.
Proof.
  intros H. destruct m; cbn in H; repeat (apply bind_Some in H as (? & ? & H)); simplify_option_eq;
    repeat match goal with
    | E : to_option _ = Some _ |- _ => apply to_option_Some in E
    | E : is_outside _ = true |- _ => apply is_outside_true in E
    | x : unit |- _ => destruct x
    end.
  - eapply step_office; [done|]. by apply office_poll.
  - eapply step_office; [done|]. by apply office_done.
  - eapply step_office; [done|]. by eapply office_worker.
  - by eapply step_call_send.
  - by eapply step_send.
  - by eapply step_call_receive.
  - by eapply step_receive.
Qed.

Lemma moves_world l w w' : moves w l = Some w' → rtc (world_step uninit) w w'.
Proof.
  unfold moves. revert w. induction l as [|m l IH]; intros w H; cbn in H; [by injection H as ->|].
  destruct (move_step w m) as [w1|] eqn:E.
  - eapply rtc_l; [by eapply move_world_step|by apply IH].
  - exfalso. clear -H. induction l; [done|by apply IHl].
Qed.
End Runs.

(** Two machines; thread 1 of machine 0 sends "hi" and then "you" to box 4 of
    machine 1, where thread 7 has received "hi" and waits for the rest. *)
Definition demo_uninit (n : Z) : list Z := replicate (Z.to_nat n) 170.
Definition demo_office (a : Z) : PostOffice :=
  match new_PostOffice demo_uninit a 1 10 with Ok o => o | Err _ => mkPostOffice (new_Network a 1 (mkPacketHeader 0 0 0) []) a 10 [] 0 0 None WorkWait [] (λ _, Outside) [] [] (λ _, []) end.
Definition demo_boot : gmap Z PostOffice := {[ 0 := demo_office 0; 1 := demo_office 1 ]}.
Definition demo_send (bytes : list Z) : list move :=
  [MCallSend 0 1 (mkPacketHeader 1 0 0) (mkMailHeader 4 2 (Z.of_nat (length bytes))) bytes; MSend 0 1 0; MSend 0 1 0; MDone 0; MSend 0 1 0; MSend 0 1 0].
Definition demo_moves : list move :=
  demo_send [104; 105] ++ [MCallReceive 1 7 4; MPoll 1; MPoll 0; MWorker 1; MWorker 1; MWorker 1; MReceive 1 7; MReceive 1 7] ++
  demo_send [121; 111; 117] ++ [MCallReceive 1 7 4; MPoll 1; MCallSend 1 3 (mkPacketHeader 0 9 9) (mkMailHeader 0 0 1) [63]; MSend 1 3 0; MSend 1 3 0].
Definition demo_world : gmap Z PostOffice := default ∅ (moves demo_uninit demo_boot demo_moves).
Definition demo_machine : PostOffice := default (demo_office 1) (demo_world !! 1).

Lemma demo_boot_world : boot_world demo_uninit {[0; 1]} 10 demo_boot.
Proof.
  split; [vm_compute; reflexivity|]. intros a o H. exists 1%Q. unfold demo_boot in H.
  apply lookup_insert_Some in H as [[<- <-]|[_ H]]; [reflexivity|]. apply lookup_singleton_Some in H as [<- <-]. reflexivity.
Qed.

Lemma demo_moves_some : ∃ w, moves demo_uninit demo_boot demo_moves = Some w.
Proof.
  assert (H : match moves demo_uninit demo_boot demo_moves with Some _ => true | None => false end = true) by (vm_compute; reflexivity).
  destruct (moves demo_uninit demo_boot demo_moves) as [w|]; [by exists w|done].
Qed.

Lemma demo_world_reachable : world_reachable demo_uninit {[0; 1]} 10 demo_world.
Proof.
  exists demo_boot. split; [apply demo_boot_world|]. unfold demo_world. destruct demo_moves_some as [w E]. rewrite E. by eapply moves_world.
Qed.

Lemma demo_machine_lookup : demo_world !! 1 = Some demo_machine.
Proof.
  assert (H : match demo_world !! 1 with Some _ => true | None => false end = true) by (vm_compute; reflexivity).
  unfold demo_machine. by destruct (demo_world !! 1).
Qed.

Lemma demo_addresses a : a ∈ ({[0; 1]} : gset Z) → is_s32 a.
Proof. intros H. apply elem_of_union in H as [->%elem_of_singleton | ->%elem_of_singleton]; done. Qed.

Lemma demo_memory_length n : 0 ≤ n → length (demo_uninit n) = Z.to_nat n.
Proof. intros _. apply length_replicate. Qed.

Lemma messages_in_order_witness :
  taken demo_machine 4 = [(mkPacketHeader 1 0 14, mkMailHeader 4 2 2, [104; 105])] ∧
  for_box 4 (transit demo_machine) = [(mkPacketHeader 1 0 15, mkMailHeader 4 2 3, [121; 111; 117])] ∧
  ∃ box, boxes demo_machine !! 4%nat = Some box ∧
    for_box 4 (arrived demo_machine) = taken demo_machine 4 ++ map mail_message box ++ for_box 4 (transit demo_machine).
Proof.
  split; [vm_compute; reflexivity|]. split; [vm_compute; reflexivity|].
  destruct (messages_in_order demo_uninit {[0; 1]} 10 demo_addresses ltac:(lia) demo_memory_length demo_world 1 demo_machine
    demo_world_reachable demo_machine_lookup) as (_ & _ & _ & _ & H).
  destruct (H 4) as (box & Hb & E); [lia|]. exists box. split; [exact Hb|exact E].
Defined.

Lemma mail_delivery_witness :
  (∃ o', rtc (office_step demo_uninit) demo_machine o' ∧ transit o' = []) ∧
  (∃ o' o'', rtc (office_step demo_uninit) demo_machine o' ∧ Send demo_uninit o' 3 0 = Ok (Some (o'', None)) ∧ at_phase o'' 3%nat = SendUnlock).
Proof.
  destruct (mail_delivery demo_uninit {[0; 1]} 10 demo_addresses ltac:(lia) demo_memory_length demo_world 1 demo_machine
    demo_world_reachable demo_machine_lookup) as [(o' & Hr & _ & _ & Ht & _) H2].
  split; [exists o'; split; [exact Hr|exact Ht]|]. exact (H2 3%nat 0 ltac:(vm_compute; reflexivity)).
Defined.
