(* ===== verification/Syscalls.v ===== *)
(** * [userprog/exception.cc]: system calls and the start of programs

    The state of the whole kernel as a system call sees it: the running user
    program with its registers and its memory, the file system, the threads, the
    table of processes, the open files of every thread, and the console.
    [SyscallHandler] decodes the registers, calls the other components, puts the
    result into register 2 and advances the program counter.  Some calls do not
    return at once, or ever; the outcome says so. *)

From S2P Require Import Prelude Bitmap Disk FileHeader OpenFile ReadWrite FileSystem Mmu Mips AddressSpace Transfer.
From S2P Require Directory Table Threads.
From stdpp Require Import base option list gmap numbers tactics.
From stdpp Require Import list.
Open Scope Z_scope.

(** ** [userprog/syscall.h] *)
Definition SC_HALT : Z := 0.
Definition SC_EXIT : Z := 1.
Definition SC_EXEC : Z := 2.
Definition SC_JOIN : Z := 3.
Definition SC_CREATE : Z := 10.
Definition SC_REMOVE : Z := 11.
Definition SC_OPEN : Z := 12.
Definition SC_CLOSE : Z := 13.
Definition SC_READ : Z := 14.
Definition SC_WRITE : Z := 15.
Definition SC_LSDIR : Z := 16.
Definition SC_CD : Z := 17.
Definition CONSOLE_INPUT : Z := 0.
Definition CONSOLE_OUTPUT : Z := 1.

Definition FILE_NAME_MAX_LEN : Z := Z.of_nat Directory.FILE_NAME_MAX_LEN.

(** An [OpenFile *] in a table of open files; [Close] destroys the object, and
    the pointer may stay in the table. *)
Inductive file_ptr := FNull | FOpen (f : OpenFile) | FClosed.

Section Syscalls.
Context {S : Type} `{SectorStore S}.
(** Memory that is read before it is written: [Executable] objects, new buffers,
    new tables of open files, the variable [temp] of [transfer.cc]. *)
Context (garbage : list Z) (uninit : Z → list Z) (fresh_table : list file_ptr) (temp : Z).
(** The host's files by name, and the swap file of a new process. *)
Context (host_file : list Z → option Bin.BinFile) (swap_file : Z → option Bin.BinFile).

Record Sys := mkSys {
  vm : VM;                                    (* [machine] and the address spaces *)
  fs : @FileSystem S;                         (* [fileSystem] *)
  kernel : Threads.Kernel;                    (* [currentThread], [scheduler] *)
  processes : @Table.Table Z;                 (* [runningProcesses]: threads *)
  openedFiles : gmap Z (@Table.Table file_ptr);  (* [openedFilesTable] of each thread *)
  argvs : gmap Z (option (list (list Z)));    (* the arguments of threads that start *)
  input : list Z;                             (* characters [ReadConsole] will return *)
  output : list Z                             (* characters given to [WriteConsole] *)
}.

Definition set_vm (s : Sys) (v : VM) : Sys :=
  mkSys v (fs s) (kernel s) (processes s) (openedFiles s) (argvs s) (input s) (output s).
Definition set_fs (s : Sys) (x : FileSystem) : Sys :=
  mkSys (vm s) x (kernel s) (processes s) (openedFiles s) (argvs s) (input s) (output s).
Definition set_kernel (s : Sys) (k : Threads.Kernel) : Sys :=
  mkSys (vm s) (fs s) k (processes s) (openedFiles s) (argvs s) (input s) (output s).
Definition set_input (s : Sys) (i : list Z) : Sys :=
  mkSys (vm s) (fs s) (kernel s) (processes s) (openedFiles s) (argvs s) i (output s).
Definition set_output (s : Sys) (o : list Z) : Sys :=
  mkSys (vm s) (fs s) (kernel s) (processes s) (openedFiles s) (argvs s) (input s) o.

(** ** Registers *)
Definition ReadReg (s : Sys) (r : Z) : result Z := ReadRegister (machine (vm s)) r.
Definition WriteReg (s : Sys) (r v : Z) : result Sys :=
  m ← WriteRegister (machine (vm s)) r v; Ok (set_vm s (set_machine (vm s) m)).

Definition IncrementPC (s : Sys) : result Sys :=
  pc ← ReadReg s PC_REG;
  s ← WriteReg s PREV_PC_REG (s32 (u32 pc));
  pc ← ReadReg s NEXT_PC_REG;
  s ← WriteReg s PC_REG (s32 (u32 pc));
  WriteReg s NEXT_PC_REG (s32 (u32 (u32 pc + 4))).

(** ** Outcomes *)
Inductive outcome :=
| Returned (s : Sys)               (* back in the user program *)
| Halted
| Finishing (s : Sys)              (* in [Thread::Finish], which does not return *)
| Joining (s : Sys)                (* in [Thread::Join]: see [joined] *)
| Reading (s : Sys) (addr nbytes : Z) (n : nat) (buffer : list Z)
                                   (* in [ReadConsole], with [n] characters to go: see [read_console] *)
| Removing (s : Sys) (nm : list Z) (dir : list Directory.DirectoryEntry) (sector : Z)
    (fileH : RawFileHeader) (freeMap : Bitmap).
                                   (* in [FileSystem::Remove]: see [removed] *)

(** [break] out of the [switch]. *)
Definition return_to_user (s : Sys) : result outcome := s ← IncrementPC s; Ok (Returned s).
(** [machine->WriteRegister(2, v); break]. *)
Definition return_value (s : Sys) (v : Z) : result outcome := s ← WriteReg s 2 v; return_to_user s.

(** ** Calls of the other components *)
Definition on_fs {A} (s : Sys) (m : FileSystem.M (S:=S) A) : result (A * Sys) :=
  r ← m (fs s); Ok (r.1, set_fs s r.2).

(** [runningProcesses->HasKey(id)] as the file system asks it. *)
Definition is_running (s : Sys) (id : Z) : bool :=
  match Table.HasKey (processes s) id with Ok b => b | Err _ => false end.
Definition my_spaceId (s : Sys) : result Z :=
  th ← Threads.get (Threads.threads (kernel s)) (Threads.currentThread (kernel s)); Ok (Threads.spaceId th).

(** The name at an address, without its null; [None]: too long. *)
Definition read_name (s : Sys) (addr maxLen : Z) : result (option (list Z) * Sys) :=
  r ← ReadStringFromUser garbage (vm s) addr (maxLen + 1) temp;
  let '(ok, str, v) := r in
  Ok (if ok : bool then Some (removelast str) else None, set_vm s v).

(** The table of the current thread. *)
Definition GetOpenedFilesTable (s : Sys) : result (@Table.Table file_ptr) :=
  Threads.get (openedFiles s) (Threads.currentThread (kernel s)).
Definition set_files (s : Sys) (t : @Table.Table file_ptr) : Sys :=
  mkSys (vm s) (fs s) (kernel s) (processes s)
    (<[Threads.currentThread (kernel s) := t]> (openedFiles s)) (argvs s) (input s) (output s).

(** The object behind a pointer of the table changes. *)
Definition set_file (s : Sys) (fid : Z) (p : file_ptr) : result Sys :=
  t ← GetOpenedFilesTable s;
  d ← wr (Table.data t) fid p;
  Ok (set_files s (Table.mkTable d (Table.current t) (Table.freed t))).
Definition deref_file (p : file_ptr) : result OpenFile :=
  match p with FOpen f => Ok f | _ => Err NullPointer end.

(** ** The calls *)

Definition Exit (s : Sys) : result outcome :=
  status ← ReadReg s 4;
  let k := kernel s in
  th ← Threads.get (Threads.threads k) (Threads.currentThread k);
  k ← Threads.set_code k (Threads.currentThread k) (Threads.DoFinish status :: Threads.code th);
  Ok (Finishing (set_kernel s k)).

(** [new Thread(filename, isJoinable)]: the thread and its identifier.  Identifiers
    are never given back; when all are in use the model stops. *)
Definition create_thread (s : Sys) (isJoinable : bool) : result (Z * Z * Sys) :=
  let k := kernel s in
  let '(ch, k) := if isJoinable then Threads.new_Channel k else (0, k) in
  let t := fresh (dom (Threads.threads k)) in
  r ← Table.Add (Table.new_Table fresh_table) FNull;
  r ← Table.Add r.2 FNull;
  let files := r.2 in
  r ← Table.Add (processes s) t;
  let '(id, procs) := r in
  if bool_decide (id < 0) then Err Undefined
  else
    let k := Threads.set_threads k
               (<[t := Threads.new_Thread isJoinable 0 ch id]> (Threads.threads k)) in
    Ok (t, id, mkSys (vm s) (fs s) k procs (<[t := files]> (openedFiles s)) (argvs s) (input s) (output s)).

Definition Exec (s : Sys) : result outcome :=
  processAddr ← ReadReg s 4;
  argvAddr ← ReadReg s 5;
  isJoinable ← ReadReg s 6;
  if bool_decide (processAddr = 0) then return_value s (-1)
  else
    r ← read_name s processAddr FILE_NAME_MAX_LEN;
    match r with
    | (None, s) => return_value s (-1)
    | (Some filename, s) =>
        r ← (if bool_decide (argvAddr ≠ 0) then
               r ← SaveArgs garbage (vm s) argvAddr temp; Ok (r.1, set_vm s r.2)
             else Ok (None, s));
        let '(argv, s) := r in
        match host_file filename with
        | None => return_value s (-1)
        | Some executable =>
            r ← create_thread s (bool_decide (isJoinable ≠ 0));
            let '(t, id, s) := r in
            space ← new_AddressSpace garbage executable id (swap_file id);
            k ← Threads.Fork (kernel s) t [Threads.UserCode];
            return_value (mkSys (set_vm_space (vm s) id space) (fs s) k (processes s) (openedFiles s)
                            (<[t := argv]> (argvs s)) (input s) (output s)) id
        end
    end.

Definition Join (s : Sys) : result outcome :=
  id ← ReadReg s 4;
  h ← Table.HasKey (processes s) id;
  if negb h then return_value s (-1)
  else
    process ← Table.Get 0 (processes s) id;
    let k := kernel s in
    th ← Threads.get (Threads.threads k) (Threads.currentThread k);
    k ← Threads.set_code k (Threads.currentThread k) (Threads.DoJoin process :: Threads.code th);
    Ok (Joining (set_kernel s k)).
(** When [Thread::Join] returns; the value was received from the channel. *)
Definition joined (s : Sys) : result outcome :=
  th ← Threads.get (Threads.threads (kernel s)) (Threads.currentThread (kernel s));
  return_value s (Threads.received th).

Definition Create (s : Sys) : result outcome :=
  filenameAddr ← ReadReg s 4;
  isDirectory ← ReadReg s 5;
  if bool_decide (filenameAddr = 0) then return_value s 1
  else
    r ← read_name s filenameAddr FILE_PATH_MAX_LEN;
    match r with
    | (None, s) => return_value s 1
    | (Some filename, s) =>
        r ← (if bool_decide (isDirectory ≠ 0)
             then on_fs s (FileSystem.CreateDir uninit (is_running s) filename)
             else on_fs s (FileSystem.Create uninit (is_running s) filename));
        let '(ok, s) := r in
        if ok : bool then return_value s 0 else return_value s 1
    end.

Definition Remove (s : Sys) : result outcome :=
  filenameAddr ← ReadReg s 4;
  isDirectory ← ReadReg s 5;
  if bool_decide (filenameAddr = 0) then return_value s 1
  else
    r ← read_name s filenameAddr FILE_NAME_MAX_LEN;
    match r with
    | (None, s) => return_value s 1
    | (Some filename, s) =>
        me ← my_spaceId s;
        if bool_decide (isDirectory ≠ 0) then
          r ← on_fs s (FileSystem.RemoveDir uninit (is_running s) me filename);
          match r with
          | (_, Some (FileSystem.Waiting dir sector fileH freeMap), s) => Ok (Removing s filename dir sector fileH freeMap)
          | (v, _, s) => return_value s v
          end
        else
          r ← on_fs s (FileSystem.Remove uninit me filename false);
          match r with
          | (FileSystem.Waiting dir sector fileH freeMap, s) => Ok (Removing s filename dir sector fileH freeMap)
          | (FileSystem.Returned ok, s) => return_value s (if ok then 0 else 1)
          end
    end.
(** When the message of the last [Close] has arrived; [Remove] then returns true. *)
Definition removed (s : Sys) (nm : list Z) (dir : list Directory.DirectoryEntry) (sector : Z)
    (fileH : RawFileHeader) (freeMap : Bitmap) : result outcome :=
  r ← on_fs s (FileSystem.Remove_finish uninit nm dir sector fileH freeMap);
  return_value r.2 0.

Definition Open (s : Sys) : result outcome :=
  filenameAddr ← ReadReg s 4;
  if bool_decide (filenameAddr = 0) then return_value s (-1)
  else
    r ← read_name s filenameAddr FILE_NAME_MAX_LEN;
    match r with
    | (None, s) => return_value s (-1)
    | (Some filename, s) =>
        r ← on_fs s (FileSystem.Open uninit filename);
        match r with
        | (None, s) => return_value s (-1)
        | (Some openedFile, s) =>
            t ← GetOpenedFilesTable s;
            r ← Table.Add t (FOpen openedFile);
            let '(fileDescriptor, t) := r in
            return_value (set_files s t) (if bool_decide (fileDescriptor < 0) then -1 else fileDescriptor)
        end
    end.

Definition Close (s : Sys) : result outcome :=
  fid ← ReadReg s 4;
  t ← GetOpenedFilesTable s;
  h ← Table.HasKey t fid;
  if h && bool_decide (fid ≠ 0) && bool_decide (fid ≠ 1) then
    p ← Table.Get FNull t fid;
    f ← deref_file p;
    r ← on_fs s (FileSystem.close_file (is_running s) f);
    s ← set_file r.2 fid FClosed;
    t ← GetOpenedFilesTable s;
    r ← Table.Remove FNull t fid;
    return_value (set_files s r.2) 0
  else return_value s 1.

(** The loop that reads [n] more characters from the console, and what follows. *)
Fixpoint read_console (n : nat) (s : Sys) (addr nbytes : Z) (buffer : list Z) : result outcome :=
  match n with
  | O =>
      v ← WriteBufferToUser garbage (vm s) buffer addr nbytes;
      return_value (set_vm s v) nbytes
  | Datatypes.S n' =>
      match input s with
      | [] => Ok (Reading s addr nbytes n buffer)
      | c :: rest => read_console n' (set_input s rest) addr nbytes (buffer ++ [c])
      end
  end.

Definition Read (s : Sys) : result outcome :=
  usrStringAddr ← ReadReg s 4;
  nbytes ← ReadReg s 5;
  fid ← ReadReg s 6;
  if bool_decide (usrStringAddr = 0) || bool_decide (nbytes <= 0) || bool_decide (fid < 0) then return_value s 0
  else if bool_decide (fid = CONSOLE_INPUT) then read_console (Z.to_nat nbytes) s usrStringAddr nbytes []
  else
    t ← GetOpenedFilesTable s;
    h ← Table.HasKey t fid;
    if negb h then return_value s 0
    else
      p ← Table.Get FNull t fid;
      file ← deref_file p;
      r ← ReadWrite.Read FUEL file (fs_disk (fs s)) nbytes false;
      let '(bs, file, x) := r in
      r ← on_fs s (FileSystem.set_disk x);
      s ← set_file r.2 fid (FOpen file);
      let bytesRead := Z.of_nat (length bs) in
      if bool_decide (bytesRead <= 0) then return_value s 0
      else
        let buffer := bs ++ drop (length bs) (uninit (nbytes + 1)) in
        v ← WriteBufferToUser garbage (vm s) buffer usrStringAddr nbytes;
        return_value (set_vm s v) bytesRead.

Definition Write (s : Sys) : result outcome :=
  usrStringAddr ← ReadReg s 4;
  nbytes ← ReadReg s 5;
  fid ← ReadReg s 6;
  if bool_decide (usrStringAddr = 0) || bool_decide (nbytes <= 0) || bool_decide (fid < 0) then return_value s 0
  else
    r ← ReadBufferFromUser garbage (vm s) usrStringAddr nbytes temp;
    let '(buffer, v) := r in
    let s := set_vm s v in
    if bool_decide (fid = CONSOLE_OUTPUT) then
      return_value (set_output s (output s ++ take (Z.to_nat nbytes) buffer)) nbytes
    else
      t ← GetOpenedFilesTable s;
      h ← Table.HasKey t fid;
      if negb h then return_value s 0
      else
        p ← Table.Get FNull t fid;
        file ← deref_file p;
        r ← ReadWrite.Write uninit FUEL (openFilesTable (fs s)) (freeMapFile (fs s)) file (fs_disk (fs s)) buffer nbytes false;
        let '(bytesWrited, file, x) := r in
        r ← on_fs s (FileSystem.set_disk x);
        s ← set_file r.2 fid (FOpen file);
        return_value s (if bool_decide (bytesWrited <= 0) then 0 else bytesWrited).

(** [Ls] fills a buffer of [LSDIR_OUTPUT] characters. *)
Definition LsDir (s : Sys) : result outcome :=
  usrStringAddr ← ReadReg s 4;
  r ← on_fs s (FileSystem.Ls uninit);
  let '(text, s) := r in
  if bool_decide (Z.of_nat (length text) < LSDIR_OUTPUT) then
    if bool_decide (text ≠ []) then
      let lsResult := text ++ [0] ++ drop (length text + 1) (uninit LSDIR_OUTPUT) in
      v ← WriteBufferToUser garbage (vm s) lsResult usrStringAddr LSDIR_OUTPUT;
      return_to_user (set_vm s v)
    else return_to_user s
  else Err OutOfBounds.

Definition Cd (s : Sys) : result outcome :=
  dirNameAddr ← ReadReg s 4;
  if bool_decide (dirNameAddr = 0) then return_value s 1
  else
    r ← read_name s dirNameAddr FILE_PATH_MAX_LEN;
    match r with
    | (None, s) => return_value s 1
    | (Some dirname, s) =>
        r ← on_fs s (FileSystem.ChangeDir uninit (is_running s) dirname true);
        return_value r.2 (if r.1 : bool then 0 else 1)
    end.

Definition SyscallHandler (s : Sys) : result outcome :=
  scid ← ReadReg s 2;
  if bool_decide (scid = SC_HALT) then Ok Halted
  else if bool_decide (scid = SC_EXIT) then Exit s
  else if bool_decide (scid = SC_EXEC) then Exec s
  else if bool_decide (scid = SC_JOIN) then Join s
  else if bool_decide (scid = SC_CREATE) then Create s
  else if bool_decide (scid = SC_REMOVE) then Remove s
  else if bool_decide (scid = SC_OPEN) then Open s
  else if bool_decide (scid = SC_CLOSE) then Close s
  else if bool_decide (scid = SC_READ) then Read s
  else if bool_decide (scid = SC_WRITE) then Write s
  else if bool_decide (scid = SC_LSDIR) then LsDir s
  else if bool_decide (scid = SC_CD) then Cd s
  else Err AssertFail.

(** ** [StartProcess], up to [machine->Run()] *)
Definition StartProcess (v : VM) (argv : option (list (list Z))) : result VM :=
  sp ← space_of v (currentSpace v);
  v ← InitRegisters v sp;
  v ← RestoreState v;
  r ← (match argv with
       | Some args =>
           r ← WriteArgs garbage v args;
           let '(argc, v) := r in
           if bool_decide (argc ≠ 0) then
             argvaddr ← ReadRegister (machine v) STACK_REG;
             m ← WriteRegister (machine v) STACK_REG (s32 (argvaddr - 24));
             m ← WriteRegister m 5 argvaddr;
             Ok (argc, set_machine v m)
           else Ok (argc, v)
       | None => Ok (0, v)
       end);
  let '(argc, v) := r in
  m ← WriteRegister (machine v) 4 argc;
  Ok (set_machine v m).
End Syscalls.
