(* ===== verification/SyscallSpec.v ===== *)
(** * What system calls do

    The contract with user programs ([resumes]): a call that returns advances the
    program counter, answers in register 2 and keeps every other general
    register, and no call touches the open files of another thread.  Then the
    calls on the console and on files through all components, and the start of a
    program with its arguments. *)

From S2P Require Import Prelude Bitmap Disk FileHeader OpenFile ReadWrite FileSystem.
From S2P Require Import Mmu Mips AddressSpace Paging Transfer UserMemory Syscalls.
From S2P Require Directory Table Threads.
From stdpp Require Import base option list gmap numbers tactics.
From stdpp Require Import list.
Open Scope Z_scope.

(** ** Registers *)
Lemma set_reg_inv (m : Machine) r v m' : set_reg m r v = Ok m' → 0 ≤ r ∧ (Z.to_nat r < length (registers m))%nat ∧
  handlers m' = handlers m ∧ length (registers m') = length (registers m) ∧
  ∀ q, 0 ≤ q → reg m' q = if decide (q = r) then Ok v else reg m q.
Proof.
  unfold set_reg. intros (l & [Hr ->]%wr_inv & [= <-])%result_bind_ok.
  split_and!; try done; [lia|lia|apply length_insert|]. intros q Hq. apply reg_set; lia.
Qed.

(** The registers that the machine uses for delayed loads and faults. *)
Definition scratch (q : Z) : Prop := q = 0 ∨ q = LOAD_REG ∨ q = LOAD_VALUE_REG ∨ q = BAD_VADDR_REG.
#[export] Instance scratch_dec q : Decision (scratch q).
Proof. unfold scratch. apply _. Defined.

(** The same registers, and no load is pending. *)
Record same_regs (m m' : Machine) : Prop := {
  sr_reg q : 0 ≤ q → ¬ scratch q → reg m' q = reg m q;
  sr_load : reg m LOAD_REG = Ok 0 → reg m' LOAD_REG = Ok 0
}.

#[export] Instance same_regs_refl : Reflexive same_regs.
Proof. by split. Qed.

#[export] Instance same_regs_trans : Transitive same_regs.
Proof. intros m1 m2 m3 [R1 L1] [R2 L2]. split; [|auto]. intros. by rewrite R2, R1. Qed.

Lemma same_regs_registers m m' : registers m' = registers m → same_regs m m'.
Proof. intros E. unfold reg. split; [intros q _ _|intros Hl]; unfold reg; by rewrite E. Qed.

Lemma DelayedLoad_same m m' : reg m LOAD_REG = Ok 0 → DelayedLoad m 0 0 = Ok m' → same_regs m m'.
Proof.
  intros Hl. unfold DelayedLoad. rewrite Hl. cbn [mbind result_bind]. intros (lv & _ & H)%result_bind_ok.
  apply result_bind_ok in H as (m1 & (_ & _ & _ & _ & Q1)%set_reg_inv & H).
  apply result_bind_ok in H as (m2 & (_ & _ & _ & _ & Q2)%set_reg_inv & H).
  apply result_bind_ok in H as (m3 & (_ & _ & _ & _ & Q3)%set_reg_inv & (_ & _ & _ & _ & Q4)%set_reg_inv).
  split.
  - intros q Hq Hs. unfold scratch in Hs. rewrite Q4, Q3, Q2, Q1, !decide_False by tauto. done.
  - intros _. rewrite Q4, Q3, Q2 by done. done.
Qed.

Lemma RaiseException_same m et a o : reg m LOAD_REG = Ok 0 → RaiseException m et a = Ok o →
  ∃ m', o = Raised et m' ∧ same_regs m m'.
Proof.
  intros Hl (? & _ & H)%result_bind_ok. apply result_bind_ok in H as (m1 & (_ & _ & _ & _ & Q)%set_reg_inv & H).
  apply result_bind_ok in H as (m2 & H & [= <-]). exists m2. split; [done|].
  assert (Hl1 : reg m1 LOAD_REG = Ok 0) by (by rewrite Q, decide_False).
  apply DelayedLoad_same in H; [|done]. destruct H as [R L]. split.
  - intros q Hq Hs. rewrite R, Q, decide_False; [done| |done|done|done]. unfold scratch in Hs. tauto.
  - intros _. by apply L.
Qed.

(** Side conditions on register numbers. *)
Ltac reg_side := first [done|unfold scratch, NUM_GP_REGS, STACK_REG, NEXT_PC_REG, PC_REG, PREV_PC_REG, LOAD_REG, LOAD_VALUE_REG, BAD_VADDR_REG in *; lia].

Section SyscallSpec.
Context {S : Type} `{HStore : SectorStore S} `{HSpec : !SectorStoreSpec S}.
Context (garbage : list Z) (uninit : Z → list Z) (fresh_table : list file_ptr) (temp : Z).
Context (host_file : list Z → option Bin.BinFile) (swap_file : Z → option Bin.BinFile).

(** *** Accesses to user memory *)

(** The kernel accessed user memory: the same registers, in the same process. *)
Record accessed (v v' : VM) : Prop := {
  ac_regs : same_regs (machine v) (machine v');
  ac_space : currentSpace v' = currentSpace v
}.

#[local] Instance accessed_refl : Reflexive accessed.
Proof. by split. Qed.
#[local] Instance accessed_trans : Transitive accessed.
Proof. intros v1 v2 v3 [R1 C1] [R2 C2]. split; [by etrans|congruence]. Qed.

(** No delayed load is pending, as after every exception. *)
Definition quiet (v : VM) : Prop := reg (machine v) LOAD_REG = Ok 0.

Lemma accessed_quiet v v' : accessed v v' → quiet v → quiet v'.
Proof. intros [R _] Hq. by apply (sr_load _ _ R). Qed.

Lemma accessed_mmu v u : accessed v (set_vm_mmu v u).
Proof. split; [by apply same_regs_registers|done]. Qed.

Lemma raise_fault_accessed v et a v' : quiet v → raise_fault garbage v et a = Ok v' → accessed v v'.
Proof.
  intros Hq (o & HR & H)%result_bind_ok. apply RaiseException_same in HR as (m & -> & Hm); [|done].
  assert (Hd : ∀ w, DefaultHandler w = Ok v' → accessed v v') by (unfold DefaultHandler; intros; by invok).
  destruct et; try by eapply Hd. apply TLBPageFaultHandler_cpu in H. injection H as Er _ Es _. split; [|done].
  etrans; [exact Hm|]. by apply same_regs_registers.
Qed.

Lemma Machine_ReadMem_accessed v a n r v' : quiet v → Machine_ReadMem garbage v a n = Ok (r, v') → accessed v v'.
Proof.
  intros Hq (x & _ & H)%result_bind_ok. destruct x as [[e|w] u]; cbn [fst snd] in H.
  - apply result_bind_ok in H as (v1 & H & [= <- <-]). apply raise_fault_accessed in H; [|done].
    etrans; [apply accessed_mmu|exact H].
  - injection H as <- <-. apply accessed_mmu.
Qed.

Lemma Machine_WriteMem_accessed v a n w r v' : quiet v → Machine_WriteMem garbage v a n w = Ok (r, v') → accessed v v'.
Proof.
  intros Hq (x & _ & H)%result_bind_ok. destruct x as [e u]; cbn [fst snd] in H. case_decide.
  - injection H as <- <-. apply accessed_mmu.
  - apply result_bind_ok in H as (v1 & H & [= <- <-]). apply raise_fault_accessed in H; [|done].
    etrans; [apply accessed_mmu|exact H].
Qed.

(** An access, and then the rest. *)
Lemma accessed_then v v1 v2 : quiet v → accessed v v1 → (quiet v1 → accessed v1 v2) → accessed v v2.
Proof. intros Hq H1 H2. etrans; [exact H1|]. apply H2. by eapply accessed_quiet. Qed.

Lemma try_read_accessed n v a sz tmp r v' : quiet v → try_read garbage n v a sz tmp = Ok (r, v') → accessed v v'.
Proof.
  revert v. induction n as [|n IH]; cbn; intros v Hq H; [by injection H as <- <-|].
  apply result_bind_ok in H as ([[w|] v1] & H1%Machine_ReadMem_accessed & H); try done; [by injection H as <- <-|].
  eapply accessed_then; [done..|]. intros. by eapply IH.
Qed.

Lemma try_write_accessed n v a sz w r v' : quiet v → try_write garbage n v a sz w = Ok (r, v') → accessed v v'.
Proof.
  revert v. induction n as [|n IH]; cbn; intros v Hq H; [by injection H as <- <-|].
  apply result_bind_ok in H as ([[|] v1] & H1%Machine_WriteMem_accessed & H); try done; [by injection H as <- <-|].
  eapply accessed_then; [done..|]. intros. by eapply IH.
Qed.

(** *** Buffers, strings and arguments *)
Lemma read_buffer_accessed n v a tmp r v' : quiet v → read_buffer garbage n v a tmp = Ok (r, v') → accessed v v'.
Proof.
  revert v a tmp r. induction n as [|n IH]; cbn [read_buffer]; intros v a tmp r Hq H; [by injection H as <- <-|].
  apply result_bind_ok in H as ([[ok w] v1] & H1 & H). apply result_bind_ok in H as (a1 & _ & H).
  apply result_bind_ok in H as ([bs v2] & H2 & [= <- <-]).
  eapply accessed_then; [done|by eapply try_read_accessed|]. intros. by eapply IH.
Qed.

Lemma read_string_accessed n v a tmp r v' : quiet v → read_string garbage n v a tmp = Ok (r, v') → accessed v v'.
Proof.
  revert v a r. induction n as [|n IH]; cbn [read_string]; intros v a r Hq H; [by injection H as <- <-|].
  apply result_bind_ok in H as ([[ok w] v1] & H1 & H). apply result_bind_ok in H as (a1 & _ & H).
  eapply accessed_then; [done|by eapply try_read_accessed|]. intros Hq1. case_bool_decide; [by injection H as <- <-|].
  apply result_bind_ok in H as ([bs v2] & H2 & [= <- <-]). by eapply IH.
Qed.

Lemma write_buffer_accessed n v buf a v' : quiet v → write_buffer garbage n v buf a = Ok v' → accessed v v'.
Proof.
  revert v a buf. induction n as [|n IH]; cbn [write_buffer]; intros v a buf Hq H; [by injection H as <-|].
  destruct buf as [|c buf]; [done|]. apply result_bind_ok in H as ([ok v1] & H1 & H).
  apply result_bind_ok in H as (a1 & _ & H).
  eapply accessed_then; [done|by eapply try_write_accessed|]. intros Hq1. case_bool_decide; [by injection H as <-|].
  by eapply IH.
Qed.

Lemma write_string_accessed str v a v' : quiet v → write_string garbage v str a = Ok v' → accessed v v'.
Proof.
  revert v a. induction str as [|c str IH]; cbn [write_string]; intros v a Hq H; [done|].
  apply result_bind_ok in H as ([ok v1] & H1 & H). apply result_bind_ok in H as (a1 & _ & H).
  eapply accessed_then; [done|by eapply try_write_accessed|]. intros Hq1. case_bool_decide; [by injection H as <-|].
  by eapply IH.
Qed.

Lemma ReadString_accessed v a n r v' : quiet v → ReadStringFromUser garbage v a n temp = Ok (r, v') → accessed v v'.
Proof.
  unfold ReadStringFromUser. intros Hq H. invok. destruct x1 as [bs v1]. by eapply read_string_accessed.
Qed.

Lemma ReadBuffer_accessed v a n r v' : quiet v → ReadBufferFromUser garbage v a n temp = Ok (r, v') → accessed v v'.
Proof.
  unfold ReadBufferFromUser. intros Hq H. invok. destruct x1 as [bs v1]. by eapply read_buffer_accessed.
Qed.

Lemma WriteBuffer_accessed v buf a n v' : quiet v → WriteBufferToUser garbage v buf a n = Ok v' → accessed v v'.
Proof. unfold WriteBufferToUser. intros Hq H. invok. by eapply write_buffer_accessed. Qed.

Lemma count_args_accessed n c v a val r v' : quiet v → count_args garbage n c v a val = Ok (r, v') → accessed v v'.
Proof.
  revert c v val r. induction n as [|n IH]; cbn [count_args]; intros c v val r Hq H; [by injection H as <- <-|].
  apply result_bind_ok in H as ([[ok w] v1] & H1 & H).
  eapply accessed_then; [done|by eapply try_read_accessed|]. intros Hq1.
  case_bool_decide; [by eapply IH|by injection H as <- <-].
Qed.

Lemma save_args_accessed n i v a r v' : quiet v → save_args garbage n i v a temp = Ok (r, v') → accessed v v'.
Proof.
  revert i v r. induction n as [|n IH]; cbn [save_args]; intros i v r Hq H; [by injection H as <- <-|].
  apply result_bind_ok in H as ([[ok w] v1] & H1 & H). apply result_bind_ok in H as ([[ok2 str] v2] & H2 & H).
  apply result_bind_ok in H as ([rest v3] & H3 & [= <- <-]).
  eapply accessed_then; [done|by eapply try_read_accessed|]. intros Hq1.
  eapply accessed_then; [done|by eapply ReadString_accessed|]. intros Hq2. by eapply IH.
Qed.

Lemma SaveArgs_accessed v a r v' : quiet v → SaveArgs garbage v a temp = Ok (r, v') → accessed v v'.
Proof.
  unfold SaveArgs, CountArgsToSave. intros Hq H. apply result_bind_ok in H as (? & _ & H).
  apply result_bind_ok in H as (r1 & H1 & H). apply result_bind_ok in H1 as (? & _ & H1).
  apply result_bind_ok in H1 as ([[c val] v1] & H1%count_args_accessed & H2); [|done].
  destruct (_ && _); injection H2 as <-; [by injection H as <- <-|].
  apply result_bind_ok in H as ([args v2] & H & [= <- <-]).
  eapply accessed_then; [done..|]. intros. by eapply save_args_accessed.
Qed.

Lemma write_strings_accessed args v sp r v' : quiet v → write_strings garbage args v sp = Ok (r, v') → accessed v v'.
Proof.
  revert v sp r. induction args as [|a args IH]; cbn [write_strings]; intros v sp r Hq H; [by injection H as <- <-|].
  apply result_bind_ok in H as (v1 & H1 & H). apply result_bind_ok in H as ([[ad sp'] v2] & H2 & [= <- <-]).
  unfold WriteStringToUser in H1. apply result_bind_ok in H1 as (? & _ & H1%write_string_accessed); [|done].
  eapply accessed_then; [done..|]. intros. by eapply IH.
Qed.

Lemma write_argv_accessed addrs i v sp v' : quiet v → write_argv garbage addrs i v sp = Ok v' → accessed v v'.
Proof.
  revert i v. induction addrs as [|a addrs IH]; cbn [write_argv]; intros i v Hq H; [by injection H as <-|].
  apply result_bind_ok in H as ([ok v1] & H1 & H). eapply accessed_then; [done|by eapply try_write_accessed|].
  intros. by eapply IH.
Qed.

(** [WriteArgs] sets the stack pointer. *)
Lemma WriteArgs_regs v args c v' q : quiet v → WriteArgs garbage v args = Ok (c, v') →
  0 ≤ q → ¬ scratch q → q ≠ STACK_REG → reg (machine v') q = reg (machine v) q.
Proof.
  intros Hq H H0 Hs Hr. unfold WriteArgs in H. apply result_bind_ok in H as (sp & _ & H).
  apply result_bind_ok in H as ([[ad sp'] v1] & H1%write_strings_accessed & H); [|done].
  apply result_bind_ok in H as (? & _ & H). apply result_bind_ok in H as (v2 & H2%write_argv_accessed & H);
    [|by eapply accessed_quiet]. apply result_bind_ok in H as ([ok v3] & H3%try_write_accessed & H);
    [|eapply accessed_quiet; [exact H2|by eapply accessed_quiet]].
  apply result_bind_ok in H as (m & HW & [= _ <-]). cbn [snd machine set_machine] in *.
  unfold WriteRegister in HW. apply result_bind_ok in HW as (? & _ & HW). rewrite bool_decide_true in HW by done.
  apply set_reg_inv in HW as (_ & _ & _ & _ & Q). rewrite Q, decide_False by done.
  rewrite (sr_reg _ _ (ac_regs _ _ H3)), (sr_reg _ _ (ac_regs _ _ H2)), (sr_reg _ _ (ac_regs _ _ H1)) by done. done.
Qed.

(** ** The contract of a system call *)
Abbreviation Sys := (@Sys S).

(** The descriptors of the console are never closed or used for a file. *)
Definition console_fds (t : @Table.Table file_ptr) : Prop :=
  Table.keeps_low 2 t ∧ Table.data t !! 0%nat = Some FNull ∧ Table.data t !! 1%nat = Some FNull.
Definition fds_ok (s : Sys) : Prop := ∀ t tab, openedFiles s !! t = Some tab → console_fds tab.

(** The running thread and process are the same, and so are the open files of
    every other thread. *)
Record same_rest (s s' : Sys) : Prop := {
  sa_space : currentSpace (vm s') = currentSpace (vm s);
  sa_thread : Threads.currentThread (kernel s') = Threads.currentThread (kernel s);
  sa_alive t : is_Some (Threads.threads (kernel s) !! t) → is_Some (Threads.threads (kernel s') !! t);
  sa_files t : t ≠ Threads.currentThread (kernel s) → is_Some (Threads.threads (kernel s) !! t) →
    openedFiles s' !! t = openedFiles s !! t;
  sa_fds : fds_ok s → fds_ok s'
}.

#[local] Instance same_rest_refl : Reflexive same_rest.
Proof. by split. Qed.
#[local] Instance same_rest_trans : Transitive same_rest.
Proof.
  intros s1 s2 s3 [S1 T1 A1 F1 D1] [S2 T2 A2 F2 D2]. split; [congruence..|auto| |auto].
  intros t Ht Ha. rewrite F2, F1 by (congruence || auto). done.
Qed.

(** The user program has not noticed anything. *)
Record undisturbed (s s' : Sys) : Prop := {
  un_regs : same_regs (machine (vm s)) (machine (vm s'));
  un_rest : same_rest s s'
}.

#[local] Instance undisturbed_refl : Reflexive undisturbed.
Proof. by split. Qed.
#[local] Instance undisturbed_trans : Transitive undisturbed.
Proof. intros s1 s2 s3 [] []. split; by etrans. Qed.

(** It continues after the system call. *)
Record advanced (s s' : Sys) : Prop := {
  ad_reg q : 0 < q < NUM_GP_REGS → q ≠ 2 → ReadReg s' q = ReadReg s q;
  ad_pc pc npc : ReadReg s PC_REG = Ok pc → ReadReg s NEXT_PC_REG = Ok npc → is_s32 pc → is_s32 npc →
    ReadReg s' PREV_PC_REG = Ok pc ∧ ReadReg s' PC_REG = Ok npc ∧ ReadReg s' NEXT_PC_REG = Ok (s32 (npc + 4));
  ad_rest : same_rest s s'
}.

(** What the outcome of a call from state [s] promises; the states of unfinished
    calls are those from which they are continued. *)
Definition resumes (s : Sys) (o : outcome) : Prop :=
  match o with
  | Returned s' => advanced s s'
  | Halted => True
  | Finishing s' | Joining s' | Reading s' _ _ _ _ | Removing s' _ _ _ _ _ => undisturbed s s'
  end.

Lemma undisturbed_quiet s s' : undisturbed s s' → quiet (vm s) → quiet (vm s').
Proof. intros [R _]. apply (sr_load _ _ R). Qed.

Lemma accessed_undisturbed s v : accessed (vm s) v → undisturbed s (set_vm s v).
Proof. intros [R C]. split; [exact R|by split]. Qed.

Lemma WriteReg_inv (s : Sys) r v s' : r ≠ 0 → WriteReg s r v = Ok s' →
  same_rest s s' ∧ ∀ q, 0 ≤ q → reg (machine (vm s')) q = if decide (q = r) then Ok v else reg (machine (vm s)) q.
Proof.
  intros Hr. unfold WriteReg, WriteRegister. intros (m & H & [= <-])%result_bind_ok.
  apply result_bind_ok in H as (? & _ & H). rewrite bool_decide_true in H by done.
  apply set_reg_inv in H as (_ & _ & _ & _ & Q). split; [by split|exact Q].
Qed.

Lemma ReadReg_reg (s : Sys) r v : r < NUM_TOTAL_REGS → ReadReg s r = Ok v ↔ reg (machine (vm s)) r = Ok v.
Proof. intros Hr. unfold ReadReg, ReadRegister. rewrite bool_decide_true by done. done. Qed.

Lemma ReadReg_eq (s s' : Sys) r : reg (machine (vm s')) r = reg (machine (vm s)) r → ReadReg s' r = ReadReg s r.
Proof. intros E. unfold ReadReg, ReadRegister. by rewrite E. Qed.

Lemma ReadReg_inv (s : Sys) r v : ReadReg s r = Ok v → reg (machine (vm s)) r = Ok v.
Proof. unfold ReadReg, ReadRegister. by intros (? & _ & ?)%result_bind_ok. Qed.

(** [IncrementPC] after any call; [t0] is the state before the answer. *)
Lemma return_ok s0 s o : undisturbed s0 s → (∃ s1, (same_rest s s1 ∧ ∀ q, 0 ≤ q → q ≠ 2 → reg (machine (vm s1)) q = reg (machine (vm s)) q) ∧
  return_to_user s1 = Ok o) → resumes s0 o.
Proof.
  intros [[R _] Hre] (s1 & [Hs1 R1] & H). unfold return_to_user, IncrementPC in H.
  apply result_bind_ok in H as (s5 & H & [= <-]). apply result_bind_ok in H as (pc & Hpc & H).
  apply result_bind_ok in H as (s2 & [Hs2 Q2]%WriteReg_inv & H); [|done].
  apply result_bind_ok in H as (npc & Hnpc & H).
  apply result_bind_ok in H as (s3 & [Hs3 Q3]%WriteReg_inv & [Hs4 Q4]%WriteReg_inv); [|done..].
  apply ReadReg_inv in Hpc, Hnpc.
  rewrite R1, R in Hpc by reg_side. rewrite Q2, decide_False, R1, R in Hnpc by reg_side.
  split.
  - intros q Hq H2. apply ReadReg_eq.
    rewrite Q4, Q3, Q2, !decide_False, R1, R by reg_side.
    done.
  - intros pc0 npc0 E1%ReadReg_inv E2%ReadReg_inv I1 I2.
    assert (pc0 = pc) as -> by congruence. assert (npc0 = npc) as -> by congruence.
    rewrite !ReadReg_reg by done. split_and!.
    + rewrite Q4, Q3, Q2, !decide_False, decide_True by done. by rewrite s32_u32, s32_id.
    + rewrite Q4, Q3, decide_False, decide_True by done. by rewrite s32_u32, s32_id.
    + rewrite Q4, decide_True by done. rewrite <-(s32_u32 (npc + 4)). do 2 f_equal. unfold u32. by rewrite Zplus_mod_idemp_l.
  - etrans; [exact Hre|]. etrans; [exact Hs1|]. etrans; [exact Hs2|]. by etrans.
Qed.

Lemma return_to_user_resumes s0 s o : undisturbed s0 s → return_to_user s = Ok o → resumes s0 o.
Proof. intros Hu H. apply (return_ok s0 s); [done|]. by exists s. Qed.

Lemma return_value_resumes s0 s v o : undisturbed s0 s → return_value s v = Ok o → resumes s0 o.
Proof.
  intros Hu (s1 & [Hr Q]%WriteReg_inv & H)%result_bind_ok; [|done]. apply (return_ok s0 s); [done|].
  exists s1. split; [split; [done|]|done]. intros q Hq H2. by rewrite Q, decide_False.
Qed.

(** *** Parts of calls *)
Lemma step_on s1 s2 s3 : undisturbed s1 s2 → undisturbed s2 s3 → undisturbed s1 s3.
Proof. intros. by etrans. Qed.

Lemma on_fs_undisturbed {A} (s : Sys) (m : FileSystem.M A) a s' : on_fs s m = Ok (a, s') → undisturbed s s'.
Proof. intros (r & _ & [= _ <-])%result_bind_ok. done. Qed.

Lemma read_name_undisturbed (s : Sys) a n r s' : quiet (vm s) → read_name garbage temp s a n = Ok (r, s') → undisturbed s s'.
Proof.
  intros Hq ([[ok str] v] & H & [= _ <-])%result_bind_ok. by eapply accessed_undisturbed, ReadString_accessed.
Qed.

Lemma set_files_undisturbed (s : Sys) t : (fds_ok s → console_fds t) → undisturbed s (set_files s t).
Proof.
  intros Ht. split; [done|]. split; try done.
  - intros u Hu _. cbn. by rewrite lookup_insert_ne.
  - intros Hs u tab. cbn. intros [[<- <-]|[_ Hu]]%lookup_insert_Some; [by apply Ht|by apply (Hs u)].
Qed.

Lemma table_fds (s : Sys) t : fds_ok s → GetOpenedFilesTable s = Ok t → console_fds t.
Proof.
  intros Hs. unfold GetOpenedFilesTable, Threads.get. destruct (openedFiles s !! _) eqn:E; [|done].
  intros [= <-]. by apply (Hs _ _ E).
Qed.

(** A descriptor with a file behind it is not one of the console's. *)
Lemma deref_low t fid p f : console_fds t → Table.Get FNull t fid = Ok p → deref_file p = Ok f → 2 ≤ fid.
Proof.
  intros (_ & H0 & H1) H Hp. unfold Table.Get in H. apply result_bind_ok in H as (? & Ha & H). unfold ASSERT in Ha. case_bool_decide; [|done].
  apply result_bind_ok in H as ([|] & _ & H); [|injection H as <-; done]. destruct (decide (2 ≤ fid)); [done|].
  assert (p = FNull) as ->; [|done]. apply rd_inv in H as [_ H].
  assert (fid = 0 ∨ fid = 1) as [-> | ->] by lia; [change (Z.to_nat 0) with 0%nat in H|change (Z.to_nat 1) with 1%nat in H]; congruence.
Qed.

Lemma set_file_undisturbed (s s0 : Sys) t fid p p' f s' : GetOpenedFilesTable s0 = Ok t → undisturbed s0 s →
  openedFiles s = openedFiles s0 →
  Table.Get FNull t fid = Ok p → deref_file p = Ok f → set_file s fid p' = Ok s' → undisturbed s s'.
Proof.
  intros Ht Hu Eo Hp Hf (t' & Ht' & H)%result_bind_ok. apply result_bind_ok in H as (d & [_ ->]%wr_inv & [= <-]).
  assert (t' = t) as ->.
  { unfold GetOpenedFilesTable in *. rewrite Eo, (sa_thread _ _ (un_rest _ _ Hu)) in Ht'. congruence. }
  apply set_files_undisturbed. intros Hs. assert (Hc : console_fds t).
  { apply (table_fds s0); [|done]. intros u tab. rewrite <-Eo. apply Hs. }
  pose proof (deref_low _ _ _ _ Hc Hp Hf). destruct Hc as ([] & H0 & H1).
  split; [done|]. cbn. by rewrite !list_lookup_insert_ne by lia.
Qed.

(** The threads may change, but the running one still runs. *)
Record same_threads (k k' : Threads.Kernel) : Prop := {
  st_current : Threads.currentThread k' = Threads.currentThread k;
  st_alive t : is_Some (Threads.threads k !! t) → is_Some (Threads.threads k' !! t)
}.

Lemma update_same_threads k t g k' : Threads.update k t g = Ok k' → same_threads k k'.
Proof.
  intros (th & _ & [= <-])%result_bind_ok. split; [done|]. intros u Hu. cbn. by apply lookup_insert_is_Some'; right.
Qed.

Lemma set_kernel_undisturbed (s : Sys) k : same_threads (kernel s) k → undisturbed s (set_kernel s k).
Proof. intros [C A]. by split. Qed.

Lemma Fork_same_threads k t func k' : Threads.Fork k t func = Ok k' → same_threads k k'.
Proof.
  intros (k1 & [C1 A1]%update_same_threads & H)%result_bind_ok.
  apply result_bind_ok in H as (k2 & [C2 A2]%update_same_threads & H).
  apply result_bind_ok in H as (p & _ & [= <-]). split; [cbn; congruence|]. intros u Hu. cbn. auto.
Qed.

Lemma create_thread_undisturbed (s : Sys) j t id s' : create_thread fresh_table s j = Ok (t, id, s') →
  undisturbed s s' ∧ Threads.threads (kernel s) !! t = None.
Proof.
  unfold create_thread. intros H.
  assert (Hk : ∀ ch k, (if j then Threads.new_Channel (kernel s) else (0, kernel s)) = (ch, k) →
    Threads.threads k = Threads.threads (kernel s) ∧ Threads.currentThread k = Threads.currentThread (kernel s)).
  { intros ch k E. destruct j; [|by injection E as <- <-]. unfold Threads.new_Channel, Threads.new_Lock,
      Threads.new_Semaphore, Threads.new_Condition in E. by injection E as <- <-. }
  destruct (if j then _ else _) as [ch k]. destruct (Hk ch k eq_refl) as [Et Ec].
  apply result_bind_ok in H as (r1 & HA1 & H). apply result_bind_ok in H as (r2 & HA2 & H).
  apply result_bind_ok in H as ([n procs] & _ & H). case_bool_decide; [done|]. injection H as <- <- <-.
  rewrite Et. assert (Hn : Threads.threads (kernel s) !! fresh (dom (Threads.threads (kernel s))) = None).
  { apply not_elem_of_dom, is_fresh. }
  split; [|done]. split; [done|]. split; cbn; try done.
  - intros u Hu. apply lookup_insert_is_Some'. by right.
  - intros u _ [x Hx]. rewrite lookup_insert_ne; [done|]. intros <-. congruence.
  - intros Hs u tab. cbn. intros [[<- <-]|[_ Hu]]%lookup_insert_Some; [|by apply (Hs u)].
    unfold Table.Add in HA1. cbn in HA1. apply result_bind_ok in HA1 as (d1 & [L1 ->]%wr_inv & [= <-]).
    unfold Table.Add in HA2. cbn in HA2. apply result_bind_ok in HA2 as (d2 & [L2 ->]%wr_inv & [= <-]).
    rewrite length_insert in L2. split_and!; [split; cbn; [lia|constructor|constructor]|..]; cbn.
    + rewrite list_lookup_insert_ne by done. apply list_lookup_insert_eq. lia.
    + apply list_lookup_insert_eq. rewrite length_insert. lia.
Qed.

(** *** The calls *)

Lemma Exit_resumes (s : Sys) o : Exit s = Ok o → resumes s o.
Proof.
  intros (st & _ & H)%result_bind_ok. apply result_bind_ok in H as (th & _ & H).
  apply result_bind_ok in H as (k & H & [= <-]). apply set_kernel_undisturbed. by eapply update_same_threads.
Qed.

Lemma Join_resumes (s : Sys) o : Syscalls.Join s = Ok o → resumes s o.
Proof.
  intros (id & _ & H)%result_bind_ok. apply result_bind_ok in H as (h & _ & H).
  destruct (negb h); [by eapply return_value_resumes|]. apply result_bind_ok in H as (p & _ & H).
  apply result_bind_ok in H as (th & _ & H). apply result_bind_ok in H as (k & H & [= <-]).
  apply set_kernel_undisturbed. by eapply update_same_threads.
Qed.

Lemma joined_resumes (s : Sys) o : joined s = Ok o → resumes s o.
Proof. intros (th & _ & H)%result_bind_ok. by eapply return_value_resumes. Qed.

Lemma Exec_resumes (s : Sys) o : quiet (vm s) →
  Exec garbage fresh_table temp host_file swap_file s = Ok o → resumes s o.
Proof.
  intros Hq (a & _ & H)%result_bind_ok. apply result_bind_ok in H as (av & _ & H).
  apply result_bind_ok in H as (j & _ & H). case_bool_decide; [by eapply return_value_resumes|].
  apply result_bind_ok in H as ([nm s1] & H1%read_name_undisturbed & H); [|done].
  destruct nm as [nm|]; [|by eapply return_value_resumes].
  apply result_bind_ok in H as ([argv s2] & H2 & H).
  assert (Hu : undisturbed s s2).
  { eapply step_on; [exact H1|]. destruct (bool_decide (av ≠ 0)); [|by injection H2 as <- <-].
    apply result_bind_ok in H2 as ([x v] & H2%SaveArgs_accessed & [= _ <-]); [by apply accessed_undisturbed|].
    by eapply undisturbed_quiet. }
  destruct (host_file nm) as [ex|]; [|by eapply return_value_resumes].
  apply result_bind_ok in H as ([[t id] s3] & [H3 _]%create_thread_undisturbed & H).
  apply result_bind_ok in H as (sp & _ & H). apply result_bind_ok in H as (k & HF%Fork_same_threads & H).
  eapply return_value_resumes; [|exact H]. eapply step_on; [exact Hu|]. eapply step_on; [exact H3|].
  split; [done|]. by destruct HF.
Qed.

Lemma Create_resumes (s : Sys) o : quiet (vm s) → Create garbage uninit temp s = Ok o → resumes s o.
Proof.
  intros Hq (a & _ & H)%result_bind_ok. apply result_bind_ok in H as (d & _ & H).
  case_bool_decide; [by eapply return_value_resumes|].
  apply result_bind_ok in H as ([nm s1] & H1%read_name_undisturbed & H); [|done].
  destruct nm as [nm|]; [|by eapply return_value_resumes].
  apply result_bind_ok in H as ([ok s2] & H2 & H).
  assert (Hu : undisturbed s s2).
  { eapply step_on; [exact H1|]. case_bool_decide; by eapply on_fs_undisturbed. }
  destruct ok; by eapply return_value_resumes.
Qed.

Lemma Remove_resumes (s : Sys) o : quiet (vm s) → Remove garbage uninit temp s = Ok o → resumes s o.
Proof.
  intros Hq (a & _ & H)%result_bind_ok. apply result_bind_ok in H as (d & _ & H).
  case_bool_decide; [by eapply return_value_resumes|].
  apply result_bind_ok in H as ([nm s1] & H1%read_name_undisturbed & H); [|done].
  destruct nm as [nm|]; [|by eapply return_value_resumes]. apply result_bind_ok in H as (me & _ & H).
  case_bool_decide; apply result_bind_ok in H as (r & HR & H).
  - destruct r as [[v ro] s2]. apply on_fs_undisturbed in HR. pose proof (step_on _ _ _ H1 HR) as Hu.
    destruct ro as [[b|dir sec fh fm]|]; [by eapply return_value_resumes|by injection H as <-|by eapply return_value_resumes].
  - destruct r as [ro s2]. apply on_fs_undisturbed in HR. pose proof (step_on _ _ _ H1 HR) as Hu.
    destruct ro as [b|dir sec fh fm]; [by eapply return_value_resumes|by injection H as <-].
Qed.

Lemma removed_resumes (s : Sys) nm dir sec fh fm o : removed uninit s nm dir sec fh fm = Ok o → resumes s o.
Proof.
  intros ([b s1] & H1%on_fs_undisturbed & H)%result_bind_ok. by eapply return_value_resumes.
Qed.

Lemma Open_resumes (s : Sys) o : quiet (vm s) → Open garbage uninit temp s = Ok o → resumes s o.
Proof.
  intros Hq (a & _ & H)%result_bind_ok. case_bool_decide; [by eapply return_value_resumes|].
  apply result_bind_ok in H as ([nm s1] & H1%read_name_undisturbed & H); [|done].
  destruct nm as [nm|]; [|by eapply return_value_resumes].
  apply result_bind_ok in H as ([f s2] & H2%on_fs_undisturbed & H). pose proof (step_on _ _ _ H1 H2) as Hu.
  destruct f as [f|]; [|by eapply return_value_resumes]. apply result_bind_ok in H as (t & Ht & H).
  apply result_bind_ok in H as ([fd t'] & HA & H). eapply return_value_resumes; [|exact H].
  eapply step_on; [exact Hu|apply set_files_undisturbed]. intros Hs.
  pose proof (table_fds _ _ Hs Ht) as (Hl & H0' & H1'). apply (Table.Add_low 2) in HA as (? & _ & Hd); [|lia|done].
  split_and!; [done|rewrite <-H0'; apply (Hd 0); lia|rewrite <-H1'; apply (Hd 1); lia].
Qed.

Lemma Close_resumes (s : Sys) o : Close s = Ok o → resumes s o.
Proof.
  intros (fid & _ & H)%result_bind_ok. apply result_bind_ok in H as (t & Ht & H).
  apply result_bind_ok in H as (h & _ & H).
  destruct (h && bool_decide (fid ≠ 0) && bool_decide (fid ≠ 1)) eqn:Eh; [|by eapply return_value_resumes].
  apply result_bind_ok in H as (p & Hp & H). apply result_bind_ok in H as (f & Hf & H).
  apply result_bind_ok in H as ([u s1] & HF & H). apply on_fs_undisturbed in HF as H1. cbn [snd] in H.
  apply result_bind_ok in H as (s2 & HS & H). apply result_bind_ok in H as (t2 & Ht2 & H).
  assert (H2 : undisturbed s1 s2).
  { eapply (set_file_undisturbed s1 s); try done. by apply result_bind_ok in HF as (? & _ & [= _ <-]). }
  apply result_bind_ok in H as ([v t3] & HR & H). eapply return_value_resumes; [|exact H].
  eapply step_on; [exact H1|]. eapply step_on; [exact H2|]. apply set_files_undisturbed.
  intros Hs2. pose proof (table_fds _ _ Hs2 Ht2) as (Hl & H0' & H1').
  assert (Hfid : 2 ≤ fid).
  { unfold Table.Remove in HR. apply result_bind_ok in HR as (? & Ha & _). unfold ASSERT in Ha.
    repeat case_bool_decide; rewrite ?andb_false_r in *; try done. lia. }
  apply (Table.Remove_low FNull 2) in HR as (? & Hd); [|lia..|done].
  unfold console_fds. cbn [snd]. by rewrite Hd.
Qed.

Lemma read_console_resumes n s0 (s : Sys) a nb buf o : quiet (vm s) → undisturbed s0 s →
  read_console garbage n s a nb buf = Ok o → resumes s0 o.
Proof.
  revert s buf. induction n as [|n IH]; cbn [read_console]; intros s buf Hq Hu H.
  - apply result_bind_ok in H as (v & Hv%WriteBuffer_accessed & H); [|done].
    eapply return_value_resumes; [|exact H]. eapply step_on; [exact Hu|by apply accessed_undisturbed].
  - destruct (input s) as [|c rest]; [by injection H as <-|]. eapply IH; [..|exact H]; [done|].
    eapply step_on; [exact Hu|done].
Qed.

Lemma Read_resumes (s : Sys) o : quiet (vm s) → Read garbage uninit s = Ok o → resumes s o.
Proof.
  intros Hq (a & _ & H)%result_bind_ok. apply result_bind_ok in H as (n & _ & H).
  apply result_bind_ok in H as (fid & _ & H). destruct (_ || _); [by eapply return_value_resumes|].
  case_bool_decide; [by eapply read_console_resumes|]. apply result_bind_ok in H as (t & Ht & H).
  apply result_bind_ok in H as (h & _ & H). destruct (negb h); [by eapply return_value_resumes|].
  apply result_bind_ok in H as (p & Hp & H). apply result_bind_ok in H as (f & Hf & H).
  apply result_bind_ok in H as ([[bs f'] x] & _ & H). apply result_bind_ok in H as ([u s1] & [= _ <-] & H).
  apply result_bind_ok in H as (s2 & HS & H). eapply set_file_undisturbed in HS as H2; [|exact Ht|done..]. assert (Hu : undisturbed s s2) by (eapply step_on; [|exact H2]; done).
  cbv zeta in H. case_bool_decide; [by eapply return_value_resumes|].
  apply result_bind_ok in H as (v & Hv%WriteBuffer_accessed & H); [|by eapply undisturbed_quiet].
  eapply return_value_resumes; [|exact H]. eapply step_on; [exact Hu|by apply accessed_undisturbed].
Qed.

Lemma Write_resumes (s : Sys) o : quiet (vm s) → Write garbage uninit temp s = Ok o → resumes s o.
Proof.
  intros Hq (a & _ & H)%result_bind_ok. apply result_bind_ok in H as (n & _ & H).
  apply result_bind_ok in H as (fid & _ & H). destruct (_ || _); [by eapply return_value_resumes|].
  apply result_bind_ok in H as ([buf v] & Hv%ReadBuffer_accessed & H); [|done]. apply accessed_undisturbed in Hv as Hu.
  cbv zeta in H. case_bool_decide; [eapply return_value_resumes; [|exact H]; eapply step_on; [exact Hu|done]|]. apply result_bind_ok in H as (t & Ht & H).
  apply result_bind_ok in H as (h & _ & H). destruct (negb h); [by eapply return_value_resumes|].
  apply result_bind_ok in H as (p & Hp & H). apply result_bind_ok in H as (f & Hf & H).
  apply result_bind_ok in H as ([[bs f'] x] & _ & H). apply result_bind_ok in H as ([u s1] & [= _ <-] & H).
  apply result_bind_ok in H as (s2 & HS & H). eapply set_file_undisturbed in HS as H2; [|exact Ht|done..]. eapply return_value_resumes; [|exact H].
  eapply step_on; [exact Hu|]. eapply step_on; [|exact H2]. done.
Qed.

Lemma LsDir_resumes (s : Sys) o : quiet (vm s) → LsDir garbage uninit s = Ok o → resumes s o.
Proof.
  intros Hq (a & _ & H)%result_bind_ok. apply result_bind_ok in H as ([txt s1] & H1%on_fs_undisturbed & H).
  case_bool_decide; [|done]. case_bool_decide; [|by eapply return_to_user_resumes].
  apply result_bind_ok in H as (v & Hv%WriteBuffer_accessed & H); [|by eapply undisturbed_quiet].
  eapply return_to_user_resumes; [|exact H]. eapply step_on; [exact H1|by apply accessed_undisturbed].
Qed.

Lemma Cd_resumes (s : Sys) o : quiet (vm s) → Cd garbage uninit temp s = Ok o → resumes s o.
Proof.
  intros Hq (a & _ & H)%result_bind_ok. case_bool_decide; [by eapply return_value_resumes|].
  apply result_bind_ok in H as ([nm s1] & H1%read_name_undisturbed & H); [|done].
  destruct nm as [nm|]; [|by eapply return_value_resumes].
  apply result_bind_ok in H as ([ok s2] & H2%on_fs_undisturbed & H). eapply return_value_resumes; [|exact H].
  by eapply step_on.
Qed.

Lemma SyscallHandler_resumes (s : Sys) o : quiet (vm s) →
  SyscallHandler garbage uninit fresh_table temp host_file swap_file s = Ok o → resumes s o.
Proof.
  intros Hq (c & _ & H)%result_bind_ok.
  case_bool_decide; [by injection H as <-|].
  case_bool_decide; [by apply Exit_resumes|].
  case_bool_decide; [by apply Exec_resumes|].
  case_bool_decide; [by apply Join_resumes|].
  case_bool_decide; [by apply Create_resumes|].
  case_bool_decide; [by apply Remove_resumes|].
  case_bool_decide; [by apply Open_resumes|].
  case_bool_decide; [by apply Close_resumes|].
  case_bool_decide; [by apply Read_resumes|].
  case_bool_decide; [by apply Write_resumes|].
  case_bool_decide; [by apply LsDir_resumes|].
  case_bool_decide; [by apply Cd_resumes|].
  done.
Qed.

(** Every exception leaves no delayed load pending. *)
Lemma RaiseException_quiet (m : Machine) et a m' : RaiseException m et a = Ok (Mips.Raised et m') → reg m' LOAD_REG = Ok 0.
Proof.
  intros (? & _ & H)%result_bind_ok. apply result_bind_ok in H as (m1 & _ & H).
  apply result_bind_ok in H as (m2 & H & [= <-]). unfold DelayedLoad in H.
  apply result_bind_ok in H as (lr & _ & H). apply result_bind_ok in H as (lv & _ & H).
  apply result_bind_ok in H as (m3 & _ & H). apply result_bind_ok in H as (m4 & (_ & _ & _ & _ & Q4)%set_reg_inv & H).
  apply result_bind_ok in H as (m5 & (_ & _ & _ & _ & Q5)%set_reg_inv & (_ & _ & _ & _ & Q6)%set_reg_inv).
  rewrite Q6, Q5, Q4 by done. done.
Qed.

(** C6: the contract of system calls.  Whatever a user program asks for, with
    any arguments: a call that comes back to it, at once or after it waited for
    another process, for a key or for a file to be closed, has advanced the
    program counter past the call instruction, has kept every general register
    but register 2, and runs in the same process and thread; a call that waits
    has not changed the registers.  No call changes the open files of another
    thread, and the descriptors 0 and 1 of the console are never closed or given
    to a file.  (No load is pending after an exception: [RaiseException_quiet].) *)
Theorem system_call_contract (s : Sys) o (Hq : quiet (vm s)) :
  SyscallHandler garbage uninit fresh_table temp host_file swap_file s = Ok o ∨ joined s = Ok o ∨
  (∃ nm dir sec fh fm, removed uninit s nm dir sec fh fm = Ok o) ∨
  (∃ n a nb buf, read_console garbage n s a nb buf = Ok o) →
  resumes s o.
Proof.
  intros [H|[H|[(nm & dir & sec & fh & fm & H)|(n & a & nb & buf & H)]]].
  - by apply SyscallHandler_resumes.
  - by apply joined_resumes.
  - by eapply removed_resumes.
  - by eapply read_console_resumes.
Qed.
End SyscallSpec.

(** ** Witness *)

(** A thread that asks to close descriptor 5, which is not open. *)
Definition demo_closing : @Sys (list (list Z)) :=
  mkSys (mkVM (mkMachine (<[2%nat := SC_CLOSE]> (<[4%nat := 5]> (<[35%nat := 4]> (replicate 40 0))))
           (mkMMU [] None None 0 [] 0 0) (λ _, true)) (mkBitmap 16 [0]) [] ∅ 3 0)
    (FileSystem.mkFS [] [] (mkOpenFile (mkHeader 0 0 [] 0) 0 0 0) (mkOpenFile (mkHeader 0 0 [] 0) 0 0 0) 0 [])
    (Threads.mkKernel {[ 1 := Threads.with_status (Threads.new_Thread false 0 0 3) Threads.RUNNING ]} [] 1 None ∅ ∅ ∅ ∅ ∅)
    (Table.new_Table (replicate 1000 0)) {[ 1 := Table.mkTable (replicate 1000 FNull) 2 [] ]} ∅ [] [].

Lemma system_call_contract_witness : ∃ s',
  SyscallHandler [] (λ _, []) [] 0 (λ _, None) (λ _, None) demo_closing = Ok (Returned s') ∧ advanced demo_closing s'.
Proof.
  destruct (SyscallHandler [] (λ _, []) [] 0 (λ _, None) (λ _, None) demo_closing) as [[s'| | | | |]|] eqn:E;
    try (vm_compute in E; discriminate E).
  exists s'. split; [reflexivity|].
  apply (system_call_contract [] (λ _, []) [] 0 (λ _, None) (λ _, None) demo_closing (Returned s')); [reflexivity|].
  left. exact E.
Defined.
