(* ===== verification/UserPrograms.v ===== *)
(** * System calls and the programs that make them, through all components

    What a user program gets from [Read] and [Write], on the console and on a
    file, whether or not its pages are in memory; that a call keeps its contract
    ([SyscallSpec]); and the state in which a new program starts. *)

From S2P Require Import Prelude Bitmap Disk FileHeader OpenFile ReadWrite FileSystem.
From S2P Require Import Mmu Mips AddressSpace Paging Transfer UserMemory Syscalls SyscallSpec.
From S2P Require Directory Table Threads Volume.
From stdpp Require Import base option list gmap numbers tactics.
From stdpp Require Import list.
Open Scope Z_scope.

(** ** Answers *)
Section Registers.
Context (garbage : list Z).
Lemma set_register_ok v r x : user_ok garbage v → 0 < r < NUM_TOTAL_REGS → r ≠ LOAD_REG →
  ∃ m, WriteRegister (machine v) r x = Ok m ∧ user_ok garbage (set_machine v m) ∧
    same_memory garbage v (set_machine v m) ∧ ∀ q, 0 ≤ q → reg m q = if decide (q = r) then Ok x else reg (machine v) q.
Proof.
  intros [[t Hi] Hr (lr & Hlr & Hl) Hf] Hrr Hne. unfold NUM_TOTAL_REGS in Hrr.
  unfold WriteRegister. rewrite (bool_decide_true (r < NUM_TOTAL_REGS)), (bool_decide_true (r ≠ 0)) by (unfold NUM_TOTAL_REGS; lia).
  cbn [ASSERT mbind result_bind].
  destruct (set_reg_effect (machine v) r x Hr) as (m & -> & Hr2 & Hmm & Hh & Q); [lia|]. exists m.
  destruct (vm_inv_registers _ v t m Hi Hmm) as [Hi2 Hv2]. change (mkVM m _ _ _ _ _) with (set_machine v m) in Hi2, Hv2.
  split_and!; [done| |by split|done]. split; [by exists t|done| |cbn; by rewrite Hh].
  exists lr. split; [|done]. cbn. rewrite Q by done. by rewrite decide_False.
Qed.
End Registers.

Section UserPrograms.
Context {S : Type} `{HStore : SectorStore S} `{HSpec : !SectorStoreSpec S}.
Context (garbage : list Z) (uninit : Z → list Z) (fresh_table : list file_ptr) (temp : Z).
Context (host_file : list Z → option Bin.BinFile) (swap_file : Z → option Bin.BinFile).
Abbreviation Sys := (@Sys S).

(** Only the registers of the machine changed. *)
Definition only_vm (s s' : Sys) : Prop := s' = set_vm s (vm s').

Lemma WriteReg_ok (s : Sys) r x : user_ok garbage (vm s) → 0 < r < NUM_TOTAL_REGS → r ≠ LOAD_REG →
  ∃ s', WriteReg s r x = Ok s' ∧ user_ok garbage (vm s') ∧ same_memory garbage (vm s) (vm s') ∧ only_vm s s' ∧
    ∀ q, 0 ≤ q → reg (machine (vm s')) q = if decide (q = r) then Ok x else reg (machine (vm s)) q.
Proof.
  intros Hu Hr Hl. destruct (set_register_ok garbage (vm s) r x Hu Hr Hl) as (m & E & Hu' & Hs & Q).
  unfold WriteReg. rewrite E. cbn [mbind result_bind]. eexists. split; [done|]. by split_and!.
Qed.

Lemma only_vm_trans (s1 s2 s3 : Sys) : only_vm s1 s2 → only_vm s2 s3 → only_vm s1 s3.
Proof. unfold only_vm. intros -> ->. done. Qed.

Lemma ReadReg_ok (s : Sys) r : user_ok garbage (vm s) → 0 ≤ r < NUM_TOTAL_REGS → ∃ x, ReadReg s r = Ok x.
Proof.
  intros Hu Hr. unfold NUM_TOTAL_REGS in Hr. unfold ReadReg, ReadRegister, reg. rewrite bool_decide_true by (unfold NUM_TOTAL_REGS; lia).
  destruct (rd_in_range (registers (machine (vm s))) r) as (x & E & _); [rewrite (uo_regs _ _ Hu); lia|]. exists x. by rewrite E.
Qed.

(** A call that answers: the program goes on, its memory is the same. *)
Lemma return_value_ok (s : Sys) x : user_ok garbage (vm s) →
  ∃ s', return_value s x = Ok (Returned s') ∧ user_ok garbage (vm s') ∧ same_memory garbage (vm s) (vm s') ∧
    only_vm s s' ∧ ReadReg s' 2 = Ok x.
Proof.
  intros Hu. unfold return_value, return_to_user, IncrementPC.
  destruct (WriteReg_ok s 2 x Hu) as (s1 & -> & Hu1 & Hm1 & Ho1 & Q1); [done..|]. cbn [mbind result_bind].
  destruct (ReadReg_ok s1 PC_REG Hu1) as (pc & ->); [done|]. cbn [mbind result_bind].
  destruct (WriteReg_ok s1 PREV_PC_REG (s32 (u32 pc)) Hu1) as (s2 & -> & Hu2 & Hm2 & Ho2 & Q2); [done..|]. cbn [mbind result_bind].
  destruct (ReadReg_ok s2 NEXT_PC_REG Hu2) as (npc & ->); [done|]. cbn [mbind result_bind].
  destruct (WriteReg_ok s2 PC_REG (s32 (u32 npc)) Hu2) as (s3 & -> & Hu3 & Hm3 & Ho3 & Q3); [done..|]. cbn [mbind result_bind].
  destruct (WriteReg_ok s3 NEXT_PC_REG (s32 (u32 (u32 npc + 4))) Hu3) as (s4 & -> & Hu4 & Hm4 & Ho4 & Q4); [done..|]. cbn [mbind result_bind].
  exists s4. split_and!; [done|done| | |].
  - etrans; [exact Hm1|]. etrans; [exact Hm2|]. by etrans.
  - eapply only_vm_trans; [exact Ho1|]. eapply only_vm_trans; [exact Ho2|]. by eapply only_vm_trans.
  - apply ReadReg_reg; [done|]. rewrite Q4, Q3, Q2, Q1, !decide_False, decide_True by done. done.
Qed.

(** ** The console *)
Abbreviation handle := (SyscallHandler garbage uninit fresh_table temp host_file swap_file).

(** The registers of a call with three arguments. *)
Record call_regs (s : Sys) (scid a b c : Z) : Prop := {
  cr_id : ReadReg s 2 = Ok scid;
  cr_1 : ReadReg s 4 = Ok a;
  cr_2 : ReadReg s 5 = Ok b;
  cr_3 : ReadReg s 6 = Ok c
}.

(** The call that the [switch] selects. *)
Lemma handle_exec (s : Sys) : ReadReg s 2 = Ok SC_EXEC → handle s = Exec garbage fresh_table temp host_file swap_file s.
Proof. intros E. unfold SyscallHandler. by rewrite E. Qed.
Lemma handle_join (s : Sys) : ReadReg s 2 = Ok SC_JOIN → handle s = Syscalls.Join s.
Proof. intros E. unfold SyscallHandler. by rewrite E. Qed.
Lemma handle_create (s : Sys) : ReadReg s 2 = Ok SC_CREATE → handle s = Create garbage uninit temp s.
Proof. intros E. unfold SyscallHandler. by rewrite E. Qed.
Lemma handle_remove (s : Sys) : ReadReg s 2 = Ok SC_REMOVE → handle s = Remove garbage uninit temp s.
Proof. intros E. unfold SyscallHandler. by rewrite E. Qed.
Lemma handle_open (s : Sys) : ReadReg s 2 = Ok SC_OPEN → handle s = Open garbage uninit temp s.
Proof. intros E. unfold SyscallHandler. by rewrite E. Qed.
Lemma handle_close (s : Sys) : ReadReg s 2 = Ok SC_CLOSE → handle s = Close s.
Proof. intros E. unfold SyscallHandler. by rewrite E. Qed.
Lemma handle_cd (s : Sys) : ReadReg s 2 = Ok SC_CD → handle s = Cd garbage uninit temp s.
Proof. intros E. unfold SyscallHandler. by rewrite E. Qed.
Lemma handle_write (s : Sys) : ReadReg s 2 = Ok SC_WRITE → handle s = Write garbage uninit temp s.
Proof. intros E. unfold SyscallHandler. by rewrite E. Qed.
Lemma handle_read (s : Sys) : ReadReg s 2 = Ok SC_READ → handle s = Read garbage uninit s.
Proof. intros E. unfold SyscallHandler. by rewrite E. Qed.
Create Rewrite HintDb syscalls.
#[local] Hint Rewrite handle_exec handle_join handle_create handle_remove handle_open handle_close handle_cd handle_read handle_write using done : syscalls.

Lemma read_console_input cs n (s : Sys) a nb buf rest : input s = cs ++ rest →
  read_console garbage (length cs + n) s a nb buf = read_console garbage n (set_input s rest) a nb (buf ++ cs).
Proof.
  revert s buf. induction cs as [|c cs IH]; intros s buf Hi; cbn in Hi.
  - rewrite app_nil_r, <-Hi. by destruct s.
  - cbn [length Nat.add read_console]. rewrite Hi, (IH (set_input s (cs ++ rest))) by done. by rewrite <-app_assoc.
Qed.

Lemma console_write_ok (s : Sys) a bs : user_ok garbage (vm s) → 0 < a →
  0 < Z.of_nat (length bs) ≤ LSDIR_OUTPUT → a + Z.of_nat (length bs) ≤ 2147483647 → Forall is_byte bs →
  call_regs s SC_WRITE a (Z.of_nat (length bs)) CONSOLE_OUTPUT → at_mem garbage (vm s) a bs →
  ∃ s', handle s = Ok (Returned s') ∧ s' = set_output (set_vm s (vm s')) (output s ++ bs) ∧
    ReadReg s' 2 = Ok (Z.of_nat (length bs)) ∧ user_ok garbage (vm s') ∧ same_memory garbage (vm s) (vm s').
Proof.
  intros Hu Ha Hn Hr Hb.
  assert (Hg : bool_decide (a = 0) || bool_decide (Z.of_nat (length bs) <= 0) = false)
    by (by rewrite !bool_decide_false by lia).
  intros Hc Hm. rewrite (handle_write _ (cr_id _ _ _ _ _ Hc)). destruct Hc as [_ E1 E2 E3]. unfold Write.
  rewrite E1, E2, E3. cbn [mbind result_bind]. rewrite Hg. cbn [orb].
  destruct (ReadBufferFromUser_correct garbage (vm s) a bs temp Hu Hm Ha Hn Hr) as (v & E & Huv & Hsv).
  rewrite E. cbn [mbind result_bind]. rewrite Nat2Z.id.
  assert (Hid : u8 <$> bs = bs).
  { clear -Hb. induction Hb as [|b bs Hb _ IH]; [done|]. cbn. rewrite IH. f_equal. apply Z.mod_small. unfold is_byte in Hb. lia. }
  rewrite Hid, take_app_length.
  destruct (return_value_ok (set_output (set_vm s v) (output s ++ bs)) (Z.of_nat (length bs)) Huv)
    as (s' & E' & Hu' & Hs' & Ho & H2).
  exists s'. split_and!; [exact E'|by rewrite Ho|done|done|]. etrans; [exact Hsv|exact Hs'].
Qed.

Lemma console_read_ok (s : Sys) a bs rest : user_ok garbage (vm s) → 0 < a →
  0 < Z.of_nat (length bs) ≤ LSDIR_OUTPUT → a + Z.of_nat (length bs) ≤ 2147483647 → Forall is_byte bs →
  call_regs s SC_READ a (Z.of_nat (length bs)) CONSOLE_INPUT → input s = bs ++ rest →
  (∀ x, a ≤ x < a + Z.of_nat (length (c_prefix bs)) → is_Some (vmem garbage (vm s) x)) →
  ∃ s', handle s = Ok (Returned s') ∧ s' = set_input (set_vm s (vm s')) rest ∧
    ReadReg s' 2 = Ok (Z.of_nat (length bs)) ∧ user_ok garbage (vm s') ∧ wrote garbage (vm s) (vm s') a (c_prefix bs).
Proof.
  intros Hu Ha Hn Hr Hb.
  assert (Hg : bool_decide (a = 0) || bool_decide (Z.of_nat (length bs) <= 0) = false)
    by (by rewrite !bool_decide_false by lia).
  intros Hc Hi Hx. rewrite (handle_read _ (cr_id _ _ _ _ _ Hc)). destruct Hc as [_ E1 E2 E3]. unfold Read.
  rewrite E1, E2, E3. cbn [mbind result_bind]. rewrite Hg. cbn [orb].
  change (bool_decide (CONSOLE_INPUT < 0)) with false. change (bool_decide (CONSOLE_INPUT = CONSOLE_INPUT)) with true.
  rewrite Nat2Z.id. pose proof (read_console_input bs 0 s a (Z.of_nat (length bs)) [] rest Hi) as E0.
  rewrite Nat.add_0_r in E0. rewrite E0. cbn [read_console app].
  destruct (WriteBuffer_ok garbage (vm s) a (Z.of_nat (length bs)) bs Hu Hb Ha Hn) as (v & E & Huv & Hw);
    [lia|by rewrite Nat2Z.id, firstn_all|done|].
  change (vm (set_input s rest)) with (vm s). rewrite E. cbn [mbind result_bind].
  destruct (return_value_ok (set_vm (set_input s rest) v) (Z.of_nat (length bs)) Huv) as (s' & E' & Hu' & Hs' & Ho & H2).
  exists s'. split_and!; [exact E'|by rewrite Ho|done|done|]. rewrite Nat2Z.id, firstn_all in Hw.
  eapply wrote_same; [exact Hw|exact Hs'].
Qed.

(** C25: [Read] and [Write] on the console.  For a buffer of at most 200 bytes,
    in memory or not, [Write] returns its length, gives exactly its bytes to the
    console, nulls included, and changes nothing else; [Read] takes exactly as
    many characters from the console as asked for, returns this number, and
    writes them up to the first null, and nothing else of any process. *)
Theorem console_calls (s : Sys) a bs rest (Hu : user_ok garbage (vm s)) (Ha : 0 < a)
  (Hn : 0 < Z.of_nat (length bs) ≤ LSDIR_OUTPUT) (Hr : a + Z.of_nat (length bs) ≤ 2147483647) (Hb : Forall is_byte bs) :
  (call_regs s SC_WRITE a (Z.of_nat (length bs)) CONSOLE_OUTPUT → at_mem garbage (vm s) a bs →
    ∃ s', handle s = Ok (Returned s') ∧ s' = set_output (set_vm s (vm s')) (output s ++ bs) ∧
      ReadReg s' 2 = Ok (Z.of_nat (length bs)) ∧ user_ok garbage (vm s') ∧ same_memory garbage (vm s) (vm s')) ∧
  (call_regs s SC_READ a (Z.of_nat (length bs)) CONSOLE_INPUT → input s = bs ++ rest →
    (∀ x, a ≤ x < a + Z.of_nat (length (c_prefix bs)) → is_Some (vmem garbage (vm s) x)) →
    ∃ s', handle s = Ok (Returned s') ∧ s' = set_input (set_vm s (vm s')) rest ∧
      ReadReg s' 2 = Ok (Z.of_nat (length bs)) ∧ user_ok garbage (vm s') ∧ wrote garbage (vm s) (vm s') a (c_prefix bs)).
Proof. split; intros; [by eapply console_write_ok|by apply console_read_ok]. Qed.

(** ** Calls with bad arguments *)
(** The longest name a call accepts, and its answer when it fails. *)
Definition name_call (scid : Z) : option (Z * Z) :=
  if bool_decide (scid = SC_EXEC) then Some (FILE_NAME_MAX_LEN, -1)
  else if bool_decide (scid = SC_CREATE) then Some (FILE_PATH_MAX_LEN, 1)
  else if bool_decide (scid = SC_REMOVE) then Some (FILE_NAME_MAX_LEN, 1)
  else if bool_decide (scid = SC_OPEN) then Some (FILE_NAME_MAX_LEN, -1)
  else if bool_decide (scid = SC_CD) then Some (FILE_PATH_MAX_LEN, 1)
  else None.

(** Call [scid] in state [s] has an argument it must refuse, with answer [v]. *)
Inductive bad_call (s : Sys) : Z → Z → Prop :=
| null_name scid len v : name_call scid = Some (len, v) → ReadReg s 4 = Ok 0 → bad_call s scid v
| long_name scid len v a bs : name_call scid = Some (len, v) → ReadReg s 4 = Ok a → 0 < a →
    at_mem garbage (vm s) a bs → Z.of_nat (length bs) = len + 1 → 0 ∉ u8 <$> bs →
    a + Z.of_nat (length bs) ≤ 2147483647 → bad_call s scid v
| no_program a bs : ReadReg s 4 = Ok a → ReadReg s 5 = Ok 0 → 0 < a → at_mem garbage (vm s) a bs →
    Z.of_nat (length bs) ≤ FILE_NAME_MAX_LEN + 1 → 0 ∈ u8 <$> bs → a + Z.of_nat (length bs) ≤ 2147483647 →
    host_file (removelast (c_prefix (u8 <$> bs))) = None → bad_call s SC_EXEC (-1)
| no_process id : ReadReg s 4 = Ok id → 0 ≤ id → Table.live (processes s) id = false → bad_call s SC_JOIN (-1)
| bad_transfer scid a n fid : scid = SC_READ ∨ scid = SC_WRITE → ReadReg s 4 = Ok a → ReadReg s 5 = Ok n →
    ReadReg s 6 = Ok fid → a = 0 ∨ n ≤ 0 ∨ fid < 0 → bad_call s scid 0
| no_file_read fid t : ReadReg s 6 = Ok fid → GetOpenedFilesTable s = Ok t → 0 < fid → Table.live t fid = false →
    bad_call s SC_READ 0
| no_file_write a bs fid t : ReadReg s 4 = Ok a → ReadReg s 5 = Ok (Z.of_nat (length bs)) → ReadReg s 6 = Ok fid →
    at_mem garbage (vm s) a bs → 0 < a → 0 < Z.of_nat (length bs) ≤ LSDIR_OUTPUT →
    a + Z.of_nat (length bs) ≤ 2147483647 → GetOpenedFilesTable s = Ok t → 0 ≤ fid → fid ≠ 1 →
    Table.live t fid = false → bad_call s SC_WRITE 0
| bad_close fid t : ReadReg s 4 = Ok fid → GetOpenedFilesTable s = Ok t → 0 ≤ fid →
    fid < 2 ∨ Table.live t fid = false → bad_call s SC_CLOSE 1.

(** Calls that stop the kernel, and how. *)
Inductive crashing_call (s : Sys) : Z → err → Prop :=
| negative_process id : ReadReg s 4 = Ok id → id < 0 → crashing_call s SC_JOIN AssertFail
| negative_close fid t : ReadReg s 4 = Ok fid → GetOpenedFilesTable s = Ok t → fid < 0 → crashing_call s SC_CLOSE AssertFail
| long_write a n fid : call_regs s SC_WRITE a n fid → a ≠ 0 → n > LSDIR_OUTPUT → 0 ≤ fid → crashing_call s SC_WRITE AssertFail
| long_read_console a n cs rest : call_regs s SC_READ a n CONSOLE_INPUT → a ≠ 0 → n > LSDIR_OUTPUT →
    input s = cs ++ rest → Z.of_nat (length cs) = n → crashing_call s SC_READ AssertFail
| long_read_file a n fid t f bs f' x' : call_regs s SC_READ a n fid → a ≠ 0 → n > LSDIR_OUTPUT → fid ≠ CONSOLE_INPUT →
    GetOpenedFilesTable s = Ok t → Table.live t fid = true → rd (Table.data t) fid = Ok (FOpen f) →
    ReadWrite.Read FUEL f (fs_disk (fs s)) n false = Ok (bs, f', x') → bs ≠ [] → crashing_call s SC_READ AssertFail
| read_output a n t : call_regs s SC_READ a n CONSOLE_OUTPUT → a ≠ 0 → 0 < n → GetOpenedFilesTable s = Ok t →
    Table.live t CONSOLE_OUTPUT = true → rd (Table.data t) CONSOLE_OUTPUT = Ok FNull → crashing_call s SC_READ NullPointer
| write_input a bs t : call_regs s SC_WRITE a (Z.of_nat (length bs)) CONSOLE_INPUT → at_mem garbage (vm s) a bs → 0 < a →
    0 < Z.of_nat (length bs) ≤ LSDIR_OUTPUT → a + Z.of_nat (length bs) ≤ 2147483647 → GetOpenedFilesTable s = Ok t →
    Table.live t CONSOLE_INPUT = true → rd (Table.data t) CONSOLE_INPUT = Ok FNull → crashing_call s SC_WRITE NullPointer.

(** The call was refused: only the answer and the program counters changed. *)
Definition refused (s : Sys) (v : Z) (r : result outcome) : Prop :=
  ∃ s', r = Ok (Returned s') ∧ ReadReg s' 2 = Ok v ∧ SyscallSpec.advanced s s' ∧ only_vm s s' ∧ user_ok garbage (vm s') ∧
    same_memory garbage (vm s) (vm s').

(** The same without the other registers, which [SyscallSpec] gives. *)
Definition answered (s : Sys) (v : Z) (r : result outcome) : Prop :=
  ∃ s', r = Ok (Returned s') ∧ ReadReg s' 2 = Ok v ∧ only_vm s s' ∧ user_ok garbage (vm s') ∧
    same_memory garbage (vm s) (vm s').

Lemma refuse (s s1 : Sys) v : user_ok garbage (vm s1) → same_memory garbage (vm s) (vm s1) → only_vm s s1 →
  answered s v (return_value s1 v).
Proof.
  intros Hu Hm Ho. destruct (return_value_ok s1 v Hu) as (s' & E & Hu' & Hm' & Ho' & H2).
  exists s'. split_and!; [done|done| |done|by etrans]. by eapply only_vm_trans.
Qed.

Lemma refuse_now (s : Sys) v : user_ok garbage (vm s) → answered s v (return_value s v).
Proof. intros Hu. apply refuse; [done|done|]. by destruct s. Qed.

(** The name of a call, or a refusal. *)
Lemma read_name_ok (s : Sys) a len bs : user_ok garbage (vm s) → at_mem garbage (vm s) a bs → 0 < a → 0 ≤ len →
  Z.of_nat (length bs) ≤ len + 1 → Z.of_nat (length bs) = len + 1 ∨ 0 ∈ u8 <$> bs → a + Z.of_nat (length bs) ≤ 2147483647 →
  ∃ v, read_name garbage temp s a len
      = Ok (if bool_decide (0 ∈ u8 <$> bs) then Some (removelast (c_prefix (u8 <$> bs))) else None, set_vm s v) ∧
    user_ok garbage v ∧ same_memory garbage (vm s) v.
Proof.
  intros Hu Hm Ha Hl Hn Ht Hr.
  destruct (ReadString_ok garbage bs (vm s) a (len + 1) temp Hu Hm) as (v & E & Hu' & Hm'); [done|lia|done..|].
  exists v. split_and!; [|done..]. unfold read_name. rewrite E. cbn [mbind result_bind]. done.
Qed.

(** Reads the registers of the call. *)
Ltac call_args := repeat match goal with H : ReadReg ?s ?r = Ok _ |- context [ReadReg ?s ?r ≫= _] =>
  rewrite H; cbn [mbind result_bind] end.

Lemma null_name_ok (s : Sys) scid len v : user_ok garbage (vm s) → ReadReg s 2 = Ok scid →
  name_call scid = Some (len, v) → ReadReg s 4 = Ok 0 → answered s v (handle s).
Proof.
  intros Hu Hid Hc E.
  destruct (ReadReg_ok s 5 Hu) as (x5 & E5); [done|]. destruct (ReadReg_ok s 6 Hu) as (x6 & E6); [done|].
  unfold name_call in Hc.
  repeat (case_bool_decide; [injection Hc as <- <-; subst scid; autorewrite with syscalls;
    unfold Exec, Create, Remove, Open, Cd; call_args; rewrite (bool_decide_true (0 = 0)) by done; cbn iota;
    by apply refuse_now|]). done.
Qed.

Lemma long_name_ok (s : Sys) scid len v a bs : user_ok garbage (vm s) → ReadReg s 2 = Ok scid →
  name_call scid = Some (len, v) → ReadReg s 4 = Ok a → 0 < a → at_mem garbage (vm s) a bs →
  Z.of_nat (length bs) = len + 1 → 0 ∉ u8 <$> bs → a + Z.of_nat (length bs) ≤ 2147483647 → answered s v (handle s).
Proof.
  intros Hu Hid Hc E Ha Hm Hl Hz Hr.
  destruct (ReadReg_ok s 5 Hu) as (x5 & E5); [done|]. destruct (ReadReg_ok s 6 Hu) as (x6 & E6); [done|].
  assert (Hlen : 0 ≤ len) by (unfold name_call in Hc; repeat (case_bool_decide; [by injection Hc as <- <-|]); done).
  destruct (read_name_ok s a len bs Hu Hm Ha Hlen) as (w & Er & Hw & Hsm); [lia|by left|done|].
  rewrite bool_decide_false in Er by done. unfold name_call in Hc.
  repeat (case_bool_decide; [injection Hc as <- <-; subst scid; autorewrite with syscalls;
    unfold Exec, Create, Remove, Open, Cd; call_args; rewrite (bool_decide_false (a = 0)) by lia;
    rewrite Er; cbn [mbind result_bind]; by apply refuse|]). done.
Qed.

Lemma no_program_ok (s : Sys) a bs : user_ok garbage (vm s) → ReadReg s 2 = Ok SC_EXEC →
  ReadReg s 4 = Ok a → ReadReg s 5 = Ok 0 → 0 < a → at_mem garbage (vm s) a bs →
  Z.of_nat (length bs) ≤ FILE_NAME_MAX_LEN + 1 → 0 ∈ u8 <$> bs → a + Z.of_nat (length bs) ≤ 2147483647 →
  host_file (removelast (c_prefix (u8 <$> bs))) = None → answered s (-1) (handle s).
Proof.
  intros Hu Hid E E' Ha Hm Hl Hz Hr Hh. destruct (ReadReg_ok s 6 Hu) as (x6 & E6); [done|].
  autorewrite with syscalls. unfold Exec. call_args. rewrite (bool_decide_false (a = 0)) by lia.
  destruct (read_name_ok s a FILE_NAME_MAX_LEN bs Hu Hm Ha) as (w & Er & Hw & Hsm); [done|done|by right|done|].
  rewrite bool_decide_true in Er by done. rewrite Er. cbn [mbind result_bind]. rewrite (bool_decide_false (0 ≠ 0)) by lia.
  cbn [mbind result_bind]. rewrite Hh. by apply refuse.
Qed.

Lemma bad_transfer_ok (s : Sys) scid a n fid : user_ok garbage (vm s) → ReadReg s 2 = Ok scid →
  scid = SC_READ ∨ scid = SC_WRITE → ReadReg s 4 = Ok a → ReadReg s 5 = Ok n → ReadReg s 6 = Ok fid →
  a = 0 ∨ n ≤ 0 ∨ fid < 0 → answered s 0 (handle s).
Proof.
  intros Hu Hid Hs Ea En Ef Hbad.
  assert (Hg : bool_decide (a = 0) || bool_decide (n <= 0) || bool_decide (fid < 0) = true).
  { rewrite !orb_true_iff, !bool_decide_eq_true. lia. }
  destruct Hs as [-> | ->]; autorewrite with syscalls; unfold Read, Write; call_args; rewrite Hg; by apply refuse_now.
Qed.

Lemma no_file_read_ok (s : Sys) fid t : user_ok garbage (vm s) → ReadReg s 2 = Ok SC_READ →
  ReadReg s 6 = Ok fid → GetOpenedFilesTable s = Ok t → 0 < fid → Table.live t fid = false → answered s 0 (handle s).
Proof.
  intros Hu Hid E Ht Hp Hlive.
  destruct (ReadReg_ok s 4 Hu) as (x4 & E4); [done|]. destruct (ReadReg_ok s 5 Hu) as (x5 & E5); [done|].
  autorewrite with syscalls. unfold Read. call_args. destruct (_ || _ || _); [by apply refuse_now|].
  rewrite bool_decide_false by (unfold CONSOLE_INPUT; lia). rewrite Ht. cbn [mbind result_bind].
  rewrite Table.HasKey_ok, Hlive by lia. cbn [mbind result_bind negb]. by apply refuse_now.
Qed.

Lemma no_file_write_ok (s : Sys) a bs fid t : user_ok garbage (vm s) → ReadReg s 2 = Ok SC_WRITE →
  ReadReg s 4 = Ok a → ReadReg s 5 = Ok (Z.of_nat (length bs)) → ReadReg s 6 = Ok fid →
  at_mem garbage (vm s) a bs → 0 < a → 0 < Z.of_nat (length bs) ≤ LSDIR_OUTPUT →
  a + Z.of_nat (length bs) ≤ 2147483647 → GetOpenedFilesTable s = Ok t → 0 ≤ fid → fid ≠ 1 →
  Table.live t fid = false → answered s 0 (handle s).
Proof.
  intros Hu Hid Ea En Ef Hm Ha Hl Hr Ht Hp Hne Hlive.
  autorewrite with syscalls. unfold Write. call_args.
  rewrite (bool_decide_false (a = 0)), (bool_decide_false (_ <= 0)), (bool_decide_false (fid < 0)) by lia.
  cbn [orb]. destruct (ReadBufferFromUser_correct garbage (vm s) a bs temp Hu Hm Ha Hl Hr) as (w & -> & Hw & Hsm).
  cbn [mbind result_bind]. rewrite bool_decide_false by done.
  change (GetOpenedFilesTable (set_vm s w)) with (GetOpenedFilesTable s). rewrite Ht. cbn [mbind result_bind].
  rewrite Table.HasKey_ok, Hlive by lia. cbn [mbind result_bind negb]. by apply refuse.
Qed.

Lemma no_process_ok (s : Sys) id : user_ok garbage (vm s) → ReadReg s 2 = Ok SC_JOIN →
  ReadReg s 4 = Ok id → 0 ≤ id → Table.live (processes s) id = false → answered s (-1) (handle s).
Proof.
  intros Hu Hid E Hp Hlive. autorewrite with syscalls. unfold Syscalls.Join. call_args. rewrite Table.HasKey_ok, Hlive by done.
  cbn [mbind result_bind negb]. by apply refuse_now.
Qed.

Lemma bad_close_ok (s : Sys) fid t : user_ok garbage (vm s) → ReadReg s 2 = Ok SC_CLOSE →
  ReadReg s 4 = Ok fid → GetOpenedFilesTable s = Ok t → 0 ≤ fid → fid < 2 ∨ Table.live t fid = false →
  answered s 1 (handle s).
Proof.
  intros Hu Hid E Ht Hp Hlive. autorewrite with syscalls. unfold Close. call_args. rewrite Ht. cbn [mbind result_bind].
  rewrite Table.HasKey_ok by done. cbn [mbind result_bind].
  replace (Table.live t fid && bool_decide (fid ≠ 0) && bool_decide (fid ≠ 1)) with false; [by apply refuse_now|].
  destruct Hlive as [|Hlive]; [|by rewrite Hlive].
  destruct (decide (fid = 0)) as [->|]; [by rewrite andb_false_r|].
  rewrite (bool_decide_false (fid ≠ 1)) by lia. by rewrite andb_false_r.
Qed.

Lemma bad_call_ok (s : Sys) scid v : user_ok garbage (vm s) → ReadReg s 2 = Ok scid → bad_call s scid v →
  answered s v (handle s).
Proof.
  intros Hu Hid Hbad. destruct Hbad.
  - by eapply null_name_ok.
  - by eapply long_name_ok.
  - by eapply no_program_ok.
  - by eapply no_process_ok.
  - by eapply bad_transfer_ok.
  - by eapply no_file_read_ok.
  - by eapply no_file_write_ok.
  - by eapply bad_close_ok.
Qed.

Lemma HasKey_negative {T} (t : @Table.Table T) i : i < 0 → Table.HasKey t i = Err AssertFail.
Proof. intros Hi. unfold Table.HasKey. by rewrite (bool_decide_false (i >= 0)) by lia. Qed.

Lemma ASSERT_length n : n > LSDIR_OUTPUT → ASSERT (bool_decide (n > 0) && bool_decide (n <= LSDIR_OUTPUT)) = Err AssertFail.
Proof. intros Hn. by rewrite (bool_decide_false (n <= LSDIR_OUTPUT)), andb_false_r by lia. Qed.

Lemma WriteBuffer_long (v : VM) buffer a n : a ≠ 0 → n > LSDIR_OUTPUT → WriteBufferToUser garbage v buffer a n = Err AssertFail.
Proof. intros Ha Hn. unfold WriteBufferToUser. rewrite (bool_decide_true (a ≠ 0)) by done. cbn [ASSERT mbind result_bind]. by rewrite ASSERT_length. Qed.

(** The guards of [Read] and [Write] let the request through. *)
Lemma transfer_guard a n fid : a ≠ 0 → 0 < n → 0 ≤ fid →
  bool_decide (a = 0) || bool_decide (n <= 0) || bool_decide (fid < 0) = false.
Proof. intros Ha Hn Hf. by rewrite !bool_decide_false by lia. Qed.

Lemma open_entry (t : @Table.Table file_ptr) fid p : Table.live t fid = true → rd (Table.data t) fid = Ok p →
  Table.HasKey t fid = Ok true ∧ Table.Get FNull t fid = Ok p.
Proof.
  intros Hl Hd. pose proof (Table.live_range _ _ Hl) as Hr.
  assert (Table.HasKey t fid = Ok true) as Hk by (rewrite Table.HasKey_ok by lia; by rewrite Hl).
  split; [done|]. unfold Table.Get. rewrite bool_decide_true, Hk by lia. done.
Qed.

Lemma crashing_read_ok (s : Sys) a n fid t p : call_regs s SC_READ a n fid → a ≠ 0 → 0 < n → fid ≠ CONSOLE_INPUT →
  GetOpenedFilesTable s = Ok t → Table.live t fid = true → rd (Table.data t) fid = Ok p →
  (p = FNull → handle s = Err NullPointer) ∧
  (∀ f bs f' x', n > LSDIR_OUTPUT → p = FOpen f → ReadWrite.Read FUEL f (fs_disk (fs s)) n false = Ok (bs, f', x') → bs ≠ [] →
    handle s = Err AssertFail).
Proof.
  intros Hc Ha Hn Hf Ht Hl Hd. rewrite (handle_read _ (cr_id _ _ _ _ _ Hc)). destruct Hc as [_ E1 E2 E3].
  pose proof (Table.live_range _ _ Hl) as Hr. destruct (open_entry _ _ _ Hl Hd) as [Hk Hg].
  unfold Read. rewrite E1, E2, E3. cbn [mbind result_bind]. rewrite transfer_guard, (bool_decide_false (fid = CONSOLE_INPUT)) by lia.
  rewrite Ht. cbn [mbind result_bind]. rewrite Hk. cbn [mbind result_bind negb]. rewrite Hg. split; [by intros ->|].
  intros f bs f' x' Hlong -> ER Hbs. cbn [mbind result_bind deref_file]. rewrite ER. cbn [mbind result_bind on_fs FileSystem.set_disk snd].
  unfold set_file. match goal with |- context [GetOpenedFilesTable ?x] => change (GetOpenedFilesTable x) with (GetOpenedFilesTable s) end.
  rewrite Ht. cbn [mbind result_bind]. apply rd_inv in Hd as [_ Hd]. apply lookup_lt_Some in Hd. rewrite wr_ok by lia.
  cbn [mbind result_bind]. rewrite bool_decide_false by (destruct bs; [done|cbn; lia]). by rewrite WriteBuffer_long.
Qed.

Lemma crashing_write_ok (s : Sys) a n fid : call_regs s SC_WRITE a n fid → a ≠ 0 → 0 < n → 0 ≤ fid →
  handle s = (r ← ReadBufferFromUser garbage (vm s) a n temp;
    let s' := set_vm s r.2 in
    if bool_decide (fid = CONSOLE_OUTPUT) then return_value (set_output s' (output s' ++ take (Z.to_nat n) r.1)) n
    else t ← GetOpenedFilesTable s; h ← Table.HasKey t fid;
      if negb h then return_value s' 0
      else p ← Table.Get FNull t fid; file ← deref_file p;
        r2 ← ReadWrite.Write uninit FUEL (openFilesTable (fs s)) (freeMapFile (fs s)) file (fs_disk (fs s)) r.1 n false;
        let '(bytesWrited, file, x) := r2 in
        r3 ← on_fs s' (FileSystem.set_disk x);
        s' ← set_file r3.2 fid (FOpen file);
        return_value s' (if bool_decide (bytesWrited <= 0) then 0 else bytesWrited)).
Proof.
  intros Hc Ha Hn Hf. rewrite (handle_write _ (cr_id _ _ _ _ _ Hc)). destruct Hc as [_ E1 E2 E3].
  unfold Write. rewrite E1, E2, E3. cbn [mbind result_bind]. rewrite transfer_guard by done.
  destruct (ReadBufferFromUser garbage (vm s) a n temp) as [[buf v]|]; reflexivity.
Qed.

Lemma crashing_call_ok (s : Sys) scid e : user_ok garbage (vm s) → ReadReg s 2 = Ok scid → crashing_call s scid e → handle s = Err e.
Proof.
  intros Hu Hid Hbad. destruct Hbad as [id E Hneg|fid t E Ht Hneg|a n fid Hc Ha Hn Hf|a n cs rest Hc Ha Hn Hi Hcs
    |a n fid t f bs f' x' Hc Ha Hn Hf Ht Hl Hd ER Hbs|a n t Hc Ha Hn Ht Hl Hd|a bs t Hc Hm Ha Hn Hr Ht Hl Hd].
  - autorewrite with syscalls. unfold Syscalls.Join. call_args. by rewrite HasKey_negative.
  - autorewrite with syscalls. unfold Close. call_args. rewrite Ht. cbn [mbind result_bind]. by rewrite HasKey_negative.
  - rewrite (crashing_write_ok s a n fid Hc) by (done || unfold LSDIR_OUTPUT in *; lia).
    unfold ReadBufferFromUser. rewrite (bool_decide_true (a ≠ 0)) by done. cbn [ASSERT mbind result_bind]. by rewrite ASSERT_length.
  - rewrite (handle_read _ Hid). destruct Hc as [_ E1 E2 E3]. unfold Read. rewrite E1, E2, E3. cbn [mbind result_bind].
    rewrite transfer_guard by (done || unfold LSDIR_OUTPUT, CONSOLE_INPUT in *; lia).
    rewrite (bool_decide_true (CONSOLE_INPUT = CONSOLE_INPUT)) by done.
    pose proof (read_console_input cs 0 s a n [] rest Hi) as E0. rewrite Nat.add_0_r in E0.
    replace (Z.to_nat n) with (length cs) by lia. rewrite E0. cbn [read_console]. by rewrite WriteBuffer_long.
  - eapply (crashing_read_ok s a n fid t (FOpen f)); try done. unfold LSDIR_OUTPUT in Hn. lia.
  - by apply (crashing_read_ok s a n CONSOLE_OUTPUT t FNull).
  - rewrite (crashing_write_ok s a _ _ Hc) by (unfold CONSOLE_INPUT; lia).
    destruct (ReadBufferFromUser_correct garbage (vm s) a bs temp Hu Hm Ha Hn Hr) as (w & -> & _).
    cbn [mbind result_bind fst snd]. rewrite bool_decide_false, Ht by done. cbn [mbind result_bind].
    destruct (open_entry _ _ _ Hl Hd) as [-> Hg]. cbn [mbind result_bind negb]. by rewrite Hg.
Qed.

(** C18: bad arguments.  A call with a null or too long name, a program that the
    host does not have (for [Exec] without arguments), a null buffer, a
    number of bytes or a descriptor (of [Read] and [Write]) that is not positive
    or negative, a file that is not open, a process that does not exist, or a
    descriptor of the console to close ([bad_call]) is refused with the
    answer [userprog/exception.cc] has for it, and is harmless: the program
    continues behind the call with all its registers but register 2, and no
    byte of any process, no file, no thread, no table and no character of the
    console has changed.  But some bad arguments stop the whole kernel
    ([crashing_call]): a negative number for [Join] and [Close] and more than
    200 bytes for [Read] and [Write] fail an assertion, and [Read] from
    descriptor 1 and [Write] to descriptor 0 use a null pointer. *)
Theorem bad_calls_refused (s : Sys) scid (Hu : user_ok garbage (vm s)) (Hq : SyscallSpec.quiet (vm s))
  (Hid : ReadReg s 2 = Ok scid) :
  (∀ v, bad_call s scid v → refused s v (handle s)) ∧ (∀ e, crashing_call s scid e → handle s = Err e).
Proof.
  split; [|by intros; apply (crashing_call_ok s scid)]. intros v Hbad.
  destruct (bad_call_ok s scid v Hu Hid Hbad) as (s' & E & H2 & Ho & Hu' & Hm). exists s'. split; [done|]. split; [done|].
  split; [|done]. by apply (SyscallHandler_resumes garbage uninit fresh_table temp host_file swap_file s (Returned s') Hq).
Qed.

(** ** Files *)

(** Descriptor [fid] of the running thread stands for the open file [f]. *)
Record descriptor (s : Sys) (fid : Z) (t : @Table.Table file_ptr) (f : OpenFile) : Prop := {
  de_table : GetOpenedFilesTable s = Ok t;
  de_fid : 2 ≤ fid;
  de_live : Table.live t fid = true;
  de_file : rd (Table.data t) fid = Ok (FOpen f)
}.

(** The same table with another state of the file. *)
Definition with_file (t : @Table.Table file_ptr) (fid : Z) (f : OpenFile) : @Table.Table file_ptr :=
  Table.mkTable (<[Z.to_nat fid := FOpen f]> (Table.data t)) (Table.current t) (Table.freed t).

Lemma descriptor_get (s : Sys) fid t f : descriptor s fid t f →
  Table.HasKey t fid = Ok true ∧ Table.Get FNull t fid = Ok (FOpen f) ∧
  ∀ (s1 : Sys) f', GetOpenedFilesTable s1 = Ok t → set_file s1 fid (FOpen f') = Ok (set_files s1 (with_file t fid f')).
Proof.
  intros [Ht Hfid Hl Hd]. assert (Hk : Table.HasKey t fid = Ok true) by (rewrite Table.HasKey_ok by lia; by rewrite Hl).
  split_and!; [done| |].
  - unfold Table.Get. rewrite bool_decide_true, Hk by lia. done.
  - intros s1 f' E. unfold set_file. rewrite E. cbn [mbind result_bind]. apply rd_inv in Hd as [_ Hd].
    apply lookup_lt_Some in Hd. rewrite wr_ok by lia. done.
Qed.

(** C16: [Read] on a file, of at most 200 bytes.  The call returns the number of
    bytes [bs] there are from the position of the descriptor, across the chain
    of headers of the file, at most as many as asked for, and 0 at the end, with
    memory unchanged.  The descriptor [fid] of this thread then stands for an open file
    in which exactly these bytes are behind ([ReadWrite.advanced]: what remains
    is what remained without them); no sector of the disk, no other descriptor and
    nothing else of the kernel changes.  What the program gets in memory is
    the kernel's buffer up to its first null or to the size asked for: the
    bytes [bs], and after them, when the file had fewer than asked for, bytes the
    buffer held before ([uninit]); a null among the bytes of the file ends the
    delivery.  No other byte of any process changes. *)
Theorem file_read_call (s : Sys) a n fid t f hs
  (Hu : user_ok garbage (vm s)) (Hc : call_regs s SC_READ a n fid) (Hd : descriptor s fid t f)
  (Hx : ss_ok (fs_disk (fs s))) (Hf : file_wf (hdr f))
  (Hch : chain (ss_sectors (fs_disk (fs s))) (nextFileHeader (hdr f)) hs) (Hfuel : (length hs ≤ FUEL)%nat)
  (Hseek : 0 ≤ seekPosition f) (Hn : 0 < n ≤ LSDIR_OUTPUT) (Hw : seekPosition f + n < 2 ^ 32)
  (Ha : 0 < a) (Har : a + n < 2147483647) (Hm : ∀ x, a ≤ x < a + n → is_Some (vmem garbage (vm s) x))
  (Hul : length (uninit (n + 1)) = Z.to_nat (n + 1)) (Hub : Forall is_byte (uninit (n + 1))) :
  let secs := ss_sectors (fs_disk (fs s)) in
  let bs := take (Z.to_nat n) (drop (Z.to_nat (seekPosition f)) (contents (hdr f) secs) ++ chain_contents secs hs) in
  let buffer := bs ++ drop (length bs) (uninit (n + 1)) in
  Forall is_byte bs →
  ∃ s' f' hs' x', handle s = Ok (Returned s') ∧ ReadReg s' 2 = Ok (Z.of_nat (length bs)) ∧ user_ok garbage (vm s') ∧
    ss_ok x' ∧ ss_sectors x' = secs ∧ ReadWrite.advanced secs f hs n f' hs' ∧
    s' = set_vm (set_files (set_fs s (Volume.with_disk (fs s) x')) (with_file t fid f')) (vm s') ∧
    (if decide (bs = []) then same_memory garbage (vm s) (vm s')
     else wrote garbage (vm s) (vm s') a (c_prefix (take (Z.to_nat n) buffer))).
Proof.
  intros secs bs buffer Hbs. rewrite (handle_read _ (cr_id _ _ _ _ _ Hc)). destruct Hc as [_ E1 E2 E3]. pose proof (de_fid _ _ _ _ Hd) as Hfid.
  destruct (descriptor_get _ _ _ _ Hd) as (Hk & Hg & Hset). unfold Read. rewrite E1, E2, E3. cbn [mbind result_bind].
  rewrite transfer_guard by lia. rewrite (bool_decide_false (fid = CONSOLE_INPUT)) by (unfold CONSOLE_INPUT; lia).
  rewrite (de_table _ _ _ _ Hd). cbn [mbind result_bind]. rewrite Hk. cbn [mbind result_bind negb]. rewrite Hg.
  cbn [mbind result_bind deref_file].
  destruct (Read_advances FUEL f (fs_disk (fs s)) hs n Hx Hf Hch Hseek) as (f' & x' & hs' & ER & Hx' & Hs' & Had); [lia..|done|].
  unfold remaining in ER. fold secs in ER. fold bs in ER. rewrite ER. cbn [mbind result_bind on_fs FileSystem.set_disk snd].
  rewrite Hset by apply (de_table _ _ _ _ Hd). cbn [mbind result_bind].
  change (FileSystem.mkFS x' (openFilesTable (fs s)) (freeMapFile (fs s)) (directoryFile (fs s)) (directorySize (fs s)) (messages (fs s)))
    with (Volume.with_disk (fs s) x').
  set (s1 := set_files (set_fs s (Volume.with_disk (fs s) x')) (with_file t fid f')).
  assert (Hu1 : user_ok garbage (vm s1)) by exact Hu. case_bool_decide as Hz.
  - assert (bs = []) as Hnil by (apply length_zero_iff_nil; lia). destruct (decide (bs = [])); [|done].
    destruct (return_value_ok s1 0 Hu1) as (s' & E & Hu' & Hm' & Ho & H2).
    exists s', f', hs', x'. rewrite Hnil. by split_and!.
  - destruct (decide (bs = [])) as [E0|_]; [by rewrite E0 in Hz|]. fold buffer.
    assert (Hlb : length buffer = Z.to_nat (n + 1)).
    { unfold buffer. rewrite length_app, length_drop, Hul. unfold bs. rewrite length_take. lia. }
    destruct (WriteBuffer_ok garbage (vm s1) a n buffer Hu1) as (v & E & Huv & Hwr); [|done|done|lia| |lia|].
    { unfold buffer. apply Forall_app. split; [done|by apply Forall_drop]. }
    { intros x Hxx. apply Hm. pose proof (c_prefix_length (take (Z.to_nat n) buffer)) as Hcl. rewrite length_take in Hcl. lia. }
    rewrite E. cbn [mbind result_bind].
    destruct (return_value_ok (set_vm s1 v) (Z.of_nat (length bs)) Huv) as (s' & E' & Hu' & Hm' & Ho & H2).
    exists s', f', hs', x'. do 6 (split; [done|]). split; [by rewrite Ho|]. eapply wrote_same; [exact Hwr|exact Hm'].
Qed.

End UserPrograms.

(** ** The start of a program *)
Section Start.
Context (garbage : list Z) (temp : Z).
Lemma vpage_some v t id n e : vm_inv garbage None v t → pte v id n = Some e →
  ∃ pg, vpage garbage v id n = Some pg ∧ length pg = 128%nat.
Proof.
  intros Hi He. destruct (vi_pte _ _ _ _ Hi _ _ _ He) as (_ & _ & Hp). unfold pte in He. unfold vpage.
  destruct (sp_of v id) as [sp|] eqn:Es; [|done]. cbn in He |- *. rewrite He. cbn. case_decide as Hm.
  - destruct (dirty e).
    + eexists. split; [done|]. unfold swap_page. apply pad_length. rewrite length_take. lia.
    + destruct (vi_image _ _ _ _ Hi id sp n Es) as (pg & -> & Hl); [by eapply lookup_lt_Some|]. by exists pg.
  - destruct Hp as [?|[Hp _]]; [done|]. eexists. split; [done|]. by eapply frame_at_length.
Qed.

(** Every address of the address space can be used. *)
Lemma space_visible v t sp x : vm_inv garbage None v t → space_of v (currentSpace v) = Ok sp →
  0 ≤ x < numPages sp * PAGE_SIZE → is_Some (vmem garbage v x).
Proof.
  intros Hi Hspace Hx. change PAGE_SIZE with 128 in Hx. unfold numPages in Hx.
  assert (Es : sp_of v (currentSpace v) = Some sp).
  { unfold space_of in Hspace. unfold sp_of. destruct (runningProcesses v !! currentSpace v) as [[sp'|]|]; [|done..].
    by injection Hspace as ->. }
  destruct (lookup_lt_is_Some_2 (pages sp) (Z.to_nat (x / 128))) as [e He]; [Z.div_mod_to_equations; lia|].
  assert (Hp : pte v (currentSpace v) (Z.to_nat (x / 128)) = Some e) by (unfold pte; rewrite Es; exact He).
  destruct (vpage_some _ _ _ _ _ Hi Hp) as (pg & Hpg & Hl). unfold vmem. rewrite bool_decide_true, Hpg by lia.
  apply lookup_lt_is_Some_2. pose proof (Z.mod_pos_bound x 128). lia.
Qed.

(** The registers of a new program: zero, apart from three. *)
Lemma InitRegisters_ok v sp : length (registers (machine v)) = 40%nat →
  ∃ m, InitRegisters v sp = Ok (set_machine v m) ∧ mmu m = vm_mmu v ∧ handlers m = handlers (machine v) ∧
    length (registers m) = 40%nat ∧
    ∀ q, 0 < q < NUM_TOTAL_REGS → reg m q = Ok (if decide (q = STACK_REG) then s32 (u32 (numPages sp * PAGE_SIZE - 16))
      else if decide (q = NEXT_PC_REG) then 4 else 0).
Proof.
  intros Hl. unfold InitRegisters.
  assert (HW : ∀ (m : Machine) r x, length (registers m) = 40%nat → 0 ≤ r < 40 → ∃ m', WriteRegister m r x = Ok m' ∧
    mmu m' = mmu m ∧ handlers m' = handlers m ∧ length (registers m') = 40%nat ∧
    ∀ q, 0 ≤ q → reg m' q = if decide (q = r ∧ r ≠ 0) then Ok x else reg m q).
  { intros m r x Hm Hr. unfold WriteRegister. rewrite (bool_decide_true (r < NUM_TOTAL_REGS)) by (unfold NUM_TOTAL_REGS; lia).
    cbn [ASSERT mbind result_bind]. case_bool_decide.
    - destruct (set_reg_effect m r x Hm Hr) as (m' & -> & ? & ? & ? & Q). exists m'. split_and!; try done.
      intros q Hq. rewrite Q by done. repeat case_decide; tauto || done.
    - exists m. split_and!; try done. intros q Hq. by rewrite decide_False by tauto. }
  destruct (for_loop_ind (λ i m, mmu m = vm_mmu v ∧ handlers m = handlers (machine v) ∧ length (registers m) = 40%nat ∧
      ∀ q, 0 < q < i → reg m q = Ok 0) (span 0 NUM_TOTAL_REGS) 0
    (λ i m, WriteRegister m i 0) (machine v)) as (m0 & -> & Hm0 & Hh0 & Hl0 & Q0).
  - split_and!; try done. intros. lia.
  - intros i m Hi (Hm & Hh & Hlm & Q). change (span 0 NUM_TOTAL_REGS) with 40%nat in Hi.
    destruct (HW m i 0 Hlm) as (m' & -> & Hm' & Hh' & Hl' & Q'); [lia|]. eexists. split; [done|].
    split_and!; try congruence. intros q Hq. rewrite Q' by lia.
    destruct (decide (q = i ∧ i ≠ 0)); [done|]. apply Q. lia.
  - change (0 + Z.of_nat (span 0 NUM_TOTAL_REGS)) with 40 in Q0. cbn [mbind result_bind].
    destruct (HW m0 PC_REG 0 Hl0) as (m1 & -> & Hm1 & Hh1 & Hl1 & Q1); [done|]. cbn [mbind result_bind].
    destruct (HW m1 NEXT_PC_REG 4 Hl1) as (m2 & -> & Hm2 & Hh2 & Hl2 & Q2); [done|]. cbn [mbind result_bind].
    destruct (HW m2 STACK_REG (s32 (u32 (numPages sp * PAGE_SIZE - 16))) Hl2) as (m3 & -> & Hm3 & Hh3 & Hl3 & Q3); [done|].
    cbn [mbind result_bind]. exists m3. split_and!; try congruence; [done|]. intros q Hq. unfold NUM_TOTAL_REGS in Hq.
    rewrite Q3, Q2, Q1, Q0 by lia.
    unfold STACK_REG, NEXT_PC_REG, PC_REG in *. repeat case_decide; try done; lia.
Qed.

(** The state in which the code of a program begins to run. *)
Record starts (v v' : VM) (argc sp : Z) : Prop := {
  sg_pc : ReadRegister (machine v') PC_REG = Ok 0;
  sg_npc : ReadRegister (machine v') NEXT_PC_REG = Ok 4;
  sg_argc : ReadRegister (machine v') 4 = Ok argc;
  sg_sp : ReadRegister (machine v') STACK_REG = Ok sp;
  sg_ok : user_ok garbage v'
}.

(** Before the arguments are written. *)
Lemma start_ok v t sp : vm_inv garbage None v t → all_invalid t → length (registers (machine v)) = 40%nat →
  handlers (machine v) PAGE_FAULT_EXCEPTION = true → space_of v (currentSpace v) = Ok sp →
  16 ≤ numPages sp * PAGE_SIZE < 2 ^ 31 →
  ∃ v1, InitRegisters v sp = Ok v1 ∧ RestoreState v1 = Ok v1 ∧ user_ok garbage v1 ∧ same_memory garbage v v1 ∧
    ∀ q, 0 < q < NUM_TOTAL_REGS → reg (machine v1) q = Ok (if decide (q = STACK_REG) then numPages sp * PAGE_SIZE - 16
      else if decide (q = NEXT_PC_REG) then 4 else 0).
Proof.
  intros Hi Hn Hl Hh Hspace Hsz. destruct (InitRegisters_ok v sp Hl) as (m & E & Hm & Hhm & Hlm & Q).
  destruct (vm_inv_registers _ v t m Hi Hm) as [Hi2 Hv2]. change (mkVM m _ _ _ _ _) with (set_machine v m) in Hi2, Hv2.
  exists (set_machine v m). split_and!; [done|by apply (RestoreState_ok garbage _ t)| |by split|].
  - split; [by exists t|done|exists 0; split; [by apply Q|lia]|cbn; by rewrite Hhm].
  - intros q Hq. rewrite Q by done. rewrite u32_id, s32_id by (unfold is_u32, is_s32; lia). done.
Qed.

Lemma ReadRegister_reg (m : Machine) q x : q < NUM_TOTAL_REGS → reg m q = Ok x → ReadRegister m q = Ok x.
Proof. intros Hq E. unfold ReadRegister. by rewrite bool_decide_true. Qed.

(** C24: a program starts with its arguments.  After a context switch to a new
    process ([all_invalid]: no translation of another process is left),
    [StartProcess] sets the program counter to 0 and the stack pointer below the
    top of its address space; without arguments [argc] is 0.  With arguments, at
    most 31, that fit its stack, register 4 is their number, register 5 points to
    [argv], the stack pointer leaves 24 bytes free below it, and [argv] holds
    exactly the arguments ([SaveArgs] reads them back, as the program would for
    its own [Exec]); no page of another process changes, and nothing of the
    program outside of this part of its stack. *)
Theorem StartProcess_correct v t sp args
  (Hi : vm_inv garbage None v t) (Hn : all_invalid t) (Hl : length (registers (machine v)) = 40%nat)
  (Hh : handlers (machine v) PAGE_FAULT_EXCEPTION = true) (Hspace : space_of v (currentSpace v) = Ok sp)
  (Hsz : 16 ≤ numPages sp * PAGE_SIZE < 2 ^ 31) :
  let top := numPages sp * PAGE_SIZE - 16 in
  (∃ v', StartProcess garbage v None = Ok v' ∧ starts v v' 0 top ∧ same_memory garbage v v') ∧
  (args ≠ [] → Forall c_string args → Forall (λ str, Z.of_nat (length str) ≤ MAX_ARG_LENGTH) args →
    Z.of_nat (length args) < MAX_ARG_COUNT → 0 < args_sp top args →
    ∃ v' v'', StartProcess garbage v (Some args) = Ok v' ∧
      starts v v' (Z.of_nat (length args)) (args_sp top args - 24) ∧
      ReadRegister (machine v') 5 = Ok (args_sp top args) ∧
      changed garbage v v' (args_sp top args) top ∧
      SaveArgs garbage v' (args_sp top args) temp = Ok (Some args, v'')).
Proof.
  intros top. assert (Htop : top = numPages sp * PAGE_SIZE - 16) by done. destruct (start_ok v t sp Hi Hn Hl Hh Hspace Hsz) as (v1 & EI & ER & Hu1 & Hs1 & Q). fold top in Q. clearbody top.
  unfold StartProcess. rewrite Hspace. cbn [mbind result_bind]. rewrite EI. cbn [mbind result_bind]. rewrite ER.
  cbn [mbind result_bind]. split.
  - destruct (set_register_ok garbage v1 4 0 Hu1) as (m & -> & Hu2 & Hs2 & Q2); [done..|]. cbn [mbind result_bind].
    eexists. split; [done|]. split; [|by etrans].
    split; [..|done]; cbn [machine set_machine]; apply ReadRegister_reg; try done; rewrite Q2 by done.
    + rewrite decide_False, Q by done. done.
    + rewrite decide_False, Q by done. done.
    + by rewrite decide_True.
    + rewrite decide_False, Q by done. done.
  - intros Hne Hc Hal Hcnt Hlo.
    destruct (WriteArgs_ok garbage v1 args top Hu1) as (addrs & v2 & E2 & Hu2 & Hsp2 & Hch & Hst & Hwd & Hz); try done.
    { by rewrite Q. }
    { lia. }
    { intros x Hx. rewrite (same_vmem _ v v1) by done. eapply space_visible; [done..|]. lia. }
    assert (Hq1 : reg (machine v1) LOAD_REG = Ok 0) by (by rewrite Q).
    pose proof (λ q, WriteArgs_regs garbage v1 args _ v2 q Hq1 E2) as R2.
    rewrite E2. cbn [mbind result_bind]. rewrite bool_decide_true by (destruct args; [done|cbn; lia]).
    rewrite (ReadRegister_reg (machine v2) STACK_REG (args_sp top args)) by done. cbn [mbind result_bind].
    set (base := args_sp top args) in *. assert (Hb : base < 2 ^ 31).
    { unfold base, args_sp in *. pose proof (UserMemory.total_pos args). pose proof (Z.mod_pos_bound (top - UserMemory.total args) 4). lia. }
    rewrite s32_id by (unfold is_s32; lia).
    destruct (set_register_ok garbage v2 STACK_REG (base - 24) Hu2) as (m3 & -> & Hu3 & Hs3 & Q3); [done..|]. cbn [mbind result_bind].
    destruct (set_register_ok garbage (set_machine v2 m3) 5 base Hu3) as (m4 & E4 & Hu4 & Hs4 & Q4); [done..|]. cbn [machine set_machine] in E4. rewrite E4. cbn [mbind result_bind].
    destruct (set_register_ok garbage (set_machine v2 m4) 4 (Z.of_nat (length args)) Hu4) as (m5 & E5 & Hu5 & Hs5 & Q5); [done..|].
    cbn [machine set_machine] in Q4, Q5. rewrite E5. cbn [mbind result_bind].
    assert (Hs : same_memory garbage v2 (set_machine v2 m5)) by (etrans; [exact Hs3|]; etrans; [exact Hs4|exact Hs5]).
    destruct (SaveArgs_ok garbage (set_machine v2 m5) addrs args base (top - UserMemory.total args) top temp) as (v6 & E6 & _); try done.
    + unfold base, args_sp. Z.div_mod_to_equations; lia.
    + pose proof (Z.mod_pos_bound (top - UserMemory.total args) 4 ltac:(lia)). unfold base, args_sp in Hlo. lia.
    + lia.
    + eapply Forall2_impl; [exact Hst|]. cbn. intros x y (? & ? & ?). split_and!; try done. by eapply at_mem_same.
    + unfold MAX_ARG_COUNT in Hcnt. pose proof (Z.mod_pos_bound (top - UserMemory.total args) 4 ltac:(lia)). pose proof (UserMemory.total_pos args).
      unfold base, args_sp in *. lia.
    + intros j a Hj. eapply vword_same; [exact Hs|]. by apply (Hwd j).
    + eapply vword_same; [exact Hs|done].
    + eexists _, v6. split; [done|]. split_and!.
      * split; [..|done]; cbn [machine set_machine]; apply ReadRegister_reg; try done; rewrite Q5 by done.
        -- rewrite decide_False, Q4, decide_False, Q3, decide_False, R2, Q by reg_side. done.
        -- rewrite decide_False, Q4, decide_False, Q3, decide_False, R2, Q by reg_side. done.
        -- by rewrite decide_True.
        -- by rewrite decide_False, Q4, decide_False, Q3, decide_True by done.
      * cbn [machine set_machine]. apply ReadRegister_reg; [done|]. rewrite Q5, decide_False, Q4, decide_True by done. done.
      * eapply (changed_same _ _ v1 v2); [exact Hs1|exact Hch|exact Hs].
      * exact E6.
Qed.
End Start.

(** ** Witnesses *)

(** A user program with registers 2, 4, 5, 6 set for a call. *)
Definition demo_calling (scid a b c : Z) : VM :=
  set_machine demo_user (mkMachine (<[2%nat := scid]> (<[4%nat := a]> (<[5%nat := b]> (<[6%nat := c]> (replicate 40 0)))))
    (vm_mmu demo_user) (λ _, true)).

Lemma demo_calling_ok scid a b c : user_ok demo_garbage (demo_calling scid a b c).
Proof.
  split; [|done| |done].
  - exists demo_invalid. apply (vm_inv_registers demo_garbage demo_vm demo_invalid); [apply demo_vm_inv|done].
  - by exists 0.
Qed.

Definition demo_file : OpenFile := mkOpenFile demo_hdr 5 200 5.
Definition demo_fds : @Table.Table file_ptr := Table.mkTable (<[2%nat := FOpen demo_file]> (replicate 1000 FNull)) 3 [].
Definition demo_sys (v : VM) (keys : list Z) : @Sys (list (list Z)) :=
  mkSys v (FileSystem.mkFS demo_store (replicate 1024 demo_entry) demo_fm demo_fm 10 [])
    (Threads.mkKernel {[ 1 := Threads.with_status (Threads.new_Thread false 0 0 3) Threads.RUNNING ]} [] 1 None ∅ ∅ ∅ ∅ ∅)
    (Table.new_Table (replicate 1000 0)) {[ 1 := demo_fds ]} ∅ keys [].

Lemma demo_call_regs scid a b c keys : call_regs (demo_sys (demo_calling scid a b c) keys) scid a b c.
Proof. by split. Qed.

Abbreviation demo_handle := (SyscallHandler demo_garbage demo_uninit [] 99 (λ _, None) (λ _, None)).

(** A write to a descriptor that is not open, and a name of 21 characters; and a
    negative descriptor to close. *)
Lemma bad_calls_refused_witness :
  refused demo_garbage (demo_sys (demo_calling SC_WRITE 130 6 7) []) 0 (demo_handle (demo_sys (demo_calling SC_WRITE 130 6 7) [])) ∧
  refused demo_garbage (demo_sys (demo_calling SC_OPEN 1 0 0) []) (-1) (demo_handle (demo_sys (demo_calling SC_OPEN 1 0 0) [])) ∧
  demo_handle (demo_sys (demo_calling SC_CLOSE (-1) 0 0) []) = Err AssertFail.
Proof.
  split; [|split].
  - apply (bad_calls_refused demo_garbage demo_uninit [] 99 (λ _, None) (λ _, None) (demo_sys (demo_calling SC_WRITE 130 6 7) []) SC_WRITE).
    + apply demo_calling_ok.
    + reflexivity.
    + reflexivity.
    + apply (no_file_write _ _ _ 130 [131; 132; 133; 134; 135; 136] 7 demo_fds); try reflexivity; try done.
      apply mem_is_spec. vm_compute. reflexivity.
  - apply (bad_calls_refused demo_garbage demo_uninit [] 99 (λ _, None) (λ _, None) (demo_sys (demo_calling SC_OPEN 1 0 0) []) SC_OPEN).
    + apply demo_calling_ok.
    + reflexivity.
    + reflexivity.
    + apply (long_name _ _ _ SC_OPEN 20 (-1) 1 (seqZ 2 21)); try reflexivity; try done.
      * apply mem_is_spec. vm_compute. reflexivity.
      * apply (bool_decide_unpack _). vm_compute. exact I.
  - apply (bad_calls_refused demo_garbage demo_uninit [] 99 (λ _, None) (λ _, None) (demo_sys (demo_calling SC_CLOSE (-1) 0 0) []) SC_CLOSE).
    + apply demo_calling_ok.
    + reflexivity.
    + reflexivity.
    + by apply (negative_close _ _ (-1) demo_fds).
Defined.

(** The program writes six bytes of its memory; it reads "hi!" and gets it. *)
Lemma console_calls_witness :
  (∃ s', demo_handle (demo_sys (demo_calling SC_WRITE 130 6 1) []) = Ok (Returned s') ∧
    output s' = [131; 132; 133; 134; 135; 136] ∧ ReadReg s' 2 = Ok 6) ∧
  (∃ s', demo_handle (demo_sys (demo_calling SC_READ 2000 3 0) [104; 105; 33; 10]) = Ok (Returned s') ∧
    input s' = [10] ∧ wrote demo_garbage (demo_calling SC_READ 2000 3 0) (vm s') 2000 [104; 105; 33]).
Proof.
  split.
  - destruct (console_calls demo_garbage demo_uninit [] 99 (λ _, None) (λ _, None) (demo_sys (demo_calling SC_WRITE 130 6 1) [])
      130 [131; 132; 133; 134; 135; 136] []) as [H _].
    + apply demo_calling_ok.
    + reflexivity.
    + unfold LSDIR_OUTPUT. cbn. lia.
    + cbn. lia.
    + repeat (constructor; [unfold is_byte; lia|]). constructor.
    + destruct H as (s' & E & Hs & H2 & _ & _); [apply demo_call_regs|apply mem_is_spec; vm_compute; reflexivity|].
      exists s'. split; [exact E|]. split; [rewrite Hs; reflexivity|exact H2].
  - destruct (console_calls demo_garbage demo_uninit [] 99 (λ _, None) (λ _, None) (demo_sys (demo_calling SC_READ 2000 3 0) [104; 105; 33; 10])
      2000 [104; 105; 33] [10]) as [_ H].
    + apply demo_calling_ok.
    + reflexivity.
    + unfold LSDIR_OUTPUT. cbn. lia.
    + cbn. lia.
    + repeat (constructor; [unfold is_byte; lia|]). constructor.
    + destruct H as (s' & E & Hs & _ & _ & Hw); [apply demo_call_regs|reflexivity| |].
      { intros x Hx. apply (visible_spec _ 2000 3); [vm_compute; reflexivity|]. exact Hx. }
      exists s'. split; [exact E|]. split; [rewrite Hs; reflexivity|exact Hw].
Defined.

(** Twenty bytes of the file, from position 200. *)
Lemma file_read_call_witness :
  ∃ s', demo_handle (demo_sys (demo_calling SC_READ 2000 20 2) []) = Ok (Returned s') ∧ ReadReg s' 2 = Ok 20 ∧
    wrote demo_garbage (demo_calling SC_READ 2000 20 2) (vm s') 2000 [0].
Proof.
  destruct (file_read_call demo_garbage demo_uninit [] 99 (λ _, None) (λ _, None) (demo_sys (demo_calling SC_READ 2000 20 2) [])
    2000 20 2 demo_fds demo_file []) as (s' & f' & hs' & x' & E & H2 & _ & _ & _ & _ & _ & Hw).
  - apply demo_calling_ok.
  - apply demo_call_regs.
  - split; [reflexivity|lia|reflexivity|reflexivity].
  - exact demo_store_ok.
  - exact demo_hdr_wf.
  - constructor.
  - cbn. lia.
  - cbn. lia.
  - unfold LSDIR_OUTPUT. lia.
  - cbn. lia.
  - reflexivity.
  - lia.
  - intros x Hx. apply (visible_spec _ 2000 20); [vm_compute; reflexivity|]. exact Hx.
  - reflexivity.
  - apply Forall_replicate. unfold is_byte. lia.
  - apply (bool_decide_unpack _). vm_compute. exact I.
  - exists s'. split; [exact E|]. split; [exact H2|exact Hw].
Defined.

Lemma StartProcess_correct_witness : ∃ v' v'', StartProcess demo_garbage demo_vm (Some demo_args) = Ok v' ∧
  starts demo_garbage demo_vm v' 2 2244 ∧ ReadRegister (machine v') 5 = Ok 2268 ∧
  SaveArgs demo_garbage v' 2268 99 = Ok (Some demo_args, v'').
Proof.
  destruct (StartProcess_correct demo_garbage 99 demo_vm demo_invalid demo_space demo_args) as [_ H].
  - exact demo_vm_inv.
  - repeat constructor.
  - reflexivity.
  - reflexivity.
  - reflexivity.
  - vm_compute. split; congruence.
  - destruct H as (v' & v'' & E & Hs & H5 & _ & E2).
    + discriminate.
    + constructor; [exists [108; 115]|constructor; [exists [97]|constructor]];
        (split; [reflexivity|]; repeat (constructor; [lia|]); constructor).
    + do 2 (constructor; [unfold MAX_ARG_LENGTH; cbn; lia|]). constructor.
    + reflexivity.
    + reflexivity.
    + exists v', v''. split; [exact E|]. split; [exact Hs|]. split; [exact H5|exact E2].
Defined.
