(* ===== verification/Running.v ===== *)
(** * From [Machine::Run] into a system call

    A system call instruction of a user program, met by the loop of
    [machine/mips_sim.cc] ([Timesharing]): its handler of [userprog/exception.cc] is
    reached with the registers and the memory that the program had, and a
    program that writes to the console is printed and goes on behind the
    instruction. *)

From S2P Require Import Prelude Bitmap Disk ReadWrite FileSystem Mmu Mips MipsSpec Simulation AddressSpace Paging Transfer UserMemory Execution.
From S2P Require Import Syscalls SyscallSpec UserPrograms.
From S2P Require Table Threads Interrupt Timesharing.
From stdpp Require Import base option list gmap numbers tactics.
From stdpp Require Import list.
Open Scope Z_scope.

Section Running.
Context {S : Type} `{HStore : SectorStore S} `{HSpec : !SectorStoreSpec S}.
Context (garbage : list Z) (uninit : Z → list Z) (fresh_table : list file_ptr) (temp : Z).
Context (host_file : list Z → option Bin.BinFile) (swap_file : Z → option Bin.BinFile).
Context {D DS : Type} (device : D → DS → DS * list (D * Z * Interrupt.IntType)).
(** Devices schedule their interrupts for the future, at most [M] ticks ahead. *)
Context (M : Z) (HM : Interrupt.TIMER_TICKS * 2 ≤ M)
  (Hdev : ∀ d x d' n ty, (d', n, ty) ∈ (device d x).2 → 0 < n ≤ M).
Abbreviation Sys := (@Sys S).
Abbreviation Sim := (Interrupt.Sim D (Timesharing.Kern DS)).
Abbreviation handle := (SyscallHandler garbage uninit fresh_table temp host_file swap_file).

(** ** The system call instruction *)
(** The program is at a [syscall], and no load is pending. *)
Record at_syscall (v : VM) : Prop := {
  as_pc : ∃ pc, registers (machine v) !! 34%nat = Some pc ∧ misaligned (u32 pc) 4 = false ∧
    at_mem garbage v (u32 pc) [12; 0; 0; 0];
  as_load : reg (machine v) LOAD_REG = Ok 0;
  as_handler : handlers (machine v) SYSCALL_EXCEPTION = true
}.

Lemma flat_syscall (f : MachineOf Flat) pc : cpu_ok (registers f) → registers f !! 34%nat = Some pc →
  handlers f SYSCALL_EXCEPTION = true → misaligned (u32 pc) 4 = false →
  flat_bytes (mmu f) (u32 pc) 4 = Some [12; 0; 0; 0] →
  processor_step f = Ok (Raised SYSCALL_EXCEPTION (settled 0 f)).
Proof.
  intros Hc Hpc Hh Hm Hb. destruct (lookup_lt_is_Some_2 (registers f) 35%nat) as [npc Hn]; [destruct Hc; lia|].
  unfold processor_step, FetchInstruction, reg. rewrite (rd_ok _ _ pc) by done.
  cbn [mbind result_bind mem_read Flat_memory]. unfold flat_read. rewrite Hm.
  change (Z.to_nat 4) with 4%nat. rewrite Hb. cbn [mbind result_bind].
  assert (Ed : Decode (u32 (value_of 4 [12; 0; 0; 0])) = Ok (mkInstr 12 OP_SYSCALL 0 0 0 0)) by (vm_compute; reflexivity).
  rewrite Ed. cbn [mbind result_bind]. unfold ExecInstruction, reg. cbn [registers set_mmu].
  rewrite (rd_ok _ NEXT_PC_REG npc) by done. cbn [mbind result_bind opCode]. by apply (raise_settles (set_mmu f (mmu f))).
Qed.

Lemma at_mem_bytes v a bs : at_mem garbage v a bs → flat_bytes (vmem garbage v) a (length bs) = Some bs.
Proof.
  intros H. unfold flat_bytes. apply mapM_Some. apply Forall2_same_length_lookup. split; [by rewrite length_seq|].
  intros i x y Hx Hy. apply lookup_seq in Hx as [-> Hi]. cbn. by rewrite H.
Qed.

(** The handler of a system call finds the registers and the memory of the
    program, after at most two page faults. *)
Lemma syscall_traps n v : user_ok garbage v → at_syscall v → 0 ≤ n → ages_ok (n + 12) (lru v) →
  ∃ v', attempts garbage 3 v = Ok (Trapped SYSCALL_EXCEPTION v') ∧
    registers (machine v') = settle 0 (registers (machine v)) ∧ user_ok garbage v' ∧
    (∀ a, vmem garbage v' a = vmem garbage v a) ∧ currentSpace v' = currentSpace v ∧
    (∀ id p, id ≠ currentSpace v → vpage garbage v' id p = vpage garbage v id p) ∧ ages_ok n (lru v').
Proof.
  intros Hu [(pc & Hpc & Hm & Hb) Hl Hh] Hn Ha. pose proof (user_cpu _ _ Hu) as Hc.
  set (F := vmem garbage v). set (f0 := flat_machine v F).
  apply at_mem_bytes in Hb. change (length [12; 0; 0; 0]) with 4%nat in Hb.
  assert (E0 : processor_step f0 = Ok (Raised SYSCALL_EXCEPTION (settled 0 f0))) by (by eapply flat_syscall).
  assert (E1 : ∀ b, processor_step (settled b f0) = Ok (Raised SYSCALL_EXCEPTION (settled 0 f0))).
  { intros b. rewrite (flat_syscall _ pc); try done; [|by apply settle_ok|by cbn; rewrite settle_pc].
    do 2 f_equal. unfold settled. cbn. by rewrite settle_settle. }
  destruct (instruction_ok garbage n v F) as (x & f & o & E & Hf & Ep & Hag); try done.
  { by eexists. }
  { intros b. eexists. by apply E1. }
  assert (o = Raised SYSCALL_EXCEPTION (settled 0 f0)) as ->.
  { destruct Hf as [-> | [b ->]]; [fold f0 in Ep; rewrite E0 in Ep|fold f0 in Ep; rewrite E1 in Ep]; by injection Ep as <-. }
  destruct x as [|?|e v']; try done. destruct Hag as [-> []]. by exists v'.
Qed.

Lemma settle_keeps rg q : cpu_ok rg → rg !! 37%nat = Some 0 → (0 < q < 37)%nat → settle 0 rg !! q = rg !! q.
Proof.
  intros Hc H0 Hq. destruct (settle_lookup 0 rg q Hc) as (r & w & Er & _ & _ & ->).
  assert (r = 0) as -> by congruence. change (Z.to_nat 0) with 0%nat. by rewrite !decide_False by lia.
Qed.

(** [Run] reaches the handler of an exception. *)
Lemma trap_reached k T (sim : Sim) v v' : Timesharing.clock Interrupt.USER_MODE T sim → Timesharing.running sim = Ok v →
  cpu_ok (registers (machine v)) → attempts garbage k v = Ok (Trapped SYSCALL_EXCEPTION v') →
  Timesharing.now sim + Z.of_nat k < T → Timesharing.now sim + Z.of_nat k + 10 + M < 2 ^ 31 →
  ∃ i sim', (1 ≤ i ≤ Datatypes.S k)%nat ∧
    Timesharing.iterations device garbage i sim = Ok (Timesharing.AtHandler SYSCALL_EXCEPTION sim') ∧
    Timesharing.running sim' = Ok v'.
Proof.
  intros Hck Hv Hc E HT Hb.
  destruct (Timesharing.attempts_iterations device garbage M HM Hdev k T sim v _ Hck Hv Hc E)
    as (i & s1 & v1 & Hi & Ei & _ & _ & Hv1 & Ex); [by intros ?|done|done|].
  exists (i + 1)%nat, (Interrupt.SetStatus (Timesharing.set_running s1 v') Interrupt.SYSTEM_MODE).
  split; [lia|]. split; [|exact (Timesharing.running_set s1 v')].
  rewrite (Timesharing.iterations_add device garbage i 1 sim s1 Ei). cbn [Timesharing.iterations].
  unfold Timesharing.iteration. rewrite Hv1. cbn [mbind result_bind]. rewrite Ex. done.
Qed.

(** C17: a program prints.  A user program is at a [syscall] instruction with the
    registers of a [Write] of 1 to 200 bytes to the console (with more, the code
    fails an [ASSERT]).  Its pages may be on disk or not yet loaded, any
    interrupts may fire, but the timer is not due within the next three ticks,
    and the clock of the replacement policy does not wrap.  Then [Run] reaches the
    handler of system calls after at most three page faults, in its fourth
    iteration at the latest, and the handler returns to the program: the console
    has got exactly its bytes, register 2 is the number of them, the program
    counter is behind the instruction and every other general register is as it
    was; the memory that the program sees is the same, and no page of another
    process, no file, no thread and no table has changed.  (The time that passes
    inside the handler, where the thread waits for the console, is not modelled.) *)
Theorem program_prints n T (sim : Sim) (s : Sys) v a bs
  (Hck : Timesharing.clock Interrupt.USER_MODE T sim) (Hv : Timesharing.running sim = Ok v)
  (HT : Timesharing.now sim + 3 < T) (Hclock : Timesharing.now sim + 13 + M < 2 ^ 31)
  (Hu : user_ok garbage v) (Hat : at_syscall v) (Hn : 0 ≤ n) (Hages : ages_ok (n + 12) (lru v))
  (Hc : call_regs (set_vm s v) SC_WRITE a (Z.of_nat (length bs)) CONSOLE_OUTPUT)
  (Hm : at_mem garbage v a bs) (Hb : Forall is_byte bs) (Ha : 0 < a)
  (Hl : 0 < Z.of_nat (length bs) ≤ LSDIR_OUTPUT) (Hr : a + Z.of_nat (length bs) ≤ 2147483647) :
  ∃ i sim' v' s', (1 ≤ i ≤ 4)%nat ∧
    Timesharing.iterations device garbage i sim = Ok (Timesharing.AtHandler SYSCALL_EXCEPTION sim') ∧
    Timesharing.running sim' = Ok v' ∧ handle (set_vm s v') = Ok (Returned s') ∧
    s' = set_output (set_vm s (vm s')) (output s ++ bs) ∧ ReadReg s' 2 = Ok (Z.of_nat (length bs)) ∧
    (∀ q, 0 < q < NUM_GP_REGS → q ≠ 2 → ReadReg s' q = ReadReg (set_vm s v) q) ∧
    (∀ pc npc, ReadReg (set_vm s v) PC_REG = Ok pc → ReadReg (set_vm s v) NEXT_PC_REG = Ok npc → is_s32 pc → is_s32 npc →
      ReadReg s' PREV_PC_REG = Ok pc ∧ ReadReg s' PC_REG = Ok npc ∧ ReadReg s' NEXT_PC_REG = Ok (s32 (npc + 4))) ∧
    user_ok garbage (vm s') ∧ (∀ x, vmem garbage (vm s') x = vmem garbage v x) ∧
    (∀ id p, id ≠ currentSpace v → vpage garbage (vm s') id p = vpage garbage v id p).
Proof.
  pose proof (user_cpu _ _ Hu) as Hcpu.
  destruct (syscall_traps n v Hu Hat Hn Hages) as (v' & E & Er & Huv & Hv' & Hcur & Hoth & _).
  destruct (trap_reached 3 T sim v v' Hck Hv Hcpu E) as (i & sim' & Hi & Ei & Hsim'); [lia|lia|].
  assert (Hload : registers (machine v) !! 37%nat = Some 0).
  { destruct Hat as [_ Hl0 _]. unfold reg in Hl0. by apply rd_inv in Hl0 as [_ ?]. }
  assert (Hregs : ∀ q, 0 < q < 37 → ReadReg (set_vm s v') q = ReadReg (set_vm s v) q).
  { intros q Hq. unfold ReadReg, ReadRegister, reg, rd. cbn [vm set_vm]. rewrite Er.
    by rewrite settle_keeps by (done || lia). }
  assert (Hc' : call_regs (set_vm s v') SC_WRITE a (Z.of_nat (length bs)) CONSOLE_OUTPUT)
    by (destruct Hc; split; by rewrite Hregs).
  destruct (console_write_ok garbage uninit fresh_table temp host_file swap_file (set_vm s v') a bs) as (s' & Eh & Es & H2 & Hu' & Hsm);
    try done.
  { intros j Hj. cbn [vm set_vm]. rewrite Hv'. by apply Hm. }
  assert (Hq : quiet (vm (set_vm s v'))).
  { unfold quiet, reg. cbn [vm set_vm]. rewrite Er. apply rd_ok; [done|]. change (Z.to_nat LOAD_REG) with 37%nat.
    destruct (settle_lookup 0 _ 37%nat Hcpu) as (? & ? & _ & _ & _ & ->). by rewrite decide_True by auto. }
  destruct (SyscallHandler_resumes _ _ _ _ _ _ _ _ Hq Eh) as [Hg Hp _].
  exists i, sim', v', s'. split_and!; try done; try lia.
  - intros q Hq1 Hq2. rewrite Hg by done. apply Hregs. unfold NUM_GP_REGS in Hq1. lia.
  - intros pc npc Epc Enpc. apply Hp; by rewrite Hregs.
  - intros x. rewrite <-Hv'. by apply same_vmem.
  - intros id p Hid. rewrite (sm_page _ _ _ Hsm). by apply Hoth.
Qed.
End Running.

(** ** A run *)
(** A program with a [syscall] at address 256, about to write six bytes. *)
Definition demo_printing : VM :=
  match try_write demo_garbage 3 (set_machine demo_user
          (mkMachine (<[2%nat := SC_WRITE]> (<[4%nat := 130]> (<[5%nat := 6]> (<[6%nat := 1]>
             (<[34%nat := 256]> (<[35%nat := 260]> (replicate 40 0)))))))
            (vm_mmu demo_user) (λ _, true))) 256 4 12 with
  | Ok (_, v) => v
  | Err _ => demo_user
  end.

Lemma demo_printing_ok : user_ok demo_garbage demo_printing.
Proof.
  unfold demo_printing. match goal with |- context [try_write _ _ ?s _ _ _] => set (v := s) end.
  assert (Hv : user_ok demo_garbage v).
  { destruct demo_user_ok as [[t Hi] _ _ _]. split; [|done| |done].
    - exists t. by apply (vm_inv_registers demo_garbage demo_user t).
    - exists 0. split; [done|lia]. }
  destruct (try_write_4 demo_garbage 1 v 256 12 Hv) as (v' & -> & Hv' & _); [|done|done|done].
  vm_compute. by eexists.
Qed.

(** At time 100, with the timer at 200. *)
Definition demo_state : Interrupt.Sim unit (Timesharing.Kern unit) :=
  Timesharing.set_running (Timesharing.demo_state 200) demo_printing.

Lemma program_prints_witness : ∃ i sim' v' s', (1 ≤ i ≤ 4)%nat ∧
  Timesharing.iterations Timesharing.demo_device demo_garbage i demo_state
    = Ok (Timesharing.AtHandler SYSCALL_EXCEPTION sim') ∧ Timesharing.running sim' = Ok v' ∧
  demo_handle (demo_sys v' []) = Ok (Returned s') ∧ output s' = [131; 132; 133; 134; 135; 136] ∧
  ReadReg s' 2 = Ok 6 ∧ ReadReg s' PC_REG = Ok 260.
Proof.
  destruct (program_prints demo_garbage demo_uninit [] 99 (λ _, None) (λ _, None) Timesharing.demo_device 200
    ltac:(vm_compute; congruence) ltac:(intros d x d' n ty H; destruct (not_elem_of_nil _ H))
    0 200 demo_state (demo_sys demo_printing []) demo_printing 130
    [131; 132; 133; 134; 135; 136]) as (i & sim' & v' & s' & Hi & E & Hv' & Eh & Es & H2 & _ & Hpc & _).
  - apply Timesharing.clock_running, Timesharing.demo_clock. lia.
  - apply Timesharing.running_set.
  - vm_compute. reflexivity.
  - vm_compute. reflexivity.
  - exact demo_printing_ok.
  - split.
    + exists 256. split; [vm_compute; reflexivity|]. split; [reflexivity|]. apply mem_is_spec. vm_compute. reflexivity.
    + vm_compute. reflexivity.
    + vm_compute. reflexivity.
  - lia.
  - split; [vm_compute; discriminate|vm_compute; reflexivity|].
    apply (bool_decide_unpack _). vm_compute. exact I.
  - split; vm_compute; reflexivity.
  - apply mem_is_spec. vm_compute. reflexivity.
  - repeat (constructor; [unfold is_byte; lia|]). constructor.
  - lia.
  - unfold LSDIR_OUTPUT. cbn. lia.
  - cbn. lia.
  - exists i, sim', v', s'. split; [exact Hi|]. split; [exact E|]. split; [exact Hv'|]. split; [exact Eh|].
    split; [rewrite Es; reflexivity|]. split; [exact H2|].
    apply (Hpc 256 260); [vm_compute; reflexivity|vm_compute; reflexivity|..]; unfold is_s32; lia.
Defined.
